(* ===== verification/_CoqProject ===== *)
-Q . S2P
Prelude.v
Xcom.v
Float64.v
Binomial.v
Xutil.v
StateDB.v
Restricting.v
Vrf.v
RestrictingProofs.v
Keys.v
StakingTypes.v
ValidatorSort.v
StakingDB.v
RewardPer.v
ValidatorLists.v
Staking.v
StakingSlash.v
Election.v
StakingProofs.v
StakingSlashProofs.v
ElectionProofs.v
VerifierProofs.v
StakingContract.v
StakingContractProofs.v
Reward.v
RewardProofs.v
Slashing.v
SlashingProofs.v
EvidenceProofs.v
GovTypes.v
GovDB.v
GovParams.v
Gov.v
GovPlugin.v
GovProofs.v
GovChain.v
GovTheorems.v
GovStaking.v
BitArray.v
PbftTypes.v
PbftValidators.v
BlockTree.v
PbftEvidence.v
PbftState.v
PbftRules.v
PbftNode.v
PbftEngine.v
PbftSync.v
PbftSystem.v
Triples.v
PbftTree.v
PbftQuorum.v
PbftInv.v
PbftSteps.v
PbftInsert.v
PbftVotes.v
PbftHandlers.v
PbftCert.v
PbftSafety.v
PbftRun.v
Accounts.v
AccountsProofs.v
StateTransition.v
StateTransitionProofs.v
Dag.v
DagProofs.v
Parallel.v
ParallelProofs.v
ParallelTransfer.v
