(* ===== verification/Prelude.v ===== *)
(** * Phoenix Chain Core: a verification library

    Phoenix Chain Core is a blockchain node.  Candidates stake coins, holders delegate
    to them, the candidates with the most shares verify an epoch, a lottery draws the
    validators of each consensus round from them, and the validators agree on blocks
    by a pipelined PBFT protocol.  The modules that decide about coins and
    validators are the plugins under src/pos; they run before, inside and after the
    transactions of a block and share two databases, the account state and the
    snapshot database.

    ** How the code is translated

    A stateful operation is a function in the monad [M S A = S -> outcome A * S]: an
    [outcome] is a result, an error ([Err], with the business code of the source where
    it has one) or a panic.  What a failing operation has already written stays in the
    state, as in the code; only a contract call reverts it ([runTx] of
    StakingContract).  Machine integers are integers with the wrap-around written out
    ([u16], [u32], [u64], [i64]); [big.Int] is [Z]; float64 is IEEE binary64 (Float64).
    Databases are finite maps from typed keys; Keys shows that their byte keys do not
    collide.  Logging is left out.  What the code asks of components that are not
    modelled, or of libraries, are the operations of type classes: [Env] (governed
    parameters, node addresses), [ContractEnv] (signature checks), [Lottery] and
    [LotteryLaws] (Go's random source and sort), [GoMath] (elementary functions),
    [Vrf] (curve operations).

    ** Files

    - Prelude: integers, the monad and its inversion lemmas, sums over maps, loops.
    - Xcom, Xutil: the economic model (src/pos/xcom), rounds and epochs
      (src/pos/xutil).
    - Float64, Binomial: floating point and the quantiles of the lottery
      (src/libs/common/math).
    - StateDB, Restricting, RestrictingProofs: balances and the plan releases of the
      restricting plugin.
    - Vrf: the chain's random numbers (src/pos/handler).
    - Keys, StakingTypes, ValidatorSort, StakingDB: keys, records, ordering and
      database of src/pos/staking.
    - RewardPer, ValidatorLists, Staking, StakingSlash, Election: the staking plugin
      (src/pos/plugin/staking_plugin.go) and the reward records it shares;
      StakingProofs, StakingSlashProofs, ElectionProofs, VerifierProofs: their
      theorems.
    - StakingContract, StakingContractProofs: the transactions of users
      (src/ethereum/core/vm/staking_contract.go) and the system they form.
    - Reward, RewardProofs; Slashing, SlashingProofs, EvidenceProofs: the reward and
      slashing plugins.
    - GovTypes, GovDB, GovParams: records, storage and parameters of governance
      (src/pos/gov); Gov: proposals and votes; GovPlugin: tallies, blocks and
      transactions (src/pos/plugin/gov_plugin.go,
      src/ethereum/core/vm/gov_contract.go).
    - GovProofs, GovChain, GovTheorems: governance as a transition system over an
      abstract staking plugin ([StakingPlugin], [StakingLaws]), its invariant and
      theorems; GovStaking: the staking plugin implements the interface.
    - BitArray, PbftTypes, PbftValidators, BlockTree, PbftEvidence, PbftState,
      PbftRules: signer sets, certificates and messages, validators, the tree of
      certified blocks, evidence, the state of a view and the safety rules of the
      consensus engine (src/consensus/pbft/utils, types, protocols, validator,
      evidence, state, rules).
    - PbftNode, PbftEngine, PbftSync: one node of the engine and its handlers
      (src/consensus/pbft/pbft.go, consensus_process.go, sync_process.go); every
      handler is one step, as in the loop of the code.  PbftSystem: nodes, messages
      and faults as a step relation.
    - Triples, PbftTree, PbftQuorum, PbftInv: weakest preconditions of the monad, the
      tree's invariant, quorums and the invariant of a node; PbftSteps, PbftInsert,
      PbftVotes, PbftHandlers: every operation and handler keeps it; PbftCert:
      certificates; PbftSafety: the network; PbftRun: scripts of a network that
      evaluate, with an ideal signature scheme, and the run of four validators in
      which the theorems of the network are applied.
    - Accounts, AccountsProofs: the account state with its ancestors, journal and
      snapshots (src/ethereum/core/state/statedb.go, state_object.go, journal.go).
    - StateTransition, StateTransitionProofs: gas, message calls, creations, receipts
      (src/ethereum/core/state_transition.go, state_processor.go, gaspool.go, evm.go,
      vm/evm.go); the machine below is the class [Machine].
    - Dag, DagProofs: the graph of dependencies and its levels (src/libs/dag/dag.go);
      Parallel, ParallelProofs, ParallelTransfer: the graph of a block, workers as
      lists of atomic steps under a scheduler, merging
      (src/ethereum/core/parallel_*.go, state/parallel_*.go).

    ** What is shown

    - Coins: the staking contract and the restricting contract can always pay what
      they owe ([staking_solvent], [restricting_solvent]); operations move exactly
      what they record ([staking_exact], [WithdrewDelegation_spec],
      [release_pays_due], [rewardStaking_exact], [WithdrawDelegateReward_exact], ...).
    - Punishment: a double signature is fined once, by the governed fraction
      ([Slash_spec], [double_sign_slash]); the bit window of the low-block-rate rule
      is the rule on histories ([zero_window_refines], [waitLoop_refines]).
    - Elections: who can be elected and who must be ([Election_safe],
      [verifiers_top]); sorting and making room end ([ValidatorSort_correct],
      [making_room_ends]); evidence finds its round on record
      ([evidence_on_record]).
    - Data: keys do not collide and sort by priority ([encodeKey_inj],
      [TallyPowerKey_order]); windows and merges keep their shape
      ([setRoundValListAndIndex_window], [DecreaseTotalAmount_correct],
      [nonce_window]).
    - Governance: proposals exclude each other, every vote is counted when it ends,
      parameters stay in their ranges and versions increase ([proposals_exclusive],
      [votes_counted], [params_stay_valid], [versions_increase],
      [version_activates]); who votes stays staked ([stake_frozen_while_voting]).
    - Consensus: correct nodes agree on the block of every height and commit one chain
      ([agreement], [committed_chain]), through every handler, for any loss,
      repetition, reordering and invention of messages and any behaviour of fewer than
      a third of the validators; the state of a node stays well formed
      ([node_wellformed]); a certificate that is built verifies everywhere
      ([certificates_complete]); signer sets are vectors of booleans
      ([BitArray_refines]); a vote without its parent's certificate stops a node
      ([unsigned_vote_stops_node]).  Nodes start once, from the genesis block, with the
      static validators; a node that stops does not come back, because the write-ahead
      log is not modelled.
    - Execution: a revert restores all that can be read ([RevertToSnapshot_restores]); a
      failing call costs only gas ([failed_call_costs_gas]) and no transaction makes
      money ([transaction_makes_no_money]), for every machine that works through the
      operations of the state; the batches of a block respect its order
      ([batches_schedule]), how the workers are scheduled does not matter
      ([ExecuteTransactions_deterministic]), and a transfer is executed entirely or not
      at all ([transfer_all_or_nothing]).  A destroyed account can come back
      ([destroyed_account_returns]).
    - Errors of the code: coins paid twice or lost, a loop that does not end, evidence
      that is dropped early, a block that cannot end ([returned_reward_paid_twice], [zero_income_withdrawals],
      [accepted_config_hangs], [evidence_dropped_early], [cancel_rounds_overflow]).

    ** Bounds

    Loops over lists recurse on them.  The quicksort has fuel proved sufficient
    ([quickSort_enough_fuel]); loops with counters run in [iterate], which takes up to
    2^k steps and stops at the first result ([iterate_ends]); [trimLoop] has no result
    exactly when the loop of the source does not end ([making_room_ends]).  Theorems
    on block numbers hold below 2^60 ([block_bound]).

    ** Not modelled

    Networking, RPC, wallets and commands (input and output); the EVM and WASM
    interpreters and tries; cryptography, which is a parameter.
    Tries, RLP and the snapshot database are not modelled: a trie is the map it
    stores, and the databases are total maps.  Of the execution of blocks the
    interpreters (the class [Machine]), calls between contracts, the deadline of a
    block that is packed, the chain and the transaction pool are not modelled.  Of the consensus engine the write-ahead log, the pool of early
    messages and the peer network are not modelled. *)

From stdpp Require Export base gmap list strings sorting fin_maps.
From Stdlib Require Export ZArith Lia.

#[global] Open Scope Z_scope.

(** ** Machine integers

    Go's unsigned integers wrap around; a [w]-bit unsigned value is a [Z]
    in [0, 2^w) and every operation that can leave the range is followed by
    the reduction below. *)

Definition u16 (x : Z) : Z := x mod 2 ^ 16.
Definition u32 (x : Z) : Z := x mod 2 ^ 32.
Definition u64 (x : Z) : Z := x mod 2 ^ 64.

(** Two's complement reading of the low 64 bits, Go's [int64(x)]. *)
Definition i64 (x : Z) : Z :=
  let y := x mod 2 ^ 64 in if y <? 2 ^ 63 then y else y - 2 ^ 64.

Definition in_u16 (x : Z) : Prop := 0 <= x < 2 ^ 16.
Definition in_u32 (x : Z) : Prop := 0 <= x < 2 ^ 32.
Definition in_u64 (x : Z) : Prop := 0 <= x < 2 ^ 64.

Lemma u64_small x : in_u64 x → u64 x = x.
Proof. apply Z.mod_small. Qed.

Definition in_i64 (x : Z) : Prop := - 2 ^ 63 <= x < 2 ^ 63.

Lemma i64_small x : in_i64 x → i64 x = x.
Proof.
  unfold in_i64, i64. intros Hx. destruct (decide (0 <= x)).
  - rewrite Z.mod_small by lia. destruct (Z.ltb_spec x (2 ^ 63)); lia.
  - rewrite <- (Z.mod_add x 1) by lia. rewrite Z.mod_small by lia.
    destruct (Z.ltb_spec (x + 1 * 2 ^ 64) (2 ^ 63)); lia.
Qed.

Lemma u16_small x : in_u16 x → u16 x = x.
Proof. apply Z.mod_small. Qed.

Lemma u32_small x : in_u32 x → u32 x = x.
Proof. apply Z.mod_small. Qed.

Lemma u64_range x : in_u64 (u64 x).
Proof. apply Z.mod_pos_bound. lia. Qed.

Lemma u32_range x : in_u32 (u32 x).
Proof. apply Z.mod_pos_bound. lia. Qed.

(** ** Errors

    A business error of the code is a [BizError] with its numeric code; every
    other [error] value (an [errors.New], a [fmt.Errorf], a wrapped decoding
    failure) is [GenericError]; [DbNotFound] is [snapshotdb.ErrNotFound]. *)

Inductive Error :=
  | BizError (code : Z)
  | DbNotFound
  | GenericError.

#[export] Instance Error_eq_dec : EqDecision Error.
Proof. solve_decision. Defined.

(** ** Stateful, fallible computations

    A handler runs on a state and ends in a value, an error or a panic.  The
    state is returned in all three cases: a Go function that fails half way
    leaves the writes it already made behind it. *)

Inductive outcome (A : Type) :=
  | Ok (a : A)
  | Err (e : Error)
  | Panic.
Arguments Ok {A} a.
Arguments Err {A} e.
Arguments Panic {A}.

#[export] Instance outcome_ret : MRet outcome := λ A a, Ok a.
#[export] Instance outcome_bind : MBind outcome := λ A B k m,
  match m with Ok a => k a | Err e => Err e | Panic => Panic end.

(** [if cond { return err }], the shape of the code's parameter checks. *)
Definition reject (cond : bool) (e : Error) : outcome unit :=
  if cond then Err e else Ok tt.

Lemma reject_Ok cond e u : reject cond e = Ok u ↔ cond = false.
Proof. destruct cond, u; cbn; split; congruence. Qed.

Lemma outcome_bind_Ok {A B} (m : outcome A) (k : A → outcome B) b :
  (m ≫= k) = Ok b ↔ ∃ a, m = Ok a ∧ k a = Ok b.
Proof.
  destruct m; cbn; split; try done; [eauto|by intros (? & [= <-] & ?)|..];
    by intros (? & ? & ?).
Qed.

Definition M (S A : Type) : Type := S → outcome A * S.

#[export] Instance M_ret S : MRet (M S) := λ A a s, (Ok a, s).

#[export] Instance M_bind S : MBind (M S) := λ A B k m s,
  match m s with
  | (Ok a, s') => k a s'
  | (Err e, s') => (Err e, s')
  | (Panic, s') => (Panic, s')
  end.

Section monad.
Context {S : Type}.

Definition get : M S S := λ s, (Ok s, s).
Definition gets {A} (f : S → A) : M S A := λ s, (Ok (f s), s).
Definition modify (f : S → S) : M S unit := λ s, (Ok tt, f s).
(** The answer of a query as a step of a handler. *)
Definition ask {A} (o : outcome A) : M S A := λ s, (o, s).
Definition fail {A} (e : Error) : M S A := λ s, (Err e, s).
Definition panic {A} : M S A := λ s, (Panic, s).
Definition when (b : bool) (m : M S unit) : M S unit :=
  if b then m else mret tt.
(** Inspect the outcome of a call without propagating its error, the shape
    [if err := f(); err != nil { ... }] has in the source. *)
Definition try {A} (m : M S A) : M S (A + Error) := λ s,
  match m s with
  | (Ok a, s') => (Ok (inl a), s')
  | (Err e, s') => (Ok (inr e), s')
  | (Panic, s') => (Panic, s')
  end.
(** [for _, x := range l { f(x) }]; an error leaves the loop. *)
Fixpoint for_each {A} (f : A → M S unit) (l : list A) : M S unit :=
  match l with
  | [] => mret tt
  | x :: l => f x ≫= λ _, for_each f l
  end.
End monad.

Section monad_laws.
Context {S A B C : Type}.

Lemma bind_ret_l (a : A) (k : A → M S B) s : (mret a ≫= k) s = k a s.
Proof. done. Qed.

Lemma bind_assoc (m : M S A) (k : A → M S B) (h : B → M S C) s :
  ((m ≫= k) ≫= h) s = (m ≫= λ a, k a ≫= h) s.
Proof. unfold mbind, M_bind. by destruct (m s) as [[| |] ?]. Qed.

Lemma bind_Ok_inv (m : M S A) (k : A → M S B) s b s'' :
  (m ≫= k) s = (Ok b, s'') →
  ∃ a s', m s = (Ok a, s') ∧ k a s' = (Ok b, s'').
Proof.
  unfold mbind, M_bind. destruct (m s) as [[a|e|] s']; [eauto|done|done].
Qed.

Lemma bind_Ok_run (m : M S A) (k : A → M S B) s a s' :
  m s = (Ok a, s') → (m ≫= k) s = k a s'.
Proof. unfold mbind, M_bind. by intros ->. Qed.

Lemma bind_Err_run (m : M S A) (k : A → M S B) s e s' :
  m s = (Err e, s') → (m ≫= k) s = (Err e, s').
Proof. unfold mbind, M_bind. by intros ->. Qed.

Lemma bind_ext_run (m : M S A) (k h : A → M S B) s :
  (∀ a s', k a s' = h a s') → (m ≫= k) s = (m ≫= h) s.
Proof. intros Hk. unfold mbind, M_bind. by destruct (m s) as [[| |] ?]. Qed.
End monad_laws.

(** *** Predicates preserved on every path, errors and panics included *)

Create HintDb preserve.

Definition preserves {S A} (P : S → Prop) (m : M S A) : Prop :=
  ∀ s, P s → P (m s).2.

Section preserve_rules.
Context {S : Type} (P : S → Prop).

Lemma preserves_ret {A} (a : A) : preserves P (mret a).
Proof. by intros s. Qed.

Lemma preserves_fail {A} e : preserves P (fail (A:=A) e).
Proof. by intros s. Qed.

Lemma preserves_panic {A} : preserves P (panic (A:=A)).
Proof. by intros s. Qed.

Lemma preserves_gets {A} (f : S → A) : preserves P (gets f).
Proof. by intros s. Qed.

Lemma preserves_modify f : (∀ s, P s → P (f s)) → preserves P (modify f).
Proof. intros H s. apply H. Qed.

Lemma preserves_bind {A B} (m : M S A) (k : A → M S B) :
  preserves P m → (∀ a, preserves P (k a)) → preserves P (m ≫= k).
Proof.
  intros Hm Hk s Hs. specialize (Hm s Hs). unfold mbind, M_bind.
  destruct (m s) as [[a|e|] s']; [by apply Hk|done|done].
Qed.

Lemma preserves_try {A} (m : M S A) : preserves P m → preserves P (try m).
Proof.
  intros Hm s Hs. specialize (Hm s Hs). unfold try.
  by destruct (m s) as [[a|e|] s'].
Qed.

Lemma preserves_when b m : preserves P m → preserves P (when b m).
Proof. destruct b; [done|]. intros _. apply preserves_ret. Qed.

Lemma preserves_for_each {A} (f : A → M S unit) l :
  (∀ x, preserves P (f x)) → preserves P (for_each f l).
Proof.
  intros Hf. induction l; cbn; [apply preserves_ret|].
  by apply preserves_bind.
Qed.
End preserve_rules.

#[export] Hint Resolve preserves_ret preserves_fail preserves_panic
  preserves_gets preserves_when preserves_try preserves_bind
  preserves_for_each : preserve.

(** Reduce a [preserves] goal of a handler to those of the operations it
    calls, case-splitting on the handler's own conditions. *)
Ltac preserve_step :=
  match goal with
  | |- preserves _ (mret _) => apply preserves_ret
  | |- preserves _ (fail _) => apply preserves_fail
  | |- preserves _ panic => apply preserves_panic
  | |- preserves _ (gets _) => apply preserves_gets
  | |- preserves _ (when _ _) => apply preserves_when
  | |- preserves _ (try _) => apply preserves_try
  | |- preserves _ (_ ≫= _) => apply preserves_bind; [|intros ?]
  | |- preserves _ (for_each _ _) => apply preserves_for_each; intros ?
  | |- preserves _ (match ?x with _ => _ end) => destruct x
  | |- preserves _ (let _ := _ in _) => cbv zeta
  end.
Ltac preserve := repeat preserve_step; eauto with preserve.

(** Evaluate a run as far as the code's own conditions allow. *)
Ltac run_eval :=
  cbv beta iota zeta delta [mbind M_bind mret M_ret get gets modify fail panic when try];
  cbn [fst snd].

(** *** Inverting a successful run *)

Lemma pair_Ok_eq {S A} (a b : A) (s s' : S) :
  (Ok a, s) = (Ok b, s') → a = b ∧ s = s'.
Proof. by intros [= -> ->]. Qed.

Ltac run_step :=
  match goal with
  | H : (_ ≫= _) _ = (Ok _, _) |- _ =>
      let a := fresh "a" in let s := fresh "s" in
      let H1 := fresh "Hrun" in let H2 := fresh "Hrun" in
      apply bind_Ok_inv in H as (a & s & H1 & H2)
  | H : mret _ _ = (Ok _, _) |- _ => apply pair_Ok_eq in H as [? ?]; simplify_eq
  | H : gets _ _ = (Ok _, _) |- _ => apply pair_Ok_eq in H as [? ?]; simplify_eq
  | H : get _ = (Ok _, _) |- _ => apply pair_Ok_eq in H as [? ?]; simplify_eq
  | H : modify _ _ = (Ok _, _) |- _ => apply pair_Ok_eq in H as [? ?]; simplify_eq
  | H : fail _ _ = (Ok _, _) |- _ => discriminate H
  | H : panic _ = (Ok _, _) |- _ => discriminate H
  | H : (let _ := _ in _) _ = (Ok _, _) |- _ => cbv zeta in H
  | H : (if ?b then _ else _) _ = (Ok _, _) |- _ => destruct b eqn:?
  | H : (match ?x with _ => _ end) _ = (Ok _, _) |- _ => destruct x eqn:?
  end.
Ltac run_inv := repeat run_step.

(** Boolean comparisons of the code as propositions. *)
Ltac bool_to_prop :=
  repeat match goal with
  | H : (_ <? _) = true |- _ => apply Z.ltb_lt in H
  | H : (_ <? _) = false |- _ => apply Z.ltb_ge in H
  | H : (_ <=? _) = true |- _ => apply Z.leb_le in H
  | H : (_ <=? _) = false |- _ => apply Z.leb_gt in H
  | H : (_ =? _) = true |- _ => apply Z.eqb_eq in H
  | H : (_ =? _) = false |- _ => apply Z.eqb_neq in H
  | H : (_ && _)%bool = true |- _ => apply andb_true_iff in H as [? ?]
  | H : (_ || _)%bool = false |- _ => apply orb_false_iff in H as [? ?]
  | H : negb _ = true |- _ => apply negb_true_iff in H
  | H : negb _ = false |- _ => apply negb_false_iff in H
  end.

(** ** Sums over finite maps *)

Section msum.
Context `{Countable K} {V : Type}.
Implicit Types (m : gmap K V) (f : V → Z).

Definition msum f m : Z := map_fold (λ _ v acc, f v + acc) 0 m.

(** The contribution of one key to the sum. *)
Definition at_key f (k : K) m : Z := from_option f 0 (m !! k).

Lemma msum_empty f : msum f ∅ = 0.
Proof. apply map_fold_empty. Qed.

Lemma msum_insert_new f k v m :
  m !! k = None → msum f (<[k:=v]> m) = f v + msum f m.
Proof.
  intros Hk. unfold msum.
  rewrite (map_fold_insert_L (λ _ v acc, f v + acc)); [done|lia|done].
Qed.

Lemma msum_delete f k m : msum f (delete k m) = msum f m - at_key f k m.
Proof.
  unfold at_key. destruct (m !! k) as [v|] eqn:Hk; cbn.
  - rewrite <- (insert_delete_id m k v Hk) at 2.
    rewrite msum_insert_new by apply lookup_delete_eq. lia.
  - rewrite delete_id by done. lia.
Qed.

Lemma msum_insert f k v m :
  msum f (<[k:=v]> m) = msum f m - at_key f k m + f v.
Proof.
  rewrite <- insert_delete_eq, msum_insert_new by apply lookup_delete_eq.
  rewrite msum_delete. lia.
Qed.

Lemma msum_nonneg f m : (∀ k v, m !! k = Some v → 0 <= f v) → 0 <= msum f m.
Proof.
  induction m as [|k v m Hk IH] using map_ind; intros Hf.
  - by rewrite msum_empty.
  - rewrite msum_insert_new by done.
    assert (0 <= f v) by (apply (Hf k); by rewrite lookup_insert_eq).
    enough (0 <= msum f m) by lia. apply IH. intros k' v' Hk'.
    apply (Hf k'). rewrite lookup_insert_ne; [done|congruence].
Qed.

Lemma msum_ext f g m :
  (∀ k v, m !! k = Some v → f v = g v) → msum f m = msum g m.
Proof.
  induction m as [|k v m Hk IH] using map_ind; intros Hf.
  - by rewrite !msum_empty.
  - rewrite !msum_insert_new by done. f_equal.
    + apply (Hf k). by rewrite lookup_insert_eq.
    + apply IH. intros k' v' Hk'. apply (Hf k').
      rewrite lookup_insert_ne; [done|congruence].
Qed.
End msum.

Lemma msum_at_le `{Countable K} {V} (f : V → Z) (k : K) (m : gmap K V) :
  (∀ k v, m !! k = Some v → 0 <= f v) → at_key f k m <= msum f m.
Proof.
  intros Hf. assert (0 <= msum f (delete k m)) as Hd.
  { apply msum_nonneg. intros k' v [_ Hv]%lookup_delete_Some. by apply (Hf k'). }
  rewrite msum_delete in Hd. lia.
Qed.

(** Sums of lists of integers. *)
Fixpoint zsum (l : list Z) : Z :=
  match l with [] => 0 | x :: l => x + zsum l end.

Lemma zsum_app l1 l2 : zsum (l1 ++ l2) = zsum l1 + zsum l2.
Proof. induction l1; cbn in *; lia. Qed.

Lemma zsum_perm l1 l2 : l1 ≡ₚ l2 → zsum l1 = zsum l2.
Proof. induction 1; cbn in *; lia. Qed.

Lemma zsum_nonneg l : Forall (λ x, 0 <= x) l → 0 <= zsum l.
Proof. induction 1; cbn in *; lia. Qed.

(** ** Loops

    [iterate k f s] takes up to [2 ^ k] steps of [f] from [s], until a step gives a
    result ([inr]); it is executable for large [k] because it stops there. *)

Fixpoint iterate {S R} (k : nat) (f : S → S + R) (s : S) : S + R :=
  match k with
  | O => f s
  | S k => match iterate k f s with inl s => iterate k f s | r => r end
  end.

Section iterate.
Context {S R : Type} (f : S → S + R) (P : S → Prop).
Context (Hstep : ∀ s s', P s → f s = inl s' → P s').

Lemma iterate_inv k s :
  P s →
  match iterate k f s with
  | inl s' => P s'
  | inr r => ∃ s', P s' ∧ f s' = inr r
  end.
Proof using Hstep.
  revert s. induction k as [|k IH]; intros s Hs; cbn [iterate].
  - destruct (f s) eqn:E; eauto.
  - specialize (IH s Hs) as Hk. destruct (iterate k f s) as [s1|]; [by apply IH|done].
Qed.

(** A loop whose measure goes down in each step ends in time. *)
Lemma iterate_ends (measure : S → Z) k s :
  (∀ s s', P s → f s = inl s' → measure s' < measure s) →
  (∀ s, P s → 0 <= measure s) →
  P s → measure s < 2 ^ Z.of_nat k →
  ∃ r s', iterate k f s = inr r ∧ P s' ∧ f s' = inr r.
Proof using Hstep.
  intros Hdec Hpos Hs Hm.
  assert (Hrun : ∀ k s s', P s → iterate k f s = inl s' →
    P s' ∧ measure s' + 2 ^ Z.of_nat k <= measure s).
  { clear k s Hs Hm. induction k as [|k IH]; intros s s' Hs; cbn [iterate].
    - intros Hf. split; [eauto|]. specialize (Hdec s s' Hs Hf). cbn. lia.
    - destruct (iterate k f s) as [s1|] eqn:E; [|done]. intros E2.
      destruct (IH _ _ Hs E) as [Hs1 H1]. destruct (IH _ _ Hs1 E2) as [Hs2 H2].
      split; [done|]. rewrite Nat2Z.inj_succ, Z.pow_succ_r by lia. lia. }
  pose proof (iterate_inv k s Hs) as Hi. destruct (iterate k f s) as [s1|r] eqn:E.
  - destruct (Hrun _ _ _ Hs E) as [Hs1 ?]. specialize (Hpos s1 Hs1). lia.
  - destruct Hi as (s' & ? & ?). eauto.
Qed.
End iterate.
