(* ===== verification/Xcom.v ===== *)
(** * The economic model (src/pos/xcom/common_config.go)

    The configuration records, the three built-in networks, the accessors the
    plugins read their constants from, and [CheckEconomicModel], the check a
    node runs on a configuration before it starts.  The configuration is a
    record passed to the operations that read it; in the source it is the
    package variable [ec]. *)

From S2P Require Import Prelude.

(** ** Configuration records *)

Record commonConfig := {
  MaxEpochMinutes : Z;
  NodeBlockTimeWindow : Z;
  PerRoundBlocks : Z;
  MaxConsensusVals : Z;
  cfgAdditionalCycleTime : Z }.

Record stakingConfig := {
  StakeThreshold : Z;
  OperatingThreshold : Z;
  MaxValidators : Z;
  UnStakeFreezeDuration : Z;
  RewardPerMaxChangeRange : Z;
  RewardPerChangeInterval : Z }.

Record slashingConfig := {
  SlashFractionDuplicateSign : Z;
  DuplicateSignReportReward : Z;
  MaxEvidenceAge : Z;
  SlashBlocksReward : Z;
  ZeroProduceCumulativeTime : Z;
  ZeroProduceNumberThreshold : Z;
  ZeroProduceFreezeDuration : Z }.

Record governanceConfig := {
  VersionProposalVoteDurationSeconds : Z;
  VersionProposalSupportRate : Z;
  TextProposalVoteDurationSeconds : Z;
  TextProposalVoteRate : Z;
  TextProposalSupportRate : Z;
  CancelProposalVoteRate : Z;
  CancelProposalSupportRate : Z;
  ParamProposalVoteDurationSeconds : Z;
  ParamProposalVoteRate : Z;
  ParamProposalSupportRate : Z }.

Record rewardConfig := {
  NewBlockRate : Z;
  PhoenixChainFoundationYear : Z;
  IncreaseIssuanceRatio : Z;
  TheNumberOfDelegationsReward : Z }.

Record restrictingConfig := { MinimumRelease : Z }.

Record innerAccount := {
  PhoenixChainFundAccount : Z;
  PhoenixChainFundBalance : Z;
  CDFAccount : Z;
  CDFBalance : Z }.

Record EconomicModel := {
  Common : commonConfig;
  Staking : stakingConfig;
  Slashing : slashingConfig;
  Gov : governanceConfig;
  Reward : rewardConfig;
  Restricting : restrictingConfig;
  InnerAcc : innerAccount;
  InitialChosenValidators : list Z (* the node ids *) }.

(** ** Constants *)

Definition Eighty : Z := 80.
Definition TenThousand : Z := 10000.
Definition CeilBlocksReward : Z := 50000.
Definition CeilMaxValidators : Z := 10000.
Definition FloorMaxConsensusVals : Z := 4.
Definition CeilMaxConsensusVals : Z := 43.
Definition CeilUnStakeFreezeDuration : Z := 168 * 2.
Definition MaxZeroProduceCumulativeTime : Z := 50.
Definition RewardPerMaxChangeRangeUpperLimit : Z := 2000.
Definition RewardPerMaxChangeRangeLowerLimit : Z := 1.
Definition RewardPerChangeIntervalUpperLimit : Z := 28.
Definition RewardPerChangeIntervalLowerLimit : Z := 2.
Definition IncreaseIssuanceRatioUpperLimit : Z := 2000.
Definition IncreaseIssuanceRatioLowerLimit : Z := 0.

Definition one : Z := 10 ^ 18.
Definition DelegateLowerLimit : Z := 10 * one.
Definition DelegateUpperLimit : Z := 10000 * one.
Definition StakeLowerLimit : Z := 100000 * one.
Definition StakeUpperLimit : Z := 10000000 * one.
Definition FloorMinimumRelease : Z := 100 * one.
Definition CeilMinimumRelease : Z := 10000000 * one.

(** ** The built-in networks *)

Definition DefaultMainNet : Z := 0.
Definition DefaultTestNet : Z := 1.
Definition DefaultUnitTestNet : Z := 2.

Definition cdfundBalance : Z := 322361981 * one.

Definition mainNetConfig (chosen : list Z) : EconomicModel := {|
  Common := {| MaxEpochMinutes := 36; NodeBlockTimeWindow := 2;
    PerRoundBlocks := 1; MaxConsensusVals := 43;
    cfgAdditionalCycleTime := 52596 |};
  Staking := {| StakeThreshold := StakeLowerLimit;
    OperatingThreshold := DelegateLowerLimit; MaxValidators := 201;
    UnStakeFreezeDuration := 168; RewardPerMaxChangeRange := 500;
    RewardPerChangeInterval := 10 |};
  Slashing := {| SlashFractionDuplicateSign := 10;
    DuplicateSignReportReward := 50; MaxEvidenceAge := 27;
    SlashBlocksReward := 250; ZeroProduceCumulativeTime := 20;
    ZeroProduceNumberThreshold := 1; ZeroProduceFreezeDuration := 56 |};
  Gov := {| VersionProposalVoteDurationSeconds := 14 * 24 * 360;
    VersionProposalSupportRate := 6670;
    TextProposalVoteDurationSeconds := 14 * 24 * 360;
    TextProposalVoteRate := 5000; TextProposalSupportRate := 6670;
    CancelProposalVoteRate := 5000; CancelProposalSupportRate := 6670;
    ParamProposalVoteDurationSeconds := 14 * 24 * 3600;
    ParamProposalVoteRate := 5000; ParamProposalSupportRate := 6670 |};
  Reward := {| NewBlockRate := 50; PhoenixChainFoundationYear := 10;
    IncreaseIssuanceRatio := 1000; TheNumberOfDelegationsReward := 20 |};
  Restricting := {| MinimumRelease := one * 100 |};
  InnerAcc := {|
    PhoenixChainFundAccount := 0xEA93addE2B99fB3eFE7e1979d63cb68941D9B297;
    PhoenixChainFundBalance := 0;
    CDFAccount := 0xBA01322472e4f0f1229D1d11de5f812D6B3760A9;
    CDFBalance := cdfundBalance |};
  InitialChosenValidators := chosen |}.

Definition testNetConfig (chosen : list Z) : EconomicModel := {|
  Common := {| MaxEpochMinutes := 360; NodeBlockTimeWindow := 20;
    PerRoundBlocks := 10; MaxConsensusVals := 25;
    cfgAdditionalCycleTime := 52596 |};
  Staking := {| StakeThreshold := StakeLowerLimit;
    OperatingThreshold := DelegateLowerLimit; MaxValidators := 101;
    UnStakeFreezeDuration := 2; RewardPerMaxChangeRange := 500;
    RewardPerChangeInterval := 10 |};
  Slashing := {| SlashFractionDuplicateSign := 10;
    DuplicateSignReportReward := 50; MaxEvidenceAge := 1;
    SlashBlocksReward := 250; ZeroProduceCumulativeTime := 30;
    ZeroProduceNumberThreshold := 1; ZeroProduceFreezeDuration := 1 |};
  Gov := {| VersionProposalVoteDurationSeconds := 14 * 24 * 3600;
    VersionProposalSupportRate := 6670;
    TextProposalVoteDurationSeconds := 14 * 24 * 3600;
    TextProposalVoteRate := 5000; TextProposalSupportRate := 6670;
    CancelProposalVoteRate := 5000; CancelProposalSupportRate := 6670;
    ParamProposalVoteDurationSeconds := 24 * 3600;
    ParamProposalVoteRate := 5000; ParamProposalSupportRate := 6670 |};
  Reward := {| NewBlockRate := 50; PhoenixChainFoundationYear := 10;
    IncreaseIssuanceRatio := 250; TheNumberOfDelegationsReward := 20 |};
  Restricting := {| MinimumRelease := FloorMinimumRelease |};
  InnerAcc := {|
    PhoenixChainFundAccount := 0x01C71CecaeFF76b78325577E6a74A94D24A86BE2;
    PhoenixChainFundBalance := 0;
    CDFAccount := 0x02CddA362DCA508709a651fDe1513b22D3C2a4e5;
    CDFBalance := cdfundBalance |};
  InitialChosenValidators := chosen |}.

Definition unitTestNetConfig (chosen : list Z) : EconomicModel := {|
  Common := {| MaxEpochMinutes := 6; NodeBlockTimeWindow := 10;
    PerRoundBlocks := 10; MaxConsensusVals := 4;
    cfgAdditionalCycleTime := 28 |};
  Staking := {| StakeThreshold := StakeLowerLimit;
    OperatingThreshold := DelegateLowerLimit; MaxValidators := 25;
    UnStakeFreezeDuration := 2; RewardPerMaxChangeRange := 500;
    RewardPerChangeInterval := 10 |};
  Slashing := {| SlashFractionDuplicateSign := 10;
    DuplicateSignReportReward := 50; MaxEvidenceAge := 1;
    SlashBlocksReward := 0; ZeroProduceCumulativeTime := 3;
    ZeroProduceNumberThreshold := 2; ZeroProduceFreezeDuration := 1 |};
  Gov := {| VersionProposalVoteDurationSeconds := 160;
    VersionProposalSupportRate := 6670;
    TextProposalVoteDurationSeconds := 160;
    TextProposalVoteRate := 5000; TextProposalSupportRate := 6670;
    CancelProposalVoteRate := 5000; CancelProposalSupportRate := 6670;
    ParamProposalVoteDurationSeconds := 160;
    ParamProposalVoteRate := 5000; ParamProposalSupportRate := 6670 |};
  Reward := {| NewBlockRate := 50; PhoenixChainFoundationYear := 10;
    IncreaseIssuanceRatio := 250; TheNumberOfDelegationsReward := 2 |};
  Restricting := {| MinimumRelease := FloorMinimumRelease |};
  InnerAcc := {|
    PhoenixChainFundAccount := 0x493301712671Ada506ba6Ca7891F436D29185821;
    PhoenixChainFundBalance := 0;
    CDFAccount := 0xC1f330B214668beAc2E6418Dd651B09C759a4Bf5;
    CDFBalance := cdfundBalance |};
  InitialChosenValidators := chosen |}.

(** The node ids of src/configs/init_dpos_nodes.go. *)
Definition InitialChosenMainNetValidators : list Z := [
  0x6c719bccb655c76748c2e9a31402fa5112de24cf6ad4de3e03ff66a324c25913e28bc68418e1e88615eb696bb9088bc3b8aa14dda41dbe6f794919e645982691;
  0x797e7c01fb7462d0a3eaf8dd8b982d7cb6363503521627d3f31a49b6389c357839e218d154388b11d9e10011f81ae3bbcc93e07d6f2063257d8015018494f3e1;
  0x5db732679631792e4098f0c3cc32653acc394867dc4fbed0855f478adddfe758823571ec9b647a157957af84c90254e8c8d8a9a0848bea1e24cd4006d584cd3e;
  0xf6acf06029e09eba5c222fcaf9cbb55b178457b93d01b2bf92065c7dfdfa844f477fd4fdf5291372cb1ac8af89095bc68b51567d5eaed5d6fd5782b2ce0e64b6 ].

Definition InitialChosenTestnetValidators : list Z := [
  0x1ae3a2bfe9d93a4c96d44cabdda7d1ba2b5c653ab13d4593020add6238de1074b159f7eb072ca1a0ede3252fd44023aabda61a7f4fef16001bc9f83e1877296f;
  0xdb18af9be2af9dff2347c3d06db4b1bada0598d099a210275251b68fa7b5a863d47fcdd382cc4b3ea01e5b55e9dd0bdbce654133b7f58928ce74629d5e68b974 ].

(** [None] is the nil the code returns for a network it does not know. *)
Definition getDefaultEMConfig (netId : Z) : option EconomicModel :=
  if netId =? DefaultMainNet then
    Some (mainNetConfig InitialChosenMainNetValidators)
  else if netId =? DefaultTestNet then
    Some (testNetConfig InitialChosenTestnetValidators)
  else if netId =? DefaultUnitTestNet then
    Some (unitTestNetConfig InitialChosenTestnetValidators)
  else None.

(** ** Parameter checks, shared with the governance parameters *)

Definition InternalError : Error := BizError 1.
Definition InvalidParameter : Error := BizError 3.

Definition CheckStakeThreshold (threshold : Z) : outcome unit :=
  reject ((threshold <? StakeLowerLimit) || (StakeUpperLimit <? threshold))
    InvalidParameter.

Definition CheckOperatingThreshold (threshold : Z) : outcome unit :=
  reject ((threshold <? DelegateLowerLimit) || (DelegateUpperLimit <? threshold))
    InvalidParameter.

Definition CheckMaxValidators (ec : EconomicModel) (num : Z) : outcome unit :=
  reject ((num <? i64 (MaxConsensusVals (Common ec))) || (CeilMaxValidators <? num))
    InvalidParameter.

Definition CheckUnStakeFreezeDuration
    (duration maxEvidenceAge zeroProduceFreezeDuration : Z) : outcome unit :=
  reject ((duration <=? maxEvidenceAge) || (CeilUnStakeFreezeDuration <? duration))
    InvalidParameter ≫= λ _,
  reject ((duration <=? zeroProduceFreezeDuration)
          || (CeilUnStakeFreezeDuration <? duration)) InvalidParameter.

Definition CheckSlashFractionDuplicateSign (fraction : Z) : outcome unit :=
  reject ((fraction <=? 0) || (TenThousand <? fraction)) InvalidParameter.

Definition CheckDuplicateSignReportReward (fraction : Z) : outcome unit :=
  reject ((fraction <=? 0) || (Eighty <? fraction)) InvalidParameter.

Definition CheckMaxEvidenceAge (age unStakeFreezeDuration : Z) : outcome unit :=
  reject ((age <=? 0) || (unStakeFreezeDuration <=? age)) InvalidParameter.

Definition CheckSlashBlocksReward (rewards : Z) : outcome unit :=
  reject ((rewards <? 0) || (CeilBlocksReward <=? rewards)) InvalidParameter.

Definition CheckZeroProduceCumulativeTime (cumulativeTime numberThreshold : Z)
    : outcome unit :=
  reject ((cumulativeTime <? numberThreshold)
          || (MaxZeroProduceCumulativeTime <? cumulativeTime)) InvalidParameter.

Definition CheckZeroProduceNumberThreshold (cumulativeTime numberThreshold : Z)
    : outcome unit :=
  reject ((numberThreshold <? 1) || (cumulativeTime <? numberThreshold))
    InvalidParameter.

Definition CheckRewardPerMaxChangeRange (range : Z) : outcome unit :=
  reject ((range <? RewardPerMaxChangeRangeLowerLimit)
          || (RewardPerMaxChangeRangeUpperLimit <? range)) InvalidParameter.

Definition CheckRewardPerChangeInterval (interval : Z) : outcome unit :=
  reject ((interval <? RewardPerChangeIntervalLowerLimit)
          || (RewardPerChangeIntervalUpperLimit <? interval)) InvalidParameter.

Definition CheckIncreaseIssuanceRatio (ratio : Z) : outcome unit :=
  reject ((ratio <? IncreaseIssuanceRatioLowerLimit)
          || (IncreaseIssuanceRatioUpperLimit <? ratio)) InvalidParameter.

Definition CheckZeroProduceFreezeDuration (zeroProduceFreeze unStakeFreeze : Z)
    : outcome unit :=
  reject ((zeroProduceFreeze <? 1) || (unStakeFreeze <=? zeroProduceFreeze))
    InvalidParameter.

Definition CheckMinimumRelease (minimumRelease : Z) : outcome unit :=
  reject ((minimumRelease <? FloorMinimumRelease)
          || (CeilMinimumRelease <? minimumRelease)) InvalidParameter.

(** Integer division of the code: a zero divisor is a run-time panic. *)
Definition div64 (a b : Z) : outcome Z := if b =? 0 then Panic else Ok (a / b).

Definition CheckEconomicModel (oec : option EconomicModel) : outcome unit :=
  match oec with None => Err GenericError | Some ec =>
  let c := Common ec in
  let epochDuration := u64 (MaxEpochMinutes c * 60) in
  blockDuration ← div64 (NodeBlockTimeWindow c) (PerRoundBlocks c);
  let roundDuration :=
    u64 (u64 (MaxConsensusVals c * PerRoundBlocks c) * blockDuration) in
  epochSize ← div64 epochDuration roundDuration;
  let realEpochDuration := u64 (epochSize * roundDuration) in
  reject (epochSize <? 4) GenericError ≫= λ _,
  reject (64 <? MaxZeroProduceCumulativeTime) GenericError ≫= λ _,
  additionalCycleSize ←
    div64 (u64 (u64 (cfgAdditionalCycleTime c * 10) * 60)) realEpochDuration;
  reject (additionalCycleSize <? 4) GenericError ≫= λ _,
  reject ((MaxConsensusVals c <? FloorMaxConsensusVals)
          || (CeilMaxConsensusVals <? MaxConsensusVals c)) GenericError ≫= λ _,
  CheckMaxValidators ec (i64 (MaxValidators (Staking ec))) ≫= λ _,
  CheckOperatingThreshold (OperatingThreshold (Staking ec)) ≫= λ _,
  CheckStakeThreshold (StakeThreshold (Staking ec)) ≫= λ _,
  CheckUnStakeFreezeDuration (i64 (UnStakeFreezeDuration (Staking ec)))
    (MaxEvidenceAge (Slashing ec))
    (i64 (ZeroProduceFreezeDuration (Slashing ec))) ≫= λ _,
  reject (PhoenixChainFoundationYear (Reward ec) <? 1) GenericError ≫= λ _,
  reject ((NewBlockRate (Reward ec) <? 0) || (100 <? NewBlockRate (Reward ec)))
    GenericError ≫= λ _,
  CheckSlashFractionDuplicateSign (SlashFractionDuplicateSign (Slashing ec)) ≫= λ _,
  CheckDuplicateSignReportReward (DuplicateSignReportReward (Slashing ec)) ≫= λ _,
  CheckMaxEvidenceAge (MaxEvidenceAge (Slashing ec))
    (i64 (UnStakeFreezeDuration (Staking ec))) ≫= λ _,
  CheckSlashBlocksReward (SlashBlocksReward (Slashing ec)) ≫= λ _,
  CheckZeroProduceNumberThreshold (ZeroProduceCumulativeTime (Slashing ec))
    (ZeroProduceNumberThreshold (Slashing ec)) ≫= λ _,
  CheckZeroProduceCumulativeTime (ZeroProduceCumulativeTime (Slashing ec))
    (ZeroProduceNumberThreshold (Slashing ec)) ≫= λ _,
  CheckRewardPerMaxChangeRange (RewardPerMaxChangeRange (Staking ec)) ≫= λ _,
  CheckRewardPerChangeInterval (RewardPerChangeInterval (Staking ec)) ≫= λ _,
  CheckIncreaseIssuanceRatio (IncreaseIssuanceRatio (Reward ec)) ≫= λ _,
  CheckZeroProduceFreezeDuration (ZeroProduceFreezeDuration (Slashing ec))
    (UnStakeFreezeDuration (Staking ec)) ≫= λ _,
  CheckMinimumRelease (MinimumRelease (Restricting ec))
  end.

(** ** Accessors *)

Section accessors.
Context (ec : EconomicModel).

Definition Interval : Z := NodeBlockTimeWindow (Common ec) / PerRoundBlocks (Common ec).
Definition BlocksWillCreate : Z := PerRoundBlocks (Common ec).
Definition AdditionalCycleTime : Z := u64 (cfgAdditionalCycleTime (Common ec) * 10).
Definition FirstAdditionalCycleTime : Z := cfgAdditionalCycleTime (Common ec).
Definition ConsensusSize : Z := u64 (BlocksWillCreate * MaxConsensusVals (Common ec)).
Definition EpochSize : Z :=
  u64 (MaxEpochMinutes (Common ec) * 60) / u64 (Interval * ConsensusSize).
Definition ShiftValidatorNum : Z := u64 (MaxConsensusVals (Common ec) - 1) / 3.
Definition HesitateRatio : Z := 1.
Definition ElectionDistance : Z := u64 (2 * PerRoundBlocks (Common ec)).
End accessors.

(** ** What a checked configuration guarantees *)

(** The machine ranges of the five common fields.  [CheckEconomicModel]
    multiplies them as uint64, so its verdict is only about the mathematical
    products when they fit; 2^32 is far above every configuration in use. *)
Record common_in_range (c : commonConfig) : Prop := {
  cr_minutes : 0 <= MaxEpochMinutes c < 2 ^ 32;
  cr_window : 0 <= NodeBlockTimeWindow c < 2 ^ 32;
  cr_blocks : 0 <= PerRoundBlocks c < 2 ^ 32;
  cr_vals : 0 <= MaxConsensusVals c < 2 ^ 32 }.

Record ec_wf (ec : EconomicModel) : Prop := {
  wf_range : common_in_range (Common ec);
  wf_blocks : 1 <= PerRoundBlocks (Common ec);
  wf_interval : 1 <= Interval ec;
  wf_vals : FloorMaxConsensusVals <= MaxConsensusVals (Common ec) <= CeilMaxConsensusVals;
  wf_epoch : 4 <= EpochSize ec }.

Lemma ec_wf_ConsensusSize ec :
  ec_wf ec → ConsensusSize ec = PerRoundBlocks (Common ec) * MaxConsensusVals (Common ec).
Proof.
  intros [[] ? ? ? ?]. unfold ConsensusSize, BlocksWillCreate.
  apply u64_small. unfold in_u64, FloorMaxConsensusVals, CeilMaxConsensusVals in *. nia.
Qed.

Lemma ec_wf_ConsensusSize_bounds ec :
  ec_wf ec → FloorMaxConsensusVals <= ConsensusSize ec < 2 ^ 38.
Proof.
  intros Hwf. rewrite ec_wf_ConsensusSize by done.
  destruct Hwf as [[] ? ? ? ?].
  unfold FloorMaxConsensusVals, CeilMaxConsensusVals in *. nia.
Qed.

Lemma ec_wf_ElectionDistance ec :
  ec_wf ec → ElectionDistance ec = 2 * PerRoundBlocks (Common ec).
Proof.
  intros [[] ? ? ? ?]. unfold ElectionDistance. apply u64_small.
  unfold in_u64. lia.
Qed.

(** An election block lies strictly inside its round. *)
Lemma ec_wf_ElectionDistance_lt ec :
  ec_wf ec → 0 < ElectionDistance ec < ConsensusSize ec.
Proof.
  intros Hwf. rewrite ec_wf_ConsensusSize, ec_wf_ElectionDistance by done.
  destruct Hwf as [[] ? ? ? ?].
  unfold FloorMaxConsensusVals, CeilMaxConsensusVals in *. nia.
Qed.

Lemma div64_Ok a b q : div64 a b = Ok q ↔ b ≠ 0 ∧ q = a / b.
Proof. unfold div64. case_match; bool_to_prop; split; intros H'; intuition congruence. Qed.

(** Split a successful chain of checks into the conditions it rejected. *)
Ltac checks_inv H :=
  repeat first
    [ progress cbv zeta in H
    | apply outcome_bind_Ok in H; destruct H as (? & ? & H) ];
  repeat match goal with
  | E : reject _ _ = Ok _ |- _ => apply reject_Ok in E
  | E : div64 _ _ = Ok _ |- _ => apply div64_Ok in E; destruct E as [? ->]
  end.

(** The constraints [CheckEconomicModel] puts on the remaining parameters. *)
Record params_valid (ec : EconomicModel) : Prop := {
  pv_max_validators :
    MaxConsensusVals (Common ec) <= MaxValidators (Staking ec) <= CeilMaxValidators;
  pv_operating :
    DelegateLowerLimit <= OperatingThreshold (Staking ec) <= DelegateUpperLimit;
  pv_stake : StakeLowerLimit <= StakeThreshold (Staking ec) <= StakeUpperLimit;
  pv_evidence : 0 < MaxEvidenceAge (Slashing ec) < UnStakeFreezeDuration (Staking ec);
  pv_zero_freeze :
    1 <= ZeroProduceFreezeDuration (Slashing ec) < UnStakeFreezeDuration (Staking ec);
  pv_freeze : UnStakeFreezeDuration (Staking ec) <= CeilUnStakeFreezeDuration;
  pv_slash : 0 < SlashFractionDuplicateSign (Slashing ec) <= TenThousand;
  pv_report : 0 < DuplicateSignReportReward (Slashing ec) <= Eighty;
  pv_window_min : 1 <= ZeroProduceNumberThreshold (Slashing ec)
    <= ZeroProduceCumulativeTime (Slashing ec);
  pv_window_max : ZeroProduceCumulativeTime (Slashing ec) <= MaxZeroProduceCumulativeTime;
  pv_rate : 0 <= NewBlockRate (Reward ec) <= 100;
  pv_issuance : 0 <= IncreaseIssuanceRatio (Reward ec) <= IncreaseIssuanceRatioUpperLimit;
  pv_release : FloorMinimumRelease <= MinimumRelease (Restricting ec) <= CeilMinimumRelease }.

(** The uint64 fields the check converts to a signed int. *)
Record params_in_range (ec : EconomicModel) : Prop := {
  pr_max_validators : 0 <= MaxValidators (Staking ec) < 2 ^ 63;
  pr_freeze : 0 <= UnStakeFreezeDuration (Staking ec) < 2 ^ 63;
  pr_zero_freeze : 0 <= ZeroProduceFreezeDuration (Slashing ec) < 2 ^ 63 }.

Lemma CheckEconomicModel_wf ec :
  common_in_range (Common ec) → CheckEconomicModel (Some ec) = Ok tt → ec_wf ec.
Proof.
  intros Hr H. unfold CheckEconomicModel in H. checks_inv H.
  destruct Hr as [Hm Hw Hb Hv] eqn:?. bool_to_prop.
  assert (1 <= PerRoundBlocks (Common ec)) by lia.
  set (i := NodeBlockTimeWindow (Common ec) / PerRoundBlocks (Common ec)) in *.
  assert (0 <= i) by (apply Z.div_pos; lia).
  assert (i ≠ 0) by (intros E; match goal with
    | R : u64 (u64 _ * i) ≠ 0 |- _ => apply R; by rewrite E, Z.mul_0_r end).
  assert (Hi : Interval ec = i) by done.
  split; [done|done|lia|lia|].
  unfold EpochSize, ConsensusSize, BlocksWillCreate. rewrite Hi.
  rewrite (Z.mul_comm i), (Z.mul_comm (PerRoundBlocks _)). lia.
Qed.

Lemma CheckEconomicModel_params ec :
  common_in_range (Common ec) → params_in_range ec →
  CheckEconomicModel (Some ec) = Ok tt → params_valid ec.
Proof.
  intros [] [] H. unfold CheckEconomicModel in H. checks_inv H.
  unfold CheckMaxValidators, CheckOperatingThreshold, CheckStakeThreshold,
    CheckUnStakeFreezeDuration, CheckMaxEvidenceAge, CheckSlashFractionDuplicateSign,
    CheckDuplicateSignReportReward, CheckZeroProduceNumberThreshold,
    CheckZeroProduceCumulativeTime, CheckIncreaseIssuanceRatio,
    CheckZeroProduceFreezeDuration, CheckMinimumRelease in *.
  repeat match goal with
  | E : _ ≫= _ = Ok _ |- _ => apply outcome_bind_Ok in E; destruct E as (? & ? & E)
  | E : reject _ _ = Ok _ |- _ => apply reject_Ok in E
  end.
  rewrite !i64_small in * by (unfold in_i64; lia). unfold IncreaseIssuanceRatioLowerLimit in *.
  bool_to_prop. split; lia.
Qed.

(** ** Properties *)

(** a configuration whose common fields are in machine range and which
    [CheckEconomicModel] accepts is well formed: the divisors of the epoch
    arithmetic are non-zero, there are 4 to 43 consensus validators and at least
    4 rounds per epoch, and every staking, slashing, reward and restricting
    parameter is within its documented limits. *)
Theorem CheckEconomicModel_sound ec :
  common_in_range (Common ec) → params_in_range ec →
  CheckEconomicModel (Some ec) = Ok tt → ec_wf ec ∧ params_valid ec.
Proof. eauto using CheckEconomicModel_wf, CheckEconomicModel_params. Qed.

Lemma CheckEconomicModel_sound_witness :
  ec_wf (mainNetConfig InitialChosenMainNetValidators)
  ∧ params_valid (mainNetConfig InitialChosenMainNetValidators).
Proof.
  apply CheckEconomicModel_sound; [split; cbn; lia|split; cbn; lia|by vm_compute].
Defined.

(** the three built-in networks are accepted by [CheckEconomicModel], and
    any other network id yields no configuration, which it rejects. *)
Theorem default_networks_checked netId :
  CheckEconomicModel (getDefaultEMConfig netId) =
    if bool_decide (netId ∈ [DefaultMainNet; DefaultTestNet; DefaultUnitTestNet])
    then Ok tt else Err GenericError.
Proof.
  unfold getDefaultEMConfig, DefaultMainNet, DefaultTestNet, DefaultUnitTestNet.
  destruct (Z.eqb_spec netId 0) as [->|]; [by vm_compute|].
  destruct (Z.eqb_spec netId 1) as [->|]; [by vm_compute|].
  destruct (Z.eqb_spec netId 2) as [->|]; [by vm_compute|].
  rewrite bool_decide_eq_false_2; [done|]. rewrite !elem_of_cons, elem_of_nil. lia.
Qed.
