(* ===== verification/Float64.v ===== *)
(** * Floating-point numbers

    Go's float64: binary64 of IEEE 754 with rounding to nearest, as the standard
    library's specification of floating-point numbers computes it.  Each operation
    is rounded by itself (no fused multiply-add, as on amd64).  The elementary
    functions of Go's package math, of which the language promises no exact values,
    are the operations of the class [GoMath]. *)

From Stdlib Require Import SpecFloat.
From S2P Require Import Prelude.

Declare Scope float_scope.
Delimit Scope float_scope with float.
Bind Scope float_scope with spec_float.

Abbreviation float64 := spec_float (only parsing).

(** ** Arithmetic *)

(** [float64(n)] of an integer, and [strconv.ParseFloat] of its digits *)
Definition of_Z (z : Z) : float64 := binary_normalize 53 1024 z 0 false.

Definition fadd : float64 → float64 → float64 := SFadd 53 1024.
Definition fsub : float64 → float64 → float64 := SFsub 53 1024.
Definition fmul : float64 → float64 → float64 := SFmul 53 1024.
Definition fdiv : float64 → float64 → float64 := SFdiv 53 1024.
Definition Sqrt : float64 → float64 := SFsqrt 53 1024.
Definition fneg : float64 → float64 := SFopp.
Definition Abs : float64 → float64 := SFabs.

Notation "x + y" := (fadd x y) : float_scope.
Notation "x - y" := (fsub x y) : float_scope.
Notation "x * y" := (fmul x y) : float_scope.
Notation "x / y" := (fdiv x y) : float_scope.
Notation "- x" := (fneg x) : float_scope.
Notation "x <? y" := (SFltb x y) : float_scope.
Notation "x <=? y" := (SFleb x y) : float_scope.
Notation "x =? y" := (SFeqb x y) : float_scope.

(** ** Literals

    A decimal constant is the float64 nearest to it. *)

Definition ratio (num : Z) (den : positive) : float64 :=
  match num with
  | Z0 => S754_zero false
  | Zpos p => SFdiv 53 1024 (S754_finite false p 0) (S754_finite false den 0)
  | Zneg p => SFdiv 53 1024 (S754_finite true p 0) (S754_finite false den 0)
  end.

Definition decimal (m e : Z) : float64 :=
  if 0 <=? e then of_Z (m * 10 ^ e) else ratio m (Z.to_pos (10 ^ (- e))).

Definition parse_float (n : Number.number) : option spec_float :=
  match n with
  | Number.Decimal (Decimal.Decimal i f) =>
      Some (decimal (Z.of_int (Decimal.app_int i f)) (- Z.of_nat (Decimal.nb_digits f)))
  | Number.Decimal (Decimal.DecimalExp i f e) =>
      Some (decimal (Z.of_int (Decimal.app_int i f))
              (Z.of_int e - Z.of_nat (Decimal.nb_digits f)))
  | _ => None
  end.

Definition print_float (_ : spec_float) : option Number.number := None.

Number Notation spec_float parse_float print_float : float_scope.

(** ** Predicates and conversions *)

Definition IsNaN (x : float64) : bool := match x with S754_nan => true | _ => false end.

(** [math.IsInf(x, 0)] *)
Definition IsInf (x : float64) : bool :=
  match x with S754_infinity _ => true | _ => false end.

Definition Signbit (x : float64) : bool :=
  match x with
  | S754_zero s | S754_infinity s | S754_finite s _ _ => s
  | S754_nan => false
  end.

(** The integer part of a finite number, rounded down. *)
Definition floor_Z (s : bool) (m : positive) (e : Z) : Z :=
  let v := cond_Zopp s (Zpos m) in
  if 0 <=? e then v * 2 ^ e else v / 2 ^ (- e).

Definition Floor (x : float64) : float64 :=
  match x with
  | S754_finite s m e =>
      let z := floor_Z s m e in if z =? 0 then S754_zero s else of_Z z
  | _ => x
  end.

Definition Ceil (x : float64) : float64 := fneg (Floor (fneg x)).

(** [int64(x)]: towards zero; what does not fit is the smallest integer on amd64. *)
Definition to_int64 (x : float64) : Z :=
  let fit z := if (- 2 ^ 63 <=? z) && (z <? 2 ^ 63) then z else - 2 ^ 63 in
  match x with
  | S754_zero _ => 0
  | S754_finite s m e => fit (cond_Zopp s (floor_Z false m e))
  | _ => - 2 ^ 63
  end.

(** [int64(math.Float64bits(x))] *)
Definition Float64bits (x : float64) : Z :=
  match x with
  | S754_zero s => if s then - 2 ^ 63 else 0
  | S754_infinity s => (if s then - 2 ^ 63 else 0) + 2047 * 2 ^ 52
  | S754_nan => 2047 * 2 ^ 52 + 2 ^ 51 + 1
  | S754_finite s m e =>
      (if s then - 2 ^ 63 else 0)
      + (if Zpos m <? 2 ^ 52 then Zpos m else (e + 1074) * 2 ^ 52 + Zpos m)
  end.

Section minmax.
Local Open Scope float_scope.

Definition Min (x y : float64) : float64 :=
  if (IsInf x && Signbit x) || (IsInf y && Signbit y) then S754_infinity true
  else if IsNaN x || IsNaN y then S754_nan
  else if (x =? 0) && (x =? y) then (if Signbit x then x else y)
  else if x <? y then x else y.

Definition Max (x y : float64) : float64 :=
  if (IsInf x && negb (Signbit x)) || (IsInf y && negb (Signbit y)) then S754_infinity false
  else if IsNaN x || IsNaN y then S754_nan
  else if (x =? 0) && (x =? y) then (if Signbit x then y else x)
  else if y <? x then x else y.
End minmax.

(** Elementary functions of package math. *)
Class GoMath := {
  Log : float64 → float64;
  Log1p : float64 → float64;
  Exp : float64 → float64;
  Pow : float64 → float64 → float64;
  Sin : float64 → float64 }.
