(* ===== verification/Binomial.v ===== *)
(** * The binomial distribution (src/libs/common/math/binomial_distribution.go)

    The lottery's number for a validator is a quantile of the binomial distribution,
    found by bisection on the cumulative probability, which is a regularized
    incomplete beta function: a continued fraction and the logarithm of the beta
    function.  The structs Beta, ContinuedFraction and Gamma have no state. *)

From Stdlib Require Import SpecFloat.
From S2P Require Import Prelude Xcom Float64.

Local Open Scope float_scope.

Record BinomialDistribution := { trials : Z; probability : float64 }.

Definition DELTA : list float64 :=
  [0.08333333333333333; -2.777777777777778e-5; 7.936507936507937e-8;
   -5.952380952380953e-10; 8.417508417508329e-12; -1.917526917518546e-13;
   6.410256405103255e-15; -2.955065141253382e-16; 1.7964371635940225e-17;
   -1.3922896466162779e-18; 1.338028550140209e-19; -1.542460098679661e-20;
   1.9770199298095743e-21; -2.3406566479399704e-22; 1.713480149663986e-23].

Definition LANCZOS : list float64 :=
  [0.9999999999999971; 57.15623566586292; -59.59796035547549; 14.136097974741746;
   -0.4919138160976202; 3.399464998481189e-5; 4.652362892704858e-5;
   -9.837447530487956e-5; 1.580887032249125e-4; -2.1026444172410488e-4;
   2.1743961811521265e-4; -1.643181065367639e-4; 8.441822398385275e-5;
   -2.6190838401581408e-5; 3.6899182659531625e-6].

Section binomial.
Context `{GoMath}.

Definition HALF_LOG_2_PI : float64 := 0.5 * Log 6.283185307179586.

(** Every error of this package has a message only. *)
Definition numberIsTooSmallException : Error := GenericError.
Definition numberIsTooLargeException : Error := GenericError.

(** [b = c1 + t*b; b = c2 + t*b; ...] *)
Definition horner (t b : float64) (cs : list float64) : float64 :=
  foldl (λ b c, c + t * b) b cs.

(** [for state; cond; ...]: a loop on numbers that has not ended after 2^64 steps has
    no result. *)
Definition while {A} (cond : A → bool) (body : A → A) (s : A) : outcome A :=
  match iterate 64 (λ s, if cond s then inl (body s) else inr s) s with
  | inl _ => Panic
  | inr s => Ok s
  end.

(** ** Gamma *)

Definition invGamma1pm1 (x : float64) : outcome float64 :=
  if x <? -0.5 then Err numberIsTooSmallException
  else if 1.5 <? x then Err numberIsTooLargeException
  else
    let t := if 0.5 <? x then x - 0.5 - 0.5 else x in
    if t <? 0.0 then
      let a := 6.116095104481416e-9 + t * 6.247308301164655e-9 in
      let b := horner t 1.9575583661463974e-10
        [-6.077618957228252e-8; 9.926418406727737e-7; -6.4304548177935305e-6;
         -8.514194324403149e-6; 4.939449793824468e-4; 0.026620534842894922;
         0.203610414066807; 1.0] in
      let c := horner t (-2.056338416977607e-7 + t * (a / b))
        [1.133027231981696e-6; -1.2504934821426706e-6; -2.013485478078824e-5;
         1.280502823881162e-4; -2.1524167411495098e-4; -0.0011651675918590652;
         0.0072189432466631; -0.009621971527876973; -0.04219773455554433;
         0.16653861138229148; -0.04200263503409524; -0.6558780715202539;
         -0.42278433509846713] in
      Ok (if 0.5 <? x then t * c / x else x * (c + 0.5 + 0.5))
    else
      let a := horner t 4.343529937408594e-15
        [-1.2494415722763663e-13; 1.5728330277104463e-12; 4.686843322948848e-11;
         6.820161668496171e-10; 6.8716741130671986e-9; 6.116095104481416e-9] in
      let b := horner t 2.6923694661863613e-4
        [0.004956830093825887; 0.054642130860422966; 0.3056961078365221; 1.0] in
      let c := horner t (-2.056338416977607e-7 + a / b * t)
        [1.133027231981696e-6; -1.2504934821426706e-6; -2.013485478078824e-5;
         1.280502823881162e-4; -2.1524167411495098e-4; -0.0011651675918590652;
         0.0072189432466631; -0.009621971527876973; -0.04219773455554433;
         0.16653861138229148; -0.04200263503409524; -0.6558780715202539;
         0.5772156649015329] in
      Ok (if 0.5 <? x then t / x * (c - 0.5 - 0.5) else x * c).

Definition logGamma1p (x : float64) : outcome float64 :=
  if x <? -0.5 then Err numberIsTooSmallException
  else if 1.5 <? x then Err numberIsTooLargeException
  else value ← invGamma1pm1 x; Ok (- Log1p value).

(** [for i := len(LANCZOS) - 1; i > 0; i--] *)
Definition lanczos (x : float64) : float64 :=
  foldl (λ sum i, sum + default 0.0 (LANCZOS !! i) / (x + of_Z (Z.of_nat i))) 0.0
    (reverse (seq 1 (length LANCZOS - 1)))
  + default 0.0 (LANCZOS !! 0%nat).

Definition logGamma (x : float64) : outcome float64 :=
  if negb (IsNaN x) && (0.0 <? x) then
    if x <? 0.5 then value ← logGamma1p x; Ok (value - Log x)
    else if x <=? 2.5 then logGamma1p (x - 0.5 - 0.5)
    else if x <=? 8.0 then
      let n := to_int64 (Floor (x - 1.5)) in
      let prod := foldl (λ prod i, prod * (x - of_Z i)) 1.0 (seqZ 1 n) in
      value ← logGamma1p (x - of_Z (n + 1)%Z);
      Ok (value + Log prod)
    else
      let sum := lanczos x in
      let tmp := x + 4.7421875 + 0.5 in
      Ok ((x + 0.5) * Log tmp - tmp + HALF_LOG_2_PI + Log (sum / x))
  else Ok 0.0.

(** The loops declare a variable of their own: the outer [t] is still 0 behind them. *)
Definition gamma (x : float64) : outcome float64 :=
  if (x =? Floor (x + 0.5)) && (x <=? 0.0) then Ok 0.0
  else
    let absX := Abs x in
    let t := 0.0 in
    if absX <=? 20.0 then
      if 1.0 <=? x then
        '(_, prod) ← while (λ s : float64 * float64, 2.5 <? s.1)
                       (λ s, let t := s.1 - 1.0 in (t, s.2 * t)) (x, 1.0);
        value ← invGamma1pm1 (t - 1.0);
        Ok (prod / (1.0 + value))
      else
        '(_, prod) ← while (λ s : float64 * float64, s.1 <? -0.5)
                       (λ s, let t := s.1 + 1.0 in (t, s.2 * t)) (x, x);
        value ← invGamma1pm1 t;
        Ok (1.0 / (prod * (1.0 + value)))
    else
      let prod := absX + 4.7421875 + 0.5 in
      let t := 2.5066282746310007 / absX * Pow prod (absX + 0.5) * Exp (- prod)
               * lanczos absX in
      Ok (if 0.0 <? x then t
          else -3.141592653589793 / (x * Sin (3.141592653589793 * x) * t)).

(** ** Beta *)

(** [s[0] = 1; s[i] = 1 + q + q2*s[i-1]] *)
Fixpoint deltaSums (n : nat) (q q2 s : float64) : list float64 :=
  match n with
  | O => []
  | S n => s :: deltaSums n q q2 (1.0 + q + q2 * s)
  end.

Definition deltaMinusDeltaSum (a b : float64) : outcome float64 :=
  if (0.0 <=? a) && (a <=? b) then
    if b <? 10.0 then Err numberIsTooSmallException
    else
      let h := a / b in
      let p := h / (1.0 + h) in
      let q := 1.0 / (1.0 + h) in
      let q2 := q * q in
      let s := deltaSums (length DELTA) q q2 1.0 in
      let sqrtT := 10.0 / b in
      let t := sqrtT * sqrtT in
      match reverse (zip DELTA s) with
      | [] => Panic
      | (delta, sLast) :: rest =>
          let w := foldl (λ w '(delta, si), t * w + delta * si) (delta * sLast) rest in
          Ok (w * p / b)
      end
  else Err GenericError.

Definition sumDeltaMinusDeltaSum (p q : float64) : outcome float64 :=
  if p <? 10.0 then Err numberIsTooSmallException
  else if q <? 10.0 then Err numberIsTooSmallException
  else
    let a := Min p q in
    let b := Max p q in
    let sqrtT := 10.0 / a in
    let t := sqrtT * sqrtT in
    match reverse DELTA with
    | [] => Panic
    | z :: rest =>
        let z := foldl (λ z delta, t * z + delta) z rest in
        value ← deltaMinusDeltaSum a b;
        Ok (z / a + value)
    end.

Definition logGammaMinusLogGammaSum (a b : float64) : outcome float64 :=
  if a <? 0.0 then Err numberIsTooSmallException
  else if b <? 10.0 then Err numberIsTooSmallException
  else
    '(d, w) ← (if a <=? b then w ← deltaMinusDeltaSum a b; Ok (b + (a - 0.5), w)
               else w ← deltaMinusDeltaSum b a; Ok (a + (b - 0.5), w));
    let u := d * Log1p (a / b) in
    let v := a * (Log b - 1.0) in
    Ok (if u <=? v then w - u - v else w - v - u).

Definition logGammaSum (a b : float64) : outcome float64 :=
  if (1.0 <=? a) && (a <=? 2.0) then
    if (1.0 <=? b) && (b <=? 2.0) then
      let x := a - 1.0 + (b - 1.0) in
      if x <=? 0.5 then logGamma1p (1.0 + x)
      else if x <=? 1.5 then value ← logGamma1p x; Ok (value + Log1p x)
      else value ← logGamma1p (x - 1.0); Ok (value + Log (x * (1.0 + x)))
    else Err GenericError
  else Err GenericError.

(** The cases of [logBeta] by [a], the smaller argument, and [b]. *)

(** [a >= 10] *)
Definition logBetaLarge (a b : float64) : outcome float64 :=
  prod1 ← sumDeltaMinusDeltaSum a b;
  let ared := a / b in
  let prod2 := ared / (1.0 + ared) in
  let bred := - (a - 0.5) * Log prod2 in
  let v := b * Log1p ared in
  Ok (if bred <=? v then -0.5 * Log b + 0.9189385332046727 + prod1 - bred - v
      else -0.5 * Log b + 0.9189385332046727 + prod1 - v - bred).

(** [a > 2] *)
Definition logBetaMiddle (a b : float64) : outcome float64 :=
  if 1000.0 <? b then
    let n := to_int64 (Floor (a - 1.0)) in
    let '(ared, prod) := foldl (λ '(ared, prod) (_ : Z),
      let ared := ared - 1.0 in (ared, prod * (ared / (1.0 + ared / b)))) (a, 1.0)
      (seqZ 0 n) in
    gammaSumValue ← logGammaMinusLogGammaSum ared b;
    value ← logGamma ared;
    Ok (Log prod - of_Z n * Log b + value + gammaSumValue)
  else
    '(ared, prod1) ← while (λ s : float64 * float64, 2.0 <? s.1)
      (λ s, let ared := s.1 - 1.0 in
            let prod2 := ared / b in (ared, s.2 * (prod2 / (1.0 + prod2)))) (a, 1.0);
    if 10.0 <=? b then
      gammaSumValue ← logGammaMinusLogGammaSum ared b;
      value ← logGamma ared;
      Ok (Log prod1 + value + gammaSumValue)
    else
      '(bred, prod2) ← while (λ s : float64 * float64, 2.0 <? s.1)
        (λ s, let bred := s.1 - 1.0 in (bred, s.2 * (bred / (ared + bred)))) (b, 1.0);
      value ← logGammaSum ared bred;
      value1 ← logGamma ared;
      value2 ← logGamma bred;
      Ok (Log prod1 + Log prod2 + value1 + (value2 - value)).

(** [a < 1] *)
Definition logBetaSmall (a b : float64) : outcome float64 :=
  if 10.0 <=? b then
    gammaSumValue ← logGammaMinusLogGammaSum a b;
    value ← logGamma a;
    Ok (value + gammaSumValue)
  else
    v1 ← gamma a;
    v2 ← gamma b;
    v3 ← gamma (a + b);
    Ok (Log (v1 * v2 / v3)).

Definition logBeta (p q : float64) : outcome float64 :=
  if negb (IsNaN p) && negb (IsNaN q) && (0.0 <? p) && (0.0 <? q) then
    let a := Min p q in
    let b := Max p q in
    if 10.0 <=? a then logBetaLarge a b
    else if 2.0 <? a then logBetaMiddle a b
    else if a <? 1.0 then logBetaSmall a b
    else if b <=? 2.0 then
      value ← logGammaSum a b;
      lgv1 ← logGamma a;
      lgv2 ← logGamma b;
      Ok (lgv1 + lgv2 - value)
    else if 10.0 <=? b then
      gammaSumValue ← logGammaMinusLogGammaSum a b;
      value ← logGamma a;
      Ok (value + gammaSumValue)
    else
      '(ared, prod1) ← while (λ s : float64 * float64, 2.0 <? s.1)
        (λ s, let ared := s.1 - 1.0 in (ared, s.2 * (ared / (a + ared)))) (b, 1.0);
      value ← logGammaSum a ared;
      lgv1 ← logGamma a;
      lgv2 ← logGamma ared;
      Ok (Log prod1 + lgv1 + (lgv2 - value))
  else Ok 0.0.

(** ** Continued fraction *)

(** [math.Float64bits(-0.0)] in Go is that of 0.0: a constant has no negative zero. *)
Definition precisionEqs (x y : float64) (maxUlps : Z) : bool :=
  let xInt := Float64bits x in
  let yInt := Float64bits y in
  let isEqual :=
    if (Z.land (Z.lxor xInt yInt) (- 2 ^ 63) =? 0)%Z
    then (to_int64 (Abs (of_Z xInt - of_Z yInt)) <=? maxUlps)%Z
    else
      let '(deltaPlus, deltaMinus) :=
        if (xInt <? yInt)%Z
        then ((yInt - Float64bits 0.0)%Z, (xInt - Float64bits 0.0)%Z)
        else ((xInt - Float64bits 0.0)%Z, (yInt - Float64bits 0.0)%Z) in
      if (maxUlps <? deltaPlus)%Z then false
      else (deltaMinus <=? maxUlps - deltaPlus)%Z in
  isEqual && negb (IsNaN x) && negb (IsNaN y).

Definition precisionEq (x y eps : float64) : bool :=
  precisionEqs x y 1 || (Abs (y - x) <=? eps).

Definition getA (n : Z) (x : float64) : float64 := 1.0.

Definition getB (a b : float64) (n : Z) (x : float64) : float64 :=
  if (Z.rem n 2 =? 0)%Z then
    let m := of_Z n / 2.0 in
    m * (b - m) * x / ((a + 2.0 * m - 1.0) * (a + 2.0 * m))
  else
    let m := (of_Z n - 1.0) / 2.0 in
    - ((a + m) * (a + b + m) * x) / ((a + 2.0 * m) * (a + 2.0 * m + 1.0)).

Definition orTiny (x : float64) : float64 :=
  if precisionEq x 0.0 1.0e-50 then 1.0e-50 else x.

(** One pass of the loop: [n], [dPrev], [cPrev] and [hPrev], or the result. *)
Definition evaluateStep (av bv x epsilon : float64) (maxIterations : Z)
    (s : Z * float64 * float64 * float64)
    : Z * float64 * float64 * float64 + outcome float64 :=
  let '(n, dPrev, cPrev, hPrev) := s in
  if (n <? maxIterations)%Z then
    let a := getA n x in
    let b := getB av bv n x in
    let dN := orTiny (a + b * dPrev) in
    let cN := orTiny (a + b / cPrev) in
    let dN := 1.0 / dN in
    let deltaN := cN * dN in
    let hN := hPrev * deltaN in
    if IsInf hN then inr (Err GenericError)
    else if IsNaN hN then inr (Err GenericError)
    else if epsilon <=? Abs (deltaN - 1.0) then inl ((n + 1)%Z, dN, cN, hN)
    else inr (Ok hN)
  else inr (Err GenericError).

(** The passes are counted by an int64, so there are fewer than 2^63. *)
Definition evaluate (av bv x epsilon : float64) (maxIterations : Z) : outcome float64 :=
  let hPrev := orTiny (getA 0 x) in
  match iterate 63 (evaluateStep av bv x epsilon maxIterations) (1%Z, 0.0, hPrev, hPrev) with
  | inl _ => Panic
  | inr r => r
  end.

(** Each call on the exchanged arguments adds a frame to the stack. *)
Fixpoint regularizedBeta (fuel : nat) (x a b epsilon : float64) (maxIterations : Z)
    : outcome float64 :=
  match fuel with
  | O => Panic
  | S fuel =>
      if negb (IsNaN x) && negb (IsNaN a) && negb (IsNaN b) && (0.0 <=? x) && (x <=? 1.0)
         && (0.0 <? a) && (0.0 <? b)
      then
        if ((a + 1.0) / (2.0 + b + a) <? x) && (1.0 - x <=? (b + 1.0) / (2.0 + b + a))
        then
          value ← regularizedBeta fuel (1.0 - x) b a epsilon maxIterations;
          Ok (1.0 - value)
        else
          lbr ← logBeta a b;
          value ← evaluate a b x epsilon maxIterations;
          Ok (Exp (a * Log x + b * Log1p (- x) - Log a - lbr) * 1.0 / value)
      else Ok 0.0
  end.

Definition RegularizedBeta (x a b epsilon : float64) (maxIterations : Z) : outcome float64 :=
  regularizedBeta 1000 x a b epsilon maxIterations.

Definition SimpleRegularizedBeta (x a b : float64) : outcome float64 :=
  RegularizedBeta x a b 1.0e-14 9223372036854775807.

(** ** The distribution *)

Definition CumulativeProbability (bd : BinomialDistribution) (x : Z) : outcome float64 :=
  if (x <? 0)%Z then Ok 0.0
  else if (trials bd <=? x)%Z then Ok 1.0
  else
    value ← SimpleRegularizedBeta (probability bd) (of_Z x + 1.0) (of_Z (trials bd - x)%Z);
    Ok (1.0 - value).

Definition checkedCumulativeProbability (bd : BinomialDistribution) (argument : Z)
    : outcome float64 :=
  result ← CumulativeProbability bd argument;
  if IsNaN result then Err GenericError else Ok result.

Definition getSupportLowerBound (bd : BinomialDistribution) : Z :=
  if probability bd <? 1.0 then 0%Z else trials bd.

Definition getSupportUpperBound (bd : BinomialDistribution) : Z :=
  if 0.0 <? probability bd then trials bd else 0%Z.

Definition getNumericalMean (bd : BinomialDistribution) : float64 :=
  of_Z (trials bd) * probability bd.

Definition getNumericalVariance (bd : BinomialDistribution) : float64 :=
  of_Z (trials bd) * probability bd * (1.0 - probability bd).

(** One halving of the interval, or the result. *)
Definition solveStep (bd : BinomialDistribution) (p : float64) (s : Z * Z)
    : Z * Z + outcome Z :=
  let '(lower, upper) := s in
  if (i64 (lower + 1) <? upper)%Z then
    let xm := Z.quot (i64 (lower + upper)) 2 in
    let xm := if (xm <? lower)%Z || (upper <? xm)%Z
              then i64 (lower + Z.quot (i64 (upper - lower)) 2) else xm in
    match checkedCumulativeProbability bd xm with
    | Ok pm => inl (if p <=? pm then (lower, xm) else (xm, upper))
    | Err e => inr (Err e)
    | Panic => inr Panic
    end
  else inr (Ok upper).

Definition solveInverseCumulativeProbability (bd : BinomialDistribution) (p : float64)
    (lower upper : Z) : outcome Z :=
  match iterate 64 (solveStep bd p) (lower, upper) with
  | inl _ => Panic
  | inr r => r
  end.

(** Chebyshev's inequality narrows the interval. *)
Definition chebyshev (bd : BinomialDistribution) (p : float64) (lower upper : Z) : Z * Z :=
  let mu := getNumericalMean bd in
  let sigma := Sqrt (getNumericalVariance bd) in
  if negb (IsInf mu) && negb (IsNaN mu) && negb (IsInf sigma) && negb (IsNaN sigma)
     && negb (sigma =? 0.0)
  then
    let k := Sqrt ((1.0 - p) / p) in
    let tmp := mu - k * sigma in
    let lower := if of_Z lower <? tmp then i64 (to_int64 (Ceil tmp) - 1) else lower in
    let k := 1.0 / k in
    let tmp := mu + k * sigma in
    let upper := if tmp <? of_Z upper then i64 (to_int64 (Ceil tmp) - 1) else upper in
    (lower, upper)
  else (lower, upper).

(** The part below the lower end of the support. *)
Definition inverseFrom (bd : BinomialDistribution) (p : float64) (lower : Z) : outcome Z :=
  let upper := getSupportUpperBound bd in
  if p =? 1.0 then Ok upper
  else let '(lower, upper) := chebyshev bd p lower upper in
       solveInverseCumulativeProbability bd p lower upper.

Definition InverseCumulativeProbability (bd : BinomialDistribution) (p : float64)
    : outcome Z :=
  if (0.0 <=? p) && (p <=? 1.0) then
    let lower := getSupportLowerBound bd in
    if p =? 0.0 then Ok lower
    else if (lower =? -9223372036854775808)%Z then
      value ← checkedCumulativeProbability bd lower;
      if p <=? value then Ok lower else inverseFrom bd p lower
    else inverseFrom bd p (i64 (lower - 1))
  else Err GenericError.
End binomial.

(** ** The loops end *)

Local Open Scope Z_scope.

Section loops.
Context `{GoMath}.

Lemma evaluateStep_inl av bv x epsilon maxIterations n d c h s' :
  evaluateStep av bv x epsilon maxIterations (n, d, c, h) = inl s' →
  n < maxIterations ∧ s'.1.1.1 = n + 1.
Proof.
  unfold evaluateStep. destruct (Z.ltb_spec n maxIterations); [|done].
  destruct (IsInf _); [done|]. destruct (IsNaN _); [done|]. destruct (SFleb _ _); [|done].
  by intros [= <-].
Qed.

Lemma evaluateStep_inr av bv x epsilon maxIterations s r :
  evaluateStep av bv x epsilon maxIterations s = inr r → r ≠ Panic.
Proof.
  destruct s as [[[n d] c] h]. unfold evaluateStep. repeat case_match; congruence.
Qed.

(** The continued fraction always comes to a result. *)
Lemma evaluate_ends av bv x epsilon maxIterations :
  maxIterations < 2 ^ 63 → evaluate av bv x epsilon maxIterations ≠ Panic.
Proof.
  intros Hmax. unfold evaluate. set (s0 := (1, _, _, _)).
  destruct (iterate_ends (evaluateStep av bv x epsilon maxIterations) (λ s, 1 <= s.1.1.1))
    with (measure := λ s : Z * float64 * float64 * float64, Z.max 0 (maxIterations - s.1.1.1))
         (k := 63%nat) (s := s0) as (r & s' & -> & _ & Hr).
  - intros [[[n d] c] h] s' Hn [_ ->]%evaluateStep_inl. cbn in *. lia.
  - intros [[[n d] c] h] s' Hn [? ->]%evaluateStep_inl. cbn. lia.
  - intros s _. lia.
  - cbn. lia.
  - change (Z.max 0 (maxIterations - 1) < 2 ^ 63). lia.
  - by apply evaluateStep_inr in Hr.
Qed.

(** *** The bisection *)

Lemma midpoint lower upper :
  -1 <= lower → upper < 2 ^ 63 - 1 → lower + 1 < upper →
  let xm := Z.quot (i64 (lower + upper)) 2 in
  let xm := if (xm <? lower) || (upper <? xm)
            then i64 (lower + Z.quot (i64 (upper - lower)) 2) else xm in
  lower < xm < upper.
Proof.
  intros Hl Hu Hlu. cbv zeta.
  assert (Hq : ∀ z, 0 <= z → z - 1 <= 2 * Z.quot z 2 <= z)
    by (intros z Hz; rewrite Z.quot_div_nonneg by lia; pose proof (Z.div_mod z 2);
        pose proof (Z.mod_pos_bound z 2); lia).
  rewrite (i64_small (upper - lower)) by (unfold in_i64; lia).
  pose proof (Hq (upper - lower) ltac:(lia)).
  destruct (decide (lower + upper < 2 ^ 63)) as [Hs|Hs].
  - rewrite (i64_small (lower + upper)) by (unfold in_i64; lia).
    pose proof (Hq (lower + upper) ltac:(lia)).
    destruct (Z.ltb_spec (Z.quot (lower + upper) 2) lower); [lia|].
    destruct (Z.ltb_spec upper (Z.quot (lower + upper) 2)); [lia|]. cbn. lia.
  - assert (i64 (lower + upper) = lower + upper - 2 ^ 64) as ->.
    { unfold i64. rewrite Z.mod_small by lia. destruct (Z.ltb_spec (lower + upper) (2 ^ 63)); lia. }
    assert (Z.quot (lower + upper - 2 ^ 64) 2 < -1).
    { replace (lower + upper - 2 ^ 64) with (- (2 ^ 64 - lower - upper)) by lia.
      rewrite Z.quot_opp_l by lia. pose proof (Hq (2 ^ 64 - lower - upper) ltac:(lia)). lia. }
    rewrite (proj2 (Z.ltb_lt _ _)) by lia. cbn [orb].
    rewrite i64_small by (unfold in_i64; lia). lia.
Qed.

Section bisection.
Context (bd : BinomialDistribution) (p : float64) (lower0 upper0 : Z).
Context (Hlow : -1 <= lower0) (Hup : upper0 < 2 ^ 63 - 1).

(** The probability up to [x] is known to reach [p], or not to. *)
Definition reaches (x : Z) (b : bool) : Prop :=
  ∃ v, checkedCumulativeProbability bd x = Ok v ∧ SFleb p v = b.

Definition bracket (s : Z * Z) : Prop :=
  lower0 <= s.1 < s.2 ∧ s.2 <= upper0
  ∧ (s.2 = upper0 ∨ reaches s.2 true) ∧ (s.1 = lower0 ∨ reaches s.1 false).

Lemma solveStep_inl s s' :
  bracket s → solveStep bd p s = inl s' → bracket s' ∧ s'.2 - s'.1 < s.2 - s.1.
Proof using Hlow Hup.
  destruct s as [l u]. intros ([H1 H2] & H3 & H4 & H5). unfold solveStep. cbn [fst snd] in *.
  rewrite (i64_small (l + 1)) by (unfold in_i64; lia).
  destruct (Z.ltb_spec (l + 1) u) as [Hlt|]; [|done].
  pose proof (midpoint l u ltac:(lia) ltac:(lia) Hlt) as Hm. cbv zeta in Hm |- *.
  set (xm := if (_ : bool) then _ else _) in *. clearbody xm.
  destruct (checkedCumulativeProbability bd xm) as [pm| |] eqn:Hc; [|done..].
  intros [= <-]. unfold bracket, reaches. destruct (SFleb p pm) eqn:Hp; cbn [fst snd];
    split; try lia; repeat split; try lia; try done; right; by exists pm.
Qed.

Lemma solveStep_inr s r :
  bracket s → solveStep bd p s = inr r →
  match r with
  | Ok x => s.2 = x ∧ s.1 = x - 1
  | e => ∃ x, lower0 < x < upper0
      ∧ (checkedCumulativeProbability bd x = match e with Err c => Err c | _ => Panic end)
  end.
Proof using Hlow Hup.
  destruct s as [l u]. intros ([H1 H2] & H3 & _). unfold solveStep. cbn [fst snd] in *.
  rewrite (i64_small (l + 1)) by (unfold in_i64; lia).
  destruct (Z.ltb_spec (l + 1) u) as [Hlt|]; [|intros [= <-]; lia].
  pose proof (midpoint l u ltac:(lia) ltac:(lia) Hlt) as Hm. cbv zeta in Hm |- *.
  set (xm := if (_ : bool) then _ else _) in *. clearbody xm.
  destruct (checkedCumulativeProbability bd xm) as [pm|e|] eqn:Hc; [done|..]; intros [= <-];
    exists xm; (split; [lia|done]).
Qed.

End bisection.
End loops.

(** [precisionEqs] says of every negative number that it equals zero, whatever
    its size: the constant [-0.0] it subtracts is positive zero in Go. *)
Theorem negative_is_zero x maxUlps :
  Float64bits x < 0 → IsNaN x = false → 0 <= maxUlps → precisionEqs x 0.0%float maxUlps = true.
Proof.
  intros Hx Hn Hm. unfold precisionEqs. change (Float64bits 0.0%float) with 0.
  rewrite Z.lxor_0_r, Hn. assert (Z.land (Float64bits x) (- 2 ^ 63) < 0).
  { apply Z.land_neg. lia. }
  destruct (Z.eqb_spec (Z.land (Float64bits x) (- 2 ^ 63)) 0); [lia|].
  destruct (Z.ltb_spec (Float64bits x) 0); [|lia].
  destruct (Z.ltb_spec maxUlps (0 - 0)); [lia|].
  by rewrite (proj2 (Z.leb_le _ _)) by lia.
Qed.

Lemma negative_is_zero_witness : precisionEqs (-1e300)%float 0.0%float 1 = true.
Proof. apply negative_is_zero; vm_compute; done. Defined.

(** The function that the shadowed variable breaks: [gamma] fails on [1, 20]. *)
Lemma gamma_fails `{GoMath} x :
  SFleb (Abs x) 20.0%float = true → SFleb 1.0%float x = true →
  SFleb x 0.0%float = false → ∀ v, gamma x ≠ Ok v.
Proof.
  intros H1 H2 H3 v. unfold gamma. rewrite H1, H2, H3, andb_false_r.
  by destruct (while _ _ _) as [[? ?]|e|].
Qed.

(** *** A concrete quantile, with crude elementary functions *)

Definition demoMath : GoMath :=
  {| Log := λ x, fsub x 1; Log1p := λ x, x; Exp := λ x, fdiv 1 (fsub 1 x);
     Pow := fmul; Sin := λ x, x |}.

Definition demoBinomial : BinomialDistribution := {| trials := 12; probability := 0.25%float |}.

