(* ===== verification/Xutil.v ===== *)
(** * Rounds, epochs and proposal deadlines (src/pos/xutil/calculate.go)

    Block numbers are uint64 values; every sum and product is reduced modulo
    2^64 as Go does.  The theorems assume a configuration that satisfies
    [ec_wf] and block numbers below [block_bound], far below the wrap-around. *)

From stdpp Require Import pretty.
From S2P Require Import Prelude Xcom.

(** ** Definitions *)

Definition CalcVersion (programVersion : Z) : Z :=
  u32 (Z.shiftl (Z.shiftr programVersion 8) 8).

Definition ExtraSeal : nat := 65.

(** The slice [extra[32:97]] is only evaluated when it is in range. *)
Definition IsWorker (extra : list Z) : bool :=
  (32 <? length extra)%nat && (ExtraSeal <=? length (drop 32 extra))%nat
  && bool_decide (take 65 (drop 32 extra) = replicate ExtraSeal 0).

Definition version_parts (programVersion : Z) : Z * Z * Z :=
  (Z.shiftr (u32 (Z.shiftl programVersion 8)) 24,
   Z.shiftr (u32 (Z.shiftl programVersion 16)) 24,
   Z.shiftr (u32 (Z.shiftl programVersion 24)) 24).

Definition ProgramVersion2Str (programVersion : Z) : string :=
  if programVersion =? 0 then "0.0.0" else
  let '(major, minor, patch) := version_parts programVersion in
  (pretty major +:+ "." +:+ pretty minor +:+ "." +:+ pretty patch)%string.

Section calculate.
Context (ec : EconomicModel).

Definition CalcBlocksEachEpoch : Z := u64 (ConsensusSize ec * EpochSize ec).

Definition EpochsPerYear : Z :=
  u64 (AdditionalCycleTime ec * 60) / u64 (Interval ec * CalcBlocksEachEpoch).

Definition EstimateConsensusRoundsForGov (seconds : Z) : Z :=
  seconds / u64 (1 * ConsensusSize ec).

Definition EstimateEndVotingBlockForParaProposal (blockNumber seconds : Z) : Z :=
  let consensusSize := ConsensusSize ec in
  let epochMaxDuration := MaxEpochMinutes (Common ec) in
  let consensusRoundsEachEpoch :=
    u64 (epochMaxDuration * 60) / u64 (Interval ec * consensusSize) in
  let blocksEachEpoch := u64 (consensusRoundsEachEpoch * consensusSize) in
  let durationEachEpoch := u64 (blocksEachEpoch * 1) in
  let epochRounds := seconds / durationEachEpoch in
  u64 (blockNumber + blocksEachEpoch - blockNumber mod blocksEachEpoch
       + epochRounds * blocksEachEpoch).

Definition CalcBlocksEachYear : Z := u64 (EpochsPerYear * CalcBlocksEachEpoch).

(** The switch [CalculateEpoch] and [CalculateRound] share. *)
Definition period_of (size blockNumber : Z) : Z :=
  let div := blockNumber / size in
  let mod_ := blockNumber mod size in
  if div =? 0 then 1
  else if (0 <? div) && (mod_ =? 0) then div
  else if (0 <? div) && (0 <? mod_) then u64 (div + 1)
  else 0.

Definition CalculateEpoch (blockNumber : Z) : Z :=
  period_of CalcBlocksEachEpoch blockNumber.

Definition CalculateRound (blockNumber : Z) : Z :=
  period_of (ConsensusSize ec) blockNumber.

Fixpoint InNodeIDList (nodeID : Z) (nodeIDList : list Z) : bool :=
  match nodeIDList with
  | [] => false
  | v :: rest => if nodeID =? v then true else InNodeIDList nodeID rest
  end.

Fixpoint InHashList (hash : Z) (hashList : list Z) : bool :=
  match hashList with
  | [] => false
  | v :: rest => if hash =? v then true else InHashList hash rest
  end.

Definition CalEndVotingBlock (blockNumber endVotingRounds : Z) : Z :=
  let consensusSize := ConsensusSize ec in
  u64 (blockNumber + consensusSize - blockNumber mod consensusSize
       + endVotingRounds * consensusSize - ElectionDistance ec).

Definition CalActiveBlock (endVotingBlock : Z) : Z :=
  u64 (endVotingBlock + ElectionDistance ec + 1).

Definition IsBeginOfEpoch (blockNumber : Z) : bool :=
  blockNumber mod CalcBlocksEachEpoch =? 1.

Definition IsBeginOfConsensus (blockNumber : Z) : bool :=
  blockNumber mod ConsensusSize ec =? 1.

Definition IsEndOfEpoch (blockNumber : Z) : bool :=
  blockNumber mod CalcBlocksEachEpoch =? 0.

Definition IsElection (blockNumber : Z) : bool :=
  u64 (blockNumber + ElectionDistance ec) mod ConsensusSize ec =? 0.

End calculate.

(** Block numbers and durations the theorems cover. *)
Definition block_bound : Z := 2 ^ 60.

(** ** Lemmas on periods *)

Section period.
Context (size : Z) (Hsize : 1 < size).

Lemma period_of_bounds n :
  1 <= n < block_bound →
  (period_of size n - 1) * size < n <= period_of size n * size.
Proof using Hsize.
  intros Hn. unfold period_of, block_bound in *.
  pose proof (Z.div_mod n size ltac:(lia)) as Hdm.
  pose proof (Z.mod_pos_bound n size ltac:(lia)).
  assert (0 <= n / size) by (apply Z.div_pos; lia).
  assert (n / size <= n) by (apply Z.div_le_upper_bound; nia).
  destruct (Z.eqb_spec (n / size) 0) as [E|E]; [nia|].
  destruct (Z.ltb_spec 0 (n / size)); [|lia].
  destruct (Z.eqb_spec (n mod size) 0); cbn; [nia|].
  destruct (Z.ltb_spec 0 (n mod size)); [|lia].
  rewrite u64_small by (unfold in_u64; lia). nia.
Qed.

Lemma period_of_unique n p :
  1 <= n < block_bound → (p - 1) * size < n <= p * size → period_of size n = p.
Proof using Hsize.
  intros Hn Hp. pose proof (period_of_bounds n Hn). nia.
Qed.

Lemma mod_0_mult n : n mod size = 0 ↔ ∃ k, n = k * size.
Proof using Hsize.
  split; [|intros [k ->]; apply Z.mod_mul; lia].
  intros H. exists (n / size). pose proof (Z.div_mod n size). lia.
Qed.

Lemma period_of_step n :
  1 <= n → n + 1 < block_bound →
  period_of size (n + 1) =
    period_of size n + (if n mod size =? 0 then 1 else 0).
Proof using Hsize.
  intros Hn Hb. pose proof (period_of_bounds n ltac:(lia)) as H.
  apply period_of_unique; [lia|].
  pose proof (Z.div_mod n size ltac:(lia)).
  pose proof (Z.mod_pos_bound n size ltac:(lia)).
  set (p := period_of size n) in *. set (q := n / size) in *.
  assert (p - 1 <= q <= p) by nia.
  destruct (Z.eqb_spec (n mod size) 0) as [E|E];
    [assert (q = p) by nia|assert (q = p - 1) by nia]; nia.
Qed.
End period.

Lemma ec_wf_round_time ec :
  ec_wf ec → 4 <= Interval ec * ConsensusSize ec < 2 ^ 38.
Proof.
  intros Hwf. rewrite (ec_wf_ConsensusSize ec Hwf).
  destruct Hwf as [[] ? Hi ? He].
  unfold FloorMaxConsensusVals, CeilMaxConsensusVals in *.
  assert (Interval ec * PerRoundBlocks (Common ec) <= NodeBlockTimeWindow (Common ec)).
  { unfold Interval. rewrite Z.mul_comm. apply Z.mul_div_le. lia. }
  nia.
Qed.

Lemma ec_wf_epoch_blocks ec :
  ec_wf ec →
  CalcBlocksEachEpoch ec = ConsensusSize ec * EpochSize ec
  ∧ 16 <= CalcBlocksEachEpoch ec < 2 ^ 38.
Proof.
  intros Hwf. pose proof (ec_wf_ConsensusSize_bounds ec Hwf) as Hc.
  pose proof (ec_wf_round_time ec Hwf) as Ht.
  destruct Hwf as [[] ? Hi ? He]. unfold FloorMaxConsensusVals in *.
  assert (Hd : ConsensusSize ec * EpochSize ec < 2 ^ 38).
  { revert He. unfold EpochSize. rewrite !u64_small by (unfold in_u64; lia). intros He.
    pose proof (Z.mul_div_le (MaxEpochMinutes (Common ec) * 60)
                  (Interval ec * ConsensusSize ec) ltac:(lia)). nia. }
  unfold CalcBlocksEachEpoch. rewrite u64_small by (unfold in_u64; nia). nia.
Qed.

(** Rounding up to the next multiple, as the deadline computations do. *)
Lemma next_multiple size n :
  1 < size → 0 <= n →
  n + size - n mod size = (n / size + 1) * size
  ∧ n < (n / size + 1) * size <= n + size.
Proof.
  intros Hs Hn. pose proof (Z.div_mod n size ltac:(lia)).
  pose proof (Z.mod_pos_bound n size ltac:(lia)). nia.
Qed.

Lemma IsElection_spec ec n :
  ec_wf ec → 0 <= n < block_bound →
  IsElection ec n = true ↔ ∃ k, n = k * ConsensusSize ec - ElectionDistance ec.
Proof.
  intros Hwf Hn. pose proof (ec_wf_ElectionDistance_lt ec Hwf).
  pose proof (ec_wf_ConsensusSize_bounds ec Hwf) as Hc. unfold FloorMaxConsensusVals in Hc.
  unfold IsElection, block_bound in *. rewrite u64_small by (unfold in_u64; lia).
  rewrite Z.eqb_eq, mod_0_mult by lia. split; intros [k Hk]; exists k; lia.
Qed.

(** ** Properties *)

Section properties.
Context (ec : EconomicModel) (Hwf : ec_wf ec).

(** [CalculateEpoch] gives block [n] the epoch [e] exactly when
    (e-1) * blocksPerEpoch < n <= e * blocksPerEpoch: epochs partition the
    chain from block 1 on, with no gap and no overlap. *)
Theorem CalculateEpoch_partition n e :
  1 <= n < block_bound →
  CalculateEpoch ec n = e ↔
    (e - 1) * (ConsensusSize ec * EpochSize ec) < n
      <= e * (ConsensusSize ec * EpochSize ec).
Proof using Hwf.
  intros Hn. pose proof (ec_wf_epoch_blocks ec Hwf) as [<- ?]. split.
  - intros <-. apply period_of_bounds; lia.
  - apply period_of_unique; lia.
Qed.

(** going from block [n] to [n+1] the epoch grows by one if [n] ends an
    epoch and stays otherwise, [IsEndOfEpoch n] holds exactly when
    [IsBeginOfEpoch (n+1)] does, and a block that begins an epoch also begins a
    consensus round. *)
Theorem epoch_boundary n :
  1 <= n → n + 1 < block_bound →
  CalculateEpoch ec (n + 1) = CalculateEpoch ec n + (if IsEndOfEpoch ec n then 1 else 0)
  ∧ IsBeginOfEpoch ec (n + 1) = IsEndOfEpoch ec n
  ∧ (IsBeginOfEpoch ec n = true → IsBeginOfConsensus ec n = true).
Proof using Hwf.
  intros Hn Hb. pose proof (ec_wf_epoch_blocks ec Hwf) as [Heq ?].
  pose proof (ec_wf_ConsensusSize_bounds ec Hwf) as Hc. unfold FloorMaxConsensusVals in Hc.
  split; [|split].
  - apply period_of_step; lia.
  - unfold IsBeginOfEpoch, IsEndOfEpoch. set (s := CalcBlocksEachEpoch ec) in *.
    pose proof (Z.mod_pos_bound n s ltac:(lia)).
    pose proof (Z.add_mod_idemp_l n 1 s ltac:(lia)) as Hs.
    apply eq_true_iff_eq. rewrite !Z.eqb_eq, <- Hs.
    destruct (decide (n mod s = s - 1)) as [->|].
    + replace (s - 1 + 1) with s by lia. rewrite Z.mod_same by lia. lia.
    + rewrite Z.mod_small by lia. lia.
  - unfold IsBeginOfEpoch, IsBeginOfConsensus. rewrite Heq. intros Hm. bool_to_prop.
    rewrite (Z.div_mod n (ConsensusSize ec * EpochSize ec)) by nia. rewrite Hm.
    rewrite <- Z.mul_assoc, Z.add_comm, Z.mul_comm, Z.mod_add by lia.
    rewrite Z.mod_small by lia. done.
Qed.
(** every consensus round contains exactly one election block, the block
    [ElectionDistance] before its end. *)
Theorem one_election_per_round r :
  1 <= r → r * ConsensusSize ec < block_bound →
  ∀ n, 0 <= n →
    (CalculateRound ec n = r ∧ 1 <= n < block_bound ∧ IsElection ec n = true)
    ↔ n = r * ConsensusSize ec - ElectionDistance ec.
Proof using Hwf.
  intros Hr Hb n Hn. pose proof (ec_wf_ElectionDistance_lt ec Hwf).
  pose proof (ec_wf_ConsensusSize_bounds ec Hwf) as Hc. unfold FloorMaxConsensusVals in Hc.
  split.
  - intros (Hround & Hn' & He). apply IsElection_spec in He as [k Hk]; [|done|lia].
    pose proof (period_of_bounds (ConsensusSize ec) ltac:(lia) n Hn') as Hp.
    fold (CalculateRound ec n) in Hp. rewrite Hround in Hp. assert (k = r) by nia. nia.
  - intros ->. split; [apply period_of_unique; [lia|nia|nia]|]. split; [nia|].
    apply IsElection_spec; [done|nia|by exists r].
Qed.

(** the end-voting block of a version or text proposal is an election
    block at least [endVotingRounds] rounds ahead, and the block at which the
    proposal becomes active is the first block of a consensus round. *)
Theorem voting_deadline blockNumber endVotingRounds :
  0 <= blockNumber < 2 ^ 58 → 0 <= endVotingRounds < 2 ^ 20 →
  let e := CalEndVotingBlock ec blockNumber endVotingRounds in
  blockNumber + endVotingRounds * ConsensusSize ec - ElectionDistance ec < e
    <= blockNumber + (endVotingRounds + 1) * ConsensusSize ec
  ∧ IsElection ec e = true
  ∧ IsBeginOfConsensus ec (CalActiveBlock ec e) = true.
Proof using Hwf.
  intros Hb Hr. cbv zeta. unfold CalEndVotingBlock.
  pose proof (ec_wf_ElectionDistance_lt ec Hwf).
  pose proof (ec_wf_ConsensusSize_bounds ec Hwf) as Hc. unfold FloorMaxConsensusVals in Hc.
  destruct (next_multiple (ConsensusSize ec) blockNumber) as [-> ?]; [lia|lia|].
  set (k := blockNumber / ConsensusSize ec + 1) in *.
  assert (0 <= endVotingRounds * ConsensusSize ec < 2 ^ 58) by nia.
  assert (ConsensusSize ec <= k * ConsensusSize ec)
    by (assert (1 <= k) by nia; nia).
  rewrite u64_small by (unfold in_u64; lia). split; [lia|].
  assert (He : IsElection ec (k * ConsensusSize ec + endVotingRounds * ConsensusSize ec
    - ElectionDistance ec) = true).
  { apply IsElection_spec; [done|unfold block_bound; lia|].
    exists (k + endVotingRounds). lia. }
  split; [done|]. unfold IsBeginOfConsensus, CalActiveBlock.
  rewrite u64_small by (unfold in_u64; lia). apply Z.eqb_eq.
  replace (_ - _ + _ + 1) with (1 + (k + endVotingRounds) * ConsensusSize ec) by lia.
  rewrite Z.mod_add by lia. apply Z.mod_small. lia.
Qed.

(** the end-voting block of a parameter proposal is the last block of an
    epoch and lies after the block the proposal is submitted in. *)
Theorem para_voting_deadline blockNumber seconds :
  0 <= blockNumber < 2 ^ 58 → 0 <= seconds < 2 ^ 58 →
  let e := EstimateEndVotingBlockForParaProposal ec blockNumber seconds in
  blockNumber < e <= blockNumber + seconds + CalcBlocksEachEpoch ec
  ∧ IsEndOfEpoch ec e = true.
Proof using Hwf.
  intros Hb Hs. cbv zeta.
  pose proof (ec_wf_epoch_blocks ec Hwf) as [Heq Hsz].
  unfold EstimateEndVotingBlockForParaProposal. fold (EpochSize ec).
  rewrite (Z.mul_comm (EpochSize ec)). fold (CalcBlocksEachEpoch ec).
  rewrite Z.mul_1_r, (u64_small (CalcBlocksEachEpoch ec)) by (unfold in_u64; lia).
  unfold IsEndOfEpoch. set (s := CalcBlocksEachEpoch ec) in *.
  destruct (next_multiple s blockNumber) as [-> ?]; [lia|lia|].
  pose proof (Z.mul_div_le seconds s ltac:(lia)).
  assert (0 <= seconds / s) by (apply Z.div_pos; lia).
  rewrite u64_small by (unfold in_u64; nia). split; [nia|].
  apply Z.eqb_eq. rewrite <- Z.mul_add_distr_r. apply Z.mod_mul. lia.
Qed.
End properties.

(** ** Witnesses *)

Lemma mainnet_wf : ec_wf (mainNetConfig InitialChosenMainNetValidators).
Proof. apply CheckEconomicModel_wf; [split; cbn; lia|by vm_compute]. Qed.

(** On the main network an epoch has 25 rounds of 43 blocks: 1075 blocks. *)
Lemma CalculateEpoch_partition_witness :
  CalculateEpoch (mainNetConfig InitialChosenMainNetValidators) 1076 = 2.
Proof.
  apply (CalculateEpoch_partition _ mainnet_wf); [unfold block_bound; lia|].
  vm_compute. split; [done|discriminate].
Defined.

Lemma epoch_boundary_witness :
  let ec := mainNetConfig InitialChosenMainNetValidators in
  CalculateEpoch ec 1076 = CalculateEpoch ec 1075 + (if IsEndOfEpoch ec 1075 then 1 else 0)
  ∧ IsEndOfEpoch ec 1075 = true.
Proof.
  split; [|by vm_compute].
  apply (epoch_boundary _ mainnet_wf 1075); unfold block_bound; lia.
Defined.

Lemma one_election_per_round_witness :
  let ec := mainNetConfig InitialChosenMainNetValidators in
  CalculateRound ec 41 = 1 ∧ 1 <= 41 < block_bound ∧ IsElection ec 41 = true.
Proof.
  apply (one_election_per_round _ mainnet_wf 1); [lia|by vm_compute|lia|by vm_compute].
Defined.

Lemma voting_deadline_witness :
  IsElection (mainNetConfig InitialChosenMainNetValidators)
    (CalEndVotingBlock (mainNetConfig InitialChosenMainNetValidators) 100 7) = true.
Proof. apply (voting_deadline _ mainnet_wf 100 7); lia. Defined.

Lemma para_voting_deadline_witness :
  IsEndOfEpoch (mainNetConfig InitialChosenMainNetValidators)
    (EstimateEndVotingBlockForParaProposal
       (mainNetConfig InitialChosenMainNetValidators) 100 86400) = true.
Proof. apply (para_voting_deadline _ mainnet_wf 100 86400); lia. Defined.
