(* ===== verification/StateDB.v ===== *)
(** * The world state the plugins share (src/ethereum/core/state, src/libs/common/vm)

    Accounts are 160-bit numbers.  [StateDB] keeps the balances and the storage
    of the inner contracts.  The storage is typed: a value stored RLP-encoded
    under a byte key is kept as the value itself under the arguments of its key
    builder, an absent or empty value being a missing entry.  The file Keys
    proves that the key builders do not collide. *)

From S2P Require Import Prelude.

(** ** The inner contracts *)

Definition RestrictingContractAddr : Z := 0x1000000000000000000000000000000000000001.
Definition StakingContractAddr : Z := 0x1000000000000000000000000000000000000002.
Definition RewardManagerPoolAddr : Z := 0x1000000000000000000000000000000000000003.
Definition SlashingContractAddr : Z := 0x1000000000000000000000000000000000000004.
Definition GovContractAddr : Z := 0x1000000000000000000000000000000000000005.
Definition DelegateRewardPoolAddr : Z := 0x1000000000000000000000000000000000000006.

(** ** Restricting records (src/pos/restricting/restricting_types.go) *)

Record RestrictingInfo := {
  NeedRelease : Z;
  AdvanceAmount : Z;
  CachePlanAmount : Z;
  ReleaseList : list Z }.

Record RestrictingPlan := {
  planEpoch : Z;
  planAmount : Z }.

(** The storage of the restricting contract: account info, the number of
    records of an epoch, the account at an index of an epoch, the amount an
    account releases at an epoch, and the foundation's genesis plans. *)
Record RestrictingStore := {
  infoOf : gmap Z RestrictingInfo;
  epochNumber : gmap Z Z;
  releaseAccount : gmap (Z * Z) Z;
  releaseAmount : gmap (Z * Z) Z;
  genesisPlans : option (list Z) }.

(** The storage of the reward pool contract, by year. *)
Record RewardPoolStore := {
  yearEndCumulativeIssue : gmap Z Z;
  yearEndBalance : gmap Z Z }.

Record StateDB := {
  balances : gmap Z Z;
  restrictingStore : RestrictingStore;
  rewardPoolStore : RewardPoolStore;
  (* evidence already punished, under the slashing contract *)
  slashedEvidence : gmap (Z * Z * Z) Z }.

(** ** Field updates *)

Definition with_balances (f : gmap Z Z → gmap Z Z) (s : StateDB) : StateDB :=
  {| balances := f (balances s); restrictingStore := restrictingStore s;
     rewardPoolStore := rewardPoolStore s; slashedEvidence := slashedEvidence s |}.

Definition with_restricting (f : RestrictingStore → RestrictingStore) (s : StateDB)
    : StateDB :=
  {| balances := balances s; restrictingStore := f (restrictingStore s);
     rewardPoolStore := rewardPoolStore s; slashedEvidence := slashedEvidence s |}.

Definition with_rewardPool (f : RewardPoolStore → RewardPoolStore) (s : StateDB)
    : StateDB :=
  {| balances := balances s; restrictingStore := restrictingStore s;
     rewardPoolStore := f (rewardPoolStore s); slashedEvidence := slashedEvidence s |}.

Definition with_evidence (f : gmap (Z * Z * Z) Z → gmap (Z * Z * Z) Z) (s : StateDB)
    : StateDB :=
  {| balances := balances s; restrictingStore := restrictingStore s;
     rewardPoolStore := rewardPoolStore s; slashedEvidence := f (slashedEvidence s) |}.

(** ** Balances

    Neither [AddBalance] nor [SubBalance] checks anything: a balance is an
    integer of any size and may become negative. *)

Definition GetBalance (s : StateDB) (addr : Z) : Z := default 0 (balances s !! addr).

Definition SetBalance (addr amount : Z) (s : StateDB) : StateDB :=
  with_balances (<[addr := amount]>) s.

Definition AddBalance (addr amount : Z) (s : StateDB) : StateDB :=
  if amount =? 0 then s else SetBalance addr (GetBalance s addr + amount) s.

Definition SubBalance (addr amount : Z) (s : StateDB) : StateDB :=
  if amount =? 0 then s else SetBalance addr (GetBalance s addr - amount) s.

(** The coins in existence. *)
Definition total_supply (s : StateDB) : Z := msum (λ b, b) (balances s).

Lemma GetBalance_Set addr x s b :
  GetBalance (SetBalance addr x s) b = if b =? addr then x else GetBalance s b.
Proof.
  unfold GetBalance, SetBalance; cbn. destruct (Z.eqb_spec b addr) as [->|].
  - by rewrite lookup_insert_eq.
  - by rewrite lookup_insert_ne.
Qed.

Lemma GetBalance_Add addr x s b :
  GetBalance (AddBalance addr x s) b = GetBalance s b + (if b =? addr then x else 0).
Proof.
  unfold AddBalance. destruct (Z.eqb_spec x 0) as [->|]; [case_match; lia|].
  rewrite GetBalance_Set. case_match; bool_to_prop; subst; lia.
Qed.

Lemma GetBalance_Sub addr x s b :
  GetBalance (SubBalance addr x s) b = GetBalance s b - (if b =? addr then x else 0).
Proof.
  unfold SubBalance. destruct (Z.eqb_spec x 0) as [->|]; [case_match; lia|].
  rewrite GetBalance_Set. case_match; bool_to_prop; subst; lia.
Qed.

Lemma total_supply_Set addr x s :
  total_supply (SetBalance addr x s) = total_supply s + (x - GetBalance s addr).
Proof.
  unfold total_supply, SetBalance, GetBalance; cbn. rewrite msum_insert.
  unfold at_key. destruct (balances s !! addr); cbn; lia.
Qed.

Lemma total_supply_Add addr x s :
  total_supply (AddBalance addr x s) = total_supply s + x.
Proof.
  unfold AddBalance. destruct (Z.eqb_spec x 0); [lia|]. rewrite total_supply_Set. lia.
Qed.

Lemma total_supply_Sub addr x s :
  total_supply (SubBalance addr x s) = total_supply s - x.
Proof.
  unfold SubBalance. destruct (Z.eqb_spec x 0); [lia|]. rewrite total_supply_Set. lia.
Qed.

Lemma restrictingStore_Add addr x s :
  restrictingStore (AddBalance addr x s) = restrictingStore s.
Proof. unfold AddBalance. by case_match. Qed.

Lemma restrictingStore_Sub addr x s :
  restrictingStore (SubBalance addr x s) = restrictingStore s.
Proof. unfold SubBalance. by case_match. Qed.

Lemma rewardPoolStore_Add addr x s :
  rewardPoolStore (AddBalance addr x s) = rewardPoolStore s.
Proof. unfold AddBalance. by case_match. Qed.

Lemma rewardPoolStore_Sub addr x s :
  rewardPoolStore (SubBalance addr x s) = rewardPoolStore s.
Proof. unfold SubBalance. by case_match. Qed.

Lemma rewardPoolStore_with f s :
  rewardPoolStore (with_rewardPool f s) = f (rewardPoolStore s).
Proof. done. Qed.

Lemma GetBalance_with_rewardPool f s a :
  GetBalance (with_rewardPool f s) a = GetBalance s a.
Proof. done. Qed.

Lemma total_supply_with_rewardPool f s :
  total_supply (with_rewardPool f s) = total_supply s.
Proof. done. Qed.

Lemma GetBalance_with_restricting f s a :
  GetBalance (with_restricting f s) a = GetBalance s a.
Proof. done. Qed.

Lemma total_supply_with_restricting f s :
  total_supply (with_restricting f s) = total_supply s.
Proof. done. Qed.

Create Rewrite HintDb state.
#[export] Hint Rewrite GetBalance_Add GetBalance_Sub total_supply_Add total_supply_Sub
  restrictingStore_Add restrictingStore_Sub GetBalance_with_restricting
  total_supply_with_restricting rewardPoolStore_Add rewardPoolStore_Sub rewardPoolStore_with
  GetBalance_with_rewardPool total_supply_with_rewardPool : state.

(** ** Transfers *)

Definition transferAmount (from to amount : Z) (s : StateDB) : StateDB :=
  AddBalance to amount (SubBalance from amount s).

Lemma GetBalance_transfer from to x s b :
  GetBalance (transferAmount from to x s) b =
    GetBalance s b - (if b =? from then x else 0) + (if b =? to then x else 0).
Proof. unfold transferAmount. by autorewrite with state. Qed.

Lemma total_supply_transfer from to x s :
  total_supply (transferAmount from to x s) = total_supply s.
Proof. unfold transferAmount. autorewrite with state. lia. Qed.

Lemma restrictingStore_transfer from to x s :
  restrictingStore (transferAmount from to x s) = restrictingStore s.
Proof. unfold transferAmount. by autorewrite with state. Qed.

#[export] Hint Rewrite GetBalance_transfer total_supply_transfer
  restrictingStore_transfer : state.
