(* ===== verification/Restricting.v ===== *)
(** * The restricting plugin (src/pos/plugin/restricting_plugin.go)

    Plans lock coins in the restricting contract and release them at the end
    of the epochs they name.  Locked coins may be advanced to the staking
    contract, returned from it, or slashed there.

    The operations run on [StateDB].  Go iterates over the map of merged plans
    in an unspecified order; [ord] is that order, any function that lists a map
    completely. *)

From S2P Require Import Prelude Xcom Xutil StateDB.

(** ** Errors (src/pos/restricting/restricting_err.go) *)

Definition ErrParamEpochInvalid := BizError 304001.
Definition ErrCountRestrictPlansInvalid := BizError 304002.
Definition ErrBalanceNotEnough := BizError 304004.
Definition ErrAccountNotFound := BizError 304005.
Definition ErrSlashingTooMuch := BizError 304006.
Definition ErrStakingAmountEmpty := BizError 304007.
Definition ErrAdvanceLockedFundsAmountLessThanZero := BizError 304008.
Definition ErrReturnLockFundsAmountLessThanZero := BizError 304009.
Definition ErrSlashingAmountLessThanZero := BizError 304010.
Definition ErrCreatePlanAmountLessThanZero := BizError 304011.
Definition ErrStakingAmountInvalid := BizError 304012.
Definition ErrRestrictBalanceNotEnough := BizError 304013.
Definition ErrCreatePlanAmountLessThanMiniAmount := BizError 304014.
Definition ErrRestrictBalanceAndFreeNotEnough := BizError 304015.
(** src/pos/staking/staking_err.go *)
Definition ErrAccountVonNoEnough := BizError 301111.

Definition RestrictTxPlanSize : nat := 36.

(** ** The store *)

Definition with_info (f : gmap Z RestrictingInfo → gmap Z RestrictingInfo)
    (r : RestrictingStore) : RestrictingStore :=
  {| infoOf := f (infoOf r); epochNumber := epochNumber r;
     releaseAccount := releaseAccount r; releaseAmount := releaseAmount r;
     genesisPlans := genesisPlans r |}.

Definition with_epochNumber (f : gmap Z Z → gmap Z Z)
    (r : RestrictingStore) : RestrictingStore :=
  {| infoOf := infoOf r; epochNumber := f (epochNumber r);
     releaseAccount := releaseAccount r; releaseAmount := releaseAmount r;
     genesisPlans := genesisPlans r |}.

Definition with_releaseAccount (f : gmap (Z * Z) Z → gmap (Z * Z) Z)
    (r : RestrictingStore) : RestrictingStore :=
  {| infoOf := infoOf r; epochNumber := epochNumber r;
     releaseAccount := f (releaseAccount r); releaseAmount := releaseAmount r;
     genesisPlans := genesisPlans r |}.

Definition with_releaseAmount (f : gmap (Z * Z) Z → gmap (Z * Z) Z)
    (r : RestrictingStore) : RestrictingStore :=
  {| infoOf := infoOf r; epochNumber := epochNumber r;
     releaseAccount := releaseAccount r; releaseAmount := f (releaseAmount r);
     genesisPlans := genesisPlans r |}.

Definition with_genesisPlans (p : option (list Z)) (r : RestrictingStore)
    : RestrictingStore :=
  {| infoOf := infoOf r; epochNumber := epochNumber r;
     releaseAccount := releaseAccount r; releaseAmount := releaseAmount r;
     genesisPlans := p |}.

Definition getReleaseEpochNumber (s : StateDB) (epoch : Z) : Z :=
  default 0 (epochNumber (restrictingStore s) !! epoch).

(** A missing account reads back as the zero address. *)
Definition getReleaseAccount (s : StateDB) (epoch index : Z) : Z :=
  default 0 (releaseAccount (restrictingStore s) !! (epoch, index)).

Definition getRestrictingInfo (s : StateDB) (account : Z) : option RestrictingInfo :=
  infoOf (restrictingStore s) !! account.

Definition mustGetRestrictingInfoByDecode (account : Z) : M StateDB RestrictingInfo :=
  o ← gets (λ s, getRestrictingInfo s account);
  match o with
  | None => fail ErrAccountNotFound
  | Some info => mret info
  end.

Definition getReleaseAmount (s : StateDB) (epoch account : Z) : Z :=
  default 0 (releaseAmount (restrictingStore s) !! (epoch, account)).

(** RLP refuses a negative integer, and the code panics on that. *)
Definition encodable (info : RestrictingInfo) : bool :=
  (0 <=? NeedRelease info) && (0 <=? AdvanceAmount info) && (0 <=? CachePlanAmount info).

Definition setInfo (account : Z) (info : RestrictingInfo) (s : StateDB) : StateDB :=
  with_restricting (with_info (<[account := info]>)) s.

Definition deleteInfo (account : Z) (s : StateDB) : StateDB :=
  with_restricting (with_info (delete account)) s.

Definition storeRestrictingInfo (account : Z) (info : RestrictingInfo) : M StateDB unit :=
  if encodable info then modify (setInfo account info) else panic.

Definition storeNumber2ReleaseEpoch (epoch accNumbers : Z) (s : StateDB) : StateDB :=
  with_restricting (with_epochNumber (<[epoch := accNumbers]>)) s.

Definition storeAccount2ReleaseAccount (epoch index account : Z) (s : StateDB) : StateDB :=
  with_restricting (with_releaseAccount (<[(epoch, index) := account]>)) s.

(** [amount.Bytes()] drops the sign; zero is stored as the empty value. *)
Definition storeAmount2ReleaseAmount (epoch account amount : Z) (s : StateDB) : StateDB :=
  with_restricting (with_releaseAmount
    (if amount =? 0 then delete (epoch, account)
     else <[(epoch, account) := Z.abs amount]>)) s.

Fixpoint removeFirst (epoch : Z) (l : list Z) : list Z :=
  match l with
  | [] => []
  | target :: rest => if target =? epoch then rest else target :: removeFirst epoch rest
  end.

Definition RemoveEpoch (epoch : Z) (r : RestrictingInfo) : RestrictingInfo :=
  {| NeedRelease := NeedRelease r; AdvanceAmount := AdvanceAmount r;
     CachePlanAmount := CachePlanAmount r;
     ReleaseList := removeFirst epoch (ReleaseList r) |}.

(** ** Plans *)

Section plans.
Context (ec : EconomicModel).

Definition mergeStep (latestEpoch minimumAmount : Z)
    (acc : Z * gmap Z Z) (plan : RestrictingPlan) : outcome (Z * gmap Z Z) :=
  let '(totalAmount, planMap) := acc in
  let epoch := planEpoch plan in
  let amount := planAmount plan in
  if epoch =? 0 then Err ErrParamEpochInvalid
  else if amount <=? 0 then Err ErrCreatePlanAmountLessThanZero
  else if amount <? minimumAmount then Err ErrCreatePlanAmountLessThanMiniAmount
  else
    let newEpoch := u64 (epoch + latestEpoch - 1) in
    Ok (totalAmount + amount,
        match planMap !! newEpoch with
        | Some value => <[newEpoch := amount + value]> planMap
        | None => <[newEpoch := amount]> planMap
        end).

Fixpoint mergeLoop (latestEpoch minimumAmount : Z) (plans : list RestrictingPlan)
    (acc : Z * gmap Z Z) : outcome (Z * gmap Z Z) :=
  match plans with
  | [] => Ok acc
  | plan :: rest =>
      acc' ← mergeStep latestEpoch minimumAmount acc plan;
      mergeLoop latestEpoch minimumAmount rest acc'
  end.

(** [minimumAmount] is the answer of [gov.GovernRestrictingMinimumAmount]. *)
Definition mergeAmount (minimumAmount : outcome Z) (blockNum : Z)
    (plans : list RestrictingPlan) : outcome (Z * gmap Z Z) :=
  let latestEpoch := CalculateEpoch ec blockNum in
  minimum ← minimumAmount;
  mergeLoop latestEpoch minimum plans (0, ∅).

Definition initEpochInfo (epoch account amount : Z) (s : StateDB) : StateDB :=
  let newEpochAccountIndex := u32 (getReleaseEpochNumber s epoch + 1) in
  storeAmount2ReleaseAmount epoch account amount
    (storeAccount2ReleaseAccount epoch newEpochAccountIndex account
       (storeNumber2ReleaseEpoch epoch newEpochAccountIndex s)).

(** The two loops over the merged plans: for an account without a record, and
    for one that has one. *)
Fixpoint initPlans (account : Z) (plans : list (Z * Z)) (s : StateDB) : StateDB :=
  match plans with
  | [] => s
  | (epoch, amount) :: rest =>
      initPlans account rest (initEpochInfo epoch account amount s)
  end.

Fixpoint mergePlans (account : Z) (plans : list (Z * Z)) (s : StateDB)
    (releaseList : list Z) : StateDB * list Z :=
  match plans with
  | [] => (s, releaseList)
  | (epoch, amount) :: rest =>
      let currentAmount := getReleaseAmount s epoch account in
      if currentAmount =? 0 then
        mergePlans account rest (initEpochInfo epoch account amount s)
          (releaseList ++ [epoch])
      else
        mergePlans account rest
          (storeAmount2ReleaseAmount epoch account (currentAmount + amount) s)
          releaseList
  end.

(** A new deposit first pays what the account is owed. *)
Definition settleDeposit (account totalAmount : Z) (info : RestrictingInfo) (s : StateDB)
    : RestrictingInfo * StateDB :=
  if 0 <? NeedRelease info then
    if totalAmount <=? NeedRelease info then
      ({| NeedRelease := NeedRelease info - totalAmount;
          AdvanceAmount := AdvanceAmount info;
          CachePlanAmount := CachePlanAmount info;
          ReleaseList := ReleaseList info |},
       transferAmount RestrictingContractAddr account totalAmount s)
    else
      ({| NeedRelease := 0;
          AdvanceAmount := AdvanceAmount info;
          CachePlanAmount := CachePlanAmount info + (totalAmount - NeedRelease info);
          ReleaseList := ReleaseList info |},
       transferAmount RestrictingContractAddr account (NeedRelease info) s)
  else
    ({| NeedRelease := NeedRelease info;
        AdvanceAmount := AdvanceAmount info;
        CachePlanAmount := CachePlanAmount info + totalAmount;
        ReleaseList := ReleaseList info |}, s).

Definition sortEpochs (l : list Z) : list Z := merge_sort Z.le l.

Definition AddRestrictingRecord (ord : gmap Z Z → list (Z * Z))
    (minimumAmount : outcome Z) (from account blockNum : Z)
    (plans : list RestrictingPlan) (txhash : Z) : M StateDB unit :=
  if (length plans =? 0)%nat || (RestrictTxPlanSize <? length plans)%nat
  then fail ErrCountRestrictPlansInvalid
  else match mergeAmount minimumAmount blockNum plans with
  | Err e => fail e
  | Panic => panic
  | Ok (totalAmount, totalPlans) =>
      balance ← gets (λ s, GetBalance s from);
      if balance <? totalAmount then fail ErrBalanceNotEnough
      else if txhash =? 0 then mret tt
      else
        modify (transferAmount from RestrictingContractAddr totalAmount) ≫= λ _,
        o ← gets (λ s, getRestrictingInfo s account);
        match o with
        | None =>
            modify (initPlans account (ord totalPlans)) ≫= λ _,
            storeRestrictingInfo account
              {| NeedRelease := 0; AdvanceAmount := 0;
                 CachePlanAmount := totalAmount;
                 ReleaseList := sortEpochs (ord totalPlans).*1 |}
        | Some info =>
            s ← get;
            let '(info', s1) := settleDeposit account totalAmount info s in
            let '(s2, releaseList) :=
              mergePlans account (ord totalPlans) s1 (ReleaseList info') in
            modify (λ _, s2) ≫= λ _,
            storeRestrictingInfo account
              {| NeedRelease := NeedRelease info';
                 AdvanceAmount := AdvanceAmount info';
                 CachePlanAmount := CachePlanAmount info';
                 ReleaseList := sortEpochs releaseList |}
        end
  end.
End plans.

(** ** Advancing, returning and slashing locked coins *)

Definition with_advance (f : Z → Z) (info : RestrictingInfo) : RestrictingInfo :=
  {| NeedRelease := NeedRelease info; AdvanceAmount := f (AdvanceAmount info);
     CachePlanAmount := CachePlanAmount info; ReleaseList := ReleaseList info |}.

Definition AdvanceLockedFunds (account amount : Z) : M StateDB unit :=
  info ← mustGetRestrictingInfoByDecode account;
  if amount <? 0 then fail ErrAdvanceLockedFundsAmountLessThanZero
  else if amount =? 0 then mret tt
  else
    let canStaking := CachePlanAmount info - AdvanceAmount info in
    if canStaking <? amount then fail ErrRestrictBalanceNotEnough
    else
      storeRestrictingInfo account (with_advance (λ a, a + amount) info) ≫= λ _,
      modify (transferAmount RestrictingContractAddr StakingContractAddr amount).

Definition MixAdvanceLockedFunds (account amount : Z) : M StateDB (Z * Z) :=
  r ← try (mustGetRestrictingInfoByDecode account);
  match r with
  | inr err =>
      if bool_decide (err = ErrAccountNotFound) then
        origin ← gets (λ s, GetBalance s account);
        if origin <? amount then fail ErrAccountVonNoEnough
        else
          modify (transferAmount account StakingContractAddr amount) ≫= λ _,
          mret (0, amount)
      else fail err
  | inl info =>
      if amount <? 0 then fail ErrAdvanceLockedFundsAmountLessThanZero
      else if amount =? 0 then mret (amount, amount)
      else
        let canStakingRestricting := CachePlanAmount info - AdvanceAmount info in
        canStakingFree ← gets (λ s, GetBalance s account);
        if canStakingRestricting + canStakingFree <? amount
        then fail ErrRestrictBalanceAndFreeNotEnough
        else
          let short := canStakingRestricting <? amount in
          let forRestricting := if short then canStakingRestricting else amount in
          let forFree := if short then amount - canStakingRestricting else 0 in
          when short (modify (transferAmount account StakingContractAddr forFree)) ≫= λ _,
          storeRestrictingInfo account (with_advance (λ a, a + forRestricting) info) ≫= λ _,
          modify (transferAmount RestrictingContractAddr StakingContractAddr
                    forRestricting) ≫= λ _,
          mret (forRestricting, forFree)
  end.

(** Store an info, or remove it when nothing is left in it. *)
Definition storeOrRemove (account : Z) (info : RestrictingInfo) : M StateDB unit :=
  if (AdvanceAmount info =? 0) && (length (ReleaseList info) =? 0)%nat
     && (CachePlanAmount info =? 0)
  then modify (deleteInfo account)
  else storeRestrictingInfo account info.

(** Coins that come back first pay what the account is owed. *)
Definition settleReturn (account amount : Z) (info : RestrictingInfo) (s : StateDB)
    : RestrictingInfo * StateDB :=
  if 0 <? NeedRelease info then
    if amount <=? NeedRelease info then
      ({| NeedRelease := NeedRelease info - amount;
          AdvanceAmount := AdvanceAmount info;
          CachePlanAmount := CachePlanAmount info - amount;
          ReleaseList := ReleaseList info |},
       transferAmount RestrictingContractAddr account amount s)
    else
      ({| NeedRelease := 0;
          AdvanceAmount := AdvanceAmount info;
          CachePlanAmount := CachePlanAmount info - NeedRelease info;
          ReleaseList := ReleaseList info |},
       transferAmount RestrictingContractAddr account (NeedRelease info) s)
  else (info, s).

Definition ReturnLockFunds (account amount : Z) : M StateDB unit :=
  if amount =? 0 then mret tt
  else if amount <? 0 then fail ErrReturnLockFundsAmountLessThanZero
  else
    info ← mustGetRestrictingInfoByDecode account;
    if AdvanceAmount info <? amount then fail ErrStakingAmountInvalid
    else
      modify (transferAmount StakingContractAddr RestrictingContractAddr amount) ≫= λ _,
      s ← get;
      let '(info', s') := settleReturn account amount info s in
      modify (λ _, s') ≫= λ _,
      storeOrRemove account (with_advance (λ a, a - amount) info').

Definition SlashingNotify (account amount : Z) : M StateDB unit :=
  info ← mustGetRestrictingInfoByDecode account;
  if amount <? 0 then fail ErrSlashingAmountLessThanZero
  else if amount =? 0 then mret tt
  else if AdvanceAmount info <=? 0 then fail ErrStakingAmountEmpty
  else if AdvanceAmount info <? amount then fail ErrSlashingTooMuch
  else
    storeOrRemove account
      {| NeedRelease := NeedRelease info;
         AdvanceAmount := AdvanceAmount info - amount;
         CachePlanAmount := CachePlanAmount info - amount;
         ReleaseList := ReleaseList info |}.

(** ** Release at the end of an epoch *)

Definition payRelease (account amount : Z) (info : RestrictingInfo) (s : StateDB)
    : RestrictingInfo * StateDB :=
  if 0 <? NeedRelease info then
    ({| NeedRelease := NeedRelease info + amount;
        AdvanceAmount := AdvanceAmount info;
        CachePlanAmount := CachePlanAmount info;
        ReleaseList := ReleaseList info |}, s)
  else
    let canRelease := CachePlanAmount info - AdvanceAmount info in
    if amount <=? canRelease then
      ({| NeedRelease := NeedRelease info;
          AdvanceAmount := AdvanceAmount info;
          CachePlanAmount := CachePlanAmount info - amount;
          ReleaseList := ReleaseList info |},
       transferAmount RestrictingContractAddr account amount s)
    else
      ({| NeedRelease := NeedRelease info + (amount - canRelease);
          AdvanceAmount := AdvanceAmount info;
          CachePlanAmount := CachePlanAmount info - canRelease;
          ReleaseList := ReleaseList info |},
       transferAmount RestrictingContractAddr account canRelease s).

(** One iteration of the loop, for the record at [index]. *)
Definition releaseOne (epoch index : Z) : M StateDB unit :=
  account ← gets (λ s, getReleaseAccount s epoch index);
  o ← gets (λ s, getRestrictingInfo s account);
  match o with
  | None => mret tt
  | Some info =>
      amount ← gets (λ s, getReleaseAmount s epoch account);
      s ← get;
      let '(info', s') := payRelease account amount info s in
      modify (λ _, s') ≫= λ _,
      modify (with_restricting (with_releaseAmount (delete (epoch, account)))) ≫= λ _,
      modify (with_restricting (with_releaseAccount (delete (epoch, index)))) ≫= λ _,
      let info'' := RemoveEpoch epoch info' in
      if CachePlanAmount info'' =? 0 then
        if (NeedRelease info'' =? 0) || (length (ReleaseList info'') =? 0)%nat
        then modify (deleteInfo account)
        else storeRestrictingInfo account info''
      else storeRestrictingInfo account info''
  end.

(** [for index := numbers; index > 0; index--] *)
Fixpoint releaseLoop (epoch : Z) (index : nat) : M StateDB unit :=
  match index with
  | O => mret tt
  | S n => releaseOne epoch (Z.of_nat index) ≫= λ _, releaseLoop epoch n
  end.

Definition releaseRestricting (epoch : Z) : M StateDB unit :=
  numbers ← gets (λ s, getReleaseEpochNumber s epoch);
  if numbers =? 0 then mret tt
  else
    releaseLoop epoch (Z.to_nat numbers) ≫= λ _,
    modify (with_restricting (with_epochNumber (delete epoch))).

(** ** Genesis plans *)

Definition updateGenesisRestrictingPlans (plans : list Z) (s : StateDB) : StateDB :=
  with_restricting (with_genesisPlans (Some plans)) s.

Definition genesisAllowancePlans : list Z :=
  [55965742 * 10 ^ 18; 49559492 * 10 ^ 18; 42993086 * 10 ^ 18; 36262520 * 10 ^ 18;
   29363689 * 10 ^ 18; 22292388 * 10 ^ 18; 15044304 * 10 ^ 18; 7615018 * 10 ^ 18].

Definition initialRelease : Z := 62265742 * 10 ^ 18.
Definition totalRestrictingPlan : Z := 259096239 * 10 ^ 18.

Definition InitGenesisRestrictingPlans (ec : EconomicModel) (s : StateDB) : StateDB :=
  let cdf := CDFAccount (InnerAcc ec) in
  let s := SubBalance cdf initialRelease s in
  let s := AddBalance RewardManagerPoolAddr initialRelease s in
  let s := SubBalance cdf totalRestrictingPlan s in
  let s := AddBalance RestrictingContractAddr totalRestrictingPlan s in
  updateGenesisRestrictingPlans genesisAllowancePlans s.

Definition releaseGenesisRestrictingPlans (s : StateDB) : StateDB :=
  match genesisPlans (restrictingStore s) with
  | None => s
  | Some (allowance :: rest) =>
      updateGenesisRestrictingPlans rest
        (AddBalance RewardManagerPoolAddr allowance
           (SubBalance RestrictingContractAddr allowance s))
  | Some [] => with_restricting (with_genesisPlans None) s
  end.

(** [yearEnd] is the answer of [xcom.IsYearEnd], whose error the code drops. *)
Definition RestrictingEndBlock (ec : EconomicModel) (yearEnd : bool) (number : Z)
    : M StateDB unit :=
  if IsEndOfEpoch ec number then
    releaseRestricting (CalculateEpoch ec number) ≫= λ _,
    when yearEnd (modify releaseGenesisRestrictingPlans)
  else mret tt.

(** ** Queries *)

Record ReleaseAmountInfo := { Height : Z; Amount : Z }.

Record RestrictingResult := {
  Balance : Z;
  Debt : Z;
  Entry : list ReleaseAmountInfo;
  Pledge : Z }.

Definition GetBlockNumberByEpoch (ec : EconomicModel) (epoch : Z) : Z :=
  u64 (epoch * CalcBlocksEachEpoch ec).

Definition getRestrictingInfoToReturn (ec : EconomicModel) (account : Z)
    : M StateDB RestrictingResult :=
  info ← mustGetRestrictingInfoByDecode account;
  gets (λ s,
    {| Balance := CachePlanAmount info; Debt := NeedRelease info;
       Entry := map (λ epoch,
         {| Height := GetBlockNumberByEpoch ec epoch;
            Amount := getReleaseAmount s epoch account |}) (ReleaseList info);
       Pledge := AdvanceAmount info |}).
