(* ===== verification/Vrf.v ===== *)
(** * Random numbers of the chain (src/pos/handler/vrf_handler.go)

    Each block carries a proof of a verifiable random function over the random
    number of its parent.  The handler keeps the last numbers, one for each
    verifier, for the elections (Election). *)

From S2P Require Import Prelude Xcom Restricting.

Definition ErrInvalidVrfProve := GenericError.

(** src/libs/crypto/vrf, an elliptic-curve library: proofs, their verification and
    the random number of a proof. *)
Class Vrf := {
  Prove : Z → list Z → outcome (list Z);
  Verify : Z → list Z → list Z → outcome bool;
  proofToHash : list Z → list Z }.

(** What the snapshot database has under [NonceStorageKey], by block hash. *)
Abbreviation NonceDB := (gmap Z (list (list Z))).

Record VrfHandler := { privateKey : Z; genesisNonce : list Z }.

Section handler.
Context `{Vrf} (vh : VrfHandler).

Definition Load (hash : Z) : M NonceDB (list (list Z)) :=
  o ← gets (λ db, db !! hash);
  match o with Some nonces => mret nonces | None => fail DbNotFound end.

Definition getParentNonce (currentBlockNumber parentHash : Z) : M NonceDB (list Z) :=
  if (currentBlockNumber =? 1) && (0 <? length (genesisNonce vh))%nat
  then mret (proofToHash (genesisNonce vh))
  else
    value ← Load parentHash;
    match last value with Some nonce => mret nonce | None => fail GenericError end.

Definition GenerateNonce (currentBlockNumber parentHash : Z) : M NonceDB (list Z) :=
  parentNonce ← getParentNonce currentBlockNumber parentHash;
  value ← ask (Prove (privateKey vh) parentNonce);
  if (0 <? length (value : list Z))%nat then mret value else fail GenericError.

Definition VerifyVrf (pk currentBlockNumber parentBlockHash : Z) (proof : list Z)
    : M NonceDB unit :=
  parentNonce ← getParentNonce currentBlockNumber parentBlockHash;
  value ← ask (Verify pk proof parentNonce);
  if (value : bool) then mret tt else fail ErrInvalidVrfProve.

(** Make room for one more number; slicing beyond the end is a panic. *)
Definition trimNonces (maxValidatorsNum : Z) (nonces : list (list Z))
    : outcome (list (list Z)) :=
  let n := Z.of_nat (length nonces) in
  if n =? maxValidatorsNum then (if (n =? 0)%Z then Panic else Ok (drop 1 nonces))
  else if maxValidatorsNum <? n then
    let from := u64 (n + 1 - maxValidatorsNum) in
    if n <? from then Panic else Ok (drop (Z.to_nat from) nonces)
  else Ok nonces.

(** [maxValidators] is [gov.GovernMaxValidators] of the block. *)
Definition Storage (blockNumber parentHash blockHash : Z) (nonce : list Z)
    (maxValidators : outcome Z) : M NonceDB unit :=
  maxValidatorsNum ← ask maxValidators;
  nonces ← (if 1 <? blockNumber then
              value ← Load parentHash; ask (trimNonces maxValidatorsNum value)
            else mret []);
  modify (insert blockHash (nonces ++ [proofToHash nonce])).
End handler.

(** ** The window of random numbers *)

(** The last [n] entries. *)
Definition lastn {A} (n : nat) (l : list A) : list A := drop (length l - n) l.

Lemma trimNonces_spec m l :
  0 < m < 2 ^ 63 → Z.of_nat (length l) < 2 ^ 63 →
  trimNonces m l = Ok (lastn (Z.to_nat m - 1) l).
Proof.
  intros Hm Hl. unfold trimNonces, lastn.
  destruct (Z.eqb_spec (Z.of_nat (length l)) m) as [He|].
  - destruct (Z.eqb_spec (Z.of_nat (length l)) 0); [lia|]. do 2 f_equal. lia.
  - destruct (Z.ltb_spec m (Z.of_nat (length l))).
    + rewrite u64_small by (unfold in_u64; lia).
      destruct (Z.ltb_spec (Z.of_nat (length l)) (Z.of_nat (length l) + 1 - m)); [lia|].
      do 2 f_equal. lia.
    + by replace (length l - (Z.to_nat m - 1))%nat with 0%nat by lia.
Qed.

Lemma lastn_snoc {A} n (l : list A) x : (0 < n)%nat → lastn n (l ++ [x]) = lastn (n - 1) l ++ [x].
Proof.
  intros Hn. unfold lastn. rewrite length_app. cbn [length].
  replace (length l + 1 - n)%nat with (length l - (n - 1))%nat by lia.
  by rewrite drop_app_le by lia.
Qed.

Lemma lastn_lastn {A} n k (l : list A) : (n <= k)%nat → lastn n (lastn k l) = lastn n l.
Proof.
  intros Hn. unfold lastn. rewrite length_drop, drop_drop. f_equal. lia.
Qed.

Section window.
Context `{Vrf} (m : Z) (Hm : 0 < m < 2 ^ 63).

(** A chain of blocks from number [n] on, each with its hash and its proof. *)
Fixpoint storeChain (n parentHash : Z) (blocks : list (Z * list Z)) : M NonceDB unit :=
  match blocks with
  | [] => mret tt
  | (hash, proof) :: rest =>
      Storage n parentHash hash proof (Ok m) ≫= λ _, storeChain (n + 1) hash rest
  end.

Lemma Storage_run n parent hash proof db old :
  1 < n → db !! parent = Some old → Z.of_nat (length old) < 2 ^ 63 →
  Storage n parent hash proof (Ok m) db
  = (Ok tt, <[hash := lastn (Z.to_nat m) (old ++ [proofToHash proof])]> db).
Proof using Hm.
  intros Hn Hold Hlen. unfold Storage, Load, ask. rewrite (proj2 (Z.ltb_lt 1 n)) by done.
  run_eval. rewrite Hold. run_eval. rewrite trimNonces_spec by done.
  by rewrite lastn_snoc by lia.
Qed.

Lemma lastn_bound {A} n (l : list A) : (length (lastn n l) <= n)%nat.
Proof. unfold lastn. rewrite length_drop. lia. Qed.

Lemma last_cons {A} (x : A) l d : List.last (x :: l) d = List.last l x.
Proof.
  revert x d. induction l as [|y l IH]; intros x d; [done|].
  change (List.last (y :: l) d = List.last (y :: l) x). by rewrite !IH.
Qed.

Lemma storeChain_run blocks n parent db before :
  1 < n → db !! parent = Some (lastn (Z.to_nat m) before) →
  ∃ db', storeChain n parent blocks db = (Ok tt, db')
    ∧ db' !! List.last (map fst blocks) parent
      = Some (lastn (Z.to_nat m) (before ++ map (λ b, proofToHash b.2) blocks)).
Proof using Hm.
  revert n parent db before. induction blocks as [|[hash proof] blocks IH];
    intros n parent db before Hn Hdb; cbn [storeChain map].
  - exists db. by rewrite app_nil_r.
  - pose proof (lastn_bound (Z.to_nat m) before) as Hl.
    rewrite (bind_Ok_run _ _ _ _ _ (Storage_run n parent hash proof db _ Hn Hdb ltac:(lia))).
    destruct (IH (n + 1) hash (<[hash := lastn (Z.to_nat m) (before ++ [proofToHash proof])]> db)
      (before ++ [proofToHash proof])) as (db' & Hrun & Hlast); [lia|apply lookup_insert_eq|].
    rewrite !lastn_snoc in Hrun by lia. rewrite !lastn_snoc by lia.
    rewrite lastn_lastn by lia. exists db'. split; [done|]. cbn [fst snd].
    rewrite last_cons, Hlast, <- app_assoc. done.
Qed.

(** After the blocks 1, 2, ... the handler holds, in order, the random numbers
    of the last [m] of them, [m] the number of verifiers: from block [m] on the
    lottery has a number for each verifier. *)
Theorem nonce_window parent hash proof blocks db :
  let proofs := proof :: map snd blocks in
  ∃ db' nonces, storeChain 1 parent ((hash, proof) :: blocks) db = (Ok tt, db')
    ∧ Load (List.last (map fst blocks) hash) db' = (Ok nonces, db')
    ∧ nonces = lastn (Z.to_nat m) (map proofToHash proofs)
    ∧ Z.of_nat (length nonces) = Z.min m (Z.of_nat (length proofs)).
Proof using Hm.
  intros proofs. cbn [storeChain].
  destruct (storeChain_run blocks 2 hash (<[hash := [proofToHash proof]]> db)
    [proofToHash proof]) as (db' & Hrun & Hlast); [lia| |].
  { rewrite lookup_insert_eq. unfold lastn. cbn.
    by replace (1 - Z.to_nat m)%nat with 0%nat by lia. }
  exists db'. eexists. split; [exact Hrun|].
  split; [unfold Load; run_eval; by rewrite Hlast|].
  split; [cbn; by rewrite map_map|].
  unfold lastn, proofs. rewrite length_drop, length_app. cbn. rewrite !length_map. lia.
Qed.
End window.

Definition demoVrf : Vrf :=
  {| Prove := λ k l, Ok (k :: l); Verify := λ _ _ _, Ok true; proofToHash := id |}.

Lemma nonce_window_witness :
  ∃ db' nonces, @storeChain demoVrf 2 1 100 [(101, [1]); (102, [2]); (103, [3])] ∅ = (Ok tt, db')
    ∧ Load 103 db' = (Ok nonces, db') ∧ nonces = [[2]; [3]].
Proof.
  destruct (@nonce_window demoVrf 2 ltac:(lia) 100 101 [1] [(102, [2]); (103, [3])] ∅)
    as (db' & nonces & Hrun & Hload & Hn & _).
  exists db', nonces. split; [exact Hrun|]. split; [exact Hload|]. rewrite Hn. reflexivity.
Defined.
