(* ===== verification/RestrictingProofs.v ===== *)
(** * Correctness of the restricting plugin

    The accounting invariant of the plugin, its solvency, the conservation of
    coins, and that the result does not depend on Go's map iteration order. *)

From S2P Require Import Prelude Xcom Xutil StateDB Restricting.

(** ** The invariant *)

(** The comment in [releaseRestricting] states the last part: an account that is
    still owed coins has advanced everything it has locked. *)
Record info_ok (i : RestrictingInfo) : Prop := {
  ok_advance : 0 <= AdvanceAmount i <= CachePlanAmount i;
  ok_need : 0 <= NeedRelease i;
  ok_debt : 0 < NeedRelease i → CachePlanAmount i = AdvanceAmount i }.

(** The part of a locked amount that is in the restricting contract. *)
Definition unadvanced (i : RestrictingInfo) : Z := CachePlanAmount i - AdvanceAmount i.

(** What the restricting contract must hold. *)
Definition locked (s : StateDB) : Z :=
  msum unadvanced (infoOf (restrictingStore s))
  + zsum (default [] (genesisPlans (restrictingStore s))).

Record rinv (s : StateDB) : Prop := {
  rinv_info : ∀ a i, infoOf (restrictingStore s) !! a = Some i → info_ok i;
  rinv_amount : ∀ k v, releaseAmount (restrictingStore s) !! k = Some v → 0 <= v;
  rinv_solvent : locked s <= GetBalance s RestrictingContractAddr }.

Lemma unadvanced_at s a i :
  getRestrictingInfo s a = Some i →
  at_key unadvanced a (infoOf (restrictingStore s)) = unadvanced i.
Proof. unfold getRestrictingInfo, at_key. by intros ->. Qed.

Lemma unadvanced_at_None s a :
  getRestrictingInfo s a = None →
  at_key unadvanced a (infoOf (restrictingStore s)) = 0.
Proof. unfold getRestrictingInfo, at_key. by intros ->. Qed.

Section update.
Context (s s' : StateDB) (a : Z).
Context (Hinv : rinv s).
Context (Hgen : genesisPlans (restrictingStore s') = genesisPlans (restrictingStore s)).
Context (Ham : ∀ k v, releaseAmount (restrictingStore s') !! k = Some v → 0 <= v).

Lemma rinv_set n :
  infoOf (restrictingStore s') = <[a := n]> (infoOf (restrictingStore s)) →
  info_ok n →
  GetBalance s RestrictingContractAddr
    + unadvanced n - at_key unadvanced a (infoOf (restrictingStore s))
    <= GetBalance s' RestrictingContractAddr →
  rinv s'.
Proof using All.
  intros Hi Hn Hb. destruct Hinv as [H1 H2 H3]. split; [|exact Ham|].
  - intros b i. rewrite Hi. intros [[<- <-]|[_ Hl]]%lookup_insert_Some; eauto.
  - unfold locked in *. rewrite Hi, Hgen, msum_insert. lia.
Qed.

Lemma rinv_remove :
  infoOf (restrictingStore s') = delete a (infoOf (restrictingStore s)) →
  GetBalance s RestrictingContractAddr
    - at_key unadvanced a (infoOf (restrictingStore s))
    <= GetBalance s' RestrictingContractAddr →
  rinv s'.
Proof using All.
  intros Hi Hb. destruct Hinv as [H1 H2 H3]. split; [|exact Ham|].
  - intros b i. rewrite Hi. intros [_ Hl]%lookup_delete_Some. eauto.
  - unfold locked in *. rewrite Hi, Hgen, msum_delete. lia.
Qed.
End update.

(** ** A run is safe when it neither panics nor breaks the invariant *)

Definition safe {A} (m : M StateDB A) : Prop :=
  ∀ s, rinv s → (m s).1 ≠ Panic ∧ rinv (m s).2.

Lemma info_ok_encodable i : info_ok i → encodable i = true.
Proof.
  intros [? ? _]. unfold encodable. rewrite !andb_true_iff, !Z.leb_le. lia.
Qed.

Lemma store_run a i s :
  info_ok i → storeRestrictingInfo a i s = (Ok tt, setInfo a i s).
Proof. intros H. unfold storeRestrictingInfo. by rewrite info_ok_encodable. Qed.

Lemma getInfo_ok s a i : rinv s → getRestrictingInfo s a = Some i → info_ok i.
Proof. intros []. eauto. Qed.

Lemma GetBalance_setInfo a i s b : GetBalance (setInfo a i s) b = GetBalance s b.
Proof. done. Qed.

Lemma GetBalance_deleteInfo a s b : GetBalance (deleteInfo a s) b = GetBalance s b.
Proof. done. Qed.

Lemma R_ne_St : (RestrictingContractAddr =? StakingContractAddr) = false.
Proof. done. Qed.

(** Evaluate the balance of the restricting contract after transfers. *)
Ltac balances :=
  repeat (rewrite GetBalance_transfer || rewrite GetBalance_Add || rewrite GetBalance_Sub);
  rewrite ?Z.eqb_refl, ?R_ne_St;
  repeat match goal with |- context [?x =? ?y] => destruct (Z.eqb_spec x y) end;
  try discriminate; try congruence; try lia.

(** The running state after a [modify] of the restricting store only. *)
Ltac store_simpl :=
  repeat first
    [ progress cbn [setInfo deleteInfo with_restricting restrictingStore with_info
        with_releaseAmount with_releaseAccount with_epochNumber with_genesisPlans
        infoOf releaseAmount genesisPlans epochNumber releaseAccount]
    | rewrite restrictingStore_transfer ].

(** ** Storing or removing a settled info *)

Lemma storeOrRemove_run a i s0 s :
  rinv s0 → restrictingStore s = restrictingStore s0 → info_ok i →
  GetBalance s0 RestrictingContractAddr
    + unadvanced i - at_key unadvanced a (infoOf (restrictingStore s0))
    <= GetBalance s RestrictingContractAddr →
  (storeOrRemove a i s).1 = Ok tt ∧ rinv (storeOrRemove a i s).2.
Proof.
  intros Hinv Hs Hi Hb. unfold storeOrRemove. case_match eqn:E.
  - bool_to_prop. split; [done|]. cbn [snd modify].
    apply (rinv_remove s0 _ a); store_simpl; rewrite ?Hs; try done; [by destruct Hinv|].
    rewrite GetBalance_deleteInfo. unfold unadvanced in Hb at 1. lia.
  - rewrite store_run by done. split; [done|]. cbn [snd].
    apply (rinv_set s0 _ a Hinv) with i; store_simpl; rewrite ?Hs; try done.
    by destruct Hinv.
Qed.

(** ** Every operation is safe *)

Lemma AdvanceLockedFunds_safe a x : safe (AdvanceLockedFunds a x).
Proof.
  intros s Hinv. unfold AdvanceLockedFunds, mustGetRestrictingInfoByDecode. run_eval.
  destruct (getRestrictingInfo s a) as [i|] eqn:Hi; [|done].
  pose proof (getInfo_ok s a i Hinv Hi) as Hok.
  repeat (case_match; [done|]). bool_to_prop. subst.
  assert (Hok' : info_ok (with_advance (λ b, b + x) i)).
  { destruct Hok as [? ? Hd]. split; cbn; lia. }
  rewrite store_run by done. split; [done|]. cbn [snd].
  apply (rinv_set s _ a Hinv) with (with_advance (λ b, b + x) i); store_simpl; try done.
  - by destruct Hinv.
  - rewrite (unadvanced_at s a i Hi). balances. unfold unadvanced.
    rewrite GetBalance_setInfo. cbn. lia.
Qed.

Lemma MixAdvanceLockedFunds_safe a x :
  a ≠ RestrictingContractAddr → safe (MixAdvanceLockedFunds a x).
Proof.
  intros Ha s Hinv. unfold MixAdvanceLockedFunds, mustGetRestrictingInfoByDecode. run_eval.
  destruct (getRestrictingInfo s a) as [i|] eqn:Hi.
  2: { rewrite bool_decide_eq_true_2 by done. case_match; [done|]. split; [done|].
       cbn [snd]. destruct Hinv as [H1 H2 H3].
       split; unfold locked; rewrite restrictingStore_transfer; [done..|].
       unfold locked in H3. balances. }
  pose proof (getInfo_ok s a i Hinv Hi) as Hok.
  case_match; [done|]. case_match; [done|]. case_match eqn:Htot; [done|].
  bool_to_prop. set (y := if _ <? x then _ else x).
  assert (0 <= y <= unadvanced i).
  { subst y. destruct Hok. unfold unadvanced in *. case_match; bool_to_prop; lia. }
  assert (Hok' : info_ok (with_advance (λ b, b + y) i)).
  { destruct Hok as [? ? Hd]. unfold unadvanced in *. split; cbn; lia. }
  destruct (_ <? x) eqn:Hshort; rewrite store_run by done; (split; [done|]); cbn [snd];
    (apply (rinv_set s _ a Hinv) with (with_advance (λ b, b + y) i);
     store_simpl; [done|by destruct Hinv|done|done|]);
    rewrite (unadvanced_at s a i Hi); balances;
    rewrite GetBalance_setInfo; unfold unadvanced; cbn; balances.
Qed.

Lemma settleReturn_spec a x i s i' s' :
  info_ok i → 0 < x <= AdvanceAmount i → settleReturn a x i s = (i', s') →
  info_ok (with_advance (λ b, b - x) i')
  ∧ restrictingStore s' = restrictingStore s
  ∧ GetBalance s RestrictingContractAddr
      + (unadvanced (with_advance (λ b, b - x) i') - unadvanced i - x)
      <= GetBalance s' RestrictingContractAddr.
Proof.
  intros [? ? Hd] Hx. unfold settleReturn.
  repeat case_match; intros [= <- <-]; bool_to_prop; rewrite ?restrictingStore_transfer;
    (split; [split; cbn; lia|split; [done|]]); unfold unadvanced; cbn; balances.
Qed.

Lemma ReturnLockFunds_safe a x : safe (ReturnLockFunds a x).
Proof.
  intros s Hinv. unfold ReturnLockFunds, mustGetRestrictingInfoByDecode. run_eval.
  case_match; [done|]. case_match; [done|].
  destruct (getRestrictingInfo s a) as [i|] eqn:Hi; [|done].
  pose proof (getInfo_ok s a i Hinv Hi) as Hok.
  case_match; [done|]. bool_to_prop.
  destruct (settleReturn _ _ _ _) as [i' s'] eqn:Hs.
  apply settleReturn_spec in Hs as (Hi' & Hst & Hb); [|done|lia].
  rewrite restrictingStore_transfer in Hst.
  destruct (storeOrRemove_run a (with_advance (λ b, b - x) i') s s' Hinv Hst Hi')
    as [-> ?]; [|done].
  rewrite (unadvanced_at s a i Hi). revert Hb. balances.
Qed.

Lemma SlashingNotify_safe a x : safe (SlashingNotify a x).
Proof.
  intros s Hinv. unfold SlashingNotify, mustGetRestrictingInfoByDecode. run_eval.
  destruct (getRestrictingInfo s a) as [i|] eqn:Hi; [|done].
  pose proof (getInfo_ok s a i Hinv Hi) as [? ? Hd].
  repeat (case_match; [done|]). bool_to_prop.
  edestruct (storeOrRemove_run a) as [-> ?];
    [exact Hinv|reflexivity|split; cbn; lia| |split; [done|eassumption]].
  rewrite (unadvanced_at s a i Hi). unfold unadvanced. cbn. lia.
Qed.

(** *** Release *)

Lemma payRelease_spec a x i s i' s' :
  info_ok i → 0 <= x → payRelease a x i s = (i', s') →
  info_ok i' ∧ restrictingStore s' = restrictingStore s
  ∧ GetBalance s RestrictingContractAddr + (unadvanced i' - unadvanced i)
      <= GetBalance s' RestrictingContractAddr.
Proof.
  intros [? ? Hd] Hx. unfold payRelease.
  repeat case_match; intros [= <- <-]; bool_to_prop; rewrite ?restrictingStore_transfer;
    (split; [split; cbn; lia|split; [done|]]); unfold unadvanced; cbn; balances.
Qed.

Lemma getReleaseAmount_nonneg s e a : rinv s → 0 <= getReleaseAmount s e a.
Proof.
  intros [_ H _]. unfold getReleaseAmount.
  destruct (releaseAmount _ !! _) eqn:E; cbn; [eauto|lia].
Qed.

Lemma RemoveEpoch_ok e i : info_ok i → info_ok (RemoveEpoch e i).
Proof. intros [? ? ?]. by split. Qed.

Lemma delete_amount_nonneg s k :
  rinv s → ∀ k' v, delete k (releaseAmount (restrictingStore s)) !! k' = Some v → 0 <= v.
Proof. intros [_ H _] k' v [_ Hv]%lookup_delete_Some. eauto. Qed.

Lemma releaseOne_safe e n : safe (releaseOne e n).
Proof.
  intros s Hinv. unfold releaseOne. run_eval.
  set (a := getReleaseAccount s e n).
  destruct (getRestrictingInfo s a) as [i|] eqn:Hi; [|done].
  pose proof (getInfo_ok s a i Hinv Hi) as Hok.
  destruct (payRelease _ _ _ _) as [i' s'] eqn:Hp.
  apply payRelease_spec in Hp as (Hi' & Hst & Hb);
    [|done|by apply getReleaseAmount_nonneg].
  pose proof (RemoveEpoch_ok e i' Hi') as Hr.
  assert (Hset : rinv (setInfo a (RemoveEpoch e i')
    (with_restricting (with_releaseAccount (delete (e, n)))
      (with_restricting (with_releaseAmount (delete (e, a))) s')))).
  { apply (rinv_set s _ a Hinv) with (RemoveEpoch e i'); store_simpl; rewrite ?Hst;
      try done; [by apply delete_amount_nonneg|].
    rewrite (unadvanced_at s a i Hi), GetBalance_setInfo, !GetBalance_with_restricting.
    change (unadvanced (RemoveEpoch e i')) with (unadvanced i'). lia. }
  destruct (CachePlanAmount (RemoveEpoch e i') =? 0) eqn:Hc; [|by rewrite store_run].
  case_match; [|by rewrite store_run]. split; [done|]. cbn [snd].
  apply (rinv_remove s _ a); store_simpl; rewrite ?Hst; try done;
    [by apply delete_amount_nonneg|].
  rewrite (unadvanced_at s a i Hi), GetBalance_deleteInfo, !GetBalance_with_restricting.
  bool_to_prop. destruct Hi' as [Hadv _ _].
  change (CachePlanAmount (RemoveEpoch e i')) with (CachePlanAmount i') in Hc.
  unfold unadvanced in Hb at 1. lia.
Qed.

Lemma safe_bind {A B} (m : M StateDB A) (k : A → M StateDB B) :
  safe m → (∀ a, safe (k a)) → safe (m ≫= k).
Proof.
  intros Hm Hk s Hs. specialize (Hm s Hs) as [Hp Hi]. unfold mbind, M_bind.
  destruct (m s) as [[a|e|] s']; cbn in *; [by apply Hk|done|done].
Qed.

Lemma safe_ret {A} (a : A) : safe (mret a).
Proof. by intros s Hs. Qed.

Lemma safe_modify f : (∀ s, rinv s → rinv (f s)) → safe (modify f).
Proof. intros H s Hs. split; [done|]. by apply H. Qed.

Lemma releaseLoop_safe e n : safe (releaseLoop e n).
Proof.
  induction n; cbn [releaseLoop]; [apply safe_ret|].
  apply safe_bind; [apply releaseOne_safe|done].
Qed.

Lemma rinv_epochNumber f s :
  rinv s → rinv (with_restricting (with_epochNumber f) s).
Proof. by intros []. Qed.

Lemma releaseRestricting_safe e : safe (releaseRestricting e).
Proof.
  unfold releaseRestricting. apply safe_bind; [by intros s Hs|]. intros n.
  case_match; [apply safe_ret|]. apply safe_bind; [apply releaseLoop_safe|].
  intros _. apply safe_modify. intros s. apply rinv_epochNumber.
Qed.

Lemma releaseGenesis_rinv s : rinv s → rinv (releaseGenesisRestrictingPlans s).
Proof.
  intros Hinv. pose proof Hinv as [H1 H2 H3]. unfold releaseGenesisRestrictingPlans.
  unfold locked in H3. destruct (genesisPlans _) as [[|p ps]|] eqn:Hg; [..|exact Hinv].
  - split; [done..|]. unfold locked. store_simpl. cbn in *. done.
  - unfold updateGenesisRestrictingPlans. split; store_simpl;
      rewrite ?restrictingStore_Add, ?restrictingStore_Sub; [done..|].
    unfold locked. store_simpl. rewrite restrictingStore_Add, restrictingStore_Sub.
    rewrite GetBalance_with_restricting. cbn [default from_option id zsum] in *. balances.
Qed.

Lemma RestrictingEndBlock_safe ec yearEnd n : safe (RestrictingEndBlock ec yearEnd n).
Proof.
  unfold RestrictingEndBlock. case_match; [|apply safe_ret].
  apply safe_bind; [apply releaseRestricting_safe|]. intros _.
  destruct yearEnd; [|apply safe_ret]. apply safe_modify, releaseGenesis_rinv.
Qed.

(** *** New plans *)

Definition positive (m : gmap Z Z) : Prop := ∀ e v, m !! e = Some v → 0 < v.

Lemma mergeStep_spec latest minimum t m p t' m' :
  mergeStep latest minimum (t, m) p = Ok (t', m') → positive m →
  positive m' ∧ t' = t + planAmount p ∧ 0 < planAmount p
  ∧ msum id m' = msum id m + planAmount p.
Proof.
  unfold mergeStep. repeat (case_match; [done|]). intros [= <- <-] Hm. bool_to_prop.
  set (e := u64 _). destruct (m !! e) as [v|] eqn:He.
  - pose proof (Hm e v He). split.
    + intros e' v' [[<- <-]|[_ ?]]%lookup_insert_Some; [lia|eauto].
    + rewrite msum_insert. unfold at_key. rewrite He. cbn. lia.
  - split.
    + intros e' v' [[<- <-]|[_ ?]]%lookup_insert_Some; [lia|eauto].
    + rewrite msum_insert_new by done. cbn. lia.
Qed.

Lemma mergeLoop_spec latest minimum plans t m t' m' :
  mergeLoop latest minimum plans (t, m) = Ok (t', m') → positive m →
  positive m' ∧ t' = t + zsum (planAmount <$> plans) ∧ t <= t'
  ∧ msum id m' - msum id m = t' - t.
Proof.
  revert t m. induction plans as [|p plans IH]; intros t m; cbn [mergeLoop].
  - intros [= <- <-] ?. cbn. split; [done|lia].
  - intros ([t1 m1] & H1 & H2)%outcome_bind_Ok Hm.
    apply mergeStep_spec in H1 as (? & ? & ? & ?); [|done].
    apply IH in H2 as (? & ? & ? & ?); [|done]. cbn. split; [done|]. unfold fmap in *. lia.
Qed.

Lemma mergeAmount_spec ec minimum blockNum plans t m :
  mergeAmount ec minimum blockNum plans = Ok (t, m) →
  positive m ∧ t = zsum (planAmount <$> plans) ∧ 0 <= t ∧ msum id m = t.
Proof.
  unfold mergeAmount. intros (min & _ & H)%outcome_bind_Ok.
  apply mergeLoop_spec in H as (? & ? & ? & Hs); [|by intros ? ?].
  rewrite msum_empty in Hs. split; [done|]. lia.
Qed.

Lemma mergeLoop_no_panic latest minimum plans acc :
  mergeLoop latest minimum plans acc ≠ Panic.
Proof.
  revert acc. induction plans as [|p ps IH]; intros [t m]; [done|]. cbn [mergeLoop].
  unfold mergeStep. do 3 (case_match; [done|]). apply IH.
Qed.

Lemma mergeAmount_no_panic ec minimum blockNum plans :
  minimum ≠ Panic → mergeAmount ec minimum blockNum plans ≠ Panic.
Proof.
  intros Hm. unfold mergeAmount. destruct minimum; [|done|done]. apply mergeLoop_no_panic.
Qed.

(** What the loops over the merged plans leave alone. *)
Record frame (s s' : StateDB) : Prop := {
  fr_balances : balances s' = balances s;
  fr_info : infoOf (restrictingStore s') = infoOf (restrictingStore s);
  fr_genesis : genesisPlans (restrictingStore s') = genesisPlans (restrictingStore s);
  fr_amount :
    (∀ k v, releaseAmount (restrictingStore s) !! k = Some v → 0 <= v) →
    ∀ k v, releaseAmount (restrictingStore s') !! k = Some v → 0 <= v }.

#[export] Instance frame_preorder : PreOrder frame.
Proof.
  split; [by intros s|]. intros s1 s2 s3 [??? H12] [??? H23].
  split; [congruence..|]. intros Ha. apply H23, H12, Ha.
Qed.

Lemma storeAmount_frame e a x s : frame s (storeAmount2ReleaseAmount e a x s).
Proof.
  split; [done..|]. intros H k v. unfold storeAmount2ReleaseAmount. store_simpl.
  case_match.
  - intros [_ ?]%lookup_delete_Some. eauto.
  - intros [[_ <-]|[_ ?]]%lookup_insert_Some; [lia|eauto].
Qed.

Lemma initEpochInfo_frame e a x s : frame s (initEpochInfo e a x s).
Proof. unfold initEpochInfo. etrans; [|apply storeAmount_frame]. by split. Qed.

Lemma initPlans_frame a plans s : frame s (initPlans a plans s).
Proof.
  revert s. induction plans as [|[e x] plans IH]; intros s; cbn; [done|].
  etrans; [|apply IH]. apply initEpochInfo_frame.
Qed.

Lemma mergePlans_frame a plans s l : frame s (mergePlans a plans s l).1.
Proof.
  revert s l. induction plans as [|[e x] plans IH]; intros s l; cbn; [done|].
  case_match; (etrans; [|apply IH]); auto using initEpochInfo_frame, storeAmount_frame.
Qed.

Lemma frame_balance s s' b : frame s s' → GetBalance s' b = GetBalance s b.
Proof. intros []. unfold GetBalance. congruence. Qed.

Lemma settleDeposit_spec a t i s i' s' :
  info_ok i → 0 <= t → settleDeposit a t i s = (i', s') →
  info_ok i' ∧ restrictingStore s' = restrictingStore s
  ∧ GetBalance s RestrictingContractAddr + (unadvanced i' - unadvanced i - t)
      <= GetBalance s' RestrictingContractAddr.
Proof.
  intros [? ? Hd] Ht. unfold settleDeposit.
  repeat case_match; intros [= <- <-]; bool_to_prop; rewrite ?restrictingStore_transfer;
    (split; [split; cbn; lia|split; [done|]]); unfold unadvanced; cbn; balances.
Qed.

Lemma AddRestrictingRecord_safe ec ord minimum from a blockNum plans txhash :
  from ≠ RestrictingContractAddr → minimum ≠ Panic →
  safe (AddRestrictingRecord ec ord minimum from a blockNum plans txhash).
Proof.
  intros Hfrom Hmin s Hinv. unfold AddRestrictingRecord. case_match; [done|].
  destruct (mergeAmount _ _ _ _) as [[t m]|e|] eqn:Hmerge; [|done|].
  2: { by apply mergeAmount_no_panic in Hmerge. }
  apply mergeAmount_spec in Hmerge as (Hpos & _ & Ht & _). run_eval.
  case_match; [done|]. case_match; [done|].
  set (s1 := transferAmount from RestrictingContractAddr t s).
  assert (Hb1 : GetBalance s1 RestrictingContractAddr
    = GetBalance s RestrictingContractAddr + t) by (unfold s1; balances).
  assert (Hst1 : restrictingStore s1 = restrictingStore s) by apply restrictingStore_transfer.
  destruct (getRestrictingInfo s1 a) as [i|] eqn:Hi;
    unfold getRestrictingInfo in Hi; rewrite Hst1 in Hi.
  - pose proof (getInfo_ok s a i Hinv Hi) as Hok.
    destruct (settleDeposit _ _ _ _) as [i' s2] eqn:Hset.
    apply settleDeposit_spec in Hset as (Hok' & Hst2 & Hb2); [|done|done].
    destruct (mergePlans a _ s2 _) as [s3 l] eqn:Hmp.
    pose proof (mergePlans_frame a (ord m) s2 (ReleaseList i')) as Hf.
    rewrite Hmp in Hf. pose proof (frame_balance _ _ RestrictingContractAddr Hf) as Hb3.
    destruct Hf as [_ Hfi Hfg Hfa]. cbn [fst] in *. rewrite Hst2, Hst1 in *.
    set (n := Build_RestrictingInfo _ _ _ _).
    assert (Hn : info_ok n) by (destruct Hok'; by split).
    rewrite store_run by done. split; [done|]. cbn [snd].
    apply (rinv_set s _ a Hinv) with n; store_simpl; rewrite ?Hfi; try done.
    { apply Hfa. by destruct Hinv. }
    rewrite (unadvanced_at s a i Hi), GetBalance_setInfo.
    change (unadvanced n) with (unadvanced i'). lia.
  - pose proof (initPlans_frame a (ord m) s1) as Hf.
    pose proof (frame_balance _ _ RestrictingContractAddr Hf) as Hb2.
    destruct Hf as [_ Hfi Hfg Hfa]. rewrite Hst1 in *.
    set (n := Build_RestrictingInfo _ _ _ _).
    assert (Hn : info_ok n) by (split; cbn; lia).
    rewrite store_run by done. split; [done|]. cbn [snd].
    apply (rinv_set s _ a Hinv) with n; store_simpl; rewrite ?Hfi; try done.
    { apply Hfa. by destruct Hinv. }
    rewrite (unadvanced_at_None s a Hi), GetBalance_setInfo. unfold unadvanced. cbn. lia.
Qed.

(** ** Conservation of coins *)

Definition conserves {A} (m : M StateDB A) : Prop :=
  ∀ s, total_supply (m s).2 = total_supply s.

Lemma conserves_bind {A B} (m : M StateDB A) (k : A → M StateDB B) :
  conserves m → (∀ a, conserves (k a)) → conserves (m ≫= k).
Proof.
  intros Hm Hk s. specialize (Hm s). unfold mbind, M_bind.
  destruct (m s) as [[a|e|] s']; cbn in *; [by rewrite Hk|done|done].
Qed.

Lemma conserves_modify f :
  (∀ s, total_supply (f s) = total_supply s) → conserves (modify f).
Proof. intros H s. apply H. Qed.

Lemma storeRestrictingInfo_conserves a i : conserves (storeRestrictingInfo a i).
Proof. intros s. unfold storeRestrictingInfo. by case_match. Qed.

Lemma storeOrRemove_conserves a i : conserves (storeOrRemove a i).
Proof.
  unfold storeOrRemove. case_match; [by intros s|]. apply storeRestrictingInfo_conserves.
Qed.

Lemma frame_supply s s' : frame s s' → total_supply s' = total_supply s.
Proof. intros []. unfold total_supply. congruence. Qed.

Lemma settleReturn_supply a x i s :
  total_supply (settleReturn a x i s).2 = total_supply s.
Proof. unfold settleReturn. repeat case_match; cbn; by autorewrite with state. Qed.

Lemma settleDeposit_supply a x i s :
  total_supply (settleDeposit a x i s).2 = total_supply s.
Proof. unfold settleDeposit. repeat case_match; cbn; by autorewrite with state. Qed.

Lemma payRelease_supply a x i s :
  total_supply (payRelease a x i s).2 = total_supply s.
Proof. unfold payRelease. repeat case_match; cbn; by autorewrite with state. Qed.

Lemma AdvanceLockedFunds_conserves a x : conserves (AdvanceLockedFunds a x).
Proof.
  unfold AdvanceLockedFunds, mustGetRestrictingInfoByDecode.
  repeat (apply conserves_bind; [|intros ?]); try by intros s.
  { case_match; by intros s. }
  repeat (case_match; [by intros s|]).
  apply conserves_bind; [apply storeRestrictingInfo_conserves|intros _].
  apply conserves_modify. intros s. by autorewrite with state.
Qed.

Lemma MixAdvanceLockedFunds_conserves a x : conserves (MixAdvanceLockedFunds a x).
Proof.
  unfold MixAdvanceLockedFunds. apply conserves_bind.
  { intros s. unfold try, mustGetRestrictingInfoByDecode. run_eval.
    by destruct (getRestrictingInfo s a). }
  intros [i|e].
  - do 2 (case_match; [by intros s|]). apply conserves_bind; [by intros s|]. intros free.
    case_match; [by intros s|]. apply conserves_bind.
    { intros s. unfold when. case_match; [|done]. cbn. by autorewrite with state. }
    intros _. apply conserves_bind; [apply storeRestrictingInfo_conserves|intros _].
    apply conserves_bind; [|by intros ? ?]. apply conserves_modify. intros s.
    by autorewrite with state.
  - case_match; [|by intros s]. apply conserves_bind; [by intros s|]. intros free.
    case_match; [by intros s|]. apply conserves_bind; [|by intros ? ?].
    apply conserves_modify. intros s. by autorewrite with state.
Qed.

Lemma ReturnLockFunds_conserves a x : conserves (ReturnLockFunds a x).
Proof.
  intros s. unfold ReturnLockFunds, mustGetRestrictingInfoByDecode. run_eval.
  do 2 (case_match; [done|]). destruct (getRestrictingInfo s a) as [i|]; [|done].
  case_match; [done|]. destruct (settleReturn _ _ _ _) as [i' s'] eqn:Hs.
  rewrite storeOrRemove_conserves.
  change s' with (i', s').2. rewrite <- Hs, settleReturn_supply. by autorewrite with state.
Qed.

Lemma SlashingNotify_conserves a x : conserves (SlashingNotify a x).
Proof.
  intros s. unfold SlashingNotify, mustGetRestrictingInfoByDecode. run_eval.
  destruct (getRestrictingInfo s a) as [i|]; [|done].
  repeat (case_match; [done|]). apply storeOrRemove_conserves.
Qed.

Lemma releaseOne_conserves e n : conserves (releaseOne e n).
Proof.
  intros s. unfold releaseOne. run_eval.
  destruct (getRestrictingInfo _ _) as [i|]; [|done].
  destruct (payRelease _ _ _ _) as [i' s'] eqn:Hs.
  assert (Hs' : total_supply s' = total_supply s).
  { change s' with (i', s').2. rewrite <- Hs. apply payRelease_supply. }
  repeat case_match; rewrite ?storeRestrictingInfo_conserves; done.
Qed.

Lemma releaseRestricting_conserves e : conserves (releaseRestricting e).
Proof.
  unfold releaseRestricting. apply conserves_bind; [by intros s|]. intros n.
  case_match; [by intros s|]. apply conserves_bind; [|by intros _ s].
  generalize (Z.to_nat n). intros k. induction k; cbn [releaseLoop]; [by intros s|].
  apply conserves_bind; [apply releaseOne_conserves|done].
Qed.

Lemma RestrictingEndBlock_conserves ec y n : conserves (RestrictingEndBlock ec y n).
Proof.
  unfold RestrictingEndBlock. case_match; [|by intros s].
  apply conserves_bind; [apply releaseRestricting_conserves|]. intros _.
  destruct y; [|by intros s]. apply conserves_modify. intros s.
  unfold releaseGenesisRestrictingPlans, updateGenesisRestrictingPlans.
  repeat case_match; autorewrite with state; lia.
Qed.

Lemma AddRestrictingRecord_conserves ec ord minimum from a blockNum plans txhash :
  conserves (AddRestrictingRecord ec ord minimum from a blockNum plans txhash).
Proof.
  intros s. unfold AddRestrictingRecord. case_match; [done|].
  destruct (mergeAmount _ _ _ _) as [[t m]|e|]; [|done|done]. run_eval.
  do 2 (case_match; [done|]).
  destruct (getRestrictingInfo _ _) as [i|].
  - destruct (settleDeposit _ _ _ _) as [i' s2] eqn:Hs.
    destruct (mergePlans _ _ _ _) as [s3 l] eqn:Hm. rewrite storeRestrictingInfo_conserves.
    pose proof (mergePlans_frame a (ord m) s2 (ReleaseList i')) as Hf.
    rewrite Hm in Hf. apply frame_supply in Hf. cbn [fst] in Hf. rewrite Hf. change s2 with (i', s2).2.
    rewrite <- Hs, settleDeposit_supply. by autorewrite with state.
  - rewrite storeRestrictingInfo_conserves. erewrite frame_supply by apply initPlans_frame.
    by autorewrite with state.
Qed.

(** ** Independence of the map iteration order *)

(** Two updates of the release maps agree when the maps do. *)
Lemma store_eq b i n1 n2 ra1 ra2 am1 am2 g rp ev :
  n1 = n2 → ra1 = ra2 → am1 = am2 →
  Build_StateDB b (Build_RestrictingStore i n1 ra1 am1 g) rp ev
  = Build_StateDB b (Build_RestrictingStore i n2 ra2 am2 g) rp ev.
Proof. by intros -> -> ->. Qed.

(** Updates of one map at two different keys commute. *)
Lemma amount_commute (k1 k2 : Z * Z) (x1 x2 : Z) (m : gmap (Z * Z) Z) :
  k1 ≠ k2 →
  (if x1 =? 0 then delete k1 else <[k1 := Z.abs x1]>)
    ((if x2 =? 0 then delete k2 else <[k2 := Z.abs x2]>) m)
  = (if x2 =? 0 then delete k2 else <[k2 := Z.abs x2]>)
      ((if x1 =? 0 then delete k1 else <[k1 := Z.abs x1]>) m).
Proof.
  intros Hk. repeat case_match.
  - by rewrite delete_delete.
  - by rewrite delete_insert_ne.
  - by rewrite delete_insert_ne.
  - by rewrite insert_insert_ne.
Qed.

Lemma getReleaseEpochNumber_init e1 e2 a x s :
  e1 ≠ e2 →
  getReleaseEpochNumber (initEpochInfo e1 a x s) e2 = getReleaseEpochNumber s e2.
Proof.
  intros. unfold getReleaseEpochNumber, initEpochInfo. cbn. by rewrite lookup_insert_ne.
Qed.

Lemma getReleaseAmount_init e1 e2 a x s :
  e1 ≠ e2 → getReleaseAmount (initEpochInfo e1 a x s) e2 a = getReleaseAmount s e2 a.
Proof.
  intros. unfold getReleaseAmount, initEpochInfo. cbn.
  case_match; [rewrite lookup_delete_ne|rewrite lookup_insert_ne]; congruence.
Qed.

Lemma getReleaseAmount_store e1 e2 a x s :
  e1 ≠ e2 →
  getReleaseAmount (storeAmount2ReleaseAmount e1 a x s) e2 a = getReleaseAmount s e2 a.
Proof.
  intros. unfold getReleaseAmount, storeAmount2ReleaseAmount. cbn.
  case_match; [rewrite lookup_delete_ne|rewrite lookup_insert_ne]; congruence.
Qed.

Section commute.
Context (a e1 e2 x1 x2 : Z) (He : e1 ≠ e2).

Lemma init_init s :
  initEpochInfo e1 a x1 (initEpochInfo e2 a x2 s)
  = initEpochInfo e2 a x2 (initEpochInfo e1 a x1 s).
Proof using He.
  unfold initEpochInfo at 1 3. rewrite !getReleaseEpochNumber_init by congruence.
  destruct s as [b [i n ra am g] rp ev]. apply store_eq; cbn.
  - by rewrite insert_insert_ne.
  - rewrite insert_insert_ne by congruence. done.
  - apply amount_commute. congruence.
Qed.

Lemma store_store s :
  storeAmount2ReleaseAmount e1 a x1 (storeAmount2ReleaseAmount e2 a x2 s)
  = storeAmount2ReleaseAmount e2 a x2 (storeAmount2ReleaseAmount e1 a x1 s).
Proof using He.
  destruct s as [b [i n ra am g] rp ev]. apply store_eq; cbn; [done..|].
  apply amount_commute. congruence.
Qed.

Lemma init_store s :
  initEpochInfo e1 a x1 (storeAmount2ReleaseAmount e2 a x2 s)
  = storeAmount2ReleaseAmount e2 a x2 (initEpochInfo e1 a x1 s).
Proof using He.
  destruct s as [b [i n ra am g] rp ev]. apply store_eq; cbn; [done..|].
  apply amount_commute. congruence.
Qed.
End commute.

Lemma initPlans_perm a plans1 plans2 s :
  NoDup plans1.*1 → plans1 ≡ₚ plans2 → initPlans a plans1 s = initPlans a plans2 s.
Proof.
  intros Hnd Hp. revert s. induction Hp as
    [|[e x] l1 l2 Hp IH|[e1 x1] [e2 x2] l|l1 l2 l3 Hp1 IH1 Hp2 IH2]; intros s; cbn in *.
  - done.
  - apply NoDup_cons in Hnd as [_ Hnd]. by apply IH.
  - apply NoDup_cons in Hnd as [Hn _]. rewrite init_init; [done|].
    intros ->. apply Hn. left.
  - rewrite IH1 by done. apply IH2. by rewrite <- Hp1.
Qed.

Lemma mergePlans_perm a plans1 plans2 s l1 l2 :
  NoDup plans1.*1 → plans1 ≡ₚ plans2 → l1 ≡ₚ l2 →
  (mergePlans a plans1 s l1).1 = (mergePlans a plans2 s l2).1
  ∧ (mergePlans a plans1 s l1).2 ≡ₚ (mergePlans a plans2 s l2).2.
Proof.
  intros Hnd Hp. revert s l1 l2. induction Hp as
    [|[e x] p1 p2 Hp IH|[e1 x1] [e2 x2] p|p1 p2 p3 Hp1 IH1 Hp2 IH2];
    intros s l1 l2 Hl; cbn in *.
  - done.
  - apply NoDup_cons in Hnd as [_ Hnd]. case_match; apply IH; by rewrite ?Hl.
  - apply NoDup_cons in Hnd as [Hn Hnd]. assert (e1 ≠ e2) as He by (intros ->; apply Hn; left).
    assert (Hgen : ∀ s l1 l2, l1 ≡ₚ l2 →
      (mergePlans a p s l1).1 = (mergePlans a p s l2).1
      ∧ (mergePlans a p s l1).2 ≡ₚ (mergePlans a p s l2).2).
    { clear. induction p as [|[e x] p IH]; intros s l1 l2 Hl; cbn; [done|].
      case_match; apply IH; by rewrite ?Hl. }
    destruct (getReleaseAmount s e1 a =? 0) eqn:E1, (getReleaseAmount s e2 a =? 0) eqn:E2;
      rewrite ?getReleaseAmount_init, ?getReleaseAmount_store, ?E1, ?E2 by congruence.
    + rewrite init_init by congruence. apply Hgen. rewrite Hl. solve_Permutation.
    + rewrite init_store by congruence. apply Hgen. by rewrite Hl.
    + rewrite <- init_store by congruence. apply Hgen. by rewrite Hl.
    + rewrite store_store by congruence. apply Hgen. by rewrite Hl.
  - destruct (IH1 Hnd s l1 l2 Hl) as [-> ->]. apply IH2; [by rewrite <- Hp1|done].
Qed.

Lemma sortEpochs_perm l1 l2 : l1 ≡ₚ l2 → sortEpochs l1 = sortEpochs l2.
Proof.
  intros Hp. apply (Sorted_unique Z.le); [apply Sorted_merge_sort, _..|].
  unfold sortEpochs. by rewrite !merge_sort_Permutation.
Qed.

(** ** Operations and reachable states *)

Section system.
Context (ec : EconomicModel).

Inductive restrictingOp :=
  | OpAdd (ord : gmap Z Z → list (Z * Z)) (minimum : outcome Z)
      (from account blockNum : Z) (plans : list RestrictingPlan) (txhash : Z)
  | OpAdvance (account amount : Z)
  | OpMixAdvance (account amount : Z)
  | OpReturn (account amount : Z)
  | OpSlash (account amount : Z)
  | OpEndBlock (yearEnd : bool) (number : Z).

Definition exec (op : restrictingOp) : M StateDB unit :=
  match op with
  | OpAdd ord minimum from account blockNum plans txhash =>
      AddRestrictingRecord ec ord minimum from account blockNum plans txhash
  | OpAdvance account amount => AdvanceLockedFunds account amount
  | OpMixAdvance account amount =>
      MixAdvanceLockedFunds account amount ≫= λ _, mret tt
  | OpReturn account amount => ReturnLockFunds account amount
  | OpSlash account amount => SlashingNotify account amount
  | OpEndBlock yearEnd number => RestrictingEndBlock ec yearEnd number
  end.

(** The restricting contract has no key: it never sends a transaction.  The
    governance query answers or fails, it does not panic. *)
Definition op_wf (op : restrictingOp) : Prop :=
  match op with
  | OpAdd _ minimum from _ _ _ _ => from ≠ RestrictingContractAddr ∧ minimum ≠ Panic
  | OpMixAdvance account _ => account ≠ RestrictingContractAddr
  | _ => True
  end.

(** The state kept when an operation fails half way is a step, too. *)
Inductive rstep : relation StateDB :=
  | rstep_exec op s : op_wf op → rstep s (exec op s).2.

Definition fresh (s : StateDB) : Prop :=
  infoOf (restrictingStore s) = ∅ ∧ releaseAmount (restrictingStore s) = ∅
  ∧ 0 <= GetBalance s RestrictingContractAddr.

Lemma exec_safe op : op_wf op → safe (exec op).
Proof.
  destruct op; cbn; intros Hop.
  - destruct Hop. by apply AddRestrictingRecord_safe.
  - apply AdvanceLockedFunds_safe.
  - apply safe_bind; [by apply MixAdvanceLockedFunds_safe|]. intros _. apply safe_ret.
  - apply ReturnLockFunds_safe.
  - apply SlashingNotify_safe.
  - apply RestrictingEndBlock_safe.
Qed.

Lemma exec_conserves op : conserves (exec op).
Proof.
  destruct op; cbn.
  - apply AddRestrictingRecord_conserves.
  - apply AdvanceLockedFunds_conserves.
  - apply conserves_bind; [apply MixAdvanceLockedFunds_conserves|]. by intros _ s.
  - apply ReturnLockFunds_conserves.
  - apply SlashingNotify_conserves.
  - apply RestrictingEndBlock_conserves.
Qed.

Lemma InitGenesis_rinv s :
  CDFAccount (InnerAcc ec) ≠ RestrictingContractAddr → fresh s →
  rinv (InitGenesisRestrictingPlans ec s).
Proof.
  intros Hc (Hi & Ha & Hb). unfold InitGenesisRestrictingPlans, updateGenesisRestrictingPlans.
  cbv zeta. split; unfold locked; cbn [with_restricting restrictingStore with_genesisPlans
    infoOf releaseAmount genesisPlans]; rewrite ?restrictingStore_Add, ?restrictingStore_Sub,
    ?restrictingStore_Add, ?restrictingStore_Sub, ?Hi, ?Ha; [done..|].
  rewrite msum_empty, GetBalance_with_restricting. balances.
  change (zsum (default [] (Some genesisAllowancePlans))) with totalRestrictingPlan. lia.
Qed.

Lemma InitGenesis_supply s :
  total_supply (InitGenesisRestrictingPlans ec s) = total_supply s.
Proof.
  unfold InitGenesisRestrictingPlans, updateGenesisRestrictingPlans. cbv zeta.
  autorewrite with state. lia.
Qed.

Lemma rtc_rinv s s' : rtc rstep s s' → rinv s → rinv s'.
Proof.
  induction 1 as [|s s1 s2 Hstep _ IH]; [done|]. intros Hs. apply IH.
  destruct Hstep as [op s Hop]. by apply exec_safe.
Qed.

Lemma rtc_supply s s' : rtc rstep s s' → total_supply s' = total_supply s.
Proof.
  induction 1 as [|s s1 s2 Hstep _ IH]; [done|]. rewrite IH.
  destruct Hstep. apply exec_conserves.
Qed.

(** ** Properties *)

(** C4: solvency.  From genesis on, whatever sequence of plan creations,
    advances, returns, slashes and end-of-block releases is run, failed ones
    included, the restricting contract holds at least every locked and not
    advanced coin of every account plus the foundation's unreleased plans, each
    account's record is consistent (0 <= advanced <= locked, and an account that
    is owed coins has advanced all it has locked), no coin is created or
    destroyed, and no operation panics. *)
Theorem restricting_solvent s0 s :
  CDFAccount (InnerAcc ec) ≠ RestrictingContractAddr → fresh s0 →
  rtc rstep (InitGenesisRestrictingPlans ec s0) s →
  (∀ a i, getRestrictingInfo s a = Some i → info_ok i)
  ∧ locked s <= GetBalance s RestrictingContractAddr
  ∧ total_supply s = total_supply s0
  ∧ ∀ op, op_wf op → (exec op s).1 ≠ Panic.
Proof.
  intros Hc Hf Hr. pose proof (rtc_rinv _ _ Hr (InitGenesis_rinv s0 Hc Hf)) as Hinv.
  split; [|split; [|split]].
  - intros a i. by apply getInfo_ok.
  - apply Hinv.
  - rewrite (rtc_supply _ _ Hr). apply InitGenesis_supply.
  - intros op Hop. by apply exec_safe.
Qed.

(** the result of [AddRestrictingRecord], state and error included, does not
    depend on the order in which Go iterates over the merged plans: all nodes
    compute the same state. *)
Theorem AddRestrictingRecord_deterministic ord1 ord2 minimum from a blockNum plans txhash s :
  (∀ m, ord1 m ≡ₚ map_to_list m) → (∀ m, ord2 m ≡ₚ map_to_list m) →
  AddRestrictingRecord ec ord1 minimum from a blockNum plans txhash s
  = AddRestrictingRecord ec ord2 minimum from a blockNum plans txhash s.
Proof.
  intros H1 H2. unfold AddRestrictingRecord. case_match; [done|].
  destruct (mergeAmount _ _ _ _) as [[t m]|e|]; [|done|done]. run_eval.
  do 2 (case_match; [done|]).
  assert (Hp : ord1 m ≡ₚ ord2 m) by by rewrite H1, H2.
  assert (Hnd : NoDup (ord1 m).*1) by (rewrite H1; apply NoDup_fst_map_to_list).
  destruct (getRestrictingInfo _ _) as [i|].
  - destruct (settleDeposit _ _ _ _) as [i' s2].
    destruct (mergePlans_perm a (ord1 m) (ord2 m) s2 (ReleaseList i') (ReleaseList i')
      Hnd Hp) as [Hs Hl]; [done|].
    destruct (mergePlans a (ord1 m) _ _) as [s3 l3], (mergePlans a (ord2 m) _ _) as [s4 l4].
    cbn in Hs, Hl. subst s4. by rewrite (sortEpochs_perm l3 l4).
  - rewrite (initPlans_perm a (ord1 m) (ord2 m)) by done.
    by rewrite (sortEpochs_perm (ord1 m).*1 (ord2 m).*1) by by rewrite Hp.
Qed.
End system.

(** The coins paid out of [x] due coins: as many as are not advanced. *)
Definition payable (x : Z) (i : RestrictingInfo) : Z := Z.min x (unadvanced i).

Lemma payRelease_eq a x i s :
  info_ok i → 0 <= x →
  payRelease a x i s =
    ({| NeedRelease := NeedRelease i + (x - payable x i);
        AdvanceAmount := AdvanceAmount i;
        CachePlanAmount := CachePlanAmount i - payable x i;
        ReleaseList := ReleaseList i |},
     transferAmount RestrictingContractAddr a (payable x i) s).
Proof.
  intros [? ? Hd] Hx. unfold payRelease, payable, unadvanced.
  destruct i as [need adv cache l]; cbn in *.
  repeat case_match; bool_to_prop.
  - assert (cache = adv) as -> by auto.
    rewrite Z.sub_diag, Z.min_r by lia. f_equal. f_equal; lia.
  - rewrite Z.min_l by lia. repeat f_equal; lia.
  - rewrite Z.min_r by lia. repeat f_equal; lia.
Qed.

(** when the record of an account falls due, the account is paid
    min(due, locked - advanced) and exactly the rest of the due amount is added
    to what it is owed: nothing due is lost, and only the contract pays. *)
Theorem release_pays_due e n s a i :
  rinv s → a ≠ RestrictingContractAddr →
  getReleaseAccount s e n = a → getRestrictingInfo s a = Some i →
  let due := getReleaseAmount s e a in
  let s' := (releaseOne e n s).2 in
  (releaseOne e n s).1 = Ok tt
  ∧ GetBalance s' a = GetBalance s a + payable due i
  ∧ GetBalance s' RestrictingContractAddr
      = GetBalance s RestrictingContractAddr - payable due i
  ∧ (∀ b, b ≠ a → b ≠ RestrictingContractAddr → GetBalance s' b = GetBalance s b)
  ∧ ∀ i', getRestrictingInfo s' a = Some i' →
      NeedRelease i' + payable due i = NeedRelease i + due
      ∧ CachePlanAmount i' + payable due i = CachePlanAmount i.
Proof.
  intros Hinv Ha Hacc Hi. cbv zeta. unfold releaseOne. run_eval. rewrite Hacc, Hi.
  pose proof (getInfo_ok s a i Hinv Hi) as Hok.
  pose proof (getReleaseAmount_nonneg s e a Hinv) as Hx.
  pose proof (payRelease_spec a (getReleaseAmount s e a) i s _ _ Hok Hx
    (payRelease_eq _ _ _ s Hok Hx)) as [Hok' _].
  rewrite payRelease_eq by done. cbv beta iota zeta.
  set (i' := Build_RestrictingInfo _ _ _ _) in *. set (x := payable _ i) in *.
  apply (RemoveEpoch_ok e) in Hok'.
  repeat case_match; rewrite ?store_run by done; cbn [fst snd modify];
    rewrite ?GetBalance_setInfo, ?GetBalance_deleteInfo, !GetBalance_with_restricting;
    (split; [done|]); (split; [balances|]); (split; [balances|]);
    (split; [intros b ? ?;
       rewrite ?GetBalance_setInfo, ?GetBalance_deleteInfo, !GetBalance_with_restricting;
       balances|]);
    intros j; unfold getRestrictingInfo; store_simpl;
    rewrite ?lookup_insert_eq, ?lookup_delete_eq; [done|..]; intros [= <-]; cbn; lia.
Qed.

(** coins that return from the staking contract first pay what the account
    is owed: min(owed, returned) goes to the account, the rest stays locked. *)
Theorem return_settles_debt a x s i :
  rinv s → a ≠ RestrictingContractAddr → a ≠ StakingContractAddr →
  getRestrictingInfo s a = Some i → 0 < x <= AdvanceAmount i →
  let paid := Z.min (NeedRelease i) x in
  let s' := (ReturnLockFunds a x s).2 in
  (ReturnLockFunds a x s).1 = Ok tt
  ∧ GetBalance s' a = GetBalance s a + paid
  ∧ GetBalance s' RestrictingContractAddr = GetBalance s RestrictingContractAddr + x - paid
  ∧ GetBalance s' StakingContractAddr = GetBalance s StakingContractAddr - x
  ∧ ∀ i', getRestrictingInfo s' a = Some i' →
      NeedRelease i' = NeedRelease i - paid ∧ AdvanceAmount i' = AdvanceAmount i - x
      ∧ CachePlanAmount i' = CachePlanAmount i - paid.
Proof.
  intros Hinv HaR HaS Hi Hx. cbv zeta. pose proof (getInfo_ok s a i Hinv Hi) as Hok.
  unfold ReturnLockFunds, mustGetRestrictingInfoByDecode. run_eval.
  destruct (Z.eqb_spec x 0); [lia|]. destruct (Z.ltb_spec x 0); [lia|]. rewrite Hi.
  destruct (Z.ltb_spec (AdvanceAmount i) x); [lia|].
  destruct (settleReturn _ _ _ _) as [i' s'] eqn:Hs.
  pose proof (settleReturn_spec _ _ _ _ _ _ Hok Hx Hs) as (Hok' & _ & _).
  destruct Hok as [? ? Hd]. unfold settleReturn in Hs.
  unfold storeOrRemove. destruct (_ && _ && _); [|rewrite store_run by done];
    cbn [modify fst snd]; repeat case_match; simplify_eq; bool_to_prop;
    rewrite ?GetBalance_setInfo, ?GetBalance_deleteInfo;
    (split; [done|]); (split; [balances|]); (split; [balances|]); (split; [balances|]);
    intros j; unfold getRestrictingInfo; store_simpl;
    rewrite ?lookup_insert_eq, ?lookup_delete_eq; try done; intros [= <-]; cbn; lia.
Qed.

(** C28: advancing locked coins to staking and returning them is a round trip:
    the storage of the restricting contract and every balance are as before. *)
Theorem advance_return_roundtrip a x s s1 :
  rinv s → 0 < x → AdvanceLockedFunds a x s = (Ok tt, s1) →
  (ReturnLockFunds a x s1).1 = Ok tt
  ∧ restrictingStore (ReturnLockFunds a x s1).2 = restrictingStore s
  ∧ ∀ b, GetBalance (ReturnLockFunds a x s1).2 b = GetBalance s b.
Proof.
  intros Hinv Hx. unfold AdvanceLockedFunds, ReturnLockFunds,
    mustGetRestrictingInfoByDecode. run_eval.
  destruct (getRestrictingInfo s a) as [i|] eqn:Hi; [|done].
  pose proof (getInfo_ok s a i Hinv Hi) as Hok. pose proof Hok as [? ? Hd].
  destruct (Z.ltb_spec x 0); [lia|]. destruct (Z.eqb_spec x 0); [lia|].
  destruct (Z.ltb_spec (CachePlanAmount i - AdvanceAmount i) x); [done|].
  assert (Hneed : NeedRelease i = 0).
  { destruct (decide (0 < NeedRelease i)); [|lia]. rewrite Hd in * by done. lia. }
  rewrite store_run by (split; cbn; lia). intros [= <-].
  unfold getRestrictingInfo at 1 2 3. store_simpl. rewrite lookup_insert_eq.
  cbn [with_advance AdvanceAmount]. destruct (Z.ltb_spec (AdvanceAmount i + x) x); [lia|].
  unfold settleReturn. cbn [NeedRelease with_advance]. rewrite Hneed.
  cbn [Z.ltb Z.compare]. unfold storeOrRemove.
  cbn [with_advance AdvanceAmount ReleaseList CachePlanAmount].
  destruct (Z.eqb_spec (CachePlanAmount i) 0); [lia|]. rewrite andb_false_r.
  assert (Hback : with_advance (λ b, b - x) (with_advance (λ b, b + x) i) = i).
  { destruct i; unfold with_advance; cbn. f_equal. lia. }
  rewrite Hback, store_run by done. split; [done|]. cbn [snd]. split.
  - store_simpl. unfold getRestrictingInfo in Hi.
    destruct (restrictingStore s) as [im en ra am g] eqn:Hst.
    unfold with_info; cbn in *. f_equal. rewrite insert_insert_eq. by apply insert_id.
  - intros b. rewrite GetBalance_setInfo, !GetBalance_transfer, GetBalance_setInfo. lia.
Qed.

(** ** Witnesses

    A chain whose genesis gives the foundation its coins and account 7 some
    more; account 7 locks 300 coins for account 9 in two plans, of which account
    9 advances 250 to staking. *)

Definition demo_ec : EconomicModel := mainNetConfig InitialChosenMainNetValidators.

Definition demo0 : StateDB := {|
  balances := <[CDFAccount (InnerAcc demo_ec) := cdfundBalance]> {[ 7 := 1000 * one ]};
  restrictingStore := {| infoOf := ∅; epochNumber := ∅; releaseAccount := ∅;
    releaseAmount := ∅; genesisPlans := None |};
  rewardPoolStore := {| yearEndCumulativeIssue := ∅; yearEndBalance := ∅ |};
  slashedEvidence := ∅ |}.

Definition demo_plans : list RestrictingPlan :=
  [ {| planEpoch := 1; planAmount := 100 * one |};
    {| planEpoch := 2; planAmount := 200 * one |} ].

Definition demo_add : restrictingOp :=
  OpAdd map_to_list (Ok (100 * one)) 7 9 10 demo_plans 1.

Definition demo1 : StateDB := InitGenesisRestrictingPlans demo_ec demo0.
Definition demo2 : StateDB := (exec demo_ec demo_add demo1).2.
Definition demo3 : StateDB := (exec demo_ec (OpAdvance 9 (250 * one)) demo2).2.

Lemma demo0_fresh : fresh demo0.
Proof. split; [done|split; [done|by vm_compute]]. Qed.

Lemma demo_add_wf : op_wf demo_add.
Proof. by split. Qed.

Lemma demo3_reachable : rtc (rstep demo_ec) demo1 demo3.
Proof.
  eapply rtc_l; [exact (rstep_exec demo_ec demo_add demo1 demo_add_wf)|].
  eapply rtc_l; [exact (rstep_exec demo_ec (OpAdvance 9 (250 * one)) demo2 I)|].
  apply rtc_refl.
Qed.

Lemma demo_rinv : rinv demo2 ∧ rinv demo3.
Proof.
  assert (rinv demo1) as H1 by (apply InitGenesis_rinv; [done|apply demo0_fresh]).
  assert (rinv demo2) as H2 by (apply exec_safe; [apply demo_add_wf|done]).
  split; [done|]. by apply exec_safe.
Qed.

Lemma restricting_solvent_witness :
  locked demo3 <= GetBalance demo3 RestrictingContractAddr
  ∧ locked demo3 = totalRestrictingPlan + 50 * one.
Proof.
  split; [|by vm_compute].
  exact (proj1 (proj2 (restricting_solvent demo_ec demo0 demo3
    ltac:(done) demo0_fresh demo3_reachable))).
Defined.

Lemma AddRestrictingRecord_deterministic_witness :
  AddRestrictingRecord demo_ec (λ m, reverse (map_to_list m)) (Ok (100 * one))
    7 9 10 demo_plans 1 demo1
  = AddRestrictingRecord demo_ec map_to_list (Ok (100 * one)) 7 9 10 demo_plans 1 demo1.
Proof.
  apply AddRestrictingRecord_deterministic; [|done].
  intros m. apply reverse_Permutation.
Defined.

(** Of the 100 coins due in epoch 1 only the 50 not advanced are paid. *)
Lemma release_pays_due_witness :
  GetBalance (releaseOne 1 1 demo3).2 9 = 50 * one
  ∧ GetBalance demo3 9 + payable (100 * one)
      {| NeedRelease := 0; AdvanceAmount := 250 * one; CachePlanAmount := 300 * one;
         ReleaseList := [1; 2] |} = 50 * one.
Proof.
  split; [|by vm_compute].
  rewrite (proj1 (proj2 (release_pays_due 1 1 demo3 9
    {| NeedRelease := 0; AdvanceAmount := 250 * one; CachePlanAmount := 300 * one;
       ReleaseList := [1; 2] |} (proj2 demo_rinv) ltac:(done)
    ltac:(by vm_compute) ltac:(by vm_compute)))).
  by vm_compute.
Defined.

Lemma return_settles_debt_witness :
  (ReturnLockFunds 9 (10 * one) demo3).1 = Ok tt.
Proof.
  apply (return_settles_debt 9 (10 * one) demo3
    {| NeedRelease := 0; AdvanceAmount := 250 * one; CachePlanAmount := 300 * one;
       ReleaseList := [1; 2] |} (proj2 demo_rinv)); [done|done|by vm_compute|].
  by vm_compute.
Defined.

Lemma advance_return_roundtrip_witness :
  restrictingStore (ReturnLockFunds 9 (250 * one) demo3).2 = restrictingStore demo2.
Proof.
  apply (advance_return_roundtrip 9 (250 * one) demo2 demo3 (proj1 demo_rinv));
    [by vm_compute|by vm_compute].
Defined.
