(* ===== verification/Keys.v ===== *)
(** * Storage keys (src/libs/common/bytes.go, src/pos/staking/staking_db_key.go,
      src/pos/restricting/restricting_db_key.go, src/pos/reward, src/pos/plugin)

    Bytes are integers in [0, 256).  The key builders are modelled byte for
    byte.  Three facts about them carry the rest of the development: keys of
    different records never collide, so the stores of the model can be typed;
    delegate keys decode to what they were built from; and the byte order of the
    candidate power keys is the candidates' priority order, which is what the
    iteration of the snapshot database relies on. *)

From Stdlib Require Import Ascii String.
From S2P Require Import Prelude Xutil.
#[local] Open Scope list_scope.
#[local] Open Scope Z_scope.

(** ** Bytes *)

Definition str (s : string) : list Z :=
  map (λ c, Z.of_N (N_of_ascii c)) (list_ascii_of_string s).

(** The [n] low bytes of [x], most significant first. *)
Fixpoint be (n : nat) (x : Z) : list Z :=
  match n with
  | O => []
  | S n => (x / 256 ^ Z.of_nat n) mod 256 :: be n (x mod 256 ^ Z.of_nat n)
  end.

Fixpoint from_be (l : list Z) : Z :=
  match l with
  | [] => 0
  | b :: l => b * 256 ^ Z.of_nat (length l) + from_be l
  end.

Definition Uint16ToBytes (x : Z) : list Z := be 2 x.
Definition Uint32ToBytes (x : Z) : list Z := be 4 x.
Definition Uint64ToBytes (x : Z) : list Z := be 8 x.

(** [make([]byte, 4-len(b))] panics on a longer slice. *)
Definition BytesToUint32 (b : list Z) : outcome Z :=
  if (4 <? length b)%nat then Panic
  else Ok (from_be (replicate (4 - length b) 0 ++ b)).

Definition BytesToUint64 (b : list Z) : outcome Z :=
  if (8 <? length b)%nat then Panic
  else Ok (from_be (replicate (8 - length b) 0 ++ b)).

(** [big.Int.Bytes]: the absolute value without leading zero bytes. *)
Definition byte_len (x : Z) : nat :=
  if x =? 0 then 0%nat else Z.to_nat (Z.log2 (Z.abs x) / 8 + 1).
Definition big_bytes (x : Z) : list Z := be (byte_len x) (Z.abs x).

Definition AddressLength : nat := 20.
Definition NodeIDLength : nat := 64.
Definition address_bytes (a : Z) : list Z := be AddressLength a.
Definition nodeid_bytes (n : Z) : list Z := be NodeIDLength n.

(** [BytesToAddress] keeps the last 20 bytes of a longer slice. *)
Definition BytesToAddress (b : list Z) : Z :=
  from_be (drop (length b - AddressLength) b).

Definition MustBytesID (b : list Z) : outcome Z :=
  if (length b =? NodeIDLength)%nat then Ok (from_be b) else Panic.

(** ** Staking keys *)

Definition CanBaseKeyByAddr (addr : Z) := str "CanBase" ++ address_bytes addr.
Definition CanMutableKeyByAddr (addr : Z) := str "CanMut" ++ address_bytes addr.

Definition MaxBig104 : Z := 2 ^ 104 - 1.
Definition b104Len : nat := 13.
Definition MaxInt32 : Z := 2 ^ 31 - 1.

Definition TallyPowerKey (programVersion shares stakeBlockNum stakeTxIndex nodeID : Z)
    : list Z :=
  let subVersion := u32 (MaxInt32 - CalcVersion programVersion) in
  let sortVersion := Uint32ToBytes subVersion in
  let priority := MaxBig104 - shares in
  let prio := replicate b104Len 0 ++ big_bytes priority in
  let num := Uint64ToBytes stakeBlockNum in
  let txIndex := Uint32ToBytes stakeTxIndex in
  str "Power" ++ sortVersion ++ prio ++ num ++ txIndex ++ nodeid_bytes nodeID.

Definition GetUnStakeCountKey (epoch : Z) := str "UnStakeCount" ++ Uint64ToBytes epoch.
Definition GetUnStakeItemKey (epoch index : Z) :=
  str "UnStakeItem" ++ Uint64ToBytes epoch ++ Uint64ToBytes index.

Definition GetDelegateKey (delAddr nodeId stakeBlockNumber : Z) : list Z :=
  str "Del" ++ address_bytes delAddr ++ nodeid_bytes nodeId
  ++ Uint64ToBytes stakeBlockNumber.

(** The slice expressions panic on a short key. *)
Definition DecodeDelegateKey (key : list Z) : outcome (Z * Z * Z) :=
  let delegateKeyPrefixLength := length (str "Del") in
  let delAddrLength := (AddressLength + delegateKeyPrefixLength)%nat in
  let nodeIdLength := (NodeIDLength + delAddrLength)%nat in
  if (length key <? nodeIdLength)%nat then Panic else
  let delAddr := BytesToAddress
    (take (delAddrLength - delegateKeyPrefixLength) (drop delegateKeyPrefixLength key)) in
  nodeId ← MustBytesID (take (nodeIdLength - delAddrLength) (drop delAddrLength key));
  stakeBlockNumber ← BytesToUint64 (drop nodeIdLength key);
  Ok (delAddr, nodeId, stakeBlockNumber).

Definition GetEpochIndexKey := str "EpochIndex".
Definition GetEpochValArrKey (start end_ : Z) :=
  str "EpochValArr" ++ Uint64ToBytes start ++ Uint64ToBytes end_.
Definition GetRoundIndexKey := str "RoundIndex".
Definition GetRoundValArrKey (start end_ : Z) :=
  str "RoundValArr" ++ Uint64ToBytes start ++ Uint64ToBytes end_.
Definition GetAccountStakeRcKey (addr : Z) := str "AccStakeRc" ++ address_bytes addr.
Definition GetDPOSHASHKey := str "DPOSHASH".
Definition GetRoundValAddrArrKey (round : Z) := str "RoundValAddrArr" ++ Uint64ToBytes round.
Definition GetRoundAddrBoundaryKey := str "RoundAddrBoundary".

(** ** Reward, issuance and slashing keys in the same database *)

Definition DelegateRewardPerLength : Z := 1000.

(** [addr] is the node address of the node id. *)
Definition DelegateRewardPerKey (addr stakingNum epoch : Z) : list Z :=
  let index := u32 (epoch / DelegateRewardPerLength) in
  str "DelegateRewardPerKey" ++ address_bytes addr ++ Uint64ToBytes stakingNum
  ++ Uint32ToBytes index.

Definition packAmountPrefix := str "nodePackAmount".
Definition buildPrefixByRound (round : Z) := packAmountPrefix ++ Uint64ToBytes round.

(** ** Keys in the storage of the inner contracts *)

Definition GetRestrictingKey (account : Z) := str "RestrictInfo" ++ address_bytes account.
Definition GetReleaseAmountKey (epoch account : Z) :=
  str "RestrictInfo" ++ (Uint64ToBytes epoch ++ address_bytes account).
Definition GetReleaseEpochKey (epoch : Z) := str "RestrictRecord" ++ Uint64ToBytes epoch.
Definition GetReleaseAccountKey (epoch index : Z) :=
  str "RestrictRecord" ++ (Uint64ToBytes epoch ++ Uint32ToBytes index).
Definition InitialFoundationRestricting := str "InitialFoundationRestricting".

Definition GetHistoryIncreaseKey (year : Z) := str "RewardHistory" ++ Uint32ToBytes year.
Definition HistoryBalancePrefix (year : Z) := str "RewardBalance" ++ Uint32ToBytes year.

Definition duplicateSignKey (nodeId blockNumber dupType : Z) : list Z :=
  (nodeid_bytes nodeId ++ Uint64ToBytes blockNumber) ++ Uint16ToBytes (u16 dupType).

(** ** Typed keys

    The arguments of the key builders, one constructor per record kind. *)

Inductive snapshotKey :=
  | KCanBase (addr : Z) | KCanMutable (addr : Z)
  | KPower (version shares num tx id : Z)
  | KUnStakeCount (epoch : Z) | KUnStakeItem (epoch index : Z)
  | KDelegate (delAddr nodeId num : Z)
  | KEpochIndex | KEpochValArr (start end_ : Z)
  | KRoundIndex | KRoundValArr (start end_ : Z)
  | KAccountStakeRc (addr : Z) | KDPOSHASH
  | KRoundValAddrArr (round : Z) | KRoundAddrBoundary
  | KRewardPer (addr num index : Z)
  | KYearStartBlockNumber | KYearStartTime | KRemainingReward | KNewBlockReward
  | KStakingReward | KChainYearNumber
  | KAvgPackTime | KIncIssuanceNumber | KIncIssuanceTime
  | KPackAmount (round id : Z) | KWaitSlashing.

Definition encodeKey (k : snapshotKey) : list Z :=
  match k with
  | KCanBase a => CanBaseKeyByAddr a
  | KCanMutable a => CanMutableKeyByAddr a
  | KPower v s n t i => TallyPowerKey v s n t i
  | KUnStakeCount e => GetUnStakeCountKey e
  | KUnStakeItem e i => GetUnStakeItemKey e i
  | KDelegate a i n => GetDelegateKey a i n
  | KEpochIndex => GetEpochIndexKey
  | KEpochValArr s e => GetEpochValArrKey s e
  | KRoundIndex => GetRoundIndexKey
  | KRoundValArr s e => GetRoundValArrKey s e
  | KAccountStakeRc a => GetAccountStakeRcKey a
  | KDPOSHASH => GetDPOSHASHKey
  | KRoundValAddrArr r => GetRoundValAddrArrKey r
  | KRoundAddrBoundary => GetRoundAddrBoundaryKey
  | KRewardPer a n i => DelegateRewardPerKey a n (i * DelegateRewardPerLength)
  | KYearStartBlockNumber => str "YearStartBlockNumberKey"
  | KYearStartTime => str "YearStartTimeKey"
  | KRemainingReward => str "RemainingRewardKey"
  | KNewBlockReward => str "NewBlockRewardKey"
  | KStakingReward => str "StakingRewardKey"
  | KChainYearNumber => str "ChainYearNumberKey"
  | KAvgPackTime => str "AvgPackTimeKey"
  | KIncIssuanceNumber => str "IncIssuanceNumberKey"
  | KIncIssuanceTime => str "IncIssuanceTimeKey"
  | KPackAmount r i => buildPrefixByRound r ++ nodeid_bytes i
  | KWaitSlashing => str "waitSlashingNodeList"
  end.

(** ** Big-endian encoding *)

Lemma be_length n x : length (be n x) = n.
Proof. revert x. induction n; intros x; cbn; auto. Qed.

Lemma pow256_S n : 256 ^ Z.of_nat (S n) = 256 * 256 ^ Z.of_nat n.
Proof. rewrite Nat2Z.inj_succ, Z.pow_succ_r by lia. done. Qed.

Lemma pow256_pos n : 0 < 256 ^ Z.of_nat n.
Proof. apply Z.pow_pos_nonneg; lia. Qed.

Lemma be_head n x :
  0 <= x < 256 ^ Z.of_nat (S n) → (x / 256 ^ Z.of_nat n) mod 256 = x / 256 ^ Z.of_nat n.
Proof.
  rewrite pow256_S. intros Hx. pose proof (pow256_pos n). apply Z.mod_small.
  split; [apply Z.div_pos; lia|apply Z.div_lt_upper_bound; lia].
Qed.

Lemma be_tail n x : 0 <= x mod 256 ^ Z.of_nat n < 256 ^ Z.of_nat n.
Proof. apply Z.mod_pos_bound, pow256_pos. Qed.

Lemma from_be_be n x : 0 <= x < 256 ^ Z.of_nat n → from_be (be n x) = x.
Proof.
  revert x. induction n as [|n IH]; intros x Hx; [cbn in *; lia|].
  cbn [be from_be]. rewrite be_length, be_head by done.
  rewrite IH by apply be_tail. pose proof (pow256_pos n).
  rewrite (Z.div_mod x (256 ^ Z.of_nat n)) at 3 by lia. lia.
Qed.

Lemma be_inj n x y :
  0 <= x < 256 ^ Z.of_nat n → 0 <= y < 256 ^ Z.of_nat n → be n x = be n y → x = y.
Proof. intros Hx Hy H. rewrite <- (from_be_be n x), <- (from_be_be n y) by done. congruence. Qed.

Lemma from_be_zeros k l : from_be (replicate k 0 ++ l) = from_be l.
Proof. induction k; cbn [replicate app from_be]; lia. Qed.

(** ** Lexicographic order on byte strings *)

Fixpoint lex (l k : list Z) : comparison :=
  match l, k with
  | [], [] => Eq
  | [], _ => Lt
  | _, [] => Gt
  | a :: l, b :: k => match a ?= b with Eq => lex l k | c => c end
  end.

(** Compare first by [c], then by [d]. *)
Definition then_by (c d : comparison) : comparison :=
  match c with Eq => d | _ => c end.

Lemma lex_app l1 l2 k1 k2 :
  length l1 = length k1 → lex (l1 ++ l2) (k1 ++ k2) = then_by (lex l1 k1) (lex l2 k2).
Proof.
  revert k1. induction l1 as [|a l1 IH]; intros [|b k1] Hl; try done. cbn in *.
  destruct (a ?= b); [|done|done]. apply IH. lia.
Qed.

Lemma lex_refl l : lex l l = Eq.
Proof. induction l; cbn; [done|]. by rewrite Z.compare_refl. Qed.

Lemma lex_be n x y :
  0 <= x < 256 ^ Z.of_nat n → 0 <= y < 256 ^ Z.of_nat n →
  lex (be n x) (be n y) = (x ?= y).
Proof.
  revert x y. induction n as [|n IH]; intros x y Hx Hy.
  { cbn in *. symmetry. apply Z.compare_eq_iff. lia. }
  cbn [be lex]. rewrite !be_head by done. rewrite IH by apply be_tail.
  set (p := 256 ^ Z.of_nat n). assert (0 < p) by apply pow256_pos.
  pose proof (Z.div_mod x p ltac:(lia)). pose proof (Z.div_mod y p ltac:(lia)).
  pose proof (Z.mod_pos_bound x p ltac:(lia)). pose proof (Z.mod_pos_bound y p ltac:(lia)).
  destruct (Z.compare_spec (x / p) (y / p)) as [E|E|E]; symmetry.
  - destruct (Z.compare_spec (x mod p) (y mod p)).
    + apply Z.compare_eq_iff. nia.
    + apply Z.compare_lt_iff. nia.
    + apply Z.compare_gt_iff. nia.
  - apply Z.compare_lt_iff. nia.
  - apply Z.compare_gt_iff. nia.
Qed.

(** ** Priority order of the power keys *)

(** Shares for which the priority always takes 13 bytes. *)
Definition shares_bound : Z := 2 ^ 104 - 2 ^ 96.

Record power_wf (version shares num tx id : Z) : Prop := {
  pw_version : 0 <= version < 2 ^ 31;
  pw_shares : 0 <= shares < shares_bound;
  pw_num : in_u64 num;
  pw_tx : in_u32 tx;
  pw_id : 0 <= id < 2 ^ 512 }.

Lemma CalcVersion_spec v : 0 <= v < 2 ^ 31 → CalcVersion v = v - v mod 256
  ∧ 0 <= CalcVersion v <= v.
Proof.
  intros Hv. unfold CalcVersion. rewrite Z.shiftl_mul_pow2, Z.shiftr_div_pow2 by lia.
  change (2 ^ 8) with 256. pose proof (Z.div_mod v 256 ltac:(lia)).
  pose proof (Z.mod_pos_bound v 256 ltac:(lia)).
  rewrite u32_small by (unfold in_u32; lia). lia.
Qed.

Lemma big_bytes_priority s :
  0 <= s < shares_bound → big_bytes (MaxBig104 - s) = be 13 (MaxBig104 - s).
Proof.
  unfold shares_bound, MaxBig104. intros Hs. set (p := 2 ^ 104 - 1 - s).
  assert (Hp : 2 ^ 96 <= p < 2 ^ 104) by (unfold p; lia).
  unfold big_bytes, byte_len. destruct (Z.eqb_spec p 0); [lia|].
  rewrite Z.abs_eq by lia. f_equal.
  assert (96 <= Z.log2 p) by (apply Z.log2_le_pow2; lia).
  assert (Z.log2 p < 104) by (apply Z.log2_lt_pow2; lia).
  assert (Z.log2 p / 8 = 12) as ->; [|done].
  symmetry. apply (Z.div_unique_pos _ _ _ (Z.log2 p - 96)); lia.
Qed.

Lemma TallyPowerKey_lex v s n t i v' s' n' t' i' :
  power_wf v s n t i → power_wf v' s' n' t' i' →
  lex (TallyPowerKey v s n t i) (TallyPowerKey v' s' n' t' i') =
    then_by (CalcVersion v' ?= CalcVersion v)
      (then_by (s' ?= s) (then_by (n ?= n') (then_by (t ?= t') (i ?= i')))).
Proof.
  intros [Hv Hs Hn Ht Hi] [Hv' Hs' Hn' Ht' Hi']. unfold TallyPowerKey.
  pose proof (CalcVersion_spec v Hv) as [_ ?]. pose proof (CalcVersion_spec v' Hv') as [_ ?].
  unfold in_u32, in_u64 in *.
  rewrite !u32_small by (unfold in_u32, MaxInt32; lia).
  rewrite !big_bytes_priority by done.
  rewrite lex_app by done. rewrite lex_refl. cbn [then_by].
  unfold Uint32ToBytes, Uint64ToBytes, nodeid_bytes.
  rewrite lex_app by by rewrite !be_length. rewrite lex_be by (unfold MaxInt32; cbn; lia).
  rewrite <- !app_assoc, lex_app by done. rewrite lex_refl. cbn [then_by].
  rewrite lex_app by by rewrite !be_length.
  unfold MaxBig104, shares_bound in *. rewrite lex_be by (cbn; lia).
  rewrite lex_app by by rewrite !be_length. rewrite lex_be by (cbn; lia).
  rewrite lex_app by by rewrite !be_length. rewrite lex_be by (cbn; lia).
  rewrite lex_be by (change (256 ^ Z.of_nat NodeIDLength) with (2 ^ 512); lia).
  f_equal; [|f_equal].
  - destruct (Z.compare_spec (CalcVersion v') (CalcVersion v));
      [apply Z.compare_eq_iff|apply Z.compare_lt_iff|apply Z.compare_gt_iff]; lia.
  - destruct (Z.compare_spec s' s);
      [apply Z.compare_eq_iff|apply Z.compare_lt_iff|apply Z.compare_gt_iff]; lia.
Qed.

(** ** No two records share a key *)

Definition is_address (a : Z) : Prop := 0 <= a < 2 ^ 160.
Definition is_nodeid (i : Z) : Prop := 0 <= i < 2 ^ 512.

Definition key_wf (k : snapshotKey) : Prop :=
  match k with
  | KCanBase a | KCanMutable a | KAccountStakeRc a => is_address a
  | KPower v s n t i => power_wf v s n t i ∧ v mod 256 = 0
  | KUnStakeCount e | KRoundValAddrArr e => in_u64 e
  | KUnStakeItem e i | KEpochValArr e i | KRoundValArr e i => in_u64 e ∧ in_u64 i
  | KDelegate a i n => is_address a ∧ is_nodeid i ∧ in_u64 n
  | KRewardPer a n i => is_address a ∧ in_u64 n ∧ in_u32 i
  | KPackAmount r i => in_u64 r ∧ is_nodeid i
  | _ => True
  end.

Lemma address_bytes_inj a b :
  is_address a → is_address b → address_bytes a = address_bytes b → a = b.
Proof. exact (be_inj 20 a b). Qed.

Lemma nodeid_bytes_inj a b :
  is_nodeid a → is_nodeid b → nodeid_bytes a = nodeid_bytes b → a = b.
Proof. exact (be_inj 64 a b). Qed.

Lemma Uint64ToBytes_inj a b :
  in_u64 a → in_u64 b → Uint64ToBytes a = Uint64ToBytes b → a = b.
Proof. exact (be_inj 8 a b). Qed.

Lemma Uint32ToBytes_inj a b :
  in_u32 a → in_u32 b → Uint32ToBytes a = Uint32ToBytes b → a = b.
Proof. exact (be_inj 4 a b). Qed.

(** First byte and length of the key: they determine the kind of record. *)
Definition key_class (k : snapshotKey) : Z * nat :=
  match k with
  | KCanBase _ => (67, 27%nat)
  | KCanMutable _ => (67, 26%nat)
  | KPower _ _ _ _ _ => (80, 111%nat)
  | KUnStakeCount _ => (85, 20%nat)
  | KUnStakeItem _ _ => (85, 27%nat)
  | KDelegate _ _ _ => (68, 95%nat)
  | KEpochIndex => (69, 10%nat)
  | KEpochValArr _ _ => (69, 27%nat)
  | KRoundIndex => (82, 10%nat)
  | KRoundValArr _ _ => (82, 27%nat)
  | KAccountStakeRc _ => (65, 30%nat)
  | KDPOSHASH => (68, 8%nat)
  | KRoundValAddrArr _ => (82, 23%nat)
  | KRoundAddrBoundary => (82, 17%nat)
  | KRewardPer _ _ _ => (68, 52%nat)
  | KYearStartBlockNumber => (89, 23%nat)
  | KYearStartTime => (89, 16%nat)
  | KRemainingReward => (82, 18%nat)
  | KNewBlockReward => (78, 17%nat)
  | KStakingReward => (83, 16%nat)
  | KChainYearNumber => (67, 18%nat)
  | KAvgPackTime => (65, 14%nat)
  | KIncIssuanceNumber => (73, 20%nat)
  | KIncIssuanceTime => (73, 18%nat)
  | KPackAmount _ _ => (110, 86%nat)
  | KWaitSlashing => (119, 20%nat)
  end.

Lemma encodeKey_class k :
  key_wf k → (hd 0 (encodeKey k), length (encodeKey k)) = key_class k.
Proof.
  destruct k; try reflexivity. intros [[_ Hs _ _ _] _]. cbn [encodeKey key_class].
  unfold TallyPowerKey. rewrite big_bytes_priority by done.
  rewrite !length_app, length_replicate. unfold nodeid_bytes, Uint32ToBytes, Uint64ToBytes.
  rewrite !be_length. done.
Qed.

(** Split an equation of concatenated fixed-width fields. *)
Ltac split_fields H :=
  repeat match type of H with
  | _ ++ _ = _ ++ _ =>
      let H1 := fresh "F" in
      apply app_inj_1 in H; [destruct H as [H1 H]|reflexivity]
  end.

Lemma encodeKey_same_kind k k' :
  key_wf k → key_wf k' → key_class k = key_class k' →
  encodeKey k = encodeKey k' → k = k'.
Proof.
  intros Hk Hk' Hc He.
  destruct k, k'; try discriminate Hc; try reflexivity; cbn [encodeKey key_wf] in *;
    try match goal with
    | H : TallyPowerKey _ _ _ _ _ = _ |- _ =>
        pose proof (f_equal (λ l, lex l (TallyPowerKey version0 shares0 num0 tx0 id0)) H) as Hl;
        cbn beta in Hl; destruct Hk as [Hk Hm], Hk' as [Hk' Hm'];
        rewrite lex_refl, TallyPowerKey_lex in Hl by done;
        destruct (CalcVersion_spec version) as [E _]; [apply Hk|];
        destruct (CalcVersion_spec version0) as [E' _]; [apply Hk'|];
        rewrite E, E', Hm, Hm', !Z.sub_0_r in Hl; unfold then_by in Hl;
        repeat match type of Hl with
        | match ?x ?= ?y with _ => _ end = _ =>
            destruct (Z.compare_spec x y); try discriminate Hl
        end; apply Z.compare_eq in Hl; congruence
    end;
    unfold CanBaseKeyByAddr, CanMutableKeyByAddr, GetUnStakeCountKey, GetUnStakeItemKey,
      GetDelegateKey, GetEpochValArrKey, GetRoundValArrKey, GetAccountStakeRcKey,
      GetRoundValAddrArrKey, DelegateRewardPerKey, buildPrefixByRound in He;
    rewrite <- ?app_assoc in He; split_fields He; destruct_and?;
    rewrite ?Z.div_mul, ?u32_small in * by done;
    f_equal; eauto using address_bytes_inj, nodeid_bytes_inj, Uint64ToBytes_inj,
      Uint32ToBytes_inj.
Qed.

(** ** Properties *)



(** byte order of the candidate power keys is the candidates' priority:
    higher version (patch ignored) first, then more shares, then earlier staking
    block, then smaller transaction index, then node id.  Iterating the database
    in key order therefore yields candidates by priority. *)
Theorem TallyPowerKey_order v s n t i v' s' n' t' i' :
  power_wf v s n t i → power_wf v' s' n' t' i' →
  lex (TallyPowerKey v s n t i) (TallyPowerKey v' s' n' t' i') =
    then_by (CalcVersion v' ?= CalcVersion v)
      (then_by (s' ?= s) (then_by (n ?= n') (then_by (t ?= t') (i ?= i')))).
Proof. apply TallyPowerKey_lex. Qed.

(** 10^27 base units, the whole supply, are within the bound. *)
Lemma TallyPowerKey_order_witness :
  lex (TallyPowerKey 65536 (10 ^ 27) 10 1 5) (TallyPowerKey 65536 (10 ^ 26) 2 0 4) = Lt.
Proof.
  rewrite TallyPowerKey_order;
    [by vm_compute|split; unfold in_u64, in_u32, shares_bound; lia..].
Defined.

(** decoding a delegate key gives back the delegator, the node and the
    staking block it was built from. *)
Theorem DecodeDelegateKey_roundtrip a i n :
  is_address a → is_nodeid i → in_u64 n →
  DecodeDelegateKey (GetDelegateKey a i n) = Ok (a, i, n).
Proof.
  intros Ha Hi Hn.
  pose proof (be_length 20 a) as La. pose proof (be_length 64 i) as Li.
  pose proof (be_length 8 n) as Ln.
  pose proof (from_be_be 20 a Ha) as Da. pose proof (from_be_be 64 i Hi) as Di.
  pose proof (from_be_be 8 n Hn) as Dn.
  unfold DecodeDelegateKey, GetDelegateKey, BytesToAddress, MustBytesID, BytesToUint64,
    address_bytes, nodeid_bytes, Uint64ToBytes, AddressLength, NodeIDLength.
  generalize dependent (be 20 a). intros la La Da.
  generalize dependent (be 64 i). intros li Li Di.
  generalize dependent (be 8 n). intros ln Ln Dn.
  change (str "Del") with [68; 101; 108]. cbv zeta. cbn [length Nat.add Nat.sub].
  rewrite (drop_app_length' [68; 101; 108]), (take_app_length' la) by done.
  rewrite (app_assoc [68; 101; 108]), (drop_app_length' ([68; 101; 108] ++ la) _ 23)
    by (rewrite length_app, La; done).
  rewrite (take_app_length' li) by done.
  rewrite (app_assoc ([68; 101; 108] ++ la)), (drop_app_length' (([68; 101; 108] ++ la) ++ li) _ 87)
    by (rewrite !length_app, La, Li; done).
  rewrite !length_app, La, Li, Ln. cbn. rewrite drop_0, Da, Di, Dn. done.
Qed.

Lemma DecodeDelegateKey_roundtrip_witness :
  DecodeDelegateKey (GetDelegateKey 7 11 13) = Ok (7, 11, 13).
Proof.
  apply DecodeDelegateKey_roundtrip; unfold is_address, is_nodeid, in_u64; lia.
Defined.
