(* ===== verification/StakingTypes.v ===== *)
(** * Staking data (src/pos/staking/staking_types.go)

    Candidate status bits, candidates, validators, delegations, the three
    validator orders and the in-place quicksort that uses them. *)

From S2P Require Import Prelude Xutil.

(** ** Candidate status *)

Definition Invalided : Z := 1.
Definition LowRatio : Z := 2.
Definition NotEnough : Z := 4.
Definition DuplicateSign : Z := 8.
Definition LowRatioDel : Z := 16.
Definition Withdrew : Z := 32.
Definition Valided : Z := 0.
Definition NotExist : Z := 2 ^ 31.

(** [status&mask == mask] and [status&mask == status|mask]. *)
Definition has (mask status : Z) : bool := Z.land status mask =? mask.
Definition pure (mask status : Z) : bool := Z.land status mask =? Z.lor status mask.

Definition IsInvalid := has Invalided.
Definition IsValid (status : Z) : bool := negb (IsInvalid status).
Definition IsPureInvalid := pure Invalided.
Definition IsLowRatio := has LowRatio.
Definition IsPureLowRatio := pure LowRatio.
Definition IsNotEnough := has NotEnough.
Definition IsPureNotEnough := pure NotEnough.
Definition IsInvalidLowRatio := has (Z.lor Invalided LowRatio).
Definition IsInvalidNotEnough := has (Z.lor Invalided NotEnough).
Definition IsInvalidLowRatioNotEnough := has (Z.lor (Z.lor Invalided LowRatio) NotEnough).
Definition IsLowRatioNotEnough := has (Z.lor LowRatio NotEnough).
Definition IsDuplicateSign := has DuplicateSign.
Definition IsInvalidDuplicateSign := has (Z.lor DuplicateSign Invalided).
Definition IsLowRatioDel := has LowRatioDel.
Definition IsPureLowRatioDel := pure LowRatioDel.
Definition IsInvalidLowRatioDel := has (Z.lor Invalided LowRatioDel).
Definition IsWithdrew := has Withdrew.
Definition IsPureWithdrew := pure Withdrew.
Definition IsInvalidWithdrew := has (Z.lor Invalided Withdrew).

(** ** Candidates *)

Record Description := {
  ExternalId : string;
  NodeName : string;
  Website : string;
  Details : string }.

Record CandidateBase := {
  cbNodeId : Z;
  cbBlsPubKey : Z;
  StakingAddress : Z;
  BenefitAddress : Z;
  cbStakingTxIndex : Z;
  cbProgramVersion : Z;
  cbStakingBlockNum : Z;
  cbDescription : Description }.

Record CandidateMutable := {
  Status : Z;
  StakingEpoch : Z;
  cmShares : Z;
  Released : Z;
  ReleasedHes : Z;
  RestrictingPlan : Z;
  RestrictingPlanHes : Z;
  cmDelegateEpoch : Z;
  DelegateTotal : Z;
  DelegateTotalHes : Z;
  RewardPer : Z;
  NextRewardPer : Z;
  RewardPerChangeEpoch : Z;
  CurrentEpochDelegateReward : Z;
  DelegateRewardTotal : Z }.

Record Candidate := {
  canBase : CandidateBase;
  canMutable : CandidateMutable }.

(** Updates of the fields that the operations change together. *)

Definition set_status (f : Z → Z) (c : CandidateMutable) : CandidateMutable :=
  {| Status := f (Status c); StakingEpoch := StakingEpoch c; cmShares := cmShares c;
     Released := Released c; ReleasedHes := ReleasedHes c;
     RestrictingPlan := RestrictingPlan c; RestrictingPlanHes := RestrictingPlanHes c;
     cmDelegateEpoch := cmDelegateEpoch c; DelegateTotal := DelegateTotal c;
     DelegateTotalHes := DelegateTotalHes c; RewardPer := RewardPer c;
     NextRewardPer := NextRewardPer c; RewardPerChangeEpoch := RewardPerChangeEpoch c;
     CurrentEpochDelegateReward := CurrentEpochDelegateReward c;
     DelegateRewardTotal := DelegateRewardTotal c |}.

Definition set_stakingEpoch (e : Z) (c : CandidateMutable) : CandidateMutable :=
  {| Status := Status c; StakingEpoch := e; cmShares := cmShares c;
     Released := Released c; ReleasedHes := ReleasedHes c;
     RestrictingPlan := RestrictingPlan c; RestrictingPlanHes := RestrictingPlanHes c;
     cmDelegateEpoch := cmDelegateEpoch c; DelegateTotal := DelegateTotal c;
     DelegateTotalHes := DelegateTotalHes c; RewardPer := RewardPer c;
     NextRewardPer := NextRewardPer c; RewardPerChangeEpoch := RewardPerChangeEpoch c;
     CurrentEpochDelegateReward := CurrentEpochDelegateReward c;
     DelegateRewardTotal := DelegateRewardTotal c |}.

Definition set_shares (f : Z → Z) (c : CandidateMutable) : CandidateMutable :=
  {| Status := Status c; StakingEpoch := StakingEpoch c; cmShares := f (cmShares c);
     Released := Released c; ReleasedHes := ReleasedHes c;
     RestrictingPlan := RestrictingPlan c; RestrictingPlanHes := RestrictingPlanHes c;
     cmDelegateEpoch := cmDelegateEpoch c; DelegateTotal := DelegateTotal c;
     DelegateTotalHes := DelegateTotalHes c; RewardPer := RewardPer c;
     NextRewardPer := NextRewardPer c; RewardPerChangeEpoch := RewardPerChangeEpoch c;
     CurrentEpochDelegateReward := CurrentEpochDelegateReward c;
     DelegateRewardTotal := DelegateRewardTotal c |}.

(** Replace the four stake amounts: free and restricted, effective and
    hesitating. *)
Definition set_stake (rel relHes res resHes : Z) (c : CandidateMutable)
    : CandidateMutable :=
  {| Status := Status c; StakingEpoch := StakingEpoch c; cmShares := cmShares c;
     Released := rel; ReleasedHes := relHes;
     RestrictingPlan := res; RestrictingPlanHes := resHes;
     cmDelegateEpoch := cmDelegateEpoch c; DelegateTotal := DelegateTotal c;
     DelegateTotalHes := DelegateTotalHes c; RewardPer := RewardPer c;
     NextRewardPer := NextRewardPer c; RewardPerChangeEpoch := RewardPerChangeEpoch c;
     CurrentEpochDelegateReward := CurrentEpochDelegateReward c;
     DelegateRewardTotal := DelegateRewardTotal c |}.

Definition set_delegateTotals (epoch total totalHes : Z) (c : CandidateMutable)
    : CandidateMutable :=
  {| Status := Status c; StakingEpoch := StakingEpoch c; cmShares := cmShares c;
     Released := Released c; ReleasedHes := ReleasedHes c;
     RestrictingPlan := RestrictingPlan c; RestrictingPlanHes := RestrictingPlanHes c;
     cmDelegateEpoch := epoch; DelegateTotal := total;
     DelegateTotalHes := totalHes; RewardPer := RewardPer c;
     NextRewardPer := NextRewardPer c; RewardPerChangeEpoch := RewardPerChangeEpoch c;
     CurrentEpochDelegateReward := CurrentEpochDelegateReward c;
     DelegateRewardTotal := DelegateRewardTotal c |}.

Definition set_rewardPer (per next changeEpoch current total : Z) (c : CandidateMutable)
    : CandidateMutable :=
  {| Status := Status c; StakingEpoch := StakingEpoch c; cmShares := cmShares c;
     Released := Released c; ReleasedHes := ReleasedHes c;
     RestrictingPlan := RestrictingPlan c; RestrictingPlanHes := RestrictingPlanHes c;
     cmDelegateEpoch := cmDelegateEpoch c; DelegateTotal := DelegateTotal c;
     DelegateTotalHes := DelegateTotalHes c; RewardPer := per;
     NextRewardPer := next; RewardPerChangeEpoch := changeEpoch;
     CurrentEpochDelegateReward := current; DelegateRewardTotal := total |}.

Definition SetValided (c : CandidateMutable) := set_status (λ _, Valided) c.
Definition SetStatus (status : Z) (c : CandidateMutable) := set_status (λ _, status) c.
Definition AppendStatus (status : Z) (c : CandidateMutable) :=
  set_status (λ s, Z.lor s status) c.
Definition CleanLowRatioStatus (c : CandidateMutable) :=
  set_status (λ s, Z.ldiff s LowRatio) c.
Definition CleanShares (c : CandidateMutable) := set_shares (λ _, 0) c.
Definition AddShares (amount : Z) (c : CandidateMutable) := set_shares (λ s, s + amount) c.
Definition SubShares (amount : Z) (c : CandidateMutable) := set_shares (λ s, s - amount) c.

Definition CleanCurrentEpochDelegateReward (c : CandidateMutable) : CandidateMutable :=
  set_rewardPer (RewardPer c) (NextRewardPer c) (RewardPerChangeEpoch c) 0
    (DelegateRewardTotal c) c.

Definition PrepareNextEpoch (c : CandidateMutable) : CandidateMutable * bool :=
  let paid := 0 <? CurrentEpochDelegateReward c in
  let c1 := if paid then
      CleanCurrentEpochDelegateReward
        (set_rewardPer (RewardPer c) (NextRewardPer c) (RewardPerChangeEpoch c)
           (CurrentEpochDelegateReward c)
           (DelegateRewardTotal c + CurrentEpochDelegateReward c) c)
    else c in
  let differs := negb (NextRewardPer c1 =? RewardPer c1) in
  let c2 := if differs then
      set_rewardPer (NextRewardPer c1) (NextRewardPer c1) (RewardPerChangeEpoch c1)
        (CurrentEpochDelegateReward c1) (DelegateRewardTotal c1) c1
    else c1 in
  (c2, paid || differs).

Definition ShouldGiveDelegateReward (c : CandidateMutable) : bool :=
  (0 <? DelegateTotal c) && (0 <? RewardPer c).

Definition MaxExternalIdLen : nat := 70.
Definition MaxNodeNameLen : nat := 30.
Definition MaxWebsiteLen : nat := 140.
Definition MaxDetailsLen : nat := 280.

Definition CheckLength (desc : Description) : outcome unit :=
  if (MaxExternalIdLen <? String.length (ExternalId desc))%nat then Err GenericError
  else if (MaxNodeNameLen <? String.length (NodeName desc))%nat then Err GenericError
  else if (MaxWebsiteLen <? String.length (Website desc))%nat then Err GenericError
  else if (MaxDetailsLen <? String.length (Details desc))%nat then Err GenericError
  else Ok tt.

(** ** Delegations *)

Record Delegation := {
  delDelegateEpoch : Z;
  delReleased : Z;
  delReleasedHes : Z;
  delRestrictingPlan : Z;
  delRestrictingPlanHes : Z;
  CumulativeIncome : Z }.

Definition NewDelegation : Delegation :=
  {| delDelegateEpoch := 0; delReleased := 0; delReleasedHes := 0;
     delRestrictingPlan := 0; delRestrictingPlanHes := 0; CumulativeIncome := 0 |}.

Definition CleanCumulativeIncome (epoch : Z) (del : Delegation) : Delegation :=
  {| delDelegateEpoch := epoch; delReleased := delReleased del;
     delReleasedHes := delReleasedHes del; delRestrictingPlan := delRestrictingPlan del;
     delRestrictingPlanHes := delRestrictingPlanHes del; CumulativeIncome := 0 |}.

Record UnStakeItem := {
  usNodeAddress : Z;
  usStakingBlockNum : Z;
  Recovery : bool }.

Record SlashNodeItem := {
  snNodeId : Z;
  snAmount : Z;
  SlashType : Z;
  BenefitAddr : Z }.

(** ** Validators *)

Record Validator := {
  ProgramVersion : Z;
  StakingTxIndex : Z;
  ValidatorTerm : Z;
  StakingBlockNum : Z;
  NodeAddress : Z;
  NodeId : Z;
  BlsPubKey : Z;
  Shares : Z }.

Record ValidatorArray := {
  vaStart : Z;
  vaEnd : Z;
  vaArr : list Validator }.

Record ValArrIndex := { Start : Z; End_ : Z }.

(** The oldest index leaves the queue when it grows over [size]. *)
Definition ConstantAppend (queue : list ValArrIndex) (index : ValArrIndex) (size : nat)
    : option ValArrIndex * list ValArrIndex :=
  let queue := queue ++ [index] in
  if (size <? length queue)%nat then (head queue, tail queue) else (None, queue).
