(* ===== verification/ValidatorSort.v ===== *)
(** * Sorting validators (src/pos/staking/staking_types.go)

    The three comparison functions and [ValidatorSort], an in-place quicksort
    with a moving pivot.  [removes] maps a node id to the status of a candidate
    that must leave the validator set. *)

From S2P Require Import Prelude Xutil StakingTypes.

(** ** Comparison functions *)

Definition NeedRemoveCans := gmap Z CandidateMutable.

(** The switch [case l > r: return gt; case l < r: return lt; default: ...]. *)
Definition switch_cmp (l r gt lt : Z) (default : Z) : Z :=
  if r <? l then gt else if l <? r then lt else default.

Definition CompareDefault (removes : NeedRemoveCans) (left right : Validator) : Z :=
  let compareTxIndexFunc := switch_cmp (StakingTxIndex left) (StakingTxIndex right) (-1) 1 0 in
  let compareBlockNumberFunc :=
    switch_cmp (StakingBlockNum left) (StakingBlockNum right) (-1) 1 compareTxIndexFunc in
  let compareSharesFunc :=
    switch_cmp (Shares left) (Shares right) 1 (-1) compareBlockNumberFunc in
  let leftOk := bool_decide (is_Some (removes !! NodeId left)) in
  let rightOk := bool_decide (is_Some (removes !! NodeId right)) in
  if leftOk && negb rightOk then -1
  else if negb leftOk && rightOk then 1
  else
    switch_cmp (CalcVersion (ProgramVersion left)) (CalcVersion (ProgramVersion right))
      1 (-1) compareSharesFunc.

Definition CompareForDel (removes : NeedRemoveCans) (left right : Validator) : Z :=
  let compareTxIndexFunc := switch_cmp (StakingTxIndex left) (StakingTxIndex right) 1 (-1) 0 in
  let compareBlockNumberFunc :=
    switch_cmp (StakingBlockNum left) (StakingBlockNum right) 1 (-1) compareTxIndexFunc in
  let compareSharesFunc :=
    switch_cmp (Shares left) (Shares right) (-1) 1 compareBlockNumberFunc in
  let compareTermFunc :=
    switch_cmp (ValidatorTerm left) (ValidatorTerm right) 1 (-1) compareSharesFunc in
  let compareVersionFunc :=
    switch_cmp (CalcVersion (ProgramVersion left)) (CalcVersion (ProgramVersion right))
      (-1) 1 compareTermFunc in
  match removes !! NodeId left, removes !! NodeId right with
  | None, Some _ => -1
  | None, None => compareVersionFunc
  | Some _, None => 1
  | Some lCan, Some rCan =>
      let l := Status lCan in let r := Status rCan in
      if IsDuplicateSign l && negb (IsDuplicateSign r) then 1
      else if negb (IsDuplicateSign l) && IsDuplicateSign r then -1
      else if IsDuplicateSign l && IsDuplicateSign r then compareSharesFunc
      else if IsLowRatioDel l && negb (IsLowRatioDel r) then 1
      else if negb (IsLowRatioDel l) && IsLowRatioDel r then -1
      else if IsLowRatioDel l && IsLowRatioDel r then compareSharesFunc
      else if IsLowRatio l && negb (IsLowRatio r) then 1
      else if negb (IsLowRatio l) && IsLowRatio r then -1
      else if IsLowRatio l && IsLowRatio r then compareSharesFunc
      else compareVersionFunc
  end.

Definition CompareForStore (removes : NeedRemoveCans) (left right : Validator) : Z :=
  let compareTxIndexFunc := switch_cmp (StakingTxIndex left) (StakingTxIndex right) (-1) 1 0 in
  let compareBlockNumberFunc :=
    switch_cmp (StakingBlockNum left) (StakingBlockNum right) (-1) 1 compareTxIndexFunc in
  let compareTermFunc :=
    switch_cmp (ValidatorTerm left) (ValidatorTerm right) 1 (-1) compareBlockNumberFunc in
  switch_cmp (CalcVersion (ProgramVersion left)) (CalcVersion (ProgramVersion right))
    1 (-1) compareTermFunc.

(** ** Quicksort

    Array indices are natural numbers.  The only index the code lets become -1
    is the right end [pivot-1] of an empty range, for which [0] gives the same
    empty range.  The loops carry fuel; [quickSort_enough_fuel] below shows that
    the fuel [ValidatorSort] passes is never used up. *)

Section sort.
Context {A : Type} (compare : A → A → Z).

Definition swap (i j : nat) (arr : list A) : list A :=
  match arr !! i, arr !! j with
  | Some x, Some y => <[i := y]> (<[j := x]> arr)
  | _, _ => arr
  end.

(** [compare(arr[left], arr[right]) >= 0]; both indices are always in range. *)
Definition geAt (arr : list A) (left right : nat) : bool :=
  match arr !! left, arr !! right with
  | Some x, Some y => 0 <=? compare x y
  | _, _ => false
  end.

(** [for left < right && compare(...) >= 0 { right-- }] *)
Fixpoint scanRight (fuel : nat) (arr : list A) (left right : nat) : nat :=
  match fuel with
  | O => right
  | S n => if (left <? right)%nat && geAt arr left right
           then scanRight n arr left (right - 1) else right
  end.

(** [for left < right && compare(...) >= 0 { left++ }] *)
Fixpoint scanLeft (fuel : nat) (arr : list A) (left right : nat) : nat :=
  match fuel with
  | O => left
  | S n => if (left <? right)%nat && geAt arr left right
           then scanLeft n arr (left + 1) right else left
  end.

(** One round of the outer loop of [partition]. *)
Definition partitionStep (arr : list A) (left right : nat) : list A * nat * nat :=
  let right := scanRight (right - left) arr left right in
  let '(arr, l) :=
    if (left <? right)%nat then (swap left right arr, (left + 1)%nat) else (arr, left) in
  let l := scanLeft (right - l) arr l right in
  if (l <? right)%nat then (swap l right arr, l, (right - 1)%nat)
  else (arr, l, right).

Fixpoint partition (fuel : nat) (arr : list A) (left right : nat) : list A * nat :=
  match fuel with
  | O => (arr, left)
  | S n =>
      if (left <? right)%nat then
        let '(arr, l, r) := partitionStep arr left right in
        partition n arr l r
      else (arr, left)
  end.

Fixpoint quickSort (fuel : nat) (arr : list A) (left right : nat) : list A :=
  match fuel with
  | O => arr
  | S n =>
      if (left <? right)%nat then
        let '(arr, pivot) := partition (S (right - left)) arr left right in
        let arr := quickSort n arr left (pivot - 1) in
        quickSort n arr (pivot + 1) right
      else arr
  end.

Definition ValidatorSortBy (arr : list A) : list A :=
  if (length arr <=? 1)%nat then arr
  else quickSort (length arr) arr 0 (length arr - 1).
End sort.

(** A nil comparison function stands for [CompareDefault]. *)
Definition ValidatorSort (removes : NeedRemoveCans)
    (compare : option (NeedRemoveCans → Validator → Validator → Z))
    (arr : list Validator) : list Validator :=
  ValidatorSortBy (default CompareDefault compare removes) arr.

(** ** Correctness of the sort *)

#[local] Open Scope nat_scope.

Lemma swap_lookup {A} (arr : list A) i j x y k :
  arr !! i = Some x → arr !! j = Some y →
  swap i j arr !! k = if decide (k = i) then Some y else if decide (k = j) then Some x
                      else arr !! k.
Proof.
  intros Hi Hj. unfold swap. rewrite Hi, Hj.
  apply lookup_lt_Some in Hi as Li. apply lookup_lt_Some in Hj as Lj.
  rewrite list_lookup_insert, list_lookup_insert, length_insert.
  repeat case_decide; destruct_and?; subst; try done; try lia; exfalso; auto with lia.
Qed.

Lemma swap_length {A} (arr : list A) i j : length (swap i j arr) = length arr.
Proof. unfold swap. repeat case_match; by rewrite ?length_insert. Qed.

Lemma swap_perm {A} (arr : list A) i j : swap i j arr ≡ₚ arr.
Proof.
  destruct (arr !! i) as [x|] eqn:Hi; [|unfold swap; by rewrite Hi].
  destruct (arr !! j) as [y|] eqn:Hj; [|unfold swap; by rewrite Hi, Hj].
  apply Permutation_inj. split; [by rewrite swap_length|].
  exists (λ k, if decide (k = i) then j else if decide (k = j) then i else k). split.
  - intros a b. repeat case_decide; intros; subst; try done; lia.
  - intros k. rewrite (swap_lookup arr i j x y) by done. repeat case_decide; by subst.
Qed.

(** A rearrangement of the cells [L..R] only. *)
Record seg_perm {A} (L R : nat) (arr arr' : list A) : Prop := {
  sp_perm : arr' ≡ₚ arr;
  sp_out : ∀ k, ¬ (L <= k <= R) → arr' !! k = arr !! k;
  sp_in : ∀ k, L <= k <= R → ∃ k', L <= k' <= R ∧ arr' !! k = arr !! k' }.

#[export] Instance seg_perm_preorder {A} L R : PreOrder (@seg_perm A L R).
Proof.
  split.
  - intros arr. split; [done|done|]. intros k Hk. by exists k.
  - intros a1 a2 a3 [P1 O1 I1] [P2 O2 I2]. split.
    + by rewrite P2.
    + intros k Hk. rewrite O2, O1 by done. done.
    + intros k Hk. destruct (I2 k Hk) as (k' & Hk' & ->).
      destruct (I1 k' Hk') as (k'' & ? & ?). eauto.
Qed.

Lemma seg_perm_length {A} L R (arr arr' : list A) :
  seg_perm L R arr arr' → length arr' = length arr.
Proof. intros []. by apply Permutation_length. Qed.

Lemma seg_perm_weaken {A} L R L' R' (arr arr' : list A) :
  L' <= L → R <= R' → seg_perm L R arr arr' → seg_perm L' R' arr arr'.
Proof.
  intros HL HR [P O I]. split; [done|intros k Hk; apply O; lia|].
  intros k Hk. destruct (decide (L <= k <= R)) as [Hin|Hin].
  - destruct (I k Hin) as (k' & ? & ?). exists k'. split; [lia|done].
  - exists k. split; [done|by apply O].
Qed.

Lemma swap_seg {A} L R i j (arr : list A) :
  L <= i <= R → L <= j <= R → seg_perm L R arr (swap i j arr).
Proof.
  intros Hi Hj. destruct (arr !! i) as [x|] eqn:Ei; [|unfold swap; by rewrite Ei].
  destruct (arr !! j) as [y|] eqn:Ej; [|unfold swap; by rewrite Ei, Ej].
  split; [apply swap_perm|..]; intros k Hk; rewrite (swap_lookup arr i j x y) by done.
  - do 2 (case_decide; [lia|]). done.
  - repeat case_decide; eauto.
Qed.

Section sort_correct.
Context {A : Type} (compare : A → A → Z).
Notation "x ≽ y" := (0 <= compare x y)%Z (at level 70).

Lemma geAt_spec arr i j x y :
  arr !! i = Some x → arr !! j = Some y → geAt compare arr i j = true ↔ x ≽ y.
Proof. unfold geAt. intros -> ->. apply Z.leb_le. Qed.

Lemma scanRight_spec n arr l r :
  l <= r → r - l <= n →
  let r' := scanRight compare n arr l r in
  l <= r' <= r
  ∧ (∀ k, r' < k <= r → geAt compare arr l k = true)
  ∧ (l < r' → geAt compare arr l r' = false).
Proof.
  revert r. induction n as [|n IH]; intros r Hlr Hn; cbn [scanRight]; cbv zeta.
  { split; [lia|]. split; intros; lia. }
  destruct (Nat.ltb_spec l r) as [Hlt|Hge]; cbn [andb].
  - destruct (geAt compare arr l r) eqn:E.
    + destruct (IH (r - 1)) as (? & Hk & Hs); [lia|lia|]. split; [lia|]. split; [|done].
      intros k Hk'. destruct (decide (k = r)) as [->|]; [done|]. apply Hk. lia.
    + split; [lia|]. split; [intros; lia|done].
  - split; [lia|]. split; intros; lia.
Qed.

Lemma scanLeft_spec n arr l r :
  l <= r → r - l <= n →
  let l' := scanLeft compare n arr l r in
  l <= l' <= r
  ∧ (∀ k, l <= k < l' → geAt compare arr k r = true)
  ∧ (l' < r → geAt compare arr l' r = false).
Proof.
  revert l. induction n as [|n IH]; intros l Hlr Hn; cbn [scanLeft]; cbv zeta.
  { split; [lia|]. split; intros; lia. }
  destruct (Nat.ltb_spec l r) as [Hlt|Hge]; cbn [andb].
  - destruct (geAt compare arr l r) eqn:E.
    + destruct (IH (l + 1)) as (? & Hk & Hs); [lia|lia|]. split; [lia|]. split; [|done].
      intros k Hk'. destruct (decide (k = l)) as [->|]; [done|]. apply Hk. lia.
    + split; [lia|]. split; [intros; lia|done].
  - split; [lia|]. split; intros; lia.
Qed.

(** Pivot [p] sits at [l]; the cells of [L..R] left of [l] are not below it, the
    cells right of [r] not above it. *)
Record part_inv (L R : nat) (p : A) (arr : list A) (l r : nat) : Prop := {
  pi_range : L <= l <= r ∧ r <= R;
  pi_len : R < length arr;
  pi_pivot : arr !! l = Some p;
  pi_left : ∀ k x, L <= k < l → arr !! k = Some x → x ≽ p;
  pi_right : ∀ k x, r < k <= R → arr !! k = Some x → p ≽ x }.

Context (total : ∀ x y, x ≽ y ∨ y ≽ x).

(** Read a failed comparison at two cells as the opposite order. *)
Lemma geAt_false arr i j x y :
  arr !! i = Some x → arr !! j = Some y → geAt compare arr i j = false → y ≽ x.
Proof using total.
  intros Hi Hj Hg. destruct (total x y) as [H|H]; [|done].
  apply (geAt_spec arr i j x y Hi Hj) in H. congruence.
Qed.

Lemma partitionStep_spec L R p arr l r :
  part_inv L R p arr l r → l < r →
  let '(arr', l', r') := partitionStep compare arr l r in
  part_inv L R p arr' l' r' ∧ r' - l' < r - l ∧ seg_perm L R arr arr'.
Proof using total.
  intros [Hrg Hlen Hp HL HR] Hlt. unfold partitionStep. cbv zeta.
  destruct (scanRight_spec (r - l) arr l r) as (Hr1 & Hk1 & Hs1); [lia|lia|].
  set (r1 := scanRight _ _ _ _ _) in *.
  assert (HR1 : ∀ k x, r1 < k <= R → arr !! k = Some x → p ≽ x).
  { intros k x Hk Hx. destruct (decide (k <= r)); [|apply (HR k); [lia|done]].
    apply (geAt_spec arr l k p x Hp Hx). apply Hk1. lia. }
  destruct (Nat.ltb_spec l r1) as [Hlt1|Hge1].
  2: { assert (r1 = l) as -> by lia. cbv beta iota. rewrite Nat.sub_diag. cbn [scanLeft].
       rewrite Nat.ltb_irrefl. split; [|split; [lia|done]]. by split; [lia|..]. }
  destruct (lookup_lt_is_Some_2 arr r1) as [y Hy]; [lia|].
  pose proof (geAt_false arr l r1 p y Hp Hy (Hs1 Hlt1)) as Hyp.
  pose proof (swap_lookup arr l r1 p y) as Hsw.
  set (arr1 := swap l r1 arr) in *.
  assert (Hseg1 : seg_perm L R arr arr1) by (apply swap_seg; lia).
  assert (Hp1 : arr1 !! r1 = Some p).
  { rewrite Hsw by done. case_decide; [lia|]. by rewrite decide_True. }
  assert (HL1 : ∀ k x, L <= k < l + 1 → arr1 !! k = Some x → x ≽ p).
  { intros k x Hk. rewrite Hsw by done. repeat case_decide; [by intros [= <-]|lia|].
    apply HL. lia. }
  assert (HR2 : ∀ k x, r1 < k <= R → arr1 !! k = Some x → p ≽ x).
  { intros k x Hk. rewrite Hsw by done. do 2 (case_decide; [lia|]). by apply HR1. }
  destruct (scanLeft_spec (r1 - (l + 1)) arr1 (l + 1) r1) as (Hl2 & Hk2 & Hs2); [lia|lia|].
  set (l2 := scanLeft _ _ _ _ _) in *.
  assert (HL2 : ∀ k x, L <= k < l2 → arr1 !! k = Some x → x ≽ p).
  { intros k x Hk Hx. destruct (decide (k < l + 1)); [by apply (HL1 k); [lia|]|].
    apply (geAt_spec arr1 k r1 x p Hx Hp1). apply Hk2. lia. }
  assert (Hlen1 : R < length arr1) by (unfold arr1; by rewrite swap_length).
  destruct (Nat.ltb_spec l2 r1) as [Hlt2|Hge2].
  2: { assert (l2 = r1) as -> by lia. split; [|split; [lia|done]]. by split; [lia|..]. }
  destruct (lookup_lt_is_Some_2 arr1 l2) as [z Hz]; [lia|].
  pose proof (geAt_false arr1 l2 r1 z p Hz Hp1 (Hs2 Hlt2)) as Hpz.
  pose proof (swap_lookup arr1 l2 r1 z p) as Hsw2.
  split; [|split; [lia|]].
  2: { etrans; [exact Hseg1|]. apply swap_seg; lia. }
  split; [lia|by rewrite swap_length|..].
  - rewrite Hsw2 by done. by rewrite decide_True.
  - intros k x Hk. rewrite Hsw2 by done. do 2 (case_decide; [lia|]). by apply HL2.
  - intros k x Hk. rewrite Hsw2 by done.
    repeat case_decide; [lia|by intros [= <-]|]. apply HR2. lia.
Qed.

Lemma partition_spec L R p fuel arr l r :
  part_inv L R p arr l r → r - l < fuel →
  let '(arr', q) := partition compare fuel arr l r in
  part_inv L R p arr' q q ∧ seg_perm L R arr arr'.
Proof using total.
  revert arr l r. induction fuel as [|n IH]; intros arr l r Hinv Hf; [lia|].
  cbn [partition]. destruct (Nat.ltb_spec l r) as [Hlt|Hge].
  - pose proof (partitionStep_spec L R p arr l r Hinv Hlt) as Hs.
    destruct (partitionStep compare arr l r) as [[arr1 l1] r1]. destruct Hs as (H1 & H2 & H3).
    pose proof (IH arr1 l1 r1 H1 ltac:(lia)) as Hi.
    destruct (partition compare n arr1 l1 r1) as [arr2 q]. destruct Hi as [? ?].
    split; [done|]. by etrans.
  - split; [|done]. pose proof (pi_range _ _ _ _ _ _ Hinv). by assert (r = l) as -> by lia.
Qed.

Context (trans : ∀ x y z, x ≽ y → y ≽ z → x ≽ z).

Definition seg_sorted (L R : nat) (arr : list A) : Prop :=
  ∀ i j x y, L <= i → i < j → j <= R → arr !! i = Some x → arr !! j = Some y → x ≽ y.

Lemma seg_sorted_join L R q p arr :
  arr !! q = Some p →
  seg_sorted L (q - 1) arr → seg_sorted (q + 1) R arr →
  (∀ k x, L <= k < q → arr !! k = Some x → x ≽ p) →
  (∀ k x, q < k <= R → arr !! k = Some x → p ≽ x) →
  seg_sorted L R arr.
Proof using trans.
  intros Hmid Hs1 Hs2 Hleft Hright i j x y Hi Hij Hj Hx Hy.
  destruct (decide (j < q)); [apply (Hs1 i j); try done; lia|].
  destruct (decide (q < i)); [apply (Hs2 i j); try done; lia|].
  destruct (decide (i = q)) as [->|].
  { rewrite Hmid in Hx. injection Hx as <-. apply (Hright j); [lia|done]. }
  destruct (decide (j = q)) as [->|].
  { rewrite Hmid in Hy. injection Hy as <-. apply (Hleft i); [lia|done]. }
  apply (trans x p y); [apply (Hleft i); [lia|done]|apply (Hright j); [lia|done]].
Qed.

Lemma quickSort_spec fuel arr L R :
  R < length arr → R - L < fuel ∨ R <= L →
  seg_perm L R arr (quickSort compare fuel arr L R)
  ∧ seg_sorted L R (quickSort compare fuel arr L R).
Proof using total trans.
  revert arr L R. induction fuel as [|n IH]; intros arr L R Hlen Hf; cbn [quickSort].
  { split; [done|]. intros i j x y ? ? ?. lia. }
  destruct (Nat.ltb_spec L R) as [Hlt|Hge].
  2: { split; [done|]. intros i j x y ? ? ?. lia. }
  destruct (lookup_lt_is_Some_2 arr L) as [p Hp]; [lia|].
  pose proof (partition_spec L R p (S (R - L)) arr L R) as Hpart.
  destruct (partition compare _ arr L R) as [arr1 q].
  destruct Hpart as [[Hrg Hlen1 Hq HL HR] Hseg1]; [split; [lia|done|done|intros; lia..]|lia|].
  destruct (IH arr1 L (q - 1)) as [Hseg2 Hs2]; [lia|lia|].
  set (arr2 := quickSort compare n arr1 L (q - 1)) in *.
  pose proof (seg_perm_length _ _ _ _ Hseg2) as Hlen2.
  destruct (IH arr2 (q + 1) R) as [Hseg3 Hs3]; [lia|lia|].
  set (arr3 := quickSort compare n arr2 (q + 1) R) in *.
  split.
  { etrans; [exact Hseg1|]. etrans; [apply (seg_perm_weaken L (q - 1)); [done|lia|done]|].
    apply (seg_perm_weaken (q + 1) R); [lia|done|done]. }
  assert (Hout2 : ∀ k, q <= k → arr2 !! k = arr1 !! k).
  { intros k Hk. destruct (decide (q = 0)) as [->|]; [|by apply Hseg2; lia].
    unfold arr2. destruct n; cbn [quickSort]; [done|].
    destruct (Nat.ltb_spec L (0 - 1)); [lia|done]. }
  assert (Hmid : arr3 !! q = Some p).
  { rewrite (sp_out _ _ _ _ Hseg3) by lia. rewrite Hout2 by lia. done. }
  assert (Hleft : ∀ k x, L <= k < q → arr3 !! k = Some x → x ≽ p).
  { intros k x Hk. rewrite (sp_out _ _ _ _ Hseg3) by lia.
    destruct (sp_in _ _ _ _ Hseg2 k ltac:(lia)) as (k' & ? & ->). apply HL. lia. }
  assert (Hright : ∀ k x, q < k <= R → arr3 !! k = Some x → p ≽ x).
  { intros k x Hk. destruct (sp_in _ _ _ _ Hseg3 k ltac:(lia)) as (k' & ? & ->).
    rewrite Hout2 by lia. apply HR. lia. }
  apply (seg_sorted_join L R q p); try done.
  intros i j x y Hi Hij Hj. rewrite !(sp_out _ _ _ _ Hseg3) by lia. by apply Hs2.
Qed.

Lemma ValidatorSortBy_spec arr :
  ValidatorSortBy compare arr ≡ₚ arr
  ∧ ∀ i j x y, i < j → ValidatorSortBy compare arr !! i = Some x →
      ValidatorSortBy compare arr !! j = Some y → x ≽ y.
Proof using total trans.
  unfold ValidatorSortBy. destruct (Nat.leb_spec (length arr) 1) as [Hl|Hl].
  - split; [done|]. intros i j x y Hij _ Hy. apply lookup_lt_Some in Hy. lia.
  - destruct (quickSort_spec (length arr) arr 0 (length arr - 1)) as [Hp Hs]; [lia|lia|].
    split; [apply Hp|]. intros i j x y Hij Hx Hy. apply (Hs i j); try done; [lia|].
    apply lookup_lt_Some in Hy. rewrite (seg_perm_length _ _ _ _ Hp) in Hy. lia.
Qed.
End sort_correct.

(** ** Fuel *)

Lemma partition_length {A} (compare : A → A → Z) n arr l r :
  length (partition compare n arr l r).1 = length arr.
Proof.
  revert arr l r. induction n as [|n IH]; intros arr l r; cbn [partition]; [done|].
  case_match; [|done]. unfold partitionStep. cbv zeta.
  repeat case_match; simplify_eq; rewrite IH, ?swap_length; done.
Qed.

Lemma quickSort_length {A} (compare : A → A → Z) n arr l r :
  length (quickSort compare n arr l r) = length arr.
Proof.
  revert arr l r. induction n as [|n IH]; intros arr l r; cbn [quickSort]; [done|].
  case_match; [|done]. destruct (partition _ _ _ _ _) as [arr1 q] eqn:E.
  rewrite !IH. change arr1 with (arr1, q).1. rewrite <- E. apply partition_length.
Qed.

Section fuel.
Context {A : Type} (compare : A → A → Z) (total : ∀ x y, (0 <= compare x y ∨ 0 <= compare y x)%Z).

Lemma partition_fuel n m L R p arr l r :
  part_inv compare L R p arr l r → r - l < n → r - l < m →
  partition compare n arr l r = partition compare m arr l r.
Proof using total.
  revert m arr l r. induction n as [|n IH]; intros m arr l r Hinv Hn Hm; [lia|].
  destruct m as [|m]; [lia|]. cbn [partition].
  destruct (Nat.ltb_spec l r) as [Hlt|]; [|done].
  pose proof (partitionStep_spec compare total L R p arr l r Hinv Hlt) as Hs.
  destruct (partitionStep compare arr l r) as [[arr1 l1] r1]. destruct Hs as (? & ? & _).
  apply IH; [done|lia|lia].
Qed.

(** Any fuel above the size of the range gives the same array: the recursion of
    the code terminates and the bound in [ValidatorSortBy] is not a cut-off. *)
Lemma quickSort_enough_fuel n m arr L R :
  R < length arr → R - L < n → R - L < m →
  quickSort compare n arr L R = quickSort compare m arr L R.
Proof using total.
  revert m arr L R. induction n as [|n IH]; intros m arr L R Hlen Hn Hm; [lia|].
  destruct m as [|m]; [lia|]. cbn [quickSort].
  destruct (Nat.ltb_spec L R) as [Hlt|]; [|done].
  destruct (lookup_lt_is_Some_2 arr L) as [p Hp]; [lia|].
  pose proof (partition_spec compare total L R p (S (R - L)) arr L R) as Hpart.
  destruct (partition compare _ arr L R) as [arr1 q].
  destruct Hpart as [[Hrg Hlen1 _ _ _] Hseg]; [split; [lia|done|done|intros; lia..]|lia|].
  rewrite (IH m arr1) by lia.
  pose proof (quickSort_length compare m arr1 L (q - 1)).
  destruct (decide (R < q + 1)) as [HR|HR]; [|apply IH; lia].
  destruct n, m; cbn [quickSort]; try done;
    destruct (Nat.ltb_spec (q + 1) R); (lia || done).
Qed.
End fuel.

(** ** The comparison functions are total preorders

    Each is the lexicographic comparison of a list of integers computed from the
    validator alone. *)

#[local] Close Scope nat_scope.

Fixpoint lexz (k l : list Z) : Z :=
  match k, l with
  | a :: k, b :: l => switch_cmp a b 1 (-1) (lexz k l)
  | _, _ => 0
  end.

Lemma lexz_total k l : 0 <= lexz k l ∨ 0 <= lexz l k.
Proof.
  revert l. induction k as [|a k IH]; intros [|b l]; cbn; try lia. unfold switch_cmp.
  destruct (Z.ltb_spec b a), (Z.ltb_spec a b); try lia. apply IH.
Qed.

Lemma lexz_trans k l m :
  length k = length l → length l = length m →
  0 <= lexz k l → 0 <= lexz l m → 0 <= lexz k m.
Proof.
  revert l m. induction k as [|a k IH]; intros [|b l] [|c m] H1 H2; try done.
  cbn in *. unfold switch_cmp.
  destruct (Z.ltb_spec b a), (Z.ltb_spec a b), (Z.ltb_spec c b), (Z.ltb_spec b c),
    (Z.ltb_spec c a), (Z.ltb_spec a c); try lia; intros; apply (IH l m); lia.
Qed.

Definition isRemoved (removes : NeedRemoveCans) (v : Validator) : bool :=
  bool_decide (is_Some (removes !! NodeId v)).

Definition keyDefault (removes : NeedRemoveCans) (v : Validator) : list Z :=
  [ (if isRemoved removes v then 0 else 1); CalcVersion (ProgramVersion v); Shares v;
    - StakingBlockNum v; - StakingTxIndex v ].

Definition keyForStore (v : Validator) : list Z :=
  [ CalcVersion (ProgramVersion v); ValidatorTerm v;
    - StakingBlockNum v; - StakingTxIndex v ].

(** Why a candidate leaves, the gravest reason first. *)
Definition removalTier (status : Z) : Z :=
  if IsDuplicateSign status then 3
  else if IsLowRatioDel status then 2
  else if IsLowRatio status then 1
  else 0.

(** Version and term do not count for a candidate that leaves for a fault. *)
Definition keyForDel (removes : NeedRemoveCans) (v : Validator) : list Z :=
  let tier := match removes !! NodeId v with Some c => removalTier (Status c) | None => 0 end in
  [ (if isRemoved removes v then 1 else 0); tier;
    (if tier =? 0 then - CalcVersion (ProgramVersion v) else 0);
    (if tier =? 0 then ValidatorTerm v else 0);
    - Shares v; StakingBlockNum v; StakingTxIndex v ].

Lemma switch_cmp_opp l r d : switch_cmp (- l) (- r) 1 (-1) d = switch_cmp l r (-1) 1 d.
Proof.
  unfold switch_cmp.
  destruct (Z.ltb_spec (-r) (-l)), (Z.ltb_spec (-l) (-r)), (Z.ltb_spec r l),
    (Z.ltb_spec l r); lia.
Qed.

Lemma CompareDefault_lexz removes v w :
  CompareDefault removes v w = lexz (keyDefault removes v) (keyDefault removes w).
Proof.
  unfold CompareDefault, keyDefault, isRemoved. cbn [lexz]. rewrite !switch_cmp_opp.
  by destruct (bool_decide (is_Some (removes !! NodeId v))),
    (bool_decide (is_Some (removes !! NodeId w))).
Qed.

Lemma CompareForStore_lexz removes v w :
  CompareForStore removes v w = lexz (keyForStore v) (keyForStore w).
Proof. unfold CompareForStore, keyForStore. cbn [lexz]. by rewrite !switch_cmp_opp. Qed.

Lemma CompareForDel_lexz removes v w :
  CompareForDel removes v w = lexz (keyForDel removes v) (keyForDel removes w).
Proof.
  unfold CompareForDel, keyForDel, isRemoved, removalTier. cbn [lexz].
  destruct (removes !! NodeId v) as [c|], (removes !! NodeId w) as [d|]; cbn;
    rewrite ?switch_cmp_opp; try done.
  by destruct (IsDuplicateSign (Status c)), (IsDuplicateSign (Status d)),
    (IsLowRatioDel (Status c)), (IsLowRatioDel (Status d)),
    (IsLowRatio (Status c)), (IsLowRatio (Status d)); cbn; rewrite ?switch_cmp_opp.
Qed.

(** The comparison functions the code sorts with. *)
Inductive sorting_compare : option (NeedRemoveCans → Validator → Validator → Z) → Prop :=
  | sc_nil : sorting_compare None
  | sc_default : sorting_compare (Some CompareDefault)
  | sc_del : sorting_compare (Some CompareForDel)
  | sc_store : sorting_compare (Some CompareForStore).

Lemma sorting_compare_key compare removes :
  sorting_compare compare →
  ∃ key : Validator → list Z, (∀ v w, length (key v) = length (key w)) ∧
    ∀ v w, default CompareDefault compare removes v w = lexz (key v) (key w).
Proof.
  intros [| | |]; cbn.
  - exists (keyDefault removes). split; [done|]. apply CompareDefault_lexz.
  - exists (keyDefault removes). split; [done|]. apply CompareDefault_lexz.
  - exists (keyForDel removes). split; [done|]. apply CompareForDel_lexz.
  - exists keyForStore. split; [done|]. apply CompareForStore_lexz.
Qed.

Lemma sorting_compare_total compare removes :
  sorting_compare compare →
  ∀ v w, 0 <= default CompareDefault compare removes v w
         ∨ 0 <= default CompareDefault compare removes w v.
Proof.
  intros (key & _ & Hk)%(sorting_compare_key compare removes) v w. rewrite !Hk.
  apply lexz_total.
Qed.

Lemma sorting_compare_trans compare removes :
  sorting_compare compare →
  ∀ u v w, 0 <= default CompareDefault compare removes u v →
    0 <= default CompareDefault compare removes v w →
    0 <= default CompareDefault compare removes u w.
Proof.
  intros (key & Hl & Hk)%(sorting_compare_key compare removes) u v w. rewrite !Hk.
  apply lexz_trans; apply Hl.
Qed.

(** ** Properties *)

(** C26: [ValidatorSort], with any of the comparison functions of the code, ends
    with a rearrangement of the given validators in descending order of the
    comparison. *)
Theorem ValidatorSort_correct removes compare arr :
  sorting_compare compare →
  ValidatorSort removes compare arr ≡ₚ arr
  ∧ ∀ i j x y, (i < j)%nat →
      ValidatorSort removes compare arr !! i = Some x →
      ValidatorSort removes compare arr !! j = Some y →
      0 <= default CompareDefault compare removes x y.
Proof.
  intros Hc. apply ValidatorSortBy_spec.
  - by apply sorting_compare_total.
  - by apply sorting_compare_trans.
Qed.

Definition demo_validator (id shares : Z) : Validator :=
  {| ProgramVersion := 65536; StakingTxIndex := 0; ValidatorTerm := 0;
     StakingBlockNum := 1; NodeAddress := id; NodeId := id; BlsPubKey := id;
     Shares := shares |}.

Lemma ValidatorSort_correct_witness :
  ValidatorSort ∅ None [demo_validator 1 5; demo_validator 2 9; demo_validator 3 7]
  ≡ₚ [demo_validator 1 5; demo_validator 2 9; demo_validator 3 7]
  ∧ NodeId <$> ValidatorSort ∅ None
      [demo_validator 1 5; demo_validator 2 9; demo_validator 3 7] = [2; 3; 1].
Proof.
  split; [|by vm_compute]. apply (ValidatorSort_correct ∅ None), sc_nil.
Defined.

Lemma CompareForDel_removed removes v w :
  0 <= CompareForDel removes v w → isRemoved removes w = true → isRemoved removes v = true.
Proof.
  unfold CompareForDel, isRemoved.
  destruct (removes !! NodeId v) eqn:Ev, (removes !! NodeId w) eqn:Ew; done.
Qed.

Lemma sorted_prefix (P : Validator → bool) (l : list Validator) :
  (∀ i j x y, (i < j)%nat → l !! i = Some x → l !! j = Some y → P y = true → P x = true) →
  drop (length (filter P l)) l = filter (λ v, negb (P v)) l.
Proof.
  induction l as [|v l IH]; intros H; [done|]. rewrite !filter_cons.
  assert (Hl : ∀ i j x y, (i < j)%nat → l !! i = Some x → l !! j = Some y →
    P y = true → P x = true) by (intros i j x y ?; apply (H (S i) (S j)); lia).
  destruct (P v) eqn:Pv; cbn; [by apply IH|].
  assert (Hf : filter P l = []).
  { destruct (filter P l) as [|w k] eqn:E; [done|]. exfalso.
    assert (Hw : w ∈ filter P l) by (rewrite E; left).
    apply list_elem_of_filter in Hw as [Pw [j Hj]%list_elem_of_lookup].
    specialize (H 0%nat (S j) v w ltac:(lia) eq_refl Hj).
    rewrite H in Pv; [done|]. by apply Is_true_eq_true. }
  rewrite Hf. cbn. f_equal. rewrite <- IH by done. by rewrite Hf.
Qed.

(** Sorting for deletion puts exactly the validators that must leave in
    front: cutting off as many validators as are in [removes] leaves exactly the
    validators that stay.  The election relies on this when it drops the first
    [invalidLen] entries of the current validator queue. *)
Lemma CompareForDel_cut removes arr :
  let sorted := ValidatorSort removes (Some CompareForDel) arr in
  drop (length (filter (isRemoved removes) arr)) sorted
  ≡ₚ filter (λ v, negb (isRemoved removes v)) arr.
Proof.
  cbv zeta. destruct (ValidatorSortBy_spec (CompareForDel removes)
    (sorting_compare_total (Some CompareForDel) removes sc_del)
    (sorting_compare_trans (Some CompareForDel) removes sc_del) arr) as [Hp Hs].
  unfold ValidatorSort; cbn [default from_option id]. rewrite <- Hp at 1.
  rewrite sorted_prefix; [by rewrite Hp|].
  intros i j x y Hij Hx Hy. apply CompareForDel_removed. by apply (Hs i j).
Qed.
