(* ===== verification/StakingDB.v ===== *)
(** * The snapshot database of the staking components (src/pos/staking/staking_db.go)

    [SnapshotDB] is the view of the database at the block being executed, with
    one typed map per kind of record; [World] adds the state of the accounts.
    Reading a missing record is [DbNotFound].  RLP refuses negative integers, so
    storing a record with a negative amount is an error.

    [Env] is what the staking code asks of other parts of the node while it
    executes a block: the governance parameters, the governance votes of a node
    and the address of a node id. *)

From S2P Require Import Prelude Xcom Xutil StateDB Keys StakingTypes.

(** ** What staking asks of governance and of the crypto library *)

Class Env := {
  ec : EconomicModel;
  (** secp256k1 key recovery and hashing: [xutil.NodeId2Addr] *)
  NodeId2Addr : Z → outcome Z;
  (** governed parameters at a block number *)
  GovernStakeThreshold : Z → outcome Z;
  GovernOperatingThreshold : Z → outcome Z;
  GovernUnStakeFreezeDuration : Z → outcome Z;
  GovernZeroProduceFreezeDuration : Z → outcome Z;
  GovernMaxEvidenceAge : Z → outcome Z;
  GovernMaxValidators : Z → outcome Z;
  GovernIncreaseIssuanceRatio : Z → outcome Z;
  GovernSlashFractionDuplicateSign : Z → outcome Z;
  GovernDuplicateSignReportReward : Z → outcome Z;
  GovernZeroProduceNumberThreshold : Z → outcome Z;
  GovernZeroProduceCumulativeTime : Z → outcome Z;
  GovernSlashBlocksReward : Z → outcome Z;
  (** the version a staking node must have, and the active one *)
  GetVersionForStaking : Z;
  GetCurrentActiveVersion : Z;
  (** the last block of a vote the node takes part in, 0 if there is none *)
  GetMaxEndVotingBlock : Z → outcome Z;
  (** governance is told which verifiers were punished *)
  NotifyPunishedVerifiers : list Z → outcome unit }.

(** ** Reward records (src/pos/reward/reward_type.go) *)

Record DelegateRewardPer := {
  Left : Z;
  perEpoch : Z;
  perDelegate : Z;
  perReward : Z }.

Record DelegateRewardReceipt := {
  receiptDelegate : Z;
  receiptEpoch : Z }.

(** ** Records of the slashing plugin (src/pos/plugin/slashing_plugin.go) *)

(** A node with rounds without blocks: the first one, and a bit for each round
    from it on. *)
Record WaitSlashingNode := {
  wsNodeId : Z;
  wsRound : Z;
  wsCountBit : Z }.

(** Blocks packed by a node in a round, and the nodes that wait for a slash. *)
Record SlashStore := {
  packAmounts : gmap (Z * Z) Z;
  waitList : option (list WaitSlashingNode) }.

(** ** Single values of the reward plugin *)

Record RewardStore := {
  newBlockRewardValue : option Z;
  stakingRewardValue : option Z;
  remainingRewardValue : option Z;
  chainYearNumberValue : option Z }.

(** ** The database *)

(** The sort fields of a candidate power key; the version is the large one. *)
Definition PowerKey : Type := Z * Z * Z * Z * Z.

Record SnapshotDB := {
  canBases : gmap Z CandidateBase;
  canMutables : gmap Z CandidateMutable;
  canPowers : gmap PowerKey Z;
  unStakeCounts : gmap Z Z;
  unStakeItems : gmap (Z * Z) UnStakeItem;
  delegates : gmap (Z * Z * Z) Delegation;
  epochValIndex : option (list ValArrIndex);
  epochValArrs : gmap (Z * Z) (list Validator);
  roundValIndex : option (list ValArrIndex);
  roundValArrs : gmap (Z * Z) (list Validator);
  accountStakeRcs : gmap Z Z;
  roundValAddrs : gmap Z (list Z);
  roundAddrBoundary : option Z;
  (** under node address, staking block and epoch / 1000 *)
  rewardPers : gmap (Z * Z * Z) (list DelegateRewardPer);
  slashStore : SlashStore;
  rewardStore : RewardStore }.

Record World := {
  stateDB : StateDB;
  snapDB : SnapshotDB }.

Definition with_state (f : StateDB → StateDB) (w : World) : World :=
  {| stateDB := f (stateDB w); snapDB := snapDB w |}.

Definition with_db (f : SnapshotDB → SnapshotDB) (w : World) : World :=
  {| stateDB := stateDB w; snapDB := f (snapDB w) |}.

(** Run an operation of the account state inside a staking handler. *)
Definition on_state {A} (m : M StateDB A) : M World A := λ w,
  let '(r, s) := m (stateDB w) in (r, {| stateDB := s; snapDB := snapDB w |}).

Section setters.
Context (d : SnapshotDB).

Definition set_canBases v := {| canBases := v; canMutables := canMutables d;
  canPowers := canPowers d; unStakeCounts := unStakeCounts d;
  unStakeItems := unStakeItems d; delegates := delegates d;
  epochValIndex := epochValIndex d; epochValArrs := epochValArrs d;
  roundValIndex := roundValIndex d; roundValArrs := roundValArrs d;
  accountStakeRcs := accountStakeRcs d; roundValAddrs := roundValAddrs d;
  roundAddrBoundary := roundAddrBoundary d; rewardPers := rewardPers d;
  slashStore := slashStore d; rewardStore := rewardStore d |}.

Definition set_canMutables v := {| canBases := canBases d; canMutables := v;
  canPowers := canPowers d; unStakeCounts := unStakeCounts d;
  unStakeItems := unStakeItems d; delegates := delegates d;
  epochValIndex := epochValIndex d; epochValArrs := epochValArrs d;
  roundValIndex := roundValIndex d; roundValArrs := roundValArrs d;
  accountStakeRcs := accountStakeRcs d; roundValAddrs := roundValAddrs d;
  roundAddrBoundary := roundAddrBoundary d; rewardPers := rewardPers d;
  slashStore := slashStore d; rewardStore := rewardStore d |}.

Definition set_canPowers v := {| canBases := canBases d; canMutables := canMutables d;
  canPowers := v; unStakeCounts := unStakeCounts d;
  unStakeItems := unStakeItems d; delegates := delegates d;
  epochValIndex := epochValIndex d; epochValArrs := epochValArrs d;
  roundValIndex := roundValIndex d; roundValArrs := roundValArrs d;
  accountStakeRcs := accountStakeRcs d; roundValAddrs := roundValAddrs d;
  roundAddrBoundary := roundAddrBoundary d; rewardPers := rewardPers d;
  slashStore := slashStore d; rewardStore := rewardStore d |}.

Definition set_unStakeCounts v := {| canBases := canBases d;
  canMutables := canMutables d; canPowers := canPowers d; unStakeCounts := v;
  unStakeItems := unStakeItems d; delegates := delegates d;
  epochValIndex := epochValIndex d; epochValArrs := epochValArrs d;
  roundValIndex := roundValIndex d; roundValArrs := roundValArrs d;
  accountStakeRcs := accountStakeRcs d; roundValAddrs := roundValAddrs d;
  roundAddrBoundary := roundAddrBoundary d; rewardPers := rewardPers d;
  slashStore := slashStore d; rewardStore := rewardStore d |}.

Definition set_unStakeItems v := {| canBases := canBases d;
  canMutables := canMutables d; canPowers := canPowers d;
  unStakeCounts := unStakeCounts d; unStakeItems := v; delegates := delegates d;
  epochValIndex := epochValIndex d; epochValArrs := epochValArrs d;
  roundValIndex := roundValIndex d; roundValArrs := roundValArrs d;
  accountStakeRcs := accountStakeRcs d; roundValAddrs := roundValAddrs d;
  roundAddrBoundary := roundAddrBoundary d; rewardPers := rewardPers d;
  slashStore := slashStore d; rewardStore := rewardStore d |}.

Definition set_delegates v := {| canBases := canBases d;
  canMutables := canMutables d; canPowers := canPowers d;
  unStakeCounts := unStakeCounts d; unStakeItems := unStakeItems d; delegates := v;
  epochValIndex := epochValIndex d; epochValArrs := epochValArrs d;
  roundValIndex := roundValIndex d; roundValArrs := roundValArrs d;
  accountStakeRcs := accountStakeRcs d; roundValAddrs := roundValAddrs d;
  roundAddrBoundary := roundAddrBoundary d; rewardPers := rewardPers d;
  slashStore := slashStore d; rewardStore := rewardStore d |}.

Definition set_epochVals i v := {| canBases := canBases d;
  canMutables := canMutables d; canPowers := canPowers d;
  unStakeCounts := unStakeCounts d; unStakeItems := unStakeItems d;
  delegates := delegates d; epochValIndex := i; epochValArrs := v;
  roundValIndex := roundValIndex d; roundValArrs := roundValArrs d;
  accountStakeRcs := accountStakeRcs d; roundValAddrs := roundValAddrs d;
  roundAddrBoundary := roundAddrBoundary d; rewardPers := rewardPers d;
  slashStore := slashStore d; rewardStore := rewardStore d |}.

Definition set_roundVals i v := {| canBases := canBases d;
  canMutables := canMutables d; canPowers := canPowers d;
  unStakeCounts := unStakeCounts d; unStakeItems := unStakeItems d;
  delegates := delegates d; epochValIndex := epochValIndex d;
  epochValArrs := epochValArrs d; roundValIndex := i; roundValArrs := v;
  accountStakeRcs := accountStakeRcs d; roundValAddrs := roundValAddrs d;
  roundAddrBoundary := roundAddrBoundary d; rewardPers := rewardPers d;
  slashStore := slashStore d; rewardStore := rewardStore d |}.

Definition set_accountStakeRcs v := {| canBases := canBases d;
  canMutables := canMutables d; canPowers := canPowers d;
  unStakeCounts := unStakeCounts d; unStakeItems := unStakeItems d;
  delegates := delegates d; epochValIndex := epochValIndex d;
  epochValArrs := epochValArrs d; roundValIndex := roundValIndex d;
  roundValArrs := roundValArrs d; accountStakeRcs := v; roundValAddrs := roundValAddrs d;
  roundAddrBoundary := roundAddrBoundary d; rewardPers := rewardPers d;
  slashStore := slashStore d; rewardStore := rewardStore d |}.

Definition set_roundValAddrs v b := {| canBases := canBases d;
  canMutables := canMutables d; canPowers := canPowers d;
  unStakeCounts := unStakeCounts d; unStakeItems := unStakeItems d;
  delegates := delegates d; epochValIndex := epochValIndex d;
  epochValArrs := epochValArrs d; roundValIndex := roundValIndex d;
  roundValArrs := roundValArrs d; accountStakeRcs := accountStakeRcs d;
  roundValAddrs := v; roundAddrBoundary := b; rewardPers := rewardPers d;
  slashStore := slashStore d; rewardStore := rewardStore d |}.

Definition set_rewardPers v := {| canBases := canBases d;
  canMutables := canMutables d; canPowers := canPowers d;
  unStakeCounts := unStakeCounts d; unStakeItems := unStakeItems d;
  delegates := delegates d; epochValIndex := epochValIndex d;
  epochValArrs := epochValArrs d; roundValIndex := roundValIndex d;
  roundValArrs := roundValArrs d; accountStakeRcs := accountStakeRcs d;
  roundValAddrs := roundValAddrs d; roundAddrBoundary := roundAddrBoundary d;
  rewardPers := v; slashStore := slashStore d; rewardStore := rewardStore d |}.

Definition set_slashStore v := {| canBases := canBases d;
  canMutables := canMutables d; canPowers := canPowers d;
  unStakeCounts := unStakeCounts d; unStakeItems := unStakeItems d;
  delegates := delegates d; epochValIndex := epochValIndex d;
  epochValArrs := epochValArrs d; roundValIndex := roundValIndex d;
  roundValArrs := roundValArrs d; accountStakeRcs := accountStakeRcs d;
  roundValAddrs := roundValAddrs d; roundAddrBoundary := roundAddrBoundary d;
  rewardPers := rewardPers d; slashStore := v; rewardStore := rewardStore d |}.

Definition set_rewardStore v := {| canBases := canBases d;
  canMutables := canMutables d; canPowers := canPowers d;
  unStakeCounts := unStakeCounts d; unStakeItems := unStakeItems d;
  delegates := delegates d; epochValIndex := epochValIndex d;
  epochValArrs := epochValArrs d; roundValIndex := roundValIndex d;
  roundValArrs := roundValArrs d; accountStakeRcs := accountStakeRcs d;
  roundValAddrs := roundValAddrs d; roundAddrBoundary := roundAddrBoundary d;
  rewardPers := rewardPers d; slashStore := slashStore d; rewardStore := v |}.
End setters.

(** [db.Get]: a missing record is [ErrNotFound]. *)
Definition db_get {A} (f : SnapshotDB → option A) : M World A :=
  o ← gets (λ w, f (snapDB w));
  match o with Some a => mret a | None => fail DbNotFound end.

(** Every error of the call is answered with [e]. *)
Definition or_else {A} (m : M World A) (e : Error) : M World A :=
  r ← try m;
  match r with inl a => mret a | inr _ => fail e end.

(** The shape [if snapshotdb.NonDbNotFoundErr(err) { return err }]: a missing
    record is [None], every other error leaves the handler. *)
Definition get_opt {A} (m : M World A) : M World (option A) :=
  r ← try m;
  match r with
  | inl a => mret (Some a)
  | inr e => if bool_decide (e = DbNotFound) then mret None else fail e
  end.

Definition db_put (f : SnapshotDB → SnapshotDB) : M World unit := modify (with_db f).

(** ** Candidates *)

Definition mutable_encodable (c : CandidateMutable) : bool :=
  (0 <=? cmShares c) && (0 <=? Released c) && (0 <=? ReleasedHes c)
  && (0 <=? RestrictingPlan c) && (0 <=? RestrictingPlanHes c)
  && (0 <=? DelegateTotal c) && (0 <=? DelegateTotalHes c)
  && (0 <=? CurrentEpochDelegateReward c) && (0 <=? DelegateRewardTotal c).

Definition GetCanBaseStore (addr : Z) : M World CandidateBase :=
  db_get (λ d, canBases d !! addr).

Definition GetCanMutableStore (addr : Z) : M World CandidateMutable :=
  db_get (λ d, canMutables d !! addr).

Definition GetCandidateStore (addr : Z) : M World Candidate :=
  base ← GetCanBaseStore addr;
  mutable ← GetCanMutableStore addr;
  mret {| canBase := base; canMutable := mutable |}.

Definition SetCanBaseStore (addr : Z) (can : CandidateBase) : M World unit :=
  db_put (λ d, set_canBases d (<[addr := can]> (canBases d))).

Definition SetCanMutableStore (addr : Z) (can : CandidateMutable) : M World unit :=
  if mutable_encodable can
  then db_put (λ d, set_canMutables d (<[addr := can]> (canMutables d)))
  else fail GenericError.

Definition SetCandidateStore (addr : Z) (can : Candidate) : M World unit :=
  SetCanBaseStore addr (canBase can) ≫= λ _,
  SetCanMutableStore addr (canMutable can).

Definition DelCanBaseStore (addr : Z) : M World unit :=
  db_put (λ d, set_canBases d (delete addr (canBases d))).

Definition DelCanMutableStore (addr : Z) : M World unit :=
  db_put (λ d, set_canMutables d (delete addr (canMutables d))).

Definition DelCandidateStore (addr : Z) : M World unit :=
  DelCanBaseStore addr ≫= λ _, DelCanMutableStore addr.

Definition powerKeyOf (can : Candidate) : PowerKey :=
  (CalcVersion (cbProgramVersion (canBase can)), cmShares (canMutable can),
   cbStakingBlockNum (canBase can), cbStakingTxIndex (canBase can),
   cbNodeId (canBase can)).

Definition SetCanPowerStore (addr : Z) (can : Candidate) : M World unit :=
  db_put (λ d, set_canPowers d (<[powerKeyOf can := addr]> (canPowers d))).

Definition DelCanPowerStore (can : Candidate) : M World unit :=
  db_put (λ d, set_canPowers d (delete (powerKeyOf can) (canPowers d))).

(** Byte order of the power keys. *)
Definition powerKeyBytes (k : PowerKey) : list Z :=
  let '(v, s, n, t, i) := k in TallyPowerKey v s n t i.

Definition power_le (p q : PowerKey * Z) : Prop :=
  lex (powerKeyBytes p.1) (powerKeyBytes q.1) ≠ Gt.

#[export] Instance power_le_dec p q : Decision (power_le p q).
Proof. unfold power_le. apply _. Defined.

(** The database iterates over keys in byte order; [ranges = 0] means no limit. *)
Definition IteratorCandidatePower (d : SnapshotDB) (ranges : nat) : list (PowerKey * Z) :=
  let all := merge_sort power_le (map_to_list (canPowers d)) in
  match ranges with O => all | _ => take ranges all end.

(** ** Unstake items *)

Definition AddUnStakeItemStore (epoch canAddr stakeBlockNumber : Z) (recovery : bool)
    : M World unit :=
  o ← gets (λ w, unStakeCounts (snapDB w) !! epoch);
  let v := u64 (default 0 o + 1) in
  db_put (λ d, set_unStakeCounts d (<[epoch := v]> (unStakeCounts d))) ≫= λ _,
  db_put (λ d, set_unStakeItems d
    (<[(epoch, v) := {| usNodeAddress := canAddr; usStakingBlockNum := stakeBlockNumber;
                        Recovery := recovery |}]> (unStakeItems d))).

Definition GetUnStakeCountStore (epoch : Z) : M World Z :=
  db_get (λ d, unStakeCounts d !! epoch).

Definition GetUnStakeItemStore (epoch index : Z) : M World UnStakeItem :=
  db_get (λ d, unStakeItems d !! (epoch, index)).

Definition DelUnStakeCountStore (epoch : Z) : M World unit :=
  db_put (λ d, set_unStakeCounts d (delete epoch (unStakeCounts d))).

Definition DelUnStakeItemStore (epoch index : Z) : M World unit :=
  db_put (λ d, set_unStakeItems d (delete (epoch, index) (unStakeItems d))).

(** ** Delegations *)

Definition delegation_encodable (d : Delegation) : bool :=
  (0 <=? delReleased d) && (0 <=? delReleasedHes d) && (0 <=? delRestrictingPlan d)
  && (0 <=? delRestrictingPlanHes d) && (0 <=? CumulativeIncome d).

Definition GetDelegateStore (delAddr nodeId stakeBlockNumber : Z) : M World Delegation :=
  db_get (λ d, delegates d !! (delAddr, nodeId, stakeBlockNumber)).

Definition SetDelegateStore (delAddr nodeId stakeBlockNumber : Z) (del : Delegation)
    : M World unit :=
  if delegation_encodable del then
    db_put (λ d, set_delegates d
      (<[(delAddr, nodeId, stakeBlockNumber) := del]> (delegates d)))
  else fail GenericError.

Definition DelDelegateStore (delAddr nodeId stakeBlockNumber : Z) : M World unit :=
  db_put (λ d, set_delegates d
    (delete (delAddr, nodeId, stakeBlockNumber) (delegates d))).

Record DelegationInfo := {
  diNodeID : Z;
  diStakeBlockNumber : Z;
  diDelegation : Delegation }.

(** The entries under the delegator's key prefix, in key order. *)
Definition delegateKeyBytes (k : Z * Z * Z) : list Z :=
  let '(a, i, n) := k in GetDelegateKey a i n.

Definition delegate_le (p q : (Z * Z * Z) * Delegation) : Prop :=
  lex (delegateKeyBytes p.1) (delegateKeyBytes q.1) ≠ Gt.

#[export] Instance delegate_le_dec p q : Decision (delegate_le p q).
Proof. unfold delegate_le. apply _. Defined.

Definition GetDelegatesInfo (d : SnapshotDB) (delAddr : Z) : list DelegationInfo :=
  map (λ '((_, i, n), del),
         {| diNodeID := i; diStakeBlockNumber := n; diDelegation := del |})
    (merge_sort delegate_le
       (filter (λ p, p.1.1.1 = delAddr) (map_to_list (delegates d)))).

(** ** Validator lists *)

Definition SetEpochValIndex (indexArr : list ValArrIndex) : M World unit :=
  db_put (λ d, set_epochVals d (Some indexArr) (epochValArrs d)).

Definition GetEpochValIndex : M World (list ValArrIndex) := db_get epochValIndex.

Definition validators_encodable (l : list Validator) : bool :=
  forallb (λ v, 0 <=? Shares v) l.

Definition SetEpochValList (start end_ : Z) (valArr : list Validator) : M World unit :=
  if validators_encodable valArr then
    db_put (λ d, set_epochVals d (epochValIndex d)
      (<[(start, end_) := valArr]> (epochValArrs d)))
  else fail GenericError.

Definition GetEpochValList (start end_ : Z) : M World (list Validator) :=
  db_get (λ d, epochValArrs d !! (start, end_)).

Definition DelEpochValList (start end_ : Z) : M World unit :=
  db_put (λ d, set_epochVals d (epochValIndex d)
    (delete (start, end_) (epochValArrs d))).

Definition SetRoundValIndex (indexArr : list ValArrIndex) : M World unit :=
  db_put (λ d, set_roundVals d (Some indexArr) (roundValArrs d)).

Definition GetRoundValIndex : M World (list ValArrIndex) := db_get roundValIndex.

Definition SetRoundValList (start end_ : Z) (valArr : list Validator) : M World unit :=
  if validators_encodable valArr then
    db_put (λ d, set_roundVals d (roundValIndex d)
      (<[(start, end_) := valArr]> (roundValArrs d)))
  else fail GenericError.

Definition GetRoundValList (start end_ : Z) : M World (list Validator) :=
  db_get (λ d, roundValArrs d !! (start, end_)).

Definition DelRoundValList (start end_ : Z) : M World unit :=
  db_put (λ d, set_roundVals d (roundValIndex d)
    (delete (start, end_) (roundValArrs d))).

(** ** Reference count of staking accounts *)

Definition AddAccountStakeRc (addr : Z) : M World unit :=
  o ← gets (λ w, accountStakeRcs (snapDB w) !! addr);
  let v := u64 (default 0 o + 1) in
  db_put (λ d, set_accountStakeRcs d (<[addr := v]> (accountStakeRcs d))).

Definition SubAccountStakeRc (addr : Z) : M World unit :=
  o ← gets (λ w, accountStakeRcs (snapDB w) !! addr);
  let v := default 0 o in
  if v =? 0 then mret tt
  else if v - 1 =? 0 then
    db_put (λ d, set_accountStakeRcs d (delete addr (accountStakeRcs d)))
  else db_put (λ d, set_accountStakeRcs d (<[addr := v - 1]> (accountStakeRcs d))).

Definition HasAccountStakeRc (addr : Z) : M World bool :=
  o ← gets (λ w, accountStakeRcs (snapDB w) !! addr);
  mret (negb (default 0 o =? 0)).

(** ** Addresses of the validators of a round *)

Definition StoreRoundValidatorAddrs (round : Z) (arr : list Z) : M World unit :=
  db_put (λ d, set_roundValAddrs d (<[round := arr]> (roundValAddrs d))
                 (roundAddrBoundary d)).

Definition DelRoundValidatorAddrs (round : Z) : M World unit :=
  db_put (λ d, set_roundValAddrs d (delete round (roundValAddrs d))
                 (roundAddrBoundary d)).

Definition LoadRoundValidatorAddrs (round : Z) : M World (list Z) :=
  db_get (λ d, roundValAddrs d !! round).

Definition SetRoundAddrBoundary (round : Z) : M World unit :=
  db_put (λ d, set_roundValAddrs d (roundValAddrs d) (Some round)).

Definition GetRoundAddrBoundary : M World Z := db_get roundAddrBoundary.
