(* ===== verification/RewardPer.v ===== *)
(** * Delegation rewards per epoch (src/pos/reward/reward_type.go and the
      [*DelegateRewardPer*] functions of src/pos/plugin/reward_plugin.go)

    At the end of an epoch a node's delegation reward is recorded once, with the
    node's effective delegation; a delegator later takes its share of every
    epoch it took part in, and a record is dropped when everybody has. *)

From S2P Require Import Prelude Xcom Xutil StateDB Keys StakingTypes StakingDB.

(** ** Definitions *)

Definition NewDelegateRewardPer (epoch totalReward totalDelegate : Z)
    : DelegateRewardPer :=
  {| Left := totalDelegate; perEpoch := epoch; perDelegate := totalDelegate;
     perReward := totalReward |}.

(** [big.Int.Div] is Euclidean and panics on a zero divisor; [Z.div] agrees with
    it for a positive divisor, the only ones stored. *)
Definition CalDelegateReward (d : DelegateRewardPer) (delegate : Z) : outcome Z :=
  div64 (delegate * perReward d) (perDelegate d).

Definition per_with_left (l : Z) (p : DelegateRewardPer) : DelegateRewardPer :=
  {| Left := l; perEpoch := perEpoch p; perDelegate := perDelegate p;
     perReward := perReward p |}.

(** The merge loop: the updated list, the number of receipts passed, and whether
    anything changed. *)
Fixpoint DecreaseTotalAmount (pers : list DelegateRewardPer)
    : list DelegateRewardReceipt → list DelegateRewardPer * nat * bool :=
  fix go receipt :=
  match pers, receipt with
  | [], _ => ([], 0%nat, false)
  | _, [] => (pers, 0%nat, false)
  | p :: pers', r :: receipt' =>
      if perEpoch p <? receiptEpoch r then
        let '(l, n, c) := DecreaseTotalAmount pers' receipt in (p :: l, n, c)
      else if receiptEpoch r <? perEpoch p then
        let '(l, n, c) := go receipt' in (l, S n, c)
      else
        let left' := Left p - receiptDelegate r in
        let '(l, n, c) := DecreaseTotalAmount pers' receipt' in
        (if left' <=? 0 then l else per_with_left left' p :: l, S n, true)
  end.

(** The key indices [fromEpoch/1000 .. toEpoch/1000]. *)
Definition keyIndices (fromEpoch toEpoch : Z) : list Z :=
  let indexFrom := u32 (fromEpoch / DelegateRewardPerLength) in
  let indexTo := u32 (toEpoch / DelegateRewardPerLength) in
  seqZ indexFrom (indexTo - indexFrom + 1).

Section rewardPer.
Context `{Env}.

(** The key builders panic when the node id has no address. *)
Definition keyAddr (nodeID : Z) : M World Z :=
  match NodeId2Addr nodeID with Ok a => mret a | _ => panic end.

Definition getDelegateRewardPerList (nodeID stakingNum fromEpoch toEpoch : Z)
    : M World (list DelegateRewardPer) :=
  addr ← keyAddr nodeID;
  gets (λ w,
    mjoin (map (λ i,
      filter (λ p, fromEpoch <= perEpoch p ∧ perEpoch p <= toEpoch)
        (default [] (rewardPers (snapDB w) !! (addr, stakingNum, i))))
      (keyIndices fromEpoch toEpoch))).

Definition AppendDelegateRewardPer (nodeID stakingNum : Z) (per : DelegateRewardPer)
    : M World unit :=
  addr ← keyAddr nodeID;
  let key := (addr, stakingNum, u32 (perEpoch per / DelegateRewardPerLength)) in
  o ← gets (λ w, rewardPers (snapDB w) !! key);
  let list := default [] o ++ [per] in
  if forallb (λ p, (0 <=? Left p) && (0 <=? perDelegate p) && (0 <=? perReward p)) list
  then db_put (λ d, set_rewardPers d (<[key := list]> (rewardPers d)))
  else fail GenericError.

(** The loop over the keys; [receives] are the receipts not yet passed. *)
Fixpoint updateLoop (addr stakingNum : Z) (indices : list Z)
    (receives : list DelegateRewardReceipt) : M World unit :=
  match indices with
  | [] => mret tt
  | i :: rest =>
      let key := (addr, stakingNum, i) in
      o ← gets (λ w, rewardPers (snapDB w) !! key);
      match o with
      | None => updateLoop addr stakingNum rest receives
      | Some list =>
          let chunk := if (Z.of_nat (length receives) <? DelegateRewardPerLength)
            then receives else take (Z.to_nat DelegateRewardPerLength) receives in
          let '(list', n, changed) := DecreaseTotalAmount list chunk in
          (if changed then
             match list' with
             | [] => db_put (λ d, set_rewardPers d (delete key (rewardPers d)))
             | _ => db_put (λ d, set_rewardPers d (<[key := list']> (rewardPers d)))
             end
           else mret tt) ≫= λ _,
          updateLoop addr stakingNum rest (drop n receives)
      end
  end.

Definition UpdateDelegateRewardPer (nodeID stakingNum : Z)
    (receives : list DelegateRewardReceipt) : M World unit :=
  match receives, last receives with
  | first :: _, Some lst =>
      addr ← keyAddr nodeID;
      updateLoop addr stakingNum
        (keyIndices (receiptEpoch first) (receiptEpoch lst)) receives
  | _, _ => mret tt
  end.
End rewardPer.

(** ** Shares of a reward *)

(** the shares delegators take of an epoch's reward never exceed the reward:
    if their effective delegations sum to at most the recorded delegation, the
    amounts they are paid sum to at most the recorded reward. *)
Theorem delegate_rewards_bounded (d : DelegateRewardPer) (delegations paid : list Z) :
  0 < perDelegate d → 0 <= perReward d →
  zsum delegations <= perDelegate d →
  Forall2 (λ x p, CalDelegateReward d x = Ok p) delegations paid →
  zsum paid <= perReward d.
Proof.
  intros Hd Hr Hsum Hpaid.
  assert (Hle : zsum paid * perDelegate d <= zsum delegations * perReward d).
  { clear Hsum. induction Hpaid as [|x p xs ps Hx _ IH]; cbn [zsum]; [lia|].
    apply div64_Ok in Hx as [_ ->].
    pose proof (Z.mul_div_le (x * perReward d) (perDelegate d) Hd). lia. }
  nia.
Qed.

Lemma delegate_rewards_bounded_witness :
  zsum [3; 3; 3] <= perReward (NewDelegateRewardPer 5 10 30).
Proof.
  apply (delegate_rewards_bounded (NewDelegateRewardPer 5 10 30) [10; 10; 10]);
    [done|done|done|by repeat constructor].
Defined.

(** ** The merge loop as a lookup *)

Definition receiptFor (rs : list DelegateRewardReceipt) (e : Z)
    : option DelegateRewardReceipt :=
  head (filter (λ r, receiptEpoch r = e) rs).

(** What happens to one record. *)
Definition decreaseOne (rs : list DelegateRewardReceipt) (p : DelegateRewardPer)
    : option DelegateRewardPer :=
  match receiptFor rs (perEpoch p) with
  | None => Some p
  | Some r =>
      let left' := Left p - receiptDelegate r in
      if left' <=? 0 then None else Some (per_with_left left' p)
  end.

Definition perSorted := StronglySorted (λ p q, perEpoch p < perEpoch q).
Definition receiptSorted := StronglySorted (λ r q, receiptEpoch r < receiptEpoch q).

Lemma receiptFor_cons_ne r rs e : receiptEpoch r ≠ e → receiptFor (r :: rs) e = receiptFor rs e.
Proof. intros H. unfold receiptFor. by rewrite filter_cons_False. Qed.

Lemma receiptFor_lt rs e :
  Forall (λ r, e < receiptEpoch r) rs → receiptFor rs e = None.
Proof.
  induction 1 as [|r rs Hr _ IH]; [done|]. rewrite receiptFor_cons_ne; [done|lia].
Qed.

Lemma omap_ext_Forall {A B} (f g : A → option B) l :
  Forall (λ x, f x = g x) l → omap f l = omap g l.
Proof. induction 1 as [|x l Hx _ IH]; cbn; [done|]. by rewrite Hx, IH. Qed.

Lemma DecreaseTotalAmount_cons p pers r rs :
  DecreaseTotalAmount (p :: pers) (r :: rs) =
    if perEpoch p <? receiptEpoch r then
      let '(l, n, c) := DecreaseTotalAmount pers (r :: rs) in (p :: l, n, c)
    else if receiptEpoch r <? perEpoch p then
      let '(l, n, c) := DecreaseTotalAmount (p :: pers) rs in (l, S n, c)
    else
      let '(l, n, c) := DecreaseTotalAmount pers rs in
      (if Left p - receiptDelegate r <=? 0 then l
       else per_with_left (Left p - receiptDelegate r) p :: l, S n, true).
Proof. done. Qed.

Lemma DecreaseTotalAmount_omap pers rs :
  perSorted pers → receiptSorted rs →
  (DecreaseTotalAmount pers rs).1.1 = omap (decreaseOne rs) pers.
Proof.
  intros Hp. revert rs. induction Hp as [|p pers Hps IHp Hpf].
  { by intros [|r rs]. }
  intros rs Hr. induction Hr as [|r rs Hrs IHr Hrf].
  { cbn. f_equal. clear. induction pers; cbn; [done|by f_equal]. }
  rewrite DecreaseTotalAmount_cons.
  destruct (Z.ltb_spec (perEpoch p) (receiptEpoch r)) as [Hlt|Hge].
  - specialize (IHp (r :: rs)). destruct (DecreaseTotalAmount pers (r :: rs)) as [[l n] c].
    cbn in *. rewrite IHp by by constructor. unfold decreaseOne at 2.
    rewrite receiptFor_lt; [done|]. constructor; [done|].
    eapply Forall_impl; [exact Hrf|]. cbn. lia.
  - assert (Htail : ∀ q, q ∈ pers → receiptEpoch r < perEpoch q).
    { intros q Hq. rewrite Forall_forall in Hpf. specialize (Hpf q Hq). lia. }
    assert (Hext : omap (decreaseOne (r :: rs)) pers = omap (decreaseOne rs) pers).
    { apply omap_ext_Forall, Forall_forall. intros q Hq. unfold decreaseOne.
      rewrite receiptFor_cons_ne; [done|]. specialize (Htail q Hq). lia. }
    destruct (Z.ltb_spec (receiptEpoch r) (perEpoch p)) as [Hlt|Heq].
    + destruct (DecreaseTotalAmount (p :: pers) rs) as [[l n] c]. cbn in *.
      assert (Hp' : decreaseOne (r :: rs) p = decreaseOne rs p)
        by (unfold decreaseOne; by rewrite receiptFor_cons_ne by lia).
      by rewrite IHr, Hp', Hext.
    + specialize (IHp rs Hrs). destruct (DecreaseTotalAmount pers rs) as [[l n] c].
      cbn in *. rewrite Hext, <- IHp. unfold decreaseOne, receiptFor.
      rewrite filter_cons_True by lia. cbn. by destruct (_ <=? 0).
Qed.

(** C30: on lists sorted by epoch, the two-pointer loop of [DecreaseTotalAmount]
    subtracts from every record exactly the receipt of the same epoch, drops a
    record when nothing is left of it, and leaves all others alone. *)
Theorem DecreaseTotalAmount_correct pers rs :
  perSorted pers → receiptSorted rs →
  (DecreaseTotalAmount pers rs).1.1 = omap (decreaseOne rs) pers.
Proof. apply DecreaseTotalAmount_omap. Qed.

Lemma DecreaseTotalAmount_correct_witness :
  (DecreaseTotalAmount [NewDelegateRewardPer 3 10 30; NewDelegateRewardPer 4 10 30]
     [{| receiptDelegate := 30; receiptEpoch := 3 |};
      {| receiptDelegate := 10; receiptEpoch := 4 |}]).1.1
  = [per_with_left 20 (NewDelegateRewardPer 4 10 30)].
Proof.
  rewrite DecreaseTotalAmount_correct; [by vm_compute|repeat constructor..].
Defined.
