(* ===== verification/ValidatorLists.v ===== *)
(** * Stored validator lists (src/pos/plugin/staking_plugin.go)

    The verifiers of an epoch and the validators of a consensus round are stored
    as lists under their block range, with an index queue of the ranges that are
    kept.  The queries read the view of the block being executed. *)

From S2P Require Import Prelude Xcom Xutil StateDB Keys StakingTypes StakingDB.

Definition ErrValidatorNoExist := BizError 301115.

Definition EpochValIndexSize : nat := 2.
Definition RoundValIndexSize : nat := 6.

(** The first range of the queue that contains the block. *)
Fixpoint findIndex (blockNumber : Z) (indexs : list ValArrIndex) : option ValArrIndex :=
  match indexs with
  | [] => None
  | i :: rest =>
      if (Start i <=? blockNumber) && (blockNumber <=? End_ i) then Some i
      else findIndex blockNumber rest
  end.

(** The range after the first one that contains the block and is not the last. *)
Fixpoint findNextIndex (blockNumber : Z) (indexs : list ValArrIndex)
    : option ValArrIndex :=
  match indexs with
  | i :: ((j :: _) as rest) =>
      if (Start i <=? blockNumber) && (blockNumber <=? End_ i) then Some j
      else findNextIndex blockNumber rest
  | _ => None
  end.

(** A missing queue counts as empty. *)
Definition orNoExist {A} (o : option A) : M World A :=
  match o with Some a => mret a | None => fail ErrValidatorNoExist end.

Definition getVeriferIndex (blockNumber : Z) : M World ValArrIndex :=
  indexs ← get_opt GetEpochValIndex;
  orNoExist (findIndex blockNumber (default [] indexs)).

Definition getCurrValIndex (blockNumber : Z) : M World ValArrIndex :=
  indexs ← get_opt GetRoundValIndex;
  orNoExist (findIndex blockNumber (default [] indexs)).

Definition getNextValIndex (blockNumber : Z) : M World ValArrIndex :=
  indexs ← get_opt GetRoundValIndex;
  orNoExist (findNextIndex blockNumber (default [] indexs)).

Definition getPreValIndex (ec : EconomicModel) (blockNumber : Z) : M World ValArrIndex :=
  let preTargetNumber :=
    if ConsensusSize ec <? blockNumber then blockNumber - ConsensusSize ec else 0 in
  indexs ← get_opt GetRoundValIndex;
  orNoExist (findIndex preTargetNumber (default [] indexs)).

(** Load the list of a range; an empty or missing list does not exist. *)
Definition loadArray (load : Z → Z → M World (list Validator)) (index : ValArrIndex)
    : M World ValidatorArray :=
  o ← get_opt (load (Start index) (End_ index));
  match default [] o with
  | [] => fail ErrValidatorNoExist
  | queue => mret {| vaStart := Start index; vaEnd := End_ index; vaArr := queue |}
  end.

Definition getVerifierList (blockNumber : Z) : M World ValidatorArray :=
  index ← getVeriferIndex blockNumber; loadArray GetEpochValList index.

Definition getCurrValList (blockNumber : Z) : M World ValidatorArray :=
  index ← getCurrValIndex blockNumber; loadArray GetRoundValList index.

Definition getNextValList (blockNumber : Z) : M World ValidatorArray :=
  index ← getNextValIndex blockNumber; loadArray GetRoundValList index.

Definition getPreValList (ec : EconomicModel) (blockNumber : Z) : M World ValidatorArray :=
  index ← getPreValIndex ec blockNumber; loadArray GetRoundValList index.

Definition setVerifierListAndIndex (valArr : ValidatorArray) : M World unit :=
  queue ← GetEpochValIndex;
  let index := {| Start := vaStart valArr; End_ := vaEnd valArr |} in
  let '(shabby, queue) := ConstantAppend queue index EpochValIndexSize in
  match shabby with
  | Some i => DelEpochValList (Start i) (End_ i)
  | None => mret tt
  end ≫= λ _,
  SetEpochValIndex queue ≫= λ _,
  SetEpochValList (Start index) (End_ index) (vaArr valArr).

Definition setRoundValListAndIndex (valArr : ValidatorArray) : M World unit :=
  queue ← GetRoundValIndex;
  let index := {| Start := vaStart valArr; End_ := vaEnd valArr |} in
  let '(shabby, queue) := ConstantAppend queue index RoundValIndexSize in
  match shabby with
  | Some i => DelRoundValList (Start i) (End_ i)
  | None => mret tt
  end ≫= λ _,
  SetRoundValIndex queue ≫= λ _,
  SetRoundValList (Start index) (End_ index) (vaArr valArr).

Definition hasIndex (valArr : ValidatorArray) (queue : list ValArrIndex) : bool :=
  existsb (λ i, (vaStart valArr =? Start i) && (vaEnd valArr =? End_ i)) queue.

Definition setVerifierListByIndex (valArr : ValidatorArray) : M World unit :=
  queue ← GetEpochValIndex;
  if hasIndex valArr queue
  then SetEpochValList (vaStart valArr) (vaEnd valArr) (vaArr valArr)
  else fail ErrValidatorNoExist.

Definition setRoundValListByIndex (valArr : ValidatorArray) : M World unit :=
  queue ← GetRoundValIndex;
  if hasIndex valArr queue
  then SetRoundValList (vaStart valArr) (vaEnd valArr) (vaArr valArr)
  else fail ErrValidatorNoExist.

(** ** The sliding window of rounds *)

(** The ranges of the queue are proper and follow one another. *)
Definition ranges_ok (queue : list ValArrIndex) : Prop :=
  Forall (λ i, Start i <= End_ i) queue
  ∧ StronglySorted (λ i j, End_ i < Start j) queue.

(** Every range of the queue has its list of validators. *)
Definition lists_stored (d : SnapshotDB) (queue : list ValArrIndex) : Prop :=
  Forall (λ i, ∃ l, roundValArrs d !! (Start i, End_ i) = Some l ∧ l ≠ []) queue.

Record rounds_inv (w : World) (queue : list ValArrIndex) : Prop := {
  ri_queue : roundValIndex (snapDB w) = Some queue;
  ri_size : (length queue <= RoundValIndexSize)%nat;
  ri_ranges : ranges_ok queue;
  ri_lists : lists_stored (snapDB w) queue }.

Lemma ConstantAppend_spec queue index size shabby queue' :
  ConstantAppend queue index size = (shabby, queue') → (0 < size)%nat →
  (length queue <= size)%nat →
  (length queue' <= size)%nat
  ∧ ∃ kept, queue' = kept ++ [index]
    ∧ queue = (match shabby with Some i => [i] | None => [] end) ++ kept.
Proof.
  unfold ConstantAppend. rewrite length_app. cbn [length].
  destruct (Nat.ltb_spec size (length queue + 1)); intros [= <- <-] Hs Hl.
  - destruct queue as [|i kept]; cbn in *; [lia|].
    rewrite length_app. cbn. split; [lia|]. by exists kept.
  - rewrite length_app. cbn. split; [lia|]. by exists queue.
Qed.

Lemma ranges_ok_app l1 l2 : ranges_ok (l1 ++ l2) → ranges_ok l2.
Proof.
  intros [Hf Hs]. apply Forall_app in Hf as [_ Hf]. split; [done|].
  induction l1; [done|]. apply IHl1. by inversion Hs.
Qed.

Lemma ranges_ok_snoc l i :
  ranges_ok l → Start i <= End_ i → Forall (λ j, End_ j < Start i) l → ranges_ok (l ++ [i]).
Proof.
  intros [Hf Hs] Hi Hl. split; [apply Forall_app; auto using Forall_cons, Forall_nil|].
  induction Hs as [|j l Hs IH Hj]; cbn; [repeat constructor|].
  apply Forall_cons in Hf as [_ Hf], Hl as [Hji Hl]. constructor; [auto|].
  apply Forall_app. auto using Forall_cons, Forall_nil.
Qed.

(** A range of an ordered queue is found by each of its blocks. *)
Lemma findIndex_elem queue i b :
  ranges_ok queue → i ∈ queue → Start i <= b <= End_ i → findIndex b queue = Some i.
Proof.
  intros [Hf Hs] Hi Hb. induction Hs as [|j l Hs IH Hj]; [by apply elem_of_nil in Hi|].
  apply Forall_cons in Hf as [Hjj Hf]. cbn. apply elem_of_cons in Hi as [->|Hi].
  - destruct (Z.leb_spec (Start j) b); [|lia]. destruct (Z.leb_spec b (End_ j)); [done|lia].
  - rewrite Forall_forall in Hj. specialize (Hj i Hi).
    destruct (Z.leb_spec b (End_ j)); [lia|]. rewrite andb_false_r. auto.
Qed.

Lemma getCurrValList_run w queue i l b :
  roundValIndex (snapDB w) = Some queue → ranges_ok queue → i ∈ queue →
  Start i <= b <= End_ i → roundValArrs (snapDB w) !! (Start i, End_ i) = Some l → l ≠ [] →
  getCurrValList b w = (Ok {| vaStart := Start i; vaEnd := End_ i; vaArr := l |}, w).
Proof.
  intros Hq Hr Hi Hb Hl Hne.
  unfold getCurrValList, getCurrValIndex, loadArray, GetRoundValIndex, GetRoundValList,
    get_opt, db_get. run_eval. rewrite Hq. cbn. rewrite (findIndex_elem queue i b) by done.
  cbn. rewrite Hl. cbn. by destruct l.
Qed.

(** What a successful [setRoundValListAndIndex] leaves behind. *)
Lemma setRound_run w queue arr :
  rounds_inv w queue → validators_encodable (vaArr arr) = true →
  let index := {| Start := vaStart arr; End_ := vaEnd arr |} in
  Start index <= End_ index → Forall (λ j, End_ j < Start index) queue →
  ∃ w' kept, setRoundValListAndIndex arr w = (Ok tt, w')
    ∧ (length (kept ++ [index]) <= RoundValIndexSize)%nat
    ∧ roundValIndex (snapDB w') = Some (kept ++ [index])
    ∧ (∃ old, queue = old ++ kept ∧ (length old <= 1)%nat)
    ∧ roundValArrs (snapDB w') !! (Start index, End_ index) = Some (vaArr arr)
    ∧ ∀ i, i ∈ kept → roundValArrs (snapDB w') !! (Start i, End_ i)
                      = roundValArrs (snapDB w) !! (Start i, End_ i).
Proof.
  intros [Hq Hsz Hr Hl] Henc index Hix Hafter.
  destruct (ConstantAppend queue index RoundValIndexSize) as [shabby queue'] eqn:Hc.
  destruct (ConstantAppend_spec _ _ _ _ _ Hc ltac:(unfold RoundValIndexSize; lia) Hsz)
    as (Hlen & kept & -> & Hkept).
  unfold setRoundValListAndIndex, GetRoundValIndex, SetRoundValList, SetRoundValIndex,
    DelRoundValList, db_get, db_put. run_eval. rewrite Hq. fold index. rewrite Hc, Henc.
  assert (Hne : ∀ i, i ∈ kept → (Start index, End_ index) ≠ (Start i, End_ i)).
  { intros i Hi [= E _]. rewrite Forall_forall in Hafter.
    assert (i ∈ queue) as Hin by (rewrite Hkept; apply elem_of_app; auto).
    specialize (Hafter i Hin). destruct Hr as [Hf _]. rewrite Forall_forall in Hf.
    specialize (Hf i Hin). cbn in *. lia. }
  destruct shabby as [j|]; (eexists _, kept; split; [reflexivity|]); cbn;
    (split; [done|]); (split; [done|]).
  - split; [by exists [j]|]. split; [apply lookup_insert_eq|]. intros i Hi.
    rewrite lookup_insert_ne by by apply Hne. apply lookup_delete_ne. intros [= E _].
    destruct Hr as [Hf Hs]. rewrite Hkept in Hs, Hf. cbn in Hs, Hf.
    apply StronglySorted_inv in Hs as [_ Hj]. rewrite Forall_forall in Hj.
    apply Forall_cons in Hf as [? _]. specialize (Hj i Hi). lia.
  - split; [by exists []; split; [|cbn; lia]|]. split; [apply lookup_insert_eq|].
    intros i Hi. by rewrite lookup_insert_ne by by apply Hne.
Qed.

(** storing the validators of a new round keeps the window of rounds
    consistent: at most six rounds are kept, every kept round still has exactly
    the validators it had, only the oldest one may be dropped, and each block of
    the new round is answered with the new validators. *)
Theorem setRoundValListAndIndex_window w queue arr :
  rounds_inv w queue → validators_encodable (vaArr arr) = true → vaArr arr ≠ [] →
  vaStart arr <= vaEnd arr → Forall (λ j, End_ j < vaStart arr) queue →
  ∃ w' kept, setRoundValListAndIndex arr w = (Ok tt, w')
    ∧ rounds_inv w' (kept ++ [{| Start := vaStart arr; End_ := vaEnd arr |}])
    ∧ (∃ old, queue = old ++ kept ∧ (length old <= 1)%nat)
    ∧ (∀ b, vaStart arr <= b <= vaEnd arr → getCurrValList b w' = (Ok arr, w'))
    ∧ ∀ b i, i ∈ kept → Start i <= b <= End_ i →
        (getCurrValList b w').1 = (getCurrValList b w).1.
Proof.
  intros Hinv Henc Hne Hse Hafter. pose proof Hinv as [Hq _ Hr Hl].
  destruct (setRound_run w queue arr Hinv Henc Hse Hafter)
    as (w' & kept & Hrun & Hlen & Hq' & (old & Hold & Hol) & Hnew & Hkeep).
  set (index := {| Start := vaStart arr; End_ := vaEnd arr |}) in *.
  assert (Hr' : ranges_ok (kept ++ [index])).
  { apply ranges_ok_snoc; [|done|].
    - rewrite Hold in Hr. by apply ranges_ok_app in Hr.
    - rewrite Hold in Hafter. by apply Forall_app in Hafter as [_ ?]. }
  assert (Hlk : ∀ i, i ∈ kept → ∃ l, roundValArrs (snapDB w) !! (Start i, End_ i) = Some l
    ∧ l ≠ []).
  { intros i Hi. unfold lists_stored in Hl. rewrite Hold, Forall_app, !Forall_forall in Hl.
    by apply Hl. }
  exists w', kept. split; [done|]. split; [|split; [by exists old|split]].
  - split; [done|done|done|]. apply Forall_app. split; [|repeat constructor; eauto].
    apply Forall_forall. intros i Hi. rewrite Hkeep by done. by apply Hlk.
  - intros b Hb. rewrite (getCurrValList_run w' _ index (vaArr arr) b Hq' Hr'); try done.
    + by destruct arr.
    + apply elem_of_app. right. by apply list_elem_of_singleton.
  - intros b i Hi Hb. destruct (Hlk i Hi) as (l & Hl1 & Hl2).
    rewrite (getCurrValList_run w' _ i l b Hq' Hr'); try done.
    + rewrite (getCurrValList_run w queue i l b Hq Hr); try done.
      rewrite Hold. apply elem_of_app. auto.
    + apply elem_of_app. auto.
    + by rewrite Hkeep.
Qed.

(** Two stored rounds, and the list of the third. *)
Definition demoValidator (n : Z) : Validator :=
  {| ProgramVersion := 1; StakingTxIndex := 0; ValidatorTerm := 0; StakingBlockNum := 0;
     NodeAddress := n; NodeId := n; BlsPubKey := n; Shares := 100 |}.

Definition emptyDB : SnapshotDB :=
  {| canBases := ∅; canMutables := ∅; canPowers := ∅; unStakeCounts := ∅;
     unStakeItems := ∅; delegates := ∅; epochValIndex := None; epochValArrs := ∅;
     roundValIndex := None; roundValArrs := ∅; accountStakeRcs := ∅;
     roundValAddrs := ∅; roundAddrBoundary := None; rewardPers := ∅;
     slashStore := {| packAmounts := ∅; waitList := None |};
     rewardStore := {| newBlockRewardValue := None; stakingRewardValue := None;
                       remainingRewardValue := None; chainYearNumberValue := None |} |}.

Definition emptyState : StateDB :=
  {| balances := ∅;
     restrictingStore := {| infoOf := ∅; epochNumber := ∅; releaseAccount := ∅;
                            releaseAmount := ∅; genesisPlans := None |};
     rewardPoolStore := {| yearEndCumulativeIssue := ∅; yearEndBalance := ∅ |};
     slashedEvidence := ∅ |}.

Definition demoQueue : list ValArrIndex :=
  [{| Start := 1; End_ := 40 |}; {| Start := 41; End_ := 80 |}].

Definition demoRounds : World :=
  {| stateDB := emptyState;
     snapDB := set_roundVals emptyDB (Some demoQueue)
       (<[(1, 40) := [demoValidator 7]]> (<[(41, 80) := [demoValidator 8]]> ∅)) |}.

Lemma setRoundValListAndIndex_window_witness :
  ∃ w' kept, setRoundValListAndIndex
      {| vaStart := 81; vaEnd := 120; vaArr := [demoValidator 9] |} demoRounds = (Ok tt, w')
    ∧ rounds_inv w' (kept ++ [{| Start := 81; End_ := 120 |}]).
Proof.
  destruct (setRoundValListAndIndex_window demoRounds demoQueue
    {| vaStart := 81; vaEnd := 120; vaArr := [demoValidator 9] |})
    as (w' & kept & Hrun & Hinv & _); [|done|done|done|by repeat constructor|by exists w', kept].
  split; [done|cbn; unfold RoundValIndexSize; lia|by repeat constructor|].
  constructor; [by exists [demoValidator 7]|]. constructor; [|constructor].
  by exists [demoValidator 8].
Defined.
