(* ===== verification/Staking.v ===== *)
(** * The staking plugin (src/pos/plugin/staking_plugin.go)

    The handlers of staking and delegation: they move coins between accounts,
    the staking contract and the restricting contract, and keep the records of
    candidates and delegations.  A handler gets the candidate or delegation its
    caller has loaded, changes it in place and stores it; here the changed
    record is passed on explicitly.  Slashing and elections are in the files
    StakingSlash and Election. *)

From S2P Require Import Prelude Xcom Xutil StateDB Restricting Keys StakingTypes.
From S2P Require Import StakingDB RewardPer ValidatorLists.

(** ** Constants and errors *)

Definition FreeVon : Z := 0.
Definition RestrictVon : Z := 1.
Definition RestrictAndFreeVon : Z := 2.

Definition ErrWrongVonOptType := BizError 301110.
Definition ErrBlockNumberDisordered := BizError 301112.
Definition ErrDelegateVonNoEnough := BizError 301113.
Definition ErrWrongWithdrewDelVonCalc := BizError 301114.

(** ** Lazy changes of epoch

    An amount added in an epoch is hesitating; it becomes effective the first
    time the record is touched in a later epoch. *)

Definition lazyCalcStakeAmount (epoch : Z) (can : CandidateMutable) : CandidateMutable :=
  let sub := u64 (epoch - StakingEpoch can) in
  if sub <? HesitateRatio then can
  else
    let can := if 0 <? ReleasedHes can
      then set_stake (Released can + ReleasedHes can) 0 (RestrictingPlan can)
             (RestrictingPlanHes can) can
      else can in
    if 0 <? RestrictingPlanHes can
    then set_stake (Released can) (ReleasedHes can)
           (RestrictingPlan can + RestrictingPlanHes can) 0 can
    else can.

(** The record and whether it changed. *)
Definition lazyCalcNodeTotalDelegateAmount (epoch : Z) (can : CandidateMutable)
    : CandidateMutable * bool :=
  let sub := u64 (epoch - cmDelegateEpoch can) in
  if sub <? HesitateRatio then (can, false)
  else if 0 <? DelegateTotalHes can
  then (set_delegateTotals (cmDelegateEpoch can) (DelegateTotal can + DelegateTotalHes can)
          0 can, true)
  else (can, false).

Definition set_delegation (rel relHes res resHes : Z) (del : Delegation) : Delegation :=
  {| delDelegateEpoch := delDelegateEpoch del; delReleased := rel; delReleasedHes := relHes;
     delRestrictingPlan := res; delRestrictingPlanHes := resHes;
     CumulativeIncome := CumulativeIncome del |}.

Definition set_delegateEpoch (epoch : Z) (del : Delegation) : Delegation :=
  {| delDelegateEpoch := epoch; delReleased := delReleased del;
     delReleasedHes := delReleasedHes del; delRestrictingPlan := delRestrictingPlan del;
     delRestrictingPlanHes := delRestrictingPlanHes del;
     CumulativeIncome := CumulativeIncome del |}.

Definition addIncome (income : Z) (del : Delegation) : Delegation :=
  {| delDelegateEpoch := delDelegateEpoch del; delReleased := delReleased del;
     delReleasedHes := delReleasedHes del; delRestrictingPlan := delRestrictingPlan del;
     delRestrictingPlanHes := delRestrictingPlanHes del;
     CumulativeIncome := CumulativeIncome del + income |}.

Definition lazyCalcDelegateAmount (epoch : Z) (del : Delegation) : Delegation :=
  if delDelegateEpoch del =? 0 then del
  else
    let sub := u64 (epoch - delDelegateEpoch del) in
    if sub <? HesitateRatio then del
    else
      let del := if 0 <? delReleasedHes del
        then set_delegation (delReleased del + delReleasedHes del) 0
               (delRestrictingPlan del) (delRestrictingPlanHes del) del
        else del in
      if 0 <? delRestrictingPlanHes del
      then set_delegation (delReleased del) (delReleasedHes del)
             (delRestrictingPlan del + delRestrictingPlanHes del) 0 del
      else del.

(** ** Income of a delegation *)

(** The loop over the epochs; [first] holds in its first iteration. *)
Fixpoint incomeLoop (epoch : Z) (first : bool) (totalReleased : Z) (del : Delegation)
    (per : list DelegateRewardPer) : outcome (list DelegateRewardReceipt * Delegation) :=
  match per with
  | [] => Ok ([], del)
  | rewardPer :: rest =>
      '(receipt, del) ←
        (if 0 <? totalReleased then
           income ← CalDelegateReward rewardPer totalReleased;
           Ok ([{| receiptDelegate := totalReleased; receiptEpoch := perEpoch rewardPer |}],
               addIncome income del)
         else Ok ([], del));
      let del := if first then lazyCalcDelegateAmount epoch del else del in
      let totalReleased :=
        if first then delReleased del + delRestrictingPlan del else totalReleased in
      '(receipts, del) ← incomeLoop epoch false totalReleased del rest;
      Ok (receipt ++ receipts, del)
  end.

Definition calcDelegateIncome (epoch : Z) (del : Delegation) (per : list DelegateRewardPer)
    : outcome (list DelegateRewardReceipt * Delegation) :=
  if delDelegateEpoch del =? epoch then Ok ([], del)
  else match per with
  | [] => Ok ([], lazyCalcDelegateAmount epoch del)
  | first :: _ =>
      let del := if delDelegateEpoch del <? perEpoch first
        then lazyCalcDelegateAmount epoch del else del in
      incomeLoop epoch true (delReleased del + delRestrictingPlan del) del per
  end.

(** ** Amounts *)

Definition calcCandidateTotalAmount (can : CandidateMutable) : Z :=
  (Released can + ReleasedHes can) + (RestrictingPlan can + RestrictingPlanHes can).

Definition calcDelegateTotalAmount (del : Delegation) : Z :=
  (delReleased del + delReleasedHes del)
  + (delRestrictingPlan del + delRestrictingPlanHes del).

(** Pay from the staking contract to an account. *)
Definition refund (account amount : Z) (s : StateDB) : StateDB :=
  SubBalance StakingContractAddr amount (AddBalance account amount s).

(** [RewardMgrPlugin.ReturnDelegateReward] (src/pos/plugin/reward_plugin.go) *)
Definition ReturnDelegateReward (address amount : Z) : M StateDB unit :=
  if 0 <? amount then
    pool ← gets (λ s, GetBalance s DelegateRewardPoolAddr);
    if pool <? amount then fail GenericError
    else modify (transferAmount DelegateRewardPoolAddr address amount)
  else mret tt.

Definition setMutable (can : Candidate) (m : CandidateMutable) : Candidate :=
  {| canBase := canBase can; canMutable := m |}.

Section handlers.
Context `{Env}.

Definition CheckStakeThreshold (blockNumber stake : Z) : bool * Z :=
  match GovernStakeThreshold blockNumber with
  | Ok threshold => (threshold <=? stake, threshold)
  | _ => (false, 0)
  end.

Definition CheckOperatingThreshold (blockNumber balance : Z) : bool * Z :=
  match GovernOperatingThreshold blockNumber with
  | Ok threshold => (threshold <=? balance, threshold)
  | _ => (false, 0)
  end.

(** A remainder under the threshold is paid out as well. *)
Definition calcRealRefund (blockNumber realtotal amount : Z) : Z :=
  if (CheckOperatingThreshold blockNumber (realtotal - amount)).1
  then amount else realtotal.

(** ** Candidates *)

(** Take the stake from where [typ] says: the record with the amounts set. *)
Definition CreateCandidate (blockNumber amount typ addr : Z) (can : Candidate)
    : M World unit :=
  let c := canMutable can in
  c ← (if typ =? FreeVon then
         origin ← gets (λ w, GetBalance (stateDB w) (StakingAddress (canBase can)));
         if origin <? amount then fail ErrAccountVonNoEnough
         else
           on_state (modify (transferAmount (StakingAddress (canBase can))
                               StakingContractAddr amount)) ≫= λ _,
           mret (set_stake (Released c) amount (RestrictingPlan c) (RestrictingPlanHes c) c)
       else if typ =? RestrictVon then
         on_state (AdvanceLockedFunds (StakingAddress (canBase can)) amount) ≫= λ _,
         mret (set_stake (Released c) (ReleasedHes c) (RestrictingPlan c) amount c)
       else if typ =? RestrictAndFreeVon then
         '(restrictingPlanHes, releasedHes) ←
           on_state (MixAdvanceLockedFunds (StakingAddress (canBase can)) amount);
         mret (set_stake (Released c) releasedHes (RestrictingPlan c) restrictingPlanHes c)
       else fail ErrWrongVonOptType);
  let can := setMutable can (set_stakingEpoch (u32 (CalculateEpoch ec blockNumber)) c) in
  SetCandidateStore addr can ≫= λ _,
  SetCanPowerStore addr can ≫= λ _,
  AddAccountStakeRc (StakingAddress (canBase can)).

Definition RollBackStaking (blockNumber addr typ : Z) : M World unit :=
  can ← GetCandidateStore addr;
  let c := canMutable can in
  if negb (blockNumber =? cbStakingBlockNum (canBase can))
  then fail ErrBlockNumberDisordered
  else
    (if typ =? FreeVon then
       on_state (modify (refund (StakingAddress (canBase can)) (ReleasedHes c)))
     else if typ =? RestrictVon then
       on_state (ReturnLockFunds (StakingAddress (canBase can)) (RestrictingPlanHes c))
     else fail ErrWrongVonOptType) ≫= λ _,
    DelCandidateStore addr ≫= λ _,
    DelCanPowerStore can ≫= λ _,
    SubAccountStakeRc (StakingAddress (canBase can)).

Definition EditCandidate (canAddr : Z) (can : Candidate) : M World unit :=
  SetCanBaseStore canAddr (canBase can) ≫= λ _,
  SetCanMutableStore canAddr (canMutable can).

Definition IncreaseStaking (blockNumber amount typ canAddr : Z) (can : Candidate)
    : M World unit :=
  let epoch := CalculateEpoch ec blockNumber in
  let c := lazyCalcStakeAmount epoch (canMutable can) in
  c ← (if typ =? FreeVon then
         origin ← gets (λ w, GetBalance (stateDB w) (StakingAddress (canBase can)));
         if origin <? amount then fail ErrAccountVonNoEnough
         else
           on_state (modify (transferAmount (StakingAddress (canBase can))
                               StakingContractAddr amount)) ≫= λ _,
           mret (set_stake (Released c) (ReleasedHes c + amount) (RestrictingPlan c)
                   (RestrictingPlanHes c) c)
       else if typ =? RestrictVon then
         on_state (AdvanceLockedFunds (StakingAddress (canBase can)) amount) ≫= λ _,
         mret (set_stake (Released c) (ReleasedHes c) (RestrictingPlan c)
                 (RestrictingPlanHes c + amount) c)
       else fail ErrWrongVonOptType);
  DelCanPowerStore (setMutable can c) ≫= λ _,
  let can := setMutable can (AddShares amount (set_stakingEpoch (u32 epoch) c)) in
  SetCanPowerStore canAddr can ≫= λ _,
  SetCanMutableStore canAddr (canMutable can).

(** ** Unstaking *)

(** The refund waits for the freeze duration and for the node's last vote. *)
Definition addUnStakeItem (blockNumber nodeId canAddr stakingBlockNum : Z) : M World unit :=
  endVoteNum ← ask (GetMaxEndVotingBlock nodeId);
  let maxEndVoteEpoch :=
    if negb (endVoteNum =? 0) then CalculateEpoch ec endVoteNum else 0 in
  duration ← ask (GovernUnStakeFreezeDuration blockNumber);
  let refundEpoch := u64 (CalculateEpoch ec blockNumber + duration) in
  let targetEpoch := if maxEndVoteEpoch <=? refundEpoch then refundEpoch
                     else maxEndVoteEpoch in
  AddUnStakeItemStore targetEpoch canAddr stakingBlockNum false.

Definition addRecoveryUnStakeItem (blockNumber canAddr stakingBlockNum : Z)
    : M World unit :=
  duration ← ask (GovernZeroProduceFreezeDuration blockNumber);
  AddUnStakeItemStore (u64 (CalculateEpoch ec blockNumber + duration)) canAddr
    stakingBlockNum true.

(** Pay hesitating stake back at once: free coins, then restricted ones. *)
Definition returnHes (account : Z) (c : CandidateMutable) : M World CandidateMutable :=
  c ← (if 0 <? ReleasedHes c then
         on_state (modify (refund account (ReleasedHes c))) ≫= λ _,
         mret (set_stake (Released c) 0 (RestrictingPlan c) (RestrictingPlanHes c) c)
       else mret c);
  if 0 <? RestrictingPlanHes c then
    on_state (ReturnLockFunds account (RestrictingPlanHes c)) ≫= λ _,
    mret (set_stake (Released c) (ReleasedHes c) (RestrictingPlan c) 0 c)
  else mret c.

(** Effective stake is left. *)
Definition hasLocked (c : CandidateMutable) : bool :=
  (0 <? Released c) || (0 <? RestrictingPlan c).

Definition withdrewStakeAmount (blockNumber canAddr : Z) (can : Candidate)
    : M World CandidateMutable :=
  c ← returnHes (StakingAddress (canBase can)) (canMutable can);
  (if hasLocked c
   then addUnStakeItem blockNumber (cbNodeId (canBase can)) canAddr
          (cbStakingBlockNum (canBase can))
   else mret tt) ≫= λ _,
  mret (AppendStatus (Z.lor Invalided Withdrew) (CleanShares c)).

Definition WithdrewStaking (blockNumber canAddr : Z) (can : Candidate) : M World unit :=
  let epoch := CalculateEpoch ec blockNumber in
  let can := setMutable can (lazyCalcStakeAmount epoch (canMutable can)) in
  DelCanPowerStore can ≫= λ _,
  c ← withdrewStakeAmount blockNumber canAddr can;
  let c := set_stakingEpoch (u32 epoch) c in
  (if hasLocked c then SetCanMutableStore canAddr c else DelCandidateStore canAddr) ≫= λ _,
  SubAccountStakeRc (StakingAddress (canBase can)).

Definition refundRelease (account balance : Z) : M World Z :=
  if 0 <? balance then on_state (modify (refund account balance)) ≫= λ _, mret 0
  else mret balance.

Definition refundRestrict (account balance : Z) : M World Z :=
  if 0 <? balance then on_state (ReturnLockFunds account balance) ≫= λ _, mret 0
  else mret balance.

(** The record with the amounts paid out is deleted at the end. *)
Definition handleUnStake (epoch addr : Z) (can : Candidate) : M World unit :=
  let c := lazyCalcStakeAmount epoch (canMutable can) in
  let account := StakingAddress (canBase can) in
  _ ← refundRelease account (ReleasedHes c);
  _ ← refundRelease account (Released c);
  _ ← refundRestrict account (RestrictingPlanHes c);
  _ ← refundRestrict account (RestrictingPlan c);
  DelCandidateStore addr.

(** A frozen node is restored, unless it was reported for double signing: then
    its stake is frozen again and will be released. *)
Definition recoverCandidate (blockNumber canAddr : Z) (can : Candidate) : M World unit :=
  if IsDuplicateSign (Status (canMutable can)) then
    SubAccountStakeRc (StakingAddress (canBase can)) ≫= λ _,
    addUnStakeItem blockNumber (cbNodeId (canBase can)) canAddr
      (cbStakingBlockNum (canBase can)) ≫= λ _,
    SetCanMutableStore canAddr (CleanLowRatioStatus (canMutable can))
  else
    let can := setMutable can (SetValided (canMutable can)) in
    SetCanPowerStore canAddr can ≫= λ _,
    SetCanMutableStore canAddr (canMutable can).

(** One iteration; the result is the set of addresses handled so far. *)
Definition unStakeStep (blockNumber epoch index : Z) (filterAddr : list Z)
    : M World (list Z) :=
  stakeItem ← GetUnStakeItemStore epoch index;
  let canAddr := usNodeAddress stakeItem in
  if bool_decide (canAddr ∈ filterAddr)
  then DelUnStakeItemStore epoch index ≫= λ _, mret filterAddr
  else
    o ← get_opt (GetCandidateStore canAddr);
    match o with
    | None => DelUnStakeItemStore epoch index ≫= λ _, mret filterAddr
    | Some can =>
        if negb (usStakingBlockNum stakeItem =? cbStakingBlockNum (canBase can))
        then DelUnStakeItemStore epoch index ≫= λ _, mret filterAddr
        else
          (if Recovery stakeItem then recoverCandidate blockNumber canAddr can
           else handleUnStake epoch canAddr can) ≫= λ _,
          DelUnStakeItemStore epoch index ≫= λ _,
          mret (canAddr :: filterAddr)
    end.

Fixpoint unStakeLoop (blockNumber epoch : Z) (indices : list Z) (filterAddr : list Z)
    : M World unit :=
  match indices with
  | [] => mret tt
  | index :: rest =>
      filterAddr ← unStakeStep blockNumber epoch index filterAddr;
      unStakeLoop blockNumber epoch rest filterAddr
  end.

Definition HandleUnCandidateItem (blockNumber epoch : Z) : M World unit :=
  o ← get_opt (GetUnStakeCountStore epoch);
  let unStakeCount := default 0 o in
  if unStakeCount =? 0 then mret tt
  else
    unStakeLoop blockNumber epoch (seqZ 1 (i64 unStakeCount)) [] ≫= λ _,
    DelUnStakeCountStore epoch.

(** ** Delegations *)

Definition Delegate (blockNumber delAddr : Z) (del : Delegation) (canAddr : Z)
    (can : Candidate) (typ amount : Z) (delegateRewardPerList : list DelegateRewardPer)
    : M World unit :=
  let epoch := CalculateEpoch ec blockNumber in
  let nodeId := cbNodeId (canBase can) in
  let stakingBlockNum := cbStakingBlockNum (canBase can) in
  '(rewardsReceive, del) ← ask (calcDelegateIncome epoch del delegateRewardPerList);
  UpdateDelegateRewardPer nodeId stakingBlockNum rewardsReceive ≫= λ _,
  del ← (if typ =? FreeVon then
           origin ← gets (λ w, GetBalance (stateDB w) delAddr);
           if origin <? amount then fail ErrAccountVonNoEnough
           else
             on_state (modify (transferAmount delAddr StakingContractAddr amount)) ≫= λ _,
             mret (set_delegation (delReleased del) (delReleasedHes del + amount)
                     (delRestrictingPlan del) (delRestrictingPlanHes del) del)
         else if typ =? RestrictVon then
           on_state (AdvanceLockedFunds delAddr amount) ≫= λ _,
           mret (set_delegation (delReleased del) (delReleasedHes del)
                   (delRestrictingPlan del) (delRestrictingPlanHes del + amount) del)
         else fail ErrWrongVonOptType);
  SetDelegateStore delAddr nodeId stakingBlockNum (set_delegateEpoch (u32 epoch) del) ≫= λ _,
  DelCanPowerStore can ≫= λ _,
  let c := AddShares amount (canMutable can) in
  let c := (lazyCalcNodeTotalDelegateAmount epoch c).1 in
  let c := set_delegateTotals (u32 epoch) (DelegateTotal c) (DelegateTotalHes c + amount) c in
  let can := setMutable can c in
  SetCanPowerStore canAddr can ≫= λ _,
  SetCanMutableStore canAddr (canMutable can).

(** What is still to refund, and what is left of the two sources. *)
Definition rufundDelegateFn (refundBalance aboutRelease aboutRestrictingPlan delAddr : Z)
    : M World (Z * Z * Z) :=
  '(refundTmp, releaseTmp) ←
    (if 0 <? refundBalance then
       if (aboutRelease <=? refundBalance) && (0 <? aboutRelease) then
         on_state (modify (refund delAddr aboutRelease)) ≫= λ _,
         mret (refundBalance - aboutRelease, 0)
       else if refundBalance <? aboutRelease then
         on_state (modify (refund delAddr refundBalance)) ≫= λ _,
         mret (0, aboutRelease - refundBalance)
       else mret (refundBalance, aboutRelease)
     else mret (refundBalance, aboutRelease));
  if 0 <? refundTmp then
    if (aboutRestrictingPlan <=? refundTmp) && (0 <? aboutRestrictingPlan) then
      on_state (ReturnLockFunds delAddr aboutRestrictingPlan) ≫= λ _,
      mret (refundTmp - aboutRestrictingPlan, releaseTmp, 0)
    else if refundTmp <? aboutRestrictingPlan then
      on_state (ReturnLockFunds delAddr refundTmp) ≫= λ _,
      mret (0, releaseTmp, aboutRestrictingPlan - refundTmp)
    else mret (refundTmp, releaseTmp, aboutRestrictingPlan)
  else mret (refundTmp, releaseTmp, aboutRestrictingPlan).

(** Refund from the hesitating amounts, then from the effective ones: what is
    still to refund, the delegation, and what each period has paid. *)
Definition refundDelegation (refundAmount delAddr : Z) (del : Delegation)
    : M World (Z * Delegation * Z * Z) :=
  '(r1, del, subHes) ←
    (if 0 <? refundAmount then
       '(rm, rbalance, lbalance) ← rufundDelegateFn refundAmount (delReleasedHes del)
                                     (delRestrictingPlanHes del) delAddr;
       mret (rm, set_delegation (delReleased del) rbalance (delRestrictingPlan del)
                   lbalance del, refundAmount - rm)
     else mret (refundAmount, del, 0));
  if 0 <? r1 then
    '(rm, rbalance, lbalance) ← rufundDelegateFn r1 (delReleased del)
                                  (delRestrictingPlan del) delAddr;
    mret (rm, set_delegation rbalance (delReleasedHes del) lbalance
                (delRestrictingPlanHes del) del, subHes, r1 - rm)
  else mret (r1, del, subHes, 0).

(** A delegation with nothing left is deleted and its income paid; the result
    is the income paid. *)
Definition storeDelegation (delAddr nodeId stakingBlockNum : Z) (cleared : bool)
    (del : Delegation) : M World Z :=
  if cleared then
    r ← try (on_state (ReturnDelegateReward delAddr (CumulativeIncome del)));
    match r with
    | inr _ => fail InternalError
    | inl _ =>
        DelDelegateStore delAddr nodeId stakingBlockNum ≫= λ _,
        mret (CumulativeIncome del)
    end
  else SetDelegateStore delAddr nodeId stakingBlockNum del ≫= λ _, mret 0.

(** The candidate loses the shares of the refund. *)
Definition withdrewShares (canAddr realSub : Z) (can : Candidate) : M World unit :=
  let c := canMutable can in
  c ← (if IsValid (Status c) then
         DelCanPowerStore can ≫= λ _,
         if realSub <? cmShares c then
           let c := SubShares realSub c in
           SetCanPowerStore canAddr (setMutable can c) ≫= λ _, mret c
         else panic
       else mret (if realSub <? cmShares c then SubShares realSub c else c));
  SetCanMutableStore canAddr c.

Definition WithdrewDelegation (blockNumber amount delAddr nodeId stakingBlockNum : Z)
    (del : Delegation) (delegateRewardPerList : list DelegateRewardPer) : M World Z :=
  canAddr ← ask (NodeId2Addr nodeId);
  o ← get_opt (GetCandidateStore canAddr);
  let total := calcDelegateTotalAmount del in
  if total <? amount then fail ErrDelegateVonNoEnough
  else
    let epoch := CalculateEpoch ec blockNumber in
    let realSub := calcRealRefund blockNumber total amount in
    '(rewardsReceive, del) ← ask (calcDelegateIncome epoch del delegateRewardPerList);
    UpdateDelegateRewardPer nodeId stakingBlockNum rewardsReceive ≫= λ _,
    let disordered := match o with
      | Some can => cbStakingBlockNum (canBase can) <? stakingBlockNum
      | None => false end in
    if disordered then fail ErrBlockNumberDisordered
    else
      '(left_, del, subHes, sub) ←
        refundDelegation realSub delAddr (set_delegateEpoch (u32 epoch) del);
      if negb (left_ =? 0) then fail ErrWrongWithdrewDelVonCalc
      else
        issueIncome ← storeDelegation delAddr nodeId stakingBlockNum (total =? realSub) del;
        match o with
        | Some can =>
            let c := (lazyCalcNodeTotalDelegateAmount epoch (canMutable can)).1 in
            let c := set_delegateTotals (cmDelegateEpoch c) (DelegateTotal c - sub)
                       (DelegateTotalHes c - subHes) c in
            when (stakingBlockNum =? cbStakingBlockNum (canBase can))
              (withdrewShares canAddr realSub (setMutable can c)) ≫= λ _,
            mret issueIncome
        | None => mret issueIncome
        end.

(** ** Start of an epoch *)

(** A verifier's record at the first block of an epoch. *)
Definition beginEpochStep (blockNumber : Z) (v : Validator) : M World unit :=
  r ← try (GetCanMutableStore (NodeAddress v));
  match r with
  | inr _ => fail GenericError
  | inl can =>
      if IsInvalid (Status can) then mret tt
      else
        let '(can, changed) :=
          lazyCalcNodeTotalDelegateAmount (CalculateEpoch ec blockNumber) can in
        let differs := negb (RewardPer can =? NextRewardPer can) in
        let can := if differs
          then set_rewardPer (NextRewardPer can) (NextRewardPer can)
                 (RewardPerChangeEpoch can) (CurrentEpochDelegateReward can)
                 (DelegateRewardTotal can) can
          else can in
        let paid := 0 <? CurrentEpochDelegateReward can in
        let can := if paid then CleanCurrentEpochDelegateReward can else can in
        if changed || differs || paid then SetCanMutableStore (NodeAddress v) can
        else mret tt
  end.

Definition StakingBeginBlock (blockNumber : Z) : M World unit :=
  if IsBeginOfEpoch ec blockNumber then
    current ← getVerifierList blockNumber;
    for_each (beginEpochStep blockNumber) (vaArr current)
  else mret tt.
End handlers.
