(* ===== verification/StakingSlash.v ===== *)
(** * Slashing of candidates ([SlashCandidates] and its helpers in
      src/pos/plugin/staking_plugin.go)

    A slash takes coins from the effective stake of a candidate, may return its
    hesitating stake, marks its status and removes it from the verifiers. *)

From S2P Require Import Prelude Xcom Xutil StateDB Restricting Keys StakingTypes.
From S2P Require Import StakingDB RewardPer ValidatorLists Staking.

Definition ErrCanNoExist := BizError 301102.
Definition ErrWrongSlashType := BizError 301117.
Definition ErrSlashVonOverflow := BizError 301118.
Definition ErrWrongSlashVonCalc := BizError 301119.

(** Take [amount] out of the staking contract, for the reporter of a double
    signature or for the reward pool. *)
Definition slashPay (amount slashType benefitAddr : Z) (s : StateDB) : StateDB :=
  let s := SubBalance StakingContractAddr amount s in
  if IsDuplicateSign slashType then AddBalance benefitAddr amount s
  else AddBalance RewardManagerPoolAddr amount s.

(** What is left to slash, and what is left of the balance. *)
Definition slashBalanceFn (slashAmount canBalance : Z) (isNotify : bool)
    (slashType benefitAddr stakingAddr : Z) : M World (Z * Z) :=
  if (canBalance =? 0) || (slashAmount =? 0) then mret (slashAmount, canBalance)
  else if canBalance <=? slashAmount then
    on_state (modify (slashPay canBalance slashType benefitAddr)) ≫= λ _,
    when isNotify (on_state (SlashingNotify stakingAddr canBalance)) ≫= λ _,
    mret (slashAmount - canBalance, 0)
  else
    on_state (modify (slashPay slashAmount slashType benefitAddr)) ≫= λ _,
    when isNotify (on_state (SlashingNotify stakingAddr slashAmount)) ≫= λ _,
    mret (0, canBalance - slashAmount).

Record slashEffect := {
  needInvalid : bool;
  needRemove : bool;
  needReturnHes : bool;
  changeStatus : Z }.

(** Shares were already cleaned by an earlier withdrawal or slash. *)
Definition sharesHaveBeenClean (status : Z) : bool :=
  IsInvalidLowRatioNotEnough status || IsInvalidLowRatioDel status
  || IsInvalidDuplicateSign status || IsInvalidWithdrew status.

Definition slashTypeIsWrong (slashType : Z) : bool :=
  negb (IsLowRatio slashType) && negb (IsLowRatioDel slashType)
  && negb (IsDuplicateSign slashType).

Section slash.
Context `{Env}.

Definition handleSlashTypeFn (blockNumber slashType remain : Z) : slashEffect :=
  if slashType =? LowRatio then
    let ok := (CheckStakeThreshold blockNumber remain).1 in
    {| needInvalid := true; needRemove := true; needReturnHes := negb ok;
       changeStatus := Z.lor (Z.lor (if ok then 0 else NotEnough) Invalided) slashType |}
  else if (slashType =? LowRatioDel) || (slashType =? DuplicateSign) then
    {| needInvalid := true; needRemove := true; needReturnHes := true;
       changeStatus := Z.lor Invalided slashType |}
  else
    {| needInvalid := false; needRemove := false; needReturnHes := false;
       changeStatus := slashType |}.

(** Slash the effective stake: free coins first, then restricted ones. *)
Definition slashStake (item : SlashNodeItem) (account : Z) (c : CandidateMutable)
    : M World CandidateMutable :=
  '(slashBalance, released) ←
    (if (0 <? snAmount item) && (0 <? Released c)
     then slashBalanceFn (snAmount item) (Released c) false (SlashType item)
            (BenefitAddr item) account
     else mret (snAmount item, Released c));
  '(slashBalance, restrictingPlan) ←
    (if (0 <? slashBalance) && (0 <? RestrictingPlan c)
     then slashBalanceFn slashBalance (RestrictingPlan c) true (SlashType item)
            (BenefitAddr item) account
     else mret (slashBalance, RestrictingPlan c));
  let c := set_stake released (ReleasedHes c) restrictingPlan (RestrictingPlanHes c) c in
  if negb (slashBalance =? 0) then fail ErrWrongSlashVonCalc
  else if sharesHaveBeenClean (Status c) then mret c
  else if snAmount item <=? cmShares c then mret (SubShares (snAmount item) c)
  else panic.

(** Store the slashed record, with the items its new status asks for. *)
Definition settleSlash (blockNumber canAddr : Z) (effect : slashEffect) (can : Candidate)
    : M World unit :=
  let c := canMutable can in
  let c' := AppendStatus (changeStatus effect) c in
  if needInvalid effect && IsValid (Status c) then
    (if needReturnHes effect then
       SubAccountStakeRc (StakingAddress (canBase can)) ≫= λ _,
       addUnStakeItem blockNumber (cbNodeId (canBase can)) canAddr
         (cbStakingBlockNum (canBase can))
     else addRecoveryUnStakeItem blockNumber canAddr
            (cbStakingBlockNum (canBase can))) ≫= λ _,
    SetCanMutableStore canAddr c'
  else if negb (needInvalid effect) && IsValid (Status c) then
    SetCanPowerStore canAddr can ≫= λ _,
    SetCanMutableStore canAddr c'
  else SetCanMutableStore canAddr c'.

(** The node address is zero when the node id has none. *)
Definition slashAddr (nodeId : Z) : Z :=
  match NodeId2Addr nodeId with Ok a => a | _ => 0 end.

Definition toSlash (blockNumber : Z) (item : SlashNodeItem) : M World bool :=
  if slashTypeIsWrong (SlashType item) then fail ErrWrongSlashType
  else
    let canAddr := slashAddr (snNodeId item) in
    o ← get_opt (GetCandidateStore canAddr);
    match o with
    | None => fail ErrCanNoExist
    | Some can =>
        let c := lazyCalcStakeAmount (CalculateEpoch ec blockNumber) (canMutable can) in
        let account := StakingAddress (canBase can) in
        if Released c + RestrictingPlan c <? snAmount item then fail ErrSlashVonOverflow
        else
          DelCanPowerStore (setMutable can c) ≫= λ _,
          c ← (if IsLowRatio (Status c) && IsLowRatio (SlashType item) then mret c
               else slashStake item account c);
          let effect := handleSlashTypeFn blockNumber (SlashType item)
                          (calcCandidateTotalAmount c) in
          c ← (if needRemove effect then
                 _ ← try (on_state (ReturnDelegateReward (BenefitAddress (canBase can))
                                      (CurrentEpochDelegateReward c)));
                 mret (CleanCurrentEpochDelegateReward c)
               else mret c);
          c ← (if needReturnHes effect then
                 c ← returnHes account c; mret (CleanShares c)
               else mret c);
          settleSlash blockNumber canAddr effect (setMutable can c) ≫= λ _,
          mret (needRemove effect)
    end.

(** The nodes to remove, and those that also lose their governance vote. *)
Fixpoint slashLoop (blockNumber : Z) (queue : list SlashNodeItem)
    : M World (list Z * list Z) :=
  match queue with
  | [] => mret ([], [])
  | item :: rest =>
      removed ← toSlash blockNumber item;
      '(invalid, gov) ← slashLoop blockNumber rest;
      mret (if (removed : bool) then
              (snNodeId item :: invalid,
               if SlashType item =? LowRatio then gov else snNodeId item :: gov)
            else (invalid, gov))
  end.

Definition removeFromVerifiers (blockNumber : Z) (slashNodeIds : list Z) : M World unit :=
  verifier ← getVerifierList blockNumber;
  let arr := filter (λ v, NodeId v ∉ slashNodeIds) (vaArr verifier) in
  if (length arr =? length (vaArr verifier))%nat then mret tt
  else setVerifierListByIndex
         {| vaStart := vaStart verifier; vaEnd := vaEnd verifier; vaArr := arr |}.

Definition SlashCandidates (blockNumber : Z) (queue : list SlashNodeItem) : M World unit :=
  '(invalid, gov) ← slashLoop blockNumber queue;
  match invalid with
  | [] => mret tt
  | _ =>
      removeFromVerifiers blockNumber invalid ≫= λ _,
      match gov with
      | [] => mret tt
      | _ => ask (NotifyPunishedVerifiers gov)
      end
  end.
End slash.
