(* ===== verification/Election.v ===== *)
(** * Elections (src/pos/plugin/staking_plugin.go)

    At the end of an epoch the candidates with the most power become the
    verifiers of the next epoch.  Once in every consensus round the validators of
    the next round are chosen: validators that must leave are dropped, others make
    room for verifiers drawn by lottery, and the result is put in a random order.

    The numbers of the lottery are quantiles of binomial distributions (Binomial).
    The class [Lottery] is what the elections use of Go's library and of the VRF
    library: the elementary functions, the random source, the sort and the hash of
    a proof. *)

From Stdlib Require Import SpecFloat.
From S2P Require Import Float64 Binomial.
From S2P Require Import Prelude Xcom Xutil StateDB Restricting Keys StakingTypes ValidatorSort.
From S2P Require Import StakingDB RewardPer ValidatorLists Staking StakingSlash.

Definition ErrWrongFuncParams := BizError 301116.
Definition FORKVERSION_1_1_0 : Z := Z.lor (Z.lor (2 ^ 16) (2 ^ 8)) 0.

Definition Gte110Version (version : Z) : bool := FORKVERSION_1_1_0 <=? version.

(** ** The lottery *)

(** [xcom.CalcP] and [xcom.CalcPV110] *)
Definition ElectionBase : Z := 30.
Definition ElectionBasePIP3 : Z := 43.

Definition CalcP (totalWeight sqrtWeight : float64) : float64 :=
  fdiv (of_Z ElectionBase) sqrtWeight.

Definition CalcPV110 (sqrtWeight : float64) : float64 :=
  fdiv (of_Z ElectionBasePIP3) sqrtWeight.

(** [strconv.ParseFloat] of an integer: an error when it is too large. *)
Definition ParseFloat (z : Z) : outcome float64 :=
  let f := of_Z z in if IsInf f then Err GenericError else Ok f.

Record sortValidator := {
  svV : Validator;
  svX : Z;
  svWeights : Z;
  svVersion : Z;
  svBlockNumber : Z;
  svTxIndex : Z }.

Class Lottery := {
  #[global] lottery_math :: GoMath;
  (** [vrf.ProofToHash] of the proof in a block header *)
  ProofToHash : list Z → list Z;
  (** [rand.Shuffle] of [n] entries with a seed: the position that position [i] is
      swapped with *)
  shuffleIndex : Z → nat → nat → nat;
  (** [sort.Sort] for a [Less] *)
  goSort : ∀ {A}, (A → A → bool) → list A → list A }.

(** What the documentation of Go's library promises. *)
Class LotteryLaws `{Lottery} : Prop := {
  goSort_perm A (less : A → A → bool) l : goSort less l ≡ₚ l }.

Definition sortLess (a b : sortValidator) : bool :=
  if CalcVersion (svVersion a) =? CalcVersion (svVersion b) then
    if svX a =? svX b then
      if svBlockNumber a =? svBlockNumber b then
        if svTxIndex a =? svTxIndex b then false
        else svTxIndex a <? svTxIndex b
      else svBlockNumber a <? svBlockNumber b
    else svX b <? svX a
  else CalcVersion (svVersion b) <? CalcVersion (svVersion a).

Definition newSortLess (a b : sortValidator) : bool :=
  if CalcVersion (svVersion a) =? CalcVersion (svVersion b) then svX b <? svX a
  else CalcVersion (svVersion b) <? CalcVersion (svVersion a).

Section lottery.
Context `{Lottery}.

(** The whole weight, its square root; [big.Int.Sqrt] panics on a negative one. *)
Definition weightsOf (val : Validator) : outcome (Z * Z) :=
  let weights := Shares val / 10 ^ 18 in
  if weights <? 0 then Panic else Ok (weights, Z.sqrt weights).

Definition toSort (val : Validator) (sqrtWeights : Z) : sortValidator :=
  {| svV := val; svX := 0; svWeights := i64 sqrtWeights; svVersion := ProgramVersion val;
     svBlockNumber := StakingBlockNum val; svTxIndex := StakingTxIndex val |}.

(** The entries, with the totals of the weights and of their square roots. *)
Fixpoint collectWeights (validatorList : list Validator)
    : outcome (Z * Z * list sortValidator) :=
  match validatorList with
  | [] => Ok (0, 0, [])
  | val :: rest =>
      '(weights, root) ← weightsOf val;
      '(total, totalSqrt, svs) ← collectWeights rest;
      Ok (weights + total, root + totalSqrt, toSort val root :: svs)
  end.

(** [for i := n - 1; i > 0; i--] of [rand.Shuffle]. *)
Fixpoint goShuffle {A} (seed : Z) (n i : nat) (l : list A) : list A :=
  match i with
  | O => l
  | S j => goShuffle seed n j (swap i (shuffleIndex seed n i) l)
  end.

Definition set_x (x : Z) (sv : sortValidator) : sortValidator :=
  {| svV := svV sv; svX := x; svWeights := svWeights sv; svVersion := svVersion sv;
     svBlockNumber := svBlockNumber sv; svTxIndex := svTxIndex sv |}.

Definition maxValue : float64 := of_Z (2 ^ 256 - 1).

Fixpoint drawAll (p : float64) (currentNonce : Z) (svs : list sortValidator)
    (preNonces : list (list Z)) : outcome (list sortValidator) :=
  match svs, preNonces with
  | [], _ => Ok []
  | sv :: svs, nonce :: preNonces =>
      target ← ParseFloat (Z.lxor currentNonce (from_be nonce));
      let targetP := fdiv target maxValue in
      let bd := {| trials := svWeights sv; probability := p |} in
      x ← InverseCumulativeProbability bd targetP;
      rest ← drawAll p currentNonce svs preNonces;
      Ok (set_x x sv :: rest)
  | _ :: _, [] => Panic
  end.

(** [shiftLen] is never more than the number of validators. *)
Definition probabilityElection (validatorList : list Validator) (shiftLen : nat)
    (currentNonce : list Z) (preNonces : list (list Z)) (currentVersion : Z)
    : outcome (list Validator) :=
  match currentNonce, preNonces with
  | [], _ | _, [] => Err ErrWrongFuncParams
  | _, first :: _ =>
      if negb (length validatorList =? length preNonces)%nat then Err ErrWrongFuncParams
      else
        '(total, totalSqrt, svList) ← collectWeights validatorList;
        totalWeightsFloat ← ParseFloat total;
        totalSqrtWeightsFloat ← ParseFloat totalSqrt;
        let p := if Gte110Version currentVersion then CalcPV110 totalSqrtWeightsFloat
                 else CalcP totalWeightsFloat totalSqrtWeightsFloat in
        let shuffleSeed := i64 (from_be first) in
        let svList := if Gte110Version currentVersion
                      then goShuffle shuffleSeed (length svList) (length svList - 1) svList
                      else svList in
        svList ← drawAll p (from_be currentNonce) svList preNonces;
        let svList := if Gte110Version currentVersion then goSort newSortLess svList
                      else goSort sortLess svList in
        Ok (take shiftLen (map svV svList))
  end.

(** [loaded] is what the VRF handler has stored for the parent block. *)
Definition vrfElection (loaded : outcome (list (list Z))) (validatorList : list Validator)
    (shiftLen : nat) (nonce : list Z) (currentVersion : Z) : outcome (list Validator) :=
  preNonces ← loaded;
  if (length preNonces <? length validatorList)%nat then Err ErrWrongFuncParams
  else
    let preNonces := drop (length preNonces - length validatorList) preNonces in
    probabilityElection validatorList shiftLen (ProofToHash nonce) preNonces currentVersion.

(** ** Random order *)

(** The address of a validator, mixed with the first 20 bytes of a nonce. *)
Definition orderValue (preNonces : list (list Z)) (i : nat) (v : Validator) : outcome Z :=
  match preNonces !! (i mod length preNonces)%nat with
  | Some nonce =>
      if (length nonce <? AddressLength)%nat then Panic
      else Ok (Z.lxor (NodeAddress v) (from_be (take AddressLength nonce)))
  | None => Panic
  end.

Fixpoint orderValues (preNonces : list (list Z)) (i : nat) (queue : list Validator)
    : outcome (list (Validator * Z)) :=
  match queue with
  | [] => Ok []
  | v :: rest =>
      value ← orderValue preNonces i v;
      l ← orderValues preNonces (S i) rest;
      Ok ((v, value) :: l)
  end.

Definition orderLess (a b : Validator * Z) : bool := b.2 <? a.2.

(** The first [f] validators and the others are ordered separately. *)
Definition randomOrderValidatorQueue (ec : EconomicModel) (loaded : outcome (list (list Z)))
    (blockNumber : Z) (queue : list Validator) : outcome (list Validator) :=
  preNonces ← loaded;
  let n := length queue in
  let shift := Z.to_nat (ShiftValidatorNum ec) in
  if (length preNonces =? 0)%nat then Err ErrWrongFuncParams
  else if (Z.of_nat n <=? i64 blockNumber) && (length preNonces <? n)%nat
  then Err ErrWrongFuncParams
  else
    let preNonces := drop (length preNonces - n) preNonces in
    if (n <=? shift)%nat then Ok queue
    else
      orderList ← orderValues preNonces 0 queue;
      let frontPart := goSort orderLess (take shift orderList) in
      let backPart := goSort orderLess (drop shift orderList) in
      Ok (map fst (frontPart ++ backPart)).
End lottery.

(** ** Verifiers of the next epoch *)

Section elections.
Context `{Env, Lottery}.

Definition validatorOf (addr : Z) (base : CandidateBase) (c : CandidateMutable) : Validator :=
  {| ProgramVersion := cbProgramVersion base; StakingTxIndex := cbStakingTxIndex base;
     ValidatorTerm := 0; StakingBlockNum := cbStakingBlockNum base; NodeAddress := addr;
     NodeId := cbNodeId base; BlsPubKey := cbBlsPubKey base; Shares := cmShares c |}.

(** The loop over the candidates in the order of their power; a power entry whose
    candidate is gone is deleted. *)
Fixpoint electLoop (currVersion : Z) (powers : list (PowerKey * Z))
    : M World (list Validator) :=
  match powers with
  | [] => mret []
  | (key, addr) :: rest =>
      o ← get_opt (GetCanBaseStore addr);
      match o with
      | None =>
          db_put (λ d, set_canPowers d (delete key (canPowers d))) ≫= λ _,
          electLoop currVersion rest
      | Some canBase =>
          if CalcVersion (cbProgramVersion canBase) <? currVersion
          then electLoop currVersion rest
          else
            canMutable ← GetCanMutableStore addr;
            queue ← electLoop currVersion rest;
            mret (validatorOf addr canBase canMutable :: queue)
      end
  end.

Definition ElectNextVerifierList (blockNumber : Z) : M World unit :=
  oldIndex ← getVeriferIndex blockNumber;
  if negb (End_ oldIndex =? blockNumber) then fail ErrBlockNumberDisordered
  else
    let start := u64 (End_ oldIndex + 1) in
    let end_ := u64 (End_ oldIndex + CalcBlocksEachEpoch ec) in
    let currVersion := CalcVersion GetVersionForStaking in
    if GetCurrentActiveVersion =? 0 then fail GenericError
    else
      maxvalidators ← ask (GovernMaxValidators blockNumber);
      powers ← gets (λ w, IteratorCandidatePower (snapDB w) (Z.to_nat maxvalidators));
      queue ← electLoop currVersion powers;
      match queue with
      | [] => panic
      | _ => setVerifierListAndIndex {| vaStart := start; vaEnd := end_; vaArr := queue |}
      end.

(** ** Validators of the next round *)

Definition IsExistInitialChosenValidators (nodeId : Z) : bool :=
  existsb (Z.eqb nodeId) (InitialChosenValidators ec).

(** Slashed and to be removed. *)
Definition checkHaveSlash (status : Z) : bool :=
  IsInvalidLowRatioDel status || IsInvalidLowRatio status
  || IsInvalidLowRatioNotEnough status || IsInvalidDuplicateSign status.

(** What the election knows of the validators of the current round. *)
Record Survey := {
  removeCans : NeedRemoveCans;
  invalidCan : gset Z;
  withdrewCans : NeedRemoveCans;
  withdrewQueue : list Z;
  lowRatioValid : list Candidate;
  currMap : gmap Z Z;
  currqueen : list Validator }.

Definition emptySurvey : Survey :=
  {| removeCans := ∅; invalidCan := ∅; withdrewCans := ∅; withdrewQueue := [];
     lowRatioValid := []; currMap := ∅; currqueen := [] |}.

(** One validator of the current round, with its candidate. *)
Definition surveyOne (currVersion : Z) (v : Validator) (can : Candidate) (s : Survey)
    : Survey :=
  let c := canMutable can in
  let isSlash := checkHaveSlash (Status c) in
  let isWithdrew := IsInvalidWithdrew (Status c) && negb isSlash in
  let isLowVersion := CalcVersion (cbProgramVersion (canBase can)) <? currVersion in
  let isRemoved := isSlash || isLowVersion in
  {| removeCans := if isRemoved then <[NodeId v := c]> (removeCans s) else removeCans s;
     invalidCan := if isRemoved then {[cbNodeId (canBase can)]} ∪ invalidCan s
                   else invalidCan s;
     withdrewCans := if isWithdrew then <[NodeId v := c]> (withdrewCans s)
                     else withdrewCans s;
     withdrewQueue := if isWithdrew then withdrewQueue s ++ [NodeId v] else withdrewQueue s;
     lowRatioValid := if IsValid (Status c) && IsLowRatio (Status c)
                      then lowRatioValid s ++ [can] else lowRatioValid s;
     currMap := <[NodeId v := Shares v]> (currMap s);
     currqueen := currqueen s ++ [v] |}.

(** A validator whose candidate is gone is left out. *)
Fixpoint surveyLoop (currVersion : Z) (arr : list Validator) (s : Survey) : M World Survey :=
  match arr with
  | [] => mret s
  | v :: rest =>
      o ← get_opt (GetCandidateStore (slashAddr (NodeId v)));
      match o with
      | None => surveyLoop currVersion rest s
      | Some can => surveyLoop currVersion rest (surveyOne currVersion v can s)
      end
  end.

(** The shares of the verifiers replace those of the validators, a validator that
    has withdrawn stays while it is a verifier, and the other verifiers that may be
    elected are collected. *)
Fixpoint verifierLoop (currVersion : Z) (arr : list Validator)
    (withdrew : NeedRemoveCans) (shares : gmap Z Z)
    : M World (NeedRemoveCans * gmap Z Z * list Validator) :=
  match arr with
  | [] => mret (withdrew, shares, [])
  | v :: rest =>
      let withdrew := delete (NodeId v) withdrew in
      match shares !! NodeId v with
      | Some _ => verifierLoop currVersion rest withdrew (<[NodeId v := Shares v]> shares)
      | None =>
          o ← get_opt (GetCandidateStore (slashAddr (NodeId v)));
          '(withdrew, shares, queue) ← verifierLoop currVersion rest withdrew shares;
          mret (withdrew, shares,
                match o with
                | Some can =>
                    if checkHaveSlash (Status (canMutable can))
                       || (CalcVersion (cbProgramVersion (canBase can)) <? currVersion)
                    then queue else v :: queue
                | None => queue
                end)
      end
  end.

(** [copy(copyCurrQueue, currQueue[invalidLen:])] after sorting by the rule for
    deletion, with one term more and the new shares. *)
Definition ageValidator (shares : gmap Z Z) (v : Validator) : Validator :=
  {| ProgramVersion := ProgramVersion v; StakingTxIndex := StakingTxIndex v;
     ValidatorTerm := u32 (ValidatorTerm v + 1); StakingBlockNum := StakingBlockNum v;
     NodeAddress := NodeAddress v; NodeId := NodeId v; BlsPubKey := BlsPubKey v;
     Shares := default 0 (shares !! NodeId v) |}.

Definition remainingValidators (removes : NeedRemoveCans) (shares : gmap Z Z)
    (invalidLen : nat) (currQueue : list Validator) : outcome (list Validator) :=
  if (length currQueue <? invalidLen)%nat then Panic
  else Ok (drop invalidLen
             (ValidatorSort removes (Some CompareForDel)
                (map (ageValidator shares) currQueue))).

(** Remove the first validator that is not one of the initial ones. *)
Fixpoint removeFirstOther (l : list Validator) : list Validator :=
  match l with
  | [] => []
  | v :: rest =>
      if negb (IsExistInitialChosenValidators (NodeId v)) then rest
      else v :: removeFirstOther rest
  end.

(** [for remainLen > max-shift && totalQueueLen > max { ... }]; there is no result
    while the loop has not ended.  A pass that finds nothing to remove changes
    nothing, and the loop does not end. *)
Fixpoint trimLoop (fuel : nat) (remain : list Validator) (vrfLen : nat)
    : option (list Validator) :=
  let max := Z.to_nat (MaxConsensusVals (Common ec)) in
  let shift := Z.to_nat (ShiftValidatorNum ec) in
  if (max - shift <? length remain)%nat && (max <? length remain + vrfLen)%nat then
    match fuel with
    | O => None
    | S fuel => trimLoop fuel (removeFirstOther remain) vrfLen
    end
  else Some remain.

(** The number of passes is at most the number of validators, unless the loop does
    not end; then there is no result, which is a [Panic] here. *)
Definition shuffleQueue (loaded : outcome (list (list Z))) (remainCurrQueue vrfQueue : list Validator)
    (blockNumber : Z) : outcome (list Validator) :=
  match trimLoop (length remainCurrQueue) remainCurrQueue (length vrfQueue) with
  | None => Panic
  | Some remain =>
      let totalQueue := remain ++ vrfQueue in
      let next := take (Z.to_nat (MaxConsensusVals (Common ec))) totalQueue in
      randomOrderValidatorQueue ec loaded blockNumber next
  end.

(** The validator addresses of a round are kept as long as evidence may be
    reported: the loop that deletes older ones. *)
Fixpoint cleanRounds (fuel : nat) (invalidRound boundary newBoundary : Z) (first : bool)
    : M World unit :=
  match fuel with
  | O => mret tt
  | S fuel =>
      if boundary <? invalidRound then
        DelRoundValidatorAddrs invalidRound ≫= λ _,
        (if first then SetRoundAddrBoundary newBoundary else mret tt) ≫= λ _,
        cleanRounds fuel (u64 (invalidRound - 1)) boundary newBoundary false
      else mret tt
  end.

Definition storeRoundValidatorAddrs (blockNumber nextStart : Z) (array : list Validator)
    : M World unit :=
  let nextRound := CalculateRound ec nextStart in
  let nextEpoch := CalculateEpoch ec nextStart in
  evidenceAge ← ask (GovernMaxEvidenceAge blockNumber);
  let validEpochCount := u32 (evidenceAge + 1) in
  let validRoundCount := u64 (EpochSize ec * validEpochCount) in
  (if validEpochCount <? nextEpoch then
     let invalidRound := u64 (nextRound - validRoundCount) in
     o ← get_opt GetRoundAddrBoundary;
     let boundary := default 0 o in
     let boundary := if boundary =? 0 then u64 (invalidRound - 1) else boundary in
     cleanRounds (Z.to_nat (invalidRound - boundary)) invalidRound boundary invalidRound true
   else mret tt) ≫= λ _,
  StoreRoundValidatorAddrs nextRound (map NodeAddress array).

Definition cleanLowRatio (can : Candidate) : M World unit :=
  SetCandidateStore (slashAddr (cbNodeId (canBase can)))
    (setMutable can (CleanLowRatioStatus (canMutable can))).

(** [nonce] is the proof in the header, [loaded] the nonces stored for the parent. *)
Definition Election (loaded : outcome (list (list Z))) (nonce : list Z) (blockNumber : Z)
    : M World unit :=
  verifiers ← or_else (getVerifierList blockNumber) ErrValidatorNoExist;
  curr ← or_else (getCurrValList blockNumber) ErrValidatorNoExist;
  if negb (blockNumber =? u64 (vaEnd curr - ElectionDistance ec))
  then fail ErrBlockNumberDisordered
  else
    let start := u64 (vaEnd curr + 1) in
    let end_ := u64 (vaEnd curr + ConsensusSize ec) in
    let currVersion := CalcVersion GetVersionForStaking in
    if GetCurrentActiveVersion =? 0 then fail GenericError
    else
      s ← surveyLoop currVersion (vaArr curr) emptySurvey;
      '(withdrew, shares, diffQueue) ←
        verifierLoop currVersion (vaArr verifiers) (withdrewCans s) (currMap s);
      let withdrewQueue := filter (λ n, is_Some (withdrew !! n)) (withdrewQueue s) in
      let removes := filter (λ p, IsExistInitialChosenValidators p.1 = false)
        (foldl (λ m n, match withdrew !! n with Some c => <[n := c]> m | None => m end)
           (removeCans s) withdrewQueue) in
      let invalid := filter (λ n, IsExistInitialChosenValidators n = false)
        (invalidCan s ∪ list_to_set withdrewQueue) in
      let vrfLen := Nat.min (length diffQueue) (Z.to_nat (MaxConsensusVals (Common ec))) in
      vrfQueue ← (if (vrfLen =? 0)%nat then mret []
                  else ask (vrfElection loaded diffQueue vrfLen nonce
                              GetCurrentActiveVersion));
      remain ← ask (remainingValidators removes shares (size invalid) (currqueen s));
      nextQueue ← ask (shuffleQueue loaded remain vrfQueue blockNumber);
      match nextQueue with
      | [] => panic
      | _ =>
          setRoundValListAndIndex {| vaStart := start; vaEnd := end_; vaArr := nextQueue |}
            ≫= λ _,
          for_each cleanLowRatio (lowRatioValid s) ≫= λ _,
          storeRoundValidatorAddrs blockNumber start nextQueue
      end.

(** ** End of a block *)

Definition StakingEndBlock (loaded : outcome (list (list Z))) (nonce : list Z)
    (blockNumber : Z) : M World unit :=
  (if IsEndOfEpoch ec blockNumber then
     HandleUnCandidateItem blockNumber (CalculateEpoch ec blockNumber) ≫= λ _,
     ElectNextVerifierList blockNumber
   else mret tt) ≫= λ _,
  (if IsElection ec blockNumber then Election loaded nonce blockNumber else mret tt).
End elections.
