(* ===== verification/StakingProofs.v ===== *)
(** * Coins held by the staking contract

    The theorems about the handlers of Staking and StakingSlash.  What the
    staking contract holds beyond the recorded stakes and delegations is the
    same before and after every successful operation, so no operation pays out
    coins that belong to somebody else or strands coins it has taken in. *)

From S2P Require Import Prelude Xcom Xutil StateDB Restricting RestrictingProofs Keys.
From S2P Require Import StakingTypes StakingDB RewardPer ValidatorLists Staking.
From S2P Require Import StakingSlash.

(** ** Recorded amounts *)

(** All stakes and delegations on record. *)
Definition held (d : SnapshotDB) : Z :=
  msum calcCandidateTotalAmount (canMutables d) + msum calcDelegateTotalAmount (delegates d).

Definition surplus (w : World) : Z :=
  GetBalance (stateDB w) StakingContractAddr - held (snapDB w).

(** Stored records are encodable, so their amounts are not negative. *)
Definition db_ok (d : SnapshotDB) : Prop :=
  map_Forall (λ _ c, mutable_encodable c = true) (canMutables d)
  ∧ map_Forall (λ _ x, delegation_encodable x = true) (delegates d).

(** [δ] coins came into the staking contract and no record changed. *)
Record moved (δ : Z) (w w' : World) : Prop := {
  mv_balance : GetBalance (stateDB w') StakingContractAddr
               = GetBalance (stateDB w) StakingContractAddr + δ;
  mv_supply : total_supply (stateDB w') = total_supply (stateDB w);
  mv_bases : canBases (snapDB w') = canBases (snapDB w);
  mv_mutables : canMutables (snapDB w') = canMutables (snapDB w);
  mv_delegates : delegates (snapDB w') = delegates (snapDB w) }.

Lemma moved_refl w : moved 0 w w.
Proof. split; [lia|done..]. Qed.

Lemma moved_trans δ1 δ2 w1 w2 w3 : moved δ1 w1 w2 → moved δ2 w2 w3 → moved (δ1 + δ2) w1 w3.
Proof. intros [] []. split; [lia|congruence..]. Qed.

Lemma moved_eq δ δ' w w' : moved δ w w' → δ = δ' → moved δ' w w'.
Proof. by intros ? <-. Qed.

(** The handlers' amounts leave the surplus where records change with them. *)
Lemma moved_held δ w w' : moved δ w w' → held (snapDB w') = held (snapDB w).
Proof. intros []. unfold held. congruence. Qed.

Lemma moved_db_ok δ w w' : moved δ w w' → db_ok (snapDB w) → db_ok (snapDB w').
Proof. intros []. unfold db_ok. congruence. Qed.

(** A successful run, as a move of coins. *)
Definition moves {A} (m : M World A) (f : A → Z) : Prop :=
  ∀ w a w', m w = (Ok a, w') → moved (f a) w w'.

(** *** State operations *)

Lemma on_state_inv {A} (m : M StateDB A) w a w' :
  on_state m w = (Ok a, w') →
  snapDB w' = snapDB w ∧ m (stateDB w) = (Ok a, stateDB w').
Proof. unfold on_state. destruct (m (stateDB w)) as [r s]. by intros [= -> <-]. Qed.

Lemma on_state_moves {A} (m : M StateDB A) f :
  conserves m →
  (∀ s a s', m s = (Ok a, s') →
     GetBalance s' StakingContractAddr = GetBalance s StakingContractAddr + f a) →
  moves (on_state m) f.
Proof.
  intros Hc Hb w a w' [Hd H]%on_state_inv. specialize (Hc (stateDB w)). rewrite H in Hc.
  split; [by apply Hb|done|by rewrite Hd..].
Qed.

Lemma St_ne_R : (StakingContractAddr =? RestrictingContractAddr) = false.
Proof. done. Qed.

(** Balance of the staking contract after transfers. *)
Ltac st_balance :=
  repeat (rewrite GetBalance_transfer || rewrite GetBalance_Add || rewrite GetBalance_Sub);
  rewrite ?Z.eqb_refl, ?St_ne_R;
  repeat match goal with |- context [?x =? ?y] => destruct (Z.eqb_spec x y) end;
  try discriminate; try congruence; try lia.

Lemma fund_moves account x :
  account ≠ StakingContractAddr →
  moves (on_state (modify (transferAmount account StakingContractAddr x))) (λ _, x).
Proof.
  intros Ha. apply on_state_moves.
  - apply conserves_modify, total_supply_transfer.
  - intros s _ s' [_ <-]%pair_Ok_eq. st_balance.
Qed.

Lemma refund_moves account x :
  account ≠ StakingContractAddr →
  moves (on_state (modify (refund account x))) (λ _, - x).
Proof.
  intros Ha. apply on_state_moves.
  - apply conserves_modify. intros s. unfold refund. autorewrite with state. lia.
  - intros s _ s' [_ <-]%pair_Ok_eq. unfold refund. st_balance.
Qed.

Lemma storeRestrictingInfo_balance a i s s' b :
  storeRestrictingInfo a i s = (Ok tt, s') → GetBalance s' b = GetBalance s b.
Proof. unfold storeRestrictingInfo. case_match; [|done]. by intros [= <-]. Qed.

Lemma storeOrRemove_balance a i s s' b :
  storeOrRemove a i s = (Ok tt, s') → GetBalance s' b = GetBalance s b.
Proof.
  unfold storeOrRemove. case_match; [by intros [= <-]|]. apply storeRestrictingInfo_balance.
Qed.

Lemma AdvanceLockedFunds_moves account x :
  moves (on_state (AdvanceLockedFunds account x)) (λ _, x).
Proof.
  apply on_state_moves; [apply AdvanceLockedFunds_conserves|]. intros s [] s' Hrun.
  unfold AdvanceLockedFunds in Hrun. apply bind_Ok_inv in Hrun as (i & s1 & Hi & Hrun).
  assert (s1 = s) as ->.
  { unfold mustGetRestrictingInfoByDecode in Hi. by run_inv. }
  run_inv; bool_to_prop; subst; [lia|]. destruct a.
  st_balance. erewrite storeRestrictingInfo_balance by done. lia.
Qed.

Lemma MixAdvanceLockedFunds_moves account x :
  account ≠ StakingContractAddr →
  moves (on_state (MixAdvanceLockedFunds account x)) (λ p, p.1 + p.2).
Proof.
  intros Ha. apply on_state_moves; [apply MixAdvanceLockedFunds_conserves|].
  intros s [p q] s'. unfold MixAdvanceLockedFunds, mustGetRestrictingInfoByDecode. run_eval.
  destruct (getRestrictingInfo s account) as [i|].
  - destruct (x <? 0); [done|]. destruct (Z.eqb_spec x 0) as [->|].
    { intros [= <- <- <-]. cbn. lia. }
    destruct (_ + _ <? x); [done|]. unfold storeRestrictingInfo, modify.
    destruct (_ - _ <? x); cbv beta iota; (destruct (encodable _); [|done]).
    all: intros [= <- <- <-]; cbn [fst snd]; st_balance; rewrite GetBalance_setInfo; st_balance.
  - rewrite bool_decide_eq_true_2 by done. case_match; [done|].
    intros [= <- <- <-]. cbn [fst snd]. st_balance.
Qed.

Lemma settleReturn_balance a x i s :
  a ≠ StakingContractAddr →
  GetBalance (settleReturn a x i s).2 StakingContractAddr = GetBalance s StakingContractAddr.
Proof. intros Ha. unfold settleReturn. repeat case_match; cbn [snd]; st_balance. Qed.

Lemma ReturnLockFunds_moves account x :
  account ≠ StakingContractAddr →
  moves (on_state (ReturnLockFunds account x)) (λ _, - x).
Proof.
  intros Ha. apply on_state_moves; [apply ReturnLockFunds_conserves|]. intros s [] s'.
  unfold ReturnLockFunds, mustGetRestrictingInfoByDecode. run_eval.
  destruct (Z.eqb_spec x 0) as [->|]; [intros [= <-]; lia|].
  case_match; [done|]. destruct (getRestrictingInfo s account) as [i|]; [|done].
  case_match; [done|]. destruct (settleReturn _ _ _ _) as [i' s1] eqn:Hs.
  intros Hrun%(storeOrRemove_balance _ _ _ _ StakingContractAddr). rewrite Hrun.
  change s1 with (i', s1).2. rewrite <- Hs, settleReturn_balance by done. st_balance.
Qed.

Lemma SlashingNotify_moves account x :
  moves (on_state (SlashingNotify account x)) (λ _, 0).
Proof.
  apply on_state_moves; [apply SlashingNotify_conserves|]. intros s [] s'.
  unfold SlashingNotify, mustGetRestrictingInfoByDecode. run_eval.
  destruct (getRestrictingInfo s account) as [i|]; [|done].
  repeat (case_match; [intros [= <-]; lia || done|]).
  intros Hrun%(storeOrRemove_balance _ _ _ _ StakingContractAddr). lia.
Qed.

Lemma ReturnDelegateReward_conserves a x : conserves (ReturnDelegateReward a x).
Proof.
  intros s. unfold ReturnDelegateReward. case_match; [|done]. run_eval.
  case_match; [done|]. apply total_supply_transfer.
Qed.

Lemma ReturnDelegateReward_moves a x :
  a ≠ StakingContractAddr → moves (on_state (ReturnDelegateReward a x)) (λ _, 0).
Proof.
  intros Ha. apply on_state_moves; [apply ReturnDelegateReward_conserves|].
  intros s [] s'. unfold ReturnDelegateReward. case_match; [|intros [= <-]; lia]. run_eval.
  case_match; [done|]. intros [= <-]. st_balance.
Qed.

(** [ReturnDelegateReward] changes nothing when it fails. *)
Lemma try_ReturnDelegateReward_moves a x :
  a ≠ StakingContractAddr → moves (try (on_state (ReturnDelegateReward a x))) (λ _, 0).
Proof.
  intros Ha w r w' Hrun. unfold try in Hrun.
  destruct (on_state _ w) as [[u|e|] w1] eqn:H; simplify_eq.
  - by apply (ReturnDelegateReward_moves a x Ha) in H.
  - revert H. unfold on_state, ReturnDelegateReward.
    destruct (0 <? x); [|done]. run_eval. destruct (_ <? x); [|done].
    intros [= _ <-]. destruct w. apply moved_refl.
Qed.

Lemma slashPay_moves x typ benefit :
  benefit ≠ StakingContractAddr →
  moves (on_state (modify (slashPay x typ benefit))) (λ _, - x).
Proof.
  intros Hb. apply on_state_moves.
  - apply conserves_modify. intros s. unfold slashPay.
    case_match; autorewrite with state; lia.
  - intros s _ s' [_ <-]%pair_Ok_eq. unfold slashPay. case_match; st_balance.
Qed.

(** *** Operations that touch neither coins nor stakes *)

Definition quiet {A} (m : M World A) : Prop := moves m (λ _, 0).

Lemma quiet_bind {A B} (m : M World A) (k : A → M World B) :
  quiet m → (∀ a, quiet (k a)) → quiet (m ≫= k).
Proof.
  intros Hm Hk w b w' (a & w1 & H1 & H2)%bind_Ok_inv.
  apply (moved_trans 0 0 w w1 w'); [by apply (Hm w a)|by apply (Hk a w1 b)].
Qed.

Lemma quiet_ret {A} (a : A) : quiet (mret a).
Proof. intros w b w' [_ <-]%pair_Ok_eq. apply moved_refl. Qed.

Lemma quiet_gets {A} (f : World → A) : quiet (gets f).
Proof. intros w b w' [_ <-]%pair_Ok_eq. apply moved_refl. Qed.

Lemma quiet_fail {A} e : quiet (fail (A:=A) e).
Proof. done. Qed.

Lemma quiet_panic {A} : quiet (panic (A:=A)).
Proof. done. Qed.

Lemma quiet_ask {A} (o : outcome A) : quiet (ask o).
Proof. intros w b w' [= _ <-]. apply moved_refl. Qed.

Lemma quiet_put f :
  (∀ d, canBases (f d) = canBases d ∧ canMutables (f d) = canMutables d
        ∧ delegates (f d) = delegates d) →
  quiet (db_put f).
Proof.
  intros Hf w [] w' [_ <-]%pair_Ok_eq. destruct (Hf (snapDB w)) as (? & ? & ?).
  split; cbn; [lia|done..].
Qed.

(** A read leaves the world as it is, whatever it answers. *)
Lemma db_get_state {A} (f : SnapshotDB → option A) w : (db_get f w).2 = w.
Proof. unfold db_get. run_eval. by destruct (f (snapDB w)). Qed.

Lemma db_get_inv {A} (f : SnapshotDB → option A) w a w' :
  db_get f w = (Ok a, w') → w' = w ∧ f (snapDB w) = Some a.
Proof.
  unfold db_get. run_eval. destruct (f (snapDB w)); [|done]. by intros [= -> ->].
Qed.

Lemma quiet_db_get {A} (f : SnapshotDB → option A) : quiet (db_get f).
Proof. intros w a w' [-> _]%db_get_inv. apply moved_refl. Qed.

Lemma get_opt_inv {A} (m : M World A) w o w' :
  (m w).2 = w → get_opt m w = (Ok o, w') →
  w' = w ∧ match o with Some a => m w = (Ok a, w) | None => m w = (Err DbNotFound, w) end.
Proof.
  intros Hm. unfold get_opt, try. run_eval.
  destruct (m w) as [[a|e|] w1]; cbn in Hm; subst; [by intros [= <- <-]| |done].
  case_bool_decide; [|done]. subst. by intros [= <- <-].
Qed.

(** Decompose a handler into the operations it calls. *)
Create HintDb quiet.
Ltac quiet_step :=
  match goal with
  | |- quiet (mret _) => apply quiet_ret
  | |- quiet (gets _) => apply quiet_gets
  | |- quiet (fail _) => apply quiet_fail
  | |- quiet panic => apply quiet_panic
  | |- quiet (ask _) => apply quiet_ask
  | |- quiet (db_get _) => apply quiet_db_get
  | |- quiet (db_put _) => apply quiet_put; done
  | |- quiet (_ ≫= _) => apply quiet_bind; [|intros ?]
  | |- quiet (match ?x with _ => _ end) => destruct x
  | |- quiet (let _ := _ in _) => cbv zeta
  end.
Ltac quiet := repeat quiet_step; eauto with quiet.

Lemma SetCanPowerStore_quiet addr can : quiet (SetCanPowerStore addr can).
Proof. unfold SetCanPowerStore. quiet. Qed.

Lemma DelCanPowerStore_quiet can : quiet (DelCanPowerStore can).
Proof. unfold DelCanPowerStore. quiet. Qed.

Lemma AddAccountStakeRc_quiet addr : quiet (AddAccountStakeRc addr).
Proof. unfold AddAccountStakeRc. quiet. Qed.

Lemma SubAccountStakeRc_quiet addr : quiet (SubAccountStakeRc addr).
Proof. unfold SubAccountStakeRc. quiet. Qed.

Lemma AddUnStakeItemStore_quiet epoch addr n r : quiet (AddUnStakeItemStore epoch addr n r).
Proof. unfold AddUnStakeItemStore. quiet. Qed.

Lemma DelUnStakeItemStore_quiet epoch index : quiet (DelUnStakeItemStore epoch index).
Proof. unfold DelUnStakeItemStore. quiet. Qed.

Lemma DelUnStakeCountStore_quiet epoch : quiet (DelUnStakeCountStore epoch).
Proof. unfold DelUnStakeCountStore. quiet. Qed.

#[export] Hint Resolve SetCanPowerStore_quiet DelCanPowerStore_quiet
  AddAccountStakeRc_quiet SubAccountStakeRc_quiet AddUnStakeItemStore_quiet
  DelUnStakeItemStore_quiet DelUnStakeCountStore_quiet : quiet.

Lemma get_opt_quiet {A} (m : M World A) : (∀ w, (m w).2 = w) → quiet (get_opt m).
Proof. intros Hm w o w' [-> _]%get_opt_inv; [apply moved_refl|done]. Qed.

Lemma GetCandidateStore_state addr w : (GetCandidateStore addr w).2 = w.
Proof.
  unfold GetCandidateStore, GetCanBaseStore, GetCanMutableStore, db_get. run_eval.
  destruct (canBases _ !! addr); [|done]. by destruct (canMutables _ !! addr).
Qed.

Lemma GetCandidateStore_inv addr w can w' :
  GetCandidateStore addr w = (Ok can, w') →
  w' = w ∧ canBases (snapDB w) !! addr = Some (canBase can)
  ∧ canMutables (snapDB w) !! addr = Some (canMutable can).
Proof.
  unfold GetCandidateStore. intros H. run_inv.
  repeat match goal with H : GetCanBaseStore _ _ = _ |- _ => apply db_get_inv in H as [-> ?]
    | H : GetCanMutableStore _ _ = _ |- _ => apply db_get_inv in H as [-> ?] end. done.
Qed.

Lemma keyAddr_quiet `{Env} nodeId : quiet (keyAddr nodeId).
Proof. unfold keyAddr. quiet. Qed.

Lemma updateLoop_quiet addr n indices receives :
  quiet (updateLoop addr n indices receives).
Proof.
  revert receives. induction indices as [|i indices IH]; intros receives; cbn [updateLoop];
    quiet.
Qed.

#[export] Hint Resolve keyAddr_quiet updateLoop_quiet : quiet.

Lemma UpdateDelegateRewardPer_quiet `{Env} nodeId n receives :
  quiet (UpdateDelegateRewardPer nodeId n receives).
Proof. unfold UpdateDelegateRewardPer. quiet. Qed.

Lemma addUnStakeItem_quiet `{Env} blockNumber nodeId canAddr n :
  quiet (addUnStakeItem blockNumber nodeId canAddr n).
Proof. unfold addUnStakeItem. quiet. Qed.

Lemma addRecoveryUnStakeItem_quiet `{Env} blockNumber canAddr n :
  quiet (addRecoveryUnStakeItem blockNumber canAddr n).
Proof. unfold addRecoveryUnStakeItem. quiet. Qed.

#[export] Hint Resolve UpdateDelegateRewardPer_quiet addUnStakeItem_quiet
  addRecoveryUnStakeItem_quiet : quiet.

(** ** Invariant and what a handler keeps *)

(** The two parts of a candidate's record. *)
Definition paired (d : SnapshotDB) : Prop :=
  ∀ addr, is_Some (canMutables d !! addr) → is_Some (canBases d !! addr).

(** Nobody stakes in the name of the staking contract itself, and a record is
    stored under the address of its node. *)
Definition base_ok `{Env} (addr : Z) (b : CandidateBase) : Prop :=
  StakingAddress b ≠ StakingContractAddr ∧ NodeId2Addr (cbNodeId b) = Ok addr.

(** Node ids are public keys and their addresses hashes: two node ids with the
    same address would be a collision. *)
Definition no_collision `{Env} : Prop :=
  ∀ n m a, NodeId2Addr n = Ok a → NodeId2Addr m = Ok a → n = m.

(** A candidate is stored with both its parts. *)
Definition staking_ok `{Env} (d : SnapshotDB) : Prop :=
  db_ok d ∧ map_Forall base_ok (canBases d) ∧ paired d.

Lemma paired_insert d d' addr c :
  paired d → is_Some (canBases d' !! addr) → canMutables d' = <[addr := c]> (canMutables d) →
  (∀ a, is_Some (canBases d !! a) → is_Some (canBases d' !! a)) → paired d'.
Proof.
  intros Hp Hb Hm Hs a. rewrite Hm. destruct (decide (addr = a)) as [<-|Hne]; [done|].
  rewrite lookup_insert_ne by done. intros ?. by apply Hs, Hp.
Qed.

Record keeps `{Env} (w w' : World) : Prop := {
  kp_surplus : surplus w' = surplus w;
  kp_supply : total_supply (stateDB w') = total_supply (stateDB w);
  kp_ok : staking_ok (snapDB w) → staking_ok (snapDB w') }.

#[export] Instance keeps_preorder `{Env} : PreOrder keeps.
Proof. split; [by intros w|]. intros w1 w2 w3 [] []. split; [congruence..|auto]. Qed.

Lemma moved_staking_ok `{Env} δ w w' : moved δ w w' → staking_ok (snapDB w) → staking_ok (snapDB w').
Proof.
  intros Hm [Hd [Hb Hp]]. split; [by eapply moved_db_ok|]. unfold paired.
  by rewrite (mv_bases _ _ _ Hm), (mv_mutables _ _ _ Hm).
Qed.

Lemma keeps_quiet `{Env} w w' : moved 0 w w' → keeps w w'.
Proof.
  intros Hm. split; [|apply Hm|by eapply moved_staking_ok].
  unfold surplus. rewrite (moved_held _ _ _ Hm), (mv_balance _ _ _ Hm). lia.
Qed.

Lemma quiet_keeps `{Env} {A} (m : M World A) w a w' : quiet m → m w = (Ok a, w') → keeps w w'.
Proof. intros Hq Hrun. apply keeps_quiet. by apply (Hq w a). Qed.

Lemma staking_ok_mutable `{Env} d addr c :
  staking_ok d → canMutables d !! addr = Some c → mutable_encodable c = true.
Proof. intros [[Hm _] _] Hc. by apply (Hm addr c). Qed.

Lemma staking_ok_delegate `{Env} d k x :
  staking_ok d → delegates d !! k = Some x → delegation_encodable x = true.
Proof. intros [[_ Hd] _] Hc. by apply (Hd k x). Qed.

Lemma staking_ok_account `{Env} d addr b :
  staking_ok d → canBases d !! addr = Some b → StakingAddress b ≠ StakingContractAddr.
Proof. intros [_ [Hb _]] Hc. by apply (Hb addr b). Qed.

(** *** Writing the records back

    After [δ] coins came in, the record that is written accounts for them. *)

Section write.
Context `{Henv : Env} (δ : Z) (w w1 : World) (Hm : moved δ w w1).

Lemma SetCanMutableStore_keeps addr c u w2 :
  SetCanMutableStore addr c w1 = (Ok u, w2) →
  is_Some (canMutables (snapDB w) !! addr) →
  calcCandidateTotalAmount c
    = at_key calcCandidateTotalAmount addr (canMutables (snapDB w)) + δ →
  keeps w w2.
Proof using Hm.
  unfold SetCanMutableStore. destruct (mutable_encodable c) eqn:He; [|done].
  intros [_ <-]%pair_Ok_eq Hs Hc. destruct Hm as [Hbal Hsup Hb Hmu Hd].
  split; cbn.
  - unfold surplus, held; cbn. rewrite msum_insert, Hmu, Hd, Hbal. lia.
  - done.
  - intros [[H1 H2] [H3 H4]]. unfold staking_ok, db_ok; cbn. rewrite Hmu, Hd, Hb.
    split; [split|split]; [by apply map_Forall_insert_2|done..|].
    eapply (paired_insert (snapDB w)); cbn; [done|rewrite ?Hb; by apply H4|by rewrite ?Hmu|].
    by rewrite ?Hb.
Qed.

Lemma SetDelegateStore_keeps a i n x u w2 :
  SetDelegateStore a i n x w1 = (Ok u, w2) →
  calcDelegateTotalAmount x
    = at_key calcDelegateTotalAmount (a, i, n) (delegates (snapDB w)) + δ →
  keeps w w2 ∧ canMutables (snapDB w2) = canMutables (snapDB w).
Proof using Hm.
  unfold SetDelegateStore. destruct (delegation_encodable x) eqn:He; [|done].
  intros [_ <-]%pair_Ok_eq Hc. destruct Hm as [Hbal Hsup Hb Hmu Hd].
  split; [|done]. split; cbn.
  - unfold surplus, held; cbn. rewrite msum_insert, Hmu, Hd, Hbal. lia.
  - done.
  - intros [[H1 H2] H3]. unfold staking_ok, db_ok, paired; cbn. rewrite Hmu, Hd, Hb.
    split; [split|]; [done|by apply map_Forall_insert_2|done].
Qed.

Lemma DelDelegateStore_keeps a i n u w2 :
  DelDelegateStore a i n w1 = (Ok u, w2) →
  at_key calcDelegateTotalAmount (a, i, n) (delegates (snapDB w)) + δ = 0 →
  keeps w w2 ∧ canMutables (snapDB w2) = canMutables (snapDB w).
Proof using Hm.
  intros [_ <-]%pair_Ok_eq Hc. destruct Hm as [Hbal Hsup Hb Hmu Hd].
  split; [|done]. split; cbn.
  - unfold surplus, held; cbn. rewrite msum_delete, Hmu, Hd, Hbal. lia.
  - done.
  - intros [[H1 H2] H3]. unfold staking_ok, db_ok, paired; cbn. rewrite Hmu, Hd, Hb.
    split; [split|]; [done|by apply map_Forall_delete|done].
Qed.

Lemma DelCandidateStore_keeps addr u w2 :
  DelCandidateStore addr w1 = (Ok u, w2) →
  at_key calcCandidateTotalAmount addr (canMutables (snapDB w)) + δ = 0 →
  keeps w w2.
Proof using Hm.
  unfold DelCandidateStore. intros (u1 & w3 & [_ <-]%pair_Ok_eq & [_ <-]%pair_Ok_eq)%bind_Ok_inv Hc.
  destruct Hm as [Hbal Hsup Hb Hmu Hd].
  split; cbn.
  - unfold surplus, held; cbn. rewrite msum_delete, Hmu, Hd, Hbal. lia.
  - done.
  - intros [[H1 H2] [H3 H4]]. unfold staking_ok, db_ok, paired; cbn. rewrite Hmu, Hd, Hb.
    split; [split|split]; [by apply map_Forall_delete|done|by apply map_Forall_delete|].
    intros b. rewrite !lookup_delete_is_Some. intros [? ?]. auto.
Qed.

Lemma SetCandidateStore_keeps addr can u w2 :
  SetCandidateStore addr can w1 = (Ok u, w2) → base_ok addr (canBase can) →
  calcCandidateTotalAmount (canMutable can)
    = at_key calcCandidateTotalAmount addr (canMutables (snapDB w)) + δ →
  keeps w w2.
Proof using Hm.
  unfold SetCandidateStore, SetCanMutableStore. intros H Ha Hc. run_inv.
  apply pair_Ok_eq in Hrun as [_ <-], Hrun0 as [_ <-]. destruct Hm as [Hbal Hsup Hb Hmu Hd].
  split; cbn.
  - unfold surplus, held; cbn. rewrite msum_insert, Hmu, Hd, Hbal. lia.
  - done.
  - intros [[H1 H2] [H3 H4]]. unfold staking_ok, db_ok; cbn. rewrite Hmu, Hd, Hb.
    split; [split|split]; [by apply map_Forall_insert_2|done|by apply map_Forall_insert_2|].
    eapply (paired_insert (snapDB w)); cbn; rewrite ?Hb, ?Hmu; [done|..|done|].
    + by rewrite lookup_insert_eq.
    + intros b ?. rewrite lookup_insert_is_Some. destruct (decide (addr = b)); auto.
Qed.
End write.

(** *** Lazy changes keep the total *)

Lemma lazyCalcStakeAmount_total epoch c :
  calcCandidateTotalAmount (lazyCalcStakeAmount epoch c) = calcCandidateTotalAmount c.
Proof.
  unfold lazyCalcStakeAmount, calcCandidateTotalAmount.
  repeat (case_match; cbn -[Z.add]); lia.
Qed.

Lemma lazyCalcDelegateAmount_total epoch x :
  calcDelegateTotalAmount (lazyCalcDelegateAmount epoch x) = calcDelegateTotalAmount x.
Proof.
  unfold lazyCalcDelegateAmount, calcDelegateTotalAmount.
  repeat (case_match; cbn -[Z.add]); lia.
Qed.

Lemma lazyCalcNode_total epoch c :
  calcCandidateTotalAmount (lazyCalcNodeTotalDelegateAmount epoch c).1
  = calcCandidateTotalAmount c.
Proof. unfold lazyCalcNodeTotalDelegateAmount. by repeat case_match. Qed.

Lemma incomeLoop_total epoch first total x per r x' :
  incomeLoop epoch first total x per = Ok (r, x') →
  calcDelegateTotalAmount x' = calcDelegateTotalAmount x.
Proof.
  revert first total x r. induction per as [|p per IH]; intros first total x r;
    cbn [incomeLoop]; [by intros [= _ <-]|].
  intros ([r1 x1] & H1 & ([r2 x2] & H2 & [= _ <-])%outcome_bind_Ok)%outcome_bind_Ok.
  apply IH in H2. rewrite H2.
  assert (calcDelegateTotalAmount x1 = calcDelegateTotalAmount x) as <-.
  { destruct (0 <? total); [|by simplify_eq].
    by apply outcome_bind_Ok in H1 as (i & _ & [= _ <-]). }
  destruct first; [apply lazyCalcDelegateAmount_total|done].
Qed.

Lemma calcDelegateIncome_total epoch x per r x' :
  calcDelegateIncome epoch x per = Ok (r, x') →
  calcDelegateTotalAmount x' = calcDelegateTotalAmount x.
Proof.
  unfold calcDelegateIncome. case_match; [by intros [= _ <-]|].
  destruct per as [|p per].
  - intros [= _ <-]. apply lazyCalcDelegateAmount_total.
  - intros ->%incomeLoop_total. case_match; [apply lazyCalcDelegateAmount_total|done].
Qed.

(** *** Refunds *)

Lemma returnHes_fields account c w c' w' :
  returnHes account c w = (Ok c', w') →
  Status c' = Status c ∧ CurrentEpochDelegateReward c' = CurrentEpochDelegateReward c.
Proof. unfold returnHes. intros Hrun. by run_inv. Qed.

Definition amounts_nonneg (x : Delegation) : Prop :=
  0 <= delReleased x ∧ 0 <= delReleasedHes x ∧ 0 <= delRestrictingPlan x
  ∧ 0 <= delRestrictingPlanHes x.

Lemma encodable_nonneg x : delegation_encodable x = true → amounts_nonneg x.
Proof. unfold delegation_encodable, amounts_nonneg. intros H. bool_to_prop. lia. Qed.

Lemma lazyCalcDelegateAmount_nonneg epoch x :
  amounts_nonneg x → amounts_nonneg (lazyCalcDelegateAmount epoch x).
Proof.
  unfold amounts_nonneg, lazyCalcDelegateAmount. intros (? & ? & ? & ?).
  repeat (case_match; cbn -[Z.add]); repeat split; lia.
Qed.

Lemma incomeLoop_nonneg epoch first total x per r x' :
  incomeLoop epoch first total x per = Ok (r, x') → amounts_nonneg x → amounts_nonneg x'.
Proof.
  revert first total x r. induction per as [|p per IH]; intros first total x r;
    cbn [incomeLoop]; [by intros [= _ <-]|].
  intros ([r1 x1] & H1 & ([r2 x2] & H2 & [= _ <-])%outcome_bind_Ok)%outcome_bind_Ok Hx.
  apply IH in H2; [done|].
  assert (amounts_nonneg x1).
  { destruct (0 <? total); [|by simplify_eq].
    by apply outcome_bind_Ok in H1 as (i & _ & [= _ <-]). }
  destruct first; [by apply lazyCalcDelegateAmount_nonneg|done].
Qed.

Lemma calcDelegateIncome_nonneg epoch x per r x' :
  calcDelegateIncome epoch x per = Ok (r, x') → amounts_nonneg x → amounts_nonneg x'.
Proof.
  unfold calcDelegateIncome. case_match; [by intros [= _ <-]|].
  destruct per as [|p per].
  - intros [= _ <-]. apply lazyCalcDelegateAmount_nonneg.
  - intros H2 Hx. apply incomeLoop_nonneg in H2; [done|].
    case_match; [by apply lazyCalcDelegateAmount_nonneg|done].
Qed.

Section refunds.
Context (account : Z) (Hacc : account ≠ StakingContractAddr).

Lemma returnHes_inv c w c' w' :
  returnHes account c w = (Ok c', w') →
  moved (calcCandidateTotalAmount c' - calcCandidateTotalAmount c) w w'
  ∧ Released c' = Released c ∧ RestrictingPlan c' = RestrictingPlan c
  ∧ ReleasedHes c' = Z.min 0 (ReleasedHes c)
  ∧ RestrictingPlanHes c' = Z.min 0 (RestrictingPlanHes c).
Proof using Hacc.
  unfold returnHes. intros (c1 & w1 & H1 & H2)%bind_Ok_inv.
  assert (Hc1 : moved (calcCandidateTotalAmount c1 - calcCandidateTotalAmount c) w w1
    ∧ Released c1 = Released c ∧ RestrictingPlan c1 = RestrictingPlan c
    ∧ ReleasedHes c1 = Z.min 0 (ReleasedHes c)
    ∧ RestrictingPlanHes c1 = RestrictingPlanHes c).
  { clear H2. unfold calcCandidateTotalAmount. run_inv; bool_to_prop; cbn [set_stake Released
      ReleasedHes RestrictingPlan RestrictingPlanHes]; (split; [|repeat split; lia]).
    - apply (refund_moves account _ Hacc) in Hrun. eapply moved_eq; [done|lia].
    - eapply moved_eq; [apply moved_refl|lia]. }
  clear H1. destruct Hc1 as (Hm1 & E1 & E2 & E3 & E4). rewrite <- E1, <- E2, <- E3, <- E4.
  unfold calcCandidateTotalAmount in *. run_inv; bool_to_prop; cbn [set_stake Released
      ReleasedHes RestrictingPlan RestrictingPlanHes] in *; (split; [|repeat split; lia]).
  - apply (ReturnLockFunds_moves account _ Hacc) in Hrun.
    eapply moved_eq; [eapply moved_trans; [apply Hm1|apply Hrun]|lia].
  - eapply moved_eq; [apply Hm1|lia].
Qed.

Lemma refundRelease_inv x w r w' :
  refundRelease account x w = (Ok r, w') → 0 <= x → moved (- x) w w'.
Proof using Hacc.
  unfold refundRelease. intros H Hx. run_inv; bool_to_prop.
  - by apply (refund_moves account _ Hacc) in Hrun.
  - eapply moved_eq; [apply moved_refl|lia].
Qed.

Lemma refundRestrict_inv x w r w' :
  refundRestrict account x w = (Ok r, w') → 0 <= x → moved (- x) w w'.
Proof using Hacc.
  unfold refundRestrict. intros H Hx. run_inv; bool_to_prop.
  - by apply (ReturnLockFunds_moves account _ Hacc) in Hrun.
  - eapply moved_eq; [apply moved_refl|lia].
Qed.

(** What [rufundDelegateFn] takes from the two sources it pays, no more and no
    less; with enough in them nothing is left to refund. *)
Lemma rufundDelegateFn_inv x rel res w x' rel' res' w' :
  rufundDelegateFn x rel res account w = (Ok (x', rel', res'), w') →
  0 <= x → 0 <= rel → 0 <= res →
  moved (x' - x) w w' ∧ x - x' = (rel - rel') + (res - res')
  ∧ 0 <= rel' ∧ 0 <= res' ∧ x' = Z.max 0 (x - (rel + res))
  ∧ (rel' = Z.max 0 (rel - x)).
Proof using Hacc.
  unfold rufundDelegateFn. intros ([x1 r1] & w1 & H1 & H2)%bind_Ok_inv Hx Hrel Hres.
  assert (moved (x1 - x) w w1 ∧ x1 = Z.max 0 (x - rel) ∧ r1 = Z.max 0 (rel - x))
    as (Hm1 & -> & ->).
  { clear H2. run_inv; bool_to_prop; try (apply (refund_moves account _ Hacc) in Hrun);
      (split; [|lia]); try (eapply moved_eq; [apply moved_refl|lia]);
      eapply moved_eq; [done|lia|done|lia]. }
  run_inv; bool_to_prop; try (apply (ReturnLockFunds_moves account _ Hacc) in Hrun);
    (split; [|lia]).
  all: first [ eapply moved_eq; [eapply moved_trans; [apply Hm1|apply Hrun]|lia]
             | eapply moved_eq; [apply Hm1|lia] ].
Qed.

Lemma refundDelegation_inv x d w x' d' subHes sub w' :
  refundDelegation x account d w = (Ok (x', d', subHes, sub), w') →
  0 <= x → amounts_nonneg d →
  moved (x' - x) w w' ∧ x - x' = subHes + sub
  ∧ calcDelegateTotalAmount d' = calcDelegateTotalAmount d - (x - x')
  ∧ x' = Z.max 0 (x - calcDelegateTotalAmount d)
  ∧ CumulativeIncome d' = CumulativeIncome d.
Proof using Hacc.
  unfold refundDelegation, calcDelegateTotalAmount.
  intros ([[x1 d1] s1] & w1 & H1 & H2)%bind_Ok_inv Hx (N1 & N2 & N3 & N4).
  assert (moved (x1 - x) w w1 ∧ s1 = x - x1
    ∧ x1 = Z.max 0 (x - (delReleasedHes d + delRestrictingPlanHes d))
    ∧ delReleased d1 = delReleased d ∧ delRestrictingPlan d1 = delRestrictingPlan d
    ∧ delReleasedHes d1 + delRestrictingPlanHes d1
      = delReleasedHes d + delRestrictingPlanHes d - s1
    ∧ CumulativeIncome d1 = CumulativeIncome d) as (Hm1 & -> & -> & E1 & E2 & E3 & E4).
  { clear H2. run_inv; bool_to_prop.
    - apply rufundDelegateFn_inv in Hrun as (Hm & ? & ? & ? & -> & ->); [|lia..].
      split; [done|]. cbn [set_delegation delReleased delReleasedHes delRestrictingPlan
        delRestrictingPlanHes CumulativeIncome]. repeat split; lia.
    - split; [eapply moved_eq; [apply moved_refl|lia]|]. repeat split; lia. }
  clear H1. run_inv; bool_to_prop.
  - apply rufundDelegateFn_inv in Hrun as (Hm & ? & ? & ? & ? & ?); [|lia..].
    cbn [set_delegation delReleased delReleasedHes delRestrictingPlan
        delRestrictingPlanHes CumulativeIncome].
    split; [eapply moved_eq; [eapply moved_trans; [apply Hm1|apply Hm]|lia]|].
    repeat split; lia.
  - split; [done|]. repeat split; lia.
Qed.
End refunds.

(** ** The handlers *)

(** Turn the successful calls of quiet operations into moves. *)
Ltac quiet_calls :=
  repeat match goal with
  | H : ?m ?w = (Ok _, ?w') |- _ =>
      let Q := fresh in
      assert (Q : moved 0 w w')
        by (refine ((_ : quiet m) w _ w' H); solve [eauto with quiet]);
      clear H; rename Q into H
  end.

(** Compose two moves in a row. *)
Ltac chain :=
  repeat match goal with
  | H1 : moved ?δ1 ?w1 ?w2, H2 : moved ?δ2 ?w2 ?w3 |- _ =>
      let H := fresh "Hm" in
      pose proof (moved_trans δ1 δ2 w1 w2 w3 H1 H2) as H; clear H1 H2
  end.

Section handlers.
Context `{Env}.

(** Where the stake comes from, the staking contract receives what the record
    gains. *)
Lemma stake_source_moves (typ account amount : Z) (onFree onRestrict : CandidateMutable)
    (w : World) c w' :
  account ≠ StakingContractAddr →
  (if typ =? FreeVon then
     origin ← gets (λ w, GetBalance (stateDB w) account);
     if origin <? amount then fail ErrAccountVonNoEnough
     else on_state (modify (transferAmount account StakingContractAddr amount)) ≫= λ _,
          mret onFree
   else if typ =? RestrictVon then
     on_state (AdvanceLockedFunds account amount) ≫= λ _, mret onRestrict
   else fail ErrWrongVonOptType) w = (Ok c, w') →
  moved amount w w' ∧ (c = onFree ∨ c = onRestrict).
Proof.
  intros Ha Hsrc. run_inv.
  all: match goal with
    | H : on_state (modify _) _ = _ |- _ => apply (fund_moves account amount Ha) in H
    | H : on_state _ _ = _ |- _ => apply (AdvanceLockedFunds_moves account amount) in H
    end; auto.
Qed.

Lemma IncreaseStaking_keeps blockNumber amount typ canAddr can w u w' :
  IncreaseStaking blockNumber amount typ canAddr can w = (Ok u, w') →
  canMutables (snapDB w) !! canAddr = Some (canMutable can) →
  StakingAddress (canBase can) ≠ StakingContractAddr →
  keeps w w'.
Proof.
  unfold IncreaseStaking. intros (c & w1 & H1 & H2)%bind_Ok_inv Hc Ha.
  apply (stake_source_moves typ _ _ _ _ w c w1 Ha) in H1 as [Hm1 Hcs].
  apply bind_Ok_inv in H2 as (u1 & w2 & Hd & (u2 & w3 & Hs & H2)%bind_Ok_inv).
  cbv zeta in H2. quiet_calls. chain.
  eapply SetCanMutableStore_keeps; [done|done|eauto|]. unfold at_key. rewrite Hc. cbn [from_option].
  rewrite <- (lazyCalcStakeAmount_total (CalculateEpoch ec blockNumber) (canMutable can)).
  unfold calcCandidateTotalAmount. destruct Hcs as [-> | ->]; cbn; lia.
Qed.

(** No stake recorded yet. *)
Definition no_stake (c : CandidateMutable) : Prop :=
  Released c = 0 ∧ ReleasedHes c = 0 ∧ RestrictingPlan c = 0 ∧ RestrictingPlanHes c = 0.

Lemma CreateCandidate_keeps blockNumber amount typ addr can w u w' :
  CreateCandidate blockNumber amount typ addr can w = (Ok u, w') →
  canMutables (snapDB w) !! addr = None → no_stake (canMutable can) →
  base_ok addr (canBase can) →
  keeps w w'.
Proof.
  unfold CreateCandidate. intros (c & w1 & H1 & H2)%bind_Ok_inv Hc (Z1 & Z2 & Z3 & Z4) [Ha Hid].
  assert (moved (calcCandidateTotalAmount c) w w1) as Hm1.
  { clear H2. unfold calcCandidateTotalAmount. run_inv.
    all: match goal with
    | H : on_state (modify _) _ = _ |- _ => apply (fund_moves _ amount Ha) in H
    | H : on_state (AdvanceLockedFunds _ _) _ = _ |- _ => apply AdvanceLockedFunds_moves in H
    | H : on_state _ _ = _ |- _ => apply (MixAdvanceLockedFunds_moves _ amount Ha) in H
    end; eapply moved_eq; [done|]; cbn [set_stake Released ReleasedHes RestrictingPlan
      RestrictingPlanHes fst snd]; lia. }
  apply bind_Ok_inv in H2 as (u1 & w2 & Hs & (u2 & w3 & Hp & H2)%bind_Ok_inv).
  transitivity w2.
  - apply (SetCandidateStore_keeps _ _ _ Hm1 _ _ _ _ Hs); [done|].
    unfold at_key. rewrite Hc. done.
  - quiet_calls. chain. by apply keeps_quiet.
Qed.

(** The branch of [typ] pays back the whole stake of the record. *)
Lemma RollBackStaking_keeps blockNumber addr typ w u w' :
  RollBackStaking blockNumber addr typ w = (Ok u, w') → staking_ok (snapDB w) →
  (∀ c, canMutables (snapDB w) !! addr = Some c → calcCandidateTotalAmount c
     = if typ =? FreeVon then ReleasedHes c else RestrictingPlanHes c) →
  keeps w w'.
Proof.
  unfold RollBackStaking. intros (can & w0 & (-> & Hb & Hc)%GetCandidateStore_inv & H1)%bind_Ok_inv
    Hok Htyp. cbv zeta in H1. specialize (Htyp _ Hc).
  pose proof (staking_ok_account _ _ _ Hok Hb) as Ha.
  destruct (negb _); [done|].
  apply bind_Ok_inv in H1 as (u1 & w1 & Hpay & (u2 & w2 & Hd & (u3 & w3 & Hp & H2)
    %bind_Ok_inv)%bind_Ok_inv).
  assert (moved (- calcCandidateTotalAmount (canMutable can)) w w1) as Hm1.
  { rewrite Htyp. clear Hd. run_inv.
    - by apply (refund_moves _ _ Ha) in Hpay.
    - by apply (ReturnLockFunds_moves _ _ Ha) in Hpay. }
  transitivity w2; [|quiet_calls; chain; by apply keeps_quiet].
  eapply DelCandidateStore_keeps; [done..|]. unfold at_key. rewrite Hc. cbn. lia.
Qed.

Lemma EditCandidate_keeps canAddr can c w u w' :
  EditCandidate canAddr can w = (Ok u, w') →
  canMutables (snapDB w) !! canAddr = Some c →
  calcCandidateTotalAmount (canMutable can) = calcCandidateTotalAmount c →
  base_ok canAddr (canBase can) →
  keeps w w'.
Proof.
  intros Hrun Hc Ht Ha.
  apply (SetCandidateStore_keeps 0 w w (moved_refl w) canAddr can u w' Hrun Ha).
  unfold at_key. rewrite Hc, Ht. cbn. lia.
Qed.

Lemma withdrewStakeAmount_inv blockNumber canAddr can w c w' :
  withdrewStakeAmount blockNumber canAddr can w = (Ok c, w') →
  StakingAddress (canBase can) ≠ StakingContractAddr →
  moved (calcCandidateTotalAmount c - calcCandidateTotalAmount (canMutable can)) w w'
  ∧ ReleasedHes c = Z.min 0 (ReleasedHes (canMutable can))
  ∧ RestrictingPlanHes c = Z.min 0 (RestrictingPlanHes (canMutable can))
  ∧ Released c = Released (canMutable can)
  ∧ RestrictingPlan c = RestrictingPlan (canMutable can).
Proof.
  unfold withdrewStakeAmount. intros (c1 & w1 & H1 & (u & w2 & H2 & H3)%bind_Ok_inv)
    %bind_Ok_inv Ha.
  apply (returnHes_inv _ Ha) in H1 as (Hm & E1 & E2 & E3 & E4).
  assert (Q : quiet (if hasLocked c1 then addUnStakeItem blockNumber (cbNodeId (canBase can))
    canAddr (cbStakingBlockNum (canBase can)) else mret tt)) by quiet.
  apply Q in H2. apply pair_Ok_eq in H3 as [<- <-]. chain. cbn.
  split; [|auto]. eapply moved_eq; [done|]. unfold calcCandidateTotalAmount. cbn. lia.
Qed.

Lemma lazyCalcStakeAmount_nonneg epoch c :
  mutable_encodable c = true →
  0 <= Released (lazyCalcStakeAmount epoch c) ∧ 0 <= ReleasedHes (lazyCalcStakeAmount epoch c)
  ∧ 0 <= RestrictingPlan (lazyCalcStakeAmount epoch c)
  ∧ 0 <= RestrictingPlanHes (lazyCalcStakeAmount epoch c).
Proof.
  unfold mutable_encodable, lazyCalcStakeAmount. intros He. bool_to_prop.
  repeat (case_match; cbn -[Z.add]); repeat split; lia.
Qed.

Lemma WithdrewStaking_keeps blockNumber canAddr can w u w' :
  WithdrewStaking blockNumber canAddr can w = (Ok u, w') →
  staking_ok (snapDB w) → canMutables (snapDB w) !! canAddr = Some (canMutable can) →
  StakingAddress (canBase can) ≠ StakingContractAddr →
  keeps w w'.
Proof.
  unfold WithdrewStaking. set (c0 := lazyCalcStakeAmount _ _). cbv zeta.
  intros (u1 & w1 & H1 & (c & w2 & H2 & (u3 & w3 & H3 & H4)%bind_Ok_inv)%bind_Ok_inv)
    %bind_Ok_inv Hok Hc Ha.
  destruct (lazyCalcStakeAmount_nonneg (CalculateEpoch ec blockNumber) (canMutable can))
    as (N1 & N2 & N3 & N4); [by eapply staking_ok_mutable|]. fold c0 in N1, N2, N3, N4.
  apply withdrewStakeAmount_inv in H2 as (Hm & E1 & E2 & E3 & E4); [|done].
  cbn [setMutable canMutable canBase] in *.
  assert (Ht : calcCandidateTotalAmount c0 = at_key calcCandidateTotalAmount canAddr
    (canMutables (snapDB w))).
  { unfold at_key. rewrite Hc. apply lazyCalcStakeAmount_total. }
  transitivity w3; [|eapply quiet_keeps; [|exact H4]; quiet].
  assert (Hm1 : moved 0 w w1) by by apply DelCanPowerStore_quiet in H1.
  clear H1 H4. chain. destruct (hasLocked _) eqn:Hl.
  - eapply SetCanMutableStore_keeps; [done|done|eauto|]. rewrite <- Ht.
    unfold calcCandidateTotalAmount in *. cbn. lia.
  - unfold hasLocked in Hl. cbn in Hl. bool_to_prop.
    eapply DelCandidateStore_keeps; [done..|]. rewrite <- Ht.
    unfold calcCandidateTotalAmount in *. cbn. lia.
Qed.

Lemma handleUnStake_keeps epoch addr can w u w' :
  handleUnStake epoch addr can w = (Ok u, w') →
  staking_ok (snapDB w) → canMutables (snapDB w) !! addr = Some (canMutable can) →
  StakingAddress (canBase can) ≠ StakingContractAddr →
  keeps w w'.
Proof.
  unfold handleUnStake. set (c0 := lazyCalcStakeAmount _ _). cbv zeta.
  intros (u1 & w1 & H1 & (u2 & w2 & H2 & (u3 & w3 & H3 & (u4 & w4 & H4 & H5)%bind_Ok_inv)
    %bind_Ok_inv)%bind_Ok_inv)%bind_Ok_inv Hok Hc Ha.
  destruct (lazyCalcStakeAmount_nonneg epoch (canMutable can)) as (N1 & N2 & N3 & N4);
    [by eapply staking_ok_mutable|]. fold c0 in N1, N2, N3, N4.
  apply (refundRelease_inv _ Ha) in H1, H2; [|done..].
  apply (refundRestrict_inv _ Ha) in H3, H4; [|done..]. chain.
  eapply DelCandidateStore_keeps; [done..|]. unfold at_key. rewrite Hc. cbn [from_option].
  rewrite <- (lazyCalcStakeAmount_total epoch). fold c0.
  unfold calcCandidateTotalAmount. lia.
Qed.

Lemma recoverCandidate_keeps blockNumber canAddr can w u w' :
  recoverCandidate blockNumber canAddr can w = (Ok u, w') →
  canMutables (snapDB w) !! canAddr = Some (canMutable can) →
  keeps w w'.
Proof.
  unfold recoverCandidate. intros Hrun Hc. destruct (IsDuplicateSign _).
  - apply bind_Ok_inv in Hrun as (u1 & w1 & H1 & (u2 & w2 & H2 & H3)%bind_Ok_inv).
    quiet_calls. chain. eapply SetCanMutableStore_keeps; [done|done|eauto|].
    unfold at_key. rewrite Hc. unfold calcCandidateTotalAmount. cbn. lia.
  - cbv zeta in Hrun. apply bind_Ok_inv in Hrun as (u1 & w1 & H1 & H3).
    quiet_calls. eapply SetCanMutableStore_keeps; [done|done|eauto|].
    unfold at_key. rewrite Hc. unfold calcCandidateTotalAmount. cbn. lia.
Qed.

Lemma unStakeStep_keeps blockNumber epoch index filterAddr w l w' :
  unStakeStep blockNumber epoch index filterAddr w = (Ok l, w') →
  staking_ok (snapDB w) → keeps w w'.
Proof.
  unfold unStakeStep. intros (item & w0 & [-> Hi]%db_get_inv & H1)%bind_Ok_inv Hok.
  cbv zeta in H1. case_bool_decide.
  { eapply quiet_keeps; [|exact H1]. quiet. }
  apply bind_Ok_inv in H1 as (o & w0 & [-> Ho]%get_opt_inv & H1);
    [|apply GetCandidateStore_state].
  destruct o as [can|]; [|eapply quiet_keeps; [|exact H1]; quiet].
  apply GetCandidateStore_inv in Ho as (_ & Hb & Hc).
  destruct (negb _); [eapply quiet_keeps; [|exact H1]; quiet|].
  apply bind_Ok_inv in H1 as (u1 & w1 & H1 & H2).
  transitivity w1; [|eapply quiet_keeps; [|exact H2]; quiet].
  destruct (Recovery item).
  - by eapply recoverCandidate_keeps.
  - eapply handleUnStake_keeps; [done..|]. by eapply staking_ok_account.
Qed.

Lemma unStakeLoop_keeps blockNumber epoch indices filterAddr w u w' :
  unStakeLoop blockNumber epoch indices filterAddr w = (Ok u, w') →
  staking_ok (snapDB w) → keeps w w'.
Proof.
  revert filterAddr w. induction indices as [|i indices IH]; intros filterAddr w;
    cbn [unStakeLoop].
  - by intros [_ <-]%pair_Ok_eq.
  - intros (l & w1 & H1 & H2)%bind_Ok_inv Hok.
    pose proof (unStakeStep_keeps _ _ _ _ _ _ _ H1 Hok) as Hk. transitivity w1; [done|].
    eapply IH; [done|]. by apply Hk.
Qed.

Lemma HandleUnCandidateItem_keeps blockNumber epoch w u w' :
  HandleUnCandidateItem blockNumber epoch w = (Ok u, w') →
  staking_ok (snapDB w) → keeps w w'.
Proof.
  unfold HandleUnCandidateItem. intros (o & w0 & H0 & H1)%bind_Ok_inv Hok.
  apply get_opt_inv in H0 as [-> _]; [|apply db_get_state].
  cbv zeta in H1. destruct (_ =? 0); [by apply pair_Ok_eq in H1 as [_ <-]|].
  apply bind_Ok_inv in H1 as (u1 & w1 & H1 & H2).
  transitivity w1; [by eapply unStakeLoop_keeps|].
  eapply quiet_keeps; [|exact H2]. quiet.
Qed.

Lemma Delegate_keeps blockNumber delAddr del canAddr can typ amount per w u w' :
  let key := (delAddr, cbNodeId (canBase can), cbStakingBlockNum (canBase can)) in
  Delegate blockNumber delAddr del canAddr can typ amount per w = (Ok u, w') →
  default NewDelegation (delegates (snapDB w) !! key) = del →
  canMutables (snapDB w) !! canAddr = Some (canMutable can) →
  delAddr ≠ StakingContractAddr →
  keeps w w'.
Proof.
  intros key Hrun Hdel Hc Ha. unfold Delegate in Hrun. cbv zeta in Hrun.
  apply bind_Ok_inv in Hrun as ([r d1] & w0 & [H1 <-]%pair_equal_spec & Hrun).
  apply bind_Ok_inv in Hrun as (u1 & w1 & H2 & (d2 & w2 & H3 & Hrun)%bind_Ok_inv).
  apply bind_Ok_inv in Hrun as (u3 & w3 & H4 & (u4 & w4 & H5 & Hrun)%bind_Ok_inv).
  apply bind_Ok_inv in Hrun as (u5 & w5 & H6 & H7).
  apply calcDelegateIncome_total in H1. apply UpdateDelegateRewardPer_quiet in H2.
  assert (moved amount w1 w2
    ∧ calcDelegateTotalAmount d2 = calcDelegateTotalAmount d1 + amount) as [Hm Ht].
  { clear -H3 Ha. unfold calcDelegateTotalAmount. run_inv.
    all: match goal with
    | H : on_state (modify _) _ = _ |- _ => apply (fund_moves _ amount Ha) in H
    | H : on_state _ _ = _ |- _ => apply AdvanceLockedFunds_moves in H
    end; split; [done|cbn; lia]. }
  assert (Htot : calcDelegateTotalAmount del
    = at_key calcDelegateTotalAmount key (delegates (snapDB w))).
  { subst del. unfold at_key. by destruct (delegates (snapDB w) !! key). }
  pose proof (moved_trans _ _ _ _ _ H2 Hm) as Hm1.
  destruct (SetDelegateStore_keeps _ _ _ Hm1 _ _ _ _ _ _ H4) as [Hk Hmu].
  { fold key. rewrite <- Htot. unfold calcDelegateTotalAmount in *. cbn. lia. }
  transitivity w3; [done|]. clear H2 Hm Hm1 H3 H4. quiet_calls. chain.
  eapply SetCanMutableStore_keeps; [done|done|rewrite Hmu; eauto|].
  unfold at_key. rewrite Hmu, Hc. cbn [from_option].
  change (calcCandidateTotalAmount (lazyCalcNodeTotalDelegateAmount
    (CalculateEpoch ec blockNumber) (AddShares amount (canMutable can))).1
    = calcCandidateTotalAmount (canMutable can) + (0 + 0)).
  rewrite lazyCalcNode_total. unfold calcCandidateTotalAmount. cbn. lia.
Qed.

Lemma storeDelegation_keeps δ w0 w a i n cleared d x w' :
  moved δ w0 w → storeDelegation a i n cleared d w = (Ok x, w') →
  a ≠ StakingContractAddr →
  calcDelegateTotalAmount d
    = at_key calcDelegateTotalAmount (a, i, n) (delegates (snapDB w0)) + δ →
  (cleared = true → calcDelegateTotalAmount d = 0) →
  keeps w0 w' ∧ canMutables (snapDB w') = canMutables (snapDB w0).
Proof.
  intros Hm Hrun Ha Ht Hcl. unfold storeDelegation in Hrun. destruct cleared.
  - apply bind_Ok_inv in Hrun as (r & w1 & H1 & Hrun). destruct r as [u|e]; [|done].
    apply (try_ReturnDelegateReward_moves a _ Ha) in H1.
    apply bind_Ok_inv in Hrun as (u1 & w2 & H2 & [_ <-]%pair_Ok_eq). chain.
    eapply DelDelegateStore_keeps; [done..|]. specialize (Hcl eq_refl). lia.
  - apply bind_Ok_inv in Hrun as (u1 & w2 & H2 & [_ <-]%pair_Ok_eq).
    by eapply SetDelegateStore_keeps.
Qed.

Lemma withdrewShares_keeps canAddr realSub can w u w' :
  withdrewShares canAddr realSub can w = (Ok u, w') →
  is_Some (canMutables (snapDB w) !! canAddr) →
  at_key calcCandidateTotalAmount canAddr (canMutables (snapDB w))
    = calcCandidateTotalAmount (canMutable can) →
  keeps w w'.
Proof.
  unfold withdrewShares. cbv zeta. intros (c & w1 & H1 & H2)%bind_Ok_inv Hs Hc.
  assert (moved 0 w w1 ∧ calcCandidateTotalAmount c
    = calcCandidateTotalAmount (canMutable can)) as [Hm Ht].
  { clear H2. destruct (IsValid _).
    - apply bind_Ok_inv in H1 as (u1 & w2 & H1 & H2). destruct (_ <? _); [|done].
      apply bind_Ok_inv in H2 as (u2 & w3 & H2 & [<- <-]%pair_Ok_eq). quiet_calls. by chain.
    - apply pair_Ok_eq in H1 as [<- <-]. split; [apply moved_refl|]. by destruct (_ <? _). }
  eapply SetCanMutableStore_keeps; [done|done|eauto|]. lia.
Qed.

(** A negative amount is refused at the end. *)
Lemma refundDelegation_neg x account d w r w' :
  refundDelegation x account d w = (Ok r, w') → x < 0 → r.1.1.1 = x.
Proof.
  unfold refundDelegation. intros Hrun Hx.
  destruct (Z.ltb_spec 0 x); [lia|]. run_eval. revert Hrun. run_eval.
  destruct (Z.ltb_spec 0 x); [lia|]. by intros [= <- _].
Qed.

Lemma calcRealRefund_le blockNumber total amount :
  amount <= total → calcRealRefund blockNumber total amount <= total.
Proof. unfold calcRealRefund. case_match; lia. Qed.

(** The middle of [WithdrewDelegation]: after the refund, nothing is left to
    pay and the delegation has lost what was paid. *)
Lemma refundDelegation_full account x d w r w' :
  refundDelegation x account d w = (Ok r, w') →
  account ≠ StakingContractAddr → amounts_nonneg d → x <= calcDelegateTotalAmount d →
  negb (r.1.1.1 =? 0) = false →
  moved (- x) w w'
  ∧ calcDelegateTotalAmount r.1.1.2 = calcDelegateTotalAmount d - x.
Proof.
  destruct r as [[[x' d'] s1] s2]. cbn [fst snd]. intros Hrun Ha Hd Hle Hz. bool_to_prop.
  subst x'. destruct (Z.ltb_spec x 0) as [Hx|Hx].
  - apply refundDelegation_neg in Hrun; [|done]. cbn in Hrun. lia.
  - apply (refundDelegation_inv _ Ha) in Hrun as (Hm & _ & Ht & _ & _); [|done..].
    split; [eapply moved_eq; [done|]|]; lia.
Qed.

(** Only the candidate's record and power change. *)
Lemma withdrewShares_frame canAddr realSub can w u w' :
  withdrewShares canAddr realSub can w = (Ok u, w') →
  stateDB w' = stateDB w ∧ delegates (snapDB w') = delegates (snapDB w).
Proof.
  unfold withdrewShares, SetCanMutableStore, SetCanPowerStore, DelCanPowerStore, db_put.
  run_eval. repeat case_match; intros; simplify_eq; done.
Qed.

(** A withdrawal pays [realSub], then stores the delegation, then the candidate. *)
Lemma WithdrewDelegation_inv blockNumber amount delAddr nodeId stakingBlockNum del per
    w x w' :
  WithdrewDelegation blockNumber amount delAddr nodeId stakingBlockNum del per w
    = (Ok x, w') →
  staking_ok (snapDB w) →
  delegates (snapDB w) !! (delAddr, nodeId, stakingBlockNum) = Some del →
  delAddr ≠ StakingContractAddr →
  let total := calcDelegateTotalAmount del in
  let realSub := calcRealRefund blockNumber total amount in
  ∃ d' w2 w3,
    amount <= total ∧ moved (- realSub) w w2
    ∧ calcDelegateTotalAmount d' = total - realSub
    ∧ storeDelegation delAddr nodeId stakingBlockNum (total =? realSub) d' w2 = (Ok x, w3)
    ∧ stateDB w' = stateDB w3 ∧ delegates (snapDB w') = delegates (snapDB w3)
    ∧ (canMutables (snapDB w3) = canMutables (snapDB w) → keeps w3 w').
Proof.
  intros Hrun Hok Hdel Ha total realSub. unfold WithdrewDelegation in Hrun.
  apply bind_Ok_inv in Hrun as (canAddr & w0 & [_ <-]%pair_equal_spec & Hrun).
  apply bind_Ok_inv in Hrun as (o & w0 & Ho & Hrun).
  apply get_opt_inv in Ho as [-> Ho]; [|apply GetCandidateStore_state].
  cbv zeta in Hrun. fold total in Hrun. destruct (Z.ltb_spec total amount); [done|].
  fold realSub in Hrun.
  assert (Hle : realSub <= total) by by apply calcRealRefund_le.
  apply bind_Ok_inv in Hrun as ([r d1] & w0 & [H1 <-]%pair_equal_spec & Hrun).
  apply bind_Ok_inv in Hrun as (u1 & w1 & H2 & Hrun). apply UpdateDelegateRewardPer_quiet in H2.
  destruct (match o with Some _ => _ | None => _ end); [done|].
  apply bind_Ok_inv in Hrun as ([[[left_ d2] subHes] sub] & w2 & H3 & Hrun).
  destruct (negb (left_ =? 0)) eqn:Hleft; [done|].
  pose proof (calcDelegateIncome_total _ _ _ _ _ H1) as Ht1. fold total in Ht1.
  apply (refundDelegation_full _ _ _ _ _ _ H3 Ha) in Hleft as [Hm Ht].
  2: { apply calcDelegateIncome_nonneg in H1; [done|].
       by eapply encodable_nonneg, staking_ok_delegate. }
  2: { change (realSub <= calcDelegateTotalAmount d1). lia. }
  change (calcDelegateTotalAmount d2 = calcDelegateTotalAmount d1 - realSub) in Ht.
  apply bind_Ok_inv in Hrun as (income & w3 & H4 & Hrun). chain.
  exists d2, w2, w3. split; [done|]. split; [done|]. split; [lia|].
  destruct o as [can|]; [|by apply pair_Ok_eq in Hrun as [<- <-]].
  apply GetCandidateStore_inv in Ho as (_ & _ & Hc).
  apply bind_Ok_inv in Hrun as (u4 & w4 & H5 & [<- <-]%pair_Ok_eq). split; [done|].
  unfold when in H5. destruct (_ =? cbStakingBlockNum _);
    [|by apply pair_Ok_eq in H5 as [_ <-]].
  destruct (withdrewShares_frame _ _ _ _ _ _ H5) as [E1 E2]. split; [done|]. split; [done|].
  intros Hmu. eapply withdrewShares_keeps; [done|rewrite Hmu; eauto|].
  unfold at_key. rewrite Hmu, Hc. cbn [from_option].
  symmetry. apply (lazyCalcNode_total (CalculateEpoch ec blockNumber) (canMutable can)).
Qed.

Lemma WithdrewDelegation_keeps blockNumber amount delAddr nodeId stakingBlockNum del per
    w x w' :
  WithdrewDelegation blockNumber amount delAddr nodeId stakingBlockNum del per w
    = (Ok x, w') →
  staking_ok (snapDB w) →
  delegates (snapDB w) !! (delAddr, nodeId, stakingBlockNum) = Some del →
  delAddr ≠ StakingContractAddr →
  keeps w w'.
Proof.
  intros Hrun Hok Hdel Ha.
  destruct (WithdrewDelegation_inv _ _ _ _ _ _ _ _ _ _ Hrun Hok Hdel Ha)
    as (d' & w2 & w3 & _ & Hm & Ht & Hs & _ & _ & Hk).
  apply (storeDelegation_keeps _ _ _ _ _ _ _ _ _ _ Hm) in Hs as [Hk1 Hmu]; [|done|..].
  - transitivity w3; [done|]. by apply Hk.
  - unfold at_key. rewrite Hdel. cbn [from_option]. lia.
  - intros Hcl. bool_to_prop. lia.
Qed.

Lemma getVerifierList_quiet blockNumber : quiet (getVerifierList blockNumber).
Proof.
  unfold getVerifierList, getVeriferIndex, orNoExist, loadArray.
  repeat first [quiet_step | apply get_opt_quiet; intros ?; apply db_get_state].
Qed.

Lemma beginEpochStep_keeps blockNumber v w u w' :
  beginEpochStep blockNumber v w = (Ok u, w') → keeps w w'.
Proof.
  unfold beginEpochStep. intros (r & w0 & Hr & Hrun)%bind_Ok_inv.
  unfold try in Hr. destruct (GetCanMutableStore (NodeAddress v) w) as [[c|e|] w1] eqn:Hg;
    simplify_eq.
  apply db_get_inv in Hg as [-> Hc]. destruct (IsInvalid _); [by apply pair_Ok_eq in Hrun as [_ <-]|].
  pose proof (lazyCalcNode_total (CalculateEpoch ec blockNumber) c) as Ht.
  destruct (lazyCalcNodeTotalDelegateAmount _ c) as [c1 changed]. cbn [fst] in Ht.
  cbv zeta in Hrun. destruct (_ || _); [|by apply pair_Ok_eq in Hrun as [_ <-]].
  eapply SetCanMutableStore_keeps; [apply moved_refl|done|eauto|].
  unfold at_key. rewrite Hc. cbn [from_option]. rewrite <- Ht.
  unfold calcCandidateTotalAmount. repeat (case_match; cbn -[Z.add]); lia.
Qed.

Lemma StakingBeginBlock_keeps blockNumber w u w' :
  StakingBeginBlock blockNumber w = (Ok u, w') → keeps w w'.
Proof.
  unfold StakingBeginBlock. destruct (IsBeginOfEpoch _ _); [|by intros [_ <-]%pair_Ok_eq].
  intros (l & w1 & H1 & H2)%bind_Ok_inv. transitivity w1.
  { eapply quiet_keeps; [|exact H1]. apply getVerifierList_quiet. }
  clear H1. revert w1 H2. induction (vaArr l) as [|v vs IH]; intros w1; cbn [for_each].
  - by intros [_ <-]%pair_Ok_eq.
  - intros ([] & w2 & H1 & H2)%bind_Ok_inv. transitivity w2; [|by apply IH].
    by eapply beginEpochStep_keeps.
Qed.
End handlers.

(** ** Checks and queries leave the world as it is *)

Definition reads {A} (m : M World A) : Prop := ∀ w a w', m w = (Ok a, w') → w' = w.

Create HintDb reads.

Section reads.
Context {A : Type}.

Lemma reads_ret (a : A) : reads (mret a).
Proof. by intros w b w' [_ <-]%pair_Ok_eq. Qed.

Lemma reads_gets (f : World → A) : reads (gets f).
Proof. by intros w b w' [_ <-]%pair_Ok_eq. Qed.

Lemma reads_fail e : reads (fail (A:=A) e).
Proof. done. Qed.

Lemma reads_panic : reads (panic (A:=A)).
Proof. done. Qed.

Lemma reads_ask (o : outcome A) : reads (ask o).
Proof. by intros w b w' [= _ <-]. Qed.

Lemma reads_bind {B} (m : M World A) (k : A → M World B) :
  reads m → (∀ a, reads (k a)) → reads (m ≫= k).
Proof.
  intros Hm Hk w b w' (a & w1 & H1 & H2)%bind_Ok_inv.
  apply Hm in H1 as ->. by apply Hk in H2.
Qed.

Lemma reads_get_opt (m : M World A) : (∀ w, (m w).2 = w) → reads (get_opt m).
Proof. intros Hm w o w' H. by apply get_opt_inv in H as [-> _]. Qed.
End reads.

Ltac reads_step :=
  match goal with
  | |- reads (mret _) => apply reads_ret
  | |- reads (gets _) => apply reads_gets
  | |- reads (fail _) => apply reads_fail
  | |- reads panic => apply reads_panic
  | |- reads (ask _) => apply reads_ask
  | |- reads (_ ≫= _) => apply reads_bind; [|intros ?]
  | |- reads (get_opt _) =>
      apply reads_get_opt; intros ?;
      first [apply db_get_state | apply GetCandidateStore_state]
  | |- reads (match ?x with _ => _ end) => destruct x
  | |- reads (let _ := _ in _) => cbv zeta
  end.
Ltac reads := repeat reads_step; eauto with reads.

(** ** A withdrawal of a delegation *)

(** What storing the delegation does to coins and delegations. *)
Lemma storeDelegation_effect a i n cleared d w x w' :
  storeDelegation a i n cleared d w = (Ok x, w') → a ≠ StakingContractAddr →
  GetBalance (stateDB w') StakingContractAddr = GetBalance (stateDB w) StakingContractAddr
  ∧ delegates (snapDB w') = (if cleared then delete (a, i, n) (delegates (snapDB w))
                             else <[(a, i, n) := d]> (delegates (snapDB w)))
  ∧ x = (if cleared then CumulativeIncome d else 0).
Proof.
  unfold storeDelegation. intros Hrun Ha. destruct cleared.
  - apply bind_Ok_inv in Hrun as (r & w1 & H1 & Hrun). destruct r as [u|e]; [|done].
    apply (try_ReturnDelegateReward_moves a _ Ha) in H1 as [Hb _ _ _ Hd].
    apply bind_Ok_inv in Hrun as (u1 & w2 & [_ <-]%pair_Ok_eq & [<- <-]%pair_Ok_eq). cbn.
    rewrite Hd. split; [lia|done].
  - apply bind_Ok_inv in Hrun as (u1 & w2 & H2 & [<- <-]%pair_Ok_eq).
    unfold SetDelegateStore in H2. destruct (delegation_encodable d); [|done].
    by apply pair_Ok_eq in H2 as [_ <-].
Qed.

