(* ===== verification/StakingSlashProofs.v ===== *)
(** * What a slash does

    The theorems about StakingSlash: how much a slash takes and from where, what
    it leaves on record, and that the staking contract stays solvent. *)

From S2P Require Import Prelude Xcom Xutil StateDB Restricting RestrictingProofs Keys.
From S2P Require Import StakingTypes StakingDB RewardPer ValidatorLists Staking.
From S2P Require Import StakingSlash StakingProofs.

(** ** Coins *)

(** The reporter of a double signature or a node's benefit account may be the
    staking contract itself, which then keeps more than the records say. *)
Definition moved_ge (k : Z) (w w' : World) : Prop := ∃ δ, k <= δ ∧ moved δ w w'.

Record grows `{Env} (w w' : World) : Prop := {
  gr_surplus : surplus w <= surplus w';
  gr_supply : total_supply (stateDB w') = total_supply (stateDB w);
  gr_ok : staking_ok (snapDB w) → staking_ok (snapDB w') }.

#[export] Instance grows_preorder `{Env} : PreOrder grows.
Proof. split; [by intros w|]. intros w1 w2 w3 [] []. split; [lia|congruence|auto]. Qed.

Lemma keeps_grows `{Env} w w' : keeps w w' → grows w w'.
Proof. intros []. split; [lia|done..]. Qed.

Lemma moved_moved_ge δ w w' : moved δ w w' → moved_ge δ w w'.
Proof. intros Hm. exists δ. split; [lia|done]. Qed.

Lemma moved_ge_trans k1 k2 w1 w2 w3 :
  moved_ge k1 w1 w2 → moved_ge k2 w2 w3 → moved_ge (k1 + k2) w1 w3.
Proof.
  intros (δ1 & ? & ?) (δ2 & ? & ?). exists (δ1 + δ2). split; [lia|by eapply moved_trans].
Qed.

Lemma moved_ge_le k k' w w' : moved_ge k w w' → k' <= k → moved_ge k' w w'.
Proof. intros (δ & ? & ?) ?. exists δ. split; [lia|done]. Qed.

Lemma SetCanMutableStore_grows `{Env} k w w1 addr c u w2 :
  moved_ge k w w1 → SetCanMutableStore addr c w1 = (Ok u, w2) →
  is_Some (canMutables (snapDB w) !! addr) →
  calcCandidateTotalAmount c
    = at_key calcCandidateTotalAmount addr (canMutables (snapDB w)) + k →
  grows w w2.
Proof.
  intros (δ & Hle & Hm) Hrun Hs Hc. unfold SetCanMutableStore in Hrun.
  destruct (mutable_encodable c) eqn:He; [|done].
  apply pair_Ok_eq in Hrun as [_ <-]. destruct Hm as [Hbal Hsup Hb Hmu Hd]. split; cbn.
  - unfold surplus, held; cbn. rewrite msum_insert, Hmu, Hd, Hbal. lia.
  - done.
  - intros [[H1 H2] [H3 H4]]. unfold staking_ok, db_ok; cbn. rewrite Hmu, Hd, Hb.
    split; [split|split]; [by apply map_Forall_insert_2|done..|].
    eapply (paired_insert (snapDB w)); cbn; [done|rewrite ?Hb; by apply H4|by rewrite ?Hmu|].
    by rewrite ?Hb.
Qed.

(** A payment out of another account never takes from the staking contract. *)
Lemma try_ReturnDelegateReward_ge a x w r w' :
  try (on_state (ReturnDelegateReward a x)) w = (Ok r, w') → moved_ge 0 w w'.
Proof.
  destruct (Z.eqb_spec a StakingContractAddr) as [->|Ha].
  2: { intros Hrun. apply moved_moved_ge. by apply (try_ReturnDelegateReward_moves a x Ha) in Hrun. }
  unfold try, on_state, ReturnDelegateReward. destruct (Z.ltb_spec 0 x).
  - run_eval. destruct (_ <? x); intros [= _ <-]; destruct w;
      [apply moved_moved_ge, moved_refl|].
    exists x. split; [lia|]. split; cbn; [st_balance|apply total_supply_transfer|done..].
  - intros [= _ <-]. destruct w. apply moved_moved_ge, moved_refl.
Qed.

Lemma slashPay_ge x typ benefit w u w' :
  on_state (modify (slashPay x typ benefit)) w = (Ok u, w') → 0 <= x → moved_ge (- x) w w'.
Proof.
  intros Hrun Hx. destruct (Z.eqb_spec benefit StakingContractAddr) as [->|Hb].
  2: { apply moved_moved_ge. by apply (slashPay_moves x typ benefit Hb) in Hrun. }
  apply on_state_inv in Hrun as [Hd [_ Hs]%pair_Ok_eq].
  exists (if IsDuplicateSign typ then 0 else - x). split; [case_match; lia|].
  split; [..|by rewrite Hd|by rewrite Hd|by rewrite Hd]; rewrite <- Hs; unfold slashPay.
  - case_match; st_balance.
  - case_match; autorewrite with state; lia.
Qed.

Lemma slashBalanceFn_inv x bal notify typ benefit account w x' bal' w' :
  slashBalanceFn x bal notify typ benefit account w = (Ok (x', bal'), w') →
  0 <= x → 0 <= bal →
  moved_ge (bal' - bal) w w' ∧ x' = Z.max 0 (x - bal) ∧ bal' = Z.max 0 (bal - x).
Proof.
  unfold slashBalanceFn. intros Hrun Hx Hb.
  destruct (_ || _) eqn:Hz.
  { apply pair_Ok_eq in Hrun as [[= <- <-] <-]. apply orb_true_iff in Hz.
    split; [eapply moved_ge_le; [apply moved_moved_ge, moved_refl|lia]|].
    destruct Hz; bool_to_prop; lia. }
  clear Hz. destruct (Z.leb_spec bal x);
    apply bind_Ok_inv in Hrun as (u & w1 & Hp & (u2 & w2 & Hn & [[= <- <-] <-]%pair_Ok_eq)
      %bind_Ok_inv); apply slashPay_ge in Hp; try lia.
  all: assert (moved_ge 0 w1 w2) as Hm
    by (apply moved_moved_ge; destruct notify; cbn in Hn;
        [by apply SlashingNotify_moves in Hn
        |apply pair_Ok_eq in Hn as [_ <-]; apply moved_refl]).
  all: split; [eapply moved_ge_le; [by eapply moved_ge_trans|lia]|lia].
Qed.

(** ** Records *)

Definition effective (c : CandidateMutable) : Z := Released c + RestrictingPlan c.

Definition hesitating (c : CandidateMutable) : Z := ReleasedHes c + RestrictingPlanHes c.

Lemma total_split c : calcCandidateTotalAmount c = effective c + hesitating c.
Proof. unfold calcCandidateTotalAmount, effective, hesitating. lia. Qed.

(** One of the two sources of a slash. *)
Lemma slashSource_inv x bal notify typ benefit account w x' bal' w' :
  (if (0 <? x) && (0 <? bal) then slashBalanceFn x bal notify typ benefit account
   else mret (x, bal)) w = (Ok (x', bal'), w') →
  0 <= bal →
  moved_ge (bal' - bal) w w'
  ∧ (0 <= x → x' = Z.max 0 (x - bal) ∧ bal' = Z.max 0 (bal - x))
  ∧ (x < 0 → x' = x).
Proof.
  intros Hrun Hb. destruct (_ && _) eqn:Hg.
  - bool_to_prop. apply slashBalanceFn_inv in Hrun as (? & -> & ->); [|lia..].
    split; [done|]. split; lia.
  - apply pair_Ok_eq in Hrun as [[= <- <-] <-]. apply andb_false_iff in Hg.
    split; [eapply moved_ge_le; [apply moved_moved_ge, moved_refl|lia]|].
    split; destruct Hg; bool_to_prop; lia.
Qed.

Lemma slashStake_inv item account c w c' w' :
  slashStake item account c w = (Ok c', w') →
  0 <= Released c → 0 <= RestrictingPlan c →
  moved_ge (calcCandidateTotalAmount c' - calcCandidateTotalAmount c) w w'
  ∧ effective c' = effective c - snAmount item
  ∧ Released c' = Z.max 0 (Released c - snAmount item)
  ∧ 0 <= RestrictingPlan c'
  ∧ ReleasedHes c' = ReleasedHes c ∧ RestrictingPlanHes c' = RestrictingPlanHes c
  ∧ Status c' = Status c
  ∧ CurrentEpochDelegateReward c' = CurrentEpochDelegateReward c
  ∧ cmShares c' = (if sharesHaveBeenClean (Status c) then cmShares c
                   else cmShares c - snAmount item).
Proof.
  unfold slashStake. intros ([x1 rel] & w1 & H1 & ([x2 res] & w2 & H2 & H3)%bind_Ok_inv)
    %bind_Ok_inv Hr Hp.
  apply slashSource_inv in H1 as (Hm1 & E1 & F1); [|done].
  apply slashSource_inv in H2 as (Hm2 & E2 & F2); [|done].
  destruct (Z.eqb_spec x2 0) as [->|]; cbn [negb] in H3; [|done].
  destruct (Z.ltb_spec (snAmount item) 0) as [|Hn]; [lia|].
  destruct (E1 Hn) as [-> ->]. destruct E2 as [E2 ->]; [lia|].
  cbn [set_stake Status cmShares] in H3.
  assert (w2 = w' ∧ ∃ f, c' = set_shares f (set_stake (Z.max 0 (Released c - snAmount item))
    (ReleasedHes c) (Z.max 0 (RestrictingPlan c - Z.max 0 (snAmount item - Released c)))
    (RestrictingPlanHes c) c)
    ∧ f (cmShares c) = if sharesHaveBeenClean (Status c) then cmShares c
                       else cmShares c - snAmount item) as (-> & f & -> & Hf).
  { destruct (sharesHaveBeenClean _).
    - apply pair_Ok_eq in H3 as [<- <-]. split; [done|]. by exists (λ s, s).
    - destruct (_ <=? _); [|done]. apply pair_Ok_eq in H3 as [<- <-]. split; [done|].
      by exists (λ s, s - snAmount item). }
  unfold calcCandidateTotalAmount, effective. cbn -[Z.add Z.max Z.sub].
  split; [eapply moved_ge_le; [by eapply moved_ge_trans|lia]|]. repeat split; [lia..|done].
Qed.

Lemma Z_lor_absorb m s : Z.lor (Z.land s m) m = m.
Proof.
  apply Z.bits_inj'. intros n _. rewrite Z.lor_spec, Z.land_spec.
  by destruct (Z.testbit s n), (Z.testbit m n).
Qed.

Lemma status_bits s :
  IsInvalid (Z.lor s (Z.lor Invalided DuplicateSign)) = true
  ∧ IsDuplicateSign (Z.lor s (Z.lor Invalided DuplicateSign)) = true.
Proof.
  unfold IsInvalid, IsDuplicateSign, has. rewrite !Z.eqb_eq.
  split; rewrite Z.land_lor_distr_l; apply Z_lor_absorb.
Qed.

Section slash.
Context `{Env}.

Lemma settleSlash_inv blockNumber canAddr effect can w u w' :
  settleSlash blockNumber canAddr effect can w = (Ok u, w') →
  ∃ w1, moved 0 w w1
    ∧ SetCanMutableStore canAddr (AppendStatus (changeStatus effect) (canMutable can)) w1
      = (Ok u, w').
Proof.
  unfold settleSlash. cbv zeta. destruct (_ && _); [|destruct (_ && _)].
  - intros (u1 & w1 & H1 & H2)%bind_Ok_inv. exists w1. split; [|done].
    refine ((_ : quiet _) w u1 w1 H1). quiet.
  - intros (u1 & w1 & H1 & H2)%bind_Ok_inv. exists w1. split; [|done].
    refine ((_ : quiet _) w u1 w1 H1). quiet.
  - intros Hrun. exists w. split; [apply moved_refl|done].
Qed.

(** Payment of the node's reward of the epoch, when it leaves the verifiers. *)
Lemma slashReward_inv (remove : bool) benefit c w c' w' :
  (if remove then
     _ ← try (on_state (ReturnDelegateReward benefit (CurrentEpochDelegateReward c)));
     mret (CleanCurrentEpochDelegateReward c)
   else mret c) w = (Ok c', w') →
  moved_ge 0 w w' ∧ c' = if remove then CleanCurrentEpochDelegateReward c else c.
Proof.
  destruct remove.
  - intros (r & w1 & H1 & [<- <-]%pair_Ok_eq)%bind_Ok_inv.
    by apply try_ReturnDelegateReward_ge in H1.
  - intros [<- <-]%pair_Ok_eq. split; [apply moved_moved_ge, moved_refl|done].
Qed.

Lemma slashHes_inv (ret : bool) account c w c' w' :
  (if ret then c ← returnHes account c; mret (CleanShares c) else mret c) w = (Ok c', w') →
  account ≠ StakingContractAddr → 0 <= ReleasedHes c → 0 <= RestrictingPlanHes c →
  moved_ge (calcCandidateTotalAmount c' - calcCandidateTotalAmount c) w w'
  ∧ effective c' = effective c ∧ Status c' = Status c
  ∧ CurrentEpochDelegateReward c' = CurrentEpochDelegateReward c
  ∧ hesitating c' = (if ret then 0 else hesitating c)
  ∧ cmShares c' = (if ret then 0 else cmShares c).
Proof.
  intros Hrun Ha H1 H2. destruct ret.
  - apply bind_Ok_inv in Hrun as (c1 & w1 & Hr & [<- <-]%pair_Ok_eq).
    pose proof (returnHes_fields _ _ _ _ _ Hr) as (E5 & E6).
    apply (returnHes_inv _ Ha) in Hr as (Hm & E1 & E2 & E3 & E4).
    unfold effective, hesitating. cbn -[Z.add].
    split; [by apply moved_moved_ge in Hm|]. rewrite E1, E2, E3, E4, E5, E6.
    repeat split; lia.
  - apply pair_Ok_eq in Hrun as [<- <-]. split; [|done].
    eapply moved_ge_le; [apply moved_moved_ge, moved_refl|lia].
Qed.

(** A slash that is not repeated: a node already low on blocks is not fined for
    the same again. *)
Definition fine (item : SlashNodeItem) (c : CandidateMutable) : Z :=
  if IsLowRatio (Status c) && IsLowRatio (SlashType item) then 0 else snAmount item.

(** The step from the stored record to the fined one. *)
Lemma slashFine_inv item account c w c' w' :
  (if IsLowRatio (Status c) && IsLowRatio (SlashType item) then mret c
   else slashStake item account c) w = (Ok c', w') →
  0 <= Released c → 0 <= RestrictingPlan c →
  moved_ge (calcCandidateTotalAmount c' - calcCandidateTotalAmount c) w w'
  ∧ effective c' = effective c - fine item c
  ∧ ReleasedHes c' = ReleasedHes c ∧ RestrictingPlanHes c' = RestrictingPlanHes c
  ∧ Status c' = Status c.
Proof.
  unfold fine. intros Hrun Hr Hp. destruct (_ && _).
  - apply pair_Ok_eq in Hrun as [<- <-]. split; [|repeat split; lia].
    eapply moved_ge_le; [apply moved_moved_ge, moved_refl|lia].
  - by apply slashStake_inv in Hrun as (? & ? & _ & _ & ? & ? & ? & _).
Qed.

(** The steps after the fine, up to the write of the record. *)
Lemma slashTail_inv blockNumber canAddr can account eff c w removed w' :
  (c ← (if needRemove eff then
          _ ← try (on_state (ReturnDelegateReward (BenefitAddress (canBase can))
                               (CurrentEpochDelegateReward c)));
          mret (CleanCurrentEpochDelegateReward c)
        else mret c);
   c ← (if needReturnHes eff then c ← returnHes account c; mret (CleanShares c)
        else mret c);
   settleSlash blockNumber canAddr eff (setMutable can c) ≫= λ _,
   mret (needRemove eff)) w = (Ok removed, w') →
  account ≠ StakingContractAddr → 0 <= ReleasedHes c → 0 <= RestrictingPlanHes c →
  removed = needRemove eff ∧ ∃ c' w1 u,
    moved_ge (calcCandidateTotalAmount c' - calcCandidateTotalAmount c) w w1
    ∧ SetCanMutableStore canAddr (AppendStatus (changeStatus eff) c') w1 = (Ok u, w')
    ∧ effective c' = effective c ∧ Status c' = Status c
    ∧ hesitating c' = (if needReturnHes eff then 0 else hesitating c)
    ∧ (needReturnHes eff = true → cmShares c' = 0)
    ∧ (needRemove eff = true → CurrentEpochDelegateReward c' = 0).
Proof.
  intros (c2 & w1 & [H1 Hc2]%slashReward_inv & Hrun)%bind_Ok_inv Ha N1 N2.
  assert (effective c2 = effective c ∧ hesitating c2 = hesitating c
    ∧ ReleasedHes c2 = ReleasedHes c ∧ RestrictingPlanHes c2 = RestrictingPlanHes c
    ∧ Status c2 = Status c ∧ (needRemove eff = true → CurrentEpochDelegateReward c2 = 0))
    as (G1 & G2 & G3 & G4 & G5 & G6) by (rewrite Hc2; by destruct (needRemove eff)).
  apply bind_Ok_inv in Hrun as (c3 & w2 & H2 & Hrun).
  apply slashHes_inv in H2 as (Hm & K1 & K2 & K3 & K4 & K5); [|done|lia..].
  apply bind_Ok_inv in Hrun as (u & w3 & (w4 & H3 & H4)%settleSlash_inv & [<- <-]%pair_Ok_eq).
  split; [done|]. exists c3, w4, u. apply moved_moved_ge in H3.
  split; [|repeat split; try done; try congruence].
  - eapply moved_ge_le; [eapply moved_ge_trans; [eapply moved_ge_trans; [exact H1|exact Hm]
      |exact H3]|]. rewrite !total_split. lia.
  - rewrite K4. case_match; congruence.
  - intros Hn. by rewrite K5, Hn.
  - intros Hn. rewrite K3. auto.
Qed.

(** What a slash leaves on record, in terms of the record [c] before it. *)
Record slashed (blockNumber : Z) (item : SlashNodeItem) (c c' : CandidateMutable)
    (removed : bool) : Prop := {
  sl_effective : effective c' = effective c - fine item c;
  sl_removed : removed
    = needRemove (handleSlashTypeFn blockNumber (SlashType item)
                    (effective c' + hesitating c));
  sl_status : Status c'
    = Z.lor (Status c) (changeStatus (handleSlashTypeFn blockNumber (SlashType item)
                    (effective c' + hesitating c)));
  sl_hesitating : hesitating c'
    = if needReturnHes (handleSlashTypeFn blockNumber (SlashType item)
                    (effective c' + hesitating c)) then 0 else hesitating c;
  sl_shares : needReturnHes (handleSlashTypeFn blockNumber (SlashType item)
                    (effective c' + hesitating c)) = true → cmShares c' = 0;
  sl_reward : removed = true → CurrentEpochDelegateReward c' = 0 }.

Lemma toSlash_inv blockNumber item w removed w' :
  toSlash blockNumber item w = (Ok removed, w') → staking_ok (snapDB w) →
  let a := slashAddr (snNodeId item) in
  ∃ c c', canMutables (snapDB w) !! a = Some c
    ∧ grows w w' ∧ canMutables (snapDB w') = <[a := c']> (canMutables (snapDB w))
    ∧ slashed blockNumber item (lazyCalcStakeAmount (CalculateEpoch ec blockNumber) c)
        c' removed.
Proof.
  intros Hrun Hok a. unfold toSlash in Hrun. fold a in Hrun.
  destruct (slashTypeIsWrong _); [done|].
  apply bind_Ok_inv in Hrun as (o & w0 & Ho & Hrun).
  apply get_opt_inv in Ho as [-> Ho]; [|apply GetCandidateStore_state].
  destruct o as [can|]; [|done]. apply GetCandidateStore_inv in Ho as (_ & Hb & Hc).
  pose proof (staking_ok_account _ _ _ Hok Hb) as Ha. cbv zeta in Hrun.
  pose proof (lazyCalcStakeAmount_total (CalculateEpoch ec blockNumber) (canMutable can)) as Ht.
  destruct (lazyCalcStakeAmount_nonneg (CalculateEpoch ec blockNumber) (canMutable can))
    as (N1 & N2 & N3 & N4); [by eapply staking_ok_mutable|].
  exists (canMutable can). set (c0 := lazyCalcStakeAmount _ _) in *.
  destruct (_ <? _); [done|].
  apply bind_Ok_inv in Hrun as (u1 & w1 & H1 & (c1 & w2 & H2 & Hrun)%bind_Ok_inv).
  apply DelCanPowerStore_quiet in H1. apply moved_moved_ge in H1.
  apply slashFine_inv in H2 as (Hm2 & E1 & E2 & E3 & E4); [|done..].
  assert (Htot : calcCandidateTotalAmount c1 = effective c1 + hesitating c0).
  { rewrite total_split. unfold hesitating. lia. }
  rewrite Htot in Hrun. set (eff := handleSlashTypeFn _ _ _) in Hrun.
  apply slashTail_inv in Hrun as (-> & c3 & w3 & u & Hm3 & H4 & K1 & K2 & K3 & K4 & K5);
    [|done|lia..].
  pose proof (moved_ge_trans _ _ _ _ _ (moved_ge_trans _ _ _ _ _ H1 Hm2) Hm3) as Hm.
  exists (AppendStatus (changeStatus eff) c3). split; [done|].
  assert (hesitating c0 = hesitating c1) as Hh by (unfold hesitating; lia).
  split; [|split].
  - eapply SetCanMutableStore_grows; [exact Hm|exact H4|eauto|]. unfold at_key. rewrite Hc.
    cbn [from_option]. rewrite <- Ht. unfold calcCandidateTotalAmount. cbn -[Z.add]. lia.
  - destruct Hm as (δ & _ & Hm). unfold SetCanMutableStore in H4.
    destruct (mutable_encodable _); [|done]. apply pair_Ok_eq in H4 as [_ <-]. cbn.
    by rewrite (mv_mutables _ _ _ Hm).
  - unfold eff in *. rewrite <- K1 in *.
    split; cbn -[Z.add effective hesitating handleSlashTypeFn];
      change (effective (AppendStatus _ c3)) with (effective c3);
      change (hesitating (AppendStatus _ c3)) with (hesitating c3);
      auto; try congruence.
    rewrite K3. case_match; congruence.
Qed.

Lemma slashLoop_grows blockNumber queue w r w' :
  slashLoop blockNumber queue w = (Ok r, w') → staking_ok (snapDB w) → grows w w'.
Proof.
  revert w r. induction queue as [|item queue IH]; intros w r; cbn [slashLoop].
  - by intros [_ <-]%pair_Ok_eq.
  - intros (removed & w1 & H1 & ([inv gov] & w2 & H2 & [_ <-]%pair_Ok_eq)%bind_Ok_inv)
      %bind_Ok_inv Hok.
    destruct (toSlash_inv _ _ _ _ _ H1 Hok) as (c & c' & _ & Hg & _).
    transitivity w1; [done|]. eapply IH; [done|]. by apply Hg.
Qed.

Lemma removeFromVerifiers_quiet blockNumber ids : quiet (removeFromVerifiers blockNumber ids).
Proof.
  unfold removeFromVerifiers, setVerifierListByIndex, GetEpochValIndex, SetEpochValList.
  apply quiet_bind; [apply getVerifierList_quiet|intros l]. quiet.
Qed.

Lemma SlashCandidates_grows blockNumber queue w u w' :
  SlashCandidates blockNumber queue w = (Ok u, w') → staking_ok (snapDB w) → grows w w'.
Proof.
  unfold SlashCandidates. intros ([inv gov] & w1 & H1 & H2)%bind_Ok_inv Hok.
  transitivity w1; [by eapply slashLoop_grows|]. apply keeps_grows.
  eapply quiet_keeps; [|exact H2]. destruct inv; [quiet|].
  apply quiet_bind; [apply removeFromVerifiers_quiet|intros _]. quiet.
Qed.

(** ** Double signing *)

Lemma toSlash_double_inv blockNumber item w removed w' :
  toSlash blockNumber item w = (Ok removed, w') → staking_ok (snapDB w) →
  SlashType item = DuplicateSign →
  let a := slashAddr (snNodeId item) in
  removed = true ∧ grows w w' ∧ ∃ c c',
    canMutables (snapDB w) !! a = Some c
    ∧ canMutables (snapDB w') = <[a := c']> (canMutables (snapDB w))
    ∧ effective c' = effective (lazyCalcStakeAmount (CalculateEpoch ec blockNumber) c)
                     - snAmount item
    ∧ hesitating c' = 0 ∧ cmShares c' = 0 ∧ CurrentEpochDelegateReward c' = 0
    ∧ IsInvalid (Status c') = true ∧ IsDuplicateSign (Status c') = true.
Proof.
  intros Hrun Hok Htyp a.
  destruct (toSlash_inv _ _ _ _ _ Hrun Hok) as (c & c' & Hc & Hg & Hmu & [E1 E2 E3 E4 E5 E6]).
  fold a in Hc, Hmu. rewrite Htyp in *. cbn [handleSlashTypeFn needRemove needReturnHes
    changeStatus Z.eqb orb LowRatio LowRatioDel DuplicateSign Pos.eqb] in *. subst removed.
  split; [done|]. split; [done|]. exists c, c'. split; [done|]. split; [done|].
  rewrite E1. unfold fine. rewrite Htyp, andb_false_r.
  repeat (split; [by auto|]). rewrite E3. apply status_bits.
Qed.

End slash.

(** *** A concrete node *)

Definition demoEnv : Env :=
  {| ec := unitTestNetConfig []; NodeId2Addr := λ n, Ok n;
     GovernStakeThreshold := λ _, Ok 100; GovernOperatingThreshold := λ _, Ok 10;
     GovernUnStakeFreezeDuration := λ _, Ok 2; GovernZeroProduceFreezeDuration := λ _, Ok 1;
     GovernMaxEvidenceAge := λ _, Ok 1; GovernMaxValidators := λ _, Ok 4;
     GovernIncreaseIssuanceRatio := λ _, Ok 250;
     GovernSlashFractionDuplicateSign := λ _, Ok 10;
     GovernDuplicateSignReportReward := λ _, Ok 50;
     GovernZeroProduceNumberThreshold := λ _, Ok 2;
     GovernZeroProduceCumulativeTime := λ _, Ok 4; GovernSlashBlocksReward := λ _, Ok 3;
     GetVersionForStaking := 65536; GetCurrentActiveVersion := 65536;
     GetMaxEndVotingBlock := λ _, Ok 0; NotifyPunishedVerifiers := λ _, Ok tt |}.

Lemma demo_no_collision : @no_collision demoEnv.
Proof. intros n m a Hn Hm. cbn in Hn, Hm. congruence. Defined.

Definition demoDescription : Description :=
  {| ExternalId := "id"; NodeName := "node"; Website := "site"; Details := "none" |}.

Definition demoBase : CandidateBase :=
  {| cbNodeId := 7; cbBlsPubKey := 7; StakingAddress := 1001; BenefitAddress := 1002;
     cbStakingTxIndex := 0; cbProgramVersion := 65536; cbStakingBlockNum := 1;
     cbDescription := demoDescription |}.

(** 100 effective and 20 hesitating, both free coins. *)
Definition demoMutable : CandidateMutable :=
  {| Status := 0; StakingEpoch := 1; cmShares := 120; Released := 100; ReleasedHes := 20;
     RestrictingPlan := 0; RestrictingPlanHes := 0; cmDelegateEpoch := 0;
     DelegateTotal := 0; DelegateTotalHes := 0; RewardPer := 0; NextRewardPer := 0;
     RewardPerChangeEpoch := 1; CurrentEpochDelegateReward := 0;
     DelegateRewardTotal := 0 |}.

Definition demoWorld : World :=
  {| stateDB := SetBalance StakingContractAddr 120 emptyState;
     snapDB := set_canMutables (set_canBases emptyDB (<[7 := demoBase]> ∅))
                 (<[7 := demoMutable]> ∅) |}.

Lemma demoWorld_ok : @staking_ok demoEnv (snapDB demoWorld).
Proof.
  split; [split|split].
  - by apply map_Forall_singleton.
  - by apply map_Forall_empty.
  - by apply map_Forall_singleton.
  - intros a. cbn. rewrite !lookup_insert_is_Some, !lookup_empty.
    intros [?|[_ []%is_Some_None]]; auto.
Defined.

Definition demoSlash : SlashNodeItem :=
  {| snNodeId := 7; snAmount := 60; SlashType := DuplicateSign; BenefitAddr := 2001 |}.

