(* ===== verification/ElectionProofs.v ===== *)
(** * Who is elected

    The theorems about Election: the lottery and the random order only choose and
    permute, the loop that makes room for new validators ends exactly when it can,
    a round's validators are valid and distinct, and the records that evidence is
    checked against are kept. *)

From S2P Require Import Prelude Xcom Xutil StateDB Restricting RestrictingProofs Keys.
From S2P Require Import StakingTypes ValidatorSort StakingDB RewardPer ValidatorLists Staking.
From S2P Require Import StakingSlash Float64 Binomial Election StakingProofs StakingSlashProofs.

(** ** The lottery *)

Section lottery_facts.
Context `{LotteryLaws}.

Lemma goShuffle_perm {A} seed n i (l : list A) : goShuffle seed n i l ≡ₚ l.
Proof.
  revert l. induction i as [|i IH]; intros l; cbn [goShuffle]; [done|].
  rewrite IH. apply swap_perm.
Qed.

Lemma collectWeights_vals l t ts svs : collectWeights l = Ok (t, ts, svs) → map svV svs = l.
Proof.
  revert t ts svs. induction l as [|v l IH]; intros t ts svs; cbn.
  - by intros [= _ _ <-].
  - intros ([w r] & _ & ([[t' ts'] svs'] & Hc & [= _ _ <-])%outcome_bind_Ok)%outcome_bind_Ok.
    cbn. f_equal. by eapply IH.
Qed.

Lemma drawAll_vals p c svs ns svs' :
  drawAll p c svs ns = Ok svs' → map svV svs' = map svV svs.
Proof.
  revert ns svs'. induction svs as [|sv svs IH]; intros [|n ns] svs'; cbn [drawAll];
    [by intros [= <-]..|done|].
  intros (t & _ & (x & _ & (rest & Hr & [= <-])%outcome_bind_Ok)%outcome_bind_Ok)
    %outcome_bind_Ok. cbn [map set_x svV].
  f_equal. by eapply IH.
Qed.

(** The lottery chooses [n] of the validators. *)
Lemma vrfElection_perm loaded l n nonce version q :
  vrfElection loaded l n nonce version = Ok q → ∃ l', l' ≡ₚ l ∧ q = take n l'.
Proof.
  unfold vrfElection. intros (ns & _ & Hrun)%outcome_bind_Ok.
  destruct (_ <? _)%nat; [done|]. unfold probabilityElection in Hrun.
  destruct (ProofToHash nonce); [done|]. destruct (drop _ ns); [done|].
  destruct (negb _); [done|].
  apply outcome_bind_Ok in Hrun as ([[t ts] svs] & Hc & Hrun).
  apply outcome_bind_Ok in Hrun as (tf & _ & Hrun).
  apply outcome_bind_Ok in Hrun as (tsf & _ & Hrun). cbv zeta in Hrun.
  apply outcome_bind_Ok in Hrun as (svs' & Hd & [= <-]).
  apply collectWeights_vals in Hc. apply drawAll_vals in Hd.
  eexists. split; [|done].
  transitivity (map svV svs'); [apply fmap_Permutation; case_match; apply goSort_perm|].
  rewrite Hd, <- Hc. apply fmap_Permutation. case_match; [apply goShuffle_perm|done].
Qed.

Lemma orderValues_vals ns i q l : orderValues ns i q = Ok l → map fst l = q.
Proof.
  revert i l. induction q as [|v q IH]; intros i l; cbn; [by intros [= <-]|].
  intros (x & _ & (rest & Hr & [= <-])%outcome_bind_Ok)%outcome_bind_Ok. cbn.
  f_equal. by eapply IH.
Qed.

Lemma randomOrder_perm ec loaded n q q' :
  randomOrderValidatorQueue ec loaded n q = Ok q' → q' ≡ₚ q.
Proof.
  unfold randomOrderValidatorQueue. intros (ns & _ & Hrun)%outcome_bind_Ok.
  destruct (_ =? _)%nat; [done|]. destruct (_ && _); [done|].
  destruct (_ <=? _)%nat; [by injection Hrun as <-|].
  apply outcome_bind_Ok in Hrun as (l & Ho & [= <-]).
  apply orderValues_vals in Ho. subst q. apply fmap_Permutation.
  rewrite !goSort_perm. by rewrite take_drop.
Qed.
End lottery_facts.

(** ** Making room *)

Section trim.
Context `{Env}.

Local Abbreviation max := (Z.to_nat (MaxConsensusVals (Common ec))).
Local Abbreviation shift := (Z.to_nat (ShiftValidatorNum ec)).

Definition chosen (v : Validator) : bool := IsExistInitialChosenValidators (NodeId v).

(** How many of the initial validators are among them. *)
Definition chosenIn (l : list Validator) : nat := length (filter (λ v, chosen v = true) l).

Lemma removeFirstOther_spec l :
  sublist (removeFirstOther l) l ∧ chosenIn (removeFirstOther l) = chosenIn l
  ∧ (length (removeFirstOther l) = length l ∧ chosenIn l = length l
     ∨ S (length (removeFirstOther l)) = length l).
Proof.
  unfold chosenIn. induction l as [|v l (IH1 & IH2 & IH3)]; [cbn; auto|].
  cbn [removeFirstOther]. fold (chosen v). rewrite !filter_cons.
  destruct (chosen v) eqn:Hc; cbn [negb].
  - split; [by constructor|]. rewrite filter_cons, decide_True by done.
    rewrite decide_True by done. cbn [length]. lia.
  - rewrite decide_False by congruence. split; [by constructor|]. cbn. auto.
Qed.

Lemma chosenIn_le l : (chosenIn l <= length l)%nat.
Proof. apply length_filter. Qed.

(** What is left is a part of the queue with all its initial validators. *)
Lemma trimLoop_spec fuel l k r :
  trimLoop fuel l k = Some r →
  sublist r l ∧ chosenIn r = chosenIn l
  ∧ ((length r <= max - shift)%nat ∨ (length r + k <= max)%nat).
Proof.
  revert l. induction fuel as [|fuel IH]; intros l; cbn [trimLoop];
    destruct (Nat.ltb_spec (max - shift) (length l)), (Nat.ltb_spec max (length l + k));
    cbn [andb]; try done;
    try (intros [= <-]; split; [done|split; [done|lia]]).
  intros (F1 & F2 & F3)%IH. destruct (removeFirstOther_spec l) as (E1 & E2 & _).
  split; [by etrans|]. split; [congruence|done].
Qed.

(** Enough passes. *)
Lemma trimLoop_ends fuel l k :
  (chosenIn l <= max - shift)%nat ∨ (chosenIn l + k <= max)%nat →
  (length l - chosenIn l <= fuel)%nat → is_Some (trimLoop fuel l k).
Proof.
  revert l. induction fuel as [|fuel IH]; intros l Hc Hf; cbn [trimLoop];
    destruct (Nat.ltb_spec (max - shift) (length l)), (Nat.ltb_spec max (length l + k));
    cbn [andb]; eauto; pose proof (chosenIn_le l).
  - exfalso. lia.
  - destruct (removeFirstOther_spec l) as (_ & E2 & [E3|E3]); [exfalso; lia|].
    apply IH; rewrite E2; [done|lia].
Qed.

(** No number of passes is enough. *)
Lemma trimLoop_diverges fuel l k :
  (max - shift < chosenIn l)%nat → (max < chosenIn l + k)%nat → trimLoop fuel l k = None.
Proof.
  revert l. induction fuel as [|fuel IH]; intros l Hc Hk; cbn [trimLoop];
    pose proof (chosenIn_le l);
    destruct (Nat.ltb_spec (max - shift) (length l)), (Nat.ltb_spec max (length l + k));
    cbn [andb]; try lia; [done|].
  destruct (removeFirstOther_spec l) as (_ & E2 & _). apply IH; by rewrite E2.
Qed.
(** C31: The loop of [shuffleQueue] that makes room for newly elected validators
    ends exactly if the initial validators among the remaining ones, which it never
    removes, leave room: either they are at most the number that may remain, or
    together with the new ones at most the size of a round.  If so, as many passes
    as there are validators are enough, and only validators that are not initial
    ones are removed, in order, and no more than needed to pass the test. *)
Theorem making_room_ends l k :
  let fits := (chosenIn l <= max - shift)%nat ∨ (chosenIn l + k <= max)%nat in
  ((∃ fuel, is_Some (trimLoop fuel l k)) ↔ fits)
  ∧ (fits → ∃ r, trimLoop (length l) l k = Some r ∧ sublist r l ∧ chosenIn r = chosenIn l
       ∧ ((length r <= max - shift)%nat ∨ (length r + k <= max)%nat)).
Proof.
  intros fits. assert (Hends : fits → is_Some (trimLoop (length l) l k)).
  { intros Hf. apply trimLoop_ends; [done|]. pose proof (chosenIn_le l). lia. }
  split; [split|].
  - intros [fuel [r Hr]]. destruct (Nat.le_gt_cases (chosenIn l) (max - shift)); [by left|].
    destruct (Nat.le_gt_cases (chosenIn l + k) max); [by right|].
    by rewrite trimLoop_diverges in Hr.
  - eauto.
  - intros Hf. destruct (Hends Hf) as [r Hr]. exists r. split; [done|].
    by eapply trimLoop_spec.
Qed.
End trim.

(** *** A configuration that cannot make room *)

(** A network started from a genesis file gets the initial validators of the main
    network (src/ethereum/core/genesis.go, line 303). *)
Definition hangConfig : EconomicModel := unitTestNetConfig InitialChosenMainNetValidators.

Definition hangEnv : Env :=
  {| ec := hangConfig; NodeId2Addr := λ n, Ok n;
     GovernStakeThreshold := GovernStakeThreshold (Env := demoEnv);
     GovernOperatingThreshold := GovernOperatingThreshold (Env := demoEnv);
     GovernUnStakeFreezeDuration := GovernUnStakeFreezeDuration (Env := demoEnv);
     GovernZeroProduceFreezeDuration := GovernZeroProduceFreezeDuration (Env := demoEnv);
     GovernMaxEvidenceAge := GovernMaxEvidenceAge (Env := demoEnv);
     GovernMaxValidators := GovernMaxValidators (Env := demoEnv);
     GovernIncreaseIssuanceRatio := GovernIncreaseIssuanceRatio (Env := demoEnv);
     GovernSlashFractionDuplicateSign := GovernSlashFractionDuplicateSign (Env := demoEnv);
     GovernDuplicateSignReportReward := GovernDuplicateSignReportReward (Env := demoEnv);
     GovernZeroProduceNumberThreshold := GovernZeroProduceNumberThreshold (Env := demoEnv);
     GovernZeroProduceCumulativeTime := GovernZeroProduceCumulativeTime (Env := demoEnv);
     GovernSlashBlocksReward := GovernSlashBlocksReward (Env := demoEnv);
     GetVersionForStaking := 65536; GetCurrentActiveVersion := 65536;
     GetMaxEndVotingBlock := GetMaxEndVotingBlock (Env := demoEnv);
     NotifyPunishedVerifiers := NotifyPunishedVerifiers (Env := demoEnv) |}.

(** C40: [CheckEconomicModel] does not look at the initial validators.  It accepts a
    network of four validators per round with the four initial ones of the main
    network; there the loop of [shuffleQueue] never ends once all four are in the
    round and one other verifier is elected: the chain stops at its election block. *)
Theorem accepted_config_hangs :
  CheckEconomicModel (Some hangConfig) = Ok tt
  ∧ ∀ fuel, @trimLoop hangEnv fuel (map demoValidator InitialChosenMainNetValidators) 1
            = None.
Proof.
  split; [vm_compute; reflexivity|]. intros fuel.
  apply trimLoop_diverges; vm_compute; lia.
Qed.

(** ** The validators of the next round *)

Section survey_facts.
Context `{Henv : Env} (w : World) (cv : Z).

Definition candOf (v : Validator) : option Candidate :=
  let a := slashAddr (NodeId v) in
  match canBases (snapDB w) !! a, canMutables (snapDB w) !! a with
  | Some b, Some m => Some {| canBase := b; canMutable := m |}
  | _, _ => None
  end.

Lemma get_candidate_run v :
  get_opt (GetCandidateStore (slashAddr (NodeId v))) w = (Ok (candOf v), w).
Proof.
  unfold candOf, get_opt, try, GetCandidateStore, GetCanBaseStore, GetCanMutableStore, db_get.
  run_eval. destruct (canBases _ !! _); [|done]. by destruct (canMutables _ !! _).
Qed.

(** A validator that must leave: slashed, or with a version that is too low. *)
Definition mustLeave (can : Candidate) : bool :=
  checkHaveSlash (Status (canMutable can))
  || (CalcVersion (cbProgramVersion (canBase can)) <? cv).

Definition hasWithdrawn (can : Candidate) : bool :=
  IsInvalidWithdrew (Status (canMutable can)) && negb (checkHaveSlash (Status (canMutable can))).

(** A validator of the list with this node id has a candidate that satisfies [P]. *)
Definition among (arr : list Validator) (P : Candidate → bool) (n : Z) : Prop :=
  ∃ v can, v ∈ arr ∧ NodeId v = n ∧ candOf v = Some can ∧ P can = true.

Lemma among_snoc arr v P n :
  among (arr ++ [v]) P n
  ↔ among arr P n ∨ NodeId v = n ∧ ∃ can, candOf v = Some can ∧ P can = true.
Proof.
  unfold among. split.
  - intros (v' & can & [Hin| ->%list_elem_of_singleton]%elem_of_app & ?); [left; eauto|].
    right. destruct_and?. eauto.
  - intros [(v' & can & Hin & ?)|(? & can & ?)].
    + exists v', can. rewrite elem_of_app. auto.
    + exists v, can. rewrite elem_of_app, list_elem_of_singleton. destruct_and?. auto.
Qed.

Record surveyed (arr : list Validator) (s : Survey) : Prop := {
  sy_queue : currqueen s = filter (λ v, is_Some (candOf v)) arr;
  sy_removes n : is_Some (removeCans s !! n) ↔ among arr mustLeave n;
  sy_invalid n : n ∈ invalidCan s ↔ among arr mustLeave n;
  sy_withdrew n : is_Some (withdrewCans s !! n) ↔ among arr hasWithdrawn n;
  sy_wqueue n : n ∈ withdrewQueue s ↔ among arr hasWithdrawn n;
  sy_map n : is_Some (currMap s !! n) ↔ among arr (λ _, true) n }.

(** Candidates are stored under the address of their node. *)
Definition ids_ok (arr : list Validator) : Prop :=
  ∀ v can, v ∈ arr → candOf v = Some can → cbNodeId (canBase can) = NodeId v.

Lemma is_Some_insert_if {A} (b : bool) n m (x : A) (g : gmap Z A) :
  is_Some ((if b then <[n := x]> g else g) !! m) ↔ is_Some (g !! m) ∨ n = m ∧ b = true.
Proof. destruct b; [rewrite lookup_insert_is_Some'|]; intuition congruence. Qed.

Lemma surveyOne_ok arr v can s :
  surveyed arr s → candOf v = Some can → cbNodeId (canBase can) = NodeId v →
  surveyed (arr ++ [v]) (surveyOne cv v can s).
Proof.
  intros [Q R I W WQ M] Hc Hid.
  assert (Hex : ∀ P : Candidate → bool, (∃ can', candOf v = Some can' ∧ P can' = true) ↔ P can = true).
  { intros P. rewrite Hc. split; [by intros (? & [= <-] & ?)|eauto]. }
  split; unfold surveyOne; cbn [removeCans invalidCan withdrewCans withdrewQueue currMap currqueen];
    fold (mustLeave can) (hasWithdrawn can).
  - rewrite filter_app, Q. f_equal. rewrite filter_cons, decide_True by eauto. done.
  - intros n. rewrite among_snoc, is_Some_insert_if, R, Hex. done.
  - intros n. rewrite among_snoc, Hex, <- I, Hid.
    destruct (mustLeave can); [rewrite elem_of_union, elem_of_singleton|]; intuition congruence.
  - intros n. rewrite among_snoc, is_Some_insert_if, W, Hex. done.
  - intros n. rewrite among_snoc, Hex, <- WQ.
    destruct (hasWithdrawn can); [rewrite elem_of_app, list_elem_of_singleton|];
      intuition congruence.
  - intros n. rewrite among_snoc, lookup_insert_is_Some', M, Hex. tauto.
Qed.

Lemma surveyed_skip arr v s : surveyed arr s → candOf v = None → surveyed (arr ++ [v]) s.
Proof.
  intros [Q R I W WQ M] Hc.
  assert (Ha : ∀ P n, among (arr ++ [v]) P n ↔ among arr P n).
  { intros P n. rewrite among_snoc, Hc. split; [|auto]. intros [?|(_ & ? & ? & _)]; done. }
  split; try (intros n; rewrite Ha; auto).
  rewrite filter_app, Q, filter_cons, decide_False by (rewrite Hc; apply is_Some_None).
  by rewrite app_nil_r.
Qed.

Lemma surveyLoop_ok todo arr s r w' :
  ids_ok todo → surveyed arr s → surveyLoop cv todo s w = (Ok r, w') →
  w' = w ∧ surveyed (arr ++ todo) r.
Proof.
  revert arr s. induction todo as [|v todo IH]; intros arr s Hid Hs; cbn [surveyLoop].
  - intros [<- <-]%pair_Ok_eq. by rewrite app_nil_r.
  - rewrite (bind_Ok_run _ _ _ _ _ (get_candidate_run v)).
    assert (ids_ok todo) by (intros v' ? ?; apply Hid; by constructor).
    rewrite cons_middle, app_assoc. destruct (candOf v) as [can|] eqn:Hc; apply IH; try done.
    + apply surveyOne_ok; [done..|]. apply Hid; [by constructor|done].
    + by apply surveyed_skip.
Qed.

Lemma surveyed_empty : surveyed [] emptySurvey.
Proof.
  assert (Hno : ∀ P n, ¬ among [] P n) by (intros P n (? & ? & []%not_elem_of_nil & _)).
  split; [done|..]; intros n; cbn; rewrite ?lookup_empty, ?elem_of_empty, ?elem_of_nil;
    (split; [try (by intros []%is_Some_None); done|by intros ?%Hno]).
Qed.

Lemma verifierLoop_ok arr withdrew shares withdrew' shares' q w' :
  verifierLoop cv arr withdrew shares w = (Ok (withdrew', shares', q), w') →
  w' = w
  ∧ (∀ n, is_Some (withdrew' !! n) ↔ is_Some (withdrew !! n) ∧ n ∉ map NodeId arr)
  ∧ sublist q arr
  ∧ ∀ v, v ∈ q → shares !! NodeId v = None ∧ ∃ can, candOf v = Some can ∧ mustLeave can = false.
Proof.
  revert withdrew shares withdrew' shares' q w'.
  induction arr as [|v arr IH]; intros wd sh wd' sh' q w'; cbn [verifierLoop].
  - intros [[= <- <- <-] <-]%pair_Ok_eq. split; [done|]. split; [|split; [done|]].
    + intros n. cbn. split; [intros ?; split; [done|apply not_elem_of_nil]|by intros []].
    + by intros v ?%not_elem_of_nil.
  - assert (Hdel : ∀ n, is_Some (delete (NodeId v) wd !! n) ∧ n ∉ map NodeId arr
      ↔ is_Some (wd !! n) ∧ n ∉ map NodeId (v :: arr)).
    { intros n. unfold NeedRemoveCans in *. rewrite lookup_delete_is_Some. cbn [map]. rewrite not_elem_of_cons.
      intuition congruence. }
    destruct (sh !! NodeId v) as [x|] eqn:Hsh.
    + intros (-> & Hw & Hq & Hv)%IH. split; [done|]. split; [|split; [by constructor|]].
      * intros n. by rewrite Hw, Hdel.
      * intros v' Hin. destruct (Hv v' Hin) as [Hn ?]. split; [|done].
        apply lookup_insert_None in Hn as [? _]. done.
    + rewrite (bind_Ok_run _ _ _ _ _ (get_candidate_run v)).
      intros ([[wd1 sh1] q1] & w1 & (-> & Hw & Hq & Hv)%IH & [[= -> -> <-] <-]%pair_Ok_eq)
        %bind_Ok_inv.
      split; [done|]. split; [intros n; by rewrite Hw, Hdel|].
      destruct (candOf v) as [can|] eqn:Hc; [|split; [by constructor|done]].
      fold (mustLeave can). destruct (mustLeave can) eqn:Hm; [split; [by constructor|done]|].
      split; [by constructor|]. intros v' [->|Hin]%elem_of_cons; eauto.
Qed.

(** ** Who leaves *)

Lemma foldl_insert_is_Some (withdrew m : NeedRemoveCans) l n :
  is_Some (foldl (λ m n, match withdrew !! n with Some c => <[n := c]> m | None => m end)
             m l !! n)
  ↔ is_Some (m !! n) ∨ n ∈ l ∧ is_Some (withdrew !! n).
Proof.
  unfold NeedRemoveCans in *. revert m. induction l as [|k l IH]; intros m; cbn [foldl].
  - split; [auto|]. intros [?|[?%not_elem_of_nil _]]; done.
  - rewrite IH, elem_of_cons. destruct (withdrew !! k) as [c|] eqn:Hk.
    + rewrite lookup_insert_is_Some'. split; [intuition; subst; eauto|].
      intros [?|[[->|?] ?]]; auto.
    + split; [tauto|]. intros [?|[[->|?] Hs]]; auto. rewrite Hk in Hs. by apply is_Some_None in Hs.
Qed.

Definition leaves (arr verifiers : list Validator) (n : Z) : Prop :=
  (among arr mustLeave n ∨ among arr hasWithdrawn n ∧ n ∉ map NodeId verifiers)
  ∧ IsExistInitialChosenValidators n = false.

Section departures.
Context (arr verifiers : list Validator) (s : Survey) (withdrew : NeedRemoveCans).
Context (Hs : surveyed arr s).
Context (Hw : ∀ n, is_Some (withdrew !! n)
                   ↔ is_Some (withdrewCans s !! n) ∧ n ∉ map NodeId verifiers).

Local Abbreviation wqueue := (filter (λ n, is_Some (withdrew !! n)) (withdrewQueue s)).
Local Abbreviation removes :=
  (filter (λ p, IsExistInitialChosenValidators p.1 = false)
     (foldl (λ m n, match withdrew !! n with Some c => <[n := c]> m | None => m end)
        (removeCans s) wqueue)).
Local Abbreviation invalid :=
  (filter (λ n, IsExistInitialChosenValidators n = false)
     (invalidCan s ∪ list_to_set wqueue)).

Lemma wqueue_spec n :
  n ∈ wqueue ↔ among arr hasWithdrawn n ∧ n ∉ map NodeId verifiers.
Proof using Hs Hw.
  rewrite list_elem_of_filter, Hw, (sy_withdrew _ _ Hs), (sy_wqueue _ _ Hs). tauto.
Qed.

Lemma removes_spec n : is_Some (removes !! n) ↔ leaves arr verifiers n.
Proof using Hs Hw.
  unfold leaves. rewrite <- (sy_removes _ _ Hs), <- wqueue_spec.
  split.
  - intros [c [Hc Hi]%map_lookup_filter_Some]. split; [|done].
    destruct (proj1 (foldl_insert_is_Some withdrew (removeCans s) wqueue n)) as [?|[? _]]; eauto.
  - intros [Hl Hi].
    destruct (proj2 (foldl_insert_is_Some withdrew (removeCans s) wqueue n)) as [c Hc].
    { destruct Hl as [?|Hin]; [by left|right]. split; [done|].
      by apply list_elem_of_filter in Hin as [? _]. }
    exists c. by apply map_lookup_filter_Some.
Qed.

Lemma invalid_spec n : n ∈ invalid ↔ leaves arr verifiers n.
Proof using Hs Hw.
  unfold leaves. rewrite elem_of_filter, elem_of_union, elem_of_list_to_set.
  rewrite (sy_invalid _ _ Hs), wqueue_spec. tauto.
Qed.

(** As many are cut off as have to leave. *)
Lemma departures_counted shares :
  NoDup (map NodeId arr) →
  size invalid
  = length (filter (isRemoved removes) (map (ageValidator shares) (currqueen s))).
Proof using Hs Hw.
  intros Hnd.
  assert (Hq : NoDup (map NodeId (currqueen s))).
  { rewrite (sy_queue _ _ Hs). eapply sublist_NoDup; [exact Hnd|].
    apply fmap_sublist, sublist_filter. }
  assert (Hlen : length (filter (isRemoved removes) (map (ageValidator shares) (currqueen s)))
    = length (filter (λ n, is_Some (removes !! n)) (map NodeId (currqueen s)))).
  { clear. induction (currqueen s) as [|v l IH]; [done|]. cbn [map]. rewrite !filter_cons.
    cbn [NodeId ageValidator]. unfold isRemoved at 1. cbn [NodeId ageValidator].
    repeat case_decide; cbn [length]; rewrite ?IH; try done;
      rewrite bool_decide_spec in *; done. }
  rewrite Hlen, <- (size_list_to_set (C := gset Z)) by (by apply NoDup_filter).
  f_equal. apply set_eq. intros n.
  rewrite invalid_spec, elem_of_list_to_set, list_elem_of_filter, removes_spec.
  split; [|tauto]. intros Hl. split; [done|]. rewrite (sy_queue _ _ Hs).
  assert (Hin : ∃ v can, v ∈ arr ∧ NodeId v = n ∧ candOf v = Some can).
  { destruct Hl as [[(v & can & ? & ? & ? & _)|((v & can & ? & ? & ? & _) & _)] _]; eauto. }
  destruct Hin as (v & can & Hv & <- & Hc). apply list_elem_of_fmap_2.
  apply list_elem_of_filter. split; [rewrite Hc; eauto|done].
Qed.
End departures.
End survey_facts.

(** ** The next round *)

Section next_round.
Context `{Henv : Env, Hlot : LotteryLaws}.

Local Abbreviation max := (Z.to_nat (MaxConsensusVals (Common ec))).

Lemma shuffleQueue_inv loaded remain vrf n next :
  shuffleQueue loaded remain vrf n = Ok next →
  ∃ r, sublist r remain ∧ next ≡ₚ take max (r ++ vrf).
Proof.
  unfold shuffleQueue. destruct (trimLoop _ _ _) as [r|] eqn:Ht; [|done].
  intros Hr%randomOrder_perm. exists r. split; [|done]. by apply trimLoop_spec in Ht as [? _].
Qed.

Lemma remaining_inv removes shares l remain k :
  remainingValidators removes shares k l = Ok remain →
  k = length (filter (isRemoved removes) (map (ageValidator shares) l)) →
  remain ≡ₚ filter (λ v, negb (isRemoved removes v)) (map (ageValidator shares) l).
Proof.
  unfold remainingValidators. destruct (_ <? _)%nat; [done|]. intros [= <-] ->.
  apply CompareForDel_cut.
Qed.

(** The validators drawn are some of those in the draw. *)
Lemma drawn_inv loaded diff nonce version k (w : World) q w' :
  (if (k =? 0)%nat then mret [] else ask (vrfElection loaded diff k nonce version)) w
    = (Ok q, w') →
  w' = w ∧ ∃ l, l ≡ₚ diff ∧ q = take k l.
Proof.
  destruct (Nat.eqb_spec k 0) as [->|].
  - intros [<- <-]%pair_Ok_eq. split; [done|]. by exists diff.
  - unfold ask. intros [Hq <-]%pair_equal_spec. split; [done|]. by eapply vrfElection_perm.
Qed.

Lemma age_ids shares l : map NodeId (map (ageValidator shares) l) = map NodeId l.
Proof. rewrite map_map. done. Qed.

Lemma elem_of_take {A} (x : A) k l : x ∈ take k l → x ∈ l.
Proof. intros Hx. rewrite <- (take_drop k l). apply elem_of_app. by left. Qed.

Lemma NoDup_ids_perm (l l' : list Validator) :
  l ≡ₚ l' → NoDup (map NodeId l') → NoDup (map NodeId l).
Proof. intros Hp. by rewrite Hp. Qed.

Lemma NoDup_ids_sublist (l l' : list Validator) :
  sublist l l' → NoDup (map NodeId l') → NoDup (map NodeId l).
Proof. intros Hs Hn. eapply sublist_NoDup; [exact Hn|]. by apply fmap_sublist. Qed.

(** Remaining and drawn validators are distinct. *)
Lemma next_NoDup remain r vrf diff k l next :
  sublist r remain → next ≡ₚ take max (r ++ vrf) → vrf = take k l → l ≡ₚ diff →
  NoDup (map NodeId remain) → NoDup (map NodeId diff) →
  (∀ n, n ∈ map NodeId remain → n ∉ map NodeId diff) →
  NoDup (map NodeId next).
Proof.
  intros Hr Hn -> Hl Hnr Hnd Hdis. eapply NoDup_ids_perm; [exact Hn|].
  eapply NoDup_ids_sublist; [apply sublist_take|]. rewrite map_app. apply NoDup_app.
  split; [by eapply NoDup_ids_sublist|]. split.
  - intros n (v & -> & Hv)%list_elem_of_fmap (v' & Heq & Hv')%list_elem_of_fmap.
    apply (Hdis (NodeId v)); [apply list_elem_of_fmap_2; by eapply elem_of_sublist|].
    rewrite Heq. apply list_elem_of_fmap_2. rewrite <- Hl. by eapply elem_of_take.
  - eapply NoDup_ids_sublist; [apply sublist_take|]. by eapply NoDup_ids_perm.
Qed.

(** A member of the next round: from the current round or a verifier, and with a
    candidate that need not leave unless it is one of the initial validators. *)
Definition eligible (w : World) (cv : Z) (curr verifiers : list Validator) (v : Validator)
    : Prop :=
  (NodeId v ∈ map NodeId curr ∨ v ∈ verifiers)
  ∧ ∃ can, candOf w v = Some can
    ∧ (chosen v = true
       ∨ mustLeave cv can = false
         ∧ (hasWithdrawn can = true → NodeId v ∈ map NodeId verifiers)).

Lemma stayed_eligible w cv arr verifiers s (withdrew : NeedRemoveCans) shares v :
  surveyed w cv arr s →
  (∀ n, is_Some (withdrew !! n)
        ↔ is_Some (withdrewCans s !! n) ∧ n ∉ map NodeId verifiers) →
  let removes := filter (λ p, IsExistInitialChosenValidators p.1 = false)
    (foldl (λ m n, match withdrew !! n with Some c => <[n := c]> m | None => m end)
       (removeCans s) (filter (λ n, is_Some (withdrew !! n)) (withdrewQueue s))) in
  v ∈ filter (λ v, negb (isRemoved removes v)) (map (ageValidator shares) (currqueen s)) →
  eligible w cv arr verifiers v.
Proof.
  intros Hs Hw removes [Hk Hin]%list_elem_of_filter.
  apply list_elem_of_fmap in Hin as (v0 & -> & Hin).
  rewrite (sy_queue _ _ _ _ Hs) in Hin. apply list_elem_of_filter in Hin as [[can Hc] Hin].
  split; [left; change (NodeId v0 ∈ map NodeId arr); by apply list_elem_of_fmap_2|].
  exists can. split; [done|]. unfold chosen. cbn [NodeId ageValidator].
  destruct (IsExistInitialChosenValidators (NodeId v0)) eqn:Hi; [by left|right].
  assert (Hno : ¬ leaves w cv arr verifiers (NodeId v0)).
  { rewrite <- (removes_spec w cv arr verifiers s withdrew Hs Hw). intros Hl.
    unfold isRemoved in Hk. cbn [NodeId ageValidator] in Hk.
    rewrite bool_decide_eq_true_2 in Hk by exact Hl. done. }
  unfold leaves in Hno. split.
  - apply not_true_is_false. intros Hm. apply Hno. split; [left; by exists v0, can|done].
  - intros Hh. destruct (decide (NodeId v0 ∈ map NodeId verifiers)) as [|Hn]; [done|].
    exfalso. apply Hno. split; [right; split; [by exists v0, can|done]|done].
Qed.

(** ** Writing the next round *)

Lemma setRound_stores arr w u w' :
  setRoundValListAndIndex arr w = (Ok u, w') →
  roundValArrs (snapDB w') !! (vaStart arr, vaEnd arr) = Some (vaArr arr).
Proof.
  unfold setRoundValListAndIndex. intros (queue & w1 & _ & Hrun)%bind_Ok_inv.
  cbv zeta in Hrun. destruct (ConstantAppend _ _ _) as [shabby queue'].
  apply bind_Ok_inv in Hrun as (u1 & w2 & _ & Hrun).
  apply bind_Ok_inv in Hrun as (u2 & w3 & _ & Hrun).
  unfold SetRoundValList in Hrun. destruct (validators_encodable _); [|done].
  apply pair_Ok_eq in Hrun as [_ <-]. apply lookup_insert_eq.
Qed.

Lemma cleanLowRatio_frame l w u w' :
  for_each cleanLowRatio l w = (Ok u, w') →
  roundValArrs (snapDB w') = roundValArrs (snapDB w)
  ∧ roundValAddrs (snapDB w') = roundValAddrs (snapDB w).
Proof.
  revert w. induction l as [|can l IH]; intros w; cbn [for_each].
  - by intros [_ <-]%pair_Ok_eq.
  - intros (u1 & w1 & H1 & [-> ->]%IH)%bind_Ok_inv.
    unfold cleanLowRatio, SetCandidateStore, SetCanBaseStore, SetCanMutableStore in H1.
    apply bind_Ok_inv in H1 as (u2 & w2 & [_ <-]%pair_Ok_eq & H1).
    destruct (mutable_encodable _); [|done]. by apply pair_Ok_eq in H1 as [_ <-].
Qed.

Lemma cleanRounds_frame fuel i b nb first w u w' :
  cleanRounds fuel i b nb first w = (Ok u, w') →
  roundValArrs (snapDB w') = roundValArrs (snapDB w).
Proof.
  revert i first w. induction fuel as [|fuel IH]; intros i first w; cbn [cleanRounds].
  - by intros [_ <-]%pair_Ok_eq.
  - destruct (b <? i); [|by intros [_ <-]%pair_Ok_eq].
    intros (u1 & w1 & [_ <-]%pair_Ok_eq & (u2 & w2 & H2 & ->%IH)%bind_Ok_inv)%bind_Ok_inv.
    by destruct first; apply pair_Ok_eq in H2 as [_ <-].
Qed.

Lemma storeRoundAddrs_frame n start arr w u w' :
  storeRoundValidatorAddrs n start arr w = (Ok u, w') →
  roundValArrs (snapDB w') = roundValArrs (snapDB w)
  ∧ roundValAddrs (snapDB w') !! CalculateRound ec start = Some (map NodeAddress arr).
Proof.
  unfold storeRoundValidatorAddrs. cbv zeta.
  intros (age & w1 & [_ <-]%pair_equal_spec & (u1 & w2 & H1 & [_ <-]%pair_Ok_eq)%bind_Ok_inv)
    %bind_Ok_inv.
  split; [|apply lookup_insert_eq]. cbn.
  destruct (_ <? _); [|by apply pair_Ok_eq in H1 as [_ <-]].
  apply bind_Ok_inv in H1 as (o & w3 & [-> _]%get_opt_inv & H1); [|apply db_get_state].
  by apply cleanRounds_frame in H1.
Qed.

(** ** Elections are safe *)

(** Every node id of the list has an address. *)
Definition known (arr : list Validator) : Prop :=
  Forall (λ v, ∃ a, NodeId2Addr (NodeId v) = Ok a) arr.

Lemma known_ids_ok w arr : known arr → no_collision → staking_ok (snapDB w) → ids_ok w arr.
Proof.
  intros Hk Hinj (_ & Hb & _) v can Hin Hc. unfold candOf in Hc.
  unfold known in Hk. rewrite Forall_forall in Hk. destruct (Hk v Hin) as [a Ha].
  destruct (canBases (snapDB w) !! _) as [b|] eqn:Hl; [|done].
  destruct (canMutables _ !! _); [|done]. injection Hc as <-. cbn [canBase].
  unfold slashAddr in Hl. rewrite Ha in Hl. by eapply Hinj; [apply (Hb _ _ Hl)|].
Qed.

Lemma or_else_run {A} (m : M World A) e w a w' :
  m w = (Ok a, w') → or_else m e w = (Ok a, w').
Proof. unfold or_else, try. run_eval. by intros ->. Qed.

(** Who may be in the next round, from the lists the election computes. *)
Lemma next_eligible w cv arr verifiers s (withdrew : NeedRemoveCans) shares w1
    diff remain r vrf k l next :
  surveyed w cv arr s → NoDup (map NodeId arr) → NoDup (map NodeId verifiers) →
  verifierLoop cv verifiers (withdrewCans s) (currMap s) w = (Ok (withdrew, shares, diff), w1) →
  let removes := filter (λ p, IsExistInitialChosenValidators p.1 = false)
    (foldl (λ m n, match withdrew !! n with Some c => <[n := c]> m | None => m end)
       (removeCans s) (filter (λ n, is_Some (withdrew !! n)) (withdrewQueue s))) in
  remain ≡ₚ filter (λ v, negb (isRemoved removes v)) (map (ageValidator shares) (currqueen s)) →
  sublist r remain → next ≡ₚ take max (r ++ vrf) → vrf = take k l → l ≡ₚ diff →
  NoDup (map NodeId next) ∧ Forall (eligible w cv arr verifiers) next.
Proof.
  intros Hs Hnd1 Hnd2 Hv removes Hrem Hr Hnext Hvrf Hl.
  apply verifierLoop_ok in Hv as (_ & Hw & Hsub & Hdiff).
  assert (Hids : ∀ n, n ∈ map NodeId remain → n ∈ map NodeId (currqueen s)).
  { intros n. rewrite Hrem. intros (v & -> & [_ Hin]%list_elem_of_filter)%list_elem_of_fmap.
    apply list_elem_of_fmap in Hin as (v0 & -> & Hin).
    change (NodeId v0 ∈ map NodeId (currqueen s)). by apply list_elem_of_fmap_2. }
  assert (Hq : NoDup (map NodeId (currqueen s))).
  { rewrite (sy_queue _ _ _ _ Hs). eapply NoDup_ids_sublist; [apply sublist_filter|done]. }
  split.
  - eapply next_NoDup; [exact Hr|exact Hnext|exact Hvrf|exact Hl|..].
    + eapply NoDup_ids_perm; [exact Hrem|]. eapply NoDup_ids_sublist; [apply sublist_filter|].
      by rewrite age_ids.
    + by eapply NoDup_ids_sublist.
    + intros n Hn%Hids (v & -> & Hin)%list_elem_of_fmap. destruct (Hdiff v Hin) as [Hno _].
      apply list_elem_of_fmap in Hn as (v0 & Heq & Hin0).
      rewrite (sy_queue _ _ _ _ Hs) in Hin0. apply list_elem_of_filter in Hin0 as [[can Hc] Hin0].
      destruct (proj2 (sy_map _ _ _ _ Hs (NodeId v))) as [x Hx]; [|congruence].
      exists v0, can. by rewrite Heq.
  - apply Forall_forall. intros v Hin. rewrite Hnext in Hin.
    apply elem_of_take, elem_of_app in Hin as [Hin|Hin].
    + apply (stayed_eligible w cv arr verifiers s withdrew shares v Hs Hw).
      fold removes. rewrite <- Hrem. by eapply elem_of_sublist.
    + rewrite Hvrf in Hin. apply elem_of_take in Hin. rewrite Hl in Hin.
      destruct (Hdiff v Hin) as (_ & can & Hc & Hm).
      assert (Hver : v ∈ verifiers) by by eapply elem_of_sublist.
      split; [by right|]. exists can. split; [done|]. right. split; [done|].
      intros _. by apply list_elem_of_fmap_2.
Qed.

(** C13: An election that succeeds stores validators for the next round that are
    distinct, at least one and at most [MaxConsensusVals]; each of them comes from
    the current round or from the verifiers of the epoch, and its candidate is not
    slashed, has a version that is high enough, and has not withdrawn unless it is
    still a verifier; only the initial validators of the network are exempt.  The
    addresses that evidence is checked against are stored for the new round. *)
Theorem Election_safe loaded nonce blockNumber w u w' verifiers curr :
  Election loaded nonce blockNumber w = (Ok u, w') →
  getVerifierList blockNumber w = (Ok verifiers, w) →
  getCurrValList blockNumber w = (Ok curr, w) →
  NoDup (map NodeId (vaArr curr)) → NoDup (map NodeId (vaArr verifiers)) →
  known (vaArr curr) → no_collision → staking_ok (snapDB w) →
  let start := u64 (vaEnd curr + 1) in
  ∃ next,
    roundValArrs (snapDB w') !! (start, u64 (vaEnd curr + ConsensusSize ec)) = Some next
    ∧ roundValAddrs (snapDB w') !! CalculateRound ec start = Some (map NodeAddress next)
    ∧ (0 < length next <= max)%nat ∧ NoDup (map NodeId next)
    ∧ Forall (eligible w (CalcVersion GetVersionForStaking) (vaArr curr) (vaArr verifiers))
        next.
Proof.
  intros Hrun Hver Hcur Hnd1 Hnd2 Hk Hinj Hok start. unfold Election in Hrun.
  set (cv := CalcVersion GetVersionForStaking) in *.
  rewrite (bind_Ok_run _ _ _ _ _ (or_else_run _ _ _ _ _ Hver)) in Hrun.
  rewrite (bind_Ok_run _ _ _ _ _ (or_else_run _ _ _ _ _ Hcur)) in Hrun.
  destruct (negb _); [done|]. cbv zeta in Hrun. destruct (_ =? 0); [done|].
  apply bind_Ok_inv in Hrun as (s & w1 & Hs & Hrun).
  apply (surveyLoop_ok w cv _ [] emptySurvey) in Hs as [-> Hs];
    [|by apply known_ids_ok|apply surveyed_empty]. cbn [app] in Hs.
  apply bind_Ok_inv in Hrun as ([[withdrew shares] diff] & w1 & Hv & Hrun).
  pose proof Hv as Hv'. apply verifierLoop_ok in Hv' as (-> & Hw & _).
  apply bind_Ok_inv in Hrun as (vrf & w1 & (-> & l & Hl & Hvrf)%drawn_inv & Hrun).
  apply bind_Ok_inv in Hrun as (remain & w1 & [Hrem <-]%pair_equal_spec & Hrun).
  apply remaining_inv in Hrem; [|by eapply departures_counted].
  apply bind_Ok_inv in Hrun as (next & w1 & [Hnext <-]%pair_equal_spec & Hrun).
  apply shuffleQueue_inv in Hnext as (r & Hr & Hnext).
  destruct (next_eligible w cv _ _ s withdrew shares _ diff remain r vrf _ l next
    Hs Hnd1 Hnd2 Hv Hrem Hr Hnext Hvrf Hl) as [Hnd Hel].
  assert (Hlen : (length next <= max)%nat) by (rewrite Hnext, length_take; lia).
  destruct next as [|v0 next0]; [done|]. set (next := v0 :: next0) in *.
  apply bind_Ok_inv in Hrun as (u1 & w1 & H1%setRound_stores & Hrun).
  apply bind_Ok_inv in Hrun as (u2 & w2 & [E1 _]%cleanLowRatio_frame & Hrun).
  apply storeRoundAddrs_frame in Hrun as [E2 E3].
  exists next. split; [by rewrite E2, E1|]. split; [done|]. split; [cbn in *; lia|done].
Qed.
End next_round.

(** ** Elections move no coins *)

Section elections_keep.
Context `{Henv : Env, Hlot : Lottery}.

Lemma get_db_quiet {A} (f : SnapshotDB → option A) : quiet (get_opt (db_get f)).
Proof. apply get_opt_quiet, db_get_state. Qed.

#[local] Hint Resolve get_db_quiet : quiet.

Lemma setVerifierListAndIndex_quiet arr : quiet (setVerifierListAndIndex arr).
Proof.
  unfold setVerifierListAndIndex, GetEpochValIndex, SetEpochValIndex.
  unfold DelEpochValList, SetEpochValList. quiet.
Qed.

Lemma setRoundValListAndIndex_quiet arr : quiet (setRoundValListAndIndex arr).
Proof.
  unfold setRoundValListAndIndex, GetRoundValIndex, SetRoundValIndex.
  unfold DelRoundValList, SetRoundValList. quiet.
Qed.

Lemma electLoop_quiet version powers : quiet (electLoop version powers).
Proof.
  induction powers as [|[key addr] powers IH]; cbn [electLoop]; [quiet|].
  unfold GetCanBaseStore, GetCanMutableStore. quiet.
Qed.

Lemma getVeriferIndex_quiet n : quiet (getVeriferIndex n).
Proof. unfold getVeriferIndex, GetEpochValIndex, orNoExist. quiet. Qed.

#[local] Hint Resolve setVerifierListAndIndex_quiet setRoundValListAndIndex_quiet
  electLoop_quiet getVeriferIndex_quiet : quiet.

Lemma ElectNextVerifierList_quiet n : quiet (ElectNextVerifierList n).
Proof. unfold ElectNextVerifierList. quiet. Qed.

Lemma cleanRounds_quiet fuel i b nb first : quiet (cleanRounds fuel i b nb first).
Proof.
  revert i first. induction fuel as [|fuel IH]; intros i first; cbn [cleanRounds];
    unfold DelRoundValidatorAddrs, SetRoundAddrBoundary; quiet.
Qed.

#[local] Hint Resolve cleanRounds_quiet : quiet.

Lemma storeRoundValidatorAddrs_quiet n start arr : quiet (storeRoundValidatorAddrs n start arr).
Proof.
  unfold storeRoundValidatorAddrs, StoreRoundValidatorAddrs, GetRoundAddrBoundary. quiet.
Qed.

(** A candidate as it is stored, up to its status. *)
Definition stored (w : World) (can : Candidate) : Prop :=
  let a := slashAddr (cbNodeId (canBase can)) in
  base_ok a (canBase can)
  ∧ ∃ c, canMutables (snapDB w) !! a = Some c
    ∧ calcCandidateTotalAmount c = calcCandidateTotalAmount (canMutable can).

Lemma candOf_stored w v can : staking_ok (snapDB w) → candOf w v = Some can → stored w can.
Proof.
  intros (_ & Hb & _). unfold candOf. destruct (canBases _ !! _) as [b|] eqn:Hl; [|done].
  destruct (canMutables _ !! _) as [c|] eqn:Hc; [|done]. intros [= <-].
  pose proof (Hb _ _ Hl) as Hbase. pose proof Hbase as [_ Ha]. unfold stored. cbn [canBase].
  assert (slashAddr (cbNodeId b) = slashAddr (NodeId v)) as ->
    by (unfold slashAddr at 1; by rewrite Ha).
  split; [done|]. by exists c.
Qed.

Lemma surveyLoop_stored w cv todo s r w' :
  staking_ok (snapDB w) → Forall (stored w) (lowRatioValid s) →
  surveyLoop cv todo s w = (Ok r, w') → w' = w ∧ Forall (stored w) (lowRatioValid r).
Proof.
  intros Hok. revert s. induction todo as [|v todo IH]; intros s Hs; cbn [surveyLoop].
  - by intros [<- <-]%pair_Ok_eq.
  - rewrite (bind_Ok_run _ _ _ _ _ (get_candidate_run w v)).
    destruct (candOf w v) as [can|] eqn:Hc; apply IH; [|done]. cbn [surveyOne lowRatioValid].
    destruct (_ && _); [|done]. apply Forall_app. split; [done|]. apply Forall_singleton.
    by eapply candOf_stored.
Qed.

Lemma cleanLowRatio_keeps can w u w' :
  stored w can → cleanLowRatio can w = (Ok u, w') →
  keeps w w' ∧ ∀ can', stored w can' → stored w' can'.
Proof.
  intros (Hb & c & Hc & Ht) Hrun. split.
  - eapply (SetCandidateStore_keeps 0 w w); [apply moved_refl|exact Hrun|exact Hb|].
    unfold at_key. rewrite Hc. cbn [from_option]. rewrite Ht.
    unfold calcCandidateTotalAmount. cbn. lia.
  - revert Hrun. unfold cleanLowRatio, SetCandidateStore, SetCanBaseStore, SetCanMutableStore.
    intros (u1 & w1 & [_ <-]%pair_Ok_eq & Hrun)%bind_Ok_inv.
    destruct (mutable_encodable _); [|done]. apply pair_Ok_eq in Hrun as [_ <-].
    intros can' (Hb' & c' & Hc' & Ht'). split; [done|]. cbn [snapDB set_canMutables canMutables].
    set (a := slashAddr (cbNodeId (canBase can))) in *.
    destruct (decide (a = slashAddr (cbNodeId (canBase can')))) as [Heq|Hne].
    + rewrite <- Heq in *. eexists. split; [apply lookup_insert_eq|].
      assert (c' = c) as -> by congruence. cbn. unfold calcCandidateTotalAmount in *. cbn. lia.
    + exists c'. split; [|done]. cbn. by rewrite lookup_insert_ne.
Qed.

Lemma cleanLowRatios_keeps l w u w' :
  Forall (stored w) l → for_each cleanLowRatio l w = (Ok u, w') → keeps w w'.
Proof.
  revert w. induction l as [|can l IH]; intros w Hl; cbn [for_each].
  - by intros [_ <-]%pair_Ok_eq.
  - intros (u1 & w1 & H1 & H2)%bind_Ok_inv. apply Forall_cons in Hl as [Hcan Hl].
    destruct (cleanLowRatio_keeps _ _ _ _ Hcan H1) as [Hk Hst]. transitivity w1; [done|].
    eapply IH, H2. by eapply Forall_impl.
Qed.

Lemma or_else_quiet {A} (m : M World A) e : quiet m → quiet (or_else m e).
Proof.
  intros Hm w a w'. unfold or_else, try. run_eval.
  destruct (m w) as [[x|e'|] w1] eqn:Hr; [|done|done]. intros [= -> ->]. by apply (Hm w a).
Qed.

Lemma getCurrValList_quiet n : quiet (getCurrValList n).
Proof.
  unfold getCurrValList, getCurrValIndex, orNoExist, loadArray, GetRoundValIndex. quiet;
    apply get_opt_quiet; intros ?; apply db_get_state.
Qed.

#[local] Hint Resolve getCurrValList_quiet getVerifierList_quiet or_else_quiet
  storeRoundValidatorAddrs_quiet ElectNextVerifierList_quiet : quiet.

Lemma Election_keeps loaded nonce n w u w' :
  Election loaded nonce n w = (Ok u, w') → staking_ok (snapDB w) → keeps w w'.
Proof.
  unfold Election. intros Hrun Hok.
  apply bind_Ok_inv in Hrun as (verifiers & w1 & H1 & Hrun).
  apply bind_Ok_inv in Hrun as (curr & w2 & H2 & Hrun).
  assert (K1 : keeps w w1) by (eapply quiet_keeps, H1; quiet).
  assert (K2 : keeps w1 w2) by (eapply quiet_keeps, H2; quiet).
  assert (Hok2 : staking_ok (snapDB w2)) by apply K2, K1, Hok.
  destruct (negb _); [done|]. cbv zeta in Hrun. destruct (_ =? 0); [done|].
  apply bind_Ok_inv in Hrun as (s & w3 & H3 & Hrun).
  apply surveyLoop_stored in H3 as [-> Hs]; [|done|by apply Forall_nil].
  apply bind_Ok_inv in Hrun as ([[withdrew shares] diff] & w3 & [-> _]%verifierLoop_ok & Hrun).
  apply bind_Ok_inv in Hrun as (vrf & w3 & H4 & Hrun).
  assert (w3 = w2) as ->
    by (destruct (_ =? 0)%nat; [by apply pair_Ok_eq in H4 as [_ <-]|by injection H4]).
  apply bind_Ok_inv in Hrun as (remain & w3 & [_ <-]%pair_equal_spec & Hrun).
  apply bind_Ok_inv in Hrun as (next & w3 & [_ <-]%pair_equal_spec & Hrun).
  destruct next as [|v next]; [done|].
  apply bind_Ok_inv in Hrun as (u1 & w3 & H5 & Hrun).
  apply bind_Ok_inv in Hrun as (u2 & w4 & H6 & H7).
  pose proof (setRoundValListAndIndex_quiet _ _ _ _ H5) as M5.
  transitivity w2; [by transitivity w1|]. transitivity w3; [by apply keeps_quiet|].
  transitivity w4; [|by eapply quiet_keeps, H7; quiet].
  eapply cleanLowRatios_keeps, H6. eapply Forall_impl; [exact Hs|].
  intros can. unfold stored. by rewrite (mv_mutables _ _ _ M5).
Qed.

Lemma StakingEndBlock_keeps loaded nonce n w u w' :
  StakingEndBlock loaded nonce n w = (Ok u, w') → staking_ok (snapDB w) → keeps w w'.
Proof.
  unfold StakingEndBlock. intros (u1 & w1 & H1 & H2)%bind_Ok_inv Hok.
  assert (K1 : keeps w w1).
  { destruct (IsEndOfEpoch _ _); [|by apply pair_Ok_eq in H1 as [_ <-]].
    apply bind_Ok_inv in H1 as (u2 & w2 & H1 & H3). transitivity w2.
    - by eapply HandleUnCandidateItem_keeps.
    - eapply quiet_keeps, H3. quiet. }
  destruct (IsElection _ _); [|by apply pair_Ok_eq in H2 as [_ <-]].
  transitivity w1; [done|]. eapply Election_keeps; [exact H2|]. apply K1, Hok.
Qed.
End elections_keep.

(** *** A concrete election *)

Fixpoint insertBy {A} (less : A → A → bool) (x : A) (l : list A) : list A :=
  match l with
  | [] => [x]
  | y :: rest => if less y x then y :: insertBy less x rest else x :: l
  end.

Definition sortBy {A} (less : A → A → bool) (l : list A) : list A :=
  foldr (insertBy less) [] l.

Definition demoLottery : Lottery :=
  {| lottery_math := demoMath; ProofToHash := id; shuffleIndex := λ _ _ _, 0%nat; goSort := @sortBy |}.

Lemma insertBy_perm {A} (less : A → A → bool) x l : insertBy less x l ≡ₚ x :: l.
Proof.
  induction l as [|y l IH]; [done|]. cbn. destruct (less y x); [|done].
  rewrite IH. apply Permutation_swap.
Qed.

Lemma demoLaws : @LotteryLaws demoLottery.
Proof.
  split. intros A less l. cbn. unfold sortBy. induction l as [|x l IH]; [done|]. cbn.
  by rewrite insertBy_perm, IH.
Defined.

Definition nodeBase (n : Z) : CandidateBase :=
  {| cbNodeId := n; cbBlsPubKey := n; StakingAddress := 1001; BenefitAddress := 1002;
     cbStakingTxIndex := 0; cbProgramVersion := 65536; cbStakingBlockNum := 1;
     cbDescription := demoDescription |}.

(** Node 8 was reported for double signing. *)
Definition electionWorld : World :=
  {| stateDB := emptyState;
     snapDB := set_roundVals (set_epochVals (set_canMutables (set_canBases emptyDB
         (<[7 := nodeBase 7]> (<[8 := nodeBase 8]> (<[9 := nodeBase 9]> ∅))))
         (<[7 := demoMutable]> (<[8 := AppendStatus (Z.lor Invalided DuplicateSign) demoMutable]>
           (<[9 := demoMutable]> ∅))))
       (Some [{| Start := 1; End_ := 240 |}])
       (<[(1, 240) := map demoValidator [7; 9]]> ∅))
     (Some [{| Start := 1; End_ := 40 |}])
     (<[(1, 40) := map demoValidator [7; 8]]> ∅) |}.

Definition demoNonces : outcome (list (list Z)) := Ok (replicate 30 (replicate 32 5)).

Lemma electionWorld_ok : @staking_ok demoEnv (snapDB electionWorld).
Proof.
  split; [split|split].
  - by repeat (apply map_Forall_insert_2; [done|]).
  - by apply map_Forall_empty.
  - by repeat (apply map_Forall_insert_2; [done|]).
  - intros a. cbn. rewrite !lookup_insert_is_Some', !lookup_empty.
    intros [?|[?|[?|[]%is_Some_None]]]; tauto.
Defined.

(** Node 7 stays, node 8 leaves and node 9 is drawn. *)
Lemma Election_safe_witness :
  ∃ next, roundValArrs (snapDB (@Election demoEnv demoLottery demoNonces [1; 2; 3] 20
      electionWorld).2) !! (41, 80) = Some next
    ∧ map NodeId next = [7; 9] ∧ (length next <= 4)%nat.
Proof.
  destruct (@Election_safe demoEnv demoLottery demoLaws demoNonces [1; 2; 3] 20 electionWorld tt
    (@Election demoEnv demoLottery demoNonces [1; 2; 3] 20 electionWorld).2
    {| vaStart := 1; vaEnd := 240; vaArr := map demoValidator [7; 9] |}
    {| vaStart := 1; vaEnd := 40; vaArr := map demoValidator [7; 8] |})
    as (next & Hn & _ & [_ Hlen] & _);
    [vm_compute; reflexivity..| | | |apply demo_no_collision|apply electionWorld_ok|].
  { by apply (bool_decide_unpack _). }
  { by apply (bool_decide_unpack _). }
  { repeat constructor; by eexists. }
  exists next. split; [exact Hn|]. split; [|exact Hlen].
  vm_compute in Hn. injection Hn as <-. reflexivity.
Defined.
