(* ===== verification/VerifierProofs.v ===== *)
(** * Who verifies the next epoch

    The theorem about [ElectNextVerifierList] (Election): from a power index that
    agrees with the candidates, the verifiers are those of the highest priority. *)

From S2P Require Import Prelude Xcom Xutil StateDB Restricting RestrictingProofs Keys.
From S2P Require Import StakingTypes StakingDB RewardPer ValidatorLists Staking.
From S2P Require Import StakingSlash StakingProofs StakingSlashProofs Election ElectionProofs.

(** ** Byte order *)

Lemma lex_antisym l k : lex k l = CompOpp (lex l k).
Proof.
  revert k. induction l as [|a l IH]; intros [|b k]; try done. cbn.
  rewrite (Z.compare_antisym a b). destruct (a ?= b); [apply IH|done..].
Qed.

Lemma lex_trans l k m : lex l k ≠ Gt → lex k m ≠ Gt → lex l m ≠ Gt.
Proof.
  revert k m. induction l as [|a l IH]; intros [|b k] [|c m]; cbn; try done.
  destruct (Z.compare_spec a b), (Z.compare_spec b c), (Z.compare_spec a c); try done; try lia.
  apply IH.
Qed.

#[export] Instance power_le_trans : Transitive power_le.
Proof. intros p q r. apply lex_trans. Qed.

#[export] Instance power_le_total : Total power_le.
Proof.
  intros p q. unfold power_le. rewrite (lex_antisym (powerKeyBytes p.1)).
  destruct (lex _ _); cbn; auto.
Qed.

(** ** The index *)

Section index.
Context `{Henv : Env} (d : SnapshotDB) (cv : Z).

(** An entry of the index stands for a stored candidate, with its version, shares
    and staking block. *)
Definition entry_ok (key : PowerKey) (addr : Z) : Prop :=
  ∃ b c, canBases d !! addr = Some b ∧ canMutables d !! addr = Some c
    ∧ key = powerKeyOf {| canBase := b; canMutable := c |}
    ∧ power_wf (cbProgramVersion b) (cmShares c) (cbStakingBlockNum b) (cbStakingTxIndex b)
        (cbNodeId b).

Definition index_ok : Prop := map_Forall entry_ok (canPowers d).

(** The validator an entry gives, if its version is high enough. *)
Definition voter (p : PowerKey * Z) : option Validator :=
  match canBases d !! p.2, canMutables d !! p.2 with
  | Some b, Some c =>
      if CalcVersion (cbProgramVersion b) <? cv then None else Some (validatorOf p.2 b c)
  | _, _ => None
  end.

Lemma electLoop_run powers w :
  snapDB w = d → Forall (λ p, entry_ok p.1 p.2) powers →
  electLoop cv powers w = (Ok (omap voter powers), w).
Proof.
  intros Hd. induction 1 as [|[key addr] powers (b & c & Hb & Hc & _) _ IH]; [done|].
  cbn [electLoop fst snd] in *. unfold GetCanBaseStore, GetCanMutableStore.
  unfold voter. cbn [omap list_omap snd]. rewrite Hb, Hc.
  unfold get_opt, try, db_get. run_eval. rewrite Hd, Hb. run_eval.
  destruct (_ <? cv); [exact IH|]. run_eval. rewrite Hd, Hc. run_eval.
  rewrite IH. done.
Qed.

Lemma entry_key_inj key key' addr : entry_ok key addr → entry_ok key' addr → key = key'.
Proof. intros (b & c & Hb & Hc & -> & _) (b' & c' & Hb' & Hc' & -> & _). congruence. Qed.

Lemma voter_inv p v :
  voter p = Some v →
  ∃ b c, canBases d !! p.2 = Some b ∧ canMutables d !! p.2 = Some c
    ∧ v = validatorOf p.2 b c ∧ cv <= CalcVersion (cbProgramVersion b).
Proof.
  unfold voter. destruct (canBases d !! _) as [b|]; [|done].
  destruct (canMutables d !! _) as [c|]; [|done].
  destruct (Z.ltb_spec (CalcVersion (cbProgramVersion b)) cv); [done|]. intros [= <-]. eauto 6.
Qed.
End index.

(** ** Priority *)

Definition priority (v v' : Validator) : comparison :=
  then_by (CalcVersion (ProgramVersion v') ?= CalcVersion (ProgramVersion v))
    (then_by (Shares v' ?= Shares v)
      (then_by (StakingBlockNum v ?= StakingBlockNum v')
        (then_by (StakingTxIndex v ?= StakingTxIndex v') (NodeId v ?= NodeId v')))).

Lemma CalcVersion_idem v : 0 <= v < 2 ^ 31 → CalcVersion (CalcVersion v) = CalcVersion v.
Proof.
  intros Hv. pose proof (CalcVersion_spec v Hv) as [E ?].
  destruct (CalcVersion_spec (CalcVersion v)) as [-> _]; [lia|].
  rewrite E, Zminus_mod_idemp_r, Z.sub_diag, Z.mod_0_l by lia. lia.
Qed.

Lemma power_le_priority d key addr key' addr' b c b' c' :
  entry_ok d key addr → entry_ok d key' addr' →
  canBases d !! addr = Some b → canMutables d !! addr = Some c →
  canBases d !! addr' = Some b' → canMutables d !! addr' = Some c' →
  power_le (key, addr) (key', addr')
  ↔ priority (validatorOf addr b c) (validatorOf addr' b' c') ≠ Gt.
Proof.
  intros (b1 & c1 & Hb1 & Hc1 & -> & W) (b2 & c2 & Hb2 & Hc2 & -> & W') Hb Hc Hb' Hc'.
  assert (b1 = b) as -> by congruence. assert (c1 = c) as -> by congruence.
  assert (b2 = b') as -> by congruence. assert (c2 = c') as -> by congruence.
  unfold power_le, powerKeyBytes, powerKeyOf, priority. cbn [fst canBase canMutable validatorOf
    ProgramVersion Shares StakingBlockNum StakingTxIndex NodeId].
  assert (Hw : ∀ v s n t i, power_wf v s n t i → power_wf (CalcVersion v) s n t i).
  { intros v s n t i [Hv ? ? ? ?]. pose proof (CalcVersion_spec v Hv). split; [lia|done..]. }
  rewrite TallyPowerKey_lex by (by apply Hw).
  rewrite !CalcVersion_idem by apply W || apply W'. done.
Qed.

(** ** The verifiers *)

Section verifiers.
Context `{Henv : Env} (d : SnapshotDB) (cv : Z) (Hidx : index_ok d).

Local Abbreviation entries := (merge_sort power_le (map_to_list (canPowers d))).

Lemma entries_spec key addr : (key, addr) ∈ entries ↔ canPowers d !! key = Some addr.
Proof. by rewrite merge_sort_Permutation, elem_of_map_to_list. Qed.

Lemma entries_ok : Forall (λ p, entry_ok d p.1 p.2) entries.
Proof using Hidx.
  apply Forall_forall. intros [key addr] Hin%entries_spec. by apply Hidx.
Qed.

Lemma entries_sorted : StronglySorted power_le entries.
Proof. apply StronglySorted_merge_sort; apply _. Qed.

Lemma entries_addrs : NoDup (map snd entries).
Proof using Hidx.
  apply NoDup_fmap_2_strong.
  - intros [k a] [k' a'] H1%entries_spec H2%entries_spec. cbn. intros <-. f_equal.
    eapply entry_key_inj; by apply Hidx.
  - rewrite merge_sort_Permutation. apply NoDup_map_to_list.
Qed.

Lemma voters_addrs l : sublist (map NodeAddress (omap (voter d cv) l)) (map snd l).
Proof.
  induction l as [|p l IH]; [done|]. cbn. destruct (voter d cv p) as [v|] eqn:Hv.
  - apply voter_inv in Hv as (b & c & _ & _ & -> & _). by constructor.
  - by constructor.
Qed.

Lemma voter_some key addr b c :
  canBases d !! addr = Some b → canMutables d !! addr = Some c →
  cv <= CalcVersion (cbProgramVersion b) →
  voter d cv (key, addr) = Some (validatorOf addr b c).
Proof.
  intros Hb Hc Hv. unfold voter. cbn. rewrite Hb, Hc.
  by rewrite (proj2 (Z.ltb_ge _ _)) by done.
Qed.

Lemma priority_version v v' :
  priority v v' ≠ Gt → CalcVersion (ProgramVersion v') <= CalcVersion (ProgramVersion v).
Proof.
  unfold priority, then_by. by destruct (Z.compare_spec (CalcVersion (ProgramVersion v'))
    (CalcVersion (ProgramVersion v))); try lia.
Qed.

Lemma outranked k key addr b c p :
  (key, addr) ∈ drop k entries → p ∈ take k entries →
  canBases d !! addr = Some b → canMutables d !! addr = Some c →
  cv <= CalcVersion (cbProgramVersion b) →
  ∃ v, voter d cv p = Some v ∧ priority v (validatorOf addr b c) ≠ Gt.
Proof using Hidx.
  intros Hent Hp Hb Hc Hv. destruct p as [key' addr'].
  assert (Hle : power_le (key', addr') (key, addr)).
  { pose proof entries_sorted as Hs. rewrite <- (take_drop k entries) in Hs.
    by eapply StronglySorted_app_1_elem_of. }
  pose proof entries_ok as He. rewrite Forall_forall in He.
  assert (Hok : entry_ok d key addr)
    by (apply (He (key, addr)); rewrite <- (take_drop k entries), elem_of_app; by right).
  destruct (He (key', addr') (elem_of_take _ _ _ Hp)) as (b' & c' & Hb' & Hc' & Hkey & W).
  apply (power_le_priority d key' addr' key addr b' c' b c) in Hle;
    [|by exists b', c'|done..].
  exists (validatorOf addr' b' c'). split; [|done]. apply voter_some; [done..|].
  apply priority_version in Hle. cbn in Hle. lia.
Qed.

(** An eligible candidate that is not chosen comes after everyone who is, and
    nobody's place is left empty. *)
Lemma unchosen k key addr b c :
  canPowers d !! key = Some addr →
  canBases d !! addr = Some b → canMutables d !! addr = Some c →
  cv <= CalcVersion (cbProgramVersion b) →
  let queue := omap (voter d cv) (take k entries) in
  addr ∉ map NodeAddress queue →
  length queue = k ∧ Forall (λ v, priority v (validatorOf addr b c) ≠ Gt) queue.
Proof using Hidx.
  intros Hin Hb Hc Hv queue Hno. pose proof (proj2 (entries_spec _ _) Hin) as Hent.
  rewrite <- (take_drop k entries), elem_of_app in Hent. destruct Hent as [Hent|Hent].
  { exfalso. apply Hno. change addr with (NodeAddress (validatorOf addr b c)).
    apply list_elem_of_fmap_2, list_elem_of_omap. exists (key, addr).
    split; [done|]. by apply voter_some. }
  split.
  - assert (Hk : length (take k entries) = k).
    { rewrite length_take, Nat.min_l; [done|]. destruct (decide (k <= length entries)%nat); [done|].
      rewrite drop_ge in Hent by lia. by apply not_elem_of_nil in Hent. }
    transitivity (length (take k entries)); [|done]. unfold queue.
    assert (Hall : Forall (λ p, is_Some (voter d cv p)) (take k entries)).
    { apply Forall_forall. intros p Hp.
      destruct (outranked k key addr b c p Hent Hp Hb Hc Hv) as (v & Hs & _). eauto. }
    clear -Hall. induction Hall as [|p l [v Hp] _ IH]; [done|]. cbn. rewrite Hp. cbn. by f_equal.
  - apply Forall_forall. intros v (p & Hp & Hs)%list_elem_of_omap.
    destruct (outranked k key addr b c p Hent Hp Hb Hc Hv) as (v' & Hs' & Hle). congruence.
Qed.
End verifiers.

Lemma setVerifiers_stores arr w u w' :
  setVerifierListAndIndex arr w = (Ok u, w') →
  epochValArrs (snapDB w') !! (vaStart arr, vaEnd arr) = Some (vaArr arr).
Proof.
  unfold setVerifierListAndIndex. intros (queue & w1 & _ & Hrun)%bind_Ok_inv.
  cbv zeta in Hrun. destruct (ConstantAppend _ _ _) as [shabby queue'].
  apply bind_Ok_inv in Hrun as (u1 & w2 & _ & Hrun).
  apply bind_Ok_inv in Hrun as (u2 & w3 & _ & Hrun).
  unfold SetEpochValList in Hrun. destruct (validators_encodable _); [|done].
  apply pair_Ok_eq in Hrun as [_ <-]. apply lookup_insert_eq.
Qed.


(** *** A concrete election of verifiers: five candidates for four places *)

Definition richMutable (n : Z) : CandidateMutable := AddShares n demoMutable.

Definition richNodes : list Z := [5; 6; 7; 8; 9].

Definition richKey (n : Z) : PowerKey :=
  powerKeyOf {| canBase := nodeBase n; canMutable := richMutable n |}.

Definition votersWorld : World :=
  {| stateDB := emptyState;
     snapDB := set_canPowers (set_canMutables (set_canBases
         (set_epochVals emptyDB (Some [{| Start := 1; End_ := 360 |}])
            (<[(1, 360) := map demoValidator [7; 9]]> ∅))
         (list_to_map (map (λ n, (n, nodeBase n)) richNodes)))
       (list_to_map (map (λ n, (n, richMutable n)) richNodes)))
     (list_to_map (map (λ n, (richKey n, n)) richNodes)) |}.

Lemma votersWorld_index : index_ok (snapDB votersWorld).
Proof.
  intros key addr (n & [= -> ->] & Hn)%elem_of_list_to_map_2%list_elem_of_fmap.
  exists (nodeBase n), (richMutable n).
  assert (Hw : canBases (snapDB votersWorld) !! n = Some (nodeBase n)
    ∧ canMutables (snapDB votersWorld) !! n = Some (richMutable n) ∧ 5 <= n <= 9).
  { repeat (apply elem_of_cons in Hn as [->|Hn]; [split_and!; by vm_compute|]).
    by apply not_elem_of_nil in Hn. }
  destruct Hw as (Hb & Hc & Hr). split; [exact Hb|]. split; [exact Hc|]. split; [reflexivity|].
  assert (cmShares (richMutable n) = 120 + n) as -> by (cbn; lia).
  split; cbn [nodeBase cbProgramVersion cbStakingBlockNum cbStakingTxIndex cbNodeId];
    unfold in_u64, in_u32, shares_bound; lia.
Defined.

