(* ===== verification/StakingContract.v ===== *)
(** * The staking contract (src/ethereum/core/vm/staking_contract.go)

    The transactions of users: each checks its parameters, loads the records and
    calls the plugin.  An error of the contract makes [EVM.Call] revert both
    databases ([runTx]).  [ContractEnv] is what the contract asks of the crypto
    library and of governance beyond [Env]. *)

From S2P Require Import Prelude Xcom Xutil StateDB Restricting Keys StakingTypes.
From S2P Require Import StakingDB RewardPer ValidatorLists Staking StakingSlash Election.

(** ** Errors (src/pos/staking/staking_err.go) and gas (src/configs/protocol_params.go) *)

Definition ErrWrongBlsPubKey := BizError 301000.
Definition ErrWrongBlsPubKeyProof := BizError 301001.
Definition ErrDescriptionLen := BizError 301002.
Definition ErrWrongProgramVersionSign := BizError 301003.
Definition ErrProgramVersionTooLow := BizError 301004.
Definition ErrDeclVsFialedCreateCan := BizError 301005.
Definition ErrNoSameStakingAddr := BizError 301006.
Definition ErrInvalidRewardPer := BizError 301007.
Definition ErrRewardPerInterval := BizError 301008.
Definition ErrRewardPerChangeRange := BizError 301009.
Definition ErrStakeVonTooLow := BizError 301100.
Definition ErrCanAlreadyExist := BizError 301101.
Definition ErrCanStatusInvalid := BizError 301103.
Definition ErrIncreaseStakeVonTooLow := BizError 301104.
Definition ErrDelegateVonTooLow := BizError 301105.
Definition ErrAccountNoAllowToDelegate := BizError 301106.
Definition ErrCanNoAllowDelegate := BizError 301107.
Definition ErrWithdrewDelegationVonTooLow := BizError 301108.
Definition ErrDelegateNoExist := BizError 301109.
Definition ErrNodeID2Addr := BizError 301206.
Definition ErrOutOfGas := GenericError.

Definition CreateStakeGas : Z := 32000.
Definition EditCandidateGas : Z := 12000.
Definition IncStakeGas : Z := 20000.
Definition WithdrewStakeGas : Z := 20000.
Definition DelegateGas : Z := 16000.
Definition WithdrewDelegationGas : Z := 8000.
Definition WithdrawDelegateEpochGas : Z := 100.

Class ContractEnv := {
  (** the key is a point of the curve; the proof is one for the key *)
  ParseBlsPubKey : Z → bool;
  verifyBlsProof : Z → Z → bool;
  IsSignedByNodeID : Z → Z → Z → bool;
  (** [gov.DeclareVersion] of a sender, a node, a version and its signature *)
  DeclareVersion : Z → Z → Z → Z → outcome unit;
  GovernRewardPerMaxChangeRange : Z → outcome Z;
  GovernRewardPerChangeInterval : Z → outcome Z }.

(** The transaction that is executed; [txHash] is zero when it is only
    estimated. *)
Record TxContext := {
  txHash : Z;
  txIndex : Z;
  txBlockNumber : Z;
  txFrom : Z;
  txGas : Z }.

(** ** Helpers *)

(** What is left of the gas, if there is enough. *)
Definition UseGas (available gas : Z) : M World Z :=
  if available <? gas then fail ErrOutOfGas else mret (available - gas).

(** [return txResultHandler(..., err)] when the check fails. *)
Definition require (ok : bool) (e : Error) : M World unit :=
  if ok then mret tt else fail e.

Definition verifyRewardPer (rewardPer : Z) : bool := rewardPer <=? 10000.

Section contract.
Context `{Env, ContractEnv} (tx : TxContext).

Definition nodeAddr (nodeId : Z) : M World Z :=
  match NodeId2Addr nodeId with
  | Ok a => mret a
  | Err _ => fail ErrNodeID2Addr
  | Panic => panic
  end.

(** The candidate must exist, be valid and belong to the sender. *)
Definition ownCandidate (canAddr : Z) : M World Candidate :=
  o ← get_opt (GetCandidateStore canAddr);
  match o with
  | None => fail ErrCanNoExist
  | Some canOld =>
      require (negb (IsInvalid (Status (canMutable canOld)))) ErrCanStatusInvalid ≫= λ _,
      require (txFrom tx =? StakingAddress (canBase canOld)) ErrNoSameStakingAddr ≫= λ _,
      mret canOld
  end.

(** Each epoch of income costs gas; the first one is free when nothing of the
    delegation was effective then. *)
Definition calcRewardPerUseGas (gas : Z) (pers : list DelegateRewardPer) (del : Delegation)
    : M World Z :=
  match pers with
  | [] => mret gas
  | first :: _ =>
      let n := Z.of_nat (length pers) in
      let unCalcEpoch :=
        if (perEpoch first =? delDelegateEpoch del)
           && (delReleased del =? 0) && (delRestrictingPlan del =? 0)
        then n - 1 else n in
      UseGas gas (u64 (WithdrawDelegateEpochGas * unCalcEpoch))
  end.

(** ** Transactions *)

(** [realVersion] and whether the version must be declared. *)
Definition stakingVersion (programVersion : Z) : M World (Z * bool) :=
  let currVersion := CalcVersion GetVersionForStaking in
  let inputVersion := CalcVersion programVersion in
  if inputVersion <? currVersion then fail ErrProgramVersionTooLow
  else if currVersion <? inputVersion then mret (GetVersionForStaking, true)
  else mret (programVersion, false).

Definition newMutable (amount rewardPer : Z) : CandidateMutable :=
  {| Status := 0; StakingEpoch := 0; cmShares := amount;
     Released := 0; ReleasedHes := 0; RestrictingPlan := 0; RestrictingPlanHes := 0;
     cmDelegateEpoch := 0; DelegateTotal := 0; DelegateTotalHes := 0;
     RewardPer := rewardPer; NextRewardPer := rewardPer;
     RewardPerChangeEpoch := u32 (CalculateEpoch ec (txBlockNumber tx));
     CurrentEpochDelegateReward := 0; DelegateRewardTotal := 0 |}.

(** The key and the proof have fixed-size array types in the code, so the two
    length checks there always pass. *)
Definition createStaking (typ benefitAddress nodeId : Z) (desc : Description)
    (amount rewardPer programVersion programVersionSign blsPubKey blsProof : Z)
    : M World unit :=
  UseGas (txGas tx) CreateStakeGas ≫= λ _,
  require (verifyRewardPer rewardPer) ErrInvalidRewardPer ≫= λ _,
  require (ParseBlsPubKey blsPubKey) ErrWrongBlsPubKey ≫= λ _,
  require (verifyBlsProof blsProof blsPubKey) ErrWrongBlsPubKeyProof ≫= λ _,
  require (IsSignedByNodeID programVersion programVersionSign nodeId)
    ErrWrongProgramVersionSign ≫= λ _,
  require (CheckStakeThreshold (txBlockNumber tx) amount).1 ErrStakeVonTooLow ≫= λ _,
  require (match CheckLength desc with Ok _ => true | _ => false end)
    ErrDescriptionLen ≫= λ _,
  '(realVersion, isDeclareVersion) ← stakingVersion programVersion;
  canAddr ← nodeAddr nodeId;
  canOld ← get_opt (GetCandidateStore canAddr);
  match canOld with
  | Some _ => fail ErrCanAlreadyExist
  | None =>
      if txHash tx =? 0 then mret tt
      else
        let can :=
          {| canBase := {| cbNodeId := nodeId; cbBlsPubKey := blsPubKey;
                           StakingAddress := txFrom tx; BenefitAddress := benefitAddress;
                           cbStakingTxIndex := txIndex tx; cbProgramVersion := realVersion;
                           cbStakingBlockNum := txBlockNumber tx;
                           cbDescription := desc |};
             canMutable := newMutable amount rewardPer |} in
        CreateCandidate (txBlockNumber tx) amount typ canAddr can ≫= λ _,
        if (isDeclareVersion : bool) then
          match DeclareVersion (txFrom tx) nodeId programVersion programVersionSign with
          | Ok _ => mret tt
          | Err _ => fail ErrDeclVsFialedCreateCan
          | Panic => panic
          end
        else mret tt
  end.

(** The commission may change by a bounded amount after a number of epochs. *)
Definition editRewardPer (currentEpoch : Z) (rewardPer : option Z) (c : CandidateMutable)
    : M World CandidateMutable :=
  let c := if (RewardPerChangeEpoch c <? currentEpoch)
              && negb (NextRewardPer c =? RewardPer c)
    then set_rewardPer (NextRewardPer c) (NextRewardPer c) (RewardPerChangeEpoch c)
           (CurrentEpochDelegateReward c) (DelegateRewardTotal c) c
    else c in
  match rewardPer with
  | None => mret c
  | Some per =>
      if per =? NextRewardPer c then mret c
      else
        require (verifyRewardPer per) ErrInvalidRewardPer ≫= λ _,
        range ← ask (GovernRewardPerMaxChangeRange (txBlockNumber tx));
        interval ← ask (GovernRewardPerChangeInterval (txBlockNumber tx));
        if u32 (currentEpoch - RewardPerChangeEpoch c) <? interval
        then fail ErrRewardPerInterval
        else if range <? Z.abs (per - RewardPer c) then fail ErrRewardPerChangeRange
        else mret (set_rewardPer (RewardPer c) per currentEpoch
                     (CurrentEpochDelegateReward c) (DelegateRewardTotal c) c)
  end.

Definition editDescription (externalId nodeName website details : option string)
    (d : Description) : Description :=
  {| ExternalId := default (ExternalId d) externalId;
     NodeName := default (NodeName d) nodeName;
     Website := default (Website d) website;
     Details := default (Details d) details |}.

(** A node that gives its rewards to the pool keeps doing so. *)
Definition editBase (benefitAddress : option Z) (desc : Description) (b : CandidateBase)
    : CandidateBase :=
  {| cbNodeId := cbNodeId b; cbBlsPubKey := cbBlsPubKey b;
     StakingAddress := StakingAddress b;
     BenefitAddress := match benefitAddress with
       | Some a => if BenefitAddress b =? RewardManagerPoolAddr then BenefitAddress b else a
       | None => BenefitAddress b end;
     cbStakingTxIndex := cbStakingTxIndex b; cbProgramVersion := cbProgramVersion b;
     cbStakingBlockNum := cbStakingBlockNum b; cbDescription := desc |}.

Definition editCandidate (benefitAddress : option Z) (nodeId : Z) (rewardPer : option Z)
    (externalId nodeName website details : option string) : M World unit :=
  UseGas (txGas tx) EditCandidateGas ≫= λ _,
  canAddr ← nodeAddr nodeId;
  canOld ← ownCandidate canAddr;
  let desc := editDescription externalId nodeName website details
                (cbDescription (canBase canOld)) in
  require (match CheckLength desc with Ok _ => true | _ => false end)
    ErrDescriptionLen ≫= λ _,
  let currentEpoch := u32 (CalculateEpoch ec (txBlockNumber tx)) in
  c ← editRewardPer currentEpoch rewardPer (canMutable canOld);
  if txHash tx =? 0 then mret tt
  else EditCandidate canAddr
         {| canBase := editBase benefitAddress desc (canBase canOld); canMutable := c |}.

Definition increaseStaking (nodeId typ amount : Z) : M World unit :=
  UseGas (txGas tx) IncStakeGas ≫= λ _,
  require (CheckOperatingThreshold (txBlockNumber tx) amount).1
    ErrIncreaseStakeVonTooLow ≫= λ _,
  canAddr ← nodeAddr nodeId;
  canOld ← ownCandidate canAddr;
  if txHash tx =? 0 then mret tt
  else IncreaseStaking (txBlockNumber tx) amount typ canAddr canOld.

Definition withdrewStaking (nodeId : Z) : M World unit :=
  UseGas (txGas tx) WithdrewStakeGas ≫= λ _,
  canAddr ← nodeAddr nodeId;
  canOld ← ownCandidate canAddr;
  if txHash tx =? 0 then mret tt
  else WithdrewStaking (txBlockNumber tx) canAddr canOld.

(** The candidate base must exist with the mutable part; the code relies on it. *)
Definition delegateCandidate (canAddr : Z) : M World Candidate :=
  o ← get_opt (GetCanMutableStore canAddr);
  match o with
  | None => fail ErrCanNoExist
  | Some canMutable =>
      require (negb (IsInvalid (Status canMutable))) ErrCanStatusInvalid ≫= λ _,
      b ← get_opt (GetCanBaseStore canAddr);
      match b with
      | None => panic
      | Some canBase => mret {| canBase := canBase; canMutable := canMutable |}
      end
  end.

Definition delegate (typ nodeId amount : Z) : M World unit :=
  gas ← UseGas (txGas tx) DelegateGas;
  canAddr ← nodeAddr nodeId;
  can ← delegateCandidate canAddr;
  let base := canBase can in
  require (negb (cbStakingBlockNum base =? txBlockNumber tx)) ErrCanNoExist ≫= λ _,
  o ← get_opt (GetDelegateStore (txFrom tx) nodeId (cbStakingBlockNum base));
  let del := default NewDelegation o in
  pers ← (if 0 <? delDelegateEpoch del then
            pers ← getDelegateRewardPerList (cbNodeId base) (cbStakingBlockNum base)
                     (delDelegateEpoch del)
                     (u64 (CalculateEpoch ec (txBlockNumber tx) - 1));
            calcRewardPerUseGas gas pers del ≫= λ _, mret pers
          else mret []);
  require (CheckOperatingThreshold (txBlockNumber tx) amount).1 ErrDelegateVonTooLow ≫= λ _,
  hasStake ← HasAccountStakeRc (txFrom tx);
  require (negb hasStake) ErrAccountNoAllowToDelegate ≫= λ _,
  require (negb (BenefitAddress base =? RewardManagerPoolAddr)) ErrCanNoAllowDelegate ≫= λ _,
  if txHash tx =? 0 then mret tt
  else Delegate (txBlockNumber tx) (txFrom tx) del canAddr can typ amount pers.

Definition withdrewDelegation (stakingBlockNum nodeId amount : Z) : M World Z :=
  gas ← UseGas (txGas tx) WithdrewDelegationGas;
  o ← get_opt (GetDelegateStore (txFrom tx) nodeId stakingBlockNum);
  match o with
  | None => if txHash tx =? 0 then mret 0 else fail ErrDelegateNoExist
  | Some del =>
      pers ← getDelegateRewardPerList nodeId stakingBlockNum (delDelegateEpoch del)
               (u64 (CalculateEpoch ec (txBlockNumber tx) - 1));
      calcRewardPerUseGas gas pers del ≫= λ _,
      require (CheckOperatingThreshold (txBlockNumber tx) amount).1
        ErrWithdrewDelegationVonTooLow ≫= λ _,
      if txHash tx =? 0 then mret 0
      else WithdrewDelegation (txBlockNumber tx) amount (txFrom tx) nodeId stakingBlockNum
             del pers
  end.
End contract.

(** ** Execution *)

(** [EVM.Call]: an error reverts the account state and the snapshot database. *)
Definition runTx {A} (m : M World A) (w : World) : World :=
  match m w with
  | (Ok _, w') => w'
  | _ => w
  end.

(** What changes the staking records: the transactions, a slash, and what a
    block starts and ends with. *)
Inductive stakingOp :=
  | CreateStaking (tx : TxContext) (typ benefit nodeId : Z) (desc : Description)
      (amount rewardPer version sign blsPubKey blsProof : Z)
  | EditCandidateOp (tx : TxContext) (benefit : option Z) (nodeId : Z)
      (rewardPer : option Z) (externalId nodeName website details : option string)
  | IncreaseStakingOp (tx : TxContext) (nodeId typ amount : Z)
  | WithdrewStakingOp (tx : TxContext) (nodeId : Z)
  | DelegateOp (tx : TxContext) (typ nodeId amount : Z)
  | WithdrewDelegationOp (tx : TxContext) (stakingBlockNum nodeId amount : Z)
  | SlashOp (blockNumber : Z) (queue : list SlashNodeItem)
  | BeginBlockOp (blockNumber : Z)
  | EndBlockOp (loaded : outcome (list (list Z))) (nonce : list Z) (blockNumber : Z).

Definition stakingExec `{Env, Lottery, ContractEnv} (op : stakingOp) (w : World) : World :=
  match op with
  | CreateStaking tx typ benefit nodeId desc amount rewardPer version sign key proof =>
      runTx (createStaking tx typ benefit nodeId desc amount rewardPer version sign key
               proof) w
  | EditCandidateOp tx benefit nodeId rewardPer externalId nodeName website details =>
      runTx (editCandidate tx benefit nodeId rewardPer externalId nodeName website
               details) w
  | IncreaseStakingOp tx nodeId typ amount => runTx (increaseStaking tx nodeId typ amount) w
  | WithdrewStakingOp tx nodeId => runTx (withdrewStaking tx nodeId) w
  | DelegateOp tx typ nodeId amount => runTx (delegate tx typ nodeId amount) w
  | WithdrewDelegationOp tx stakingBlockNum nodeId amount =>
      runTx (withdrewDelegation tx stakingBlockNum nodeId amount) w
  | SlashOp blockNumber queue => runTx (SlashCandidates blockNumber queue) w
  | BeginBlockOp blockNumber => runTx (StakingBeginBlock blockNumber) w
  | EndBlockOp loaded nonce blockNumber => runTx (StakingEndBlock loaded nonce blockNumber) w
  end.

(** No transaction is sent by the staking contract, which has no key. *)
Definition sender (op : stakingOp) : option Z :=
  match op with
  | CreateStaking tx _ _ _ _ _ _ _ _ _ _ | EditCandidateOp tx _ _ _ _ _ _ _
  | IncreaseStakingOp tx _ _ _ | WithdrewStakingOp tx _ | DelegateOp tx _ _ _
  | WithdrewDelegationOp tx _ _ _ => Some (txFrom tx)
  | _ => None
  end.
