(* ===== verification/StakingContractProofs.v ===== *)
(** * The staking system stays solvent

    The theorems about StakingContract: through any sequence of transactions,
    slashes, epoch changes and elections the staking contract holds at least the recorded
    stakes and delegations, and the supply of coins does not change. *)

From S2P Require Import Prelude Xcom Xutil StateDB Restricting RestrictingProofs Keys.
From S2P Require Import StakingTypes StakingDB RewardPer ValidatorLists Staking.
From S2P Require Import StakingSlash StakingProofs StakingSlashProofs StakingContract.
From S2P Require Import Election ElectionProofs.

(** ** Checks and queries *)

Lemma UseGas_reads available gas : reads (UseGas available gas).
Proof. unfold UseGas. reads. Qed.

Lemma require_reads ok e : reads (require ok e).
Proof. unfold require. reads. Qed.

Lemma require_inv ok e w u w' : require ok e w = (Ok u, w') → ok = true ∧ w' = w.
Proof. unfold require. destruct ok; [|done]. by intros [= _ <-]. Qed.

#[export] Hint Resolve UseGas_reads require_reads : reads.

Section contract.
Context `{Env, ContractEnv}.

Lemma nodeAddr_reads nodeId : reads (nodeAddr nodeId).
Proof. unfold nodeAddr. reads. Qed.

Lemma nodeAddr_inv nodeId w a w' :
  nodeAddr nodeId w = (Ok a, w') → NodeId2Addr nodeId = Ok a ∧ w' = w.
Proof.
  unfold nodeAddr. destruct (NodeId2Addr nodeId); [|done|done]. by intros [= -> ->].
Qed.

Lemma HasAccountStakeRc_reads a : reads (HasAccountStakeRc a).
Proof. unfold HasAccountStakeRc. reads. Qed.

Lemma getDelegateRewardPerList_reads nodeId n from to :
  reads (getDelegateRewardPerList nodeId n from to).
Proof. unfold getDelegateRewardPerList, keyAddr. reads. Qed.

Lemma calcRewardPerUseGas_reads gas pers del : reads (calcRewardPerUseGas gas pers del).
Proof. unfold calcRewardPerUseGas. reads. Qed.

Lemma stakingVersion_reads version : reads (stakingVersion version).
Proof. unfold stakingVersion. reads. Qed.

Lemma editRewardPer_reads tx epoch per c : reads (editRewardPer tx epoch per c).
Proof. unfold editRewardPer. reads. Qed.

#[local] Hint Resolve nodeAddr_reads HasAccountStakeRc_reads getDelegateRewardPerList_reads
  calcRewardPerUseGas_reads stakingVersion_reads editRewardPer_reads : reads.

(** Step over the checks in front of a handler. *)
Ltac skip_reads :=
  repeat match goal with
  | H : (?m ≫= _) ?w = (Ok _, _) |- _ =>
      let R := fresh in
      assert (R : reads m) by (reads; fail);
      let a := fresh "a" in let w1 := fresh "w" in let H1 := fresh "Hread" in
      apply bind_Ok_inv in H as (a & w1 & H1 & H);
      pose proof (R _ _ _ H1); subst w1; clear R; cbv beta zeta in H
  | H : (let '(_, _) := ?p in _) _ = (Ok _, _) |- _ => destruct p; cbv beta zeta in H
  end.

Lemma ownCandidate_inv tx canAddr w can w' :
  ownCandidate tx canAddr w = (Ok can, w') →
  w' = w ∧ canBases (snapDB w) !! canAddr = Some (canBase can)
  ∧ canMutables (snapDB w) !! canAddr = Some (canMutable can)
  ∧ txFrom tx = StakingAddress (canBase can).
Proof.
  unfold ownCandidate. intros (o & w0 & Ho & Hrun)%bind_Ok_inv.
  apply get_opt_inv in Ho as [-> Ho]; [|apply GetCandidateStore_state].
  destruct o as [c|]; [|done]. apply GetCandidateStore_inv in Ho as (_ & Hb & Hm).
  apply bind_Ok_inv in Hrun as (u1 & w1 & [_ ->]%require_inv & Hrun).
  apply bind_Ok_inv in Hrun as (u2 & w2 & [Hf ->]%require_inv & [-> ->]%pair_Ok_eq).
  bool_to_prop. done.
Qed.

Lemma delegateCandidate_inv canAddr w can w' :
  delegateCandidate canAddr w = (Ok can, w') →
  w' = w ∧ canBases (snapDB w) !! canAddr = Some (canBase can)
  ∧ canMutables (snapDB w) !! canAddr = Some (canMutable can).
Proof.
  unfold delegateCandidate. intros (o & w0 & Ho & Hrun)%bind_Ok_inv.
  apply get_opt_inv in Ho as [-> Ho]; [|apply db_get_state].
  destruct o as [c|]; [|done]. apply db_get_inv in Ho as [_ Hm].
  apply bind_Ok_inv in Hrun as (u1 & w1 & [_ ->]%require_inv & Hrun).
  apply bind_Ok_inv in Hrun as (b & w2 & Hb & Hrun).
  apply get_opt_inv in Hb as [-> Hb]; [|apply db_get_state].
  destruct b as [b|]; [|done]. apply db_get_inv in Hb as [_ Hb].
  by apply pair_Ok_eq in Hrun as [<- <-].
Qed.

(** ** Transactions *)

Lemma GetCandidateStore_missing addr w :
  GetCandidateStore addr w = (Err DbNotFound, w) → paired (snapDB w) →
  canMutables (snapDB w) !! addr = None.
Proof.
  intros Hg Hp. destruct (canMutables (snapDB w) !! addr) as [c|] eqn:Hc; [|done].
  destruct (Hp addr) as [b Hb]; [by eexists|]. revert Hg.
  unfold GetCandidateStore, GetCanBaseStore, GetCanMutableStore, db_get. run_eval.
  by rewrite Hb, Hc.
Qed.

Section transactions.
Context (tx : TxContext) (Hfrom : txFrom tx ≠ StakingContractAddr).
Context (w : World) (Hok : staking_ok (snapDB w)).

Lemma createStaking_keeps typ benefit nodeId desc amount per version sign key proof u w' :
  createStaking tx typ benefit nodeId desc amount per version sign key proof w = (Ok u, w') →
  keeps w w'.
Proof using Hfrom Hok.
  unfold createStaking. intros Hrun. skip_reads.
  match goal with H : nodeAddr _ _ = _, H' : get_opt (GetCandidateStore _) w = _ |- _ =>
    apply nodeAddr_inv in H as [Ha _]; apply get_opt_inv in H' as [_ Ho];
    [|apply GetCandidateStore_state] end.
  match type of Ho with match ?o with _ => _ end => destruct o; [done|] end.
  destruct (txHash tx =? 0); [by apply pair_Ok_eq in Hrun as [_ <-]|].
  apply bind_Ok_inv in Hrun as (u1 & w1 & H1 & H2).
  assert (w' = w1) as ->.
  { revert H2. destruct (DeclareVersion _ _ _ _), b; try done; by intros [_ <-]%pair_Ok_eq. }
  eapply CreateCandidate_keeps; [done| |done|done].
  apply GetCandidateStore_missing; [done|apply Hok].
Qed.

Lemma editRewardPer_total epoch per c w1 c' w2 :
  editRewardPer tx epoch per c w1 = (Ok c', w2) →
  calcCandidateTotalAmount c' = calcCandidateTotalAmount c.
Proof using.
  unfold editRewardPer. set (c1 := if (_ : bool) then set_rewardPer _ _ _ _ _ c else c). intros Hrun.
  assert (calcCandidateTotalAmount c1 = calcCandidateTotalAmount c) as <-
    by (unfold c1; by destruct (_ && negb _)).
  clearbody c1. destruct per; run_inv; done.
Qed.

Lemma editCandidate_keeps benefit nodeId per externalId nodeName website details u w' :
  editCandidate tx benefit nodeId per externalId nodeName website details w = (Ok u, w') →
  keeps w w'.
Proof using Hfrom Hok.
  unfold editCandidate. intros Hrun. skip_reads.
  apply bind_Ok_inv in Hrun as (can & w1 & (-> & Hb & Hm & Hf)%ownCandidate_inv & Hrun).
  skip_reads. destruct (txHash tx =? 0); [by apply pair_Ok_eq in Hrun as [_ <-]|].
  eapply EditCandidate_keeps; [done|done|by eapply editRewardPer_total|].
  destruct Hok as [_ [Hbase _]]. apply (Hbase _ _ Hb).
Qed.

Lemma increaseStaking_keeps nodeId typ amount u w' :
  increaseStaking tx nodeId typ amount w = (Ok u, w') → keeps w w'.
Proof using Hfrom.
  unfold increaseStaking. intros Hrun. skip_reads.
  apply bind_Ok_inv in Hrun as (can & w1 & (-> & Hb & Hm & Hf)%ownCandidate_inv & Hrun).
  destruct (txHash tx =? 0); [by apply pair_Ok_eq in Hrun as [_ <-]|].
  eapply IncreaseStaking_keeps; [done|done|congruence].
Qed.

Lemma withdrewStaking_keeps nodeId u w' :
  withdrewStaking tx nodeId w = (Ok u, w') → keeps w w'.
Proof using Hfrom Hok.
  unfold withdrewStaking. intros Hrun. skip_reads.
  apply bind_Ok_inv in Hrun as (can & w1 & (-> & Hb & Hm & Hf)%ownCandidate_inv & Hrun).
  destruct (txHash tx =? 0); [by apply pair_Ok_eq in Hrun as [_ <-]|].
  eapply WithdrewStaking_keeps; [done|done|done|congruence].
Qed.

(** The delegation is loaded and stored under the same node id, as two node ids
    do not share an address. *)
Lemma delegate_keeps typ nodeId amount u w' :
  (∀ n m a, NodeId2Addr n = Ok a → NodeId2Addr m = Ok a → n = m) →
  delegate tx typ nodeId amount w = (Ok u, w') → keeps w w'.
Proof using Hfrom Hok.
  unfold delegate. intros Hinj Hrun.
  apply bind_Ok_inv in Hrun as (gas & w1 & ->%UseGas_reads & Hrun).
  apply bind_Ok_inv in Hrun as (canAddr & w2 & [Haddr ->]%nodeAddr_inv & Hrun).
  apply bind_Ok_inv in Hrun as (can & w1 & (-> & Hb & Hm)%delegateCandidate_inv & Hrun).
  assert (cbNodeId (canBase can) = nodeId) as Hid.
  { destruct Hok as [_ [Hbase _]]. eapply Hinj; [apply (Hbase _ _ Hb)|done]. }
  skip_reads. destruct (txHash tx =? 0); [by apply pair_Ok_eq in Hrun as [_ <-]|].
  match goal with H : get_opt (GetDelegateStore _ _ _) w = _ |- _ =>
    apply get_opt_inv in H as [_ Hd]; [|apply db_get_state] end.
  eapply Delegate_keeps; [exact Hrun| |exact Hm|done].
  rewrite Hid. destruct a0 as [d|].
  - apply db_get_inv in Hd as [_ Hd]. by rewrite Hd.
  - unfold GetDelegateStore, db_get in Hd. revert Hd. run_eval.
    by destruct (delegates (snapDB w) !! _).
Qed.

Lemma withdrewDelegation_keeps stakingBlockNum nodeId amount x w' :
  withdrewDelegation tx stakingBlockNum nodeId amount w = (Ok x, w') → keeps w w'.
Proof using Hfrom Hok.
  unfold withdrewDelegation. intros Hrun.
  apply bind_Ok_inv in Hrun as (gas & w1 & ->%UseGas_reads & Hrun).
  apply bind_Ok_inv in Hrun as (o & w1 & Ho & Hrun).
  apply get_opt_inv in Ho as [-> Ho]; [|apply db_get_state].
  destruct o as [del|]; [apply db_get_inv in Ho as [_ Hd]; skip_reads|];
    (destruct (txHash tx =? 0); [by apply pair_Ok_eq in Hrun as [_ <-]|]); [|done].
  by eapply WithdrewDelegation_keeps.
Qed.
End transactions.
End contract.

(** ** The system *)

Section system.
Context `{Env, Lottery, ContractEnv}.

Definition isSlash (op : stakingOp) : bool :=
  match op with SlashOp _ _ => true | _ => false end.

Lemma runTx_rel {A} (R : World → World → Prop) (m : M World A) w :
  R w w → (∀ a w', m w = (Ok a, w') → R w w') → R w (runTx m w).
Proof.
  intros Hr Hm. unfold runTx. destruct (m w) as [[a|e|] w'] eqn:Hrun; eauto.
Qed.

Lemma stakingExec_keeps op w :
  no_collision → sender op ≠ Some StakingContractAddr → staking_ok (snapDB w) →
  isSlash op = false → keeps w (stakingExec op w).
Proof.
  intros Hinj Hs Hok Hns. destruct op; cbn [stakingExec sender isSlash] in *; try done;
    (apply runTx_rel; [done|]); intros a w' Hrun.
  - eapply createStaking_keeps; [|done..]. congruence.
  - eapply editCandidate_keeps; [|done..]. congruence.
  - eapply increaseStaking_keeps; [|done..]. congruence.
  - eapply withdrewStaking_keeps; [|done..]. congruence.
  - eapply delegate_keeps; [|done..]. congruence.
  - eapply withdrewDelegation_keeps; [|done..]. congruence.
  - by eapply StakingBeginBlock_keeps.
  - by eapply StakingEndBlock_keeps.
Qed.

Lemma stakingExec_grows op w :
  no_collision → sender op ≠ Some StakingContractAddr → staking_ok (snapDB w) →
  grows w (stakingExec op w).
Proof.
  intros Hinj Hs Hok. destruct (isSlash op) eqn:Hsl.
  - destruct op; try done. cbn [stakingExec]. apply runTx_rel; [done|]. intros u w' Hrun.
    by eapply SlashCandidates_grows.
  - by apply keeps_grows, stakingExec_keeps.
Qed.

(** The history of a node's staking component. *)
Definition stakingRun (ops : list stakingOp) (w : World) : World :=
  foldl (λ w op, stakingExec op w) w ops.

Lemma stakingRun_ok ops w :
  no_collision → staking_ok (snapDB w) →
  Forall (λ op, sender op ≠ Some StakingContractAddr) ops → grows w (stakingRun ops w).
Proof.
  intros Hinj Hok Hops. unfold stakingRun. revert w Hok.
  induction Hops as [|op ops Hop _ IH]; intros w Hok; [done|]. cbn.
  pose proof (stakingExec_grows op w Hinj Hop Hok) as Hg.
  transitivity (stakingExec op w); [done|]. apply IH, Hg, Hok.
Qed.

(** C3: the staking contract stays solvent: through any sequence of staking and
    delegation transactions, slashes, epoch changes and elections, successful or reverted,
    it holds at least all recorded stakes and delegations, the records stay
    well formed, and no coin is created or destroyed. *)
Theorem staking_solvent ops w :
  no_collision → staking_ok (snapDB w) → held (snapDB w) <= GetBalance (stateDB w) StakingContractAddr →
  Forall (λ op, sender op ≠ Some StakingContractAddr) ops →
  let w' := stakingRun ops w in
  held (snapDB w') <= GetBalance (stateDB w') StakingContractAddr
  ∧ staking_ok (snapDB w')
  ∧ total_supply (stateDB w') = total_supply (stateDB w).
Proof.
  intros Hinj Hok Hsolv Hops w'.
  destruct (stakingRun_ok ops w Hinj Hok Hops) as [Hsp Hsu Hok'].
  unfold surplus in Hsp. fold w' in Hsp. split; [lia|]. auto.
Qed.

End system.

(** ** A concrete history

    Account 1001 stakes 200 for node 7, account 1003 delegates 100 to it in a
    later block and takes 40 back, the validators of the next round are elected, and
    the node is slashed for double signing. *)

Definition demoContractEnv : ContractEnv :=
  {| ParseBlsPubKey := λ _, true; verifyBlsProof := λ _ _, true;
     IsSignedByNodeID := λ _ _ _, true;
     DeclareVersion := λ _ _ _ _, Ok tt; GovernRewardPerMaxChangeRange := λ _, Ok 500;
     GovernRewardPerChangeInterval := λ _, Ok 10 |}.

Definition demoTx (block from : Z) : TxContext :=
  {| txHash := 1; txIndex := 0; txBlockNumber := block; txFrom := from; txGas := 100000 |}.

Definition demoStart : World :=
  {| stateDB := SetBalance 1001 1000 (SetBalance 1003 500 emptyState);
     snapDB := set_roundVals (set_epochVals emptyDB (Some [{| Start := 1; End_ := 100000 |}])
         (<[(1, 100000) := map demoValidator [7; 8]]> ∅))
       (Some [{| Start := 1; End_ := 40 |}]) (<[(1, 40) := map demoValidator [7; 8]]> ∅) |}.

Definition demoHistory : list stakingOp :=
  [CreateStaking (demoTx 3 1001) FreeVon 1002 7 demoDescription 200 100 65536 1 7 1;
   DelegateOp (demoTx 5 1003) FreeVon 7 100;
   WithdrewDelegationOp (demoTx 6 1003) 3 7 40;
   EndBlockOp demoNonces [1; 2; 3] 20;
   SlashOp 2000 [{| snNodeId := 7; snAmount := 60; SlashType := DuplicateSign;
                    BenefitAddr := 2001 |}]].

Lemma demoStart_ok : @staking_ok demoEnv (snapDB demoStart).
Proof.
  split; [split; by apply map_Forall_empty|]. split; [by apply map_Forall_empty|].
  intros a. cbn. rewrite lookup_empty. by intros []%is_Some_None.
Defined.

(** After the history 140 of the stake and 60 of the delegation are left, and node 7
    is elected. *)
Lemma staking_solvent_witness :
  let w' := @stakingRun demoEnv demoLottery demoContractEnv demoHistory demoStart in
  held (snapDB w') = 200 ∧ map NodeId <$> roundValArrs (snapDB w') !! (41, 80) = Some [7]
  ∧ held (snapDB w') <= GetBalance (stateDB w') StakingContractAddr
  ∧ @staking_ok demoEnv (snapDB w').
Proof.
  cbv zeta. split; [vm_compute; reflexivity|]. split; [vm_compute; reflexivity|].
  destruct (@staking_solvent demoEnv demoLottery demoContractEnv demoHistory demoStart)
    as (Hs & Ho & _); [apply demo_no_collision|apply demoStart_ok|vm_compute; discriminate|
    by repeat constructor|].
  exact (conj Hs Ho).
Defined.


(** Account 1003 has delegated 100; taking 95 back would leave less than the
    threshold of 10, so all of it is paid. *)
Definition demoDelegated : World :=
  @stakingRun demoEnv demoLottery demoContractEnv (take 2 demoHistory) demoStart.

