(* ===== verification/Reward.v ===== *)
(** * Rewards (src/pos/plugin/reward_plugin.go)

    Yearly issuance, the rewards of block producers and verifiers, and the
    delegators' part of them, which waits in the delegate reward pool until a
    delegator withdraws it.  The records of past epochs are in RewardPer. *)

From S2P Require Import Prelude Xcom Xutil StateDB Restricting Keys StakingTypes.
From S2P Require Import StakingDB RewardPer ValidatorLists Staking.

(** ** Constants *)

Definition LessThanFoundationYearDeveloperRate : Z := 100.
Definition AfterFoundationYearDeveloperRewardRate : Z := 50.
Definition AfterFoundationYearFoundRewardRate : Z := 50.
Definition RewardPoolIncreaseRate : Z := 80.

(** ** Issuance *)

(** [mount * rate / 100] *)
Definition percentageCalculation (mount rate : Z) : Z := mount * rate / 100.

(** Amounts are stored as their bytes, which drop the sign; a missing value is
    zero. *)
Definition SetYearEndCumulativeIssue (year total : Z) (s : StateDB) : StateDB :=
  with_rewardPool (λ r,
    {| yearEndCumulativeIssue := <[year := Z.abs total]> (yearEndCumulativeIssue r);
       yearEndBalance := yearEndBalance r |}) s.

Definition GetHistoryCumulativeIssue (s : StateDB) (year : Z) : Z :=
  default 0 (yearEndCumulativeIssue (rewardPoolStore s) !! year).

Definition SetYearEndBalance (year balance : Z) (s : StateDB) : StateDB :=
  with_rewardPool (λ r,
    {| yearEndCumulativeIssue := yearEndCumulativeIssue r;
       yearEndBalance := <[year := Z.abs balance]> (yearEndBalance r) |}) s.

Definition GetYearEndBalance (s : StateDB) (year : Z) : Z :=
  default 0 (yearEndBalance (rewardPoolStore s) !! year).

(** The single values under the reward keys of the snapshot database; a missing
    one reads as zero. *)

Definition StorageRemainingReward (remainReward : Z) : M World unit :=
  db_put (λ d, set_rewardStore d
    {| newBlockRewardValue := newBlockRewardValue (rewardStore d);
       stakingRewardValue := stakingRewardValue (rewardStore d);
       remainingRewardValue := Some (Z.abs remainReward);
       chainYearNumberValue := chainYearNumberValue (rewardStore d) |}).

Definition LoadRemainingReward : M World Z :=
  gets (λ w, default 0 (remainingRewardValue (rewardStore (snapDB w)))).

Definition StorageNewBlockReward (newBlockReward : Z) : M World unit :=
  db_put (λ d, set_rewardStore d
    {| newBlockRewardValue := Some (Z.abs newBlockReward);
       stakingRewardValue := stakingRewardValue (rewardStore d);
       remainingRewardValue := remainingRewardValue (rewardStore d);
       chainYearNumberValue := chainYearNumberValue (rewardStore d) |}).

Definition LoadNewBlockReward : M World Z :=
  gets (λ w, default 0 (newBlockRewardValue (rewardStore (snapDB w)))).

Definition StorageStakingReward (stakingReward : Z) : M World unit :=
  db_put (λ d, set_rewardStore d
    {| newBlockRewardValue := newBlockRewardValue (rewardStore d);
       stakingRewardValue := Some (Z.abs stakingReward);
       remainingRewardValue := remainingRewardValue (rewardStore d);
       chainYearNumberValue := chainYearNumberValue (rewardStore d) |}).

Definition LoadStakingReward : M World Z :=
  gets (λ w, default 0 (stakingRewardValue (rewardStore (snapDB w)))).

Definition StorageChainYearNumber (yearNumber : Z) : M World unit :=
  db_put (λ d, set_rewardStore d
    {| newBlockRewardValue := newBlockRewardValue (rewardStore d);
       stakingRewardValue := stakingRewardValue (rewardStore d);
       remainingRewardValue := remainingRewardValue (rewardStore d);
       chainYearNumberValue := Some yearNumber |}).

Definition LoadChainYearNumber : M World Z :=
  gets (λ w, default 0 (chainYearNumberValue (rewardStore (snapDB w)))).

Section reward.
Context `{Env}.

Definition isLessThanFoundationYear (thisYear : Z) : bool :=
  thisYear <? u32 (PhoenixChainFoundationYear (Reward ec) - 1).

Definition addPhoenixChainFoundation (currIssuance allocateRate : Z) (s : StateDB)
    : StateDB :=
  AddBalance (PhoenixChainFundAccount (InnerAcc ec))
    (percentageCalculation currIssuance allocateRate) s.

Definition addCommunityDeveloperFoundation (currIssuance allocateRate : Z) (s : StateDB)
    : StateDB :=
  AddBalance (CDFAccount (InnerAcc ec)) (percentageCalculation currIssuance allocateRate) s.

Definition increaseIssuance (thisYear lastYear blockNumber : Z) : M StateDB unit :=
  histIssuance ← gets (λ s, GetHistoryCumulativeIssue s lastYear);
  increaseIssuanceRatio ← ask (GovernIncreaseIssuanceRatio blockNumber);
  let currIssuance := histIssuance * increaseIssuanceRatio / 10000 in
  modify (SetYearEndCumulativeIssue thisYear (histIssuance + currIssuance)) ≫= λ _,
  let rewardpoolIncr := percentageCalculation currIssuance RewardPoolIncreaseRate in
  modify (AddBalance RewardManagerPoolAddr rewardpoolIncr) ≫= λ _,
  let lessBalance := currIssuance - rewardpoolIncr in
  (if isLessThanFoundationYear thisYear then
     modify (addCommunityDeveloperFoundation lessBalance
               LessThanFoundationYearDeveloperRate)
   else
     modify (addCommunityDeveloperFoundation lessBalance
               AfterFoundationYearDeveloperRewardRate) ≫= λ _,
     modify (addPhoenixChainFoundation lessBalance
               AfterFoundationYearFoundRewardRate)) ≫= λ _,
  balance ← gets (λ s, GetBalance s RewardManagerPoolAddr);
  modify (SetYearEndBalance thisYear balance).

(** ** Staking rewards *)

(** The delegators' part and the node's part of a reward. *)
Definition CalDelegateRewardAndNodeReward (totalReward per : Z) : Z * Z :=
  let tmp := totalReward * per / 10000 in (tmp, totalReward - tmp).

Definition addDelegateReward (amount : Z) (c : CandidateMutable) : CandidateMutable :=
  set_rewardPer (RewardPer c) (NextRewardPer c) (RewardPerChangeEpoch c)
    (CurrentEpochDelegateReward c + amount) (DelegateRewardTotal c) c.

(** One verifier: its record, the state, and what it adds to the two totals. *)
Definition rewardOne (every : Z) (value : Candidate) (s : StateDB)
    : Candidate * StateDB * Z * Z :=
  let c := canMutable value in
  let '(delegateReward, stakingReward) :=
    if ShouldGiveDelegateReward c
    then CalDelegateRewardAndNodeReward every (RewardPer c) else (0, every) in
  let value := if ShouldGiveDelegateReward c
    then setMutable value (addDelegateReward delegateReward c) else value in
  if negb (BenefitAddress (canBase value) =? RewardManagerPoolAddr)
  then (value, AddBalance (BenefitAddress (canBase value)) stakingReward s,
        delegateReward, stakingReward)
  else (value, s, delegateReward, 0).

Fixpoint rewardLoop (every : Z) (l : list Candidate) (s : StateDB)
    : list Candidate * StateDB * Z * Z :=
  match l with
  | [] => ([], s, 0, 0)
  | value :: rest =>
      let '(value, s, d, n) := rewardOne every value s in
      let '(rest, s, ds, ns) := rewardLoop every rest s in
      (value :: rest, s, d + ds, n + ns)
  end.

(** The verifiers with their rewards of the epoch added; there must be one, or
    the division panics. *)
Definition rewardStakingByValidatorList (l : list Candidate) (reward : Z)
    : M StateDB (list Candidate) :=
  every ← ask (div64 reward (Z.of_nat (length l)));
  s ← get;
  let '(l, s, totalValidatorDelegateReward, totalValidatorReward) := rewardLoop every l s in
  modify (λ _, SubBalance RewardManagerPoolAddr
                 (totalValidatorDelegateReward + totalValidatorReward)
                 (AddBalance DelegateRewardPoolAddr totalValidatorDelegateReward s)) ≫= λ _,
  mret l.

Fixpoint loadCandidates (l : list Validator) : M World (list Candidate) :=
  match l with
  | [] => mret []
  | v :: rest =>
      c ← GetCandidateStore (NodeAddress v);
      cs ← loadCandidates rest;
      mret (c :: cs)
  end.

Definition GetVerifierCandidateInfo (blockNumber : Z) : M World (list Candidate) :=
  verifierList ← getVerifierList blockNumber;
  if (blockNumber <? vaStart verifierList) || (vaEnd verifierList <? blockNumber)
  then fail ErrBlockNumberDisordered
  else loadCandidates (vaArr verifierList).

Definition IsCurrVerifier (blockNumber nodeId : Z) : M World bool :=
  verifierList ← getVerifierList blockNumber;
  mret (existsb (λ v, NodeId v =? nodeId) (vaArr verifierList)).

Definition AllocateStakingReward (blockNumber sreward : Z) : M World (list Candidate) :=
  verifierList ← GetVerifierCandidateInfo blockNumber;
  on_state (rewardStakingByValidatorList verifierList sreward).

(** The end of an epoch: a verifier without effective delegation gets the
    delegators' part back, the others' is recorded for the delegators. *)
Definition delegatePerOne (currentEpoch : Z) (verifier : Candidate) : M World unit :=
  let c := canMutable verifier in
  if CurrentEpochDelegateReward c =? 0 then mret tt
  else if DelegateTotal c =? 0 then
    _ ← try (on_state (ReturnDelegateReward (BenefitAddress (canBase verifier))
                         (CurrentEpochDelegateReward c)));
    mret tt
  else
    AppendDelegateRewardPer (cbNodeId (canBase verifier))
      (cbStakingBlockNum (canBase verifier))
      (NewDelegateRewardPer currentEpoch (CurrentEpochDelegateReward c)
         (DelegateTotal c)) ≫= λ _,
    canAddr ← ask (NodeId2Addr (cbNodeId (canBase verifier)));
    SetCanMutableStore canAddr (PrepareNextEpoch c).1.

Definition HandleDelegatePerReward (blockNumber : Z) (l : list Candidate) : M World unit :=
  for_each (delegatePerOne (CalculateEpoch ec blockNumber)) l.

(** The producer of a block, by [getBlockMinderAddress], and its coinbase. *)
Definition AllocatePackageBlock (blockNumber nodeID add coinbase reward : Z)
    : M World unit :=
  currVerifier ← IsCurrVerifier blockNumber nodeID;
  reward ← (if (currVerifier : bool) then
              cm ← GetCanMutableStore add;
              if ShouldGiveDelegateReward cm then
                let '(delegateReward, reward) :=
                  CalDelegateRewardAndNodeReward reward (RewardPer cm) in
                on_state (modify (transferAmount RewardManagerPoolAddr
                                    DelegateRewardPoolAddr delegateReward)) ≫= λ _,
                SetCanMutableStore add (addDelegateReward delegateReward cm) ≫= λ _,
                mret reward
              else mret reward
            else mret reward);
  if negb (coinbase =? RewardManagerPoolAddr)
  then on_state (modify (transferAmount RewardManagerPoolAddr coinbase reward))
  else mret tt.

(** ** Withdrawing delegation rewards *)

Record DelegationInfoWithRewardPerList := {
  withInfo : DelegationInfo;
  withPers : list DelegateRewardPer }.

Record NodeDelegateReward := {
  ndrNodeID : Z;
  ndrStakingNum : Z;
  ndrReward : Z }.

(** One delegation: its entry of the answer and the income it adds. *)
Definition withdrawOne (currentEpoch account : Z) (d : DelegationInfoWithRewardPerList)
    : M World (NodeDelegateReward * Z) :=
  let info := withInfo d in
  '(rewardsReceive, del) ←
    ask (calcDelegateIncome currentEpoch (diDelegation info) (withPers d));
  let entry := {| ndrNodeID := diNodeID info; ndrStakingNum := diStakeBlockNumber info;
                  ndrReward := CumulativeIncome del |} in
  (match rewardsReceive with
   | [] => mret tt
   | _ => UpdateDelegateRewardPer (diNodeID info) (diStakeBlockNumber info) rewardsReceive
   end) ≫= λ _,
  if 0 <? CumulativeIncome del then
    SetDelegateStore account (diNodeID info) (diStakeBlockNumber info)
      (CleanCumulativeIncome (u32 currentEpoch) del) ≫= λ _,
    mret (entry, CumulativeIncome del)
  else mret (entry, 0).

Fixpoint withdrawLoop (currentEpoch account : Z) (l : list DelegationInfoWithRewardPerList)
    : M World (list NodeDelegateReward * Z) :=
  match l with
  | [] => mret ([], 0)
  | d :: rest =>
      '(entry, x) ← withdrawOne currentEpoch account d;
      '(entries, xs) ← withdrawLoop currentEpoch account rest;
      mret (entry :: entries, x + xs)
  end.

Definition WithdrawDelegateReward (blockNum account : Z)
    (l : list DelegationInfoWithRewardPerList) : M World (list NodeDelegateReward) :=
  '(rewards, receiveReward) ← withdrawLoop (CalculateEpoch ec blockNum) account l;
  (if 0 <? receiveReward then
     r ← try (on_state (ReturnDelegateReward account receiveReward));
     match r with inl _ => mret tt | inr _ => fail InternalError end
   else mret tt) ≫= λ _,
  mret rewards.
End reward.
