(* ===== verification/RewardProofs.v ===== *)
(** * What rewards cost and whom they pay

    The theorems about Reward: issuance mints what it records, rewards move
    coins between the pools and their receivers without creating any, and the
    delegate reward pool receives exactly what the records promise. *)

From S2P Require Import Prelude Xcom Xutil StateDB Restricting RestrictingProofs Keys.
From S2P Require Import StakingTypes StakingDB RewardPer ValidatorLists Staking.
From S2P Require Import StakingSlash StakingProofs StakingSlashProofs Reward.

(** ** Issuance *)

Lemma percentage_split x : percentageCalculation x 100 = x.
Proof. unfold percentageCalculation. apply Z.div_mul. lia. Qed.

Lemma percentage_half x : percentageCalculation x 50 = x / 2.
Proof.
  unfold percentageCalculation. change 100 with (2 * 50). by rewrite Z.div_mul_cancel_r.
Qed.

(** a year's issuance mints what it records: the recorded cumulative issue
    grows by the governed share of last year's, and so does the supply of
    coins, up to one unit lost to rounding when the remainder is split between
    the two foundations. *)
Theorem increaseIssuance_mints `{Env} thisYear lastYear blockNumber ratio s s' :
  increaseIssuance thisYear lastYear blockNumber s = (Ok tt, s') →
  GovernIncreaseIssuanceRatio blockNumber = Ok ratio → 0 <= ratio →
  0 <= GetHistoryCumulativeIssue s lastYear →
  let issued := GetHistoryCumulativeIssue s lastYear * ratio / 10000 in
  GetHistoryCumulativeIssue s' thisYear = GetHistoryCumulativeIssue s lastYear + issued
  ∧ ∃ lost, total_supply s' = total_supply s + issued - lost ∧ 0 <= lost <= 1
    ∧ (isLessThanFoundationYear thisYear = true → lost = 0).
Proof.
  intros Hrun Hr Hratio Hhist issued. unfold increaseIssuance in Hrun. revert Hrun.
  rewrite Hr. unfold ask. run_eval. fold issued.
  assert (0 <= issued) by (apply Z.div_pos; nia).
  set (pool := percentageCalculation issued RewardPoolIncreaseRate).
  destruct (isLessThanFoundationYear thisYear) eqn:Hy; run_eval; intros [= <-];
    unfold SetYearEndBalance, SetYearEndCumulativeIssue, addCommunityDeveloperFoundation,
      addPhoenixChainFoundation; (split; [unfold GetHistoryCumulativeIssue;
        autorewrite with state; cbn [yearEndCumulativeIssue]; rewrite lookup_insert_eq;
        fold (GetHistoryCumulativeIssue s lastYear); cbn [default from_option id]; lia|]).
  - exists 0. autorewrite with state. unfold LessThanFoundationYearDeveloperRate.
    rewrite percentage_split. split; [lia|]. split; [lia|done].
  - exists ((issued - pool) mod 2). autorewrite with state.
    unfold AfterFoundationYearDeveloperRewardRate, AfterFoundationYearFoundRewardRate.
    rewrite percentage_half.
    pose proof (Z.div_mod (issued - pool) 2). pose proof (Z.mod_pos_bound (issued - pool) 2).
    split; [lia|]. split; [lia|done].
Qed.

(** ** Rewards of verifiers *)

(** What an account is not one of the two pools must hold for. *)
Definition benefit_ok (value : Candidate) : Prop :=
  BenefitAddress (canBase value) ≠ DelegateRewardPoolAddr
  ∧ 0 <= RewardPer (canMutable value) <= 10000.

Definition rewardRecord (value : Candidate) : Z :=
  CurrentEpochDelegateReward (canMutable value).

Lemma CalDelegateReward_split total per d n :
  CalDelegateRewardAndNodeReward total per = (d, n) → 0 <= total → 0 <= per <= 10000 →
  0 <= d ∧ 0 <= n ∧ d + n = total.
Proof.
  intros [= <- <-] Ht Hp. assert (0 <= total * per / 10000) by (apply Z.div_pos; nia).
  assert (total * per / 10000 <= total) by (apply Z.div_le_upper_bound; nia). lia.
Qed.

Lemma RMP_ne_DRP : RewardManagerPoolAddr ≠ DelegateRewardPoolAddr.
Proof. discriminate. Qed.

Lemma rewardOne_inv every value s value' s' d n :
  rewardOne every value s = (value', s', d, n) → 0 <= every → benefit_ok value →
  0 <= d + n <= every ∧ 0 <= d
  ∧ rewardRecord value' = rewardRecord value + d
  ∧ total_supply s' = total_supply s + n
  ∧ GetBalance s' DelegateRewardPoolAddr = GetBalance s DelegateRewardPoolAddr
  ∧ GetBalance s' RewardManagerPoolAddr = GetBalance s RewardManagerPoolAddr.
Proof.
  unfold rewardOne, rewardRecord. intros Hrun He [Hb Hper].
  destruct (ShouldGiveDelegateReward _);
    [destruct (CalDelegateRewardAndNodeReward every _) as [d0 n0] eqn:Hc;
     apply CalDelegateReward_split in Hc as (? & ? & ?); [|done..]|].
  all: cbn [setMutable canBase canMutable addDelegateReward] in Hrun.
  all: destruct (Z.eqb_spec (BenefitAddress (canBase value)) RewardManagerPoolAddr);
    cbn [negb] in Hrun; simplify_eq; cbn [canMutable addDelegateReward set_rewardPer
      CurrentEpochDelegateReward setMutable]; repeat split; try lia.
  all: rewrite ?total_supply_Add, ?GetBalance_Add; try lia.
  all: case_match; bool_to_prop; congruence || lia.
Qed.

Definition recorded (l : list Candidate) : Z := zsum (rewardRecord <$> l).

Lemma rewardLoop_inv every l s l' s' d n :
  rewardLoop every l s = (l', s', d, n) → 0 <= every → Forall benefit_ok l →
  0 <= d + n <= every * Z.of_nat (length l) ∧ 0 <= d
  ∧ recorded l' = recorded l + d
  ∧ total_supply s' = total_supply s + n
  ∧ GetBalance s' DelegateRewardPoolAddr = GetBalance s DelegateRewardPoolAddr
  ∧ GetBalance s' RewardManagerPoolAddr = GetBalance s RewardManagerPoolAddr.
Proof.
  intros Hrun He Hl. revert s l' s' d n Hrun.
  induction Hl as [|value l Hv _ IH]; intros s l' s' d n Hrun; cbn [rewardLoop] in Hrun.
  { simplify_eq. cbn. lia. }
  destruct (rewardOne every value s) as [[[v1 s1] d1] n1] eqn:H1.
  apply rewardOne_inv in H1 as (? & ? & ? & ? & ? & ?); [|done..].
  destruct (rewardLoop every l s1) as [[[l2 s2] d2] n2] eqn:Hrest.
  apply IH in Hrest as (? & ? & ? & ? & ? & ?). simplify_eq.
  unfold recorded in *. cbn [fmap list_fmap zsum length]. lia.
Qed.


(** ** Rewards of block producers *)

(** All rewards of the epoch on record for delegators. *)
Definition promised (w : World) : Z :=
  msum CurrentEpochDelegateReward (canMutables (snapDB w)).

Section package.
Context `{Env}.

Lemma IsCurrVerifier_reads blockNumber nodeId w b w' :
  IsCurrVerifier blockNumber nodeId w = (Ok b, w') → w' = w.
Proof.
  unfold IsCurrVerifier, getVerifierList, getVeriferIndex, orNoExist, loadArray.
  intros Hrun. run_inv;
    repeat match goal with H : get_opt _ _ = (Ok _, _) |- _ =>
      apply get_opt_inv in H as [-> _]; [|apply db_get_state] end; done.
Qed.

(** The delegators' part of a block reward. *)
Lemma packageSplit_inv (currVerifier : bool) add reward w r w' :
  (if currVerifier then
     cm ← GetCanMutableStore add;
     if ShouldGiveDelegateReward cm then
       let '(delegateReward, reward) :=
         CalDelegateRewardAndNodeReward reward (RewardPer cm) in
       on_state (modify (transferAmount RewardManagerPoolAddr
                           DelegateRewardPoolAddr delegateReward)) ≫= λ _,
       SetCanMutableStore add (addDelegateReward delegateReward cm) ≫= λ _,
       mret reward
     else mret reward
   else mret reward) w = (Ok r, w') →
  0 <= reward →
  (∀ cm, canMutables (snapDB w) !! add = Some cm → 0 <= RewardPer cm <= 10000) →
  0 <= r <= reward ∧ total_supply (stateDB w') = total_supply (stateDB w)
  ∧ GetBalance (stateDB w') DelegateRewardPoolAddr
    = GetBalance (stateDB w) DelegateRewardPoolAddr + (promised w' - promised w)
  ∧ GetBalance (stateDB w') RewardManagerPoolAddr
    = GetBalance (stateDB w) RewardManagerPoolAddr - (reward - r).
Proof.
  intros Hrun Hr Hper. destruct currVerifier; [|apply pair_Ok_eq in Hrun as [<- <-]; lia].
  apply bind_Ok_inv in Hrun as (cm & w1 & [-> Hc]%db_get_inv & Hrun).
  destruct (ShouldGiveDelegateReward cm); [|apply pair_Ok_eq in Hrun as [<- <-]; lia].
  destruct (CalDelegateRewardAndNodeReward _ _) as [d n] eqn:Hs.
  apply CalDelegateReward_split in Hs as (? & ? & ?); [|done|by apply Hper].
  apply bind_Ok_inv in Hrun as (u & w1 & [Ed Es]%on_state_inv & Hrun).
  apply pair_Ok_eq in Es as [_ Es].
  apply bind_Ok_inv in Hrun as (u2 & w2 & Hset & [<- <-]%pair_Ok_eq).
  unfold SetCanMutableStore in Hset. destruct (mutable_encodable _); [|done].
  apply pair_Ok_eq in Hset as [_ <-]. unfold promised. cbn [stateDB snapDB with_db
    canMutables set_canMutables]. rewrite <- Es, Ed, msum_insert, total_supply_transfer,
    !GetBalance_transfer. unfold at_key. rewrite Hc.
  cbn [from_option CurrentEpochDelegateReward addDelegateReward set_rewardPer].
  cbn -[Z.add Z.sub GetBalance total_supply msum]. lia.
Qed.

(** a block's reward costs the reward pool at most the reward, creates no
    coins, and brings into the delegate reward pool exactly what is added to
    the producer's record for its delegators. *)
Theorem AllocatePackageBlock_exact blockNumber nodeID add coinbase reward w w' :
  AllocatePackageBlock blockNumber nodeID add coinbase reward w = (Ok tt, w') →
  0 <= reward → coinbase ≠ DelegateRewardPoolAddr →
  (∀ cm, canMutables (snapDB w) !! add = Some cm → 0 <= RewardPer cm <= 10000) →
  total_supply (stateDB w') = total_supply (stateDB w)
  ∧ GetBalance (stateDB w') DelegateRewardPoolAddr
      - GetBalance (stateDB w) DelegateRewardPoolAddr = promised w' - promised w
  ∧ 0 <= GetBalance (stateDB w) RewardManagerPoolAddr
         - GetBalance (stateDB w') RewardManagerPoolAddr <= reward.
Proof.
  unfold AllocatePackageBlock. intros Hrun Hr Hcb Hper.
  apply bind_Ok_inv in Hrun as (b & w1 & Hb & Hrun).
  assert (w1 = w) as -> by by eapply IsCurrVerifier_reads.
  apply bind_Ok_inv in Hrun as (r & w2 & H2 & Hrun).
  apply packageSplit_inv in H2 as (? & E1 & E2 & E3); [|done..].
  destruct (Z.eqb_spec coinbase RewardManagerPoolAddr) as [->|Hne]; cbn [negb] in Hrun.
  { apply pair_Ok_eq in Hrun as [_ <-]. lia. }
  apply on_state_inv in Hrun as [Ed Es]. apply pair_Ok_eq in Es as [_ Es].
  assert (promised w' = promised w2) as -> by (unfold promised; by rewrite Ed).
  rewrite <- Es, total_supply_transfer, !GetBalance_transfer.
  destruct (Z.eqb_spec DelegateRewardPoolAddr coinbase); [congruence|].
  destruct (Z.eqb_spec RewardManagerPoolAddr coinbase); [congruence|].
  cbn -[Z.add Z.sub GetBalance total_supply promised]. lia.
Qed.
End package.

(** ** Withdrawals of delegation rewards *)

Lemma zsum_max_nonneg l : 0 <= zsum ((λ e, Z.max 0 (ndrReward e)) <$> l).
Proof. induction l; cbn in *; lia. Qed.

Section withdraw.
Context `{Env}.

(** The records of past epochs are not coins. *)
Lemma updateLoop_state addr n indices receives w u w' :
  updateLoop addr n indices receives w = (Ok u, w') → stateDB w' = stateDB w.
Proof.
  revert receives w. induction indices as [|i indices IH]; intros receives w;
    cbn [updateLoop]; [by intros [_ <-]%pair_Ok_eq|].
  intros (o & w1 & [_ <-]%pair_Ok_eq & Hrun)%bind_Ok_inv.
  destruct o as [l|]; [|by apply IH in Hrun].
  destruct (DecreaseTotalAmount _ _) as [[l' k] changed].
  apply bind_Ok_inv in Hrun as (u1 & w1 & H1 & ->%IH).
  destruct changed; [destruct l'|]; by apply pair_Ok_eq in H1 as [_ <-].
Qed.

Lemma UpdateDelegateRewardPer_state nodeId n receives w u w' :
  UpdateDelegateRewardPer nodeId n receives w = (Ok u, w') → stateDB w' = stateDB w.
Proof.
  unfold UpdateDelegateRewardPer, keyAddr. intros Hrun.
  destruct receives as [|r rs]; [by apply pair_Ok_eq in Hrun as [_ <-]|].
  destruct (last _); [|by apply pair_Ok_eq in Hrun as [_ <-]].
  apply bind_Ok_inv in Hrun as (a & w1 & Ha & ->%updateLoop_state).
  destruct (NodeId2Addr nodeId); [|done|done]. by apply pair_Ok_eq in Ha as [_ <-].
Qed.

(** A step pays nothing yet and leaves no income behind on the record. *)
Lemma withdrawOne_inv epoch account d w entry x w' :
  withdrawOne epoch account d w = (Ok (entry, x), w') →
  x = Z.max 0 (ndrReward entry) ∧ stateDB w' = stateDB w
  ∧ ndrNodeID entry = diNodeID (withInfo d)
  ∧ (0 < x → ∃ del,
       delegates (snapDB w') !! (account, diNodeID (withInfo d),
         diStakeBlockNumber (withInfo d)) = Some del
       ∧ CumulativeIncome del = 0 ∧ delDelegateEpoch del = u32 epoch).
Proof.
  unfold withdrawOne. intros Hrun.
  apply bind_Ok_inv in Hrun as ([r del] & w0 & [Hi <-]%pair_equal_spec & Hrun).
  apply bind_Ok_inv in Hrun as (u & w1 & Hu & Hrun).
  assert (stateDB w1 = stateDB w) as Es.
  { destruct r; [by apply pair_Ok_eq in Hu as [_ <-]|]. by apply UpdateDelegateRewardPer_state in Hu. }
  destruct (Z.ltb_spec 0 (CumulativeIncome del)).
  - apply bind_Ok_inv in Hrun as (u2 & w2 & Hs & [[= <- <-] <-]%pair_Ok_eq).
    unfold SetDelegateStore in Hs. destruct (delegation_encodable _); [|done].
    apply pair_Ok_eq in Hs as [_ <-]. cbn [ndrReward ndrNodeID stateDB with_db].
    repeat split; [lia|done|]. intros _. eexists. split; [apply lookup_insert_eq|done].
  - apply pair_Ok_eq in Hrun as [[= <- <-] <-]. cbn [ndrReward ndrNodeID].
    repeat split; [lia|done|lia].
Qed.

Lemma withdrawLoop_inv epoch account l w entries x w' :
  withdrawLoop epoch account l w = (Ok (entries, x), w') →
  x = zsum ((λ e, Z.max 0 (ndrReward e)) <$> entries) ∧ stateDB w' = stateDB w
  ∧ ndrNodeID <$> entries = (λ d, diNodeID (withInfo d)) <$> l.
Proof.
  revert w entries x. induction l as [|d l IH]; intros w entries x; cbn [withdrawLoop].
  - by intros [[= <- <-] <-]%pair_Ok_eq.
  - intros ([e y] & w1 & H1 & ([es ys] & w2 & H2 & [[= <- <-] <-]%pair_Ok_eq)%bind_Ok_inv)
      %bind_Ok_inv.
    apply withdrawOne_inv in H1 as (-> & E1 & E2 & _). apply IH in H2 as (-> & E3 & E4).
    cbn. split; [done|]. split; congruence.
Qed.

(** a withdrawal of delegation rewards answers one entry for each delegation
    listed and moves exactly the sum of the incomes in the answer from the
    delegate reward pool to the account. *)
Theorem WithdrawDelegateReward_exact blockNum account l w rewards w' :
  WithdrawDelegateReward blockNum account l w = (Ok rewards, w') →
  account ≠ DelegateRewardPoolAddr →
  let paid := zsum ((λ e, Z.max 0 (ndrReward e)) <$> rewards) in
  ndrNodeID <$> rewards = (λ d, diNodeID (withInfo d)) <$> l
  ∧ GetBalance (stateDB w') account = GetBalance (stateDB w) account + paid
  ∧ GetBalance (stateDB w') DelegateRewardPoolAddr
    = GetBalance (stateDB w) DelegateRewardPoolAddr - paid
  ∧ total_supply (stateDB w') = total_supply (stateDB w).
Proof.
  unfold WithdrawDelegateReward. intros Hrun Ha. cbv zeta.
  apply bind_Ok_inv in Hrun as ([es x] & w1 & H1 & Hrun).
  apply withdrawLoop_inv in H1 as (Hx & E1 & E2).
  apply bind_Ok_inv in Hrun as (u & w2 & H2 & [<- <-]%pair_Ok_eq). split; [done|].
  assert (0 <= x) by (rewrite Hx; apply zsum_max_nonneg).
  rewrite <- Hx, <- E1. clear Hx E1 E2.
  destruct (Z.ltb_spec 0 x).
  - apply bind_Ok_inv in H2 as (r & w3 & H3 & H4). destruct r; [|done].
    apply pair_Ok_eq in H4 as [_ <-]. revert H3.
    unfold try, on_state, ReturnDelegateReward. destruct (Z.ltb_spec 0 x); [|lia]. run_eval.
    destruct (_ <? x); [done|]. intros [= <- <-]. cbn [stateDB].
    rewrite total_supply_transfer, !GetBalance_transfer.
    destruct (Z.eqb_spec account DelegateRewardPoolAddr); [done|].
    destruct (Z.eqb_spec DelegateRewardPoolAddr account); [congruence|].
    rewrite !Z.eqb_refl. lia.
  - apply pair_Ok_eq in H2 as [_ <-].
    lia.
Qed.
End withdraw.

(** ** Concrete runs *)

(** Ten thousand coins issued so far, at a ratio of 2.5 percent. *)
Definition demoIssued : StateDB :=
  SetBalance 9 10000 (SetYearEndCumulativeIssue 0 10000 emptyState).

Lemma increaseIssuance_mints_witness :
  GetHistoryCumulativeIssue (@increaseIssuance demoEnv 1 0 5 demoIssued).2 1 = 10250.
Proof.
  destruct (@increaseIssuance_mints demoEnv 1 0 5 250 demoIssued
    (@increaseIssuance demoEnv 1 0 5 demoIssued).2) as [Hi _];
    [vm_compute; reflexivity|reflexivity|lia|vm_compute; discriminate|].
  rewrite Hi. vm_compute. reflexivity.
Defined.

Definition demoDelegatedMutable : CandidateMutable :=
  set_rewardPer 2000 2000 1 0 0 (set_delegateTotals 1 30 0 demoMutable).

Definition demoVerifier : Candidate :=
  {| canBase := demoBase; canMutable := demoDelegatedMutable |}.

Definition demoPool : StateDB := SetBalance RewardManagerPoolAddr 1000 emptyState.


Definition demoProducing : World :=
  {| stateDB := demoPool;
     snapDB := set_epochVals (set_canMutables (set_canBases emptyDB (<[7 := demoBase]> ∅))
                 (<[7 := demoDelegatedMutable]> ∅))
       (Some [{| Start := 1; End_ := 100 |}])
       (<[(1, 100) := [demoValidator 7]]> ∅) |}.

Lemma AllocatePackageBlock_exact_witness :
  GetBalance (stateDB (@AllocatePackageBlock 5 7 7 1002 50 demoProducing).2)
    DelegateRewardPoolAddr = 10.
Proof.
  destruct (@AllocatePackageBlock_exact 5 7 7 1002 50 demoProducing
    (@AllocatePackageBlock 5 7 7 1002 50 demoProducing).2) as (_ & Hd & _);
    [vm_compute; reflexivity|lia|discriminate|intros cm; vm_compute; intros [= <-]; done|].
  vm_compute in Hd |- *. exact Hd.
Defined.

(** *** Delegation rewards *)

(** Epoch 1 of node 7: a reward of 2 for a delegation of 30, of which 1003 has
    10 and 1004 has 20. *)
Definition demoDelegation (amount : Z) : Delegation :=
  {| delDelegateEpoch := 1; delReleased := amount; delReleasedHes := 0;
     delRestrictingPlan := 0; delRestrictingPlanHes := 0; CumulativeIncome := 0 |}.

Definition demoRewards : World :=
  {| stateDB := SetBalance DelegateRewardPoolAddr 2 emptyState;
     snapDB := set_rewardPers (set_delegates emptyDB
         (<[(1003, 7, 3) := demoDelegation 10]> (<[(1004, 7, 3) := demoDelegation 20]> ∅)))
       (<[(7, 3, 0) := [NewDelegateRewardPer 1 2 30]]> ∅) |}.

(** The arguments the contract builds for one account. *)
Definition demoAsk (account : Z) (w : World) : list DelegationInfoWithRewardPerList :=
  map (λ d, {| withInfo := d;
               withPers := match @getDelegateRewardPerList demoEnv (diNodeID d)
                             (diStakeBlockNumber d) (delDelegateEpoch (diDelegation d)) 1 w
                           with (Ok l, _) => l | _ => [] end |})
    (GetDelegatesInfo (snapDB w) account).

Definition demoWithdraw (account : Z) (w : World) : World :=
  (@WithdrawDelegateReward demoEnv 2000 account (demoAsk account w) w).2.

Lemma WithdrawDelegateReward_exact_witness :
  GetBalance (stateDB (demoWithdraw 1004 demoRewards)) 1004 = 1.
Proof.
  destruct (@WithdrawDelegateReward_exact demoEnv 2000 1004 (demoAsk 1004 demoRewards)
    demoRewards [{| ndrNodeID := 7; ndrStakingNum := 3; ndrReward := 1 |}]
    (demoWithdraw 1004 demoRewards)) as (_ & Hb & _);
    [vm_compute; reflexivity|discriminate|].
  rewrite Hb. vm_compute. reflexivity.
Defined.

(** a delegator whose income rounds to nothing can withdraw again and again:
    each time the epoch's record counts the delegation as paid, though the
    delegation is not marked, until the record is dropped and another
    delegator of the node loses the income it was owed. *)
Theorem zero_income_withdrawals :
  GetBalance (stateDB (demoWithdraw 1004 demoRewards)) 1004 = 1
  ∧ GetBalance (stateDB (demoWithdraw 1004
      (demoWithdraw 1003 (demoWithdraw 1003 (demoWithdraw 1003 demoRewards))))) 1004 = 0.
Proof. vm_compute. split; reflexivity. Qed.

(** *** A reward that is paid twice *)

(** Node 7 has earned 50 for delegators who have left since, and is not among
    the verifiers of the next epoch; the pool holds 50 more for other nodes. *)
Definition demoLeaving : CandidateMutable :=
  set_rewardPer 2000 2000 1 50 0 (set_delegateTotals 1 0 0 demoMutable).

Definition demoBase8 : CandidateBase :=
  {| cbNodeId := 8; cbBlsPubKey := 8; StakingAddress := 1005; BenefitAddress := 1006;
     cbStakingTxIndex := 0; cbProgramVersion := 65536; cbStakingBlockNum := 1;
     cbDescription := demoDescription |}.

Definition demoEpochEnd : World :=
  {| stateDB := SetBalance DelegateRewardPoolAddr 100
                  (SetBalance StakingContractAddr 240 emptyState);
     snapDB := set_epochVals (set_canMutables (set_canBases emptyDB
           (<[7 := demoBase]> (<[8 := demoBase8]> ∅)))
           (<[7 := demoLeaving]> (<[8 := demoMutable]> ∅)))
       (Some [{| Start := 1; End_ := 360 |}; {| Start := 361; End_ := 720 |}])
       (<[(1, 360) := [demoValidator 7; demoValidator 8]]>
          (<[(361, 720) := [demoValidator 8]]> ∅)) |}.

(** The last block of epoch 1, the first block of epoch 2, and a slash of node
    7 for signing twice, reported in epoch 2. *)
Definition demoAfterEpoch : World :=
  (@HandleDelegatePerReward demoEnv 360
     [{| canBase := demoBase; canMutable := demoLeaving |};
      {| canBase := demoBase8; canMutable := demoMutable |}] demoEpochEnd).2.

Definition demoAfterSlash : World :=
  (@SlashCandidates demoEnv 400 [demoSlash]
     (@StakingBeginBlock demoEnv 361 demoAfterEpoch).2).2.

