(* ===== verification/Slashing.v ===== *)
(** * The slashing plugin (src/pos/plugin/slashing_plugin.go)

    Nodes that produced no block in too many rounds of a window of rounds are
    slashed for a low block rate; a node reported with valid evidence is slashed
    for double signing.  Some queries of the code read the irreversible view of
    the database or that of the parent block: those views are arguments. *)

From S2P Require Import Prelude Xcom Xutil StateDB Restricting Keys StakingTypes.
From S2P Require Import StakingDB RewardPer ValidatorLists Staking StakingSlash Reward.

(** ** Errors (src/pos/slashing/slashing_err.go) *)

Definition ErrDuplicateSignVerify := BizError 303000.
Definition ErrSlashingExist := BizError 303001.
Definition ErrBlockNumberTooHigh := BizError 303002.
Definition ErrIntervalTooLong := BizError 303003.
Definition ErrGetCandidate := BizError 303004.
Definition ErrNodeIdMismatch := BizError 303006.
Definition ErrBlsPubKeyMismatch := BizError 303007.
Definition ErrSlashingFail := BizError 303008.
Definition ErrNotValidator := BizError 303009.
Definition ErrSameAddr := BizError 303010.

Definition HundredDenominator : Z := 100.
Definition TenThousandDenominator : Z := 10000.

(** ** Amounts *)

Definition calcAmountByRate (balance numerator denominator : Z) : Z :=
  if 0 <? balance then balance * numerator / denominator else 0.

Definition calcSlashBlockRewards (blockRewardAmount : Z) : M World Z :=
  newBlockReward ← LoadNewBlockReward;
  mret (newBlockReward * blockRewardAmount).

(** ** Evidence of double signing *)

(** What the code reads of an evidence; [evValid] is the answer of [Validate]. *)
Record Evidence := {
  evValid : bool;
  evBlockNumber : Z;
  evNodeID : Z;
  evBlsPubKey : Z;
  evType : Z }.

Definition getSlashTxHash (nodeId blockNumber dupType : Z) (s : StateDB) : option Z :=
  slashedEvidence s !! (nodeId, blockNumber, dupType).

Definition putSlashTxHash (nodeId blockNumber dupType txHash : Z) (s : StateDB) : StateDB :=
  with_evidence (<[(nodeId, blockNumber, dupType) := txHash]>) s.

Definition CheckDuplicateSign (nodeId blockNumber dupType : Z) (s : StateDB) : option Z :=
  getSlashTxHash nodeId blockNumber dupType s.

(** A query on another view of the database. *)
Definition at_view {A} (view : World) (m : M World A) : M World A := λ w, ((m view).1, w).

(** ** The window of rounds without blocks *)

(** Drop rounds before the first one without a block. *)
Fixpoint alignBits (fuel : nat) (round bits : Z) : Z * Z :=
  match fuel with
  | O => (round, bits)
  | S fuel =>
      if negb (Z.land bits 1 =? 0) then (round, bits)
      else
        let bits := Z.shiftr bits 1 in
        if bits =? 0 then (round, bits) else alignBits fuel (u64 (round + 1)) bits
  end.

(** Forget the rounds that have left the window. *)
Definition slideWindow (preRound cumulativeTime : Z) (n : WaitSlashingNode)
    : WaitSlashingNode :=
  let diff := u16 (preRound - wsRound n) in
  if cumulativeTime <=? diff then
    let moveNumber := u16 (diff + 1 - cumulativeTime) in
    let bits := Z.shiftr (wsCountBit n) moveNumber in
    if 0 <? bits then
      let '(round, bits) := alignBits 64 (u64 (wsRound n + moveNumber)) bits in
      {| wsNodeId := wsNodeId n; wsRound := round; wsCountBit := bits |}
    else {| wsNodeId := wsNodeId n; wsRound := wsRound n; wsCountBit := bits |}
  else n.

(** [1 << d] as a 64-bit value. *)
Definition shl64 (d : Z) : Z := if d <? 64 then 2 ^ d else 0.

(** The previous round was one without a block. *)
Definition markZero (preRound : Z) (n : WaitSlashingNode) : WaitSlashingNode :=
  if wsCountBit n =? 0 then
    {| wsNodeId := wsNodeId n; wsRound := preRound; wsCountBit := 1 |}
  else
    let diffRound := u64 (preRound - wsRound n) in
    {| wsNodeId := wsNodeId n; wsRound := wsRound n;
       wsCountBit := Z.lor (wsCountBit n) (shl64 diffRound) |}.

(** The record after the round [preRound], in which the node was a validator
    without blocks iff [zero]. *)
Definition nextNode (preRound cumulativeTime : Z) (zero : bool) (n : WaitSlashingNode)
    : WaitSlashingNode :=
  let n := slideWindow preRound cumulativeTime n in
  if zero then markZero preRound n else n.

(** The number of flags among the first [number]. *)
Definition calcBitFunc (countBit number : Z) : Z :=
  Z.of_nat (length (filter (λ i, Z.testbit countBit i = true) (seqZ 0 number))).

(** The window is full and has enough rounds without blocks. *)
Definition meetsPenalty (preRound cumulativeTime threshold : Z) (node : WaitSlashingNode)
    : bool :=
  (u16 (preRound - wsRound node + 1) =? cumulativeTime)
  && (threshold <=? calcBitFunc (wsCountBit node) cumulativeTime).

(** Remove the node at [index]; the index is the one the loop increments next. *)
Definition delFunc (nodeList : list WaitSlashingNode) (index : Z)
    : list WaitSlashingNode * Z :=
  let n := Z.of_nat (length nodeList) in
  let i := Z.to_nat index in
  if n =? 1 then ([], index)
  else if n - 1 =? index then (take i nodeList, index)
  else (take i nodeList ++ drop (S i) nodeList, index - 1).

(** ** Store *)

Definition getWaitSlashingNodeList : M World (list WaitSlashingNode) :=
  gets (λ w, default [] (waitList (slashStore (snapDB w)))).

Definition setWaitSlashingNodeList (l : list WaitSlashingNode) : M World unit :=
  db_put (λ d, set_slashStore d {| packAmounts := packAmounts (slashStore d);
                                   waitList := Some l |}).

Section slashing.
Context `{Env}.

Definition getPackAmount (blockNumber nodeId : Z) : M World Z :=
  gets (λ w, default 0
    (packAmounts (slashStore (snapDB w)) !! (CalculateRound ec blockNumber, nodeId))).

Definition set_packAmounts (f : gmap (Z * Z) Z → gmap (Z * Z) Z) : M World unit :=
  db_put (λ d, set_slashStore d {| packAmounts := f (packAmounts (slashStore d));
                                   waitList := waitList (slashStore d) |}).

(** One more block of [nodeId], which [parseNodeId] reads from the header. *)
Definition setPackAmount (blockNumber nodeId : Z) : M World unit :=
  value ← getPackAmount blockNumber nodeId;
  set_packAmounts (<[(CalculateRound ec blockNumber, nodeId) := u32 (value + 1)]>).

(** The records of the round before the previous one are dropped. *)
Definition switchEpoch (blockNumber : Z) : M World unit :=
  set_packAmounts (filter (λ p, p.1.1 ≠ u64 (CalculateRound ec blockNumber - 2))).

Definition GetPrePackAmount (blockNumber : Z) : M World (gmap Z Z) :=
  gets (λ w, list_to_map (omap (λ '((r, nodeId), amount),
    if r =? u64 (CalculateRound ec blockNumber - 1) then Some (nodeId, amount) else None)
    (map_to_list (packAmounts (slashStore (snapDB w)))))).

Definition calcCanTotalBalance (blockNumber : Z) (candidate : CandidateMutable) : Z :=
  let c := lazyCalcStakeAmount (CalculateEpoch ec blockNumber) candidate in
  Released c + RestrictingPlan c.

(** ** Rounds without blocks *)

(** A slash, if the window is full and has enough rounds without blocks. *)
Definition checkSlashing (irr : World) (blockNumber : Z) (node : WaitSlashingNode)
    (preRound cumulativeTime threshold : Z) : M World (option SlashNodeItem) :=
  if meetsPenalty preRound cumulativeTime threshold node then
    nodeAddr ← ask (NodeId2Addr (wsNodeId node));
    o ← get_opt (at_view irr (GetCanMutableStore nodeAddr));
    match o with
    | None => mret None
    | Some canMutable =>
        let totalBalance := calcCanTotalBalance blockNumber canMutable in
        blocksReward ← ask (GovernSlashBlocksReward blockNumber);
        slashAmount ← (if 0 <? blocksReward then
                         amount ← calcSlashBlockRewards blocksReward;
                         mret (if totalBalance <? amount then totalBalance else amount)
                       else mret 0);
        mret (Some {| snNodeId := wsNodeId node; snAmount := slashAmount;
                      SlashType := LowRatio; BenefitAddr := RewardManagerPoolAddr |})
    end
  else mret None.

(** What happens to one waiting node: it is dropped, kept, or slashed. *)
Inductive waitVerdict :=
  | Dropped
  | Kept (node : WaitSlashingNode)
  | Slashed (item : SlashNodeItem).

Definition judgeNode (irr : World) (blockNumber preRound cumulativeTime threshold : Z)
    (isProduced : option bool) (node : WaitSlashingNode) : M World waitVerdict :=
  isDelete ← (if bool_decide (isProduced = Some true) then mret true
              else amount ← getPackAmount blockNumber (wsNodeId node); mret (0 <? amount));
  if (isDelete : bool) then mret Dropped
  else
    let node := nextNode preRound cumulativeTime (bool_decide (isProduced = Some false))
                  node in
    if wsCountBit node =? 0 then mret Dropped
    else
      o ← checkSlashing irr blockNumber node preRound cumulativeTime threshold;
      mret (match o with Some item => Slashed item | None => Kept node end).

(** [for index := 0; index < len(list); index++] with removals on the way: the
    list, the validators not yet judged, and the slashes. *)
Fixpoint waitLoop (fuel : nat) (irr : World)
    (blockNumber preRound cumulativeTime threshold : Z) (nodeList : list WaitSlashingNode)
    (index : Z) (validatorMap : gmap Z bool) (slashQueue : list SlashNodeItem)
    : M World (list WaitSlashingNode * gmap Z bool * list SlashNodeItem) :=
  match fuel with
  | O => mret (nodeList, validatorMap, slashQueue)
  | S fuel =>
      if index <? Z.of_nat (length nodeList) then
        match nodeList !! Z.to_nat index with
        | None => panic
        | Some node =>
            let isProduced := validatorMap !! wsNodeId node in
            let validatorMap := delete (wsNodeId node) validatorMap in
            verdict ← judgeNode irr blockNumber preRound cumulativeTime threshold
                        isProduced node;
            let '(nodeList, index, slashQueue) :=
              match verdict with
              | Dropped => let '(l, i) := delFunc nodeList index in (l, i, slashQueue)
              | Kept node => (<[Z.to_nat index := node]> nodeList, index, slashQueue)
              | Slashed item =>
                  let '(l, i) := delFunc nodeList index in (l, i, slashQueue ++ [item])
              end in
            waitLoop fuel irr blockNumber preRound cumulativeTime threshold nodeList
              (index + 1) validatorMap slashQueue
        end
      else mret (nodeList, validatorMap, slashQueue)
  end.

(** Validators without blocks that were not waiting yet. *)
Fixpoint newLoop (irr : World) (blockNumber preRound cumulativeTime threshold : Z)
    (validatorMap : gmap Z bool) (queue : list Validator)
    (nodeList : list WaitSlashingNode) (slashQueue : list SlashNodeItem)
    : M World (list WaitSlashingNode * list SlashNodeItem) :=
  match queue with
  | [] => mret (nodeList, slashQueue)
  | v :: queue =>
      if bool_decide (validatorMap !! NodeId v = Some false) then
        let node := {| wsNodeId := NodeId v; wsRound := preRound; wsCountBit := 1 |} in
        o ← checkSlashing irr blockNumber node preRound cumulativeTime threshold;
        match o with
        | Some item =>
            newLoop irr blockNumber preRound cumulativeTime threshold validatorMap queue
              nodeList (slashQueue ++ [item])
        | None =>
            newLoop irr blockNumber preRound cumulativeTime threshold validatorMap queue
              (nodeList ++ [node]) slashQueue
        end
      else newLoop irr blockNumber preRound cumulativeTime threshold validatorMap queue
             nodeList slashQueue
  end.

Definition zeroProduceProcess (irr : World) (blockNumber : Z)
    (validatorMap : gmap Z bool) (validatorQueue : list Validator)
    : M World (list SlashNodeItem) :=
  nodeList ← getWaitSlashingNodeList;
  threshold ← ask (GovernZeroProduceNumberThreshold blockNumber);
  cumulativeTime ← ask (GovernZeroProduceCumulativeTime blockNumber);
  let preRound := u64 (CalculateRound ec blockNumber - 1) in
  '(nodeList, validatorMap, slashQueue) ←
    waitLoop (length nodeList) irr blockNumber preRound cumulativeTime threshold
      nodeList 0 validatorMap [];
  '(nodeList, slashQueue) ←
    newLoop irr blockNumber preRound cumulativeTime threshold validatorMap validatorQueue
      nodeList slashQueue;
  setWaitSlashingNodeList nodeList ≫= λ _,
  mret slashQueue.

(** [irr] and [parent] are the irreversible view and that of the parent block;
    [producer] is the node that made the block. *)
Definition SlashingBeginBlock (irr parent : World) (blockNumber : Z)
    (producer : outcome Z) : M World unit :=
  (if IsBeginOfConsensus ec blockNumber && (1 <? blockNumber)
   then switchEpoch blockNumber else mret tt) ≫= λ _,
  nodeId ← ask producer;
  setPackAmount blockNumber nodeId ≫= λ _,
  if (ConsensusSize ec <? blockNumber) && IsElection ec blockNumber then
    result ← at_view parent (GetPrePackAmount blockNumber);
    preRoundVal ← at_view irr (getPreValList ec blockNumber);
    if GetCurrentActiveVersion =? 0 then fail GenericError
    else
      let validatorMap := foldl (λ m v,
        <[NodeId v := 0 <? default 0 (result !! NodeId v)]> m) ∅ (vaArr preRoundVal) in
      slashQueue ← zeroProduceProcess irr blockNumber validatorMap (vaArr preRoundVal);
      match slashQueue with
      | [] => mret tt
      | _ => SlashCandidates blockNumber slashQueue
      end
  else mret tt.

(** ** Reported double signing *)

Definition checkRoundValidatorAddr (targetBlockNumber addr : Z) : M World bool :=
  addrList ← LoadRoundValidatorAddrs (CalculateRound ec targetBlockNumber);
  mret (bool_decide (addr ∈ addrList)).

(** The evidence is not older than the governed number of epochs. *)
Definition checkEvidenceAge (blockNumber : Z) (evidence : Evidence) : M World unit :=
  let evidenceEpoch := CalculateEpoch ec (evBlockNumber evidence) in
  let blocksOfEpoch := CalcBlocksEachEpoch ec in
  let invalidNum := u64 (evidenceEpoch * blocksOfEpoch) in
  if invalidNum <? blockNumber then
    evidenceAge ← ask (GovernMaxEvidenceAge blockNumber);
    if u64 (blocksOfEpoch * evidenceAge) <? blockNumber - invalidNum
    then fail ErrIntervalTooLong else mret tt
  else mret tt.

(** The reported node: its address and base record, checked.  A stored key has
    passed [ParseBlsPubKey], and two keys have the same serialisation iff they are
    the same. *)
Definition checkReported (evidence : Evidence) (caller : Z) : M World (Z * CandidateBase) :=
  canAddr ← match NodeId2Addr (evNodeID evidence) with
            | Ok a => mret a
            | Err _ => fail ErrDuplicateSignVerify
            | Panic => panic
            end;
  canBase ← or_else (GetCanBaseStore canAddr) ErrGetCandidate;
  if caller =? StakingAddress canBase then fail ErrSameAddr
  else if negb (cbNodeId canBase =? evNodeID evidence) then fail ErrNodeIdMismatch
  else if negb (cbBlsPubKey canBase =? evBlsPubKey evidence) then fail ErrBlsPubKeyMismatch
  else
    found ← or_else (checkRoundValidatorAddr (evBlockNumber evidence) canAddr)
              ErrDuplicateSignVerify;
    if negb found then fail ErrNotValidator
    else mret (canAddr, canBase).

(** The two parts of the fine: for the reporter and for the reward pool. *)
Definition duplicateSignItems (nodeId totalBalance fraction rewardFraction caller : Z)
    : list SlashNodeItem :=
  let slashAmount := calcAmountByRate totalBalance fraction TenThousandDenominator in
  let toCallerAmount := calcAmountByRate slashAmount rewardFraction HundredDenominator in
  [{| snNodeId := nodeId; snAmount := toCallerAmount; SlashType := DuplicateSign;
      BenefitAddr := caller |};
   {| snNodeId := nodeId; snAmount := slashAmount - toCallerAmount;
      SlashType := DuplicateSign; BenefitAddr := RewardManagerPoolAddr |}].

Definition Slash (evidence : Evidence) (blockNumber caller txHash : Z) : M World unit :=
  if negb (evValid evidence) then fail ErrDuplicateSignVerify
  else if blockNumber <? evBlockNumber evidence then fail ErrBlockNumberTooHigh
  else
    checkEvidenceAge blockNumber evidence ≫= λ _,
    o ← gets (λ w, getSlashTxHash (evNodeID evidence) (evBlockNumber evidence)
                     (evType evidence) (stateDB w));
    match o with
    | Some _ => fail ErrSlashingExist
    | None =>
        '(canAddr, canBase) ← checkReported evidence caller;
        canMutable ← or_else (GetCanMutableStore canAddr) ErrGetCandidate;
        fraction ← ask (GovernSlashFractionDuplicateSign blockNumber);
        rewardFraction ← ask (GovernDuplicateSignReportReward blockNumber);
        let totalBalance := calcCanTotalBalance blockNumber canMutable in
        or_else (SlashCandidates blockNumber
          (duplicateSignItems (cbNodeId canBase) totalBalance fraction rewardFraction
             caller)) ErrSlashingFail ≫= λ _,
        on_state (modify (putSlashTxHash (evNodeID evidence) (evBlockNumber evidence)
                            (evType evidence) txHash))
    end.
End slashing.
