(* ===== verification/SlashingProofs.v ===== *)
(** * Who is slashed, how often and for how much

    The theorems about Slashing: the bit window of a waiting node records
    exactly its rounds without blocks, the loop that removes nodes while it
    walks the list judges every node once, and reported double signing is
    punished once, by the governed fraction. *)

From S2P Require Import Prelude Xcom Xutil StateDB Restricting RestrictingProofs Keys.
From S2P Require Import StakingTypes StakingDB RewardPer ValidatorLists Staking.
From S2P Require Import StakingSlash StakingProofs StakingSlashProofs StakingContract.
From S2P Require Import StakingContractProofs Reward RewardProofs Slashing.

(** ** The window *)

(** The rounds without blocks that a record stands for. *)
Definition zeroRounds (n : WaitSlashingNode) (r : Z) : Prop :=
  wsRound n <= r ∧ Z.testbit (wsCountBit n) (r - wsRound n) = true.

(** The first flag is set: a record starts with a round without a block. *)
Record node_wf (n : WaitSlashingNode) : Prop := {
  wf_round : in_u64 (wsRound n);
  wf_bits : 0 < wsCountBit n < 2 ^ 64;
  wf_odd : Z.odd (wsCountBit n) = true }.

Lemma land_1_odd x : negb (Z.land x 1 =? 0) = Z.odd x.
Proof.
  rewrite <- Z.bit0_odd. change 1 with (Z.ones 1). rewrite Z.land_ones by lia.
  rewrite <- Z.bit0_mod. by destruct (Z.testbit x 0).
Qed.

Lemma zeroRounds_shift id round bits r :
  Z.odd bits = false →
  zeroRounds {| wsNodeId := id; wsRound := round + 1; wsCountBit := Z.shiftr bits 1 |} r
  ↔ zeroRounds {| wsNodeId := id; wsRound := round; wsCountBit := bits |} r.
Proof.
  intros Ho. unfold zeroRounds; cbn [wsRound wsCountBit]. split; intros [H1 H2].
  - rewrite Z.shiftr_spec in H2 by lia. split; [lia|].
    replace (r - round) with (r - (round + 1) + 1) by lia. done.
  - assert (r ≠ round) by (intros ->; rewrite Z.sub_diag, Z.bit0_odd in H2; congruence).
    split; [lia|]. rewrite Z.shiftr_spec by lia.
    replace (r - (round + 1) + 1) with (r - round) by lia. done.
Qed.

(** Aligning keeps the rounds and makes the first flag set; 64 steps are enough
    for 64 flags. *)
Lemma alignBits_spec id fuel round bits :
  0 < bits < 2 ^ Z.of_nat fuel → 0 <= round → round + Z.of_nat fuel <= 2 ^ 64 →
  let '(round', bits') := alignBits fuel round bits in
  let n := {| wsNodeId := id; wsRound := round; wsCountBit := bits |} in
  let n' := {| wsNodeId := id; wsRound := round'; wsCountBit := bits' |} in
  round <= round' ∧ 0 < bits' <= bits ∧ Z.odd bits' = true
  ∧ ∀ r, zeroRounds n' r ↔ zeroRounds n r.
Proof.
  revert round bits. induction fuel as [|fuel IH]; intros round bits Hb Hr Hf; cbn [alignBits].
  { cbn in Hb. lia. }
  rewrite land_1_odd. destruct (Z.odd bits) eqn:Ho; [split_and!; [lia..|done|done]|].
  pose proof (Z.div2_odd bits) as Hd. rewrite Ho in Hd. cbn [Z.b2z] in Hd.
  rewrite <- Z.div2_spec. destruct (Z.eqb_spec (Z.div2 bits) 0); [lia|].
  rewrite Nat2Z.inj_succ, Z.pow_succ_r in Hb by lia.
  destruct fuel as [|fuel']; [cbn in Hb; lia|]. set (fuel := S fuel') in *.
  rewrite u64_small by (unfold in_u64; lia).
  specialize (IH (round + 1) (Z.div2 bits)).
  destruct (alignBits fuel (round + 1) (Z.div2 bits)) as [r' b'].
  destruct IH as (? & ? & ? & Hz); [lia..|].
  split_and!; [lia..|done|]. intros r0. rewrite Hz, Z.div2_spec. by apply zeroRounds_shift.
Qed.

(** Shifting the flags forgets the first [k] rounds. *)
Lemma zeroRounds_drop n k r :
  0 <= k →
  zeroRounds {| wsNodeId := wsNodeId n; wsRound := wsRound n + k;
                wsCountBit := Z.shiftr (wsCountBit n) k |} r
  ↔ wsRound n + k <= r ∧ zeroRounds n r.
Proof.
  intros Hk. unfold zeroRounds; cbn [wsRound wsCountBit].
  split; [intros [H1 H2]|intros (H1 & H2 & H3)].
  - rewrite Z.shiftr_spec in H2 by lia. split_and!; [lia..|].
    by replace (r - wsRound n) with (r - (wsRound n + k) + k) by lia.
  - split; [lia|]. rewrite Z.shiftr_spec by lia.
    by replace (r - (wsRound n + k) + k) with (r - wsRound n) by lia.
Qed.

Lemma zeroRounds_first id round bits :
  Z.odd bits = true →
  zeroRounds {| wsNodeId := id; wsRound := round; wsCountBit := bits |} round.
Proof. intros Ho. split; [done|]. cbn. by rewrite Z.sub_diag, Z.bit0_odd. Qed.

Lemma shiftr_u64 b k : 0 <= b < 2 ^ 64 → 0 <= k → 0 <= Z.shiftr b k < 2 ^ 64.
Proof.
  intros Hb Hk. split; [apply Z.shiftr_nonneg; lia|].
  rewrite Z.shiftr_div_pow2 by lia. pose proof (Z.pow_pos_nonneg 2 k).
  apply Z.div_lt_upper_bound; nia.
Qed.

(** Sliding forgets exactly the rounds before the window of [T] rounds that ends
    with [p]. *)
Lemma slideWindow_spec p T n :
  node_wf n → 1 <= T <= 64 → wsRound n < p < 2 ^ 63 → p - wsRound n < 2 ^ 16 - 1 →
  (∀ r, zeroRounds n r → r < p) →
  let n' := slideWindow p T n in
  (∀ r, zeroRounds n' r ↔ p + 1 - T <= r ∧ zeroRounds n r)
  ∧ 0 <= wsCountBit n' < 2 ^ 64 ∧ 0 <= wsRound n'
  ∧ (wsCountBit n' ≠ 0 → Z.odd (wsCountBit n') = true ∧ p + 1 - T <= wsRound n' < p).
Proof.
  intros [Hr Hb Ho] HT Hp Hd Hz. unfold in_u64 in Hr. cbn zeta. unfold slideWindow.
  rewrite (u16_small (p - wsRound n)) by (unfold in_u16; lia).
  destruct (Z.leb_spec T (p - wsRound n)) as [Hle|Hle].
  2: { split_and!; [|lia|lia|lia|intros _; split_and!; [done|lia|lia]].
       intros r. split; [|tauto]. intros Hr'. split; [|done]. destruct Hr'. lia. }
  rewrite u16_small by (unfold in_u16; lia).
  set (k := p - wsRound n + 1 - T).
  pose proof (λ r, zeroRounds_drop n k r ltac:(lia)) as Hk.
  pose proof (shiftr_u64 (wsCountBit n) k ltac:(lia) ltac:(lia)) as Hb'.
  replace (wsRound n + k) with (p + 1 - T) in * by lia.
  set (b := Z.shiftr (wsCountBit n) k) in *.
  destruct (Z.ltb_spec 0 b) as [Hpos|Hzero].
  - rewrite u64_small by (unfold in_u64; lia).
    pose proof (alignBits_spec (wsNodeId n) 64 (p + 1 - T) b) as Ha.
    destruct (alignBits 64 (p + 1 - T) b) as [r' b'].
    destruct Ha as (H1 & H2 & H3 & H4); [lia..|].
    pose proof (zeroRounds_first (wsNodeId n) r' b' H3) as Hf.
    apply H4, Hk in Hf as [_ ?%Hz].
    cbn [wsRound wsCountBit]. split_and!; [|lia|lia|lia|intros _; split_and!; [done|lia|lia]].
    intros r. by rewrite H4, Hk.
  - assert (b = 0) as Hb0 by lia. rewrite Hb0 in *. cbn [wsRound wsCountBit].
    split_and!; [|lia..]. intros r. rewrite <- Hk.
    unfold zeroRounds; cbn [wsRound wsCountBit]. rewrite !Z.bits_0. split; intros [_ ?]; done.
Qed.

Lemma testbit_shl64 d i : 0 <= d < 64 → 0 <= i → Z.testbit (shl64 d) i = (i =? d).
Proof.
  intros Hd Hi. unfold shl64. destruct (Z.ltb_spec d 64); [|lia].
  rewrite Z.pow2_bits_eqb by lia. apply Z.eqb_sym.
Qed.

(** Marking adds the round [p]. *)
Lemma markZero_spec p n r :
  0 <= wsRound n → wsRound n <= p < wsRound n + 64 ∨ wsCountBit n = 0 → 0 <= p < 2 ^ 63 →
  zeroRounds (markZero p n) r ↔ zeroRounds n r ∨ r = p.
Proof.
  intros Hr0 Hr Hp. unfold markZero, zeroRounds.
  destruct (Z.eqb_spec (wsCountBit n) 0) as [H0|H0]; cbn [wsRound wsCountBit].
  - rewrite H0, Z.bits_0. split.
    + intros [H1 H2]. right.
      destruct (Z.eq_dec (r - p) 0); [lia|]. rewrite (Z.bits_above_log2 1) in H2; cbn; lia.
    + intros [[_ ?]| ->]; [done|]. by rewrite Z.sub_diag.
  - destruct Hr as [Hr|]; [|done]. rewrite u64_small by (unfold in_u64; lia).
    rewrite Z.lor_spec, orb_true_iff. split.
    + intros (H1 & [H2|H2]); [auto|]. rewrite testbit_shl64 in H2 by lia. right. lia.
    + intros [[H1 H2]| ->]; [auto|]. split; [lia|]. right.
      rewrite testbit_shl64 by lia. lia.
Qed.

(** The number of rounds [p + 1 - T .. p] that satisfy a boolean predicate. *)
Definition rounds_in (p T : Z) (f : Z → bool) : Z :=
  Z.of_nat (length (filter (λ r, f r = true) (seqZ (p + 1 - T) T))).

Definition isZeroRound (n : WaitSlashingNode) (r : Z) : bool :=
  (wsRound n <=? r) && Z.testbit (wsCountBit n) (r - wsRound n).

Lemma isZeroRound_spec n r : isZeroRound n r = true ↔ zeroRounds n r.
Proof. unfold isZeroRound, zeroRounds. by rewrite andb_true_iff, Z.leb_le. Qed.

Lemma length_filter_fmap {A B} (P : B → bool) (f : A → B) l :
  length (filter (λ b, P b = true) (f <$> l)) = length (filter (λ a, P (f a) = true) l).
Proof.
  induction l as [|a l IH]; [done|]. rewrite fmap_cons, !filter_cons.
  destruct (decide _); cbn; congruence.
Qed.

Lemma rounds_in_ext p T f g :
  (∀ r, p + 1 - T <= r <= p → f r = g r) → rounds_in p T f = rounds_in p T g.
Proof.
  intros Hfg. unfold rounds_in. f_equal.
  assert (∀ r, r ∈ seqZ (p + 1 - T) T → f r = g r) as Hin
    by (intros r ?%elem_of_seqZ; apply Hfg; lia).
  induction (seqZ (p + 1 - T) T) as [|r l IH]; [done|].
  rewrite !filter_cons, (Hin r) by set_solver.
  destruct (decide (g r = true)); cbn; rewrite IH by set_solver; done.
Qed.

(** When the record starts with the first round of the window, the flags counted
    are the rounds of the window. *)
Lemma calcBitFunc_window n p T :
  wsRound n = p + 1 - T →
  calcBitFunc (wsCountBit n) T = rounds_in p T (isZeroRound n).
Proof.
  intros Hr. unfold calcBitFunc, rounds_in. rewrite <- Hr.
  replace (seqZ (wsRound n) T) with (Z.add (wsRound n) <$> seqZ 0 T)
    by (rewrite fmap_add_seqZ; f_equal; lia).
  rewrite length_filter_fmap. do 2 f_equal. apply list_filter_iff. intros i.
  unfold isZeroRound. replace (wsRound n + i - wsRound n) with i by lia.
  destruct (Z.leb_spec (wsRound n) (wsRound n + i)); [done|].
  rewrite Z.testbit_neg_r by lia. done.
Qed.

(** The record of a node through one round, as [judgeNode] and the loop over the
    new validators without blocks make it. *)
Definition trackRound (T p : Z) (zero : bool) (o : option WaitSlashingNode)
    : option WaitSlashingNode :=
  match o with
  | None => if zero then Some {| wsNodeId := 0; wsRound := p; wsCountBit := 1 |} else None
  | Some n => let n := nextNode p T zero n in if wsCountBit n =? 0 then None else Some n
  end.

(** The record through consecutive rounds from [p] on. *)
Fixpoint trackRounds (T p : Z) (history : list bool) (o : option WaitSlashingNode)
    : option WaitSlashingNode :=
  match history with
  | [] => o
  | zero :: history => trackRounds T (p + 1) history (trackRound T p zero o)
  end.

(** The record before the round [p] agrees with the rounds of [zero]. *)
Definition tracks (T p : Z) (zero : Z → bool) (o : option WaitSlashingNode) : Prop :=
  match o with
  | None => ∀ r, p - T <= r → zero r = false
  | Some n =>
      node_wf n ∧ p - T <= wsRound n < p
      ∧ ∀ r, zeroRounds n r ↔ p - T <= r ∧ zero r = true
  end.

Lemma Zlor_bounds a b : 0 <= a < 2 ^ 64 → 0 <= b < 2 ^ 64 → 0 <= Z.lor a b < 2 ^ 64.
Proof.
  intros Ha Hb. split; [apply Z.lor_nonneg; lia|].
  assert (0 <= Z.lor a b) by (apply Z.lor_nonneg; lia).
  destruct (Z.eq_dec (Z.lor a b) 0) as [->|]; [lia|].
  apply Z.log2_lt_pow2; [lia|]. rewrite Z.log2_lor by lia.
  destruct (Z.eq_dec a 0) as [->|], (Z.eq_dec b 0) as [->|]; cbn;
    repeat match goal with
    | |- context [Z.log2 ?x] => is_var x; assert (Z.log2 x < 64)
        by (apply Z.log2_lt_pow2; lia); generalize dependent (Z.log2 x); intros
    end; lia.
Qed.

Lemma markZero_wf p n :
  0 <= wsCountBit n < 2 ^ 64 → 0 <= wsRound n → 0 <= p < 2 ^ 63 →
  (wsCountBit n ≠ 0 → Z.odd (wsCountBit n) = true ∧ wsRound n < p < wsRound n + 64) →
  node_wf (markZero p n).
Proof.
  intros Hb Hr Hp Hn. unfold markZero.
  destruct (Z.eqb_spec (wsCountBit n) 0) as [|H0]; [by split; unfold in_u64; cbn; lia|].
  destruct (Hn H0) as [Ho Hd]. rewrite u64_small by (unfold in_u64; lia).
  assert (0 <= shl64 (p - wsRound n) < 2 ^ 64).
  { unfold shl64. destruct (Z.ltb_spec (p - wsRound n) 64); [|lia].
    split; [apply Z.pow_nonneg; lia|]. apply Z.pow_lt_mono_r; lia. }
  pose proof (Zlor_bounds (wsCountBit n) (shl64 (p - wsRound n)) Hb ltac:(lia)).
  split; unfold in_u64; cbn [wsRound wsCountBit]; [lia| |].
  - split; [|lia]. enough (Z.lor (wsCountBit n) (shl64 (p - wsRound n)) ≠ 0) by lia.
    rewrite Z.lor_eq_0_iff. tauto.
  - by rewrite <- Z.bit0_odd, Z.lor_spec, Z.bit0_odd, Ho.
Qed.

Lemma zeroRounds_new id p r :
  zeroRounds {| wsNodeId := id; wsRound := p; wsCountBit := 1 |} r ↔ r = p.
Proof.
  unfold zeroRounds; cbn [wsRound wsCountBit]. split.
  - intros [H1 H2]. destruct (Z.eq_dec (r - p) 0); [lia|].
    rewrite (Z.bits_above_log2 1) in H2; cbn; lia.
  - intros ->. by rewrite Z.sub_diag.
Qed.

(** The record that the code keeps, and the rounds it may forget. *)
Lemma nextNode_spec p T zero n :
  node_wf n → 1 <= T <= 64 → p - T <= wsRound n < p → p < 2 ^ 63 →
  (∀ r, zeroRounds n r → r < p) →
  let n' := nextNode p T zero n in
  (∀ r, zeroRounds n' r ↔ (p + 1 - T <= r ∧ zeroRounds n r) ∨ (zero = true ∧ r = p))
  ∧ (wsCountBit n' ≠ 0 → node_wf n' ∧ p + 1 - T <= wsRound n' <= p).
Proof.
  intros Hn HT Hp Hp' Hz. pose proof (wf_round n Hn) as Hr. unfold in_u64 in Hr.
  destruct (slideWindow_spec p T n) as (Hs & Hb & Hr' & Hn'); [done|lia..|done|].
  cbn zeta. unfold nextNode. destruct zero.
  - split.
    + intros r. rewrite markZero_spec, Hs; [intuition|lia| |lia].
      destruct (Z.eq_dec (wsCountBit (slideWindow p T n)) 0) as [|H0]; [auto|].
      destruct (Hn' H0). left; lia.
    + intros _. split.
      * apply markZero_wf; [lia..|]. intros H0. destruct (Hn' H0). split; [done|lia].
      * unfold markZero. destruct (Z.eqb_spec (wsCountBit (slideWindow p T n)) 0) as [|H0];
          cbn [wsRound]; [lia|]. destruct (Hn' H0). lia.
  - split; [intros r; rewrite Hs; intuition congruence|]. intros H0.
    destruct (Hn' H0). split; [|lia]. split; [unfold in_u64; lia|lia|done].
Qed.

Lemma trackRound_tracks T p z zero o :
  1 <= T <= 64 → 0 <= p < 2 ^ 63 → (∀ r, zero r = true → r < p) → tracks T p zero o →
  tracks T (p + 1) (λ r, if r =? p then z else zero r) (trackRound T p z o).
Proof.
  intros HT Hp Hz. destruct o as [n|]; cbn [tracks trackRound].
  - intros (Hn & Hr & Hzn).
    destruct (nextNode_spec p T z n Hn HT Hr) as [Hs Hw];
      [lia|by intros r [_ ?%Hz]%Hzn|].
    assert (Hstep : ∀ r, zeroRounds (nextNode p T z n) r
      ↔ p + 1 - T <= r ∧ (if r =? p then z else zero r) = true).
    { intros r. rewrite Hs, Hzn. destruct (Z.eqb_spec r p) as [->|Hne].
      - split; [|intros [_ ->]; auto]. intros [(? & ? & ?%Hz)|[-> _]]; [lia|]. split; [lia|done].
      - split; [intros [(? & _ & ?)|[_ ?]]; [auto|done]|]. intros [? ?]. left. split_and!; lia || done. }
    destruct (Z.eqb_spec (wsCountBit (nextNode p T z n)) 0) as [H0|H0]; cbn [tracks].
    + intros r Hr'. apply not_true_is_false. intros Ht.
      destruct (proj2 (Hstep r)) as [_ Hbit]; [split; [lia|done]|].
      rewrite H0, Z.bits_0 in Hbit. done.
    + destruct (Hw H0). split_and!; [done|lia..|done].
  - intros Hnone. destruct z; cbn [tracks].
    + split_and!; [split; unfold in_u64; cbn; [lia|lia|done]|cbn; lia..|].
      intros r. rewrite zeroRounds_new. destruct (Z.eqb_spec r p) as [->|Hne]; [intuition lia|].
      split; [done|]. intros [? ?]. rewrite Hnone in *; [done|lia].
    + intros r Hr. destruct (r =? p); [done|]. apply Hnone. lia.
Qed.

Lemma tracks_ext T p zero zero' o :
  (∀ r, zero r = zero' r) → tracks T p zero o → tracks T p zero' o.
Proof.
  intros He. destruct o as [n|]; cbn [tracks].
  - intros (? & ? & Hz). split_and!; [done|lia..|]. intros r. by rewrite Hz, He.
  - intros Hz r Hr. rewrite <- He. auto.
Qed.

(** The round [r] of a history that starts with the round [p] had no block. *)
Definition zeroAt (p : Z) (history : list bool) (r : Z) : bool :=
  (p <=? r) && default false (history !! Z.to_nat (r - p)).

Lemma zeroAt_cons p z history r :
  zeroAt p (z :: history) r
  = if p + 1 <=? r then zeroAt (p + 1) history r else if r =? p then z else false.
Proof.
  unfold zeroAt. destruct (Z.leb_spec (p + 1) r) as [Hr|Hr].
  - rewrite (proj2 (Z.leb_le p r)) by lia.
    replace (Z.to_nat (r - p)) with (S (Z.to_nat (r - (p + 1)))) by lia. done.
  - destruct (Z.eqb_spec r p) as [->|]; [by rewrite Z.leb_refl, Z.sub_diag|].
    by rewrite (proj2 (Z.leb_gt p r)) by lia.
Qed.

Lemma trackRounds_tracks T history p zero o :
  1 <= T <= 64 → 0 <= p → p + Z.of_nat (length history) < 2 ^ 63 →
  (∀ r, zero r = true → r < p) → tracks T p zero o →
  tracks T (p + Z.of_nat (length history))
    (λ r, if p <=? r then zeroAt p history r else zero r) (trackRounds T p history o).
Proof.
  intros HT. revert p zero o. induction history as [|z history IH]; intros p zero o Hp Hl Hz Ho.
  - rewrite Z.add_0_r. eapply tracks_ext, Ho. intros r. cbn.
    destruct (Z.leb_spec p r); [|done]. unfold zeroAt. rewrite lookup_nil, andb_false_r.
    apply not_true_is_false. intros ?%Hz. lia.
  - cbn [trackRounds length] in *. rewrite Nat2Z.inj_succ in *.
    apply (trackRound_tracks T p z) in Ho; [|lia|lia|done].
    apply IH in Ho; [|lia|lia|intros r; destruct (Z.eqb_spec r p); [lia|intros ?%Hz; lia]].
    replace (p + Z.succ (Z.of_nat (length history)))
      with (p + 1 + Z.of_nat (length history)) by lia.
    eapply tracks_ext, Ho. intros r. cbn. rewrite zeroAt_cons.
    destruct (Z.leb_spec (p + 1) r), (Z.leb_spec p r), (Z.eqb_spec r p); done || lia.
Qed.



(** ** The loop over the waiting nodes *)

Section wait_loop.
Context `{Env} (irr : World) (blockNumber preRound cumulativeTime threshold : Z).

(** What the loop means: every waiting node is judged once, in the order of the
    list; the nodes kept stay in that order. *)
Fixpoint judgeAll (todo : list WaitSlashingNode) (validatorMap : gmap Z bool)
    : M World (list WaitSlashingNode * gmap Z bool * list SlashNodeItem) :=
  match todo with
  | [] => mret ([], validatorMap, [])
  | node :: todo =>
      verdict ← judgeNode irr blockNumber preRound cumulativeTime threshold
                  (validatorMap !! wsNodeId node) node;
      '(kept, validatorMap, slashed) ← judgeAll todo (delete (wsNodeId node) validatorMap);
      mret (match verdict with
            | Dropped => (kept, validatorMap, slashed)
            | Kept node => (node :: kept, validatorMap, slashed)
            | Slashed item => (kept, validatorMap, item :: slashed)
            end)
  end.

(** The loop is at the first node not yet judged, or has passed the end. *)
Definition at_todo (kept todo : list WaitSlashingNode) (index : Z) : Prop :=
  index = Z.of_nat (length kept) ∨ todo = [] ∧ Z.of_nat (length kept) <= index.

Lemma delFunc_spec kept node todo :
  ∃ i, delFunc (kept ++ node :: todo) (Z.of_nat (length kept)) = (kept ++ todo, i)
       ∧ at_todo kept todo (i + 1).
Proof.
  unfold delFunc, at_todo. rewrite length_app, Nat2Z.id. cbn [length].
  destruct (Z.eqb_spec (Z.of_nat (length kept + S (length todo))) 1) as [H1|H1].
  { destruct kept, todo; cbn in *; try lia. eexists. split; [done|]. right. split; [done|lia]. }
  destruct (Z.eqb_spec (Z.of_nat (length kept + S (length todo)) - 1)
              (Z.of_nat (length kept))) as [H2|H2].
  - destruct todo; cbn in *; [|lia]. rewrite app_nil_r, take_app_length.
    eexists. split; [done|]. right. split; [done|lia].
  - rewrite take_app_length, drop_app_ge by lia.
    replace (S (length kept) - length kept)%nat with 1%nat by lia.
    eexists. split; [done|]. left. lia.
Qed.

Lemma insert_at_todo (kept : list WaitSlashingNode) (node node' : WaitSlashingNode) todo :
  <[Z.to_nat (Z.of_nat (length kept)) := node']> (kept ++ node :: todo)
  = (kept ++ [node']) ++ todo.
Proof.
  rewrite Nat2Z.id, insert_app_r_alt by lia.
  rewrite Nat.sub_diag, <- app_assoc. done.
Qed.

Lemma waitLoop_from fuel kept todo index m slashed w :
  (length todo <= fuel)%nat → at_todo kept todo index →
  waitLoop fuel irr blockNumber preRound cumulativeTime threshold (kept ++ todo) index m
    slashed w
  = ('(kept', m', slashed') ← judgeAll todo m;
     mret (kept ++ kept', m', slashed ++ slashed')) w.
Proof.
  revert fuel kept index m slashed w.
  induction todo as [|node todo IH]; intros fuel kept index m slashed w Hf Ht.
  - cbn [judgeAll]. rewrite bind_ret_l, !app_nil_r.
    destruct fuel as [|fuel]; [done|]. cbn [waitLoop].
    destruct (Z.ltb_spec index (Z.of_nat (length kept))); [|done].
    destruct Ht as [?|[_ ?]]; lia.
  - destruct Ht as [->|[? _]]; [|done]. destruct fuel as [|fuel]; [cbn in Hf; lia|].
    cbn [waitLoop judgeAll]. rewrite length_app. cbn [length] in *.
    rewrite (proj2 (Z.ltb_lt _ _)) by lia.
    assert (Hnode : (kept ++ node :: todo) !! Z.to_nat (Z.of_nat (length kept)) = Some node)
      by (rewrite Nat2Z.id; by apply list_lookup_middle).
    rewrite Hnode, bind_assoc.
    apply bind_ext_run. intros verdict w'. rewrite bind_assoc.
    destruct (delFunc_spec kept node todo) as (i & Hdel & Hi).
    destruct verdict as [|node'|item]; rewrite ?Hdel, ?insert_at_todo.
    + rewrite IH by (done || lia). apply bind_ext_run. by intros [[??]?] ?.
    + rewrite IH by (lia || (left; rewrite length_app; cbn; lia)).
      apply bind_ext_run. intros [[??]?] ?. rewrite <- app_assoc. done.
    + rewrite IH by (done || lia). apply bind_ext_run. intros [[??]?] ?.
      rewrite <- app_assoc. done.
Qed.

(** C24: The loop of [zeroProduceProcess], which removes nodes from the list it
    walks and steps its index back, judges every waiting node exactly once and in
    order, for any list: no node is skipped or judged twice, no access is out of
    range, and the kept nodes stay in order. *)
Theorem waitLoop_refines l m w :
  waitLoop (length l) irr blockNumber preRound cumulativeTime threshold l 0 m [] w
  = judgeAll l m w.
Proof.
  pose proof (waitLoop_from (length l) [] l 0 m [] w) as Hl. cbn in Hl. rewrite Hl.
  - unfold mbind, M_bind. by destruct (judgeAll l m w) as [[[[??]?]| |] ?].
  - lia.
  - left. done.
Qed.
End wait_loop.

(** ** Reported double signing *)

Lemma or_else_inv {A} (m : M World A) e w a w' :
  or_else m e w = (Ok a, w') → m w = (Ok a, w').
Proof.
  unfold or_else, try. run_eval. destruct (m w) as [[?|?|] ?]; [|done..]. by intros [= -> ->].
Qed.

Lemma lazyCalcStakeAmount_settled epoch c :
  hesitating c = 0 → 0 <= ReleasedHes c → 0 <= RestrictingPlanHes c →
  lazyCalcStakeAmount epoch c = c.
Proof.
  unfold hesitating. intros Hh H1 H2. unfold lazyCalcStakeAmount.
  rewrite (proj2 (Z.ltb_ge 0 (ReleasedHes c))) by lia.
  rewrite (proj2 (Z.ltb_ge 0 (RestrictingPlanHes c))) by lia. by destruct (_ <? _).
Qed.

Section report.
Context `{Env}.

Lemma checkEvidenceAge_reads blockNumber ev : reads (checkEvidenceAge blockNumber ev).
Proof. unfold checkEvidenceAge. reads. Qed.

Lemma checkReported_inv ev caller w a base w' :
  checkReported ev caller w = (Ok (a, base), w') →
  w' = w ∧ a = slashAddr (evNodeID ev) ∧ cbNodeId base = evNodeID ev
  ∧ caller ≠ StakingAddress base ∧ canBases (snapDB w) !! a = Some base.
Proof.
  unfold checkReported, slashAddr, checkRoundValidatorAddr.
  destruct (NodeId2Addr (evNodeID ev)) as [a'|e|]; [|done..]. rewrite bind_ret_l.
  intros (b & w1 & Hb%or_else_inv & Hrun)%bind_Ok_inv.
  apply db_get_inv in Hb as [-> Hb].
  destruct (Z.eqb_spec caller (StakingAddress b)); [done|].
  destruct (Z.eqb_spec (cbNodeId b) (evNodeID ev)); [|done].
  destruct (_ =? evBlsPubKey ev); [|done]. cbn [negb] in Hrun.
  apply bind_Ok_inv in Hrun as (found & w2 & Hf%or_else_inv & Hrun).
  apply bind_Ok_inv in Hf as (l & w3 & [-> _]%db_get_inv & [_ <-]%pair_Ok_eq).
  destruct found; [|done]. by injection Hrun as <- <- <-.
Qed.

(** Evidence on record is refused. *)
Lemma Slash_recorded ev blockNumber caller txHash w h u w' :
  getSlashTxHash (evNodeID ev) (evBlockNumber ev) (evType ev) (stateDB w) = Some h →
  Slash ev blockNumber caller txHash w = (Ok u, w') → False.
Proof.
  intros Hh. unfold Slash. destruct (negb _); [done|]. destruct (_ <? _); [done|].
  intros (u1 & w1 & ->%checkEvidenceAge_reads & Hrun)%bind_Ok_inv.
  apply bind_Ok_inv in Hrun as (o & w2 & [<- <-]%pair_Ok_eq & Hrun).
  rewrite Hh in Hrun. done.
Qed.

(** Two slashes of one node for double signing take both amounts. *)
Lemma SlashCandidates_double blockNumber nodeId x y b1 b2 w u w' :
  SlashCandidates blockNumber
    [{| snNodeId := nodeId; snAmount := x; SlashType := DuplicateSign; BenefitAddr := b1 |};
     {| snNodeId := nodeId; snAmount := y; SlashType := DuplicateSign; BenefitAddr := b2 |}] w
    = (Ok u, w') →
  staking_ok (snapDB w) →
  let a := slashAddr nodeId in
  grows w w' ∧ ∃ c c',
    canMutables (snapDB w) !! a = Some c
    ∧ canMutables (snapDB w') = <[a := c']> (canMutables (snapDB w))
    ∧ effective c' = effective (lazyCalcStakeAmount (CalculateEpoch ec blockNumber) c) - x - y
    ∧ hesitating c' = 0 ∧ cmShares c' = 0
    ∧ IsInvalid (Status c') = true ∧ IsDuplicateSign (Status c') = true.
Proof.
  intros Hrun Hok a. split; [by eapply SlashCandidates_grows|]. unfold SlashCandidates in Hrun.
  apply bind_Ok_inv in Hrun as ([inv gov] & w3 & Hloop & Hrun).
  assert (Hq : canMutables (snapDB w') = canMutables (snapDB w3)).
  { eapply mv_mutables. revert Hrun. eapply (λ q : quiet _, q w3 u w'). destruct inv; [quiet|].
    apply quiet_bind; [apply removeFromVerifiers_quiet|intros _]. quiet. }
  cbn [slashLoop] in Hloop.
  apply bind_Ok_inv in Hloop as (r1 & w1 & H1 & Hloop).
  apply bind_Ok_inv in Hloop as (p1 & w2 & Hloop & Hr1).
  apply bind_Ok_inv in Hloop as (r2 & w4 & H2 & Hloop).
  apply bind_Ok_inv in Hloop as (p2 & w5 & Hr2 & Hr3).
  apply pair_Ok_eq in Hr2 as [<- <-], Hr3 as [<- <-]. 
  assert (w3 = w4) as -> by (by destruct r2; injection Hr1).
  apply toSlash_double_inv in H1 as (_ & Hg1 & c & c1 & Hc & Hm1 & E1 & F1 & _); [|done..].
  pose proof (gr_ok _ _ Hg1 Hok) as Hok1.
  apply toSlash_double_inv in H2 as (_ & Hg2 & c1' & c2 & Hc1 & Hm2 & E2 & F2 & G2 & _ & I2);
    [|done..].
  cbn [snNodeId snAmount] in *. fold a in Hc, Hm1, Hc1, Hm2.
  rewrite Hm1, lookup_insert_eq in Hc1. injection Hc1 as <-.
  exists c, c2. rewrite Hq, Hm2, Hm1, insert_insert_eq. enough (effective c2 = effective (lazyCalcStakeAmount (CalculateEpoch ec blockNumber) c) - x - y)
    by (split_and!; try done; apply I2).
  assert (mutable_encodable c1 = true) as Henc
    by (eapply staking_ok_mutable; [exact Hok1|by rewrite Hm1, lookup_insert_eq]).
  unfold mutable_encodable in Henc. bool_to_prop.
  rewrite E2, lazyCalcStakeAmount_settled by (done || lia). lia.
Qed.

(** C11: A report of double signing that succeeds fines the node the governed
    fraction (in ten-thousandths, rounded down) of its effective stake, returns
    its hesitating stake, clears its shares and marks it invalid for double
    signing; the staking contract stays solvent and no coins are made; the
    reporter is not the staking account; and the same double signature is never
    punished again. *)
Theorem Slash_spec ev blockNumber caller txHash w u w' :
  Slash ev blockNumber caller txHash w = (Ok u, w') → staking_ok (snapDB w) →
  let a := slashAddr (evNodeID ev) in
  grows w w' ∧ ∃ base c c' fraction,
    canBases (snapDB w) !! a = Some base ∧ caller ≠ StakingAddress base
    ∧ GovernSlashFractionDuplicateSign blockNumber = Ok fraction
    ∧ canMutables (snapDB w) !! a = Some c
    ∧ canMutables (snapDB w') = <[a := c']> (canMutables (snapDB w))
    ∧ effective c' = calcCanTotalBalance blockNumber c
                     - calcAmountByRate (calcCanTotalBalance blockNumber c) fraction 10000
    ∧ hesitating c' = 0 ∧ cmShares c' = 0
    ∧ IsInvalid (Status c') = true ∧ IsDuplicateSign (Status c') = true
    ∧ CheckDuplicateSign (evNodeID ev) (evBlockNumber ev) (evType ev) (stateDB w')
      = Some txHash
    ∧ ∀ ev2 blockNumber2 caller2 txHash2,
        evNodeID ev2 = evNodeID ev → evBlockNumber ev2 = evBlockNumber ev →
        evType ev2 = evType ev →
        (Slash ev2 blockNumber2 caller2 txHash2 w').1 ≠ Ok tt.
Proof.
  intros Hrun Hok a. unfold Slash in Hrun.
  destruct (negb _); [done|]. destruct (_ <? _); [done|].
  apply bind_Ok_inv in Hrun as (u1 & w1 & ->%checkEvidenceAge_reads & Hrun).
  apply bind_Ok_inv in Hrun as (o & w2 & [<- <-]%pair_Ok_eq & Hrun).
  destruct (getSlashTxHash _ _ _ _); [done|].
  apply bind_Ok_inv in Hrun as ([addr base] & w2 & Hrep & Hrun).
  apply checkReported_inv in Hrep as (-> & -> & Hid & Hcaller & Hb). fold a in Hb, Hrun.
  apply bind_Ok_inv in Hrun as (c & w2 & Hc%or_else_inv & Hrun).
  apply db_get_inv in Hc as [-> Hc].
  apply bind_Ok_inv in Hrun as (fraction & w2 & [Hf <-]%pair_equal_spec & Hrun).
  apply bind_Ok_inv in Hrun as (reward & w2 & [_ <-]%pair_equal_spec & Hrun).
  apply bind_Ok_inv in Hrun as (u2 & w2 & Hs%or_else_inv & Hrun).
  rewrite Hid in Hs. apply SlashCandidates_double in Hs as (Hg & c0 & c' & Hc0 & Hm & He); [|done].
  fold a in Hc0, Hm. assert (c0 = c) as -> by congruence.
  injection Hrun as _ <-.
  assert (Hrec : CheckDuplicateSign (evNodeID ev) (evBlockNumber ev) (evType ev)
    (putSlashTxHash (evNodeID ev) (evBlockNumber ev) (evType ev) txHash (stateDB w2))
    = Some txHash) by apply lookup_insert_eq.
  split.
  - destruct Hg. by split.
  - exists base, c, c', fraction. destruct He as (He & Hh & Hsh & Hst).
    assert (effective c' = calcCanTotalBalance blockNumber c
      - calcAmountByRate (calcCanTotalBalance blockNumber c) fraction 10000)
      by (rewrite He; unfold calcCanTotalBalance, effective, TenThousandDenominator; lia).
    repeat (split; [done || apply Hst|]).
    intros ev2 bn2 caller2 tx2 E1 E2 E3 Hok2.
    destruct (Slash ev2 _ _ _ _) as [r w4] eqn:Hrun2. cbn in Hok2. subst r.
    eapply Slash_recorded, Hrun2. rewrite E1, E2, E3. exact Hrec.
Qed.
End report.

(** *** A concrete report *)

Definition reportEvidence : Evidence :=
  {| evValid := true; evBlockNumber := 3; evNodeID := 7; evBlsPubKey := 7; evType := 1 |}.

Definition reportWorld : World :=
  {| stateDB := SetBalance StakingContractAddr 100020 emptyState;
     snapDB := set_epochVals (set_roundValAddrs
       (set_canMutables (set_canBases emptyDB (<[7 := demoBase]> ∅))
          (<[7 := set_stake 100000 20 0 0 (AddShares 99900 demoMutable)]> ∅))
       (<[CalculateRound (unitTestNetConfig []) 3 := [7]]> ∅) None)
       (Some [{| Start := 1; End_ := 40 |}])
       (<[(1, 40) := [demoValidator 7; demoValidator 8]]> ∅) |}.

Lemma reportWorld_ok : @staking_ok demoEnv (snapDB reportWorld).
Proof.
  split; [split|split].
  - by apply map_Forall_singleton.
  - by apply map_Forall_empty.
  - by apply map_Forall_singleton.
  - intros a. cbn. rewrite !lookup_insert_is_Some, !lookup_empty.
    intros [?|[_ []%is_Some_None]]; auto.
Defined.

Lemma Slash_spec_witness :
  let w' := (@Slash demoEnv reportEvidence 5 2001 77 reportWorld).2 in
  (∃ c', canMutables (snapDB w') !! 7 = Some c' ∧ effective c' = 99900 ∧ cmShares c' = 0)
  ∧ GetBalance (stateDB w') 2001 = 50
  ∧ (@Slash demoEnv reportEvidence 6 2002 78 w').1 ≠ Ok tt.
Proof.
  destruct (@Slash_spec demoEnv reportEvidence 5 2001 77 reportWorld tt
    (@Slash demoEnv reportEvidence 5 2001 77 reportWorld).2) as (_ & base & c & c' & fraction
    & _ & _ & Hf & Hc & Hm & He & _ & Hs & _ & _ & _ & Honce);
    [vm_compute; reflexivity|apply reportWorld_ok|].
  injection Hf as <-. vm_compute in Hc. injection Hc as <-.
  split; [|split; [vm_compute; reflexivity|by apply Honce]].
  exists c'. split; [by rewrite Hm|]. split; [|exact Hs]. rewrite He. vm_compute. reflexivity.
Defined.
