(* ===== verification/EvidenceProofs.v ===== *)
(** * How long evidence can be reported

    The record that reports of double signing are checked against: elections keep
    the validator addresses of a window of rounds (Election), and a report must be
    young enough (Slashing).  Together: which reports find their round on record. *)

From S2P Require Import Prelude Xcom Xutil StateDB Restricting RestrictingProofs Keys.
From S2P Require Import StakingTypes StakingDB RewardPer ValidatorLists Staking.
From S2P Require Import StakingSlash StakingProofs StakingSlashProofs Election ElectionProofs.
From S2P Require Import StakingContract StakingContractProofs Reward RewardProofs Slashing.
From S2P Require Import SlashingProofs.

Section evidence_window.
Context `{Henv : Env} (Hwf : ec_wf ec).
Context (age : Z) (Hage : 0 <= age < 2 ^ 20) (Hgov : ∀ n, GovernMaxEvidenceAge n = Ok age).

Local Abbreviation CS := (ConsensusSize ec).
Local Abbreviation ES := (EpochSize ec).

(** The rounds that are kept. *)
Definition keptRounds : Z := ES * (age + 1).

Definition firstBlock (r : Z) : Z := (r - 1) * CS + 1.

(** The elections store the validators of one round after the other. *)
Fixpoint storeRounds (r : Z) (arrs : list (list Validator)) : M World unit :=
  match arrs with
  | [] => mret tt
  | arr :: rest =>
      storeRoundValidatorAddrs ((r - 1) * CS - ElectionDistance ec) (firstBlock r) arr
        ≫= λ _, storeRounds (r + 1) rest
  end.

Lemma sizes : 4 <= CS ∧ 4 <= ES ∧ CS * ES < 2 ^ 38.
Proof using Hwf.
  pose proof (ec_wf_ConsensusSize_bounds ec Hwf) as Hc. unfold FloorMaxConsensusVals in Hc.
  pose proof (ec_wf_epoch_blocks ec Hwf) as [He ?]. destruct Hwf. lia.
Qed.

Lemma keptRounds_bounds : 4 <= keptRounds < 2 ^ 60.
Proof using Hwf Hage. unfold keptRounds. pose proof sizes. nia. Qed.

Lemma round_of_first r : 1 <= r → r * CS < block_bound → CalculateRound ec (firstBlock r) = r.
Proof using Hwf.
  intros Hr Hb. pose proof sizes. apply period_of_unique; unfold firstBlock; nia.
Qed.

Lemma epoch_of_first r :
  1 <= r → r * CS < block_bound →
  (age + 1 <? CalculateEpoch ec (firstBlock r)) = (keptRounds <? r).
Proof using Hwf Hage.
  intros Hr Hb. pose proof sizes. pose proof (ec_wf_epoch_blocks ec Hwf) as [He ?].
  assert (Hn : 1 <= firstBlock r < block_bound).
  { unfold firstBlock. assert (0 <= (r - 1) * CS) by (apply Z.mul_nonneg_nonneg; lia). lia. }
  assert (Hs : 1 < CalcBlocksEachEpoch ec) by lia.
  pose proof (period_of_bounds _ Hs _ Hn) as Hp.
  fold (CalculateEpoch ec (firstBlock r)) in Hp. rewrite He in Hp.
  set (e := CalculateEpoch ec (firstBlock r)) in *. unfold firstBlock, keptRounds in *.
  assert ((e - 1) * ES <= r - 1) by nia. assert (r - 1 < e * ES) by nia.
  apply eq_true_iff_eq. rewrite !Z.ltb_lt. nia.
Qed.

(** What is on record after the rounds up to [r] are stored. *)
Record window (arr : Z → option (list Validator)) (r : Z) (d : SnapshotDB) : Prop := {
  wd_rounds k : roundValAddrs d !! k
    = if (r - keptRounds <? k) && (k <=? r) then map NodeAddress <$> arr k else None;
  wd_boundary : roundAddrBoundary d = if keptRounds <? r then Some (r - keptRounds) else None }.

(** Storing one more round. *)
Definition stored_next (r : Z) (arr : list Validator) (d : SnapshotDB) : SnapshotDB :=
  if keptRounds <? r then
    set_roundValAddrs d
      (<[r := map NodeAddress arr]> (delete (r - keptRounds) (roundValAddrs d)))
      (Some (r - keptRounds))
  else set_roundValAddrs d (<[r := map NodeAddress arr]> (roundValAddrs d))
         (roundAddrBoundary d).

Lemma get_opt_run {A} (f : SnapshotDB → option A) w :
  get_opt (db_get f) w = (Ok (f (snapDB w)), w).
Proof. unfold get_opt, try, db_get. run_eval. by destruct (f (snapDB w)). Qed.

Lemma cleanRounds_one i w :
  cleanRounds 1 i (i - 1) i true w
  = (Ok tt, {| stateDB := stateDB w;
               snapDB := set_roundValAddrs (snapDB w) (delete i (roundValAddrs (snapDB w)))
                           (Some i) |}).
Proof. cbn [cleanRounds]. by rewrite (proj2 (Z.ltb_lt (i - 1) i)) by lia. Qed.

Lemma storeRound_run n r arr A w :
  1 <= r → r * CS < block_bound → window A (r - 1) (snapDB w) →
  storeRoundValidatorAddrs n (firstBlock r) arr w
  = (Ok tt, {| stateDB := stateDB w; snapDB := stored_next r arr (snapDB w) |}).
Proof using Hwf Hage Hgov.
  intros Hr Hb [_ Hbound]. pose proof keptRounds_bounds. pose proof sizes.
  assert (r < 2 ^ 60) by (unfold block_bound in Hb; nia).
  unfold storeRoundValidatorAddrs, stored_next, GetRoundAddrBoundary. cbv zeta.
  rewrite Hgov, round_of_first by done.
  rewrite (bind_Ok_run (ask (Ok age)) _ _ _ _ eq_refl).
  rewrite (u32_small (age + 1)) by (unfold in_u32; lia).
  rewrite epoch_of_first by done. fold keptRounds.
  rewrite (u64_small keptRounds) by (unfold in_u64; lia).
  destruct (Z.ltb_spec keptRounds r); [|done].
  rewrite (u64_small (r - keptRounds)), (u64_small (r - keptRounds - 1)) by (unfold in_u64; lia).
  erewrite bind_Ok_run; [|rewrite (bind_Ok_run _ _ _ _ _ (get_opt_run _ _)); cbv beta].
  2: { rewrite Hbound.
       replace (if _ =? 0 then _ else _) with (r - keptRounds - 1); [|].
       - replace (Z.to_nat _) with 1%nat by lia. apply cleanRounds_one.
       - destruct (Z.ltb_spec keptRounds (r - 1)); cbn; [|done].
         destruct (Z.eqb_spec (r - 1 - keptRounds) 0); lia. }
  done.
Qed.

Lemma window_next A r arr d :
  1 <= r → A r = Some arr → (∀ k, k <= 0 → A k = None) →
  window A (r - 1) d → window A r (stored_next r arr d).
Proof using Hwf Hage.
  intros Hr Ha H0 [Hw Hbound]. pose proof keptRounds_bounds. unfold stored_next.
  split.
  - intros k. destruct (Z.ltb_spec keptRounds r); cbn [roundValAddrs set_roundValAddrs];
      (destruct (decide (r = k)) as [<-|Hne];
        [rewrite lookup_insert_eq, Ha;
         by destruct (Z.ltb_spec (r - keptRounds) r), (Z.leb_spec r r); try lia|]);
      rewrite lookup_insert_ne by done.
    + destruct (decide (r - keptRounds = k)) as [<-|Hk].
      * rewrite lookup_delete_eq. destruct (Z.ltb_spec (r - keptRounds) (r - keptRounds)); [lia|done].
      * rewrite lookup_delete_ne, Hw by done.
        by destruct (Z.ltb_spec (r - keptRounds) k), (Z.ltb_spec (r - 1 - keptRounds) k),
          (Z.leb_spec k r), (Z.leb_spec k (r - 1)); try lia.
    + rewrite Hw. destruct (Z.ltb_spec (r - keptRounds) k), (Z.ltb_spec (r - 1 - keptRounds) k),
        (Z.leb_spec k r), (Z.leb_spec k (r - 1)); try lia; try done.
      cbn. rewrite (H0 k) by lia. done.
  - destruct (Z.ltb_spec keptRounds r); [done|]. cbn. rewrite Hbound.
    destruct (Z.ltb_spec keptRounds (r - 1)); [lia|done].
Qed.

(** The validators stored for round [r], when [arrs] are those of rounds 1, 2, ... *)
Definition ofRound (arrs : list (list Validator)) (r : Z) : option (list Validator) :=
  if 1 <=? r then arrs !! Z.to_nat (r - 1) else None.

Lemma storeRounds_window arrs done_ w :
  let r := Z.of_nat (length done_) in
  (r + Z.of_nat (length arrs)) * CS < block_bound →
  window (ofRound (done_ ++ arrs)) r (snapDB w) →
  ∃ w', storeRounds (r + 1) arrs w = (Ok tt, w')
    ∧ window (ofRound (done_ ++ arrs)) (r + Z.of_nat (length arrs)) (snapDB w').
Proof using Hwf Hage Hgov.
  revert done_ w. induction arrs as [|arr arrs IH]; intros done_ w r Hb Hw; cbn [storeRounds].
  - exists w. split; [done|]. cbn. by rewrite Z.add_0_r.
  - pose proof sizes. cbn [length] in Hb. set (A := ofRound _) in *.
    assert (Hw' : window A (r + 1 - 1) (snapDB w)) by (by replace (r + 1 - 1) with r by lia).
    assert (HA : A (r + 1) = Some arr).
    { unfold A, ofRound. rewrite (proj2 (Z.leb_le 1 (r + 1))) by lia.
      replace (Z.to_nat (r + 1 - 1)) with (length done_) by lia. by apply list_lookup_middle. }
    assert (Hr1 : 1 <= r + 1) by lia. assert (Hb1 : (r + 1) * CS < block_bound) by nia.
    rewrite (bind_Ok_run _ _ _ _ _ (storeRound_run _ _ arr A _ Hr1 Hb1 Hw')).
    destruct (IH (done_ ++ [arr]) {| stateDB := stateDB w; snapDB := stored_next (r + 1) arr (snapDB w) |})
      as (w2 & Hr & Hw2).
    + rewrite length_app. cbn. nia.
    + rewrite <- app_assoc. cbn [app snapDB].
      replace (Z.of_nat _) with (r + 1) by (rewrite length_app; cbn; lia).
      apply window_next; [lia|done| |done].
      intros k Hk. unfold ofRound. by rewrite (proj2 (Z.leb_gt 1 k)) by lia.
    + exists w2. rewrite length_app in Hr, Hw2. rewrite <- app_assoc in Hw2. cbn in Hw2.
      split; [rewrite <- Hr; f_equal; cbn; lia|].
      replace (r + _) with (Z.of_nat (length done_ + 1) + Z.of_nat (length arrs)) by (cbn; lia).
      exact Hw2.
Qed.

(** A report that passes the age check is from one of the last [age] epochs. *)
Lemma young_epoch ev m w u w' :
  1 <= evBlockNumber ev <= m → m < block_bound →
  checkEvidenceAge m ev w = (Ok u, w') →
  CalculateEpoch ec m <= CalculateEpoch ec (evBlockNumber ev) + age.
Proof using Hwf Hage Hgov.
  intros Hn Hm. pose proof sizes. pose proof (ec_wf_epoch_blocks ec Hwf) as [He Hbl].
  assert (Hs : 1 < CalcBlocksEachEpoch ec) by lia.
  assert (Hb1 : 1 <= evBlockNumber ev < block_bound) by lia.
  assert (Hb2 : 1 <= m < block_bound) by lia.
  pose proof (period_of_bounds _ Hs _ Hb1) as P1. pose proof (period_of_bounds _ Hs _ Hb2) as P2.
  unfold checkEvidenceAge. cbv zeta. fold (CalculateEpoch ec (evBlockNumber ev)) in P1.
  fold (CalculateEpoch ec m) in P2. set (e := CalculateEpoch ec (evBlockNumber ev)) in *.
  set (f := CalculateEpoch ec m) in *. set (s := CalcBlocksEachEpoch ec) in *.
  unfold block_bound in *.
  assert (0 <= e * s < 2 ^ 61) by lia. assert (0 <= s * age < 2 ^ 58) by nia.
  rewrite (u64_small (e * s)) by (unfold in_u64; lia).
  destruct (Z.ltb_spec (e * s) m); [|intros _; nia].
  rewrite Hgov, (bind_Ok_run (ask (Ok age)) _ _ _ _ eq_refl).
  rewrite (u64_small (s * age)) by (unfold in_u64; lia).
  destruct (Z.ltb_spec (s * age) (m - e * s)); [done|]. intros _. nia.
Qed.

(** Its round is among those kept, if round [r] is no later than the epoch of block
    [m]. *)
Lemma young_round ev m w u w' r :
  1 <= evBlockNumber ev <= m → m < block_bound →
  checkEvidenceAge m ev w = (Ok u, w') → r <= ES * CalculateEpoch ec m →
  1 <= CalculateRound ec (evBlockNumber ev)
  ∧ r - keptRounds < CalculateRound ec (evBlockNumber ev).
Proof using Hwf Hage Hgov.
  intros Hb Hm Hyoung%young_epoch Hr; [|done..]. pose proof sizes.
  pose proof (ec_wf_epoch_blocks ec Hwf) as [Heq Hbl].
  assert (Hs : 1 < CalcBlocksEachEpoch ec) by lia. assert (Hc : 1 < CS) by lia.
  assert (Hb1 : 1 <= evBlockNumber ev < block_bound) by lia.
  pose proof (period_of_bounds _ Hs _ Hb1) as P1. pose proof (period_of_bounds _ Hc _ Hb1) as P2.
  fold (CalculateEpoch ec (evBlockNumber ev)) in P1.
  fold (CalculateRound ec (evBlockNumber ev)) in P2. rewrite Heq in P1.
  set (k := CalculateRound ec (evBlockNumber ev)) in *.
  set (e := CalculateEpoch ec (evBlockNumber ev)) in *.
  assert ((e - 1) * ES < k) by nia. split; [nia|unfold keptRounds; nia].
Qed.

End evidence_window.

(** *** A concrete network *)

Lemma demo_wf : ec_wf (@ec demoEnv).
Proof. apply CheckEconomicModel_wf; [split; cbn; lia|by vm_compute]. Qed.


(** Two epochs of nine rounds, with node 7 validating in each round. *)
Definition twoEpochs : World :=
  (@storeRounds demoEnv 1 (replicate 18 [demoValidator 7])
     {| stateDB := stateDB reportWorld;
        snapDB := set_epochVals (set_roundValAddrs (snapDB reportWorld) ∅ None)
          (Some [{| Start := 361; End_ := 720 |}])
          (<[(361, 720) := [demoValidator 7; demoValidator 8]]> ∅) |}).2.

(** The election at block 700 stores round 19. *)
Definition afterElection : World :=
  (@storeRounds demoEnv 19 [[demoValidator 7]] twoEpochs).2.

(** The record of a round can go while evidence is still accepted: with an
    evidence age of one epoch, the evidence of block 3 (epoch 1) is punished when it
    is reported at block 699 (epoch 2); the election at block 700 drops round 1, and
    the same report at block 701 passes the age check but is answered as if the
    signatures were wrong. *)
Theorem evidence_dropped_early :
  (@Slash demoEnv reportEvidence 699 2001 77 twoEpochs).1 = Ok tt
  ∧ @checkEvidenceAge demoEnv 701 reportEvidence afterElection = (Ok tt, afterElection)
  ∧ (@Slash demoEnv reportEvidence 701 2001 77 afterElection).1 = Err ErrDuplicateSignVerify.
Proof. split_and!; vm_compute; reflexivity. Qed.
