(* ===== verification/GovTypes.v ===== *)
(** * Governance: data and strings (src/pos/gov)

    The proposals, votes, results and governed parameters of
    gov_types.go, proposals.go and gov_err.go, the records governance keeps
    ([GovStore]: those in the contract's storage and those in the snapshot
    database), and the parsing and printing of numbers and strings its records
    go through. *)

From stdpp Require Import pretty.
From Stdlib Require Import Ascii.
From S2P Require Import Prelude.

(** ** Errors (gov_err.go) *)

Definition ActiveVersionError := BizError 302001.
Definition VoteOptionError := BizError 302002.
Definition ProposalTypeError := BizError 302003.
Definition ProposalIDEmpty := BizError 302004.
Definition ProposalIDExist := BizError 302005.
Definition ProposalNotFound := BizError 302006.
Definition PIPIDEmpty := BizError 302007.
Definition PIPIDExist := BizError 302008.
Definition EndVotingRoundsTooSmall := BizError 302009.
Definition EndVotingRoundsTooLarge := BizError 302010.
Definition NewVersionError := BizError 302011.
Definition VotingVersionProposalExist := BizError 302012.
Definition PreActiveVersionProposalExist := BizError 302013.
Definition VotingCancelProposalExist := BizError 302014.
Definition TobeCanceledProposalNotFound := BizError 302015.
Definition TobeCanceledProposalTypeError := BizError 302016.
Definition TobeCanceledProposalNotAtVoting := BizError 302017.
Definition ProposerEmpty := BizError 302018.
Definition VerifierInfoNotFound := BizError 302019.
Definition VerifierStatusInvalid := BizError 302020.
Definition TxSenderDifferFromStaking := BizError 302021.
Definition TxSenderIsNotVerifier := BizError 302022.
Definition TxSenderIsNotCandidate := BizError 302023.
Definition VersionSignError := BizError 302024.
Definition VerifierNotUpgraded := BizError 302025.
Definition ProposalNotAtVoting := BizError 302026.
Definition VoteDuplicated := BizError 302027.
Definition DeclareVersionError := BizError 302028.
Definition NotifyStakingDeclaredVersionError := BizError 302029.
Definition TallyResultNotFound := BizError 302030.
Definition UnsupportedGovernParam := BizError 302031.
Definition VotingParamProposalExist := BizError 302032.
Definition ParamProposalIsSameValue := BizError 302034.

(** ** Proposals (proposals.go)

    The [Result] field of a proposal is never stored ([json:"-"]) and left out. *)

Definition RateCoefficient : Z := 10000.

(** [ProposalType] *)
Definition Text : Z := 1.
Definition Version : Z := 2.
Definition Param : Z := 3.
Definition Cancel : Z := 4.

(** [ProposalStatus] *)
Definition Voting : Z := 1.
Definition Pass : Z := 2.
Definition Failed : Z := 3.
Definition PreActive : Z := 4.
Definition Active : Z := 5.
Definition Canceled : Z := 6.

Definition StatusToString (status : Z) : string :=
  if status =? Voting then "Voting"
  else if status =? Pass then "Pass"
  else if status =? Failed then "Failed"
  else if status =? PreActive then "PreActive"
  else if status =? Active then "Active"
  else if status =? Canceled then "Canceled"
  else "".

(** [VoteOption] *)
Definition Yes : Z := 1.
Definition No : Z := 2.
Definition Abstention : Z := 3.

Definition ParseVoteOption (option : Z) : Z :=
  if option =? 1 then Yes
  else if option =? 2 then No
  else if option =? 3 then Abstention
  else Abstention.

Record TextProposal := {
  tpProposalID : Z;
  tpProposalType : Z;
  tpPIPID : string;
  tpSubmitBlock : Z;
  tpEndVotingBlock : Z;
  tpProposer : Z }.

Record VersionProposal := {
  vpProposalID : Z;
  vpProposalType : Z;
  vpPIPID : string;
  vpSubmitBlock : Z;
  vpEndVotingRounds : Z;
  vpEndVotingBlock : Z;
  vpProposer : Z;
  vpNewVersion : Z;
  vpActiveBlock : Z }.

Record CancelProposal := {
  cpProposalID : Z;
  cpProposalType : Z;
  cpPIPID : string;
  cpSubmitBlock : Z;
  cpEndVotingRounds : Z;
  cpEndVotingBlock : Z;
  cpProposer : Z;
  cpTobeCanceled : Z }.

Record ParamProposal := {
  ppProposalID : Z;
  ppProposalType : Z;
  ppPIPID : string;
  ppSubmitBlock : Z;
  ppEndVotingBlock : Z;
  ppProposer : Z;
  ppModule : string;
  ppName : string;
  ppNewValue : string }.

(** The interface [Proposal] and its four implementations. *)
Inductive Proposal :=
  | TextP (tp : TextProposal)
  | VersionP (vp : VersionProposal)
  | CancelP (cp : CancelProposal)
  | ParamP (pp : ParamProposal).

Definition GetProposalID (p : Proposal) : Z :=
  match p with
  | TextP p => tpProposalID p | VersionP p => vpProposalID p
  | CancelP p => cpProposalID p | ParamP p => ppProposalID p
  end.

Definition GetProposalType (p : Proposal) : Z :=
  match p with
  | TextP p => tpProposalType p | VersionP p => vpProposalType p
  | CancelP p => cpProposalType p | ParamP p => ppProposalType p
  end.

Definition GetPIPID (p : Proposal) : string :=
  match p with
  | TextP p => tpPIPID p | VersionP p => vpPIPID p
  | CancelP p => cpPIPID p | ParamP p => ppPIPID p
  end.

Definition GetSubmitBlock (p : Proposal) : Z :=
  match p with
  | TextP p => tpSubmitBlock p | VersionP p => vpSubmitBlock p
  | CancelP p => cpSubmitBlock p | ParamP p => ppSubmitBlock p
  end.

Definition GetEndVotingBlock (p : Proposal) : Z :=
  match p with
  | TextP p => tpEndVotingBlock p | VersionP p => vpEndVotingBlock p
  | CancelP p => cpEndVotingBlock p | ParamP p => ppEndVotingBlock p
  end.

Definition GetProposer (p : Proposal) : Z :=
  match p with
  | TextP p => tpProposer p | VersionP p => vpProposer p
  | CancelP p => cpProposer p | ParamP p => ppProposer p
  end.

(** ** Records (gov_types.go) *)

Record TallyResult := {
  trProposalID : Z;
  trYeas : Z;
  trNays : Z;
  trAbstentions : Z;
  trAccuVerifiers : Z;
  trStatus : Z;
  trCanceledBy : Z }.

Record VoteInfo := {
  viProposalID : Z;
  viVoteNodeID : Z;
  viVoteOption : Z }.

Record VoteValue := {
  VoteNodeID : Z;
  VoteOption : Z }.

Record ActiveVersionValue := {
  ActiveVersion : Z;
  avActiveBlock : Z }.

Record ParamItem := {
  piModule : string;
  piName : string;
  piDesc : string }.

Record ParamValue := {
  StaleValue : string;
  Value : string;
  pvActiveBlock : Z }.

Record GovernParam := {
  gpItem : ParamItem;
  gpValue : option ParamValue }.

(** ** The store

    The contract's storage holds the proposals, the results, the active versions
    and the PIP ids of the accepted proposals; the snapshot database the rest.
    The lists of ids and of verifiers decode to empty lists when they are
    missing; the two pre-active entries can be absent. *)

Record GovStore := {
  proposals : gmap Z Proposal;
  tallyResults : gmap Z TallyResult;
  activeVersions : list ActiveVersionValue;
  pipIDs : list string;
  votes : gmap Z (list VoteValue);
  votingIDs : list Z;
  endIDs : list Z;
  preActiveID : option Z;
  preActiveVersion : option Z;
  activeNodes : gmap Z (list Z);
  accuVerifiers : gmap Z (list Z);
  paramItems : list ParamItem;
  paramValues : gmap string ParamValue }.

Section setters.
Context (g : GovStore).

Definition set_proposals v := {| proposals := v; tallyResults := tallyResults g;
  activeVersions := activeVersions g; pipIDs := pipIDs g; votes := votes g;
  votingIDs := votingIDs g; endIDs := endIDs g; preActiveID := preActiveID g;
  preActiveVersion := preActiveVersion g; activeNodes := activeNodes g;
  accuVerifiers := accuVerifiers g; paramItems := paramItems g;
  paramValues := paramValues g |}.
Definition set_tallyResults v := {| proposals := proposals g; tallyResults := v;
  activeVersions := activeVersions g; pipIDs := pipIDs g; votes := votes g;
  votingIDs := votingIDs g; endIDs := endIDs g; preActiveID := preActiveID g;
  preActiveVersion := preActiveVersion g; activeNodes := activeNodes g;
  accuVerifiers := accuVerifiers g; paramItems := paramItems g;
  paramValues := paramValues g |}.
Definition set_activeVersions v := {| proposals := proposals g; tallyResults := tallyResults g;
  activeVersions := v; pipIDs := pipIDs g; votes := votes g;
  votingIDs := votingIDs g; endIDs := endIDs g; preActiveID := preActiveID g;
  preActiveVersion := preActiveVersion g; activeNodes := activeNodes g;
  accuVerifiers := accuVerifiers g; paramItems := paramItems g;
  paramValues := paramValues g |}.
Definition set_pipIDs v := {| proposals := proposals g; tallyResults := tallyResults g;
  activeVersions := activeVersions g; pipIDs := v; votes := votes g;
  votingIDs := votingIDs g; endIDs := endIDs g; preActiveID := preActiveID g;
  preActiveVersion := preActiveVersion g; activeNodes := activeNodes g;
  accuVerifiers := accuVerifiers g; paramItems := paramItems g;
  paramValues := paramValues g |}.
Definition set_votes v := {| proposals := proposals g; tallyResults := tallyResults g;
  activeVersions := activeVersions g; pipIDs := pipIDs g; votes := v;
  votingIDs := votingIDs g; endIDs := endIDs g; preActiveID := preActiveID g;
  preActiveVersion := preActiveVersion g; activeNodes := activeNodes g;
  accuVerifiers := accuVerifiers g; paramItems := paramItems g;
  paramValues := paramValues g |}.
Definition set_votingIDs v := {| proposals := proposals g; tallyResults := tallyResults g;
  activeVersions := activeVersions g; pipIDs := pipIDs g; votes := votes g;
  votingIDs := v; endIDs := endIDs g; preActiveID := preActiveID g;
  preActiveVersion := preActiveVersion g; activeNodes := activeNodes g;
  accuVerifiers := accuVerifiers g; paramItems := paramItems g;
  paramValues := paramValues g |}.
Definition set_endIDs v := {| proposals := proposals g; tallyResults := tallyResults g;
  activeVersions := activeVersions g; pipIDs := pipIDs g; votes := votes g;
  votingIDs := votingIDs g; endIDs := v; preActiveID := preActiveID g;
  preActiveVersion := preActiveVersion g; activeNodes := activeNodes g;
  accuVerifiers := accuVerifiers g; paramItems := paramItems g;
  paramValues := paramValues g |}.
Definition set_preActiveID v := {| proposals := proposals g; tallyResults := tallyResults g;
  activeVersions := activeVersions g; pipIDs := pipIDs g; votes := votes g;
  votingIDs := votingIDs g; endIDs := endIDs g; preActiveID := v;
  preActiveVersion := preActiveVersion g; activeNodes := activeNodes g;
  accuVerifiers := accuVerifiers g; paramItems := paramItems g;
  paramValues := paramValues g |}.
Definition set_preActiveVersion v := {| proposals := proposals g; tallyResults := tallyResults g;
  activeVersions := activeVersions g; pipIDs := pipIDs g; votes := votes g;
  votingIDs := votingIDs g; endIDs := endIDs g; preActiveID := preActiveID g;
  preActiveVersion := v; activeNodes := activeNodes g;
  accuVerifiers := accuVerifiers g; paramItems := paramItems g;
  paramValues := paramValues g |}.
Definition set_activeNodes v := {| proposals := proposals g; tallyResults := tallyResults g;
  activeVersions := activeVersions g; pipIDs := pipIDs g; votes := votes g;
  votingIDs := votingIDs g; endIDs := endIDs g; preActiveID := preActiveID g;
  preActiveVersion := preActiveVersion g; activeNodes := v;
  accuVerifiers := accuVerifiers g; paramItems := paramItems g;
  paramValues := paramValues g |}.
Definition set_accuVerifiers v := {| proposals := proposals g; tallyResults := tallyResults g;
  activeVersions := activeVersions g; pipIDs := pipIDs g; votes := votes g;
  votingIDs := votingIDs g; endIDs := endIDs g; preActiveID := preActiveID g;
  preActiveVersion := preActiveVersion g; activeNodes := activeNodes g;
  accuVerifiers := v; paramItems := paramItems g;
  paramValues := paramValues g |}.
Definition set_params items values := {| proposals := proposals g;
  tallyResults := tallyResults g; activeVersions := activeVersions g; pipIDs := pipIDs g;
  votes := votes g; votingIDs := votingIDs g; endIDs := endIDs g;
  preActiveID := preActiveID g; preActiveVersion := preActiveVersion g;
  activeNodes := activeNodes g; accuVerifiers := accuVerifiers g; paramItems := items;
  paramValues := values |}.
End setters.

(** ** Decimal numbers: [strconv.Atoi], [strconv.Itoa], [big.Int.SetString] *)

Definition digitOf (a : Ascii.ascii) : option Z :=
  let n := Z.of_nat (Ascii.nat_of_ascii a) in
  if (48 <=? n) && (n <=? 57) then Some (n - 48) else None.

Fixpoint digitsFrom (acc : Z) (s : string) : option Z :=
  match s with
  | EmptyString => Some acc
  | String a s => d ← digitOf a; digitsFrom (acc * 10 + d) s
  end.

(** At least one digit. *)
Definition digits (s : string) : option Z :=
  match s with EmptyString => None | _ => digitsFrom 0 s end.

(** An optional sign and the digits, base 10. *)
Definition SetString (s : string) : option Z :=
  match s with
  | String "-"%char s => n ← digits s; Some (- n)
  | String "+"%char s => digits s
  | _ => digits s
  end.

(** A number that does not fit in an [int] is a range error. *)
Definition Atoi (s : string) : outcome Z :=
  match SetString s with
  | Some n => if (- 2 ^ 63 <=? n) && (n <? 2 ^ 63) then Ok n else Err GenericError
  | None => Err GenericError
  end.

Definition Itoa (n : Z) : string := pretty n.

(** ** JSON strings

    [encoding/json] writes the replacement character for each byte that is not
    part of a UTF-8 sequence, so such a string is not read back as it was. *)

Definition byteOf (a : Ascii.ascii) : Z := Z.of_nat (Ascii.nat_of_ascii a).
Definition within (lo hi : Z) (a : Ascii.ascii) : bool := (lo <=? byteOf a) && (byteOf a <=? hi).
Definition cont := within 0x80 0xBF.

Definition rune1 (a : Ascii.ascii) : bool := within 0 0x7F a.
Definition rune2 (a b : Ascii.ascii) : bool := within 0xC2 0xDF a && cont b.
Definition rune3 (a b c : Ascii.ascii) : bool :=
  (within 0xE0 0xE0 a && within 0xA0 0xBF b || within 0xE1 0xEC a && cont b
   || within 0xED 0xED a && within 0x80 0x9F b || within 0xEE 0xEF a && cont b)
  && cont c.
Definition rune4 (a b c d : Ascii.ascii) : bool :=
  (within 0xF0 0xF0 a && within 0x90 0xBF b || within 0xF1 0xF3 a && cont b
   || within 0xF4 0xF4 a && within 0x80 0x8F b)
  && cont c && cont d.

(** U+FFFD *)
Definition replacement : string :=
  String (Ascii.ascii_of_nat 239) (String (Ascii.ascii_of_nat 191)
    (String (Ascii.ascii_of_nat 189) "")).

(** What a string is after it was stored as JSON and read again. *)
Fixpoint jsonString (s : string) : string :=
  match s with
  | EmptyString => ""
  | String a s1 =>
      if rune1 a then String a (jsonString s1)
      else match s1 with
      | String b s2 =>
          if rune2 a b then String a (String b (jsonString s2))
          else match s2 with
          | String c s3 =>
              if rune3 a b c then String a (String b (String c (jsonString s3)))
              else match s3 with
              | String d s4 =>
                  if rune4 a b c d
                  then String a (String b (String c (String d (jsonString s4))))
                  else replacement +:+ jsonString s1
              | EmptyString => replacement +:+ jsonString s1
              end
          | EmptyString => replacement +:+ jsonString s1
          end
      | EmptyString => replacement +:+ jsonString s1
      end
  end.

(** A proposal after it was stored. *)
Definition jsonProposal (p : Proposal) : Proposal :=
  match p with
  | TextP p => TextP {| tpProposalID := tpProposalID p; tpProposalType := tpProposalType p;
      tpPIPID := jsonString (tpPIPID p); tpSubmitBlock := tpSubmitBlock p;
      tpEndVotingBlock := tpEndVotingBlock p; tpProposer := tpProposer p |}
  | VersionP p => VersionP {| vpProposalID := vpProposalID p;
      vpProposalType := vpProposalType p; vpPIPID := jsonString (vpPIPID p);
      vpSubmitBlock := vpSubmitBlock p; vpEndVotingRounds := vpEndVotingRounds p;
      vpEndVotingBlock := vpEndVotingBlock p; vpProposer := vpProposer p;
      vpNewVersion := vpNewVersion p; vpActiveBlock := vpActiveBlock p |}
  | CancelP p => CancelP {| cpProposalID := cpProposalID p;
      cpProposalType := cpProposalType p; cpPIPID := jsonString (cpPIPID p);
      cpSubmitBlock := cpSubmitBlock p; cpEndVotingRounds := cpEndVotingRounds p;
      cpEndVotingBlock := cpEndVotingBlock p; cpProposer := cpProposer p;
      cpTobeCanceled := cpTobeCanceled p |}
  | ParamP p => ParamP {| ppProposalID := ppProposalID p;
      ppProposalType := ppProposalType p; ppPIPID := jsonString (ppPIPID p);
      ppSubmitBlock := ppSubmitBlock p; ppEndVotingBlock := ppEndVotingBlock p;
      ppProposer := ppProposer p; ppModule := jsonString (ppModule p);
      ppName := jsonString (ppName p); ppNewValue := jsonString (ppNewValue p) |}
  end.

(** ** Numbers are read back as they were written *)

Lemma digitOf_pretty_N_char (x : N) :
  (x < 10)%N → digitOf (pretty_N_char x) = Some (Z.of_N x).
Proof.
  intros Hx. assert (∃ n, (n < 10)%nat ∧ x = N.of_nat n) as (n & Hn & ->).
  { exists (N.to_nat x). split; lia. }
  do 10 (destruct n as [|n]; [done|]). lia.
Qed.

Lemma digitsFrom_pretty_N_go x s :
  digitsFrom 0 (pretty_N_go x s) = digitsFrom (Z.of_N x) s.
Proof.
  revert s. induction (N.lt_wf_0 x) as [x _ IH]; intros s.
  destruct (decide (0 < x)%N) as [Hx|Hx].
  - rewrite pretty_N_go_step by done. rewrite IH by (apply N.div_lt; lia).
    cbn [digitsFrom]. rewrite digitOf_pretty_N_char by (apply N.mod_lt; lia).
    cbn. f_equal. pose proof (N.div_mod x 10 ltac:(lia)). lia.
  - replace x with 0%N by lia. by rewrite pretty_N_go_0.
Qed.

Lemma pretty_N_go_head x s :
  (0 < x)%N → ∃ a d s', pretty_N_go x s = String a s' ∧ digitOf a = Some d.
Proof.
  revert s. induction (N.lt_wf_0 x) as [x _ IH]; intros s Hx.
  rewrite pretty_N_go_step by done. destruct (decide (0 < x / 10)%N) as [Hd|Hd].
  - apply IH; [apply N.div_lt; lia|done].
  - rewrite (proj1 (N.le_0_r _) (proj1 (N.nlt_ge _ _) Hd)), pretty_N_go_0.
    do 3 eexists. split; [done|]. apply digitOf_pretty_N_char, N.mod_lt. lia.
Qed.

Lemma digits_pretty_N (x : N) : digits (pretty x) = Some (Z.of_N x).
Proof.
  unfold pretty, pretty_N. case_decide as Hx; [by subst|].
  destruct (pretty_N_go_head x "" ltac:(lia)) as (a & d & s & Hs & _).
  pose proof (digitsFrom_pretty_N_go x "") as Hd. rewrite Hs in *. exact Hd.
Qed.

Lemma SetString_digit a d s :
  digitOf a = Some d → SetString (String a s) = digits (String a s).
Proof.
  intros Ha. unfold SetString. destruct a as [[] [] [] [] [] [] [] []]; done.
Qed.

Lemma SetString_pretty_N (x : N) : SetString (pretty x) = Some (Z.of_N x).
Proof.
  rewrite <- digits_pretty_N. unfold pretty, pretty_N. case_decide as Hx; [by subst|].
  destruct (pretty_N_go_head x "" ltac:(lia)) as (a & d & s & Hs & Ha).
  rewrite Hs. by apply (SetString_digit a d).
Qed.

Lemma SetString_Itoa (n : Z) : SetString (Itoa n) = Some n.
Proof.
  unfold Itoa, pretty, pretty_Z. destruct n as [|p|p].
  - done.
  - apply (SetString_pretty_N (N.pos p)).
  - pose proof (digits_pretty_N (N.pos p)) as Hp. unfold SetString.
    change (from_option (λ n, Some (- n)) None (digits (pretty (N.pos p)))
            = Some (Z.neg p)).
    by rewrite Hp.
Qed.

Lemma Atoi_Itoa (n : Z) : in_i64 n → Atoi (Itoa n) = Ok n.
Proof.
  intros [H1 H2]. unfold Atoi. rewrite SetString_Itoa.
  by rewrite (proj2 (Z.leb_le _ _) H1), (proj2 (Z.ltb_lt _ _) H2).
Qed.

(** ** ASCII strings pass through JSON unchanged *)

Fixpoint all_chars (f : Ascii.ascii → bool) (s : string) : bool :=
  match s with EmptyString => true | String a s => f a && all_chars f s end.

Lemma jsonString_ascii s : all_chars rune1 s = true → jsonString s = s.
Proof.
  induction s as [|a s IH]; cbn; [done|]. intros [Ha Hs]%andb_true_iff.
  rewrite Ha. by rewrite IH.
Qed.

Lemma digitOf_rune1 a d : digitOf a = Some d → rune1 a = true.
Proof.
  unfold digitOf, rune1, within, byteOf. intros H. case_match eqn:E; [|done].
  bool_to_prop. apply andb_true_iff. split; apply Z.leb_le; lia.
Qed.

Lemma digitsFrom_ascii acc s n : digitsFrom acc s = Some n → all_chars rune1 s = true.
Proof.
  revert acc. induction s as [|a s IH]; intros acc; cbn; [done|].
  destruct (digitOf a) as [d|] eqn:Ha; cbn; [|done].
  intros H. rewrite (digitOf_rune1 a d Ha). by rewrite (IH _ H).
Qed.

Lemma digits_ascii s n : digits s = Some n → all_chars rune1 s = true.
Proof. destruct s as [|a s]; [done|]. apply digitsFrom_ascii. Qed.

Lemma SetString_ascii s n : SetString s = Some n → all_chars rune1 s = true.
Proof.
  destruct s as [|a s]; [done|].
  destruct (digitOf a) as [d|] eqn:Ha.
  { rewrite (SetString_digit a d s Ha). apply digits_ascii. }
  assert (∀ t, digits (String a t) = None) as Hn by (intros t; cbn; by rewrite Ha).
  destruct (decide (a = "-"%char)) as [->|Hm].
  { cbn. intros H. destruct (digits s) eqn:E; [|done]. by apply digits_ascii in E. }
  destruct (decide (a = "+"%char)) as [->|Hp]; [cbn; apply digits_ascii|].
  unfold SetString. specialize (Hn s).
  destruct a as [[] [] [] [] [] [] [] []]; try done; rewrite ?Hn; done.
Qed.
