(* ===== verification/GovDB.v ===== *)
(** * Governance: the store (src/pos/gov/gov_snapdb.go, gov_db.go)

    Reads and updates of the governance records.  A record decodes to the value
    that was encoded, so a read has no error; what JSON does to strings is in
    [jsonString].  [remove] works on a slice in place while it ranges over it and
    is modelled with its backing array. *)

From S2P Require Import Prelude Xutil GovTypes.

(** ** The id lists (gov_snapdb.go) *)

Definition appendNew (id : Z) (l : list Z) : list Z :=
  if InHashList id l then l else l ++ [id].

(** [addProposalByKey] for the two lists of ids. *)
Definition addVotingID (id : Z) (g : GovStore) : GovStore :=
  set_votingIDs g (appendNew id (votingIDs g)).
Definition addEndID (id : Z) (g : GovStore) : GovStore :=
  set_endIDs g (appendNew id (endIDs g)).

(** The zero hash is "none". *)
Definition getPreActiveProposalID (g : GovStore) : Z := default 0 (preActiveID g).

Definition getPreActiveVersion (g : GovStore) : Z := default 0 (preActiveVersion g).

Definition setPreActiveVersion (version : Z) (g : GovStore) : GovStore :=
  set_preActiveVersion g (Some version).

Definition delPreActiveVersion (g : GovStore) : GovStore := set_preActiveVersion g None.

Definition getAllProposalIDList (g : GovStore) : list Z :=
  votingIDs g
  ++ (if getPreActiveProposalID g =? 0 then [] else [getPreActiveProposalID g])
  ++ endIDs g.

Definition getActiveNodeList (proposalId : Z) (g : GovStore) : list Z :=
  default [] (activeNodes g !! proposalId).

Definition addActiveNode (node proposalId : Z) (g : GovStore) : GovStore :=
  let nodes := getActiveNodeList proposalId g in
  if InNodeIDList node nodes then g
  else set_activeNodes g (<[proposalId := nodes ++ [node]]> (activeNodes g)).

Definition deleteActiveNodeList (proposalId : Z) (g : GovStore) : GovStore :=
  set_activeNodes g (delete proposalId (activeNodes g)).

Definition getAccuVerifiers (proposalId : Z) (g : GovStore) : list Z :=
  default [] (accuVerifiers g !! proposalId).

(** The nodes that were not recorded before; the map of known nodes is not
    updated on the way. *)
Definition addAccuVerifiers (proposalId : Z) (nodes : list Z) (g : GovStore) : GovStore :=
  let accu := getAccuVerifiers proposalId g in
  set_accuVerifiers g
    (<[proposalId := accu ++ filter (λ n, n ∉ accu) nodes]> (accuVerifiers g)).

Definition delAccuVerifiers (proposalId : Z) (g : GovStore) : GovStore :=
  set_accuVerifiers g (delete proposalId (accuVerifiers g)).

(** ** Governed parameters (gov_snapdb.go) *)

(** [KeyParamValue] *)
Definition KeyParamValue (module name : string) : string := module +:+ "/" +:+ name.

Definition listGovernParamItem (module : string) (g : GovStore) : list ParamItem :=
  if (String.length module =? 0)%nat then paramItems g
  else filter (λ item, piModule item = module) (paramItems g).

Definition addGovernParam (module name desc : string) (paramValue : ParamValue)
    (g : GovStore) : GovStore :=
  set_params g
    (listGovernParamItem "" g ++ [{| piModule := module; piName := name; piDesc := desc |}])
    (<[KeyParamValue module name := paramValue]> (paramValues g)).

Definition findGovernParamValue (module name : string) (g : GovStore) : option ParamValue :=
  paramValues g !! KeyParamValue module name.

Definition updateGovernParamValue (module name newValue : string) (activeBlock : Z)
    (g : GovStore) : outcome GovStore :=
  match paramValues g !! KeyParamValue module name with
  | Some v =>
      Ok (set_params g (paramItems g)
            (<[KeyParamValue module name :=
                 {| StaleValue := Value v; Value := newValue;
                    pvActiveBlock := activeBlock |}]> (paramValues g)))
  | None => Err UnsupportedGovernParam
  end.

Definition listGovernParam (module : string) (g : GovStore) : list GovernParam :=
  (λ item, {| gpItem := item;
              gpValue := findGovernParamValue (piModule item) (piName item) g |})
    <$> listGovernParamItem module g.

(** ** Proposals, votes and results (gov_db.go) *)

Definition SetProposal (p : Proposal) (g : GovStore) : GovStore :=
  set_proposals g (<[GetProposalID p := jsonProposal p]> (proposals g)).

Definition GetProposal (proposalID : Z) (g : GovStore) : option Proposal :=
  proposals g !! proposalID.

Definition GetExistProposal (proposalID : Z) (g : GovStore) : outcome Proposal :=
  match GetProposal proposalID g with
  | Some p => Ok p
  | None => Err ProposalNotFound
  end.

Fixpoint existProposals (ids : list Z) (g : GovStore) : outcome (list Proposal) :=
  match ids with
  | [] => Ok []
  | id :: ids =>
      p ← GetExistProposal id g;
      ps ← existProposals ids g;
      Ok (p :: ps)
  end.

Definition GetProposalList (g : GovStore) : outcome (list Proposal) :=
  existProposals (getAllProposalIDList g) g.

Definition ListVoteValue (proposalID : Z) (g : GovStore) : list VoteValue :=
  default [] (votes g !! proposalID).

Definition UpdateVoteValue (proposalID : Z) (l : list VoteValue) (g : GovStore) : GovStore :=
  set_votes g (<[proposalID := l]> (votes g)).

Definition AddVoteValue (proposalID voter option : Z) (g : GovStore) : GovStore :=
  UpdateVoteValue proposalID
    (ListVoteValue proposalID g ++ [{| VoteNodeID := voter; VoteOption := option |}]) g.

(** One pass with three counters. *)
Fixpoint tallyVotes (voteList : list VoteValue) (yes no abst : Z) : Z * Z * Z :=
  match voteList with
  | [] => (yes, no, abst)
  | v :: rest =>
      tallyVotes rest
        (if VoteOption v =? Yes then u64 (yes + 1) else yes)
        (if VoteOption v =? No then u64 (no + 1) else no)
        (if VoteOption v =? Abstention then u64 (abst + 1) else abst)
  end.

Definition TallyVoteValue (proposalID : Z) (g : GovStore) : Z * Z * Z :=
  tallyVotes (ListVoteValue proposalID g) 0 0 0.

Definition ClearVoteValue (proposalID : Z) (g : GovStore) : GovStore :=
  set_votes g (delete proposalID (votes g)).

(** The keys of the map the code builds. *)
Definition GetVotedVerifierMap (proposalID : Z) (g : GovStore) : gset Z :=
  list_to_set (VoteNodeID <$> ListVoteValue proposalID g).

Definition SetTallyResult (r : TallyResult) (g : GovStore) : GovStore :=
  set_tallyResults g (<[trProposalID r := r]> (tallyResults g)).

Definition GetTallyResult (proposalID : Z) (g : GovStore) : outcome (option TallyResult) :=
  match GetProposal proposalID g with
  | None => Err ProposalNotFound
  | Some _ => Ok (tallyResults g !! proposalID)
  end.

(** The newest version is the head of the list. *)
Definition AddActiveVersion (activeVersion activeBlock : Z) (g : GovStore) : GovStore :=
  set_activeVersions g
    ({| ActiveVersion := activeVersion; avActiveBlock := activeBlock |} :: activeVersions g).

(** [remove]: the loop ranges over the array [arr] the slice had at the start;
    [len] is the length of the slice [list] is now, which shares that array, or
    [None] when it was replaced with a new empty one. *)
Fixpoint removeLoop (steps i : nat) (arr : list Z) (len : option nat) (item : Z)
    : outcome (list Z) :=
  match steps with
  | O => Ok (match len with Some m => take m arr | None => [] end)
  | S steps =>
      if default 0 (arr !! i) =? item then
        match len with
        | Some m =>
            if (1 <? m)%nat then
              if (i + 1 <=? m)%nat then
                removeLoop steps (i + 1)
                  (take i arr ++ drop (i + 1) (take m arr) ++ drop (m - 1) arr)
                  (Some (m - 1)%nat) item
              else Panic
            else removeLoop steps (i + 1) arr None item
        | None => removeLoop steps (i + 1) arr None item
        end
      else removeLoop steps (i + 1) arr len item
  end.

Definition remove (l : list Z) (item : Z) : outcome (list Z) :=
  match l with
  | [] => Ok l
  | _ => removeLoop (length l) 0 l (Some (length l)) item
  end.

Definition MoveVotingProposalIDToPreActive (proposalID preactiveVersion : Z) (g : GovStore)
    : outcome GovStore :=
  voting ← remove (votingIDs g) proposalID;
  Ok (setPreActiveVersion preactiveVersion
        (set_preActiveID (set_votingIDs g voting) (Some proposalID))).

Definition MoveVotingProposalIDToEnd (proposalID : Z) (g : GovStore) : outcome GovStore :=
  voting ← remove (votingIDs g) proposalID;
  Ok (addEndID proposalID (set_votingIDs g voting)).

Definition MovePreActiveProposalIDToEnd (proposalID : Z) (g : GovStore) : GovStore :=
  delPreActiveVersion (addEndID proposalID (set_preActiveID g None)).

Definition ListPIPID (g : GovStore) : list string := pipIDs g.

(** The whole list is stored again. *)
Definition AddPIPID (pipID : string) (g : GovStore) : GovStore :=
  set_pipIDs g (jsonString <$> (ListPIPID g ++ [pipID])).

(** ** Lemmas *)

Lemma InHashList_spec h l : InHashList h l = true ↔ h ∈ l.
Proof.
  induction l as [|x l IH]; cbn; [by split; [|intros ?%not_elem_of_nil]|].
  rewrite elem_of_cons. destruct (Z.eqb_spec h x); [by split; [left|]|]. rewrite IH. split; [by right|by intros [?|?]].
Qed.

Lemma InNodeIDList_spec h l : InNodeIDList h l = true ↔ h ∈ l.
Proof.
  induction l as [|x l IH]; cbn; [by split; [|intros ?%not_elem_of_nil]|].
  rewrite elem_of_cons. destruct (Z.eqb_spec h x); [by split; [left|]|]. rewrite IH. split; [by right|by intros [?|?]].
Qed.

Lemma elem_of_appendNew x id l : x ∈ appendNew id l ↔ x ∈ l ∨ x = id.
Proof.
  unfold appendNew. destruct (InHashList id l) eqn:E.
  - apply InHashList_spec in E. split; [by left|by intros [?| ->]].
  - rewrite elem_of_app, list_elem_of_singleton. done.
Qed.

Lemma appendNew_NoDup id l : NoDup l → NoDup (appendNew id l).
Proof.
  intros Hl. unfold appendNew. destruct (InHashList id l) eqn:E; [done|].
  apply NoDup_app. split; [done|]. split; [|apply NoDup_singleton].
  intros x Hx ->%list_elem_of_singleton. apply InHashList_spec in Hx. congruence.
Qed.

(** Past the item, the loop finds nothing more to remove. *)
Lemma removeLoop_skip steps i arr len item :
  (∀ j, (i <= j < i + steps)%nat → default 0 (arr !! j) ≠ item) →
  removeLoop steps i arr len item
  = Ok (match len with Some m => take m arr | None => [] end).
Proof.
  revert i. induction steps as [|steps IH]; intros i H; [done|]. cbn [removeLoop].
  rewrite (proj2 (Z.eqb_neq _ _)) by (apply H; lia). apply IH. intros j Hj. apply H. lia.
Qed.

Lemma removeLoop_app pre rest m item :
  item ∉ pre →
  removeLoop (length (pre ++ rest)) 0 (pre ++ rest) m item
  = removeLoop (length rest) (length pre) (pre ++ rest) m item.
Proof.
  intros Hpre. rewrite length_app. enough (∀ k i, (i + k = length pre)%nat →
    removeLoop (k + length rest) i (pre ++ rest) m item
    = removeLoop (length rest) (length pre) (pre ++ rest) m item) as H by (apply H; lia).
  induction k as [|k IH]; intros i Hi; cbn [Nat.add removeLoop].
  - by replace i with (length pre) by lia.
  - rewrite (proj2 (Z.eqb_neq _ _)); [apply IH; lia|].
    rewrite lookup_app_l by lia. intros Hx.
    destruct (pre !! i) as [x|] eqn:E.
    + cbn in Hx. subst. apply Hpre. by apply list_elem_of_lookup_2 in E.
    + apply lookup_ge_None in E. lia.
Qed.

Lemma remove_absent l item : item ∉ l → remove l item = Ok l.
Proof.
  intros Hl. destruct l as [|x l]; [done|]. unfold remove.
  replace (x :: l) with ((x :: l) ++ []) at 1 2 by apply app_nil_r.
  rewrite removeLoop_app by done. cbn [length removeLoop]. rewrite app_nil_r.
  f_equal. apply take_ge. done.
Qed.

Lemma remove_present pre rest item :
  item ∉ pre → item ∉ rest → remove (pre ++ item :: rest) item = Ok (pre ++ rest).
Proof.
  intros Hpre Hrest. unfold remove.
  destruct (pre ++ item :: rest) as [|x l] eqn:El; [by destruct pre|]. rewrite <- El. clear x l El.
  rewrite removeLoop_app by done. cbn [length removeLoop].
  rewrite list_lookup_middle by done. cbn [default]. rewrite Z.eqb_refl.
  rewrite length_app. cbn [length].
  destruct (1 <? length pre + S (length rest))%nat eqn:E1.
  - rewrite (proj2 (Nat.leb_le _ _)) by lia.
    rewrite (take_ge _ (length pre + S (length rest))) by (rewrite length_app; cbn; lia).
    replace (drop (length pre + 1) (pre ++ item :: rest)) with rest
      by (rewrite drop_app_add; by rewrite drop_0 || done).
    rewrite take_app_length.
    rewrite removeLoop_skip.
    + f_equal. rewrite (assoc_L (++)). apply take_app_length'. rewrite length_app. lia.
    + intros j Hj. rewrite lookup_app_r by lia.
      destruct (decide (j - length pre < length rest)%nat) as [Hlt|Hge].
      * rewrite lookup_app_l by done. intros Hx.
        destruct (rest !! (j - length pre)%nat) as [y|] eqn:E;
          [|apply lookup_ge_None in E; lia].
        cbn in Hx. subst. apply Hrest. by apply list_elem_of_lookup_2 in E.
      * assert (rest ≠ []) as Hne by (intros ->; cbn in *; lia).
        rewrite lookup_app_r by lia. rewrite lookup_drop.
        rewrite lookup_app_r by lia.
        destruct rest as [|y rest] using rev_ind; [done|]. clear IHrest.
        rewrite length_app in *. cbn [length] in *.
        replace (length pre + S (length rest + 1) - 1 + (j - length pre - (length rest + 1))
                 - length pre)%nat with (S (length rest)) by lia.
        rewrite app_comm_cons, lookup_app_r by (cbn; lia). cbn [length].
        rewrite Nat.sub_diag. cbn.
        intros ->. apply Hrest. apply elem_of_app. right. by apply list_elem_of_singleton.
  - apply Nat.ltb_ge in E1. assert (pre = [] ∧ rest = []) as [-> ->]
      by (destruct pre, rest; cbn in *; split; (done || lia)).
    done.
Qed.

Lemma filter_keeps_all {A} (P : A → Prop) `{∀ x, Decision (P x)} (l : list A) :
  (∀ x, x ∈ l → P x) → filter P l = l.
Proof.
  induction l as [|x l IH]; intros Hl; [done|].
  rewrite filter_cons_True by (apply Hl, elem_of_cons; by left).
  f_equal. apply IH. intros y Hy. apply Hl, elem_of_cons. by right.
Qed.

(** On a list without duplicates the loop that shifts the array under its own
    feet removes the item and nothing else. *)
Lemma remove_filter l item :
  NoDup l → remove l item = Ok (filter (λ x, x ≠ item) l).
Proof.
  intros Hl. destruct (decide (item ∈ l)) as [Hin|Hout].
  - apply list_elem_of_split in Hin as (pre & rest & ->).
    apply NoDup_app in Hl as (Hpre & Hdis & Hrest).
    apply NoDup_cons in Hrest as [Hrest _].
    assert (item ∉ pre) as Hp by (intros H; apply (Hdis item H), elem_of_cons; by left).
    rewrite remove_present by done. f_equal. rewrite filter_app, filter_cons_False by auto.
    f_equal; symmetry; apply filter_keeps_all; intros x Hx ->; done.
  - rewrite remove_absent by done. f_equal. symmetry. apply filter_keeps_all.
    intros x Hx ->. done.
Qed.
