(* ===== verification/GovParams.v ===== *)
(** * Governed parameters (src/pos/gov/gov_params.go, gov.go)

    The table of parameters with their initial values and verifiers, the readers
    the other plugins use, and that a value a verifier accepts keeps the whole
    set of parameters in the ranges and relations the node relies on. *)

From S2P Require Import Prelude Xcom Xutil GovTypes GovDB.

(** ** Names (gov.go) *)

Definition ModuleStaking : string := "staking".
Definition ModuleSlashing : string := "slashing".
Definition ModuleBlock : string := "block".
Definition ModuleReward : string := "reward".
Definition ModuleRestricting : string := "restricting".

Definition KeyStakeThreshold : string := "stakeThreshold".
Definition KeyOperatingThreshold : string := "operatingThreshold".
Definition KeyMaxValidators : string := "maxValidators".
Definition KeyUnStakeFreezeDuration : string := "unStakeFreezeDuration".
Definition KeySlashFractionDuplicateSign : string := "slashFractionDuplicateSign".
Definition KeyDuplicateSignReportReward : string := "duplicateSignReportReward".
Definition KeyMaxEvidenceAge : string := "maxEvidenceAge".
Definition KeySlashBlocksReward : string := "slashBlocksReward".
Definition KeyMaxBlockGasLimit : string := "maxBlockGasLimit".
Definition KeyZeroProduceNumberThreshold : string := "zeroProduceNumberThreshold".
Definition KeyZeroProduceCumulativeTime : string := "zeroProduceCumulativeTime".
Definition KeyRewardPerMaxChangeRange : string := "rewardPerMaxChangeRange".
Definition KeyRewardPerChangeInterval : string := "rewardPerChangeInterval".
Definition KeyIncreaseIssuanceRatio : string := "increaseIssuanceRatio".
Definition KeyZeroProduceFreezeDuration : string := "zeroProduceFreezeDuration".
Definition KeyRestrictingMinimumAmount : string := "minimumRelease".

(** Block gas limits (src/configs/protocol_params.go) *)
Definition GenesisGasLimit : Z := 4712388 * 2.
Definition DefaultMinerGasCeil : Z := 201600000.
Definition MaxGasCeil : Z := 300000000.

(** ** Readers (gov.go) *)

Section readers.
Context (blockNumber : Z) (g : GovStore).

Definition GetGovernParamValue (module name : string) : outcome string :=
  match findGovernParamValue module name g with
  | None => Err UnsupportedGovernParam
  | Some v => Ok (if pvActiveBlock v <=? blockNumber then Value v else StaleValue v)
  end.

(** A big integer; a value that does not parse is an error. *)
Definition governBig (module name : string) : outcome Z :=
  s ← GetGovernParamValue module name;
  match SetString s with Some n => Ok n | None => Err GenericError end.

(** An [int], converted to the type of the reader. *)
Definition governInt (conv : Z → Z) (module name : string) : outcome Z :=
  s ← GetGovernParamValue module name;
  n ← Atoi s;
  Ok (conv n).

Definition GovernStakeThreshold : outcome Z := governBig ModuleStaking KeyStakeThreshold.
Definition GovernOperatingThreshold : outcome Z :=
  governBig ModuleStaking KeyOperatingThreshold.
Definition GovernMaxValidators : outcome Z := governInt u64 ModuleStaking KeyMaxValidators.
Definition GovernUnStakeFreezeDuration : outcome Z :=
  governInt u64 ModuleStaking KeyUnStakeFreezeDuration.
Definition GovernSlashFractionDuplicateSign : outcome Z :=
  governInt u32 ModuleSlashing KeySlashFractionDuplicateSign.
Definition GovernDuplicateSignReportReward : outcome Z :=
  governInt u32 ModuleSlashing KeyDuplicateSignReportReward.
Definition GovernMaxEvidenceAge : outcome Z := governInt u32 ModuleSlashing KeyMaxEvidenceAge.
Definition GovernSlashBlocksReward : outcome Z :=
  governInt u32 ModuleSlashing KeySlashBlocksReward.
Definition GovernMaxBlockGasLimit : outcome Z :=
  governInt (λ n, n) ModuleBlock KeyMaxBlockGasLimit.
Definition GovernZeroProduceNumberThreshold : outcome Z :=
  governInt u16 ModuleSlashing KeyZeroProduceNumberThreshold.
Definition GovernZeroProduceCumulativeTime : outcome Z :=
  governInt u16 ModuleSlashing KeyZeroProduceCumulativeTime.
Definition GovernRewardPerMaxChangeRange : outcome Z :=
  governInt u16 ModuleStaking KeyRewardPerMaxChangeRange.
Definition GovernRewardPerChangeInterval : outcome Z :=
  governInt u16 ModuleStaking KeyRewardPerChangeInterval.
Definition GovernIncreaseIssuanceRatio : outcome Z :=
  governInt u16 ModuleReward KeyIncreaseIssuanceRatio.
Definition GovernZeroProduceFreezeDuration : outcome Z :=
  governInt u64 ModuleSlashing KeyZeroProduceFreezeDuration.
Definition GovernRestrictingMinimumAmount : outcome Z :=
  governBig ModuleRestricting KeyRestrictingMinimumAmount.
End readers.

(** ** The table (gov_params.go) *)

Definition ParamVerifier : Type := Z → GovStore → string → outcome unit.

Record InitParam := {
  ipItem : ParamItem;
  ipValue : ParamValue;
  ipVerifier : ParamVerifier }.

Definition parseBig (value : string) : outcome Z :=
  match SetString value with Some n => Ok n | None => Err GenericError end.

Definition dec (n : Z) : string := Itoa n.

Definition param (module name desc value : string) (verifier : ParamVerifier) : InitParam :=
  {| ipItem := {| piModule := module; piName := name; piDesc := desc |};
     ipValue := {| StaleValue := ""; Value := value; pvActiveBlock := 0 |};
     ipVerifier := verifier |}.

Definition checkMaxBlockGasLimit (gasLimit : Z) : outcome unit :=
  reject ((gasLimit <? GenesisGasLimit) || (MaxGasCeil <? gasLimit)) InvalidParameter.

Section table.
Context (em : EconomicModel).

Definition initParam : list InitParam := [
  param ModuleStaking KeyStakeThreshold
    ("minimum amount of stake, range: [" +:+ dec StakeLowerLimit +:+ ", "
     +:+ dec StakeUpperLimit +:+ "]")
    (Itoa (StakeThreshold (Staking em)))
    (λ _ _ value, threshold ← parseBig value; CheckStakeThreshold threshold);
  param ModuleStaking KeyOperatingThreshold
    ("minimum amount of stake increasing funds, delegation funds, or delegation withdrawing funds, range: ["
     +:+ dec DelegateLowerLimit +:+ ", " +:+ dec DelegateUpperLimit +:+ "]")
    (Itoa (OperatingThreshold (Staking em)))
    (λ _ _ value, threshold ← parseBig value; CheckOperatingThreshold threshold);
  param ModuleStaking KeyMaxValidators
    ("maximum amount of validator, range: [" +:+ dec (MaxConsensusVals (Common em)) +:+ ", "
     +:+ dec CeilMaxValidators +:+ "]")
    (Itoa (i64 (MaxValidators (Staking em))))
    (λ _ _ value, num ← Atoi value; CheckMaxValidators em num);
  param ModuleStaking KeyUnStakeFreezeDuration
    ("quantity of epoch for skake withdrawal, range: (MaxEvidenceAge, "
     +:+ dec CeilUnStakeFreezeDuration +:+ "]")
    (Itoa (i64 (UnStakeFreezeDuration (Staking em))))
    (λ blockNumber g value,
       num ← Atoi value;
       age ← GovernMaxEvidenceAge blockNumber g;
       epochNumber ← GovernZeroProduceFreezeDuration blockNumber g;
       CheckUnStakeFreezeDuration num age (i64 epochNumber));
  param ModuleSlashing KeySlashFractionDuplicateSign
    ("quantity of base point(1BP=1‱). Node's stake will be deducted(BPs*staking amount*1‱) it the node sign block duplicatlly, range: ("
     +:+ dec 0 +:+ ", " +:+ dec TenThousand +:+ "]")
    (Itoa (SlashFractionDuplicateSign (Slashing em)))
    (λ _ _ value, fraction ← Atoi value; CheckSlashFractionDuplicateSign fraction);
  param ModuleSlashing KeyDuplicateSignReportReward
    ("quantity of base point(1bp=1%). Bonus(BPs*deduction amount for sign block duplicatlly*%) to the node who reported another's duplicated-signature, range: ("
     +:+ dec 0 +:+ ", " +:+ dec Eighty +:+ "]")
    (Itoa (DuplicateSignReportReward (Slashing em)))
    (λ _ _ value, fraction ← Atoi value; CheckDuplicateSignReportReward fraction);
  param ModuleSlashing KeyMaxEvidenceAge
    ("quantity of epoch. During these epochs after a node duplicated-sign, others can report it, range: ("
     +:+ dec 0 +:+ ", UnStakeFreezeDuration)")
    (Itoa (MaxEvidenceAge (Slashing em)))
    (λ blockNumber g value,
       age ← Atoi value;
       duration ← GovernUnStakeFreezeDuration blockNumber g;
       CheckMaxEvidenceAge age (i64 duration));
  param ModuleSlashing KeySlashBlocksReward
    ("quantity of block, the total bonus amount for these blocks will be deducted from a inefficient node's stake, range: ["
     +:+ dec 0 +:+ ", " +:+ dec CeilBlocksReward +:+ ")")
    (Itoa (SlashBlocksReward (Slashing em)))
    (λ _ _ value, rewards ← Atoi value; CheckSlashBlocksReward rewards);
  param ModuleBlock KeyMaxBlockGasLimit
    ("maximum gas limit per block, range: [" +:+ dec GenesisGasLimit +:+ ", "
     +:+ dec MaxGasCeil +:+ "]")
    (Itoa DefaultMinerGasCeil)
    (λ _ _ value, gasLimit ← Atoi value; checkMaxBlockGasLimit gasLimit);
  param ModuleSlashing KeyZeroProduceCumulativeTime
    ("Time range for recording the number of behaviors of zero production blocks, range: [ZeroProduceNumberThreshold, "
     +:+ dec MaxZeroProduceCumulativeTime +:+ "]")
    (Itoa (ZeroProduceCumulativeTime (Slashing em)))
    (λ blockNumber g value,
       roundNumber ← Atoi value;
       numberThreshold ← GovernZeroProduceNumberThreshold blockNumber g;
       CheckZeroProduceCumulativeTime (u16 roundNumber) numberThreshold);
  param ModuleSlashing KeyZeroProduceNumberThreshold
    "Number of zero production blocks, range: [1, ZeroProduceCumulativeTime]"
    (Itoa (ZeroProduceNumberThreshold (Slashing em)))
    (λ blockNumber g value,
       number ← Atoi value;
       roundNumber ← GovernZeroProduceCumulativeTime blockNumber g;
       CheckZeroProduceNumberThreshold roundNumber (u16 number));
  param ModuleStaking KeyRewardPerMaxChangeRange
    ("Delegated Reward Ratio The maximum adjustable range of each modification, range: ["
     +:+ dec RewardPerMaxChangeRangeLowerLimit +:+ ", "
     +:+ dec RewardPerMaxChangeRangeUpperLimit +:+ "]")
    (Itoa (RewardPerMaxChangeRange (Staking em)))
    (λ _ _ value, number ← Atoi value; CheckRewardPerMaxChangeRange (u16 number));
  param ModuleStaking KeyRewardPerChangeInterval
    ("The interval for each modification of the commission reward ratio, range: ["
     +:+ dec RewardPerChangeIntervalLowerLimit +:+ ", "
     +:+ dec RewardPerChangeIntervalUpperLimit +:+ "]")
    (Itoa (RewardPerChangeInterval (Staking em)))
    (λ _ _ value, number ← Atoi value; CheckRewardPerChangeInterval (u16 number));
  param ModuleReward KeyIncreaseIssuanceRatio
    ("Increase the ratio of issuance, range: [" +:+ dec IncreaseIssuanceRatioLowerLimit +:+ ", "
     +:+ dec IncreaseIssuanceRatioUpperLimit +:+ "]")
    (Itoa (IncreaseIssuanceRatio (Reward em)))
    (λ _ _ value, number ← Atoi value; CheckIncreaseIssuanceRatio (u16 number));
  param ModuleSlashing KeyZeroProduceFreezeDuration
    "Zero production frozen time, range: [1, UnStakeFreezeDuration)"
    (Itoa (i64 (ZeroProduceFreezeDuration (Slashing em))))
    (λ blockNumber g value,
       number ← Atoi value;
       epochNumber ← GovernUnStakeFreezeDuration blockNumber g;
       CheckZeroProduceFreezeDuration (u64 number) epochNumber);
  param ModuleRestricting KeyRestrictingMinimumAmount
    ("minimum restricting amount to be released in each epoch, range: ["
     +:+ dec FloorMinimumRelease +:+ ", " +:+ dec CeilMinimumRelease +:+ "]")
    (Itoa (MinimumRelease (Restricting em)))
    (λ _ _ value, v ← parseBig value; CheckMinimumRelease v) ]%string.

(** The store of the genesis block; the hash over the entries is left out. *)
Definition InitGenesisGovernParam (g : GovStore) : GovStore :=
  set_params g (ipItem <$> initParam)
    (foldl (λ m p, <[KeyParamValue (piModule (ipItem p)) (piName (ipItem p))
                      := ipValue p]> m)
       (paramValues g) initParam).

(** [ParamVerifierMap] after [RegisterGovernParamVerifiers]: a later entry
    replaces an earlier one with the same key. *)
Definition ParamVerifierMap : gmap string ParamVerifier :=
  foldl (λ m p, <[KeyParamValue (piModule (ipItem p)) (piName (ipItem p))
                    := ipVerifier p]> m) ∅ initParam.
End table.

(** ** The parameters as the node reads them *)

Record Params := {
  pStakeThreshold : Z;
  pOperatingThreshold : Z;
  pMaxValidators : Z;
  pUnStakeFreezeDuration : Z;
  pSlashFraction : Z;
  pReportReward : Z;
  pMaxEvidenceAge : Z;
  pSlashBlocksReward : Z;
  pMaxBlockGasLimit : Z;
  pCumulativeTime : Z;
  pNumberThreshold : Z;
  pMaxChangeRange : Z;
  pChangeInterval : Z;
  pIssuanceRatio : Z;
  pZeroProduceFreeze : Z;
  pMinimumRelease : Z }.

Record reads (blockNumber : Z) (g : GovStore) (p : Params) : Prop := {
  rd_stake : GovernStakeThreshold blockNumber g = Ok (pStakeThreshold p);
  rd_operating : GovernOperatingThreshold blockNumber g = Ok (pOperatingThreshold p);
  rd_validators : GovernMaxValidators blockNumber g = Ok (pMaxValidators p);
  rd_unstake : GovernUnStakeFreezeDuration blockNumber g = Ok (pUnStakeFreezeDuration p);
  rd_fraction : GovernSlashFractionDuplicateSign blockNumber g = Ok (pSlashFraction p);
  rd_report : GovernDuplicateSignReportReward blockNumber g = Ok (pReportReward p);
  rd_age : GovernMaxEvidenceAge blockNumber g = Ok (pMaxEvidenceAge p);
  rd_blocks : GovernSlashBlocksReward blockNumber g = Ok (pSlashBlocksReward p);
  rd_gas : GovernMaxBlockGasLimit blockNumber g = Ok (pMaxBlockGasLimit p);
  rd_cumulative : GovernZeroProduceCumulativeTime blockNumber g = Ok (pCumulativeTime p);
  rd_number : GovernZeroProduceNumberThreshold blockNumber g = Ok (pNumberThreshold p);
  rd_range : GovernRewardPerMaxChangeRange blockNumber g = Ok (pMaxChangeRange p);
  rd_interval : GovernRewardPerChangeInterval blockNumber g = Ok (pChangeInterval p);
  rd_ratio : GovernIncreaseIssuanceRatio blockNumber g = Ok (pIssuanceRatio p);
  rd_freeze : GovernZeroProduceFreezeDuration blockNumber g = Ok (pZeroProduceFreeze p);
  rd_minimum : GovernRestrictingMinimumAmount blockNumber g = Ok (pMinimumRelease p) }.

(** The ranges and relations the rest of the node relies on. *)
Record params_ok (em : EconomicModel) (p : Params) : Prop := {
  ok_stake : StakeLowerLimit <= pStakeThreshold p <= StakeUpperLimit;
  ok_operating : DelegateLowerLimit <= pOperatingThreshold p <= DelegateUpperLimit;
  ok_validators : MaxConsensusVals (Common em) <= pMaxValidators p <= CeilMaxValidators;
  ok_unstake : pMaxEvidenceAge p < pUnStakeFreezeDuration p <= CeilUnStakeFreezeDuration;
  ok_fraction : 0 < pSlashFraction p <= TenThousand;
  ok_report : 0 < pReportReward p <= Eighty;
  ok_age : 0 < pMaxEvidenceAge p;
  ok_blocks : 0 <= pSlashBlocksReward p < CeilBlocksReward;
  ok_gas : GenesisGasLimit <= pMaxBlockGasLimit p <= MaxGasCeil;
  ok_cumulative : pNumberThreshold p <= pCumulativeTime p <= MaxZeroProduceCumulativeTime;
  ok_number : 1 <= pNumberThreshold p;
  ok_range : RewardPerMaxChangeRangeLowerLimit <= pMaxChangeRange p
             <= RewardPerMaxChangeRangeUpperLimit;
  ok_interval : RewardPerChangeIntervalLowerLimit <= pChangeInterval p
                <= RewardPerChangeIntervalUpperLimit;
  ok_ratio : IncreaseIssuanceRatioLowerLimit <= pIssuanceRatio p
             <= IncreaseIssuanceRatioUpperLimit;
  ok_freeze : 1 <= pZeroProduceFreeze p < pUnStakeFreezeDuration p;
  ok_minimum : FloorMinimumRelease <= pMinimumRelease p <= CeilMinimumRelease }.

(** *** Reading a key after an update *)

Definition settled (blockNumber : Z) (g : GovStore) : Prop :=
  ∀ k v, paramValues g !! k = Some v → pvActiveBlock v <= blockNumber.

Lemma GetGovernParamValue_later b b' g m n :
  settled b g → b <= b' → GetGovernParamValue b' g m n = GetGovernParamValue b g m n.
Proof.
  intros Hs Hb. unfold GetGovernParamValue, findGovernParamValue.
  destruct (paramValues g !! _) as [v|] eqn:E; [|done]. apply Hs in E.
  by rewrite !(proj2 (Z.leb_le _ _)) by lia.
Qed.

Lemma GetGovernParamValue_update m0 n0 v b b' g g' m n :
  settled b g → b < b' → updateGovernParamValue m0 n0 v b' g = Ok g' →
  GetGovernParamValue b' g' m n
  = if decide (KeyParamValue m0 n0 = KeyParamValue m n) then Ok v
    else GetGovernParamValue b g m n.
Proof.
  intros Hs Hb Hu. unfold updateGovernParamValue in Hu.
  destruct (paramValues g !! KeyParamValue m0 n0) as [old|] eqn:E; [|done].
  injection Hu as <-. rewrite <- (GetGovernParamValue_later b b') by (done || lia).
  unfold GetGovernParamValue, findGovernParamValue. cbn [paramValues set_params].
  case_decide as Hk.
  - rewrite Hk, lookup_insert_eq. cbn. by rewrite Z.leb_refl.
  - by rewrite lookup_insert_ne.
Qed.

Lemma settled_update m n v b b' g g' :
  settled b g → b <= b' → updateGovernParamValue m n v b' g = Ok g' → settled b' g'.
Proof.
  intros Hs Hb Hu. unfold updateGovernParamValue in Hu.
  destruct (paramValues g !! KeyParamValue m n) as [old|] eqn:E; [|done].
  injection Hu as <-. intros k w. cbn [paramValues set_params].
  intros [[_ <-]|[_ Hw]]%lookup_insert_Some; cbn; [lia|]. apply Hs in Hw. lia.
Qed.

Section update.
Context {b b' : Z} {g g' : GovStore} {m0 n0 v : string}.
Context (Hs : settled b g) (Hb : b < b').
Context (Hu : updateGovernParamValue m0 n0 v b' g = Ok g').

Lemma governBig_update m n :
  governBig b' g' m n
  = if decide (KeyParamValue m0 n0 = KeyParamValue m n) then parseBig v
    else governBig b g m n.
Proof using Hs Hb Hu.
  unfold governBig. rewrite (GetGovernParamValue_update m0 n0 v b b' g g' m n) by done.
  by case_decide.
Qed.

Lemma governInt_update conv m n :
  governInt b' g' conv m n
  = if decide (KeyParamValue m0 n0 = KeyParamValue m n) then x ← Atoi v; Ok (conv x)
    else governInt b g conv m n.
Proof using Hs Hb Hu.
  unfold governInt. rewrite (GetGovernParamValue_update m0 n0 v b b' g g' m n) by done.
  by case_decide.
Qed.
End update.

(** Split on whether two parameter names, both known, are the same. *)
Ltac same_key :=
  match goal with
  | |- context [decide (?k = ?k')] =>
      let E := fresh in
      destruct (decide (k = k')) as [E|E];
        [try (exfalso; vm_compute in E; discriminate E)
        |try (exfalso; apply E; reflexivity)]; clear E
  end.

Lemma Atoi_Ok s n : Atoi s = Ok n → in_i64 n.
Proof.
  unfold Atoi, in_i64. destruct (SetString s) as [x|]; [|done].
  destruct (_ && _) eqn:E; [|done]. intros [= ->]. bool_to_prop. lia.
Qed.

(** What a verifier's checks say of the value. *)
Ltac checks :=
  repeat match goal with
  | H : (_ ≫= _) = Ok _ |- _ =>
      let H1 := fresh "Hparse" in apply outcome_bind_Ok in H as (? & H1 & H)
  | H : reject _ _ = Ok _ |- _ => apply reject_Ok in H
  | H : _ _ = Ok _ |- _ => progress unfold Xcom.CheckStakeThreshold,
      Xcom.CheckOperatingThreshold, CheckSlashFractionDuplicateSign,
      CheckDuplicateSignReportReward, CheckSlashBlocksReward, checkMaxBlockGasLimit,
      CheckRewardPerMaxChangeRange, CheckRewardPerChangeInterval,
      CheckIncreaseIssuanceRatio, CheckMinimumRelease in H
  | H : _ _ _ = Ok _ |- _ => progress unfold CheckMaxValidators,
      CheckMaxEvidenceAge, CheckZeroProduceCumulativeTime,
      CheckZeroProduceNumberThreshold, CheckZeroProduceFreezeDuration in H
  | H : CheckUnStakeFreezeDuration _ _ _ = Ok _ |- _ => unfold CheckUnStakeFreezeDuration in H
  | H : ?a = Ok ?x, H' : ?a = Ok ?y |- _ => rewrite H in H'; injection H' as ?
  end; bool_to_prop.

Ltac read_updated Hs Hb Hu :=
  lazymatch goal with
  | |- ?f _ _ = _ => unfold f
  end;
  first [rewrite (governBig_update Hs Hb Hu) | rewrite (governInt_update Hs Hb Hu)];
  same_key;
  try match goal with H : Atoi _ = Ok _ |- _ => rewrite H end;
  first [reflexivity | eassumption].

(** The limits as numbers, and conversions of values within them. *)
Ltac limits :=
  repeat match goal with H : Atoi _ = Ok _ |- _ => apply Atoi_Ok in H end;
  unfold in_i64, CeilUnStakeFreezeDuration, MaxZeroProduceCumulativeTime, CeilMaxValidators,
    CeilBlocksReward, TenThousand, Eighty in *;
  repeat match goal with
  | |- context [u64 ?x] => rewrite (u64_small x) by (unfold in_u64; lia)
  | |- context [u32 ?x] => rewrite (u32_small x) by (unfold in_u32; lia)
  end.

Lemma accepted_value_ok em b b' g g' p m n v verifier :
  0 <= MaxConsensusVals (Common em) < 2 ^ 63 →
  reads b g p → params_ok em p → settled b g → b < b' →
  ParamVerifierMap em !! KeyParamValue m n = Some verifier →
  verifier b g v = Ok tt →
  updateGovernParamValue m n v b' g = Ok g' →
  ∃ p', reads b' g' p' ∧ params_ok em p'.
Proof.
  intros Hem Hr Hp Hs Hb Hv Hok Hu.
  unfold ParamVerifierMap, initParam in Hv. cbn [foldl param ipItem ipVerifier piModule piName] in Hv.
  assert (Hkey : ∀ m1 n1, KeyParamValue m n = KeyParamValue m1 n1 →
    updateGovernParamValue m1 n1 v b' g = Ok g').
  { intros m1 n1 E. unfold updateGovernParamValue in *. by rewrite <- E. }
  clear Hu.
  repeat (apply lookup_insert_Some in Hv as [[Hk <-]|[_ Hv]];
    [symmetry in Hk; apply Hkey in Hk; rename Hk into Hu|]); [..|done].
  all: destruct Hr, Hp; cbn beta in Hok; checks.
  all: try (unfold CeilUnStakeFreezeDuration in *; rewrite i64_small in *
              by (unfold in_i64; lia)).
  all: eexists (Build_Params _ _ _ _ _ _ _ _ _ _ _ _ _ _ _ _).
  all: split; [constructor; cbn; read_updated Hs Hb Hu|].
  all: constructor; cbn; try done; limits; lia.
Qed.
