(* ===== verification/Gov.v ===== *)
(** * Governance: proposals and votes (src/pos/gov/proposals.go, gov.go)

    Verification and submission of proposals, votes, version declarations and the
    notices governance and staking send each other.  Governance sees staking only
    through the interface [StakingPlugin], the code's [type Staking interface]. *)

From S2P Require Import Prelude Xcom Xutil StateDB StakingTypes GovTypes GovDB GovParams.

(** What governance uses of the node: the configuration, the address of a node
    id and the check of a version signature. *)
Class GovNode := {
  em : EconomicModel;
  NodeId2Addr : Z → outcome Z;
  IsSignedByNodeID : Z → Z → Z → bool }.

(** ** The staking interface (gov.go)

    [W] is the state of the staking plugin.  Of a verifier only the node id and
    the staking address are read. *)

Record VerifierEx := {
  vxNodeId : Z;
  vxStakingAddress : Z }.

Class StakingPlugin (W : Type) := {
  GetVerifierList : Z → M W (list VerifierEx);
  ListVerifierNodeID : Z → M W (list Z);
  GetCanBaseList : M W (list CandidateBase);
  GetCanMutable : Z → M W CandidateMutable;
  DeclarePromoteNotify : Z → Z → M W unit;
  ProposalPassedNotify : list Z → Z → M W unit }.

Record GovWorld (W : Type) := { gs : GovStore; stk : W }.
Arguments gs {W} _.
Arguments stk {W} _.
Arguments Build_GovWorld {W} _ _.

Section lift.
Context {W : Type}.

Definition on_stk {A} (m : M W A) : M (GovWorld W) A := λ w,
  let '(r, s) := m (stk w) in (r, {| gs := gs w; stk := s |}).

(** A query of the governance store, an update, and an update that can fail. *)
Definition ask_gov {A} (f : GovStore → outcome A) : M (GovWorld W) A := λ w,
  (f (gs w), w).
Definition get_gov {A} (f : GovStore → A) : M (GovWorld W) A := gets (λ w, f (gs w)).
Definition put_gov (f : GovStore → GovStore) : M (GovWorld W) unit :=
  modify (λ w, {| gs := f (gs w); stk := stk w |}).
Definition try_gov (f : GovStore → outcome GovStore) : M (GovWorld W) unit := λ w,
  match f (gs w) with
  | Ok g => (Ok tt, {| gs := g; stk := stk w |})
  | Err e => (Err e, w)
  | Panic => (Panic, w)
  end.
End lift.

(** ** Queries (gov.go) *)

Definition ListActiveVersion (g : GovStore) : list ActiveVersionValue := activeVersions g.

Definition GetCurrentActiveVersion (g : GovStore) : Z :=
  match ListActiveVersion g with
  | [] => 0
  | v :: _ => ActiveVersion v
  end.

Definition GetPreActiveVersion (g : GovStore) : Z := getPreActiveVersion g.

Definition GetVersionForStaking (g : GovStore) : Z :=
  if 0 <? GetPreActiveVersion g then GetPreActiveVersion g else GetCurrentActiveVersion g.

Definition GetPreActiveProposalID (g : GovStore) : Z := getPreActiveProposalID g.

Definition ListProposal (g : GovStore) : outcome (list Proposal) :=
  existProposals
    (votingIDs g ++ endIDs g
     ++ (if GetPreActiveProposalID g =? 0 then [] else [GetPreActiveProposalID g])) g.

(** The first voting proposal of one of the types. *)
Fixpoint findVoting (ids : list Z) (types : list Z) (g : GovStore)
    : outcome (option Proposal) :=
  match ids with
  | [] => Ok None
  | id :: ids =>
      p ← GetExistProposal id g;
      if existsb (Z.eqb (GetProposalType p)) types then Ok (Some p)
      else findVoting ids types g
  end.

Definition FindVotingProposal (types : list Z) (g : GovStore) : outcome (option Proposal) :=
  match types with
  | [] => Err InvalidParameter
  | _ => findVoting (votingIDs g) types g
  end.

(** The inner loop: a proposal the node voted for raises the maximum. *)
Fixpoint maxEndOfVotes (nodeID proposalID : Z) (l : list VoteValue) (g : GovStore) (max : Z)
    : outcome Z :=
  match l with
  | [] => Ok max
  | v :: l =>
      if VoteNodeID v =? nodeID then
        p ← GetExistProposal proposalID g;
        maxEndOfVotes nodeID proposalID l g
          (if max <? GetEndVotingBlock p then GetEndVotingBlock p else max)
      else maxEndOfVotes nodeID proposalID l g max
  end.

Fixpoint maxEndVoting (nodeID : Z) (ids : list Z) (g : GovStore) (max : Z) : outcome Z :=
  match ids with
  | [] => Ok max
  | id :: ids =>
      max ← maxEndOfVotes nodeID id (ListVoteValue id g) g max;
      maxEndVoting nodeID ids g max
  end.

Definition GetMaxEndVotingBlock (nodeID : Z) (g : GovStore) : outcome Z :=
  maxEndVoting nodeID (votingIDs g) g 0.

Fixpoint findParam (module name : string) (items : list ParamItem) (g : GovStore)
    : option (ParamItem * ParamValue) :=
  match items with
  | [] => None
  | item :: items =>
      if String.eqb (piName item) name then
        match findGovernParamValue module name g with
        | Some v => Some (item, v)
        | None => findParam module name items g
        end
      else findParam module name items g
  end.

Definition FindGovernParam (module name : string) (g : GovStore)
    : option (ParamItem * ParamValue) :=
  findParam module name (listGovernParamItem module g) g.

(** ** Verification of proposals (proposals.go) *)

Fixpoint isPIPIDExist (pipID : string) (pipIDList : list string) : bool :=
  match pipIDList with
  | [] => false
  | id :: rest => if String.eqb pipID id then true else isPIPIDExist pipID rest
  end.

(** No proposal at voting stage has the PIP id. *)
Fixpoint votingPIPIDs (pipID : string) (ids : list Z) (g : GovStore) : outcome unit :=
  match ids with
  | [] => Ok tt
  | id :: ids =>
      exist ← GetExistProposal id g;
      if String.eqb (GetPIPID exist) pipID then Err PIPIDExist else votingPIPIDs pipID ids g
  end.

Definition verifyBasic (p : Proposal) (g : GovStore) : outcome unit :=
  (if GetProposalID p =? 0 then Err ProposalIDEmpty
   else match GetProposal (GetProposalID p) g with
        | Some _ => Err ProposalIDExist
        | None => Ok tt
        end) ≫= λ _,
  reject (GetProposer p =? 0) ProposerEmpty ≫= λ _,
  reject (String.length (GetPIPID p) =? 0)%nat PIPIDEmpty ≫= λ _,
  reject (isPIPIDExist (GetPIPID p) (ListPIPID g)) PIPIDExist ≫= λ _,
  votingPIPIDs (GetPIPID p) (votingIDs g) g.

Section verify.
Context `{GovNode} (submitBlock : Z) (g : GovStore).

Definition VerifyText (tp : TextProposal) : outcome TextProposal :=
  reject (negb (tpProposalType tp =? Text)) ProposalTypeError ≫= λ _,
  verifyBasic (TextP tp) g ≫= λ _,
  let endVotingBlock := CalEndVotingBlock em submitBlock
    (EstimateConsensusRoundsForGov em (TextProposalVoteDurationSeconds (Gov em))) in
  reject (endVotingBlock <=? submitBlock) InternalError ≫= λ _,
  Ok {| tpProposalID := tpProposalID tp; tpProposalType := tpProposalType tp;
        tpPIPID := tpPIPID tp; tpSubmitBlock := tpSubmitBlock tp;
        tpEndVotingBlock := endVotingBlock; tpProposer := tpProposer tp |}.

Definition VerifyVersion (vp : VersionProposal) : outcome VersionProposal :=
  reject (negb (vpProposalType vp =? Version)) ProposalTypeError ≫= λ _,
  reject (vpEndVotingRounds vp <=? 0) EndVotingRoundsTooSmall ≫= λ _,
  reject (EstimateConsensusRoundsForGov em (VersionProposalVoteDurationSeconds (Gov em))
          <? vpEndVotingRounds vp) EndVotingRoundsTooLarge ≫= λ _,
  verifyBasic (VersionP vp) g ≫= λ _,
  let endVotingBlock := CalEndVotingBlock em submitBlock (vpEndVotingRounds vp) in
  reject (endVotingBlock <=? submitBlock) InternalError ≫= λ _,
  let activeBlock := CalActiveBlock em endVotingBlock in
  reject ((vpNewVersion vp <=? 0)
          || (Z.shiftr (vpNewVersion vp) 8 <=? Z.shiftr (GetCurrentActiveVersion g) 8))
    NewVersionError ≫= λ _,
  exist ← FindVotingProposal [Version; Param] g;
  (match exist with
   | Some p => Err (if GetProposalType p =? Version then VotingVersionProposalExist
                    else VotingParamProposalExist)
   | None => Ok tt
   end) ≫= λ _,
  reject (negb (GetPreActiveProposalID g =? 0)) PreActiveVersionProposalExist ≫= λ _,
  Ok {| vpProposalID := vpProposalID vp; vpProposalType := vpProposalType vp;
        vpPIPID := vpPIPID vp; vpSubmitBlock := vpSubmitBlock vp;
        vpEndVotingRounds := vpEndVotingRounds vp; vpEndVotingBlock := endVotingBlock;
        vpProposer := vpProposer vp; vpNewVersion := vpNewVersion vp;
        vpActiveBlock := activeBlock |}.

Definition VerifyCancel (cp : CancelProposal) : outcome CancelProposal :=
  reject (negb (cpProposalType cp =? Cancel)) ProposalTypeError ≫= λ _,
  verifyBasic (CancelP cp) g ≫= λ _,
  reject (cpEndVotingRounds cp <=? 0) EndVotingRoundsTooSmall ≫= λ _,
  let endVotingBlock := CalEndVotingBlock em submitBlock (cpEndVotingRounds cp) in
  reject (endVotingBlock <=? submitBlock) InternalError ≫= λ _,
  exist ← FindVotingProposal [Cancel] g;
  reject (match exist with Some _ => true | None => false end)
    VotingCancelProposalExist ≫= λ _,
  match GetProposal (cpTobeCanceled cp) g with
  | None => Err TobeCanceledProposalNotFound
  | Some tobeCanceled =>
      reject (negb (GetProposalType tobeCanceled =? Version)
              && negb (GetProposalType tobeCanceled =? Param))
        TobeCanceledProposalTypeError ≫= λ _,
      reject (negb (InHashList (cpTobeCanceled cp) (votingIDs g)))
        TobeCanceledProposalNotAtVoting ≫= λ _,
      reject (GetEndVotingBlock tobeCanceled <=? endVotingBlock)
        EndVotingRoundsTooLarge ≫= λ _,
      Ok {| cpProposalID := cpProposalID cp; cpProposalType := cpProposalType cp;
            cpPIPID := cpPIPID cp; cpSubmitBlock := cpSubmitBlock cp;
            cpEndVotingRounds := cpEndVotingRounds cp; cpEndVotingBlock := endVotingBlock;
            cpProposer := cpProposer cp; cpTobeCanceled := cpTobeCanceled cp |}
  end.

Definition VerifyParam (pp : ParamProposal) : outcome ParamProposal :=
  reject (negb (ppProposalType pp =? Param)) ProposalTypeError ≫= λ _,
  verifyBasic (ParamP pp) g ≫= λ _,
  (match FindGovernParam (ppModule pp) (ppName pp) g with
   | None => Err UnsupportedGovernParam
   | Some (_, v) => reject (String.eqb (Value v) (ppNewValue pp)) ParamProposalIsSameValue
   end) ≫= λ _,
  (match ParamVerifierMap em !! KeyParamValue (ppModule pp) (ppName pp) with
   | None => Err UnsupportedGovernParam
   | Some paramVerifier => paramVerifier submitBlock g (ppNewValue pp)
   end) ≫= λ _,
  exist ← FindVotingProposal [Param; Version] g;
  (match exist with
   | Some p => Err (if GetProposalType p =? Param then VotingParamProposalExist
                    else VotingVersionProposalExist)
   | None => Ok tt
   end) ≫= λ _,
  reject (negb (GetPreActiveProposalID g =? 0)) PreActiveVersionProposalExist ≫= λ _,
  let endVotingBlock := EstimateEndVotingBlockForParaProposal em submitBlock
    (ParamProposalVoteDurationSeconds (Gov em)) in
  reject (endVotingBlock <=? submitBlock) InternalError ≫= λ _,
  Ok {| ppProposalID := ppProposalID pp; ppProposalType := ppProposalType pp;
        ppPIPID := ppPIPID pp; ppSubmitBlock := ppSubmitBlock pp;
        ppEndVotingBlock := endVotingBlock; ppProposer := ppProposer pp;
        ppModule := ppModule pp; ppName := ppName pp; ppNewValue := ppNewValue pp |}.

(** [Proposal.Verify]: the proposal with its deadlines filled in. *)
Definition Verify (p : Proposal) : outcome Proposal :=
  match p with
  | TextP tp => tp ← VerifyText tp; Ok (TextP tp)
  | VersionP vp => vp ← VerifyVersion vp; Ok (VersionP vp)
  | CancelP cp => cp ← VerifyCancel cp; Ok (CancelP cp)
  | ParamP pp => pp ← VerifyParam pp; Ok (ParamP pp)
  end.
End verify.

(** ** Operations (gov.go) *)

Section operations.
Context `{GovNode} {W : Type} `{StakingPlugin W}.

(** The first verifier with the node id decides. *)
Fixpoint checkVerifierIn (from nodeID : Z) (l : list VerifierEx) : M (GovWorld W) unit :=
  match l with
  | [] => fail TxSenderIsNotVerifier
  | verifier :: l =>
      if vxNodeId verifier =? nodeID then
        if vxStakingAddress verifier =? from then
          nodeAddress ← ask (NodeId2Addr (vxNodeId verifier));
          candidate ← try (on_stk (GetCanMutable nodeAddress));
          match candidate with
          | inr _ => fail VerifierInfoNotFound
          | inl c => if IsInvalid (Status c) then fail VerifierStatusInvalid else mret tt
          end
        else fail TxSenderDifferFromStaking
      else checkVerifierIn from nodeID l
  end.

Definition checkVerifier (from nodeID blockNumber : Z) : M (GovWorld W) unit :=
  _ ← ask (NodeId2Addr nodeID);
  verifierList ← on_stk (GetVerifierList blockNumber);
  checkVerifierIn from nodeID verifierList.

Fixpoint checkCandidateIn (from nodeID : Z) (l : list CandidateBase) : outcome unit :=
  match l with
  | [] => Err TxSenderIsNotCandidate
  | candidate :: l =>
      if cbNodeId candidate =? nodeID then
        if StakingAddress candidate =? from then Ok tt else Err TxSenderDifferFromStaking
      else checkCandidateIn from nodeID l
  end.

Definition checkCandidate (from nodeID : Z) : M (GovWorld W) unit :=
  _ ← ask (NodeId2Addr nodeID);
  candidateList ← on_stk GetCanBaseList;
  ask (checkCandidateIn from nodeID candidateList).

(** An error of [Verify] that is no business error is an invalid parameter. *)
Definition asParameterError {A} (r : outcome A) : outcome A :=
  match r with
  | Err (BizError c) => Err (BizError c)
  | Err _ => Err InvalidParameter
  | r => r
  end.

Definition Submit (from : Z) (proposal : Proposal) (blockNumber : Z) : M (GovWorld W) unit :=
  proposal ← ask_gov (λ g, asParameterError (Verify blockNumber g proposal));
  checkVerifier from (GetProposer proposal) (GetSubmitBlock proposal) ≫= λ _,
  put_gov (SetProposal proposal) ≫= λ _,
  put_gov (addVotingID (GetProposalID proposal)) ≫= λ _,
  verifierList ← on_stk (ListVerifierNodeID blockNumber);
  put_gov (addAccuVerifiers (GetProposalID proposal) verifierList).

(** The checks a vote for a version proposal must pass. *)
Definition checkVersionVote (proposal : Proposal) (vote : VoteInfo)
    (programVersion programVersionSign : Z) : outcome unit :=
  match proposal with
  | VersionP vp =>
      if vpProposalType vp =? Version then
        reject (negb (IsSignedByNodeID programVersion programVersionSign (viVoteNodeID vote)))
          VersionSignError ≫= λ _,
        reject (negb (viVoteOption vote =? Yes)) VoteOptionError ≫= λ _,
        reject (negb (vpNewVersion vp =? programVersion)) VerifierNotUpgraded
      else Ok tt
  | _ => Ok tt
  end.

Definition Vote (from : Z) (vote : VoteInfo) (blockNumber programVersion programVersionSign : Z)
    : M (GovWorld W) unit :=
  let pid := viProposalID vote in
  ask (reject (pid =? 0) ProposalIDEmpty) ≫= λ _,
  ask (reject (negb (viVoteOption vote =? Yes) && negb (viVoteOption vote =? No)
               && negb (viVoteOption vote =? Abstention)) VoteOptionError) ≫= λ _,
  proposal ← ask_gov (GetExistProposal pid);
  checkVerifier from (viVoteNodeID vote) blockNumber ≫= λ _,
  ask (checkVersionVote proposal vote programVersion programVersionSign) ≫= λ _,
  votingIDs ← get_gov votingIDs;
  ask (reject (negb (InHashList pid votingIDs)) ProposalNotAtVoting) ≫= λ _,
  votedMap ← get_gov (GetVotedVerifierMap pid);
  ask (reject (bool_decide (viVoteNodeID vote ∈ votedMap)) VoteDuplicated) ≫= λ _,
  put_gov (AddVoteValue pid (viVoteNodeID vote) (viVoteOption vote)) ≫= λ _,
  when (GetProposalType proposal =? Version)
    (put_gov (addActiveNode (viVoteNodeID vote) pid)).

Definition notifyDeclared (declaredNodeID declaredVersion : Z) : M (GovWorld W) unit :=
  r ← try (on_stk (DeclarePromoteNotify declaredNodeID declaredVersion));
  match r with
  | inl _ => mret tt
  | inr _ => fail NotifyStakingDeclaredVersionError
  end.

(** [v >> 8]: the version without its patch number. *)
Definition minor (v : Z) : Z := Z.shiftr v 8.

Definition DeclareVersion (from declaredNodeID declaredVersion programVersionSign : Z)
    : M (GovWorld W) unit :=
  ask (reject (negb (IsSignedByNodeID declaredVersion programVersionSign declaredNodeID))
         VersionSignError) ≫= λ _,
  checkCandidate from declaredNodeID ≫= λ _,
  activeVersion ← get_gov GetCurrentActiveVersion;
  ask (reject (activeVersion <=? 0) ActiveVersionError) ≫= λ _,
  proposal ← ask_gov (FindVotingProposal [Version]);
  match proposal with
  | Some (VersionP votingVP) =>
      votedMap ← get_gov (GetVotedVerifierMap (vpProposalID votingVP));
      if decide (declaredNodeID ∈ votedMap) then
        ask (reject (negb (minor declaredVersion =? minor (vpNewVersion votingVP)))
               DeclareVersionError)
      else if minor declaredVersion =? minor activeVersion then
        notifyDeclared declaredNodeID declaredVersion
      else if minor declaredVersion =? minor (vpNewVersion votingVP) then
        put_gov (addActiveNode declaredNodeID (vpProposalID votingVP))
      else fail DeclareVersionError
  | Some _ => panic
  | None =>
      preActiveVersion ← get_gov GetPreActiveVersion;
      if preActiveVersion <=? 0 then
        if minor declaredVersion =? minor activeVersion then
          notifyDeclared declaredNodeID declaredVersion
        else fail DeclareVersionError
      else
        if minor declaredVersion =? minor preActiveVersion then
          notifyDeclared declaredNodeID declaredVersion
        else fail DeclareVersionError
  end.

(** The votes of the punished nodes are dropped from the voting proposals. *)
Definition dropVotes (punished : gset Z) (proposalID : Z) (g : GovStore) : GovStore :=
  let l := ListVoteValue proposalID g in
  let kept := filter (λ v, VoteNodeID v ∉ punished) l in
  if (length kept <? length l)%nat then UpdateVoteValue proposalID kept g else g.

Definition NotifyPunishedVerifiers (punished : gset Z) : M (GovWorld W) unit :=
  if decide (punished = ∅) then mret tt
  else
    votingProposalIDList ← get_gov votingIDs;
    for_each (λ proposalID, put_gov (dropVotes punished proposalID)) votingProposalIDList.

Definition clearProcessingProposal (proposalID : Z) (isVoting : bool) : M (GovWorld W) unit :=
  (if isVoting then try_gov (MoveVotingProposalIDToEnd proposalID)
   else
     put_gov (MovePreActiveProposalIDToEnd proposalID) ≫= λ _,
     put_gov delPreActiveVersion) ≫= λ _,
  put_gov (ClearVoteValue proposalID) ≫= λ _,
  put_gov (delAccuVerifiers proposalID) ≫= λ _,
  put_gov (SetTallyResult {| trProposalID := proposalID; trYeas := 0; trNays := 0;
    trAbstentions := 0; trAccuVerifiers := 0; trStatus := Failed; trCanceledBy := 0 |}).

Definition ClearProcessingProposals : M (GovWorld W) unit :=
  votingIDList ← get_gov votingIDs;
  for_each (λ votingID, clearProcessingProposal votingID true) votingIDList ≫= λ _,
  preactiveID ← get_gov GetPreActiveProposalID;
  when (negb (preactiveID =? 0)) (clearProcessingProposal preactiveID false).
End operations.
