(* ===== verification/GovPlugin.v ===== *)
(** * The governance plugin (src/pos/plugin/gov_plugin.go)

    What governance does when a block begins (verifiers of a new epoch, activation
    of a version) and ends (tally of the proposals whose vote ends there), and the
    transactions of its contract (src/ethereum/core/vm/gov_contract.go). *)

From S2P Require Import Prelude Xcom Xutil StateDB StakingTypes GovTypes GovDB GovParams Gov.

(** ** Code version (src/configs/version.go) *)

Definition VersionMajor : Z := 1.
Definition VersionMinor : Z := 1.
Definition VersionPatch : Z := 1.

Definition CodeVersion : Z :=
  Z.lor (Z.lor (Z.shiftl VersionMajor 16) (Z.shiftl VersionMinor 8)) VersionPatch.

Definition LtMinorVersion (version : Z) : bool := Z.shiftr CodeVersion 8 <? Z.shiftr version 8.

(** ** Tally *)

(** Votes cast per verifier and votes in favour per vote, in ten thousandths. *)
Definition rates (yeas nays abstentions verifiersCnt : Z) : Z * Z :=
  let cast := u64 (u64 (yeas + nays) + abstentions) in
  if (0 <? cast) && (0 <? verifiersCnt) then
    (u64 (cast * RateCoefficient) / verifiersCnt, u64 (yeas * RateCoefficient) / cast)
  else (0, 0).

(** The thresholds of a type of proposal; [None] for the types the switch does
    not list. *)
Definition thresholds (gov : governanceConfig) (proposalType : Z) : option (Z * Z) :=
  if proposalType =? Text then Some (TextProposalVoteRate gov, TextProposalSupportRate gov)
  else if proposalType =? Cancel then
    Some (CancelProposalVoteRate gov, CancelProposalSupportRate gov)
  else if proposalType =? Param then
    Some (ParamProposalVoteRate gov, ParamProposalSupportRate gov)
  else None.

Definition tallyStatus (gov : governanceConfig) (proposalType voteRate supportRate : Z) : Z :=
  match thresholds gov proposalType with
  | Some (minVote, minSupport) =>
      if (minVote <? voteRate) && (minSupport <=? supportRate) then Pass else Failed
  | None => Voting
  end.

Section plugin.
Context `{GovNode} {W : Type} `{StakingPlugin W}.

Definition tally (proposalType proposalID : Z) (pipID : string) : M (GovWorld W) bool :=
  verifierList ← get_gov (getAccuVerifiers proposalID);
  let verifiersCnt := Z.of_nat (length verifierList) in
  '(yeas, nays, abstentions) ← get_gov (TallyVoteValue proposalID);
  let '(voteRate, supportRate) := rates yeas nays abstentions verifiersCnt in
  let status := tallyStatus (Gov em) proposalType voteRate supportRate in
  put_gov (SetTallyResult {| trProposalID := proposalID; trYeas := yeas; trNays := nays;
    trAbstentions := abstentions; trAccuVerifiers := verifiersCnt; trStatus := status;
    trCanceledBy := 0 |}) ≫= λ _,
  try_gov (MoveVotingProposalIDToEnd proposalID) ≫= λ _,
  when (status =? Pass) (put_gov (AddPIPID pipID)) ≫= λ _,
  mret (status =? Pass).

Definition tallyText (tp : TextProposal) : M (GovWorld W) bool :=
  tally Text (tpProposalID tp) (tpPIPID tp).

Definition tallyParam (pp : ParamProposal) (blockNumber : Z) : M (GovWorld W) bool :=
  pass ← tally Param (ppProposalID pp) (ppPIPID pp);
  when pass
    (try_gov (updateGovernParamValue (ppModule pp) (ppName pp) (ppNewValue pp)
                (u64 (blockNumber + 1)))) ≫= λ _,
  mret true.

Definition versionSupport (yeas verifiersCnt : Z) : Z :=
  if 0 <? verifiersCnt then u64 (yeas * RateCoefficient) / verifiersCnt else 0.

Definition tallyVersion (proposal : VersionProposal) : M (GovWorld W) unit :=
  let proposalID := vpProposalID proposal in
  verifierList ← get_gov (getAccuVerifiers proposalID);
  let verifiersCnt := Z.of_nat (length verifierList) in
  voteList ← get_gov (ListVoteValue proposalID);
  let yeas := Z.of_nat (length voteList) in
  status ←
    (if VersionProposalSupportRate (Gov em) <=? versionSupport yeas verifiersCnt then
       put_gov (AddPIPID (vpPIPID proposal)) ≫= λ _,
       try_gov (MoveVotingProposalIDToPreActive proposalID (vpNewVersion proposal)) ≫= λ _,
       put_gov (setPreActiveVersion (vpNewVersion proposal)) ≫= λ _,
       activeList ← get_gov (getActiveNodeList proposalID);
       on_stk (ProposalPassedNotify activeList (vpNewVersion proposal)) ≫= λ _,
       mret PreActive
     else
       try_gov (MoveVotingProposalIDToEnd proposalID) ≫= λ _,
       put_gov (deleteActiveNodeList proposalID) ≫= λ _,
       mret Failed);
  put_gov (SetTallyResult {| trProposalID := proposalID; trYeas := yeas; trNays := 0;
    trAbstentions := 0; trAccuVerifiers := verifiersCnt; trStatus := status;
    trCanceledBy := 0 |}).

(** The result of a proposal that is canceled: the votes so far. *)
Definition canceledResult (r : option TallyResult) (target yeas verifiersCnt canceledBy : Z)
    : TallyResult :=
  let r := default {| trProposalID := target; trYeas := 0; trNays := 0; trAbstentions := 0;
    trAccuVerifiers := 0; trStatus := 0; trCanceledBy := 0 |} r in
  {| trProposalID := trProposalID r; trYeas := yeas; trNays := trNays r;
     trAbstentions := trAbstentions r; trAccuVerifiers := verifiersCnt;
     trStatus := Canceled; trCanceledBy := canceledBy |}.

Definition tallyCancel (cp : CancelProposal) : M (GovWorld W) bool :=
  pass ← tally Cancel (cpProposalID cp) (cpPIPID cp);
  if negb pass then mret true
  else
    let target := cpTobeCanceled cp in
    proposal ← ask_gov (GetExistProposal target);
    ask (reject (negb (GetProposalType proposal =? Version)
                 && negb (GetProposalType proposal =? Param))
           TobeCanceledProposalTypeError) ≫= λ _,
    votingProposalIDList ← get_gov votingIDs;
    ask (reject (negb (InHashList target votingProposalIDList))
           TobeCanceledProposalNotAtVoting) ≫= λ _,
    tallyResult ← ask_gov (GetTallyResult target);
    if match tallyResult with
       | Some r => negb (trStatus r =? Voting)
       | None => false
       end
    then mret false
    else
      verifierList ← get_gov (getAccuVerifiers target);
      voteList ← get_gov (ListVoteValue target);
      put_gov (SetTallyResult (canceledResult tallyResult target
        (Z.of_nat (length voteList)) (Z.of_nat (length verifierList))
        (cpProposalID cp))) ≫= λ _,
      when (cpProposalType cp =? Version) (put_gov (deleteActiveNodeList target)) ≫= λ _,
      try_gov (MoveVotingProposalIDToEnd target) ≫= λ _,
      mret true.

(** ** Blocks *)

Definition accuVerifiersAtBeginOfSettlement (blockNumber : Z) : M (GovWorld W) unit :=
  votingProposalIDs ← get_gov votingIDs;
  match votingProposalIDs with
  | [] => mret tt
  | _ =>
      verifierList ← on_stk (ListVerifierNodeID blockNumber);
      for_each (λ votingProposalID, put_gov (addAccuVerifiers votingProposalID verifierList))
        votingProposalIDs
  end.

(** The version of the proposal becomes the active one. *)
Definition activate (blockNumber preActiveID : Z) (vp : VersionProposal)
    : M (GovWorld W) unit :=
  if LtMinorVersion (vpNewVersion vp) then panic
  else
    tallyResult ← ask_gov (GetTallyResult preActiveID);
    match tallyResult with
    | None => mret tt
    | Some r =>
        put_gov (SetTallyResult {| trProposalID := trProposalID r; trYeas := trYeas r;
          trNays := trNays r; trAbstentions := trAbstentions r;
          trAccuVerifiers := trAccuVerifiers r; trStatus := Active;
          trCanceledBy := trCanceledBy r |}) ≫= λ _,
        put_gov (MovePreActiveProposalIDToEnd preActiveID) ≫= λ _,
        put_gov (deleteActiveNodeList preActiveID) ≫= λ _,
        put_gov (AddActiveVersion (vpNewVersion vp) blockNumber)
    end.

Definition GovBeginBlock (blockNumber : Z) : M (GovWorld W) unit :=
  if negb (IsBeginOfConsensus em blockNumber) then mret tt
  else
    when (IsBeginOfEpoch em blockNumber)
      (accuVerifiersAtBeginOfSettlement blockNumber) ≫= λ _,
    preActiveID ← get_gov GetPreActiveProposalID;
    if preActiveID =? 0 then mret tt
    else
      preActive ← ask_gov (GetExistProposal preActiveID);
      match preActive with
      | VersionP vp =>
          when (blockNumber =? vpActiveBlock vp) (activate blockNumber preActiveID vp)
      | _ => mret tt
      end.

(** One proposal of the loop of [EndBlock].  The type tag is that of the
    proposal's struct once it is verified; a mismatch fails the assertion. *)
Definition endVoting (isElection isEndOfEpoch : bool) (blockNumber votingProposalID : Z)
    : M (GovWorld W) unit :=
  p ← ask_gov (GetExistProposal votingProposalID);
  if negb (GetEndVotingBlock p =? blockNumber) then mret tt
  else if (GetProposalType p =? Text) && isElection then
    match p with TextP tp => _ ← tallyText tp; mret tt | _ => panic end
  else if (GetProposalType p =? Version) && isElection then
    match p with VersionP vp => tallyVersion vp | _ => panic end
  else if (GetProposalType p =? Cancel) && isElection then
    match p with CancelP cp => _ ← tallyCancel cp; mret tt | _ => panic end
  else if (GetProposalType p =? Param) && isEndOfEpoch then
    match p with ParamP pp => _ ← tallyParam pp blockNumber; mret tt | _ => panic end
  else fail ProposalTypeError.

Definition GovEndBlock (blockNumber : Z) : M (GovWorld W) unit :=
  let isElection := IsElection em blockNumber in
  let isEndOfEpoch := negb isElection && IsEndOfEpoch em blockNumber in
  if negb isElection && negb isEndOfEpoch then mret tt
  else
    votingProposalIDs ← get_gov votingIDs;
    for_each (endVoting isElection isEndOfEpoch blockNumber) votingProposalIDs.

(** ** Transactions (gov_contract.go) *)

Definition ErrOutOfGas := GenericError.
Definition ErrUnderPrice := GenericError.

Definition SubmitTextProposalGas : Z := 320000.
Definition SubmitVersionProposalGas : Z := 450000.
Definition SubmitCancelProposalGas : Z := 500000.
Definition SubmitParamProposalGas : Z := 500000.
Definition VoteGas : Z := 2000.
Definition DeclareVersionGas : Z := 3000.

Definition SubmitTextProposalGasPrice : Z := 1500000 * 1000000000.
Definition SubmitVersionProposalGasPrice : Z := 2100000 * 1000000000.
Definition SubmitCancelProposalGasPrice : Z := 3000000 * 1000000000.
Definition SubmitParamProposalGasPrice : Z := 2000000 * 1000000000.

(** The price check of the transaction pool, by function code. *)
Definition SubmitTextCode : Z := 2000.
Definition SubmitVersionCode : Z := 2001.
Definition SubmitParamCode : Z := 2002.
Definition SubmitCancelCode : Z := 2005.

Definition CheckGasPrice (gasPrice fcode : Z) : outcome unit :=
  if fcode =? SubmitTextCode then
    reject (gasPrice <? SubmitTextProposalGasPrice) InvalidParameter
  else if fcode =? SubmitVersionCode then
    reject (gasPrice <? SubmitVersionProposalGasPrice) InvalidParameter
  else if fcode =? SubmitCancelCode then
    reject (gasPrice <? SubmitCancelProposalGasPrice) InvalidParameter
  else if fcode =? SubmitParamCode then
    reject (gasPrice <? SubmitParamProposalGasPrice) InvalidParameter
  else Ok tt.

(** The transaction a handler runs in; [gtHash] is zero for a gas estimate. *)
Record GovTx := {
  gtFrom : Z;
  gtBlockNumber : Z;
  gtHash : Z;
  gtGas : Z;
  gtGasPrice : Z }.

Section contract.
Context (tx : GovTx).

(** Gas, the estimate, the price, then the operation. *)
Definition govCall (gas : Z) (price : option Z) (op : M (GovWorld W) unit)
    : M (GovWorld W) unit :=
  ask (reject (gtGas tx <? gas) ErrOutOfGas) ≫= λ _,
  if gtHash tx =? 0 then mret tt
  else
    ask (reject (match price with Some p => gtGasPrice tx <? p | None => false end)
           ErrUnderPrice) ≫= λ _,
    op.

Definition submitText (verifier : Z) (pipID : string) : M (GovWorld W) unit :=
  govCall SubmitTextProposalGas (Some SubmitTextProposalGasPrice)
    (Submit (gtFrom tx)
       (TextP {| tpProposalID := gtHash tx; tpProposalType := Text; tpPIPID := pipID;
                 tpSubmitBlock := gtBlockNumber tx; tpEndVotingBlock := 0;
                 tpProposer := verifier |}) (gtBlockNumber tx)).

Definition submitVersion (verifier : Z) (pipID : string) (newVersion endVotingRounds : Z)
    : M (GovWorld W) unit :=
  govCall SubmitVersionProposalGas (Some SubmitVersionProposalGasPrice)
    (Submit (gtFrom tx)
       (VersionP {| vpProposalID := gtHash tx; vpProposalType := Version; vpPIPID := pipID;
                    vpSubmitBlock := gtBlockNumber tx; vpEndVotingRounds := endVotingRounds;
                    vpEndVotingBlock := 0; vpProposer := verifier;
                    vpNewVersion := newVersion; vpActiveBlock := 0 |}) (gtBlockNumber tx)).

Definition submitCancel (verifier : Z) (pipID : string) (endVotingRounds tobeCanceled : Z)
    : M (GovWorld W) unit :=
  govCall SubmitCancelProposalGas (Some SubmitCancelProposalGasPrice)
    (Submit (gtFrom tx)
       (CancelP {| cpProposalID := gtHash tx; cpProposalType := Cancel; cpPIPID := pipID;
                   cpSubmitBlock := gtBlockNumber tx; cpEndVotingRounds := endVotingRounds;
                   cpEndVotingBlock := 0; cpProposer := verifier;
                   cpTobeCanceled := tobeCanceled |}) (gtBlockNumber tx)).

Definition submitParam (verifier : Z) (pipID module name newValue : string)
    : M (GovWorld W) unit :=
  govCall SubmitParamProposalGas (Some SubmitParamProposalGasPrice)
    (Submit (gtFrom tx)
       (ParamP {| ppProposalID := gtHash tx; ppProposalType := Param; ppPIPID := pipID;
                  ppSubmitBlock := gtBlockNumber tx; ppEndVotingBlock := 0;
                  ppProposer := verifier; ppModule := module; ppName := name;
                  ppNewValue := newValue |}) (gtBlockNumber tx)).

Definition vote (verifier proposalID op programVersion programVersionSign : Z)
    : M (GovWorld W) unit :=
  govCall VoteGas None
    (Vote (gtFrom tx)
       {| viProposalID := proposalID; viVoteNodeID := verifier;
          viVoteOption := ParseVoteOption op |}
       (gtBlockNumber tx) programVersion programVersionSign).

Definition declareVersion (activeNode programVersion programVersionSign : Z)
    : M (GovWorld W) unit :=
  govCall DeclareVersionGas None
    (DeclareVersion (gtFrom tx) activeNode programVersion programVersionSign).
End contract.

(** [getAccuVerifiersCount]: verifiers, yeas, nays and abstentions as they were at
    the block the client names ([view]); the proposal is looked up in the present. *)
Definition getAccuVerifiersCount (proposalID : Z) (g view : GovStore) : outcome (list Z) :=
  match GetProposal proposalID g with
  | None => Err ProposalNotFound
  | Some _ =>
      let '(yeas, nays, abstentions) := TallyVoteValue proposalID view in
      Ok [Z.of_nat (length (getAccuVerifiers proposalID view)); yeas; nays; abstentions]
  end.

(** [getTallyResult]: a missing result is an error. *)
Definition getTallyResult (proposalID : Z) (g : GovStore) : outcome TallyResult :=
  match GetTallyResult proposalID g with
  | Ok (Some r) => Ok r
  | _ => Err TallyResultNotFound
  end.
End plugin.
