(* ===== verification/GovProofs.v ===== *)
(** * Governance: what holds in every reachable state

    The chain of blocks as a transition system ([gov_step]): transactions of the
    governance contract, punishments, changes of staking, and the step from one
    block to the next.  [gov_inv] is the invariant of the proposals: which can be at
    voting stage together, when their votes end, what a cancellation refers to,
    that versions only go up, and that only verifiers have voted, once each. *)

From S2P Require Import Prelude Xcom Xutil StateDB StakingTypes GovTypes GovDB GovParams Gov.
From S2P Require Import GovPlugin.

(** ** What governance relies on in staking *)

Definition verifierIDs {W} `{StakingPlugin W} (s : W) (b : Z) : list Z :=
  match (ListVerifierNodeID b s).1 with Ok l => l | _ => [] end.

Class StakingLaws (W : Type) `{StakingPlugin W} := {
  (** a consistent state of the plugin *)
  staking_ok : W → Prop;
  GetVerifierList_reads b s : (GetVerifierList b s).2 = s;
  ListVerifierNodeID_reads b s : (ListVerifierNodeID b s).2 = s;
  GetCanBaseList_reads s : (GetCanBaseList s).2 = s;
  GetCanMutable_reads a s : (GetCanMutable a s).2 = s;
  (** the verifiers are those of the list of node ids *)
  verifiers_listed b s l v :
    staking_ok s → (GetVerifierList b s).1 = Ok l → v ∈ l → vxNodeId v ∈ verifierIDs s b;
  (** where the verifiers can be listed, so can their ids *)
  ids_listed b s l :
    staking_ok s → (GetVerifierList b s).1 = Ok l → ∃ ids, (ListVerifierNodeID b s).1 = Ok ids;
  (** promoting versions leaves the lists of verifiers alone *)
  declare_ok n v s : staking_ok s → staking_ok (DeclarePromoteNotify n v s).2;
  declare_ids n v s b : verifierIDs (DeclarePromoteNotify n v s).2 b = verifierIDs s b;
  passed_ok l v s : staking_ok s → staking_ok (ProposalPassedNotify l v s).2;
  passed_ids l v s b : verifierIDs (ProposalPassedNotify l v s).2 b = verifierIDs s b;
  passed_succeeds l v s : (ProposalPassedNotify l v s).1 = Ok tt }.

(** ** Configuration *)

(** The durations of votes, in rounds and seconds, are far below 64 bits. *)
Record gov_config_ok (ec : EconomicModel) : Prop := {
  gc_wf : ec_wf ec;
  gc_text : 0 <= EstimateConsensusRoundsForGov ec
                   (TextProposalVoteDurationSeconds (Gov ec)) < 2 ^ 20;
  gc_version : 0 <= EstimateConsensusRoundsForGov ec
                      (VersionProposalVoteDurationSeconds (Gov ec)) < 2 ^ 20;
  gc_param : 0 <= ParamProposalVoteDurationSeconds (Gov ec) < 2 ^ 58 }.

(** ** The transition system *)

Section system.
Context `{GovNode} {W : Type} `{StakingPlugin W}.

Inductive govTx :=
  | SubmitTextTx (verifier : Z) (pipID : string)
  | SubmitVersionTx (verifier : Z) (pipID : string) (newVersion endVotingRounds : Z)
  | SubmitCancelTx (verifier : Z) (pipID : string) (endVotingRounds tobeCanceled : Z)
  | SubmitParamTx (verifier : Z) (pipID module name newValue : string)
  | VoteTx (verifier proposalID op programVersion programVersionSign : Z)
  | DeclareTx (activeNode programVersion programVersionSign : Z).

Definition govExec (tx : GovTx) (op : govTx) : M (GovWorld W) unit :=
  match op with
  | SubmitTextTx v pip => submitText tx v pip
  | SubmitVersionTx v pip nv rounds => submitVersion tx v pip nv rounds
  | SubmitCancelTx v pip rounds target => submitCancel tx v pip rounds target
  | SubmitParamTx v pip m n value => submitParam tx v pip m n value
  | VoteTx v pid op pv sign => vote tx v pid op pv sign
  | DeclareTx n pv sign => declareVersion tx n pv sign
  end.

(** The rounds of a cancellation are not bounded by the code; see
    [cancel_rounds_overflow] for what happens above. *)
Definition tx_ok (op : govTx) : Prop :=
  match op with
  | SubmitCancelTx _ _ rounds _ => rounds < 2 ^ 20
  | _ => True
  end.

Definition keep {A} (m : M (GovWorld W) A) (w : GovWorld W) : GovWorld W :=
  match m w with
  | (Ok _, w') => w'
  | _ => w
  end.

(** A chain at block [b]. *)
Inductive gov_step `{StakingLaws W} : Z * GovWorld W → Z * GovWorld W → Prop :=
  | step_tx b w tx op :
      gtBlockNumber tx = b → tx_ok op → gov_step (b, w) (b, keep (govExec tx op) w)
  | step_punish b w punished :
      gov_step (b, w) (b, keep (NotifyPunishedVerifiers punished) w)
  (** staking changes its state; during an epoch verifiers can only go *)
  | step_staking b w s :
      staking_ok s → verifierIDs s b ⊆ verifierIDs (stk w) b →
      gov_step (b, w) (b, {| gs := gs w; stk := s |})
  (** the block ends, staking prepares the next one, which begins *)
  | step_block b w w1 s w2 :
      b + 1 < 2 ^ 58 →
      GovEndBlock b w = (Ok tt, w1) →
      staking_ok s →
      (IsBeginOfEpoch em (b + 1) = false →
       verifierIDs s (b + 1) ⊆ verifierIDs (stk w1) b) →
      GovBeginBlock (b + 1) {| gs := gs w1; stk := s |} = (Ok tt, w2) →
      gov_step (b, w) (b + 1, w2).
End system.

(** ** The invariant *)

Definition voting (g : GovStore) (id : Z) (p : Proposal) : Prop :=
  id ∈ votingIDs g ∧ proposals g !! id = Some p.

(** Version and parameter proposals exclude each other. *)
Definition major (p : Proposal) : Prop :=
  match p with VersionP _ | ParamP _ => True | _ => False end.

Section invariant.
Context `{GovNode}.

(** The vote ends at a block at which proposals of the type are tallied. *)
Definition due (b : Z) (p : Proposal) : Prop :=
  b <= GetEndVotingBlock p < 2 ^ 60 ∧
  match p with
  | TextP tp => tpProposalType tp = Text ∧ IsElection em (tpEndVotingBlock tp) = true
  | VersionP vp => vpProposalType vp = Version ∧ IsElection em (vpEndVotingBlock vp) = true
      ∧ vpActiveBlock vp = vpEndVotingBlock vp + ElectionDistance em + 1
  | CancelP cp => cpProposalType cp = Cancel ∧ IsElection em (cpEndVotingBlock cp) = true
  | ParamP pp => ppProposalType pp = Param ∧ IsEndOfEpoch em (ppEndVotingBlock pp) = true
  end.

(** The version that waits for its activation. *)
Record pre_active (b : Z) (g : GovStore) (pid : Z) (vp : VersionProposal) : Prop := {
  pa_id : pid ≠ 0;
  pa_alone : ∀ id p, voting g id p → ¬ major p;
  pa_proposal : proposals g !! pid = Some (VersionP vp);
  pa_result : ∃ r, tallyResults g !! pid = Some r ∧ trProposalID r = pid;
  pa_version : preActiveVersion g = Some (vpNewVersion vp);
  pa_newer : minor (GetCurrentActiveVersion g) < minor (vpNewVersion vp);
  pa_block : b < vpActiveBlock vp;
  pa_begin : IsBeginOfConsensus em (vpActiveBlock vp) = true }.

(** At block [b]; versions whose block is at most [bp] are active.  [curr] are the
    verifiers of the epoch. *)
Record gov_inv (b bp : Z) (curr : list Z) (g : GovStore) : Prop := {
  gi_nodup : NoDup (votingIDs g);
  gi_stored : ∀ id, id ∈ votingIDs g → ∃ p, voting g id p;
  gi_due : ∀ id p, voting g id p →
    GetProposalID p = id ∧ id ≠ 0 ∧ due b p ∧ tallyResults g !! id = None;
  gi_major : ∀ id1 p1 id2 p2,
    voting g id1 p1 → voting g id2 p2 → major p1 → major p2 → id1 = id2;
  gi_cancel : ∀ id1 cp1 id2 cp2,
    voting g id1 (CancelP cp1) → voting g id2 (CancelP cp2) → id1 = id2;
  gi_target : ∀ id cp, voting g id (CancelP cp) → ∃ p, voting g (cpTobeCanceled cp) p
    ∧ major p ∧ cpEndVotingBlock cp < GetEndVotingBlock p;
  gi_newer : ∀ id vp, voting g id (VersionP vp) →
    minor (GetCurrentActiveVersion g) < minor (vpNewVersion vp);
  gi_pre : match preActiveID g with
    | None => preActiveVersion g = None
    | Some pid => ∃ vp, pre_active bp g pid vp
    end;
  gi_versions : StronglySorted (λ x y, minor (ActiveVersion y) < minor (ActiveVersion x))
    (activeVersions g);
  gi_votes : ∀ id, id ∈ votingIDs g → NoDup (VoteNodeID <$> ListVoteValue id g)
    ∧ (VoteNodeID <$> ListVoteValue id g) ⊆ getAccuVerifiers id g
    ∧ curr ⊆ getAccuVerifiers id g;
  gi_voted : ∀ id, ListVoteValue id g ≠ [] → is_Some (proposals g !! id);
  gi_results : ∀ id, is_Some (tallyResults g !! id) → is_Some (proposals g !! id) }.

(** The parameters are in range, and stay so if a parameter proposal passes. *)
Record param_inv (b : Z) (g : GovStore) : Prop := {
  pi_settled : settled b g;
  pi_reads : ∃ p, reads b g p ∧ params_ok em p;
  pi_voting : ∀ id pp, voting g id (ParamP pp) →
    ∃ verifier v, ParamVerifierMap em !! KeyParamValue (ppModule pp) (ppName pp)
                  = Some verifier
    ∧ verifier b g (ppNewValue pp) = Ok tt
    ∧ paramValues g !! KeyParamValue (ppModule pp) (ppName pp) = Some v }.
End invariant.

Record chain_inv `{GovNode} {W} `{StakingLaws W} (b : Z) (w : GovWorld W) : Prop := {
  ci_bound : 0 <= b < 2 ^ 58;
  ci_gov : gov_inv b b (verifierIDs (stk w) b) (gs w);
  ci_param : param_inv b (gs w);
  ci_staking : staking_ok (stk w) }.

(** ** Parameters that do not change *)

Section stable.
Context {b b' : Z} {g g' : GovStore}.
Context (Hsame : ∀ m n, GetGovernParamValue b' g' m n = GetGovernParamValue b g m n).

Lemma governBig_stable m n : governBig b' g' m n = governBig b g m n.
Proof using Hsame. unfold governBig. by rewrite Hsame. Qed.

Lemma governInt_stable conv m n : governInt b' g' conv m n = governInt b g conv m n.
Proof using Hsame. unfold governInt. by rewrite Hsame. Qed.

Lemma reads_stable p : reads b g p → reads b' g' p.
Proof using Hsame.
  intros []; constructor;
    lazymatch goal with |- ?f _ _ = _ => unfold f in * end;
    rewrite ?governBig_stable, ?governInt_stable; assumption.
Qed.

Lemma verifier_stable `{GovNode} k verifier v :
  ParamVerifierMap em !! k = Some verifier → verifier b' g' v = verifier b g v.
Proof using Hsame.
  unfold ParamVerifierMap, initParam.
  cbn [foldl param ipItem ipVerifier piModule piName]. intros Hv.
  repeat (apply lookup_insert_Some in Hv as [[_ <-]|[_ Hv]]; [|]); [..|done].
  all: unfold GovernUnStakeFreezeDuration, GovernMaxEvidenceAge,
    GovernZeroProduceFreezeDuration, GovernZeroProduceNumberThreshold,
    GovernZeroProduceCumulativeTime; by rewrite ?governInt_stable.
Qed.
End stable.

Lemma same_params_read b g g' m n :
  paramValues g' = paramValues g → GetGovernParamValue b g' m n = GetGovernParamValue b g m n.
Proof. intros E. unfold GetGovernParamValue, findGovernParamValue. by rewrite E. Qed.

Lemma settled_same b g g' : paramValues g' = paramValues g → settled b g → settled b g'.
Proof. unfold settled. by intros ->. Qed.

Lemma settled_later b b' g : settled b g → b <= b' → settled b' g.
Proof. intros Hs Hb k v Hv. apply Hs in Hv. lia. Qed.

Lemma param_inv_same `{GovNode} b g g' :
  paramValues g' = paramValues g →
  (∀ id pp, voting g' id (ParamP pp) → voting g id (ParamP pp)) →
  param_inv b g → param_inv b g'.
Proof.
  intros E Hv [Hs (p & Hr & Hp) Hvot]. split.
  - by eapply settled_same.
  - exists p. split; [|done]. eapply reads_stable; [|done]. intros. by apply same_params_read.
  - intros id pp Hpp. destruct (Hvot id pp (Hv _ _ Hpp)) as (f & v & Hf & Hok & Hval).
    exists f, v. split; [done|]. rewrite E. split; [|done]. rewrite <- Hok.
    eapply verifier_stable; [|done]. intros. by apply same_params_read.
Qed.

(** ** Removal of a proposal from the voting stage *)

(** [g'] is [g] after the proposal [pid] got a result and left the voting stage. *)
Record removed (pid : Z) (g g' : GovStore) : Prop := {
  rm_voting : votingIDs g' = filter (λ x, x ≠ pid) (votingIDs g);
  rm_proposals : proposals g' = proposals g;
  rm_result : ∃ r, tallyResults g' = <[pid := r]> (tallyResults g) ∧ trProposalID r = pid;
  rm_versions : activeVersions g' = activeVersions g;
  rm_votes : votes g' = votes g;
  rm_accu : accuVerifiers g' = accuVerifiers g;
  rm_params : paramValues g' = paramValues g }.

Section removal.
Context `{GovNode} {b bp : Z} {curr : list Z} {g g' : GovStore} {pid : Z}.
Context (Hinv : gov_inv b bp curr g) (Hrm : removed pid g g').

Lemma removed_voting id p : voting g' id p ↔ voting g id p ∧ id ≠ pid.
Proof using Hrm.
  unfold voting. rewrite (rm_voting _ _ _ Hrm), (rm_proposals _ _ _ Hrm).
  rewrite list_elem_of_filter. tauto.
Qed.

Lemma removed_current : GetCurrentActiveVersion g' = GetCurrentActiveVersion g.
Proof using Hrm.
  unfold GetCurrentActiveVersion, ListActiveVersion. by rewrite (rm_versions _ _ _ Hrm).
Qed.

Context (Hstored : is_Some (proposals g !! pid)).
Context (Hfree : ∀ id cp, voting g id (CancelP cp) → id ≠ pid → cpTobeCanceled cp ≠ pid).

(** All but what concerns the pre-active version. *)
Lemma removed_inv :
  (match preActiveID g' with
   | None => preActiveVersion g' = None
   | Some pid => ∃ vp, pre_active bp g' pid vp
   end) → gov_inv b bp curr g'.
Proof using Hinv Hrm Hstored Hfree.
  intros Hpre. destruct Hinv. split; try done.
  - rewrite (rm_voting _ _ _ Hrm). by apply NoDup_filter.
  - intros id. rewrite (rm_voting _ _ _ Hrm). intros [Hne Hin]%list_elem_of_filter.
    destruct (gi_stored0 id Hin) as [p Hp]. exists p. by apply removed_voting.
  - intros id p [Hv Hne]%removed_voting. destruct (gi_due0 id p Hv) as (? & ? & ? & ?).
    do 3 (split; [done|]). destruct (rm_result _ _ _ Hrm) as (r & -> & _).
    by rewrite lookup_insert_ne.
  - intros id1 p1 id2 p2 [? _]%removed_voting [? _]%removed_voting. eauto.
  - intros id1 p1 id2 p2 [? _]%removed_voting [? _]%removed_voting. eauto.
  - intros id cp [Hv Hne]%removed_voting. destruct (gi_target0 id cp Hv) as (p & Hp & ? & ?).
    exists p. split; [|done]. apply removed_voting. split; [done|]. by eapply Hfree.
  - intros id vp [Hv _]%removed_voting. rewrite removed_current. eauto.
  - by rewrite (rm_versions _ _ _ Hrm).
  - intros id. rewrite (rm_voting _ _ _ Hrm). intros [_ Hin]%list_elem_of_filter.
    unfold ListVoteValue, getAccuVerifiers in *.
    rewrite (rm_votes _ _ _ Hrm), (rm_accu _ _ _ Hrm). by apply gi_votes0.
  - intros id. unfold ListVoteValue in *.
    rewrite (rm_votes _ _ _ Hrm), (rm_proposals _ _ _ Hrm). apply gi_voted0.
  - intros id. rewrite (rm_proposals _ _ _ Hrm).
    destruct (rm_result _ _ _ Hrm) as (r & -> & _).
    rewrite lookup_insert_is_Some. intros [<-|[_ ?]]; [done|eauto].
Qed.

Lemma removed_pre :
  preActiveID g' = preActiveID g → preActiveVersion g' = preActiveVersion g →
  gov_inv b bp curr g'.
Proof using Hinv Hrm Hstored Hfree.
  intros E1 E2. apply removed_inv. rewrite E1, E2. pose proof (gi_pre _ _ _ _ Hinv) as Hpre.
  destruct (preActiveID g) as [q|]; [|done]. destruct Hpre as [vp []].
  exists vp. split; try done.
  - intros id p [Hv _]%removed_voting. by eapply pa_alone0.
  - by rewrite (rm_proposals _ _ _ Hrm).
  - destruct (rm_result _ _ _ Hrm) as (r & -> & Hr). destruct (decide (pid = q)) as [<-|Hne].
    + exists r. by rewrite lookup_insert_eq.
    + rewrite lookup_insert_ne by done. done.
  - by rewrite E2.
  - by rewrite removed_current.
Qed.
End removal.

(** ** Tallies *)

Section tallies.
Context `{GovNode} {W : Type} `{StakingLaws W}.
Implicit Types (w : GovWorld W) (g : GovStore).

Lemma move_to_end_run pid w :
  NoDup (votingIDs (gs w)) →
  try_gov (MoveVotingProposalIDToEnd pid) w
  = (Ok tt, {| gs := addEndID pid (set_votingIDs (gs w)
                       (filter (λ x, x ≠ pid) (votingIDs (gs w)))); stk := stk w |}).
Proof.
  intros Hnd. unfold try_gov, MoveVotingProposalIDToEnd. by rewrite remove_filter.
Qed.

(** What the common tally does: a result, the move to the end list, and the PIP id
    of a proposal that passed. *)
Lemma tally_run ty pid pip w :
  NoDup (votingIDs (gs w)) →
  ∃ pass g', tally ty pid pip w = (Ok pass, {| gs := g'; stk := stk w |})
    ∧ removed pid (gs w) g' ∧ preActiveID g' = preActiveID (gs w)
    ∧ preActiveVersion g' = preActiveVersion (gs w).
Proof.
  intros Hnd. unfold tally, get_gov. run_eval.
  destruct (TallyVoteValue pid (gs w)) as [[yeas nays] abst].
  destruct (rates _ _ _ _) as [vr sr].
  set (status := tallyStatus _ _ _ _). set (r := {| trProposalID := pid |}).
  unfold put_gov at 1. unfold modify.
  rewrite (move_to_end_run pid {| gs := SetTallyResult r (gs w); stk := stk w |}) by done.
  destruct (status =? Pass); run_eval; do 2 eexists; (split; [done|]);
    (split; [|done]); split; try done; by exists r.
Qed.

Record param_mid (b : Z) (g : GovStore) : Prop := {
  pm_settled : settled (b + 1) g;
  pm_reads : ∃ p, reads (b + 1) g p ∧ params_ok em p;
  pm_voting : ∀ id pp, voting g id (ParamP pp) → settled b g
    ∧ ∃ verifier v, ParamVerifierMap em !! KeyParamValue (ppModule pp) (ppName pp)
                    = Some verifier
      ∧ verifier b g (ppNewValue pp) = Ok tt
      ∧ paramValues g !! KeyParamValue (ppModule pp) (ppName pp) = Some v }.

(** The state while a block ends. *)
Record mid_inv (b : Z) (w : GovWorld W) : Prop := {
  mi_bound : 0 <= b < 2 ^ 58;
  mi_gov : gov_inv b b (verifierIDs (stk w) b) (gs w);
  mi_param : param_mid b (gs w);
  mi_staking : staking_ok (stk w) }.

(** The effect of the tally of [pid]: it leaves the voting stage with a result, no
    proposal enters it, and the others that end at the block stay in it. *)
Record end_effect (b pid : Z) (w w' : GovWorld W) : Prop := {
  ee_inv : mid_inv b w';
  ee_ids : verifierIDs (stk w') b = verifierIDs (stk w) b;
  ee_proposals : proposals (gs w') = proposals (gs w);
  ee_out : pid ∉ votingIDs (gs w');
  ee_result : is_Some (tallyResults (gs w') !! pid);
  ee_old : ∀ id, is_Some (tallyResults (gs w) !! id) → is_Some (tallyResults (gs w') !! id);
  ee_sub : votingIDs (gs w') ⊆ votingIDs (gs w);
  ee_stay : ∀ id p, voting (gs w) id p → GetEndVotingBlock p = b → id ≠ pid →
    id ∈ votingIDs (gs w') }.

Lemma param_mid_removed b pid g g' : param_mid b g → removed pid g g' → param_mid b g'.
Proof.
  intros [Hs [p [Hr Hp]] Hv] Hrm. pose proof (rm_params _ _ _ Hrm) as E.
  split.
  - by eapply settled_same.
  - exists p. split; [|done]. eapply reads_stable; [|done].
    intros m n. by apply same_params_read.
  - intros id pp [Hpp _]%(removed_voting Hrm). destruct (Hv id pp Hpp) as (? & f & v & ? & Hf & ?).
    split; [by eapply settled_same|]. exists f, v. split; [done|]. rewrite E. split; [|done].
    rewrite <- Hf. eapply verifier_stable; [|done]. intros m n. by apply same_params_read.
Qed.

Section end_step.
Context {b : Z} {w : GovWorld W} (Hmid : mid_inv b w).
Context {pid : Z} {p : Proposal} (Hp : voting (gs w) pid p) (Hend : GetEndVotingBlock p = b).

Local Abbreviation g := (gs w).
Local Abbreviation curr := (verifierIDs (stk w) b).

(** No cancellation that is still at voting stage refers to the proposal. *)
Lemma not_targeted id cp : voting g id (CancelP cp) → cpTobeCanceled cp ≠ pid.
Proof using Hmid Hp Hend.
  destruct Hmid as [_ Hinv _ _]. intros Hv <-.
  destruct (gi_target _ _ _ _ Hinv id cp Hv) as (q & Hq & _ & Hlt).
  destruct (gi_due _ _ _ _ Hinv id _ Hv) as (_ & _ & [? _] & _). cbn in *.
  destruct Hp as [_ E], Hq as [_ E']. rewrite E in E'. injection E' as <-. lia.
Qed.

Lemma end_removed g' :
  removed pid g g' → preActiveID g' = preActiveID g → preActiveVersion g' = preActiveVersion g →
  end_effect b pid w {| gs := g'; stk := stk w |}.
Proof using Hmid Hp Hend.
  intros Hrm E1 E2. assert (Hinv : gov_inv b b curr g').
  { eapply removed_pre; [by apply mi_gov|done|..|done|done].
    - destruct Hp. by eexists.
    - intros id cp Hv _. by eapply not_targeted. }
  destruct (rm_result _ _ _ Hrm) as (r & Er & _).
  split; cbn [gs stk]; try done.
  - destruct Hmid. split; cbn [gs stk]; [done..|by eapply param_mid_removed|done].
  - by apply (rm_proposals _ _ _ Hrm).
  - rewrite (rm_voting _ _ _ Hrm). by intros [? _]%list_elem_of_filter.
  - rewrite Er, lookup_insert_eq. by eexists.
  - intros id ?. rewrite Er. apply lookup_insert_is_Some. destruct (decide (pid = id)); auto.
  - rewrite (rm_voting _ _ _ Hrm). intros id [_ ?]%list_elem_of_filter. done.
  - intros id q [Hq _] _ Hne. rewrite (rm_voting _ _ _ Hrm). by apply list_elem_of_filter.
Qed.

Lemma tally_effect ty pip :
  ∃ pass w', tally ty pid pip w = (Ok pass, w') ∧ end_effect b pid w w'
    ∧ stk w' = stk w ∧ removed pid g (gs w') ∧ preActiveID (gs w') = preActiveID g
    ∧ preActiveVersion (gs w') = preActiveVersion g.
Proof using Hmid Hp Hend.
  destruct (tally_run ty pid pip w) as (pass & g' & -> & Hrm & E1 & E2).
  { apply (gi_nodup _ _ _ _ (mi_gov _ _ Hmid)). }
  exists pass, {| gs := g'; stk := stk w |}. split; [done|]. split; [by apply end_removed|done].
Qed.
End end_step.
End tallies.

(** The fields the invariant of the proposals does not depend on. *)
Lemma gov_inv_params `{GovNode} b bp curr g items values :
  gov_inv b bp curr g → gov_inv b bp curr (set_params g items values).
Proof.
  intros []. split; try done.
  destruct (preActiveID g) as [q|] eqn:E; cbn [preActiveID set_params]; rewrite E; [|done].
  destruct gi_pre0 as [vp []]. exists vp. by split.
Qed.

Lemma election_begins `{GovNode} n :
  ec_wf em → 0 <= n < 2 ^ 60 → IsElection em n = true →
  IsBeginOfConsensus em (n + ElectionDistance em + 1) = true.
Proof.
  intros Hwf Hn. unfold IsElection, IsBeginOfConsensus. rewrite !Z.eqb_eq.
  pose proof (ec_wf_ElectionDistance_lt _ Hwf).
  pose proof (ec_wf_ConsensusSize_bounds _ Hwf) as Hc. unfold FloorMaxConsensusVals in Hc.
  rewrite u64_small by (unfold in_u64; lia). intros Hm.
  rewrite Z.add_mod, Hm by lia. rewrite (Z.mod_small 1) by lia. apply Z.mod_small. lia.
Qed.

Section tally_kinds.
Context `{GovNode} {W : Type} `{StakingLaws W} (Hcfg : gov_config_ok em).
Context {b : Z} {w : GovWorld W} (Hmid : mid_inv b w).

Local Abbreviation g := (gs w).

Lemma tallyText_effect pid tp :
  voting g pid (TextP tp) → tpEndVotingBlock tp = b →
  ∃ pass w', tallyText tp w = (Ok pass, w') ∧ end_effect b pid w w'.
Proof using Hmid.
  intros Hp Hend. destruct (gi_due _ _ _ _ (mi_gov _ _ Hmid) _ _ Hp) as (E & _).
  cbn in E. unfold tallyText. rewrite E.
  destruct (tally_effect Hmid Hp Hend Text (tpPIPID tp)) as (pass & w' & -> & He & _). eauto.
Qed.

Lemma param_update_mid pid pp w1 g2 :
  voting g pid (ParamP pp) → end_effect b pid w w1 → removed pid g (gs w1) →
  updateGovernParamValue (ppModule pp) (ppName pp) (ppNewValue pp) (b + 1) (gs w1) = Ok g2 →
  param_mid b g2.
Proof using Hmid Hcfg.
  intros Hp He Hrm Hu.
  destruct (pm_voting _ _ (mi_param _ _ Hmid) pid pp Hp) as (Hs & f & v & Hf & Hok & Hv).
  assert (Hsame : ∀ m n, GetGovernParamValue b (gs w1) m n = GetGovernParamValue b g m n)
    by (intros; apply same_params_read, Hrm).
  assert (Hs1 : settled b (gs w1)) by (eapply settled_same; [apply Hrm|done]).
  destruct (pm_reads _ _ (mi_param _ _ (ee_inv _ _ _ _ He))) as (q & Hq & Hqok).
  assert (Hqb : reads b (gs w1) q).
  { eapply reads_stable; [|exact Hq]. intros m n. symmetry.
    by apply GetGovernParamValue_later; [|lia]. }
  split.
  - eapply (settled_update _ _ _ b (b + 1) (gs w1)); [done|lia|exact Hu].
  - eapply accepted_value_ok; [|exact Hqb|exact Hqok|done| |exact Hf| |exact Hu].
    + destruct (gc_wf _ Hcfg). unfold FloorMaxConsensusVals, CeilMaxConsensusVals in *. lia.
    + lia.
    + rewrite <- Hok. eapply verifier_stable; done.
  - intros id qq Hvq. exfalso. unfold updateGovernParamValue in Hu.
    destruct (paramValues (gs w1) !! _); [|done]. injection Hu as <-.
    assert (voting (gs w1) id (ParamP qq)) as [? Hne]%(removed_voting Hrm) by exact Hvq.
    apply Hne. eapply (gi_major _ _ _ _ (mi_gov _ _ Hmid)); [done|exact Hp|done|done].
Qed.

Lemma tallyParam_effect pid pp :
  voting g pid (ParamP pp) → ppEndVotingBlock pp = b →
  ∃ pass w', tallyParam pp b w = (Ok pass, w') ∧ end_effect b pid w w'.
Proof using Hmid Hcfg.
  intros Hp Hend. destruct (gi_due _ _ _ _ (mi_gov _ _ Hmid) _ _ Hp) as (E & _).
  cbn in E. unfold tallyParam. rewrite E.
  destruct (tally_effect Hmid Hp Hend Param (ppPIPID pp))
    as (pass & w1 & Ht & He & Estk & Hrm & _ & _).
  destruct pass.
  2: { exists true, w1. split; [|done]. by rewrite (bind_Ok_run _ _ _ _ _ Ht). }
  destruct (pm_voting _ _ (mi_param _ _ Hmid) pid pp Hp) as (_ & _ & v & _ & _ & Hv).
  rewrite <- (rm_params _ _ _ Hrm) in Hv.
  assert (Hu : ∃ vals, updateGovernParamValue (ppModule pp) (ppName pp) (ppNewValue pp) (b + 1)
            (gs w1) = Ok (set_params (gs w1) (paramItems (gs w1)) vals)).
  { unfold updateGovernParamValue. rewrite Hv. by eexists. }
  destruct Hu as [vals Hu].
  exists true, {| gs := set_params (gs w1) (paramItems (gs w1)) vals; stk := stk w1 |}. split.
  { rewrite (bind_Ok_run _ _ _ _ _ Ht). unfold try_gov. run_eval.
    pose proof (mi_bound _ _ Hmid). rewrite u64_small by (unfold in_u64; lia). by rewrite Hu. }
  pose proof (param_update_mid _ _ _ _ Hp He Hrm Hu) as Hpm.
  destruct He as [[] ? ? ? ? ? ? ?]. split; try done. split; try done.
  by apply gov_inv_params.
Qed.

Lemma tallyVersion_effect pid vp :
  voting g pid (VersionP vp) → vpEndVotingBlock vp = b →
  ∃ w', tallyVersion vp w = (Ok tt, w') ∧ end_effect b pid w w'.
Proof using Hmid Hcfg.
  intros Hp Hend. pose proof (mi_gov _ _ Hmid) as Hinv.
  destruct (gi_due _ _ _ _ Hinv _ _ Hp) as (E & Hid & ([_ Hub] & _ & Hel & Hact) & _).
  pose proof (gi_nodup _ _ _ _ Hinv) as Hnd. cbn in E. cbn in Hub.
  unfold tallyVersion, get_gov. rewrite E. run_eval.
  destruct (VersionProposalSupportRate _ <=? _).
  - unfold put_gov, on_stk. run_eval.
    unfold try_gov at 1, MoveVotingProposalIDToPreActive. rewrite remove_filter by done.
    cbn [mbind outcome_bind gs stk]. run_eval.
    set (l := getActiveNodeList _ _).
    pose proof (passed_succeeds l (vpNewVersion vp) (stk w)) as Hs1.
    pose proof (passed_ids l (vpNewVersion vp) (stk w) b) as Hs2.
    pose proof (passed_ok l (vpNewVersion vp) (stk w)) as Hs3.
    destruct (ProposalPassedNotify l (vpNewVersion vp) (stk w)) as [r s].
    cbn in Hs1, Hs2, Hs3. subst r. run_eval.
    eexists. split; [reflexivity|].
    set (g' := SetTallyResult _ _). assert (Hrm : removed pid g g').
    { split; try done. by eexists. }
    assert (Hinv' : gov_inv b b (verifierIDs (stk w) b) g').
    { eapply removed_inv; [exact Hinv|exact Hrm|..].
      - destruct Hp. by eexists.
      - intros id cp Hv _. by eapply (not_targeted Hmid Hp Hend).
      - cbn. exists vp. split; try done.
        + intros id q [Hv Hne]%(removed_voting Hrm) Hq. apply Hne.
          by eapply (gi_major _ _ _ _ Hinv).
        + by destruct Hp.
        + eexists. cbn. by rewrite lookup_insert_eq.
        + by eapply (gi_newer _ _ _ _ Hinv).
        + pose proof (ec_wf_ElectionDistance_lt _ (gc_wf _ Hcfg)). lia.
        + rewrite Hact. apply election_begins; [apply Hcfg| |done].
          pose proof (mi_bound _ _ Hmid). lia. }
    destruct Hmid. split; cbn [gs stk].
    + split; cbn [gs stk]; [done|by rewrite Hs2|by eapply param_mid_removed|by apply Hs3].
    + done.
    + done.
    + cbn. by intros [? _]%list_elem_of_filter.
    + cbn. rewrite lookup_insert_eq. by eexists.
    + intros id ?. cbn. apply lookup_insert_is_Some. destruct (decide (pid = id)); auto.
    + cbn. intros id [_ ?]%list_elem_of_filter. done.
    + intros id q [Hq _] _ Hne. cbn. by apply list_elem_of_filter.
  - unfold put_gov. run_eval. rewrite move_to_end_run by done. run_eval.
    eexists. split; [reflexivity|]. eapply (end_removed Hmid Hp Hend); [|done|done].
    split; try done. by eexists.
Qed.
End tally_kinds.

Lemma major_type `{GovNode} b p :
  major p → due b p →
  negb (GetProposalType p =? Version) && negb (GetProposalType p =? Param) = false.
Proof. destruct p; cbn; try done; [intros _ (_ & -> & _)|intros _ (_ & -> & _)]; done. Qed.

Section tally_cancel.
Context `{GovNode} {W : Type} `{StakingLaws W}.
Context {b : Z} {w : GovWorld W} (Hmid : mid_inv b w).
Context {pid : Z} {cp : CancelProposal} (Hp : voting (gs w) pid (CancelP cp)).
Context (Hend : cpEndVotingBlock cp = b).

(** After its own tally the target of a cancellation is still at voting stage,
    and no cancellation is left. *)
Lemma cancel_target w1 :
  end_effect b pid w w1 → removed pid (gs w) (gs w1) →
  (∃ p, voting (gs w1) (cpTobeCanceled cp) p ∧ major p ∧ due b p ∧ b < GetEndVotingBlock p
    ∧ tallyResults (gs w1) !! cpTobeCanceled cp = None)
  ∧ ∀ id q, ¬ voting (gs w1) id (CancelP q).
Proof using Hmid Hp Hend.
  intros He Hrm. pose proof (mi_gov _ _ Hmid) as Hinv. split.
  - destruct (gi_target _ _ _ _ Hinv _ _ Hp) as (p & Hv & Hm & Hlt).
    assert (Hv1 : voting (gs w1) (cpTobeCanceled cp) p).
    { apply (removed_voting Hrm). split; [done|]. intros E. rewrite E in Hv.
      destruct Hv as [_ Ev], Hp as [_ Ep]. rewrite Ep in Ev. by injection Ev as <-. }
    exists p. destruct (gi_due _ _ _ _ (mi_gov _ _ (ee_inv _ _ _ _ He)) _ _ Hv1)
      as (_ & _ & ? & ?).
    repeat (split; [done|]). split; [lia|done].
  - intros id q [Hv Hne]%(removed_voting Hrm). apply Hne. by eapply (gi_cancel _ _ _ _ Hinv).
Qed.

(** A proposal that ends later is taken out as well. *)
Lemma end_effect_also w1 target p g2 :
  end_effect b pid w w1 → voting (gs w1) target p → b < GetEndVotingBlock p →
  (∀ id q, ¬ voting (gs w1) id (CancelP q)) →
  removed target (gs w1) g2 → preActiveID g2 = preActiveID (gs w1) →
  preActiveVersion g2 = preActiveVersion (gs w1) →
  end_effect b pid w {| gs := g2; stk := stk w1 |}.
Proof.
  intros He Hv Hlt Hno Hrm E1 E2. destruct He as [[Hb Hinv Hpm Hst] ? ? ? ? ? ? ?].
  assert (Hinv2 : gov_inv b b (verifierIDs (stk w1) b) g2).
  { eapply removed_pre; [exact Hinv|exact Hrm|..|done|done].
    - destruct Hv. by eexists.
    - intros id q Hq. by destruct (Hno _ _ Hq). }
  destruct (rm_result _ _ _ Hrm) as (r & Er & _).
  split; cbn [gs stk]; try done.
  - split; cbn [gs stk]; [done..|by eapply param_mid_removed|done].
  - by rewrite (rm_proposals _ _ _ Hrm).
  - rewrite (rm_voting _ _ _ Hrm). by intros [_ ?]%list_elem_of_filter.
  - rewrite Er. apply lookup_insert_is_Some. destruct (decide (target = pid)); auto.
  - intros id Hid. rewrite Er. apply lookup_insert_is_Some.
    destruct (decide (target = id)); auto.
  - rewrite (rm_voting _ _ _ Hrm). intros id [_ ?]%list_elem_of_filter. auto.
  - intros id q Hq Hqe Hne. rewrite (rm_voting _ _ _ Hrm). apply list_elem_of_filter.
    split; [|eauto]. intros ->. destruct Hq as [_ Eq], Hv as [_ Ev].
    rewrite ee_proposals0, Eq in Ev. injection Ev as <-. lia.
Qed.

Lemma tallyCancel_effect :
  ∃ pass w', tallyCancel cp w = (Ok pass, w') ∧ end_effect b pid w w'.
Proof using Hmid Hp Hend.
  destruct (gi_due _ _ _ _ (mi_gov _ _ Hmid) _ _ Hp) as (E & _ & (_ & Hty & _) & _).
  cbn in E. unfold tallyCancel. rewrite E.
  destruct (tally_effect Hmid Hp Hend Cancel (cpPIPID cp))
    as (pass & w1 & Ht & He & Estk & Hrm & _ & _).
  rewrite (bind_Ok_run _ _ _ _ _ Ht). destruct pass; [|eauto].
  destruct (cancel_target w1 He Hrm) as ((p & Hv & Hm & Hdue & Hlt & Hnone) & Hno).
  cbn [negb]. unfold ask_gov, ask, get_gov, GetExistProposal, GetProposal, GetTallyResult, GetProposal.
  run_eval. pose proof Hv as [Hin Hsome]. rewrite Hsome, (major_type b p Hm Hdue).
  cbn [reject]. rewrite (proj2 (InHashList_spec _ _)) by done. cbn [reject negb].
  rewrite Hnone. rewrite Hty. change (Cancel =? Version) with false. cbv iota.
  unfold put_gov. run_eval. rewrite move_to_end_run.
  2: { apply (gi_nodup _ _ _ _ (mi_gov _ _ (ee_inv _ _ _ _ He))). }
  do 2 eexists. split; [reflexivity|].
  apply (end_effect_also w1 (cpTobeCanceled cp) p); try done.
  split; try done. eexists. by split.
Qed.
End tally_cancel.

(** ** The end of a block *)

Section end_block.
Context `{GovNode} {W : Type} `{StakingLaws W} (Hcfg : gov_config_ok em).

(** An election block is not the end of an epoch. *)
Lemma election_not_epoch_end n :
  0 <= n < 2 ^ 60 → IsElection em n = true → IsEndOfEpoch em n = false.
Proof using Hcfg.
  intros Hn. destruct Hcfg as [Hwf _ _ _]. unfold IsElection, IsEndOfEpoch.
  rewrite Z.eqb_eq, Z.eqb_neq. pose proof (ec_wf_ElectionDistance_lt _ Hwf) as Hd.
  pose proof (ec_wf_ConsensusSize_bounds _ Hwf) as Hc. unfold FloorMaxConsensusVals in Hc.
  pose proof (ec_wf_epoch_blocks _ Hwf) as [-> ?].
  rewrite u64_small by (unfold in_u64; lia). intros Hm He.
  destruct Hwf as [_ _ _ _ Hes].
  apply Z.mod_divide in He as [k ->]; [|nia]. revert Hm.
  replace (k * (ConsensusSize em * EpochSize em) + ElectionDistance em)
    with (ElectionDistance em + (k * EpochSize em) * ConsensusSize em) by lia.
  rewrite Z.mod_add by lia. rewrite Z.mod_small by lia. lia.
Qed.

Local Abbreviation isEl b := (IsElection em b).
Local Abbreviation isEnd b := (negb (IsElection em b) && IsEndOfEpoch em b).

Lemma endVoting_effect b (w : GovWorld W) pid p :
  mid_inv b w → voting (gs w) pid p → GetEndVotingBlock p = b →
  ∃ w', endVoting (isEl b) (isEnd b) b pid w = (Ok tt, w') ∧ end_effect b pid w w'.
Proof using Hcfg.
  intros Hmid Hp Hend. destruct (gi_due _ _ _ _ (mi_gov _ _ Hmid) _ _ Hp) as (_ & _ & Hd & _).
  unfold endVoting, ask_gov, GetExistProposal, GetProposal. run_eval.
  pose proof Hp as [_ ->]. cbv iota. rewrite Hend, Z.eqb_refl. cbn [negb].
  pose proof (mi_bound _ _ Hmid) as Hb.
  destruct p as [tp|vp|cp|pp]; cbn in Hend, Hd; cbn [GetProposalType].
  - destruct Hd as (_ & -> & He). rewrite Hend in He. rewrite He. cbn [Z.eqb andb Text Pos.eqb].
    destruct (tallyText_effect Hmid pid tp Hp Hend) as (? & w' & E & ?).
    exists w'. rewrite E. done.
  - destruct Hd as (_ & -> & He & _). rewrite Hend in He. rewrite He.
    destruct (tallyVersion_effect Hcfg Hmid pid vp Hp Hend) as (w' & E & ?).
    exists w'. by rewrite <- E.
  - destruct Hd as (_ & -> & He). rewrite Hend in He. rewrite He.
    destruct (tallyCancel_effect Hmid Hp Hend) as (? & w' & E & ?).
    exists w'. change (Cancel =? Text) with false. change (Cancel =? Version) with false.
    change (Cancel =? Cancel) with true. cbn [andb]. rewrite E. done.
  - destruct Hd as (_ & -> & He). rewrite Hend in He.
    assert (IsElection em b = false) as ->.
    { destruct (IsElection em b) eqn:Ee; [|done]. apply election_not_epoch_end in Ee; [|lia].
      congruence. }
    rewrite He. destruct (tallyParam_effect Hcfg Hmid pid pp Hp Hend) as (? & w' & E & ?).
    exists w'. change (Param =? Text) with false. change (Param =? Version) with false.
    change (Param =? Cancel) with false. change (Param =? Param) with true. cbn [andb negb].
    rewrite E. done.
Qed.

(** The proposals of the list whose vote ends at [b] are out, with a result. *)
Definition tallied (b : Z) (ids : list Z) (w w' : GovWorld W) : Prop :=
  ∀ id p, id ∈ ids → proposals (gs w) !! id = Some p → GetEndVotingBlock p = b →
  (id ∉ votingIDs (gs w')) ∧ is_Some (tallyResults (gs w') !! id).

Lemma end_loop b ids (w : GovWorld W) :
  mid_inv b w → NoDup ids →
  (∀ id, id ∈ ids → ∃ p, proposals (gs w) !! id = Some p
    ∧ (GetEndVotingBlock p = b → id ∈ votingIDs (gs w))) →
  ∃ w', for_each (endVoting (isEl b) (isEnd b) b) ids w = (Ok tt, w')
    ∧ mid_inv b w' ∧ verifierIDs (stk w') b = verifierIDs (stk w) b
    ∧ votingIDs (gs w') ⊆ votingIDs (gs w) ∧ proposals (gs w') = proposals (gs w)
    ∧ (∀ id, is_Some (tallyResults (gs w) !! id) → is_Some (tallyResults (gs w') !! id))
    ∧ tallied b ids w w'.
Proof using Hcfg.
  revert w. induction ids as [|id ids IH]; intros w Hmid Hnd Hids; cbn [for_each].
  { exists w. repeat (split; [done|]). by intros ? ? ?%not_elem_of_nil. }
  apply NoDup_cons in Hnd as [Hid Hnd].
  destruct (Hids id ltac:(by apply elem_of_cons; left)) as (p & Hp & Hin).
  destruct (decide (GetEndVotingBlock p = b)) as [Hend|Hend].
  - destruct (endVoting_effect b w id p Hmid (conj (Hin Hend) Hp) Hend) as (w1 & E1 & He).
    rewrite (bind_Ok_run _ _ _ _ _ E1).
    destruct (IH w1) as (w' & -> & Hm' & Hc & Hsub & Hpr & Hold & Ht); [apply He|done|..].
    { intros x Hx. destruct (Hids x) as (q & Hq & Hqin); [by apply elem_of_cons; right|].
      exists q. rewrite (ee_proposals _ _ _ _ He). split; [done|]. intros Hqe.
      eapply (ee_stay _ _ _ _ He); [split; [by apply Hqin|done]|done|congruence]. }
    exists w'. split; [done|]. split; [done|]. rewrite Hc. split; [apply He|].
    split; [transitivity (votingIDs (gs w1)); [done|apply He]|].
    split; [rewrite Hpr; apply He|].
    split; [intros x Hx; by apply Hold, He|].
    intros x q Hx Hq Hqe. apply elem_of_cons in Hx as [->|Hx].
    + split; [intros Hx; by apply Hsub, (ee_out _ _ _ _ He) in Hx|by apply Hold, He].
    + eapply Ht; [done| |done]. by rewrite (ee_proposals _ _ _ _ He).
  - assert (endVoting (isEl b) (isEnd b) b id w = (Ok tt, w)) as E1.
    { unfold endVoting, ask_gov, GetExistProposal, GetProposal. run_eval. rewrite Hp.
      by rewrite (proj2 (Z.eqb_neq _ _) Hend). }
    rewrite (bind_Ok_run _ _ _ _ _ E1).
    destruct (IH w) as (w' & -> & Hm' & Hc & Hsub & Hpr & Hold & Ht); [done|done|..].
    { intros x Hx. apply Hids, elem_of_cons. by right. }
    exists w'. repeat (split; [done|]). intros x q Hx Hq Hqe.
    apply elem_of_cons in Hx as [->|Hx]; [congruence|by eapply Ht].
Qed.

Lemma chain_mid b (w : GovWorld W) : chain_inv b w → mid_inv b w.
Proof.
  intros [Hb Hg [Hs (q & Hr & Hq) Hv] Hst]. split; try done. split.
  - apply (settled_later b); [done|lia].
  - exists q. split; [|done]. eapply reads_stable; [|done].
    intros. by apply GetGovernParamValue_later; [|lia].
  - intros id pp Hpp. split; [done|]. by eapply Hv.
Qed.

Lemma param_mid_next b g : param_mid b g → param_inv (b + 1) g.
Proof.
  intros [Hs Hr Hv]. split; [done|done|]. intros id pp Hpp.
  destruct (Hv id pp Hpp) as (Hsb & f & v & Hf & Hok & ?). exists f, v.
  split; [done|]. split; [|done]. rewrite <- Hok. eapply verifier_stable; [|done].
  intros. by apply GetGovernParamValue_later; [|lia].
Qed.

Lemma due_next b p : due b p → GetEndVotingBlock p ≠ b → due (b + 1) p.
Proof. intros [? ?] ?. split; [lia|done]. Qed.

(** Outside election blocks and ends of epochs no vote ends. *)
Lemma not_due b p : due b p → isEl b = false → isEnd b = false → GetEndVotingBlock p ≠ b.
Proof.
  intros Hd Hel Hen Hend. rewrite Hel in Hen. cbn in Hen.
  destruct p; cbn in Hd, Hend; subst b;
    [destruct Hd as (_ & _ & Hd)|destruct Hd as (_ & _ & Hd & _)
    |destruct Hd as (_ & _ & Hd)|destruct Hd as (_ & _ & Hd)]; congruence.
Qed.

Lemma inv_next b bp curr g :
  gov_inv b bp curr g → (∀ id p, voting g id p → GetEndVotingBlock p ≠ b) →
  gov_inv (b + 1) bp curr g.
Proof.
  intros [] Hne. split; try done. intros id p Hv.
  destruct (gi_due0 id p Hv) as (? & ? & ? & ?). do 2 (split; [done|]).
  split; [|done]. apply due_next; eauto.
Qed.

(** A block always ends; the votes that end there are counted. *)
Lemma end_block_runs b (w : GovWorld W) :
  chain_inv b w →
  ∃ w', GovEndBlock b w = (Ok tt, w')
    ∧ gov_inv (b + 1) b (verifierIDs (stk w) b) (gs w') ∧ param_inv (b + 1) (gs w')
    ∧ staking_ok (stk w') ∧ verifierIDs (stk w') b = verifierIDs (stk w) b
    ∧ tallied b (votingIDs (gs w)) w w'.
Proof using Hcfg.
  intros Hci. pose proof (chain_mid b w Hci) as Hmid. destruct Hci as [Hb Hg Hpi Hst].
  unfold GovEndBlock. cbv zeta.
  destruct (negb (isEl b) && negb (isEnd b)) eqn:E.
  - apply andb_true_iff in E as [E1%negb_true_iff E2%negb_true_iff].
    assert (Hne : ∀ id p, voting (gs w) id p → GetEndVotingBlock p ≠ b).
    { intros id p Hv. destruct (gi_due _ _ _ _ Hg id p Hv) as (_ & _ & Hd & _).
      by apply not_due. }
    exists w. split; [done|]. split; [by apply inv_next|].
    split; [by apply param_mid_next, Hmid|]. split; [done|]. split; [done|].
    intros id p Hin Hp Hend. by destruct (Hne id p (conj Hin Hp)).
  - unfold get_gov. run_eval.
    destruct (end_loop b (votingIDs (gs w)) w Hmid (gi_nodup _ _ _ _ Hg))
      as (w' & -> & Hm' & Hc & Hsub & Hpr & _ & Ht).
    { intros id Hin. destruct (gi_stored _ _ _ _ Hg id Hin) as (p & [_ Hp]). eauto. }
    exists w'. split; [done|]. rewrite <- Hc. split.
    { apply inv_next; [apply Hm'|]. intros id p [Hin Hp] Hend. rewrite Hpr in Hp.
      by destruct (Ht id p (Hsub _ Hin) Hp Hend). }
    split; [by apply param_mid_next, Hm'|]. split; [apply Hm'|]. done.
Qed.
End end_block.

(** ** The beginning of a block *)

Lemma inv_fewer `{GovNode} b bp curr curr' g :
  gov_inv b bp curr g → curr' ⊆ curr → gov_inv b bp curr' g.
Proof.
  intros [] Hsub. split; try done. intros id Hin. destruct (gi_votes0 id Hin) as (? & ? & ?).
  do 2 (split; [done|]). by transitivity curr.
Qed.

Lemma subset_app_new (accu nodes : list Z) : nodes ⊆ accu ++ filter (λ n, n ∉ accu) nodes.
Proof.
  intros x Hx. apply elem_of_app. destruct (decide (x ∈ accu)); [by left|right].
  by apply list_elem_of_filter.
Qed.

(** Recording verifiers changes nothing but the recorded verifiers, which grow. *)
Record accumulated (g g' : GovStore) : Prop := {
  ac_rest : g' = set_accuVerifiers g (accuVerifiers g');
  ac_grow : ∀ id, getAccuVerifiers id g ⊆ getAccuVerifiers id g' }.

Lemma accumulated_refl g : accumulated g g.
Proof. split; [by destruct g|done]. Qed.

Lemma accumulated_trans g1 g2 g3 : accumulated g1 g2 → accumulated g2 g3 → accumulated g1 g3.
Proof.
  intros [E12 H12] [E23 H23]. split.
  - rewrite E23 at 1. rewrite E12 at 1. done.
  - intros id. by transitivity (getAccuVerifiers id g2).
Qed.

Lemma addAccuVerifiers_grows id nodes g :
  accumulated g (addAccuVerifiers id nodes g)
  ∧ nodes ⊆ getAccuVerifiers id (addAccuVerifiers id nodes g).
Proof.
  unfold addAccuVerifiers. split; [split; [done|]|].
  - intros x. unfold getAccuVerifiers at 1 2. cbn. destruct (decide (id = x)) as [->|Hne].
    + rewrite lookup_insert_eq. cbn. intros y Hy. apply elem_of_app. by left.
    + by rewrite lookup_insert_ne.
  - unfold getAccuVerifiers at 1. cbn. rewrite lookup_insert_eq. apply subset_app_new.
Qed.

Lemma accumulated_inv `{GovNode} b bp curr curr' g g' :
  gov_inv b bp curr g → accumulated g g' →
  (∀ id, id ∈ votingIDs g → curr' ⊆ getAccuVerifiers id g') →
  gov_inv b bp curr' g'.
Proof.
  intros [] [E Hg] Hc. split; try (rewrite E; done).
  - rewrite E. cbn. destruct (preActiveID g); [|done]. destruct gi_pre0 as [vp []].
    exists vp. by split.
  - intros id. assert (votingIDs g' = votingIDs g) as -> by (by rewrite E).
    assert (ListVoteValue id g' = ListVoteValue id g) as -> by (by rewrite E).
    intros Hin. destruct (gi_votes0 id Hin) as (? & Hs & _). split; [done|].
    split; [by transitivity (getAccuVerifiers id g)|by apply Hc].
Qed.

Section begin_block.
Context `{GovNode} {W : Type} `{Hlaws : StakingLaws W} (Hcfg : gov_config_ok em).

Lemma accumulate_loop ids nodes (w : GovWorld W) :
  ∃ g', for_each (λ id, put_gov (addAccuVerifiers id nodes)) ids w
        = (Ok tt, {| gs := g'; stk := stk w |})
    ∧ accumulated (gs w) g' ∧ ∀ id, id ∈ ids → nodes ⊆ getAccuVerifiers id g'.
Proof.
  revert w. induction ids as [|id ids IH]; intros w; cbn [for_each].
  { exists (gs w). destruct w. split; [done|]. split; [apply accumulated_refl|].
    by intros ? ?%not_elem_of_nil. }
  rewrite (bind_Ok_run _ _ w tt {| gs := addAccuVerifiers id nodes (gs w); stk := stk w |})
    by done.
  destruct (IH {| gs := addAccuVerifiers id nodes (gs w); stk := stk w |})
    as (g' & -> & Hac & Hin). cbn [gs stk] in *.
  destruct (addAccuVerifiers_grows id nodes (gs w)) as [Ha Hn].
  exists g'. split; [done|]. split; [by eapply accumulated_trans|].
  intros x [->|Hx]%elem_of_cons; [|by apply Hin].
  etransitivity; [exact Hn|apply (ac_grow _ _ Hac)].
Qed.

Lemma epoch_begins_round n : IsBeginOfEpoch em n = true → IsBeginOfConsensus em n = true.
Proof using Hcfg.
  unfold IsBeginOfEpoch, IsBeginOfConsensus. rewrite !Z.eqb_eq. destruct Hcfg as [Hwf _ _ _].
  pose proof (ec_wf_epoch_blocks _ Hwf) as [-> ?].
  pose proof (ec_wf_ConsensusSize_bounds _ Hwf) as Hc. unfold FloorMaxConsensusVals in Hc.
  destruct Hwf as [_ _ _ _ Hes]. intros He.
  rewrite (Z.div_mod n (ConsensusSize em * EpochSize em)), He by nia.
  rewrite <- Z.mul_assoc, Z.add_comm, (Z.mul_comm (ConsensusSize em)), Z.mod_add by lia.
  apply Z.mod_small. lia.
Qed.

(** The verifiers of a new epoch are recorded. *)
Lemma begin_records b (w w1 : GovWorld W) :
  when (IsBeginOfEpoch em b) (accuVerifiersAtBeginOfSettlement b) w = (Ok tt, w1) →
  stk w1 = stk w ∧ accumulated (gs w) (gs w1)
  ∧ (IsBeginOfEpoch em b = true → ∀ id, id ∈ votingIDs (gs w) →
      verifierIDs (stk w) b ⊆ getAccuVerifiers id (gs w1)).
Proof using Hlaws.
  destruct (IsBeginOfEpoch em b); cbn [when].
  2: { intros [_ <-]%pair_Ok_eq. split; [done|]. by split; [apply accumulated_refl|]. }
  unfold accuVerifiersAtBeginOfSettlement, get_gov. run_eval.
  destruct (votingIDs (gs w)) as [|id ids] eqn:E.
  { intros [_ <-]%pair_Ok_eq. split; [done|]. split; [apply accumulated_refl|].
    by intros _ ? ?%not_elem_of_nil. }
  unfold on_stk at 1. pose proof (ListVerifierNodeID_reads b (stk w)) as Hr.
  unfold verifierIDs. destruct (ListVerifierNodeID b (stk w)) as [[l|e|] s]; [|done|done].
  cbn in Hr. subst s. cbn [fst]. cbv iota. rewrite <- E.
  replace {| gs := gs w; stk := stk w |} with w by (by destruct w).
  destruct (accumulate_loop (votingIDs (gs w)) l w) as (g' & -> & Hac & Hin).
  intros [_ <-]%pair_Ok_eq. split; [done|]. split; [done|]. intros _. exact Hin.
Qed.

Lemma begin_accumulates b bp curr (w w1 : GovWorld W) :
  gov_inv b bp curr (gs w) →
  (IsBeginOfEpoch em b = false → verifierIDs (stk w) b ⊆ curr) →
  when (IsBeginOfEpoch em b) (accuVerifiersAtBeginOfSettlement b) w = (Ok tt, w1) →
  stk w1 = stk w ∧ accumulated (gs w) (gs w1)
  ∧ gov_inv b bp (verifierIDs (stk w) b) (gs w1).
Proof using Hlaws.
  intros Hinv Hsub Hrun. destruct (begin_records _ _ _ Hrun) as (? & Hac & Hin).
  split; [done|]. split; [done|]. eapply accumulated_inv; [done|done|]. intros id Hid.
  destruct (IsBeginOfEpoch em b) eqn:E; [by apply Hin|].
  destruct (gi_votes _ _ _ _ Hinv id Hid) as (_ & _ & Hc).
  transitivity curr; [by apply Hsub|]. etransitivity; [exact Hc|apply (ac_grow _ _ Hac)].
Qed.

Lemma inv_block_passed b g curr :
  gov_inv (b + 1) b curr g →
  (∀ pid vp, preActiveID g = Some pid → proposals g !! pid = Some (VersionP vp) →
    vpActiveBlock vp ≠ b + 1) →
  gov_inv (b + 1) (b + 1) curr g.
Proof.
  intros [] Hne. split; try done. destruct (preActiveID g) as [pid|]; [|done].
  destruct gi_pre0 as [vp []]. exists vp. split; try done.
  specialize (Hne pid vp eq_refl pa_proposal0). lia.
Qed.

Lemma activate_inv b g curr pid vp r :
  gov_inv (b + 1) b curr g → preActiveID g = Some pid → pre_active b g pid vp →
  trProposalID r = pid →
  gov_inv (b + 1) (b + 1) curr
    (AddActiveVersion (vpNewVersion vp) (b + 1) (deleteActiveNodeList pid
       (MovePreActiveProposalIDToEnd pid (SetTallyResult r g)))).
Proof.
  intros [] Hpid [] Hr. split; try done.
  - intros id p Hv. destruct (gi_due0 id p Hv) as (? & ? & ? & Hn). do 3 (split; [done|]).
    cbn. rewrite Hr, lookup_insert_ne; [done|]. intros ->.
    destruct pa_result0 as (r' & Hr' & _). congruence.
  - intros id vp' Hv. by destruct (pa_alone0 id _ Hv).
  - cbn. constructor; [done|]. unfold GetCurrentActiveVersion, ListActiveVersion in *.
    destruct gi_versions0 as [|x l Hl Hall]; [by constructor|].
    constructor; [done|]. eapply Forall_impl; [exact Hall|]. cbn. intros. lia.
  - intros id. cbn. rewrite Hr, lookup_insert_is_Some. intros [<-|[_ ?]]; [by eexists|eauto].
Qed.

(** A block that begins. *)
Lemma begin_block_inv b curr (w w2 : GovWorld W) :
  gov_inv (b + 1) b curr (gs w) → param_inv (b + 1) (gs w) →
  (IsBeginOfEpoch em (b + 1) = false → verifierIDs (stk w) (b + 1) ⊆ curr) →
  GovBeginBlock (b + 1) w = (Ok tt, w2) →
  stk w2 = stk w ∧ gov_inv (b + 1) (b + 1) (verifierIDs (stk w) (b + 1)) (gs w2)
  ∧ param_inv (b + 1) (gs w2).
Proof using Hcfg Hlaws.
  intros Hinv Hpi Hsub. unfold GovBeginBlock.
  destruct (IsBeginOfConsensus em (b + 1)) eqn:Hbc; cbn [negb].
  2: { intros [_ <-]%pair_Ok_eq. split; [done|]. split; [|done]. apply inv_block_passed.
       - eapply inv_fewer; [done|]. apply Hsub.
         destruct (IsBeginOfEpoch em (b + 1)) eqn:E; [|done]. apply epoch_begins_round in E.
         congruence.
       - intros pid vp E Hvp Hact. pose proof (gi_pre _ _ _ _ Hinv) as Hpre.
         rewrite E in Hpre. destruct Hpre as [vp' []]. simplify_eq. congruence. }
  intros (? & w1 & Hacc & Hrun)%bind_Ok_inv. destruct x.
  destruct (begin_accumulates _ _ _ _ _ Hinv Hsub Hacc) as (Estk & Hac & Hinv1).
  rewrite <- Estk in *. assert (Hpi1 : param_inv (b + 1) (gs w1)).
  { eapply param_inv_same; [..|exact Hpi].
    - by rewrite (ac_rest _ _ Hac).
    - intros id pp. by rewrite (ac_rest _ _ Hac). }
  clear Hacc Hac Hinv Hpi Hsub Estk w.
  unfold get_gov in Hrun. apply bind_Ok_inv in Hrun as (pid & w' & [<- <-]%pair_Ok_eq & Hrun).
  unfold GetPreActiveProposalID, getPreActiveProposalID in Hrun.
  pose proof (gi_pre _ _ _ _ Hinv1) as Hpre.
  destruct (preActiveID (gs w1)) as [pid|] eqn:Ep; cbn [default] in Hrun.
  2: { apply pair_Ok_eq in Hrun as [_ <-]. split; [done|]. split; [|done].
       apply inv_block_passed; [done|]. congruence. }
  destruct Hpre as [vp Hpa]. pose proof Hpa as []. cbn in Hrun.
  rewrite (proj2 (Z.eqb_neq _ _)) in Hrun by done.
  unfold ask_gov, GetExistProposal, GetProposal in Hrun.
  apply bind_Ok_inv in Hrun as (q & w' & Hq & Hrun). rewrite pa_proposal0 in Hq.
  apply pair_Ok_eq in Hq as [<- <-].
  destruct (Z.eqb_spec (b + 1) (vpActiveBlock vp)) as [Eb|Eb]; cbn [when] in Hrun.
  2: { apply pair_Ok_eq in Hrun as [_ <-]. split; [done|]. split; [|done].
       apply inv_block_passed; [done|]. intros pid' vp' E Hvp'. simplify_eq. congruence. }
  unfold activate in Hrun. destruct (LtMinorVersion _); [done|].
  unfold ask_gov, GetTallyResult, GetProposal in Hrun.
  apply bind_Ok_inv in Hrun as (o & w' & Ho & Hrun). rewrite pa_proposal0 in Ho.
  apply pair_Ok_eq in Ho as [<- <-]. destruct pa_result0 as (r & Hr & Hrid).
  rewrite Hr in Hrun. unfold put_gov in Hrun. revert Hrun. run_eval.
  intros [_ <-]%pair_Ok_eq. split; [done|]. cbn [gs stk]. split.
  - apply activate_inv; done.
  - by eapply param_inv_same; [..|exact Hpi1].
Qed.

(** At its block the version becomes the active one, if the code knows it. *)
Lemma begin_activates b (w w2 : GovWorld W) pid vp r :
  IsBeginOfConsensus em b = true → pid ≠ 0 → preActiveID (gs w) = Some pid →
  proposals (gs w) !! pid = Some (VersionP vp) → tallyResults (gs w) !! pid = Some r →
  vpActiveBlock vp = b → GovBeginBlock b w = (Ok tt, w2) →
  LtMinorVersion (vpNewVersion vp) = false
  ∧ GetCurrentActiveVersion (gs w2) = vpNewVersion vp ∧ preActiveID (gs w2) = None.
Proof using Hlaws.
  intros Hbc Hid Hpid Hvp Hres Hact Hrun. unfold GovBeginBlock in Hrun. rewrite Hbc in Hrun.
  cbn [negb] in Hrun. apply bind_Ok_inv in Hrun as ([] & w1 & Hacc & Hrun).
  destruct (begin_records _ _ _ Hacc) as (_ & [E _] & _).
  assert (preActiveID (gs w1) = Some pid) as E1 by (by rewrite E).
  assert (proposals (gs w1) !! pid = Some (VersionP vp)) as E2 by (by rewrite E).
  assert (tallyResults (gs w1) !! pid = Some r) as E3 by (by rewrite E). clear E Hacc.
  revert Hrun. unfold get_gov, ask_gov, GetPreActiveProposalID, getPreActiveProposalID. run_eval.
  rewrite E1. change (default 0 (Some pid)) with pid.
  rewrite (proj2 (Z.eqb_neq _ _)) by done.
  unfold GetExistProposal, GetProposal. rewrite E2, Hact, Z.eqb_refl. cbn [when].
  unfold activate. destruct (LtMinorVersion _); [done|]. unfold ask_gov, GetTallyResult, GetProposal.
  run_eval. rewrite E2, E3. unfold put_gov. run_eval. intros [_ <-]%pair_Ok_eq. done.
Qed.
End begin_block.
