(* ===== verification/GovChain.v ===== *)
(** * Governance: every chain keeps the invariant

    What the transactions of the governance contract do to the invariant of
    GovProofs, and the theorems about reachable states: proposals at voting stage
    exclude each other, every vote is counted when it ends, versions only go up,
    only verifiers have voted, once each, and the governed parameters stay within
    the ranges and relations the node relies on. *)

From S2P Require Import Prelude Xcom Xutil StateDB StakingTypes GovTypes GovDB GovParams Gov.
From S2P Require Import GovPlugin GovProofs.

(** ** Submissions *)

Lemma json_id p : GetProposalID (jsonProposal p) = GetProposalID p.
Proof. by destruct p. Qed.

Lemma json_end p : GetEndVotingBlock (jsonProposal p) = GetEndVotingBlock p.
Proof. by destruct p. Qed.

Lemma json_due `{GovNode} b p : due b (jsonProposal p) ↔ due b p.
Proof. by destruct p. Qed.

Lemma json_major p : major (jsonProposal p) ↔ major p.
Proof. by destruct p. Qed.

Lemma json_cancel cp p :
  CancelP cp = jsonProposal p → ∃ cp', p = CancelP cp'
    ∧ cpTobeCanceled cp = cpTobeCanceled cp' ∧ cpEndVotingBlock cp = cpEndVotingBlock cp'.
Proof. destruct p as [| |cp'|]; try done. intros [= ->]. by exists cp'. Qed.

Lemma json_version vp p :
  VersionP vp = jsonProposal p → ∃ vp', p = VersionP vp' ∧ vpNewVersion vp = vpNewVersion vp'.
Proof. destruct p as [|vp'| |]; try done. intros [= ->]. by exists vp'. Qed.

(** What [Verify] leaves to be true of a new proposal. *)
Record admissible `{GovNode} (b : Z) (g : GovStore) (p : Proposal) : Prop := {
  ad_id : GetProposalID p ≠ 0;
  ad_new : proposals g !! GetProposalID p = None;
  ad_due : due b p;
  ad_major : major p → (∀ id q, voting g id q → ¬ major q) ∧ preActiveID g = None;
  ad_cancel : ∀ cp, p = CancelP cp → (∀ id q, ¬ voting g id (CancelP q))
    ∧ ∃ q, voting g (cpTobeCanceled cp) q ∧ major q
      ∧ cpEndVotingBlock cp < GetEndVotingBlock q;
  ad_version : ∀ vp, p = VersionP vp →
    minor (GetCurrentActiveVersion g) < minor (vpNewVersion vp) }.

Definition submitted (p : Proposal) (nodes : list Z) (g : GovStore) : GovStore :=
  addAccuVerifiers (GetProposalID p) nodes
    (addVotingID (GetProposalID p) (SetProposal p g)).

Section submitted.
Context `{GovNode} {b : Z} {curr nodes : list Z} {g : GovStore} {p : Proposal}.
Context (Hinv : gov_inv b b curr g) (Had : admissible b g p) (Hcurr : curr ⊆ nodes).

Lemma submitted_not_voting : GetProposalID p ∉ votingIDs g.
Proof using Hinv Had.
  intros Hin. destruct (gi_stored _ _ _ _ Hinv _ Hin) as (q & [_ Hq]).
  rewrite (ad_new _ _ _ Had) in Hq. done.
Qed.

Lemma submitted_voting id q :
  voting (submitted p nodes g) id q
  ↔ voting g id q ∨ id = GetProposalID p ∧ q = jsonProposal p.
Proof using Hinv Had.
  unfold voting, submitted, addVotingID, SetProposal, addAccuVerifiers. cbn.
  rewrite elem_of_appendNew. pose proof submitted_not_voting as Hn.
  destruct (decide (id = GetProposalID p)) as [->|Hne].
  - rewrite lookup_insert_eq. split.
    + intros [_ [= <-]]. by right.
    + intros [[? _]|[_ ->]]; [done|]. split; [by right|done].
  - rewrite lookup_insert_ne by done. split; [intros [[?|?] ?]; [by left|done]|].
    intros [[? ?]|[? _]]; [by split; [left|]|done].
Qed.

Lemma submitted_inv : gov_inv b b curr (submitted p nodes g).
Proof using Hinv Had Hcurr.
  pose proof submitted_not_voting as Hn. pose proof Hinv as []. pose proof Had as []. split.
  - cbn. by apply appendNew_NoDup.
  - intros id. cbn. rewrite elem_of_appendNew. intros [Hin| ->].
    + destruct (gi_stored id Hin) as [q Hq]. exists q. apply submitted_voting. by left.
    + exists (jsonProposal p). apply submitted_voting. by right.
  - intros id q [Hv|[-> ->]]%submitted_voting; [by apply gi_due|].
    rewrite json_id. split; [done|]. split; [done|]. rewrite json_due. split; [done|]. cbn.
    destruct (tallyResults g !! GetProposalID p) eqn:E; [|done].
    destruct (gi_results (GetProposalID p)) as [? ?]; [by eexists|]. congruence.
  - intros id1 p1 id2 p2 [Hv1|[-> ->]]%submitted_voting [Hv2|[-> ->]]%submitted_voting.
    + by apply gi_major.
    + rewrite json_major. intros Hm1 Hm2. by destruct (proj1 (ad_major0 Hm2) _ _ Hv1).
    + rewrite json_major. intros Hm1 Hm2. by destruct (proj1 (ad_major0 Hm1) _ _ Hv2).
    + done.
  - intros id1 p1 id2 p2 [Hv1|[-> E1]]%submitted_voting [Hv2|[-> E2]]%submitted_voting; [by eauto|..].
    + apply json_cancel in E2 as (cp & -> & _).
      by destruct (proj1 (ad_cancel0 _ eq_refl) _ _ Hv1).
    + apply json_cancel in E1 as (cp & -> & _).
      by destruct (proj1 (ad_cancel0 _ eq_refl) _ _ Hv2).
    + done.
  - intros id cp [Hv|[-> E]]%submitted_voting.
    + destruct (gi_target id cp Hv) as (q & Hq & ?). exists q. split; [|done].
      apply submitted_voting. by left.
    + apply json_cancel in E as (cp' & Ep & -> & ->).
      destruct (ad_cancel0 _ Ep) as (_ & q & Hq & ?). exists q. split; [|done].
      apply submitted_voting. by left.
  - intros id vp [Hv|[-> E]]%submitted_voting; [by eapply gi_newer|].
    apply json_version in E as (vp' & Ep & ->). by apply ad_version0.
  - cbn. destruct (preActiveID g) as [pid|] eqn:E; [|done]. destruct gi_pre as [vp []].
    exists vp. split; try done.
    + intros id q [Hv|[-> ->]]%submitted_voting; [by eapply pa_alone|].
      rewrite json_major. intros Hm. by destruct (ad_major0 Hm) as [_ ?].
    + cbn. rewrite lookup_insert_ne by congruence. done.
  - done.
  - intros id. cbn. rewrite elem_of_appendNew.
    destruct (addAccuVerifiers_grows (GetProposalID p) nodes
      (addVotingID (GetProposalID p) (SetProposal p g))) as [Hac Hnodes].
    intros [Hin| ->].
    + destruct (gi_votes id Hin) as (? & ? & ?). split; [done|].
      split; (etransitivity; [eassumption|apply (ac_grow _ _ Hac)]).
    + assert (ListVoteValue (GetProposalID p) g = []) as Hv.
      { destruct (ListVoteValue (GetProposalID p) g) eqn:E; [done|].
        destruct (gi_voted (GetProposalID p)); congruence. }
      change (ListVoteValue (GetProposalID p) (submitted p nodes g))
        with (ListVoteValue (GetProposalID p) g).
      rewrite Hv. split; [apply NoDup_nil_2|]. split; [by intros ? ?%not_elem_of_nil|].
      by transitivity nodes.
  - intros id Hv. cbn. apply lookup_insert_is_Some'. right. by apply gi_voted.
  - intros id Hr. cbn. apply lookup_insert_is_Some'. right. by apply gi_results.
Qed.
End submitted.

Lemma verifyBasic_Ok p g :
  verifyBasic p g = Ok tt → GetProposalID p ≠ 0 ∧ proposals g !! GetProposalID p = None.
Proof.
  unfold verifyBasic. intros (u & Hid & _)%outcome_bind_Ok.
  destruct (Z.eqb_spec (GetProposalID p) 0); [done|]. split; [done|].
  unfold GetProposal in Hid. by destruct (proposals g !! GetProposalID p).
Qed.

Lemma findVoting_None ids types g id p :
  findVoting ids types g = Ok None → id ∈ ids → proposals g !! id = Some p →
  GetProposalType p ∉ types.
Proof.
  induction ids as [|x ids IH]; cbn; [by intros _ ?%not_elem_of_nil|].
  unfold GetExistProposal, GetProposal. destruct (proposals g !! x) as [q|] eqn:E; [|done].
  cbn. destruct (existsb _ types) eqn:Ex; [done|]. intros Hf [->|Hin]%elem_of_cons Hp; [|eauto].
  rewrite E in Hp. injection Hp as ->. intros Hty. apply not_true_iff_false in Ex. apply Ex, existsb_exists.
  exists (GetProposalType p). split; [by apply list_elem_of_In|apply Z.eqb_refl].
Qed.

Section verify.
Context `{GovNode} (Hcfg : gov_config_ok em).
Context {b : Z} {curr : list Z} {g : GovStore}.
Context (Hb : 0 <= b < 2 ^ 58) (Hinv : gov_inv b b curr g).

Lemma no_major types :
  FindVotingProposal types g = Ok None → Version ∈ types → Param ∈ types →
  GetPreActiveProposalID g = 0 →
  (∀ id q, voting g id q → ¬ major q) ∧ preActiveID g = None.
Proof using Hinv.
  intros Hf Hv Hp Hpre. split.
  - intros id q Hq Hm. destruct (gi_due _ _ _ _ Hinv _ _ Hq) as (_ & _ & (_ & Hd) & _).
    destruct types as [|t types]; [done|]. destruct Hq as [Hin Hq].
    pose proof (findVoting_None _ _ _ _ _ Hf Hin Hq) as Ht.
    destruct q; cbn in Hm, Hd; try done; destruct Hd as [E _]; cbn in Ht; by rewrite E in Ht.
  - pose proof (gi_pre _ _ _ _ Hinv) as Hi. unfold GetPreActiveProposalID, getPreActiveProposalID in Hpre.
    destruct (preActiveID g) as [pid|]; [|done]. destruct Hi as [vp []]. done.
Qed.

Lemma no_cancel :
  FindVotingProposal [Cancel] g = Ok None → ∀ id q, ¬ voting g id (CancelP q).
Proof using Hinv.
  intros Hf id q Hq. destruct (gi_due _ _ _ _ Hinv _ _ Hq) as (_ & _ & (_ & E & _) & _).
  destruct Hq as [Hin Hq]. apply (findVoting_None _ _ _ _ _ Hf Hin Hq). cbn. rewrite E.
  by apply elem_of_cons; left.
Qed.

(** The deadline of a vote of some rounds. *)
Lemma deadline_ok rounds :
  0 <= rounds < 2 ^ 20 → b < CalEndVotingBlock em b rounds →
  b <= CalEndVotingBlock em b rounds < 2 ^ 60
  ∧ IsElection em (CalEndVotingBlock em b rounds) = true
  ∧ CalActiveBlock em (CalEndVotingBlock em b rounds)
    = CalEndVotingBlock em b rounds + ElectionDistance em + 1.
Proof using Hcfg Hb.
  intros Hr Hlt. destruct Hcfg as [Hwf _ _ _].
  destruct (voting_deadline em Hwf b rounds Hb Hr) as ([_ Hle] & He & _).
  pose proof (ec_wf_ConsensusSize_bounds _ Hwf) as Hc. unfold FloorMaxConsensusVals in Hc.
  pose proof (ec_wf_ElectionDistance_lt _ Hwf).
  assert ((rounds + 1) * ConsensusSize em <= 2 ^ 20 * ConsensusSize em) by nia.
  split; [lia|]. split; [done|]. apply u64_small. unfold in_u64. lia.
Qed.

Ltac verify_inv H :=
  repeat (let E := fresh "E" in apply outcome_bind_Ok in H as (? & E & H));
  repeat match goal with
  | E : reject _ _ = Ok _ |- _ => apply reject_Ok in E
  | u : unit |- _ => destruct u
  end; bool_to_prop.

Lemma VerifyText_ok tp tp' : VerifyText b g tp = Ok tp' → admissible b g (TextP tp').
Proof using Hcfg Hb Hinv.
  intros Hv. unfold VerifyText in Hv. verify_inv Hv. injection Hv as <-.
  match goal with E : verifyBasic _ _ = _ |- _ => apply verifyBasic_Ok in E as [? ?] end.
  destruct (deadline_ok _ (gc_text _ Hcfg)) as (? & ? & _); [done|].
  by split.
Qed.

Lemma VerifyVersion_ok vp vp' : VerifyVersion b g vp = Ok vp' → admissible b g (VersionP vp').
Proof using Hcfg Hb Hinv.
  intros Hv. unfold VerifyVersion in Hv. verify_inv Hv. injection Hv as <-.
  match goal with E : verifyBasic _ _ = _ |- _ => apply verifyBasic_Ok in E as [? ?] end.
  destruct (deadline_ok (vpEndVotingRounds vp)) as (? & ? & ?).
  { pose proof (gc_version _ Hcfg). lia. }
  { done. }
  match goal with E : FindVotingProposal _ _ = Ok ?o |- _ => destruct o; [done|] end.
  split; try done.
  - intros _. eapply no_major; [done|by apply list_elem_of_In; cbn; auto..|done].
  - intros vp' [= <-]. done.
Qed.

Lemma VerifyCancel_ok cp cp' :
  VerifyCancel b g cp = Ok cp' → cpEndVotingRounds cp < 2 ^ 20 →
  admissible b g (CancelP cp').
Proof using Hcfg Hb Hinv.
  intros Hv Hr. unfold VerifyCancel in Hv. verify_inv Hv.
  destruct (GetProposal (cpTobeCanceled cp) g) as [q|] eqn:Eq; [|done].
  verify_inv Hv. injection Hv as <-.
  match goal with E : verifyBasic _ _ = _ |- _ => apply verifyBasic_Ok in E as [? ?] end.
  destruct (deadline_ok (cpEndVotingRounds cp)) as (? & ? & _); [lia|done|].
  match goal with E : FindVotingProposal _ _ = Ok ?o |- _ => destruct o; [done|] end.
  split; try done. intros cp0 [= <-]. split; [by apply no_cancel|].
  match goal with E : InHashList _ _ = true |- _ => apply InHashList_spec in E end.
  assert (voting g (cpTobeCanceled cp) q) as Hq by (by split).
  exists q. split; [done|]. split; [|done].
  destruct (gi_due _ _ _ _ Hinv _ _ Hq) as (_ & _ & (_ & Hd) & _).
  destruct q; cbn in *; try done; destruct Hd as [Ety _]; rewrite Ety in *; done.
Qed.

Lemma VerifyParam_ok pp pp' : VerifyParam b g pp = Ok pp' → admissible b g (ParamP pp').
Proof using Hcfg Hb Hinv.
  intros Hv. unfold VerifyParam in Hv. verify_inv Hv. injection Hv as <-.
  match goal with E : verifyBasic _ _ = _ |- _ => apply verifyBasic_Ok in E as [? ?] end.
  pose proof (gc_wf _ Hcfg) as Hwf. pose proof (gc_param _ Hcfg) as Hp.
  destruct (para_voting_deadline em Hwf b _ Hb Hp) as [Hle He].
  pose proof (ec_wf_epoch_blocks _ Hwf) as [_ ?].
  match goal with E : FindVotingProposal _ _ = Ok ?o |- _ => destruct o; [done|] end.
  split; try done.
  - split; [cbn; lia|]. done.
  - intros _. eapply no_major; [done|by apply list_elem_of_In; cbn; auto..|done].
Qed.
End verify.

(** ** Parameter proposals *)

Lemma all_chars_app f s t :
  all_chars f (s +:+ t) = true → all_chars f s = true ∧ all_chars f t = true.
Proof.
  induction s as [|a s IH]; [by split|].
  change (String a s +:+ t) with (String a (s +:+ t)). cbn [all_chars].
  rewrite !andb_true_iff. intros [? Ht]. apply IH in Ht. tauto.
Qed.

(** Names of parameters are ASCII, and so are the values the verifiers accept. *)
Lemma verifier_ascii ec k verifier b g v :
  ParamVerifierMap ec !! k = Some verifier → verifier b g v = Ok tt →
  all_chars rune1 k = true ∧ all_chars rune1 v = true.
Proof.
  unfold ParamVerifierMap, initParam. cbn [foldl param ipItem ipVerifier piModule piName].
  intros Hv. assert (Hbig : ∀ v n, parseBig v = Ok n → all_chars rune1 v = true).
  { unfold parseBig. intros v' n. destruct (SetString v') eqn:E; [|done].
    intros _. by eapply SetString_ascii. }
  assert (Hint : ∀ v n, Atoi v = Ok n → all_chars rune1 v = true).
  { unfold Atoi. intros v' n. destruct (SetString v') eqn:E; [|done].
    intros _. by eapply SetString_ascii. }
  repeat (apply lookup_insert_Some in Hv as [[<- <-]|[_ Hv]];
    [intros (? & Hparse & _)%outcome_bind_Ok; split; [reflexivity|eauto]|]).
  done.
Qed.

Lemma json_param pp p :
  ParamP pp = jsonProposal p → ∃ pp', p = ParamP pp' ∧ ppModule pp = jsonString (ppModule pp')
    ∧ ppName pp = jsonString (ppName pp') ∧ ppNewValue pp = jsonString (ppNewValue pp').
Proof. destruct p as [| | |pp']; try done. intros [= ->]. by exists pp'. Qed.

(** The key and the value of a verified proposal, as they are stored. *)
Lemma VerifyParam_value `{GovNode} b g pp pp' :
  VerifyParam b g pp = Ok pp' →
  jsonString (ppModule pp') = ppModule pp' ∧ jsonString (ppName pp') = ppName pp'
  ∧ jsonString (ppNewValue pp') = ppNewValue pp'
  ∧ ∃ verifier v, ParamVerifierMap em !! KeyParamValue (ppModule pp') (ppName pp')
                  = Some verifier
    ∧ verifier b g (ppNewValue pp') = Ok tt
    ∧ paramValues g !! KeyParamValue (ppModule pp') (ppName pp') = Some v.
Proof.
  intros Hv. unfold VerifyParam in Hv.
  repeat (let E := fresh "E" in apply outcome_bind_Ok in Hv as (? & E & Hv)).
  repeat match goal with u : unit |- _ => destruct u end.
  injection Hv as <-. cbn [ppModule ppName ppNewValue].
  destruct (ParamVerifierMap em !! _) as [f|] eqn:Ef; [|done].
  match goal with E : f _ _ _ = _ |- _ => rename E into Hok end.
  destruct (verifier_ascii _ _ _ _ _ _ Ef Hok) as [Hk Hval].
  apply all_chars_app in Hk as [Hm [_ Hn]%all_chars_app].
  do 3 (split; [by apply jsonString_ascii|]).
  destruct (FindGovernParam (ppModule pp) (ppName pp) g) as [[item v]|] eqn:Efind; [|done].
  exists f, v. split; [done|]. split; [done|]. unfold FindGovernParam in Efind. revert Efind.
  induction (listGovernParamItem (ppModule pp) g) as [|x l IH]; cbn; [done|].
  destruct (String.eqb (piName x) (ppName pp)); [|done].
  unfold findGovernParamValue at 1. destruct (paramValues g !! _) eqn:Ev; [|done].
  by intros [= _ ->].
Qed.

Lemma submitted_param `{GovNode} b curr g p nodes :
  gov_inv b b curr g → admissible b g p → param_inv b g →
  (∀ pp, p = ParamP pp → ∃ pp0, VerifyParam b g pp0 = Ok pp) →
  param_inv b (submitted p nodes g).
Proof.
  intros Hinv Had [Hs (q & Hr & Hq) Hv] Hp.
  assert (Hsame : ∀ m n, GetGovernParamValue b (submitted p nodes g) m n
    = GetGovernParamValue b g m n) by (intros; by apply same_params_read).
  split; [done|exists q; split; [by eapply reads_stable|done]|].
  intros id pp [Hpp|[-> E]]%(submitted_voting Hinv Had).
  - destruct (Hv id pp Hpp) as (f & v & Hf & Hok & Hval). exists f, v.
    split; [done|]. split; [|done]. rewrite <- Hok. by eapply verifier_stable.
  - apply json_param in E as (pp' & -> & -> & -> & ->).
    destruct (Hp pp' eq_refl) as [pp0 Hpp0].
    destruct (VerifyParam_value _ _ _ _ Hpp0) as (-> & -> & -> & f & v & Hf & Hok & Hval).
    exists f, v. split; [done|]. split; [|done]. rewrite <- Hok. by eapply verifier_stable.
Qed.

Lemma fmap_filter_subset {A B} (f : A → B) (P : A → Prop) `{∀ x, Decision (P x)} (l : list A) :
  (f <$> filter P l) ⊆ (f <$> l).
Proof.
  intros y (x & -> & [_ Hx]%list_elem_of_filter)%list_elem_of_fmap. by apply list_elem_of_fmap_2.
Qed.

Lemma fmap_filter_NoDup {A B} (f : A → B) (P : A → Prop) `{∀ x, Decision (P x)} (l : list A) :
  NoDup (f <$> l) → NoDup (f <$> filter P l).
Proof.
  induction l as [|x l IH]; [done|]. rewrite fmap_cons, NoDup_cons. intros [Hx Hl].
  rewrite filter_cons. case_decide; [|by apply IH]. rewrite fmap_cons, NoDup_cons.
  split; [|by apply IH]. intros Hin. apply Hx. by apply fmap_filter_subset in Hin.
Qed.

(** ** Transactions *)

Section transactions.
Context `{GovNode} {W : Type} `{Hlaws : StakingLaws W} (Hcfg : gov_config_ok em).
Implicit Types w : GovWorld W.

Lemma on_stk_reads {A} (m : M W A) w :
  (m (stk w)).2 = stk w → on_stk m w = ((m (stk w)).1, w).
Proof.
  intros E. unfold on_stk. destruct (m (stk w)) as [r s]. cbn in *. subst. by destruct w.
Qed.

Lemma checkVerifierIn_Ok from n l w w' :
  checkVerifierIn from n l w = (Ok tt, w') → w' = w ∧ ∃ v, v ∈ l ∧ vxNodeId v = n.
Proof using Hlaws.
  induction l as [|v l IH]; cbn [checkVerifierIn]; [done|].
  destruct (Z.eqb_spec (vxNodeId v) n) as [En|_].
  - destruct (vxStakingAddress v =? from); [|done]. intros Hrun.
    apply bind_Ok_inv in Hrun as (a & w1 & Ha & Hrun). unfold ask in Ha.
    injection Ha as Ha <-. apply bind_Ok_inv in Hrun as (c & w1 & Hc & Hrun).
    unfold try in Hc. rewrite on_stk_reads in Hc by apply GetCanMutable_reads.
    destruct (GetCanMutable a (stk w)) as [[x|e|] s]; cbn in Hc; simplify_eq.
    destruct (IsInvalid _); [done|]. apply pair_Ok_eq in Hrun as [_ <-].
    split; [done|]. exists v. split; [by apply elem_of_cons; left|done].
  - intros Hrun. destruct (IH Hrun) as [-> (x & Hx & ?)]. split; [done|].
    exists x. split; [by apply elem_of_cons; right|done].
Qed.

(** Who passes the check is one of the verifiers of the epoch. *)
Lemma checkVerifier_Ok from n b w w' :
  checkVerifier from n b w = (Ok tt, w') → staking_ok (stk w) →
  w' = w ∧ n ∈ verifierIDs (stk w) b
  ∧ ListVerifierNodeID b (stk w) = (Ok (verifierIDs (stk w) b), stk w).
Proof using Hlaws.
  unfold checkVerifier. intros Hrun Hok.
  apply bind_Ok_inv in Hrun as (a & w1 & Ha & Hrun). unfold ask in Ha. injection Ha as _ <-.
  apply bind_Ok_inv in Hrun as (l & w1 & Hl & Hrun).
  rewrite on_stk_reads in Hl by apply GetVerifierList_reads. injection Hl as Hl <-.
  destruct (checkVerifierIn_Ok _ _ _ _ _ Hrun) as [-> (v & Hv & <-)]. split; [done|].
  split; [by eapply verifiers_listed|].
  destruct (ids_listed b (stk w) l Hok Hl) as [ids Hids].
  pose proof (ListVerifierNodeID_reads b (stk w)) as Hr. unfold verifierIDs.
  destruct (ListVerifierNodeID b (stk w)) as [r s]. cbn in *. by subst.
Qed.

Lemma Verify_submitBlock b g p q : Verify b g p = Ok q → GetSubmitBlock q = GetSubmitBlock p.
Proof.
  destruct p; cbn [Verify]; intros (x & Hx & [= <-])%outcome_bind_Ok;
    unfold VerifyText, VerifyVersion, VerifyCancel, VerifyParam in Hx;
    repeat apply outcome_bind_Ok in Hx as (? & _ & Hx); try by injection Hx as <-.
  destruct (GetProposal _ g); [|done].
  repeat apply outcome_bind_Ok in Hx as (? & _ & Hx). by injection Hx as <-.
Qed.

Lemma Submit_effect from p b w w' :
  staking_ok (stk w) → Submit from p b w = (Ok tt, w') → GetSubmitBlock p = b →
  ∃ q, Verify b (gs w) p = Ok q
    ∧ w' = {| gs := submitted q (verifierIDs (stk w) b) (gs w); stk := stk w |}.
Proof using Hlaws.
  intros Hok Hrun Hblock. unfold Submit in Hrun.
  apply bind_Ok_inv in Hrun as (q & w1 & Hq & Hrun). unfold ask_gov in Hq.
  injection Hq as Hq <-. unfold asParameterError in Hq.
  assert (Verify b (gs w) p = Ok q) as Hv.
  { destruct (Verify b (gs w) p) as [x|[| |]|]; by simplify_eq. }
  rewrite (Verify_submitBlock _ _ _ _ Hv), Hblock in Hrun.
  apply bind_Ok_inv in Hrun as ([] & w1 & Hc & Hrun).
  destruct (checkVerifier_Ok _ _ _ _ _ Hc Hok) as (-> & _ & Hids).
  exists q. split; [done|]. revert Hrun. unfold put_gov. run_eval. unfold on_stk. cbn [stk gs].
  rewrite Hids. run_eval. by intros [_ <-]%pair_Ok_eq.
Qed.

Lemma submit_inv from p b w w' :
  chain_inv b w → Submit from p b w = (Ok tt, w') → GetSubmitBlock p = b →
  (∀ cp, p = CancelP cp → cpEndVotingRounds cp < 2 ^ 20) →
  chain_inv b w'.
Proof using Hcfg Hlaws.
  intros [Hb Hg Hp Hs] Hrun Hblock Hcancel.
  destruct (Submit_effect _ _ _ _ _ Hs Hrun Hblock) as (q & Hq & ->). clear Hrun.
  assert (admissible b (gs w) q
    ∧ ∀ pp, q = ParamP pp → ∃ pp0, VerifyParam b (gs w) pp0 = Ok pp) as [Had Hpar].
  { destruct p as [tp|vp|cp|pp]; cbn in Hq; apply outcome_bind_Ok in Hq as (x & Hx & [= <-]);
      (split; [|try done]).
    - by eapply VerifyText_ok.
    - by eapply VerifyVersion_ok.
    - eapply VerifyCancel_ok; eauto.
    - by eapply VerifyParam_ok.
    - intros pp' [= <-]. eauto. }
  split; cbn [gs stk]; [done|by apply submitted_inv|by eapply submitted_param|done].
Qed.

(** *** Votes *)

Lemma inv_votes_changed b bp curr g id l :
  gov_inv b bp curr g →
  (id ∈ votingIDs g → NoDup (VoteNodeID <$> l) ∧ (VoteNodeID <$> l) ⊆ getAccuVerifiers id g) →
  (l ≠ [] → is_Some (proposals g !! id)) →
  gov_inv b bp curr (UpdateVoteValue id l g).
Proof.
  intros [] Hl Hst. split; try done.
  - cbn. destruct (preActiveID g); [|done]. destruct gi_pre as [vp []]. exists vp. by split.
  - intros x Hx. destruct (gi_votes x Hx) as (? & ? & ?).
    unfold ListVoteValue, getAccuVerifiers in *. cbn. destruct (decide (id = x)) as [->|Hne].
    + rewrite lookup_insert_eq. cbn. destruct (Hl Hx). done.
    + by rewrite lookup_insert_ne.
  - intros x. unfold ListVoteValue in *. cbn. destruct (decide (id = x)) as [->|Hne].
    + by rewrite lookup_insert_eq.
    + rewrite lookup_insert_ne by done. apply gi_voted.
Qed.

Lemma inv_activeNodes b bp curr g v :
  gov_inv b bp curr g → gov_inv b bp curr (set_activeNodes g v).
Proof.
  intros []. split; try done. cbn. destruct (preActiveID g); [|done].
  destruct gi_pre as [vp []]. exists vp. by split.
Qed.

Lemma addActiveNode_inv b g n id curr :
  gov_inv b b curr g → gov_inv b b curr (addActiveNode n id g).
Proof. intros Hg. unfold addActiveNode. case_match; [done|]. by apply inv_activeNodes. Qed.

Lemma addActiveNode_params n id g :
  paramValues (addActiveNode n id g) = paramValues g
  ∧ votingIDs (addActiveNode n id g) = votingIDs g
  ∧ proposals (addActiveNode n id g) = proposals g.
Proof. unfold addActiveNode. by case_match. Qed.

(** Peel a query off a run. *)
Ltac peel H x E :=
  let w1 := fresh "w" in
  apply bind_Ok_inv in H as (x & w1 & E & H);
  unfold ask, ask_gov, get_gov, gets in E; injection E as E <-.

Lemma Vote_effect from v b pv sign w w' :
  staking_ok (stk w) → Vote from v b pv sign w = (Ok tt, w') →
  viVoteNodeID v ∈ verifierIDs (stk w) b ∧ viProposalID v ∈ votingIDs (gs w)
  ∧ (viVoteNodeID v ∉ (VoteNodeID <$> ListVoteValue (viProposalID v) (gs w)))
  ∧ is_Some (proposals (gs w) !! viProposalID v)
  ∧ stk w' = stk w
  ∧ ∃ g1, g1 = AddVoteValue (viProposalID v) (viVoteNodeID v) (viVoteOption v) (gs w)
    ∧ (gs w' = g1 ∨ gs w' = addActiveNode (viVoteNodeID v) (viProposalID v) g1).
Proof using Hlaws.
  intros Hok Hrun. unfold Vote in Hrun. cbv zeta in Hrun.
  peel Hrun u1 E1. peel Hrun u2 E2. peel Hrun p E3.
  apply bind_Ok_inv in Hrun as ([] & w1 & Hc & Hrun).
  destruct (checkVerifier_Ok _ _ _ _ _ Hc Hok) as (-> & Hin & _).
  peel Hrun u4 E4. peel Hrun ids E5. subst ids. peel Hrun u6 E6. peel Hrun m E7. subst m.
  peel Hrun u8 E8. apply reject_Ok in E6, E8. apply negb_false_iff, InHashList_spec in E6.
  apply bool_decide_eq_false in E8. unfold GetVotedVerifierMap in E8.
  rewrite elem_of_list_to_set in E8.
  do 3 (split; [done|]). split.
  { unfold GetExistProposal, GetProposal in E3. by destruct (proposals _ !! _). }
  unfold put_gov in Hrun. revert Hrun. run_eval.
  destruct (GetProposalType p =? Version); run_eval; intros [_ <-]%pair_Ok_eq;
    (split; [done|]); eexists; (split; [done|]); [by right|by left].
Qed.

Lemma vote_inv from v b pv sign w w' :
  chain_inv b w → Vote from v b pv sign w = (Ok tt, w') → chain_inv b w'.
Proof using Hlaws.
  intros [Hb Hg Hp Hs] Hrun.
  destruct (Vote_effect _ _ _ _ _ _ _ Hs Hrun)
    as (Hver & Hvot & Hnew & Hst & Estk & g1 & -> & Hw').
  set (g1 := AddVoteValue _ _ _ _) in *.
  assert (Hg1 : gov_inv b b (verifierIDs (stk w) b) g1).
  { apply inv_votes_changed; [done| |done]. intros _.
    destruct (gi_votes _ _ _ _ Hg _ Hvot) as (Hnd & Hsub & Hcur).
    rewrite fmap_app. cbn. split.
    - apply NoDup_app. split; [done|]. split; [|apply NoDup_singleton].
      intros x Hx ->%list_elem_of_singleton. done.
    - intros x [Hx| ->%list_elem_of_singleton]%elem_of_app; auto. }
  assert (Hp1 : param_inv b g1) by (by eapply param_inv_same; [..|exact Hp]).
  destruct (addActiveNode_params (viVoteNodeID v) (viProposalID v) g1) as (E1 & E2 & E3).
  split; [done|rewrite Estk|..|by rewrite Estk].
  - destruct Hw' as [->| ->]; [done|by apply addActiveNode_inv].
  - destruct Hw' as [->| ->]; [done|]. eapply param_inv_same; [done| |exact Hp1].
    unfold voting. by rewrite E2, E3.
Qed.

Lemma dropVotes_inv b curr g punished id :
  gov_inv b b curr g → gov_inv b b curr (dropVotes punished id g).
Proof.
  intros Hg. unfold dropVotes. case_match; [|done].
  apply inv_votes_changed; [done|..].
  - intros Hin. destruct (gi_votes _ _ _ _ Hg _ Hin) as (Hnd & Hsub & _).
    split; [by apply fmap_filter_NoDup|].
    etransitivity; [apply fmap_filter_subset|exact Hsub].
  - intros Hne. apply (gi_voted _ _ _ _ Hg). intros E. apply Hne. by rewrite E.
Qed.

Lemma dropVotes_rest g punished id :
  paramValues (dropVotes punished id g) = paramValues g
  ∧ votingIDs (dropVotes punished id g) = votingIDs g
  ∧ proposals (dropVotes punished id g) = proposals g.
Proof. unfold dropVotes. by case_match. Qed.

Lemma punish_inv b punished w :
  chain_inv b w → chain_inv b (keep (NotifyPunishedVerifiers punished) w).
Proof.
  intros Hci. unfold keep, NotifyPunishedVerifiers. case_decide; [done|].
  unfold get_gov. run_eval. generalize (votingIDs (gs w)) as ids. intros ids.
  revert w Hci. induction ids as [|id ids IH]; intros w Hci; [done|]. cbn [for_each].
  rewrite (bind_Ok_run _ _ w tt {| gs := dropVotes punished id (gs w); stk := stk w |}) by done.
  destruct (for_each _ ids _) as [[]] eqn:E; [|done|done].
  specialize (IH {| gs := dropVotes punished id (gs w); stk := stk w |}).
  rewrite E in IH. apply IH. destruct Hci as [Hb Hg Hp Hs].
  destruct (dropVotes_rest (gs w) punished id) as (E1 & E2 & E3).
  split; cbn [gs stk]; [done|by apply dropVotes_inv| |done].
  eapply param_inv_same; [done| |exact Hp]. unfold voting. by rewrite E2, E3.
Qed.

(** *** Declarations *)

Lemma notifyDeclared_inv n v b w w' :
  chain_inv b w → notifyDeclared n v w = (Ok tt, w') → chain_inv b w'.
Proof using Hlaws.
  intros [Hb Hg Hp Hs] Hrun. unfold notifyDeclared, try, on_stk in Hrun.
  pose proof (declare_ok n v (stk w) Hs) as Hok. pose proof (declare_ids n v (stk w) b) as Hids.
  revert Hrun. run_eval. destruct (DeclarePromoteNotify n v (stk w)) as [[[]|e|] s]; [|done|done].
  intros [_ <-]%pair_Ok_eq. cbn in Hok, Hids. split; cbn [gs stk]; [done|by rewrite Hids|done|done].
Qed.

Lemma declare_inv from n v sign b w w' :
  chain_inv b w → DeclareVersion from n v sign w = (Ok tt, w') → chain_inv b w'.
Proof using Hlaws.
  intros Hci Hrun. unfold DeclareVersion in Hrun.
  peel Hrun u1 E1. apply bind_Ok_inv in Hrun as ([] & w1 & Hc & Hrun).
  assert (w1 = w) as ->.
  { unfold checkCandidate in Hc. peel Hc a E2.
    apply bind_Ok_inv in Hc as (l & w2 & Hl & Hc).
    rewrite on_stk_reads in Hl by apply GetCanBaseList_reads. injection Hl as _ <-.
    unfold ask in Hc. by injection Hc as _ <-. }
  peel Hrun av E3. peel Hrun u4 E4. peel Hrun o E5.
  destruct o as [[|vp| |]|]; try done.
  - peel Hrun m E6. case_decide.
    + unfold ask in Hrun. injection Hrun as _ <-. done.
    + destruct (minor v =? minor av); [by eapply notifyDeclared_inv|].
      destruct (minor v =? _); [|done]. unfold put_gov, modify in Hrun.
      apply pair_Ok_eq in Hrun as [_ <-]. destruct Hci as [Hb Hg Hp Hs].
      destruct (addActiveNode_params n (vpProposalID vp) (gs w)) as (E7 & E8 & E9).
      split; cbn [gs stk]; [done|by apply addActiveNode_inv| |done].
      eapply param_inv_same; [done| |exact Hp]. unfold voting. by rewrite E8, E9.
  - peel Hrun pv E6. destruct (pv <=? 0).
    + destruct (minor v =? minor av); [by eapply notifyDeclared_inv|done].
    + destruct (minor v =? minor pv); [by eapply notifyDeclared_inv|done].
Qed.

(** *** The contract *)

Lemma govCall_Ok tx gas price op w w' :
  govCall tx gas price op w = (Ok tt, w') → w' = w ∨ op w = (Ok tt, w').
Proof.
  unfold govCall. intros Hrun. peel Hrun u E.
  destruct (gtHash tx =? 0); [apply pair_Ok_eq in Hrun as [_ <-]; by left|].
  peel Hrun u2 E2. by right.
Qed.

Lemma tx_inv tx op w :
  chain_inv (gtBlockNumber tx) w → tx_ok op →
  chain_inv (gtBlockNumber tx) (keep (govExec tx op) w).
Proof using Hcfg Hlaws.
  intros Hci Hok. unfold keep.
  destruct (govExec tx op w) as [[[]|e|] w'] eqn:Hrun; [|done|done].
  destruct op; cbn [govExec] in Hrun; apply govCall_Ok in Hrun as [->|Hrun]; try done;
    [eapply submit_inv; [done|exact Hrun|..] ..|by eapply vote_inv|by eapply declare_inv].
  all: try done; intros ? [= <-]; exact Hok.
Qed.

Lemma chain_inv_step b w b' w' :
  chain_inv b w → gov_step (b, w) (b', w') → chain_inv b' w'.
Proof using Hcfg.
  intros Hci Hstep. inversion Hstep; subst; clear Hstep.
  - by apply tx_inv.
  - by apply punish_inv.
  - destruct Hci. split; try done. cbn [gs stk]. by eapply inv_fewer.
  - destruct (end_block_runs Hcfg b w Hci) as (w1' & E & Hg & Hp & Hs & Hids & _).
    match goal with E' : GovEndBlock b w = _ |- _ => rewrite E in E'; injection E' as <- end.
    match goal with E' : GovBeginBlock _ _ = _ |- _ =>
      apply (begin_block_inv Hcfg b (verifierIDs (stk w) b)) in E' as (Estk & Hg2 & Hp2) end.
    2: done. 2: done. 2: { intros Hn. cbn [stk]. rewrite <- Hids. auto. }
    cbn [stk] in *. destruct Hci. split; [lia|by rewrite Estk|done|by rewrite Estk].
Qed.

Lemma chain_inv_reachable b w b' w' :
  chain_inv b w → rtc gov_step (b, w) (b', w') → chain_inv b' w'.
Proof using Hcfg.
  intros Hci Hrtc. remember (b, w) as x eqn:Ex. remember (b', w') as y eqn:Ey.
  revert b w Hci Ex. induction Hrtc as [x|x [b1 w1] y Hstep _ IH]; intros b w Hci ->.
  - by injection Ey as -> ->.
  - eapply IH; [done|by eapply chain_inv_step|done].
Qed.
End transactions.

(** ** Genesis (src/ethereum/core/genesis_data.go) *)

Definition emptyGov : GovStore :=
  {| proposals := ∅; tallyResults := ∅; activeVersions := []; pipIDs := []; votes := ∅;
     votingIDs := []; endIDs := []; preActiveID := None; preActiveVersion := None;
     activeNodes := ∅; accuVerifiers := ∅; paramItems := []; paramValues := ∅ |}.

(** The governance data of the genesis block: its version and the parameters. *)
Definition genesisGov (ec : EconomicModel) (genesisVersion : Z) : GovStore :=
  InitGenesisGovernParam ec
    (set_activeVersions emptyGov
       [{| ActiveVersion := genesisVersion; avActiveBlock := 0 |}]).

Ltac find_param :=
  cbn [foldl param ipItem ipValue piModule piName paramValues set_params];
  repeat first [rewrite lookup_insert_eq | rewrite lookup_insert_ne by (vm_compute; discriminate)].

(** A configuration that is accepted. *)
Record config_ok (ec : EconomicModel) : Prop := {
  co_common : common_in_range (Common ec);
  co_params : params_in_range ec;
  co_check : CheckEconomicModel (Some ec) = Ok tt;
  co_gov : gov_config_ok ec }.

Definition genesisParams (ec : EconomicModel) : Params :=
  {| pStakeThreshold := StakeThreshold (Staking ec);
     pOperatingThreshold := OperatingThreshold (Staking ec);
     pMaxValidators := MaxValidators (Staking ec);
     pUnStakeFreezeDuration := UnStakeFreezeDuration (Staking ec);
     pSlashFraction := SlashFractionDuplicateSign (Slashing ec);
     pReportReward := DuplicateSignReportReward (Slashing ec);
     pMaxEvidenceAge := MaxEvidenceAge (Slashing ec);
     pSlashBlocksReward := SlashBlocksReward (Slashing ec);
     pMaxBlockGasLimit := DefaultMinerGasCeil;
     pCumulativeTime := ZeroProduceCumulativeTime (Slashing ec);
     pNumberThreshold := ZeroProduceNumberThreshold (Slashing ec);
     pMaxChangeRange := RewardPerMaxChangeRange (Staking ec);
     pChangeInterval := RewardPerChangeInterval (Staking ec);
     pIssuanceRatio := IncreaseIssuanceRatio (Reward ec);
     pZeroProduceFreeze := ZeroProduceFreezeDuration (Slashing ec);
     pMinimumRelease := MinimumRelease (Restricting ec) |}.

Lemma genesis_params_ok ec : config_ok ec → params_ok ec (genesisParams ec).
Proof.
  intros [[] [] Hchk _]. unfold CheckEconomicModel in Hchk. checks_inv Hchk.
  unfold CheckMaxValidators, Xcom.CheckOperatingThreshold, Xcom.CheckStakeThreshold,
    CheckUnStakeFreezeDuration, CheckMaxEvidenceAge, CheckSlashFractionDuplicateSign,
    CheckDuplicateSignReportReward, CheckZeroProduceNumberThreshold, CheckSlashBlocksReward,
    CheckZeroProduceCumulativeTime, CheckIncreaseIssuanceRatio, CheckRewardPerMaxChangeRange,
    CheckRewardPerChangeInterval, CheckZeroProduceFreezeDuration, CheckMinimumRelease in *.
  repeat match goal with
  | E : _ ≫= _ = Ok _ |- _ => apply outcome_bind_Ok in E; destruct E as (? & ? & E)
  | E : reject _ _ = Ok _ |- _ => apply reject_Ok in E
  end.
  rewrite !i64_small in * by (unfold in_i64; lia). bool_to_prop.
  split; cbn; (lia || (split; [done|done])).
Qed.

Lemma genesis_reads ec version :
  config_ok ec → reads 0 (genesisGov ec version) (genesisParams ec).
Proof.
  intros Hco. pose proof (genesis_params_ok ec Hco) as []. destruct Hco as [_ [] _ _].
  destruct ok_validators, ok_unstake, ok_freeze, ok_cumulative. cbn in *.
  unfold CeilMaxValidators, CeilUnStakeFreezeDuration, TenThousand, Eighty, CeilBlocksReward,
    MaxZeroProduceCumulativeTime, RewardPerMaxChangeRangeUpperLimit,
    RewardPerMaxChangeRangeLowerLimit, RewardPerChangeIntervalUpperLimit,
    RewardPerChangeIntervalLowerLimit, IncreaseIssuanceRatioUpperLimit,
    IncreaseIssuanceRatioLowerLimit in *.
  split; cbn [pStakeThreshold];
    lazymatch goal with |- ?f _ _ = _ => unfold f end;
    unfold governBig, governInt, GetGovernParamValue, findGovernParamValue, genesisGov,
      InitGenesisGovernParam, initParam; find_param;
    cbn [mbind outcome_bind pvActiveBlock Value Z.leb Z.compare].
  all: rewrite ?SetString_Itoa; try done.
  all: rewrite ?i64_small by (unfold in_i64; lia).
  all: rewrite Atoi_Itoa by (unfold in_i64, DefaultMinerGasCeil; lia).
  all: cbn; f_equal; first [done|apply u64_small; unfold in_u64; lia
    |apply u32_small; unfold in_u32; lia|apply u16_small; unfold in_u16; lia].
Qed.

Lemma genesis_inv `{GovNode} {W} `{Hlaws : StakingLaws W} version (s : W) :
  config_ok em → staking_ok s → chain_inv 0 {| gs := genesisGov em version; stk := s |}.
Proof.
  intros Hco Hs. split; cbn [gs stk]; [lia| | |done].
  - split; try done; try (by intros ? ?%not_elem_of_nil); try by (intros ? [? ?]).
    + apply NoDup_nil_2.
    + by intros ? ? [? ?].
    + by intros ? ? ? ? [? ?].
    + by intros ? ? ? ? [? ?].
    + by intros ? ? [? ?].
    + by intros ? ? [? ?].
    + cbn. repeat constructor.
  - split.
    + intros k v. unfold genesisGov, InitGenesisGovernParam, initParam.
      cbn [foldl param ipItem ipValue piModule piName paramValues set_params].
      intros Hk. repeat (apply lookup_insert_Some in Hk as [[_ <-]|[_ Hk]]; [done|]). done.
    + exists (genesisParams em). split; [by apply genesis_reads|by apply genesis_params_ok].
    + by intros ? ? [? ?].
Qed.
