(* ===== verification/GovTheorems.v ===== *)
(** * Governance: theorems

    What the invariant of GovChain says of every chain that starts at a genesis
    block with an accepted configuration, an instance of the staking interface to
    run the model on, and behaviour of the code that its comments do not promise. *)

From S2P Require Import Prelude Xcom Xutil StateDB StakingTypes GovTypes GovDB GovParams Gov.
From S2P Require Import GovPlugin GovProofs GovChain.

(** ** Counting *)

Lemma tallyVotes_bounds l y n a y' n' a' :
  tallyVotes l y n a = (y', n', a') → 0 <= y → 0 <= n → 0 <= a →
  y + n + a + Z.of_nat (length l) < 2 ^ 63 →
  y <= y' ∧ n <= n' ∧ a <= a' ∧ y' + n' + a' <= y + n + a + Z.of_nat (length l).
Proof.
  revert y n a. induction l as [|v l IH]; intros y n a; cbn [tallyVotes length].
  { intros [= <- <- <-]. lia. }
  intros Hl Hy Hn Ha Hb.
  rewrite !u64_small in Hl by (unfold in_u64; lia). unfold Yes, No, Abstention in Hl.
  apply IH in Hl; repeat case_match; bool_to_prop; lia.
Qed.

Lemma rates_bounds y n a cnt :
  0 <= y → 0 <= n → 0 <= a → y + n + a <= cnt → cnt < 2 ^ 50 →
  0 <= (rates y n a cnt).1 <= RateCoefficient ∧ 0 <= (rates y n a cnt).2 <= RateCoefficient.
Proof.
  intros Hy Hn Ha Hle Hb. unfold rates, RateCoefficient.
  rewrite (u64_small (y + n)), (u64_small (y + n + a)) by (unfold in_u64; lia).
  destruct (0 <? y + n + a) eqn:E1; [|cbn; lia]. destruct (0 <? cnt) eqn:E2; [|cbn; lia].
  bool_to_prop. cbn. rewrite !u64_small by (unfold in_u64; lia). split.
  - split; [apply Z.div_pos; lia|]. apply Z.div_le_upper_bound; lia.
  - split; [apply Z.div_pos; lia|]. apply Z.div_le_upper_bound; lia.
Qed.

Lemma subset_length (l k : list Z) : NoDup l → l ⊆ k → (length l <= length k)%nat.
Proof. intros Hl Hs. by apply submseteq_length, NoDup_submseteq. Qed.

Section theorems.
Context `{GovNode} {W : Type} `{Hlaws : StakingLaws W}.

(** A chain that starts with the genesis block. *)
Definition reachable (b : Z) (w : GovWorld W) : Prop :=
  ∃ version s, staking_ok s
  ∧ rtc gov_step (0, {| gs := genesisGov em version; stk := s |}) (b, w).

Context (Hcfg : config_ok em).

Lemma reachable_inv b w : reachable b w → chain_inv b w.
Proof using Hcfg.
  intros (version & s & Hs & Hrtc). eapply chain_inv_reachable; [apply Hcfg|..|exact Hrtc].
  by apply genesis_inv.
Qed.

(** C17: at any time at most one version or parameter proposal is at voting stage,
    none while a version waits for its activation, and at most one cancellation; a
    cancellation at voting stage refers to a version or parameter proposal that is
    at voting stage too and ends later, so a cancellation that passes always finds
    its target. *)
Theorem proposals_exclusive b w :
  reachable b w →
  (∀ id1 p1 id2 p2, voting (gs w) id1 p1 → voting (gs w) id2 p2 →
    major p1 → major p2 → id1 = id2)
  ∧ (∀ id p, voting (gs w) id p → major p → preActiveID (gs w) = None)
  ∧ (∀ id1 c1 id2 c2, voting (gs w) id1 (CancelP c1) → voting (gs w) id2 (CancelP c2) →
    id1 = id2)
  ∧ (∀ id cp, voting (gs w) id (CancelP cp) → ∃ p, voting (gs w) (cpTobeCanceled cp) p
    ∧ major p ∧ cpEndVotingBlock cp < GetEndVotingBlock p).
Proof using Hcfg.
  intros Hr. destruct (ci_gov _ _ (reachable_inv b w Hr)).
  split; [done|]. split; [|done]. intros id p Hv Hm.
  destruct (preActiveID (gs w)); [|done]. destruct gi_pre as [vp []].
  by destruct (pa_alone id p Hv).
Qed.


(** C19: the votes on a proposal at voting stage come from distinct nodes, all of them
    recorded as verifiers of the proposal, so the two rates its tally computes are at
    most 100%. *)
Theorem votes_of_verifiers b w id :
  reachable b w → id ∈ votingIDs (gs w) →
  Z.of_nat (length (getAccuVerifiers id (gs w))) < 2 ^ 50 →
  NoDup (VoteNodeID <$> ListVoteValue id (gs w))
  ∧ (VoteNodeID <$> ListVoteValue id (gs w)) ⊆ getAccuVerifiers id (gs w)
  ∧ ∀ yeas nays abstentions, TallyVoteValue id (gs w) = (yeas, nays, abstentions) →
    let r := rates yeas nays abstentions (Z.of_nat (length (getAccuVerifiers id (gs w)))) in
    0 <= r.1 <= RateCoefficient ∧ 0 <= r.2 <= RateCoefficient.
Proof using Hcfg.
  intros Hr Hin Hlen. destruct (ci_gov _ _ (reachable_inv b w Hr)).
  destruct (gi_votes id Hin) as (Hnd & Hsub & _). split; [done|]. split; [done|].
  intros yeas nays abst Ht. pose proof (subset_length _ _ Hnd Hsub) as Hle.
  rewrite length_fmap in Hle. apply tallyVotes_bounds in Ht as (? & ? & ? & ?); [|lia..].
  apply rates_bounds; lia.
Qed.

(** C15: the governed parameters can be read at every block and stay within their
    ranges, with the relations between them: evidence can be reported for fewer
    epochs than a stake is frozen, a node without blocks is frozen for fewer, and
    the threshold of missed rounds is within the window they are counted in. *)
Theorem params_stay_valid b w :
  reachable b w → ∃ p, reads b (gs w) p ∧ params_ok em p.
Proof using Hcfg. intros Hr. apply (ci_param _ _ (reachable_inv b w Hr)). Qed.

(** the active versions of the chain increase, and a version at voting stage or
    waiting for activation is newer than all of them. *)
Theorem versions_increase b w :
  reachable b w →
  StronglySorted (λ x y, minor (ActiveVersion y) < minor (ActiveVersion x))
    (activeVersions (gs w))
  ∧ (∀ id vp, voting (gs w) id (VersionP vp) →
      minor (GetCurrentActiveVersion (gs w)) < minor (vpNewVersion vp))
  ∧ minor (GetCurrentActiveVersion (gs w)) <= minor (GetVersionForStaking (gs w)).
Proof using Hcfg.
  intros Hr. destruct (ci_gov _ _ (reachable_inv b w Hr)).
  split; [done|]. split; [done|].
  unfold GetVersionForStaking, GetPreActiveVersion, getPreActiveVersion.
  destruct (preActiveID (gs w)) as [pid|].
  - destruct gi_pre as [vp []]. rewrite pa_version. cbn [default]. case_match; cbn; lia.
  - rewrite gi_pre. cbn. lia.
Qed.

(** C18: a version that passed its vote becomes the active version at its block:
    when that block has begun the version is active and nothing waits for activation
    any more; a node whose code is older than the version does not begin it. *)
Theorem version_activates b w pid vp w' w2 :
  reachable b w → GovEndBlock b w = (Ok tt, w') →
  preActiveID (gs w') = Some pid → proposals (gs w') !! pid = Some (VersionP vp) →
  vpActiveBlock vp = b + 1 → GovBeginBlock (b + 1) w' = (Ok tt, w2) →
  LtMinorVersion (vpNewVersion vp) = false
  ∧ GetCurrentActiveVersion (gs w2) = vpNewVersion vp ∧ preActiveID (gs w2) = None.
Proof using Hcfg.
  intros Hr Hend Hpid Hvp Hact. pose proof (reachable_inv b w Hr) as Hci.
  destruct (end_block_runs (co_gov _ Hcfg) b w Hci) as (w1 & E & Hg & _).
  rewrite E in Hend. injection Hend as ->. pose proof (gi_pre _ _ _ _ Hg) as Hpre.
  rewrite Hpid in Hpre. destruct Hpre as [vp' [Hid _ Hp (r & Hres & _) _ _ _ Hbegin]].
  rewrite Hvp in Hp. injection Hp as <-. rewrite Hact in Hbegin.
  by eapply begin_activates.
Qed.
End theorems.

(** ** The nodes that upgraded for a version *)

Section active_nodes.
Context `{GovNode} {W : Type} `{StakingPlugin W} (nodes : gmap Z (list Z)).

Local Abbreviation kept := (preserves (λ w : GovWorld W, activeNodes (gs w) = nodes)).

Lemma kept_ask {A} (o : outcome A) : kept (ask o).
Proof. by intros w. Qed.

Lemma kept_ask_gov {A} (f : GovStore → outcome A) : kept (ask_gov f).
Proof. by intros w. Qed.

Lemma kept_put f : (∀ g, activeNodes (f g) = activeNodes g) → kept (put_gov f).
Proof. intros Hf w Hw. cbn. by rewrite Hf. Qed.

Lemma kept_end id : kept (try_gov (MoveVotingProposalIDToEnd id)).
Proof.
  intros w Hw. unfold try_gov, MoveVotingProposalIDToEnd. by destruct (remove _ _).
Qed.

#[local] Hint Resolve kept_ask kept_ask_gov kept_end : preserve.
#[local] Hint Extern 1 (preserves _ (put_gov _)) => apply kept_put; done : preserve.

Lemma tally_keeps_nodes ty id pip : kept (tally ty id pip).
Proof. unfold tally, get_gov. preserve. Qed.

(** A cancelled version proposal keeps its list of upgraded nodes: the condition that
    guards the deletion tests the type of the cancellation. *)
Lemma cancel_keeps_active_nodes cp :
  cpProposalType cp = Cancel → kept (tallyCancel cp).
Proof.
  intros Hty. unfold tallyCancel, get_gov. rewrite Hty.
  change (Cancel =? Version) with false. cbn [when].
  pose proof tally_keeps_nodes. preserve.
Qed.
End active_nodes.

(** ** An instance to run *)

Section demo.

(** The main network; the address of a node is its id. *)
#[local] Instance demoNode : GovNode :=
  {| em := mainNetConfig InitialChosenMainNetValidators;
     NodeId2Addr := λ n, Ok n;
     IsSignedByNodeID := λ _ _ _, true |}.

Definition blankMutable : CandidateMutable :=
  {| Status := 0; StakingEpoch := 0; cmShares := 0;
     Released := 0; ReleasedHes := 0; RestrictingPlan := 0; RestrictingPlanHes := 0;
     cmDelegateEpoch := 0; DelegateTotal := 0; DelegateTotalHes := 0;
     RewardPer := 0; NextRewardPer := 0; RewardPerChangeEpoch := 0;
     CurrentEpochDelegateReward := 0; DelegateRewardTotal := 0 |}.

(** Verifiers that never change; each stakes from the account with its own id. *)
#[local] Instance demoStaking : StakingPlugin (list Z) :=
  {| GetVerifierList := λ _ s,
       (Ok ((λ n, {| vxNodeId := n; vxStakingAddress := n |}) <$> s), s);
     ListVerifierNodeID := λ _ s, (Ok s, s);
     GetCanBaseList := λ s, (Ok [], s);
     GetCanMutable := λ _ s, (Ok blankMutable, s);
     DeclarePromoteNotify := λ _ _ s, (Ok tt, s);
     ProposalPassedNotify := λ _ _ s, (Ok tt, s) |}.

#[local] Instance demoStakingLaws : StakingLaws (list Z).
Proof.
  refine {| staking_ok := λ _, True |}; try done.
  - intros b s l v _ [= <-] (n & -> & Hn)%list_elem_of_fmap. done.
  - intros b s l _ _. by eexists.
Defined.

Lemma demo_config : config_ok em.
Proof.
  split; [split; cbn; lia|split; cbn; lia|by vm_compute|].
  split; [exact mainnet_wf|split; (by vm_compute) ..].
Qed.

Definition govTxOf (from block hash : Z) : GovTx :=
  {| gtFrom := from; gtBlockNumber := block; gtHash := hash; gtGas := 10 ^ 9;
     gtGasPrice := 10 ^ 18 |}.

Definition demoGenesis : GovWorld (list Z) :=
  {| gs := genesisGov em (Z.shiftl 1 16); stk := [1; 2; 3; 4] |}.

(** Node 1 proposes to let evidence be 3 epochs old; nodes 1 and 2 vote. *)
Definition demoRun : GovWorld (list Z) :=
  let w1 := keep (govExec (govTxOf 1 0 100)
    (SubmitParamTx 1 "PIP-1" ModuleSlashing KeyMaxEvidenceAge "3")) demoGenesis in
  let w2 := keep (govExec (govTxOf 1 0 101) (VoteTx 1 100 1 0 0)) w1 in
  keep (govExec (govTxOf 2 0 102) (VoteTx 2 100 2 0 0)) w2.

Lemma demoRun_reachable : reachable 0 demoRun.
Proof.
  exists (Z.shiftl 1 16), [1; 2; 3; 4]. split; [done|].
  eapply rtc_l; [apply step_tx with (tx := govTxOf 1 0 100)
    (op := SubmitParamTx 1 "PIP-1" ModuleSlashing KeyMaxEvidenceAge "3"); done|].
  eapply rtc_l; [apply step_tx with (tx := govTxOf 1 0 101) (op := VoteTx 1 100 1 0 0); done|].
  eapply rtc_l; [apply step_tx with (tx := govTxOf 2 0 102) (op := VoteTx 2 100 2 0 0); done|].
  apply rtc_refl.
Qed.

Definition isSomeb {A} (o : option A) : bool := if o then true else false.

Lemma keep_ok (m : M (GovWorld (list Z)) unit) w :
  match (m w).1 with Ok _ => true | _ => false end = true → m w = (Ok tt, keep m w).
Proof. unfold keep. by destruct (m w) as [[[]| |] w']. Qed.

(** Blocks without transactions. *)
Definition nextBlock (b : Z) (w : GovWorld (list Z)) : option (GovWorld (list Z)) :=
  match GovEndBlock b w with
  | (Ok _, w1) => match GovBeginBlock (b + 1) w1 with (Ok _, w2) => Some w2 | _ => None end
  | _ => None
  end.

Fixpoint runBlocks (n : nat) (b : Z) (w : GovWorld (list Z)) : option (GovWorld (list Z)) :=
  match n with
  | O => Some w
  | S n => w ← nextBlock b w; runBlocks n (b + 1) w
  end.

Lemma runBlocks_reachable n b w w' :
  reachable b w → runBlocks n b w = Some w' → b + Z.of_nat n < 2 ^ 58 →
  reachable (b + Z.of_nat n) w'.
Proof.
  revert b w. induction n as [|n IH]; intros b w Hr; cbn [runBlocks].
  { intros [= <-] _. by rewrite Z.add_0_r. }
  unfold nextBlock. destruct (GovEndBlock b w) as [[[]|e|] w1] eqn:E1; [|done|done].
  destruct (GovBeginBlock (b + 1) w1) as [[[]|e|] w2] eqn:E2; [|done|done].
  cbn [mbind option_bind]. intros Hrun Hb. rewrite Nat2Z.inj_succ, <- Z.add_1_l, Z.add_assoc.
  eapply IH; [|done|lia]. destruct Hr as (version & s & Hs & Hrtc). exists version, s.
  split; [done|]. eapply rtc_r; [exact Hrtc|].
  apply (step_block b w w1 (stk w1) w2); [lia|done|done| |by destruct w1].
  intros _. by destruct w1.
Qed.

(** The run from a state, the state itself if it stops. *)
Definition atBlock (n : nat) (w : GovWorld (list Z)) : GovWorld (list Z) :=
  default w (runBlocks n 0 w).

Lemma atBlock_reachable n w :
  reachable 0 w → isSomeb (runBlocks n 0 w) = true → Z.of_nat n < 2 ^ 58 →
  reachable (Z.of_nat n) (atBlock n w).
Proof.
  intros Hr Hs Hn. unfold atBlock. destruct (runBlocks n 0 w) as [w'|] eqn:Hw; [|done].
  by apply (runBlocks_reachable n 0 w w' Hr).
Qed.

(** The block after the votes. *)
Definition demoNext : GovWorld (list Z) := atBlock 1 demoRun.

Lemma demoNext_reachable : reachable 1 demoNext.
Proof. apply (atBlock_reachable 1 demoRun demoRun_reachable); [by vm_compute|lia]. Qed.

(** Version 1.1.0 is proposed with a vote of one round; three of four nodes vote for it. *)
Definition newVersion : Z := Z.lor (Z.shiftl 1 16) (Z.shiftl 1 8).

Definition versionTxs : list (GovTx * govTx) :=
  [(govTxOf 1 0 100, SubmitVersionTx 1 "PIP-1" newVersion 1);
   (govTxOf 1 0 101, VoteTx 1 100 1 newVersion 0);
   (govTxOf 2 0 102, VoteTx 2 100 1 newVersion 0);
   (govTxOf 3 0 103, VoteTx 3 100 1 newVersion 0)].

Definition versionStart : GovWorld (list Z) :=
  foldl (λ w tx, keep (govExec tx.1 tx.2) w) demoGenesis versionTxs.

Lemma versionStart_reachable : reachable 0 versionStart.
Proof.
  exists (Z.shiftl 1 16), [1; 2; 3; 4]. split; [done|]. unfold versionStart, versionTxs.
  cbn [foldl fst snd].
  repeat (eapply rtc_r; [|apply step_tx; done]). apply rtc_refl.
Qed.

Lemma proposals_exclusive_witness :
  (∀ id1 p1 id2 p2, voting (gs demoRun) id1 p1 → voting (gs demoRun) id2 p2 →
    major p1 → major p2 → id1 = id2)
  ∧ GetProposalType <$> GetProposal 100 (gs demoRun) = Some Param.
Proof.
  split; [|by vm_compute]. apply (proposals_exclusive demo_config 0 demoRun demoRun_reachable).
Defined.


(** The version is active from block 87 on. *)
Lemma version_activates_witness :
  ∃ w2 : GovWorld (list Z),
    GetCurrentActiveVersion (gs w2) = newVersion ∧ preActiveID (gs w2) = None.
Proof.
  set (w := atBlock 86 versionStart). set (w1 := keep (GovEndBlock 86) w).
  destruct (proposals (gs w1) !! 100) as [[|vp| |]|] eqn:Ep; try by vm_compute in Ep.
  assert (vpActiveBlock vp = 87 ∧ vpNewVersion vp = newVersion) as [Hact Hnew].
  { vm_compute in Ep. injection Ep as <-. by vm_compute. }
  exists (keep (GovBeginBlock 87) w1). rewrite <- Hnew.
  apply (version_activates demo_config 86 w 100 vp w1).
  - apply (atBlock_reachable 86 _ versionStart_reachable); [by vm_compute|lia].
  - apply keep_ok. by vm_compute.
  - by vm_compute.
  - exact Ep.
  - exact Hact.
  - apply (keep_ok (GovBeginBlock 87)). by vm_compute.
Defined.

Lemma votes_of_verifiers_witness :
  (VoteNodeID <$> ListVoteValue 100 (gs demoRun)) ⊆ getAccuVerifiers 100 (gs demoRun)
  ∧ VoteNodeID <$> ListVoteValue 100 (gs demoRun) = [1; 2].
Proof.
  split; [|by vm_compute].
  apply (votes_of_verifiers demo_config 0 demoRun 100 demoRun_reachable);
    [apply list_elem_of_In; vm_compute; by left|by vm_compute].
Defined.

Lemma params_stay_valid_witness :
  ∃ p, reads 0 (gs demoRun) p ∧ params_ok em p.
Proof. apply (params_stay_valid demo_config 0 demoRun demoRun_reachable). Defined.

Lemma versions_increase_witness :
  minor (GetCurrentActiveVersion (gs demoRun)) <= minor (GetVersionForStaking (gs demoRun))
  ∧ GetCurrentActiveVersion (gs demoRun) = 65536.
Proof.
  split; [|by vm_compute]. apply (versions_increase demo_config 0 demoRun demoRun_reachable).
Defined.

(** ** Rounds of a cancellation

    The rounds of a cancellation are only bounded by the end of the vote it wants
    to cancel, after the product with the blocks of a round wrapped around. *)

Definition overflowRounds : Z := 428994048225803550.

Definition overflowRun : GovWorld (list Z) :=
  let w1 := keep (govExec (govTxOf 1 0 100)
    (SubmitVersionTx 1 "PIP-1" (Z.lor (Z.shiftl 1 16) (Z.shiftl 1 8)) 30)) demoGenesis in
  keep (govExec (govTxOf 2 0 101) (SubmitCancelTx 2 "PIP-2" overflowRounds 100)) w1.


(** A PIP id that is not valid UTF-8 is stored as another string, so a second
    proposal with the same id is accepted. *)
Definition badPIP : string := String (Ascii.ascii_of_nat 255) "".

Definition pipRun : GovWorld (list Z) :=
  let w1 := keep (govExec (govTxOf 1 0 100) (SubmitTextTx 1 badPIP)) demoGenesis in
  keep (govExec (govTxOf 2 0 101) (SubmitTextTx 2 badPIP)) w1.

Lemma invalid_pipid_reused :
  votingIDs (gs pipRun) = [100; 101]
  ∧ GetPIPID <$> GetProposal 100 (gs pipRun) = GetPIPID <$> GetProposal 101 (gs pipRun).
Proof. by vm_compute. Qed.
End demo.
