(* ===== verification/GovStaking.v ===== *)
(** * Governance and staking together (src/pos/plugin/staking_plugin.go)

    The staking plugin's side of the interface governance uses: the queries of the
    verifiers and candidates and the two notices that promote the version of
    candidates, with the proof that they satisfy the laws the governance theorems
    rely on; and governance's side of the interface staking uses: the [Env] of the
    staking handlers, read from a governance store. *)

From S2P Require Import Gov GovPlugin GovProofs GovChain GovTheorems.
From S2P Require Import Prelude Xcom Xutil StateDB Keys StakingTypes StakingDB ValidatorLists.
From S2P Require Import Staking StakingSlash Reward GovTypes GovDB GovParams.

(** ** Queries and notices of the staking plugin *)

Section queries.
Context `{Env}.

Definition inRange (blockNumber : Z) (arr : ValidatorArray) : M World unit :=
  if (blockNumber <? vaStart arr) || (vaEnd arr <? blockNumber)
  then fail ErrBlockNumberDisordered else mret tt.

Fixpoint verifiersEx (arr : list Validator) : M World (list Gov.VerifierEx) :=
  match arr with
  | [] => mret []
  | v :: arr =>
      can ← GetCandidateStore (NodeAddress v);
      rest ← verifiersEx arr;
      mret ({| Gov.vxNodeId := cbNodeId (canBase can);
               Gov.vxStakingAddress := StakingAddress (canBase can) |} :: rest)
  end.

Definition GetVerifierList (blockNumber : Z) : M World (list Gov.VerifierEx) :=
  verifierList ← getVerifierList blockNumber;
  inRange blockNumber verifierList ≫= λ _,
  verifiersEx (vaArr verifierList).

Definition ListVerifierNodeID (blockNumber : Z) : M World (list Z) :=
  verifierList ← getVerifierList blockNumber;
  inRange blockNumber verifierList ≫= λ _,
  mret (NodeId <$> vaArr verifierList).

Fixpoint canBasesOf (powers : list (PowerKey * Z)) : M World (list CandidateBase) :=
  match powers with
  | [] => mret []
  | (_, addr) :: powers =>
      can ← GetCanBaseStore addr;
      rest ← canBasesOf powers;
      mret (can :: rest)
  end.

Definition GetCanBaseList : M World (list CandidateBase) :=
  powers ← gets (λ w, IteratorCandidatePower (snapDB w) 0);
  canBasesOf powers.

Definition IsCandidate (nodeId : Z) : M World bool :=
  addr ← ask (NodeId2Addr nodeId);
  can ← GetCandidateStore addr;
  mret (negb (IsInvalid (Status (canMutable can)))).

Definition setVersion (programVersion : Z) (can : Candidate) : Candidate :=
  {| canBase := {| cbNodeId := cbNodeId (canBase can); cbBlsPubKey := cbBlsPubKey (canBase can);
                   StakingAddress := StakingAddress (canBase can);
                   BenefitAddress := BenefitAddress (canBase can);
                   cbStakingTxIndex := cbStakingTxIndex (canBase can);
                   cbProgramVersion := programVersion;
                   cbStakingBlockNum := cbStakingBlockNum (canBase can);
                   cbDescription := cbDescription (canBase can) |};
     canMutable := canMutable can |}.

Definition DeclarePromoteNotify (nodeId programVersion : Z) : M World unit :=
  let addr := slashAddr nodeId in
  o ← get_opt (GetCandidateStore addr);
  match o with
  | None => mret tt
  | Some can =>
      if IsInvalid (Status (canMutable can)) then mret tt
      else
        DelCanPowerStore can ≫= λ _,
        SetCanPowerStore addr (setVersion programVersion can) ≫= λ _,
        SetCanBaseStore addr (canBase (setVersion programVersion can))
  end.

(** One node of the loop; an invalid candidate loses its place by power. *)
Definition promoteOne (programVersion nodeId : Z) : M World unit :=
  let addr := slashAddr nodeId in
  o ← get_opt (GetCandidateStore addr);
  match o with
  | None => mret tt
  | Some can =>
      DelCanPowerStore can ≫= λ _,
      SetCanBaseStore addr (canBase (setVersion programVersion can)) ≫= λ _,
      when (negb (IsInvalid (Status (canMutable can))))
        (SetCanPowerStore addr (setVersion programVersion can))
  end.

Definition ProposalPassedNotify (nodeIds : list Z) (programVersion : Z) : M World unit :=
  for_each (promoteOne programVersion) nodeIds.

#[export] Instance stakingPlugin : Gov.StakingPlugin World :=
  {| Gov.GetVerifierList := GetVerifierList;
     Gov.ListVerifierNodeID := ListVerifierNodeID;
     Gov.GetCanBaseList := GetCanBaseList;
     Gov.GetCanMutable := GetCanMutableStore;
     Gov.DeclarePromoteNotify := DeclarePromoteNotify;
     Gov.ProposalPassedNotify := ProposalPassedNotify |}.

(** ** The laws *)

(** A verifier's entry carries the node id of the candidate at its address. *)
Definition ids_consistent (w : World) : Prop :=
  ∀ range arr v base, epochValArrs (snapDB w) !! range = Some arr → v ∈ arr →
  canBases (snapDB w) !! NodeAddress v = Some base → cbNodeId base = NodeId v.

(** A query leaves the state as it is. *)
Definition query {A} (m : M World A) : Prop := ∀ w, (m w).2 = w.

Lemma query_bind {A B} (m : M World A) (k : A → M World B) :
  query m → (∀ a, query (k a)) → query (m ≫= k).
Proof.
  intros Hm Hk w. specialize (Hm w). unfold mbind, M_bind.
  destruct (m w) as [[a|e|] s]; cbn in *; subst; [apply Hk|done|done].
Qed.

Lemma query_db_get {A} (f : SnapshotDB → option A) : query (db_get f).
Proof. intros w. unfold db_get. run_eval. by destruct (f (snapDB w)). Qed.

Lemma query_candidate addr : query (GetCandidateStore addr).
Proof. repeat (apply query_bind; [apply query_db_get|intros ?]). by intros w. Qed.

Lemma query_get_opt {A} (m : M World A) : query m → query (get_opt m).
Proof.
  intros Hm. apply query_bind.
  - intros w. specialize (Hm w). unfold try. by destruct (m w) as [[| |] ?].
  - intros [a|e]; [by intros w|]. by case_bool_decide; intros w.
Qed.

Lemma query_verifiers b : query (getVerifierList b).
Proof.
  apply query_bind.
  - apply query_bind; [apply query_get_opt, query_db_get|]. intros o. unfold orNoExist.
    by case_match; intros w.
  - intros i. apply query_bind; [apply query_get_opt, query_db_get|].
    intros o. by case_match; intros w.
Qed.

Lemma query_range b arr : query (inRange b arr).
Proof. unfold inRange. by case_match; intros w. Qed.

Lemma query_verifiersEx arr : query (verifiersEx arr).
Proof.
  induction arr as [|v arr IH]; [by intros w|].
  apply query_bind; [apply query_candidate|intros can]. by apply query_bind; [|intros ? w].
Qed.

Lemma query_canBases powers : query (canBasesOf powers).
Proof.
  induction powers as [|[k addr] powers IH]; [by intros w|].
  apply query_bind; [apply query_db_get|intros can]. by apply query_bind; [|intros ? w].
Qed.

Lemma GetVerifierList_query b : query (GetVerifierList b).
Proof.
  apply query_bind; [apply query_verifiers|intros arr].
  apply query_bind; [apply query_range|intros _; apply query_verifiersEx].
Qed.

Lemma ListVerifierNodeID_query b : query (ListVerifierNodeID b).
Proof.
  apply query_bind; [apply query_verifiers|intros arr].
  apply query_bind; [apply query_range|by intros _ w].
Qed.

Lemma GetCanBaseList_query : query GetCanBaseList.
Proof. apply query_bind; [by intros w|intros l; apply query_canBases]. Qed.

Lemma query_index b : query (getVeriferIndex b).
Proof.
  apply query_bind; [apply query_get_opt, query_db_get|]. intros o. unfold orNoExist.
  by case_match; intros w.
Qed.

(** The verifiers' list is one of those stored. *)
Lemma getVerifierList_stored b w arr w' :
  getVerifierList b w = (Ok arr, w') →
  w' = w ∧ ∃ range, epochValArrs (snapDB w) !! range = Some (vaArr arr).
Proof.
  intros Hrun. pose proof (query_verifiers b w) as Hq. rewrite Hrun in Hq. cbn in Hq. subst w'.
  split; [done|]. unfold getVerifierList in Hrun.
  apply bind_Ok_inv in Hrun as (i & w1 & Hi & Hrun).
  pose proof (query_index b w) as Hq. rewrite Hi in Hq. cbn in Hq. subst w1.
  revert Hrun. unfold loadArray, get_opt, GetEpochValList, db_get. run_eval.
  destruct (epochValArrs (snapDB w) !! (Start i, End_ i)) as [[|v l]|] eqn:E; [done| |done].
  intros [<- _]%pair_Ok_eq. by exists (Start i, End_ i).
Qed.

Lemma GetCandidateStore_Ok addr w can w' :
  GetCandidateStore addr w = (Ok can, w') →
  w' = w ∧ canBases (snapDB w) !! addr = Some (canBase can).
Proof.
  unfold GetCandidateStore, GetCanBaseStore, GetCanMutableStore, db_get. run_eval.
  destruct (canBases (snapDB w) !! addr); [|done]. cbv iota.
  destruct (canMutables (snapDB w) !! addr); [|done]. by intros [<- <-]%pair_Ok_eq.
Qed.

Lemma verifiersEx_ids arr w l w' :
  verifiersEx arr w = (Ok l, w') →
  (∀ v base, v ∈ arr → canBases (snapDB w) !! NodeAddress v = Some base →
    cbNodeId base = NodeId v) →
  Gov.vxNodeId <$> l = NodeId <$> arr.
Proof.
  revert l. induction arr as [|v arr IH]; intros l; cbn [verifiersEx].
  { by intros [<- _]%pair_Ok_eq. }
  intros Hrun Hids. apply bind_Ok_inv in Hrun as (can & w1 & Hcan & Hrun).
  apply GetCandidateStore_Ok in Hcan as [-> Hbase].
  apply bind_Ok_inv in Hrun as (rest & w2 & Hrest & Hrun).
  pose proof (query_verifiersEx arr w) as Hq. rewrite Hrest in Hq. cbn in Hq. subst w2.
  apply pair_Ok_eq in Hrun as [<- <-]. cbn [fmap list_fmap Gov.vxNodeId]. f_equal.
  - apply (Hids v); [by apply elem_of_cons; left|done].
  - eapply IH; [done|]. intros x base Hx. apply Hids, elem_of_cons. by right.
Qed.

(** Where the verifiers can be listed so can the ids; they are the same. *)
Lemma verifier_lists_agree b w l :
  ids_consistent w → (GetVerifierList b w).1 = Ok l →
  (ListVerifierNodeID b w).1 = Ok (Gov.vxNodeId <$> l).
Proof.
  intros Hids Hl. destruct (GetVerifierList b w) as [r w'] eqn:Hrun. cbn in Hl. subst r.
  apply bind_Ok_inv in Hrun as (arr & w1 & Harr & Hrun). unfold ListVerifierNodeID.
  rewrite (bind_Ok_run _ _ _ _ _ Harr).
  destruct (getVerifierList_stored _ _ _ _ Harr) as [-> [range Hrange]].
  apply bind_Ok_inv in Hrun as ([] & w1 & Hin & Hrun). rewrite (bind_Ok_run _ _ _ _ _ Hin).
  pose proof (query_range b arr w) as Hq. rewrite Hin in Hq. cbn in Hq. subst w1.
  cbn. f_equal. symmetry. eapply verifiersEx_ids; [exact Hrun|].
  intros v base Hv Hb. by eapply Hids.
Qed.

(** A promotion changes versions and powers of candidates, nothing else. *)
Record promoted (w w' : World) : Prop := {
  pr_index : epochValIndex (snapDB w') = epochValIndex (snapDB w);
  pr_lists : epochValArrs (snapDB w') = epochValArrs (snapDB w);
  pr_nodes : ∀ addr, cbNodeId <$> canBases (snapDB w') !! addr
                     = cbNodeId <$> canBases (snapDB w) !! addr }.

Lemma promoted_refl w : promoted w w.
Proof. by split. Qed.

Lemma promoted_trans w1 w2 w3 : promoted w1 w2 → promoted w2 w3 → promoted w1 w3.
Proof. intros [] []. split; intros; etransitivity; eauto. Qed.

Lemma promoted_base w addr can v :
  canBases (snapDB w) !! addr = Some (canBase can) →
  promoted w (SetCanBaseStore addr (canBase (setVersion v can)) w).2.
Proof.
  intros Hb. split; [done|done|]. intros x. cbn.
  destruct (decide (addr = x)) as [->|]; [by rewrite lookup_insert_eq, Hb|].
  by rewrite lookup_insert_ne.
Qed.

Lemma get_opt_candidate addr w :
  ∃ o, get_opt (GetCandidateStore addr) w = (Ok o, w)
    ∧ ∀ can, o = Some can → canBases (snapDB w) !! addr = Some (canBase can).
Proof.
  unfold get_opt, GetCandidateStore, GetCanBaseStore, GetCanMutableStore, db_get. run_eval.
  destruct (canBases (snapDB w) !! addr) as [base|]; [|by eexists].
  cbv iota. destruct (canMutables (snapDB w) !! addr); [|by eexists].
  eexists. split; [done|]. by intros can [= <-].
Qed.

Lemma declare_promotes n v w : promoted w (DeclarePromoteNotify n v w).2.
Proof.
  unfold DeclarePromoteNotify.
  destruct (get_opt_candidate (slashAddr n) w) as (o & E & Ho). rewrite (bind_Ok_run _ _ _ _ _ E).
  destruct o as [can|]; [|apply promoted_refl].
  case_match; [apply promoted_refl|]. unfold DelCanPowerStore, SetCanPowerStore. run_eval.
  eapply promoted_trans; [|apply promoted_base; by apply Ho]. by split.
Qed.

Lemma promoteOne_promotes v n w :
  (promoteOne v n w).1 = Ok tt ∧ promoted w (promoteOne v n w).2.
Proof.
  unfold promoteOne.
  destruct (get_opt_candidate (slashAddr n) w) as (o & E & Ho). rewrite (bind_Ok_run _ _ _ _ _ E).
  destruct o as [can|]; [|split; [done|apply promoted_refl]].
  assert (promoted w (DelCanPowerStore can w).2) as H1 by (by split).
  assert (promoted (DelCanPowerStore can w).2
    (SetCanBaseStore (slashAddr n) (canBase (setVersion v can)) (DelCanPowerStore can w).2).2)
    as H2 by (apply promoted_base; by apply Ho).
  unfold DelCanPowerStore, SetCanBaseStore, SetCanPowerStore, db_put in *.
  destruct (IsInvalid _); run_eval; (split; [done|]).
  - by eapply promoted_trans.
  - eapply promoted_trans; [by eapply promoted_trans|]. by split.
Qed.

Lemma passed_promotes l v w :
  (ProposalPassedNotify l v w).1 = Ok tt ∧ promoted w (ProposalPassedNotify l v w).2.
Proof.
  unfold ProposalPassedNotify. revert w. induction l as [|n l IH]; intros w; cbn [for_each].
  { split; [done|apply promoted_refl]. }
  destruct (promoteOne_promotes v n w) as [H1 H2].
  destruct (promoteOne v n w) as [r w1] eqn:E. cbn in H1, H2. subst r.
  rewrite (bind_Ok_run _ _ _ _ _ E). destruct (IH w1) as [H3 H4].
  split; [done|by eapply promoted_trans].
Qed.

Lemma promoted_consistent w w' : promoted w w' → ids_consistent w → ids_consistent w'.
Proof.
  intros [_ Hl Hn] Hw range arr v base. rewrite Hl. intros Hr Hv Hb.
  specialize (Hn (NodeAddress v)). rewrite Hb in Hn. cbn in Hn.
  destruct (canBases (snapDB w) !! NodeAddress v) as [base'|] eqn:E; [|done].
  injection Hn as ->. by eapply Hw.
Qed.

Lemma getVerifierList_eq b w :
  getVerifierList b w =
  (match findIndex b (default [] (epochValIndex (snapDB w))) with
   | None => Err ErrValidatorNoExist
   | Some i =>
       match default [] (epochValArrs (snapDB w) !! (Start i, End_ i)) with
       | [] => Err ErrValidatorNoExist
       | queue => Ok {| vaStart := Start i; vaEnd := End_ i; vaArr := queue |}
       end
   end, w).
Proof.
  unfold getVerifierList, getVeriferIndex, get_opt, GetEpochValIndex, db_get. run_eval.
  destruct (epochValIndex (snapDB w)) as [l|]; [|done].
  unfold default. cbn [from_option id]. destruct (findIndex b l) as [i|]; [|done].
  cbn [orNoExist]. unfold loadArray, get_opt, GetEpochValList, db_get. run_eval.
  by destruct (epochValArrs (snapDB w) !! (Start i, End_ i)) as [[|]|].
Qed.

Lemma promoted_ids w w' b : promoted w w' →
  (ListVerifierNodeID b w').1 = (ListVerifierNodeID b w).1.
Proof.
  intros [Hi Hl _]. unfold ListVerifierNodeID, mbind, M_bind.
  rewrite !getVerifierList_eq, Hi, Hl. destruct (findIndex _ _) as [i|]; [|done].
  destruct (default [] _) as [|v arr]; [done|]. unfold inRange. by destruct (_ || _).
Qed.

#[export] Instance stakingLaws : GovProofs.StakingLaws World.
Proof.
  refine {| GovProofs.staking_ok := ids_consistent |}; unfold GovProofs.verifierIDs; cbn.
  - intros b w. apply GetVerifierList_query.
  - intros b w. apply ListVerifierNodeID_query.
  - intros w. apply GetCanBaseList_query.
  - intros a w. apply query_db_get.
  - intros b w l v Hok Hl Hv.
    rewrite (verifier_lists_agree b w l Hok Hl). by apply list_elem_of_fmap_2.
  - intros b w l Hok Hl. rewrite (verifier_lists_agree b w l Hok Hl). by eexists.
  - intros n v w. apply promoted_consistent, declare_promotes.
  - intros n v w b. by rewrite (promoted_ids w _ b (declare_promotes n v w)).
  - intros l v w. apply promoted_consistent, passed_promotes.
  - intros l v w b. by rewrite (promoted_ids w _ b (proj2 (passed_promotes l v w))).
  - intros l v w. apply passed_promotes.
Qed.
End queries.

(** ** The environment of staking *)

(** The parameters and the votes staking asks for, read from governance. *)
Definition govEnv (econ : EconomicModel) (nodeAddr : Z → outcome Z) (g : GovStore) : Env :=
  {| ec := econ;
     NodeId2Addr := nodeAddr;
     StakingDB.GovernStakeThreshold := λ n, GovParams.GovernStakeThreshold n g;
     StakingDB.GovernOperatingThreshold := λ n, GovParams.GovernOperatingThreshold n g;
     StakingDB.GovernUnStakeFreezeDuration := λ n, GovParams.GovernUnStakeFreezeDuration n g;
     StakingDB.GovernZeroProduceFreezeDuration :=
       λ n, GovParams.GovernZeroProduceFreezeDuration n g;
     StakingDB.GovernMaxEvidenceAge := λ n, GovParams.GovernMaxEvidenceAge n g;
     StakingDB.GovernMaxValidators := λ n, GovParams.GovernMaxValidators n g;
     StakingDB.GovernIncreaseIssuanceRatio := λ n, GovParams.GovernIncreaseIssuanceRatio n g;
     StakingDB.GovernSlashFractionDuplicateSign :=
       λ n, GovParams.GovernSlashFractionDuplicateSign n g;
     StakingDB.GovernDuplicateSignReportReward :=
       λ n, GovParams.GovernDuplicateSignReportReward n g;
     StakingDB.GovernZeroProduceNumberThreshold :=
       λ n, GovParams.GovernZeroProduceNumberThreshold n g;
     StakingDB.GovernZeroProduceCumulativeTime :=
       λ n, GovParams.GovernZeroProduceCumulativeTime n g;
     StakingDB.GovernSlashBlocksReward := λ n, GovParams.GovernSlashBlocksReward n g;
     StakingDB.GetVersionForStaking := Gov.GetVersionForStaking g;
     StakingDB.GetCurrentActiveVersion := Gov.GetCurrentActiveVersion g;
     StakingDB.GetMaxEndVotingBlock := λ node, Gov.GetMaxEndVotingBlock node g;
     StakingDB.NotifyPunishedVerifiers := λ nodes,
       (Gov.NotifyPunishedVerifiers (W:=unit) (list_to_set nodes)
          {| Gov.gs := g; Gov.stk := tt |}).1 |}.

(** ** Stakes of nodes that voted *)

Lemma maxEndOfVotes_Ok node id l g p max :
  proposals g !! id = Some p → ∃ m, Gov.maxEndOfVotes node id l g max = Ok m
    ∧ max <= m ∧ (m = max ∨ m = GetEndVotingBlock p)
    ∧ (node ∈ (VoteNodeID <$> l) → GetEndVotingBlock p <= m).
Proof.
  intros Hp. revert max. induction l as [|v l IH]; intros max; cbn [Gov.maxEndOfVotes].
  { exists max. split; [done|]. split; [lia|]. split; [by left|]. by intros ?%not_elem_of_nil. }
  unfold GetExistProposal, GetProposal. rewrite Hp. cbn [mbind outcome_bind].
  destruct (Z.eqb_spec (VoteNodeID v) node) as [Hv|Hv].
  - destruct (IH (if max <? GetEndVotingBlock p then GetEndVotingBlock p else max))
      as (m & -> & Hle & Hor & _).
    exists m. split; [done|]. destruct (max <? _) eqn:E; bool_to_prop;
      (split; [lia|]); (split; [destruct Hor; auto|]); lia.
  - destruct (IH max) as (m & -> & Hle & Hor & Hin). exists m. do 3 (split; [done|]).
    rewrite fmap_cons. intros [?|?]%elem_of_cons; [congruence|auto].
Qed.

Lemma maxEndVoting_Ok node ids g max :
  (∀ id, id ∈ ids → is_Some (proposals g !! id)) →
  ∃ m, Gov.maxEndVoting node ids g max = Ok m ∧ max <= m
    ∧ (m = max ∨ ∃ id p, id ∈ ids ∧ proposals g !! id = Some p ∧ m = GetEndVotingBlock p)
    ∧ ∀ id p, id ∈ ids → proposals g !! id = Some p →
      node ∈ (VoteNodeID <$> ListVoteValue id g) → GetEndVotingBlock p <= m.
Proof.
  revert max. induction ids as [|id ids IH]; intros max Hids; cbn [Gov.maxEndVoting].
  { exists max. split; [done|]. split; [lia|]. split; [by left|]. by intros ? ? ?%not_elem_of_nil. }
  destruct (Hids id) as [p Hp]; [by apply elem_of_cons; left|].
  destruct (maxEndOfVotes_Ok node id (ListVoteValue id g) g p max Hp)
    as (m1 & -> & Hle1 & Hor1 & Hin1). cbn [mbind outcome_bind].
  destruct (IH m1) as (m & -> & Hle & Hor & Hin).
  { intros x Hx. apply Hids, elem_of_cons. by right. }
  exists m. split; [done|]. split; [lia|]. split.
  - destruct Hor as [->|(x & q & Hx & Hq & ->)].
    + destruct Hor1 as [->| ->]; [by left|]. right. exists id, p. split; [|done].
      by apply elem_of_cons; left.
    + right. exists x, q. split; [|done]. by apply elem_of_cons; right.
  - intros x q [->|Hx]%elem_of_cons Hq Hn; [|by eapply Hin].
    rewrite Hp in Hq. injection Hq as <-. specialize (Hin1 Hn). lia.
Qed.

Lemma CalculateEpoch_mono econ n m :
  ec_wf econ → 1 <= n → n <= m → m < block_bound →
  CalculateEpoch econ n <= CalculateEpoch econ m.
Proof.
  intros Hwf Hn Hnm Hm. pose proof (ec_wf_epoch_blocks econ Hwf) as [He Hs].
  assert (1 < CalcBlocksEachEpoch econ) as Hsz by lia.
  pose proof (period_of_bounds _ Hsz n ltac:(lia)).
  pose proof (period_of_bounds _ Hsz m ltac:(lia)). unfold CalculateEpoch. nia.
Qed.

Section frozen.
Context `{Gov.GovNode} {W : Type} `{GovProofs.StakingLaws W}.
Context (Hcfg : GovChain.config_ok Gov.em).

(** C16: a node that leaves gets its stake back only after the votes it took part in:
    the withdrawal of its stake is filed, without an error, under an epoch that is not
    before the epoch in which any proposal at voting stage that the node voted for ends,
    and not before the freeze duration of the moment has passed. *)
Theorem stake_frozen_while_voting b gw nodeAddr node canAddr stakingBlock w :
  GovTheorems.reachable (W:=W) b gw → 1 <= b →
  ∃ w' epoch index duration,
    addUnStakeItem (H := govEnv Gov.em nodeAddr (Gov.gs gw)) b node canAddr stakingBlock w
    = (Ok tt, w')
    ∧ unStakeItems (snapDB w') !! (epoch, index)
      = Some {| usNodeAddress := canAddr; usStakingBlockNum := stakingBlock;
                Recovery := false |}
    ∧ GovParams.GovernUnStakeFreezeDuration b (Gov.gs gw) = Ok duration
    ∧ CalculateEpoch Gov.em b + duration <= epoch
    ∧ ∀ id p, GovProofs.voting (Gov.gs gw) id p →
      node ∈ (VoteNodeID <$> ListVoteValue id (Gov.gs gw)) →
      CalculateEpoch Gov.em (GetEndVotingBlock p) <= epoch.
Proof using Hcfg.
  intros Hr Hb. pose proof (GovTheorems.reachable_inv Hcfg b gw Hr) as [Hbound Hg Hp _].
  destruct (GovProofs.pi_reads _ _ Hp) as (params & Hreads & Hok).
  destruct (maxEndVoting_Ok node (votingIDs (Gov.gs gw)) (Gov.gs gw) 0) as (m & Hm & Hm0 & Hor & Hin).
  { intros id Hid. destruct (GovProofs.gi_stored _ _ _ _ Hg id Hid) as (p & [_ Hv]). by eexists. }
  pose proof (GovChain.co_gov _ Hcfg) as [Hwf _ _ _].
  assert (Hmb : m < block_bound).
  { destruct Hor as [->|(id & p & Hid & Hpr & ->)]; [unfold block_bound; lia|].
    destruct (GovProofs.gi_due _ _ _ _ Hg id p (conj Hid Hpr)) as (_ & _ & [? _] & _).
    unfold block_bound. lia. }
  pose proof (GovParams.ok_freeze _ _ Hok). pose proof (GovParams.ok_unstake _ _ Hok).
  pose proof (period_of_bounds (CalcBlocksEachEpoch Gov.em)) as Hper.
  pose proof (ec_wf_epoch_blocks _ Hwf) as [_ Hsz].
  unfold addUnStakeItem, ask. cbn [StakingDB.GetMaxEndVotingBlock govEnv
    StakingDB.GovernUnStakeFreezeDuration ec].
  unfold Gov.GetMaxEndVotingBlock. run_eval. rewrite Hm, (GovParams.rd_unstake _ _ _ Hreads).
  assert (Hepoch : 0 <= CalculateEpoch Gov.em b < 2 ^ 60).
  { specialize (Hper ltac:(lia) b ltac:(unfold block_bound; lia)).
    fold (CalculateEpoch Gov.em b) in Hper. nia. }
  assert (Hu : u64 (CalculateEpoch Gov.em b + pUnStakeFreezeDuration params)
    = CalculateEpoch Gov.em b + pUnStakeFreezeDuration params).
  { apply u64_small. unfold in_u64, CeilUnStakeFreezeDuration in *. lia. }
  rewrite Hu.
  set (target := if (if negb (m =? 0) then _ else _) <=? _ then _ else _).
  unfold AddUnStakeItemStore, db_put. run_eval.
  eexists _, target, _, _. split; [done|]. cbn [snapDB with_db unStakeItems set_unStakeItems].
  split; [apply lookup_insert_eq|]. split; [done|]. split.
  { subst target. destruct (_ <=? _) eqn:E; bool_to_prop; lia. }
  intros id p Hv Hvoted. pose proof Hv as [Hid Hpr].
  specialize (Hin id p Hid Hpr Hvoted).
  destruct (GovProofs.gi_due _ _ _ _ Hg id p Hv) as (_ & _ & [Hd _] & _).
  assert (CalculateEpoch Gov.em (GetEndVotingBlock p) <= CalculateEpoch Gov.em m)
    by (apply CalculateEpoch_mono; (done || lia)).
  subst target. rewrite (proj2 (Z.eqb_neq m 0)) by lia. cbn [negb].
  destruct (_ <=? _) eqn:E; bool_to_prop; lia.
Qed.
End frozen.

Lemma stake_frozen_while_voting_witness :
  ∃ w', addUnStakeItem
    (H := govEnv (Gov.em (GovNode := GovTheorems.demoNode)) (λ n, Ok n)
            (Gov.gs GovTheorems.demoNext)) 1 2 2 0 demoRounds = (Ok tt, w').
Proof.
  destruct (stake_frozen_while_voting (H := GovTheorems.demoNode) (W := list Z)
    (H0 := GovTheorems.demoStaking) (H1 := GovTheorems.demoStakingLaws) GovTheorems.demo_config
    1 GovTheorems.demoNext (λ n, Ok n) 2 2 0 demoRounds GovTheorems.demoNext_reachable
    ltac:(lia)) as (w' & _ & _ & _ & E & _).
  by exists w'.
Defined.
