(* ===== verification/BitArray.v ===== *)
(** The bit array of the consensus certificates.

    Models consensus/pbft/utils/bit_array.go: a number of bits and the 64-bit
    words that hold them.  A Go pointer to a bit array is an [option]; the
    methods that change their receiver return the changed array; an access
    to a word that does not exist is a [Panic].  The theorems relate the
    words to the vector of booleans that [bits] reads off them. *)

From Stdlib Require Import Ascii String.
From S2P Require Import Prelude.

Record BitArray := mkBitArray {
  Bits : Z;
  Elems : list Z;
}.

#[export] Instance BitArray_eq_dec : EqDecision BitArray.
Proof. solve_decision. Defined.

(** ** Operations *)

(** The constants [uint64(1) << uint(k)] and [^x] of the code. *)
Definition maskAt (k : Z) : Z := u64 (Z.shiftl 1 k).
Definition compl64 (x : Z) : Z := Z.lxor x (Z.ones 64).

(** [(bits+63)/64], in 32 bits as the code computes it. *)
Definition numWords (bits : Z) : nat := Z.to_nat (u32 (bits + 63) / 64).

Definition NewBitArray (bits : Z) : option BitArray :=
  if bits <=? 0 then None
  else Some (mkBitArray bits (replicate (numWords bits) 0)).

Definition Size (bA : option BitArray) : Z :=
  match bA with None => 0 | Some b => Bits b end.

Definition wordAt (b : BitArray) (i : Z) : outcome Z :=
  match Elems b !! Z.to_nat (i / 64) with Some e => Ok e | None => Panic end.

Definition getIndex (b : BitArray) (i : Z) : outcome bool :=
  if Bits b <=? i then Ok false
  else e ← wordAt b i; Ok (0 <? Z.land e (maskAt (i mod 64))).

Definition GetIndex (bA : option BitArray) (i : Z) : outcome bool :=
  match bA with None => Ok false | Some b => getIndex b i end.

Definition setIndex (b : BitArray) (i : Z) (v : bool) : outcome (bool * BitArray) :=
  if Bits b <=? i then Ok (false, b)
  else
    e ← wordAt b i;
    let e' := if v then Z.lor e (maskAt (i mod 64))
              else Z.land e (compl64 (maskAt (i mod 64))) in
    Ok (true, mkBitArray (Bits b) (<[Z.to_nat (i / 64) := e']> (Elems b))).

Definition SetIndex (bA : option BitArray) (i : Z) (v : bool) :
    outcome (bool * option BitArray) :=
  match bA with
  | None => Ok (false, None)
  | Some b => r ← setIndex b i v; Ok (r.1, Some r.2)
  end.

(** Go's [copy(dst, src)] on whole slices. *)
Definition copySlice {A} (dst src : list A) : list A :=
  take (length dst) src ++ drop (length src) dst.

(** The copy is a value of its own, so nothing is left of the method here. *)
Definition Copy (bA : option BitArray) : option BitArray :=
  match bA with None => None | Some b => Some (mkBitArray (Bits b) (Elems b)) end.

Definition copyBits (b : BitArray) (bits : Z) : BitArray :=
  mkBitArray bits (copySlice (replicate (numWords bits) 0) (Elems b)).

(** [for i := 0; i < n; i++ { c[i] = f(c[i], o[i]) }] *)
Fixpoint zipWords (f : Z → Z → Z) (n : nat) (c o : list Z) : outcome (list Z) :=
  match n with
  | O => Ok c
  | S n =>
      match c, o with
      | x :: c, y :: o => r ← zipWords f n c o; Ok (f x y :: r)
      | _, _ => Panic
      end
  end.

Definition MaxUInt (a b : Z) : Z := if b <? a then a else b.
Definition MinUInt (a b : Z) : Z := if a <? b then a else b.
Definition MinInt (a b : nat) : nat := if (a <? b)%nat then a else b.

Definition Or (bA o : option BitArray) : outcome (option BitArray) :=
  match bA, o with
  | None, None => Ok None
  | None, Some o => Ok (Copy (Some o))
  | Some b, None => Ok (Copy (Some b))
  | Some b, Some o =>
      let c := copyBits b (MaxUInt (Bits b) (Bits o)) in
      es ← zipWords Z.lor (MinInt (length (Elems b)) (length (Elems o)))
             (Elems c) (Elems o);
      Ok (Some (mkBitArray (Bits c) es))
  end.

Definition And (bA o : option BitArray) : outcome (option BitArray) :=
  match bA, o with
  | Some b, Some o =>
      let c := copyBits b (MinUInt (Bits b) (Bits o)) in
      es ← zipWords Z.land (length (Elems c)) (Elems c) (Elems o);
      Ok (Some (mkBitArray (Bits c) es))
  | _, _ => Ok None
  end.

Definition Not (bA : option BitArray) : option BitArray :=
  match bA with
  | None => None
  | Some b => Some (mkBitArray (Bits b) (compl64 <$> Elems b))
  end.

(** Go's [x &^ y]. *)
Definition andNot (x y : Z) : Z := Z.ldiff x y.

Definition Sub (bA o : option BitArray) : outcome (option BitArray) :=
  match bA, o with
  | Some b, Some o =>
      let c := copyBits b (Bits b) in
      es ← zipWords andNot (MinInt (length (Elems b)) (length (Elems o)))
             (Elems c) (Elems o);
      Ok (Some (mkBitArray (Bits c) es))
  | _, _ => Ok None
  end.

Definition IsEmpty (bA : option BitArray) : bool :=
  match bA with
  | None => true
  | Some b => forallb (λ e, negb (0 <? e)) (Elems b)
  end.

Definition IsFull (bA : option BitArray) : outcome bool :=
  match bA with
  | None => Ok true
  | Some b =>
      match last (Elems b) with
      | None => Panic
      | Some lastElem =>
          if forallb (λ e, compl64 e =? 0)
               (take (length (Elems b) - 1) (Elems b))
          then
            let lastElemBits := u32 (u32 (Bits b + 63) mod 64 + 1) in
            Ok (Z.land (u64 (lastElem + 1)) (u64 (maskAt lastElemBits - 1)) =? 0)
          else Ok false
      end
  end.

(** The inner loop of [getTrueIndices]: [n] bits of [elem] from bit [j]. *)
Fixpoint trueBits (n : nat) (elem j curBit : Z) (acc : list Z) : Z * list Z :=
  match n with
  | O => (curBit, acc)
  | S n =>
      let acc := if 0 <? Z.land elem (maskAt j) then acc ++ [curBit] else acc in
      trueBits n elem (j + 1) (u32 (curBit + 1)) acc
  end.

Fixpoint trueElems (es : list Z) (curBit : Z) (acc : list Z) : Z * list Z :=
  match es with
  | [] => (curBit, acc)
  | e :: es =>
      if e =? 0 then trueElems es (u32 (curBit + 64)) acc
      else let '(curBit, acc) := trueBits 64 e 0 curBit acc in
           trueElems es curBit acc
  end.

Definition getTrueIndices (b : BitArray) : outcome (list Z) :=
  match last (Elems b) with
  | None => Panic
  | Some lastElem =>
      let '(curBit, acc) := trueElems (take (length (Elems b) - 1) (Elems b)) 0 [] in
      let numFinalBits := u32 (Bits b - curBit) in
      Ok (trueBits (Z.to_nat numFinalBits) lastElem 0 curBit acc).2
  end.

(** [RandIntn n] of the code is the argument [randIntn]. *)
Definition PickRandom (randIntn : nat → nat) (bA : option BitArray) :
    outcome (Z * bool) :=
  match bA with
  | None => Ok (0, false)
  | Some b =>
      trueIndices ← getTrueIndices b;
      if (length trueIndices =? 0)%nat then Ok (0, false)
      else match trueIndices !! randIntn (length trueIndices) with
           | Some i => Ok (i, true)
           | None => Panic
           end
  end.

(** [binary.LittleEndian.PutUint64] *)
Definition putUint64 (e : Z) : list Z :=
  (λ k, Z.land (Z.shiftr e (8 * Z.of_nat k)) 255) <$> seq 0 8.

(** The loop of [Bytes]; the slice expression [bytes[i*8:]] is out of range
    when there are too many words. *)
Fixpoint putElems (es : list Z) (i : nat) (bytes : list Z) : outcome (list Z) :=
  match es with
  | [] => Ok bytes
  | e :: es =>
      if (length bytes <? i * 8)%nat then Panic
      else putElems es (S i)
             (take (i * 8) bytes ++ copySlice (drop (i * 8) bytes) (putUint64 e))
  end.

Definition Bytes (b : BitArray) : outcome (list Z) :=
  putElems (Elems b) 0 (replicate (Z.to_nat (u32 (Bits b + 7) / 8)) 0).

Definition Update (bA o : option BitArray) : option BitArray :=
  match bA, o with
  | Some b, Some o => Some (mkBitArray (Bits b) (copySlice (Elems b) (Elems o)))
  | _, _ => bA
  end.

(** *** JSON *)

Definition quote : ascii := ascii_of_nat 34.
Definition bitChar (v : bool) : ascii := if v then "x"%char else "_"%char.

Fixpoint marshalBits (b : BitArray) (n : nat) (i : Z) (acc : list ascii) :
    outcome (list ascii) :=
  match n with
  | O => Ok acc
  | S n => v ← getIndex b i; marshalBits b n (i + 1) (acc ++ [bitChar v])
  end.

Definition jsonNull : list ascii := list_ascii_of_string "null".

Definition MarshalJSON (bA : option BitArray) : outcome (list ascii) :=
  match bA with
  | None => Ok jsonNull
  | Some b =>
      bits ← marshalBits b (Z.to_nat (Bits b)) 0 [quote];
      Ok (bits ++ [quote])
  end.

Definition isBitChar (c : ascii) : bool :=
  bool_decide (c = "_"%char) || bool_decide (c = "x"%char).

(** The submatch of the regular expression: a quoted string of ['_'] and ['x']. *)
Definition bitArrayJSONRegexp (b : list ascii) : option (list ascii) :=
  match b with
  | c :: rest =>
      match last rest with
      | Some d =>
          let body := take (length rest - 1) rest in
          if bool_decide (c = quote) && bool_decide (d = quote)
             && forallb isBitChar body then Some body else None
      | None => None
      end
  | [] => None
  end.

Fixpoint unmarshalBits (bits : list ascii) (i : Z) (b : option BitArray) :
    outcome (option BitArray) :=
  match bits with
  | [] => Ok b
  | c :: bits =>
      if bool_decide (c = "x"%char)
      then r ← SetIndex b i true; unmarshalBits bits (i + 1) r.2
      else unmarshalBits bits (i + 1) b
  end.

(** The receiver after the call; [*bA = *bA2] panics on an empty string. *)
Definition UnmarshalJSON (bz : list ascii) : outcome BitArray :=
  if bool_decide (bz = jsonNull) then Ok (mkBitArray 0 [])
  else match bitArrayJSONRegexp bz with
       | None => Err GenericError
       | Some bits =>
           bA2 ← unmarshalBits bits 0 (NewBitArray (u32 (Z.of_nat (length bits))));
           match bA2 with Some b => Ok b | None => Panic end
       end.

(** ** The vector of booleans *)

Definition bit (b : BitArray) (i : nat) : bool :=
  match Elems b !! (i `div` 64)%nat with
  | Some e => Z.testbit e (Z.of_nat (i mod 64))
  | None => false
  end.

Definition bits (b : BitArray) : list bool :=
  bit b <$> seq 0 (Z.to_nat (Bits b)).

(** At most [2^32 - 64] bits, the words the number of bits asks for, each of
    64 bits. *)
Record wf (b : BitArray) : Prop := {
  wf_bits : 0 < Bits b <= 2 ^ 32 - 64;
  wf_words : length (Elems b) = numWords (Bits b);
  wf_elems : Forall in_u64 (Elems b);
}.

(** The bits past the end of the last word are clear. *)
Definition clean (b : BitArray) : Prop :=
  ∀ i : nat, Bits b <= Z.of_nat i → bit b i = false.

(** *** Words *)

Lemma maskAt_pow k : 0 <= k < 64 → maskAt k = 2 ^ k.
Proof.
  intros Hk. unfold maskAt. rewrite Z.shiftl_1_l. apply u64_small.
  split; [lia|]. apply Z.pow_lt_mono_r; lia.
Qed.

Lemma land_mask e k :
  0 <= k < 64 → (0 <? Z.land e (maskAt k)) = Z.testbit e k.
Proof.
  intros Hk. rewrite maskAt_pow by done.
  assert (Z.land e (2 ^ k) = if Z.testbit e k then 2 ^ k else 0) as ->.
  { apply Z.bits_inj'. intros j Hj. rewrite Z.land_spec, Z.pow2_bits_eqb by lia.
    destruct (Z.eqb_spec k j) as [->|Hne].
    - destruct (Z.testbit e j) eqn:E; [by rewrite Z.pow2_bits_true|by rewrite Z.bits_0].
    - rewrite andb_false_r. destruct (Z.testbit e k);
        [by rewrite Z.pow2_bits_false|by rewrite Z.bits_0]. }
  destruct (Z.testbit e k); [|done]. apply Z.ltb_lt. lia.
Qed.

Lemma lor_mask_bit e k j :
  0 <= k < 64 → 0 <= j → Z.testbit (Z.lor e (maskAt k)) j = Z.testbit e j || (k =? j).
Proof.
  intros. rewrite Z.lor_spec, maskAt_pow, Z.pow2_bits_eqb by lia. done.
Qed.

Lemma compl64_bit x j : 0 <= j < 64 → Z.testbit (compl64 x) j = negb (Z.testbit x j).
Proof.
  intros. unfold compl64. rewrite Z.lxor_spec, Z.ones_spec_low by lia.
  apply xorb_true_r.
Qed.

Lemma clear_mask_bit e k j :
  0 <= k < 64 → 0 <= j < 64 →
  Z.testbit (Z.land e (compl64 (maskAt k))) j = Z.testbit e j && negb (k =? j).
Proof.
  intros. rewrite Z.land_spec, compl64_bit, maskAt_pow, Z.pow2_bits_eqb by lia.
  done.
Qed.

Lemma in_u64_bits x : in_u64 x ↔ 0 <= x ∧ ∀ j, 64 <= j → Z.testbit x j = false.
Proof.
  unfold in_u64. split.
  - intros Hx. split; [lia|]. intros j Hj.
    destruct (decide (x = 0)) as [->|]; [apply Z.bits_0|].
    apply Z.bits_above_log2; [lia|].
    assert (Z.log2 x < 64) by (apply Z.log2_lt_pow2; lia). lia.
  - intros [H0 Hb]. split; [done|]. destruct (decide (x = 0)) as [->|]; [done|].
    apply Z.log2_lt_pow2; [lia|].
    destruct (decide (Z.log2 x < 64)) as [|Hge]; [done|].
    specialize (Hb (Z.log2 x)). rewrite Z.bit_log2 in Hb; [|lia].
    discriminate Hb. lia.
Qed.

Lemma in_u64_lor x y : in_u64 x → in_u64 y → in_u64 (Z.lor x y).
Proof.
  rewrite !in_u64_bits. intros [? Hx] [? Hy]. split; [by apply Z.lor_nonneg|].
  intros j Hj. by rewrite Z.lor_spec, Hx, Hy.
Qed.

Lemma in_u64_land x y : in_u64 x → 0 <= y → in_u64 (Z.land x y).
Proof.
  rewrite !in_u64_bits. intros [? Hx] ?. split; [apply Z.land_nonneg; lia|].
  intros j Hj. by rewrite Z.land_spec, Hx.
Qed.

Lemma in_u64_andNot x y : in_u64 x → in_u64 y → in_u64 (andNot x y).
Proof.
  rewrite !in_u64_bits. intros [? Hx] [? Hy]. unfold andNot.
  split; [apply Z.ldiff_nonneg; lia|].
  intros j Hj. by rewrite Z.ldiff_spec, Hx.
Qed.

Lemma in_u64_compl x : in_u64 x → in_u64 (compl64 x).
Proof.
  rewrite !in_u64_bits. intros [? Hx]. unfold compl64.
  split; [apply Z.lxor_nonneg; rewrite Z.ones_equiv; split; lia|].
  intros j Hj. rewrite Z.lxor_spec, Hx, Z.ones_spec_high by lia. done.
Qed.

Lemma in_u64_mask k : in_u64 (maskAt k).
Proof. apply u64_range. Qed.

Create HintDb bitarray.
#[export] Hint Resolve in_u64_lor in_u64_land in_u64_andNot in_u64_compl
  in_u64_mask : bitarray.

(** *** Indices *)

Lemma numWords_spec n :
  0 < n <= 2 ^ 32 - 64 → Z.of_nat (numWords n) = (n + 63) / 64.
Proof.
  intros Hn. unfold numWords. rewrite u32_small by (unfold in_u32; lia).
  rewrite Z2Nat.id; [done|]. apply Z.div_pos; lia.
Qed.

Lemma numWords_cover n i :
  0 < n <= 2 ^ 32 - 64 → 0 <= i < n → (Z.to_nat (i / 64) < numWords n)%nat.
Proof.
  intros Hn Hi. apply Nat2Z.inj_lt. rewrite numWords_spec, Z2Nat.id by (try done; apply Z.div_pos; lia).
  assert (i / 64 <= (n - 1) / 64) by (apply Z.div_le_mono; lia).
  assert ((n + 63) / 64 = (n - 1) / 64 + 1); [|lia].
  rewrite <- Z.div_add by lia. f_equal. lia.
Qed.

Lemma bit_Z b i :
  0 <= i →
  bit b (Z.to_nat i) =
    match Elems b !! Z.to_nat (i / 64) with
    | Some e => Z.testbit e (i mod 64) | None => false end.
Proof.
  intros Hi. unfold bit. rewrite Nat2Z.inj_mod, Z2Nat.id by done.
  rewrite Z2Nat.inj_div by lia. done.
Qed.

Lemma bits_length b : length (bits b) = Z.to_nat (Bits b).
Proof. unfold bits. by rewrite length_fmap, length_seq. Qed.

Lemma bits_lookup b i :
  bits b !! i = if decide (Z.of_nat i < Bits b) then Some (bit b i) else None.
Proof.
  unfold bits. rewrite list_lookup_fmap. case_decide.
  - rewrite lookup_seq_lt by lia. done.
  - rewrite lookup_seq_ge by lia. done.
Qed.

Lemma wf_word b i :
  wf b → 0 <= i < Bits b →
  ∃ e, Elems b !! Z.to_nat (i / 64) = Some e ∧ in_u64 e ∧ wordAt b i = Ok e.
Proof.
  intros Hb Hi. unfold wordAt.
  destruct (lookup_lt_is_Some_2 (Elems b) (Z.to_nat (i / 64))) as [e He].
  { rewrite wf_words by done. apply numWords_cover; [apply Hb|done]. }
  exists e. rewrite He. split_and!; [done| |done].
  eapply Forall_lookup_1; [apply Hb|done].
Qed.

(** A word-wise operation acts bit by bit, index [i] on the bit of its word. *)
Lemma split_index (i j : nat) :
  i ≠ j → (i `div` 64)%nat = (j `div` 64)%nat → (i mod 64)%nat ≠ (j mod 64)%nat.
Proof.
  intros Hne Hd Hm. apply Hne.
  by rewrite (Nat.div_mod_eq i 64), (Nat.div_mod_eq j 64), Hd, Hm.
Qed.

(** ** Refinement *)

Lemma NewBitArray_spec n :
  0 < n <= 2 ^ 32 - 64 →
  ∃ b, NewBitArray n = Some b ∧ wf b ∧ clean b ∧ Bits b = n ∧
       bits b = replicate (Z.to_nat n) false.
Proof.
  intros Hn. unfold NewBitArray. destruct (Z.leb_spec n 0); [lia|].
  eexists. split; [done|].
  assert (Hbit : ∀ i, bit (mkBitArray n (replicate (numWords n) 0)) i = false).
  { intros i. unfold bit. cbn.
    destruct (_ !! _) as [e|] eqn:E; [|done].
    apply lookup_replicate in E as [-> _]. apply Z.bits_0. }
  split_and!.
  - constructor; cbn; [done|by rewrite length_replicate|].
    apply Forall_replicate. done.
  - intros i _. apply Hbit.
  - done.
  - unfold bits. apply list_eq. intros i. rewrite list_lookup_fmap. cbn [Bits].
    destruct (decide (i < Z.to_nat n)%nat).
    + rewrite lookup_seq_lt, lookup_replicate_2 by done. cbn. by rewrite Hbit.
    + rewrite lookup_seq_ge by lia. symmetry. apply lookup_replicate_None. lia.
Qed.

Lemma getIndex_spec b i :
  wf b → 0 <= i → getIndex b i = Ok (default false (bits b !! Z.to_nat i)).
Proof.
  intros Hb Hi. unfold getIndex. rewrite bits_lookup, Z2Nat.id by done.
  destruct (Z.leb_spec (Bits b) i); [by rewrite decide_False by lia|].
  rewrite decide_True by done.
  destruct (wf_word b i) as (e & He & Hu & ->); [done|lia|]. cbn.
  rewrite bit_Z, He, land_mask by (try done; apply Z.mod_pos_bound; lia). done.
Qed.

Lemma setWord_bit b (i j : nat) v e :
  Elems b !! (i `div` 64)%nat = Some e →
  let k := Z.of_nat (i mod 64) in
  let e' := if v : bool then Z.lor e (maskAt k) else Z.land e (compl64 (maskAt k)) in
  bit (mkBitArray (Bits b) (<[(i `div` 64)%nat := e']> (Elems b))) j =
    if decide (j = i) then v else bit b j.
Proof.
  intros He k e'. pose proof (Nat.mod_upper_bound i 64 ltac:(lia)).
  pose proof (Nat.mod_upper_bound j 64 ltac:(lia)).
  unfold bit. cbn [Elems].
  destruct (decide (i `div` 64 = j `div` 64)%nat) as [Hd|Hd].
  - rewrite Hd, list_lookup_insert_eq by (rewrite <- Hd; by eapply lookup_lt_Some).
    rewrite <- Hd, He. unfold e', k. case_decide as Hji.
    + subst j. destruct v.
      * by rewrite lor_mask_bit, Z.eqb_refl, orb_true_r by lia.
      * by rewrite clear_mask_bit, Z.eqb_refl, andb_false_r by lia.
    + assert ((i mod 64)%nat ≠ (j mod 64)%nat) by (apply split_index; congruence).
      destruct v.
      * rewrite lor_mask_bit by lia. rewrite (proj2 (Z.eqb_neq _ _)) by lia.
        apply orb_false_r.
      * rewrite clear_mask_bit by lia. rewrite (proj2 (Z.eqb_neq _ _)) by lia.
        apply andb_true_r.
  - rewrite list_lookup_insert_ne by done.
    by rewrite decide_False by (intros ->; done).
Qed.

Lemma setIndex_spec b i v :
  wf b → 0 <= i →
  ∃ b', setIndex b i v = Ok (i <? Bits b, b') ∧ wf b' ∧ Bits b' = Bits b ∧
        (clean b → clean b') ∧
        bits b' = <[Z.to_nat i := v]> (bits b).
Proof.
  intros Hb Hi. unfold setIndex. destruct (Z.leb_spec (Bits b) i) as [Hge|Hlt].
  - exists b. rewrite (proj2 (Z.ltb_ge _ _)) by done. split_and!; try done.
    rewrite list_insert_ge; [done|]. rewrite bits_length. lia.
  - destruct (wf_word b i) as (e & He & Hu & ->); [done|lia|]. cbn.
    rewrite (proj2 (Z.ltb_lt _ _)) by done. eexists. split; [done|].
    assert (Hz : Z.to_nat (i / 64) = (Z.to_nat i `div` 64)%nat) by (by rewrite Z2Nat.inj_div).
    assert (Hm : i mod 64 = Z.of_nat (Z.to_nat i mod 64))
      by (rewrite Nat2Z.inj_mod, Z2Nat.id; done).
    rewrite Hz in He.
    pose proof (λ j, setWord_bit b (Z.to_nat i) j v e He) as Hbit. cbv zeta in Hbit.
    rewrite <- Hz, <- Hm in Hbit. split_and!.
    + destruct Hb. constructor; cbn; [done|by rewrite length_insert|].
      apply Forall_insert; [done|]. destruct v; eauto with bitarray.
      apply in_u64_land; [done|]. by apply in_u64_compl, in_u64_mask.
    + done.
    + intros Hc j Hj. cbn in Hj. rewrite Hbit, decide_False by lia. by apply Hc.
    + apply list_eq. intros j. rewrite bits_lookup, Hbit. cbn [Bits].
      destruct (decide (j = Z.to_nat i)) as [->|Hne].
      * rewrite list_lookup_insert_eq by (rewrite bits_length; lia).
        by rewrite decide_True by lia.
      * rewrite list_lookup_insert_ne by done. by rewrite bits_lookup.
Qed.

(** *** Word-wise operations *)

Lemma zipWords_spec f n c o :
  (n <= length c)%nat → (n <= length o)%nat →
  ∃ r, zipWords f n c o = Ok r ∧ length r = length c ∧
    ∀ k, r !! k = if decide (k < n)%nat
                  then x ← c !! k; y ← o !! k; Some (f x y)
                  else c !! k.
Proof.
  revert c o. induction n as [|n IH]; intros c o Hc Ho; cbn.
  - exists c. split_and!; [done|done|]. intros k. by rewrite decide_False by lia.
  - destruct c as [|x c], o as [|y o]; cbn in Hc, Ho; try lia.
    destruct (IH c o) as (r & Hr & Hlen & Hk); [lia|lia|]. rewrite Hr. cbn.
    eexists. split_and!; [done|cbn; lia|]. intros [|k]; cbn.
    + by rewrite decide_True by lia.
    + rewrite Hk. by repeat case_decide; try lia.
Qed.

Lemma zipWords_u64 f n c o r :
  (∀ x y, in_u64 x → in_u64 y → in_u64 (f x y)) →
  Forall in_u64 c → Forall in_u64 o →
  zipWords f n c o = Ok r → Forall in_u64 r.
Proof.
  intros Hf. revert c o r. induction n as [|n IH]; intros c o r Hc Ho; cbn.
  - by intros [= <-].
  - destruct c as [|x c], o as [|y o]; try done.
    intros (r' & Hr & [= <-])%outcome_bind_Ok.
    inversion_clear Hc. inversion_clear Ho. constructor; eauto.
Qed.

Lemma copySlice_length {A} (dst src : list A) : length (copySlice dst src) = length dst.
Proof. unfold copySlice. rewrite length_app, length_take, length_drop. lia. Qed.

Lemma copySlice_lookup {A} (dst src : list A) k :
  copySlice dst src !! k =
    if decide (k < length src ∧ k < length dst)%nat then src !! k else dst !! k.
Proof.
  unfold copySlice. destruct (decide (k < length (take (length dst) src))%nat) as [Hk|Hk];
    rewrite length_take in Hk.
  - rewrite lookup_app_l by (rewrite length_take; lia).
    rewrite lookup_take_lt, decide_True by lia. done.
  - rewrite lookup_app_r by (rewrite length_take; lia).
    rewrite decide_False by lia. rewrite lookup_drop, length_take.
    destruct (decide (length src <= length dst)%nat).
    + f_equal. lia.
    + rewrite !lookup_ge_None_2 by lia. done.
Qed.

Lemma copyBits_word b n k :
  (k < numWords n)%nat → Elems (copyBits b n) !! k = Some (default 0 (Elems b !! k)).
Proof.
  intros Hk. cbn. rewrite copySlice_lookup, length_replicate. case_decide as H.
  - destruct (lookup_lt_is_Some_2 (Elems b) k) as [e ->]; [lia|done].
  - rewrite lookup_replicate_2, (lookup_ge_None_2 (Elems b)) by lia. done.
Qed.

Lemma copyBits_wf b n : wf b → 0 < n <= 2 ^ 32 - 64 → wf (copyBits b n).
Proof.
  intros Hb Hn. constructor; cbn; [done|by rewrite copySlice_length, length_replicate|].
  unfold copySlice. apply Forall_app. split; [apply Forall_take, Hb|].
  apply Forall_drop, Forall_replicate. done.
Qed.

(** The array that a word-wise loop leaves of a copy, and its bits. *)
Lemma zipCopy_spec f g b o n m :
  (∀ x y, in_u64 x → in_u64 y → in_u64 (f x y)) →
  (∀ x y j, 0 <= j → Z.testbit (f x y) j = g (Z.testbit x j) (Z.testbit y j)) →
  wf b → wf o → 0 < n <= 2 ^ 32 - 64 →
  (m <= numWords n)%nat → (m <= length (Elems o))%nat →
  ∃ es, zipWords f m (Elems (copyBits b n)) (Elems o) = Ok es ∧
        wf (mkBitArray n es) ∧
        ∀ i, (i < 64 * numWords n)%nat →
          bit (mkBitArray n es) i =
            if decide (i `div` 64 < m)%nat then g (bit b i) (bit o i) else bit b i.
Proof.
  intros Hf Hg Hb Ho Hn Hmc Hmo.
  assert (Hlen : length (Elems (copyBits b n)) = numWords n)
    by (cbn; by rewrite copySlice_length, length_replicate).
  destruct (zipWords_spec f m (Elems (copyBits b n)) (Elems o)) as (es & Hes & Hl & Hk);
    [lia|done|].
  exists es. split; [done|]. split.
  - constructor; cbn [Bits Elems]; [done|lia|].
    eapply zipWords_u64; [done|apply (copyBits_wf b n Hb Hn)|apply Ho|done].
  - intros i Hi. unfold bit. cbn [Elems]. rewrite Hk, copyBits_word
      by (apply Nat.Div0.div_lt_upper_bound; lia).
    case_decide as Hm.
    + destruct (lookup_lt_is_Some_2 (Elems o) (i `div` 64)) as [y ->]; [lia|].
      destruct (Elems b !! (i `div` 64)%nat); cbn [mbind option_bind default from_option];
        rewrite Hg by lia; [done|by rewrite Z.bits_0].
    + destruct (Elems b !! (i `div` 64)%nat); [done|]. apply Z.bits_0.
Qed.

Lemma bit_out b i : wf b → (64 * numWords (Bits b) <= i)%nat → bit b i = false.
Proof.
  intros Hb Hi. unfold bit. rewrite lookup_ge_None_2; [done|].
  rewrite wf_words by done. apply Nat.div_le_lower_bound; lia.
Qed.

Lemma numWords_mono n m :
  0 < n <= m → m <= 2 ^ 32 - 64 → (numWords n <= numWords m)%nat.
Proof.
  intros. apply Nat2Z.inj_le. rewrite !numWords_spec by lia.
  apply Z.div_le_mono; lia.
Qed.

(** [Or] joins the bits when the argument is not the longer one. *)
Lemma Or_spec b o :
  wf b → wf o → Bits o <= Bits b →
  ∃ c, Or (Some b) (Some o) = Ok (Some c) ∧ wf c ∧ Bits c = Bits b ∧
       ∀ i, bit c i = bit b i || bit o i.
Proof.
  intros Hb Ho Hle. pose proof (wf_bits b Hb). pose proof (wf_bits o Ho).
  assert (Hw : (numWords (Bits o) <= numWords (Bits b))%nat) by (apply numWords_mono; lia).
  unfold Or. assert (MaxUInt (Bits b) (Bits o) = Bits b) as ->
    by (unfold MaxUInt; destruct (Z.ltb_spec (Bits o) (Bits b)); lia).
  assert (MinInt (length (Elems b)) (length (Elems o)) = numWords (Bits o)) as ->.
  { rewrite !wf_words by done. unfold MinInt. destruct (Nat.ltb_spec (numWords (Bits b)) (numWords (Bits o))); lia. }
  destruct (zipCopy_spec Z.lor orb b o (Bits b) (numWords (Bits o)))
    as (es & -> & Hc & Hbit); auto using Z.lor_spec, in_u64_lor.
  { by rewrite wf_words. }
  cbn. eexists. split; [done|]. split_and!; [done|done|]. intros i.
  destruct (decide (i < 64 * numWords (Bits b))%nat) as [Hi|Hi].
  - rewrite Hbit by done. case_decide as Hd; [done|].
    rewrite (bit_out o i), orb_false_r; [done|done|].
    apply Nat.nlt_ge in Hd. pose proof (Nat.Div0.mul_div_le i 64). nia.
  - rewrite !bit_out by (done || cbn; lia). done.
Qed.

Lemma And_spec b o :
  wf b → wf o →
  ∃ c, And (Some b) (Some o) = Ok (Some c) ∧ wf c ∧
       Bits c = Z.min (Bits b) (Bits o) ∧
       bits c = zip_with andb (bits b) (bits o).
Proof.
  intros Hb Ho. pose proof (wf_bits b Hb). pose proof (wf_bits o Ho). unfold And.
  assert (MinUInt (Bits b) (Bits o) = Z.min (Bits b) (Bits o)) as ->
    by (unfold MinUInt; destruct (Z.ltb_spec (Bits b) (Bits o)); lia).
  set (n := Z.min (Bits b) (Bits o)).
  assert (length (Elems (copyBits b n)) = numWords n) as ->
    by (cbn; by rewrite copySlice_length, length_replicate).
  destruct (zipCopy_spec Z.land andb b o n (numWords n))
    as (es & -> & Hc & Hbit); auto using Z.land_spec; [|lia| |].
  { intros x y Hx [Hy _]. by apply in_u64_land. }
  { rewrite wf_words by done. apply numWords_mono; lia. }
  cbn. eexists. split; [done|]. split_and!; [done|done|].
  apply list_eq. intros i. rewrite lookup_zip_with, !bits_lookup. cbn [Bits].
  destruct (decide (Z.of_nat i < n)) as [Hi|Hi].
  - assert (i < 64 * numWords n)%nat as Hi64.
    { apply Nat2Z.inj_lt. rewrite Nat2Z.inj_mul, numWords_spec by lia.
      pose proof (Z.div_mod (n + 63) 64 ltac:(lia)).
      pose proof (Z.mod_pos_bound (n + 63) 64 ltac:(lia)). lia. }
    rewrite Hbit by done. rewrite decide_True by (apply Nat.Div0.div_lt_upper_bound; lia).
    rewrite !decide_True by lia. done.
  - destruct (decide (Z.of_nat i < Bits b)); [|done]. cbn.
    by rewrite decide_False by lia.
Qed.

Lemma Sub_spec b o :
  wf b → wf o →
  ∃ c, Sub (Some b) (Some o) = Ok (Some c) ∧ wf c ∧ Bits c = Bits b ∧
       ∀ i, bit c i = bit b i && negb (bit o i).
Proof.
  intros Hb Ho. pose proof (wf_bits b Hb). pose proof (wf_bits o Ho). unfold Sub.
  set (m := MinInt _ _).
  assert (m = Nat.min (numWords (Bits b)) (numWords (Bits o))) as Hm.
  { unfold m. rewrite !wf_words by done. unfold MinInt.
    destruct (Nat.ltb_spec (numWords (Bits b)) (numWords (Bits o))); lia. }
  destruct (zipCopy_spec andNot (λ x y, x && negb y) b o (Bits b) m)
    as (es & -> & Hc & Hbit); auto using Z.ldiff_spec, in_u64_andNot; [lia| |].
  { rewrite wf_words by done. lia. }
  cbn. eexists. split; [done|]. split_and!; [done|done|]. intros i.
  destruct (decide (i < 64 * numWords (Bits b))%nat) as [Hi|Hi].
  - rewrite Hbit by done. case_decide as Hd; [done|].
    rewrite (bit_out o i), andb_true_r; [done|done|].
    apply Nat.nlt_ge in Hd. pose proof (Nat.Div0.mul_div_le i 64).
    assert (i `div` 64 < numWords (Bits b))%nat by (apply Nat.Div0.div_lt_upper_bound; lia).
    nia.
  - rewrite !bit_out by (done || cbn; lia). done.
Qed.

Lemma in_words b i : wf b → Z.of_nat i < Bits b → (i < 64 * numWords (Bits b))%nat.
Proof.
  intros Hb Hi. pose proof (wf_bits b Hb).
  apply Nat2Z.inj_lt. rewrite Nat2Z.inj_mul, numWords_spec by lia.
  pose proof (Z.div_mod (Bits b + 63) 64 ltac:(lia)).
  pose proof (Z.mod_pos_bound (Bits b + 63) 64 ltac:(lia)). lia.
Qed.

Lemma Not_spec b :
  wf b → ∃ c, Not (Some b) = Some c ∧ wf c ∧ Bits c = Bits b ∧
              bits c = negb <$> bits b.
Proof.
  intros Hb. eexists. split; [done|]. split_and!; [|done|].
  - destruct Hb. constructor; cbn; [done|by rewrite length_fmap|].
    apply Forall_fmap. eapply Forall_impl; [done|]. intros x. apply in_u64_compl.
  - apply list_eq. intros i. rewrite list_lookup_fmap, !bits_lookup. cbn [Bits].
    case_decide as Hi; [|done]. cbn [fmap option_fmap option_map]. f_equal.
    unfold bit. cbn [Elems]. rewrite list_lookup_fmap.
    destruct (lookup_lt_is_Some_2 (Elems b) (i `div` 64)) as [e ->].
    { rewrite wf_words by done. apply Nat.Div0.div_lt_upper_bound.
      by apply in_words. }
    apply compl64_bit. pose proof (Nat.mod_upper_bound i 64 ltac:(lia)). lia.
Qed.

Lemma word_zero e : in_u64 e → (∀ j, 0 <= j < 64 → Z.testbit e j = false) → e = 0.
Proof.
  intros [_ Hh]%in_u64_bits Hl. apply Z.bits_inj'. intros j Hj. rewrite Z.bits_0.
  destruct (decide (j < 64)); [apply Hl; lia|apply Hh; lia].
Qed.

Lemma bit_word b k e (j : Z) :
  Elems b !! k = Some e → 0 <= j < 64 → bit b (64 * k + Z.to_nat j) = Z.testbit e j.
Proof.
  intros He Hj. unfold bit.
  rewrite (Nat.mul_comm 64), Nat.div_add_l, Nat.div_small, Nat.add_0_r by lia.
  rewrite He, Nat.add_comm, Nat.Div0.mod_add, Nat.mod_small, Z2Nat.id by lia. done.
Qed.

Lemma IsEmpty_spec b :
  wf b → clean b → IsEmpty (Some b) = forallb negb (bits b).
Proof.
  intros Hb Hc. apply eq_true_iff_eq. cbn. rewrite !forallb_forall. split.
  - intros He v Hv. apply list_elem_of_In, list_elem_of_lookup in Hv as [i Hi].
    rewrite bits_lookup in Hi. case_decide; [|done]. injection Hi as <-.
    unfold bit. destruct (_ !! _) as [e|] eqn:E; [|done].
    specialize (He e). rewrite <- list_elem_of_In in He.
    specialize (He (list_elem_of_lookup_2 _ _ _ E)). apply negb_true_iff, Z.ltb_ge in He.
    assert (in_u64 e) as [? _] by (eapply Forall_lookup_1; [apply Hb|done]).
    assert (e = 0) as -> by lia. by rewrite Z.bits_0.
  - intros Hz e He. apply list_elem_of_In, list_elem_of_lookup in He as [k Hk].
    enough (e = 0) as -> by done.
    apply word_zero; [eapply Forall_lookup_1; [apply Hb|done]|].
    intros j Hj. rewrite <- (bit_word b k e j Hk Hj).
    destruct (decide (Z.of_nat (64 * k + Z.to_nat j) < Bits b)) as [Hi|Hi]; [|apply Hc; lia].
    apply negb_true_iff, Hz, list_elem_of_In, list_elem_of_lookup.
    exists (64 * k + Z.to_nat j)%nat. by rewrite bits_lookup, decide_True.
Qed.

(** The trick of [IsFull]: adding one to [k] low ones carries out of them. *)
Lemma low_ones e k :
  in_u64 e → 0 <= k <= 64 →
  Z.land (u64 (e + 1)) (u64 (maskAt k - 1)) = 0 ↔
  ∀ j, 0 <= j < k → Z.testbit e j = true.
Proof.
  intros He Hk.
  assert (u64 (maskAt k - 1) = Z.ones k) as ->.
  { rewrite Z.ones_equiv. destruct (decide (k = 64)) as [->|]; [done|].
    rewrite maskAt_pow by lia. apply u64_small.
    assert (2 ^ k < 2 ^ 64) by (apply Z.pow_lt_mono_r; lia).
    unfold in_u64. lia. }
  rewrite Z.land_ones by lia.
  assert (u64 (e + 1) mod 2 ^ k = (e + 1) mod 2 ^ k) as ->.
  { unfold u64. replace (2 ^ 64) with (2 ^ k * 2 ^ (64 - k)).
    - rewrite Z.rem_mul_r, (Z.mul_comm (2 ^ k) (_ mod _)), Z.mod_add, Z.mod_mod by lia. done.
    - rewrite <- Z.pow_add_r by lia. f_equal. lia. }
  assert (Hones : (∀ j, 0 <= j < k → Z.testbit e j = true) ↔ e mod 2 ^ k = Z.ones k).
  { split.
    - intros Hj. apply Z.bits_inj'. intros j ?.
      destruct (decide (j < k)).
      + rewrite Z.mod_pow2_bits_low, Z.ones_spec_low by lia. apply Hj. lia.
      + rewrite Z.mod_pow2_bits_high, Z.ones_spec_high by lia. done.
    - intros Hm j ?. rewrite <- (Z.mod_pow2_bits_low e k) by lia.
      rewrite Hm. apply Z.ones_spec_low. lia. }
  rewrite Hones, Z.ones_equiv.
  assert (0 < 2 ^ k) by (apply Z.pow_pos_nonneg; lia).
  pose proof (Z.mod_pos_bound e (2 ^ k) ltac:(lia)).
  pose proof (Z.div_mod e (2 ^ k) ltac:(lia)) as Hdm.
  split; intros Hm.
  - destruct (decide (e mod 2 ^ k = 2 ^ k - 1)) as [|Hne]; [lia|].
    rewrite Hdm in Hm. replace (2 ^ k * (e / 2 ^ k) + e mod 2 ^ k + 1)
      with (e mod 2 ^ k + 1 + e / 2 ^ k * 2 ^ k) in Hm by lia.
    rewrite Z.mod_add, Z.mod_small in Hm by lia. lia.
  - rewrite Hdm. replace (2 ^ k * (e / 2 ^ k) + e mod 2 ^ k + 1)
      with ((e / 2 ^ k + 1) * 2 ^ k) by lia. apply Z.mod_mul. lia.
Qed.

(** The words before the last one are used in full, and 1 to 64 bits of the last. *)
Lemma wf_last b :
  wf b →
  ∃ es le k, Elems b = es ++ [le] ∧ last (Elems b) = Some le ∧
    take (length (Elems b) - 1) (Elems b) = es ∧
    u32 (u32 (Bits b + 63) mod 64 + 1) = k ∧ 1 <= k <= 64 ∧
    Bits b = 64 * Z.of_nat (length es) + k.
Proof.
  intros Hb. pose proof (wf_bits b Hb) as Hn. pose proof (wf_words b Hb) as Hw.
  apply (f_equal Z.of_nat) in Hw. rewrite numWords_spec in Hw by done.
  destruct (Elems b) as [|le es _] using rev_ind.
  - cbn in Hw. assert (64 / 64 <= (Bits b + 63) / 64) by (apply Z.div_le_mono; lia).
    change (64 / 64) with 1 in *. lia.
  - rewrite length_app, Nat2Z.inj_add in Hw. cbn in Hw.
    pose proof (Z.mod_pos_bound (Bits b + 63) 64 ltac:(lia)).
    pose proof (Z.div_mod (Bits b + 63) 64 ltac:(lia)).
    exists es, le, ((Bits b + 63) mod 64 + 1).
    rewrite last_snoc, length_app, Nat.add_sub, take_app_length.
    rewrite (u32_small (Bits b + 63)), u32_small by (unfold in_u32; lia).
    split_and!; try done; lia.
Qed.

Lemma bit_init b es le k e (j : Z) :
  Elems b = es ++ [le] → es !! k = Some e → 0 <= j < 64 →
  bit b (64 * k + Z.to_nat j) = Z.testbit e j.
Proof. intros He Hk. apply bit_word. rewrite He. by apply lookup_app_l_Some. Qed.

Lemma bit_last b es le (j : Z) :
  Elems b = es ++ [le] → 0 <= j < 64 →
  bit b (64 * length es + Z.to_nat j) = Z.testbit le j.
Proof.
  intros He. apply bit_word. rewrite He.
  by rewrite lookup_app_r, Nat.sub_diag by done.
Qed.

Lemma forallb_bits b (f : bool → bool) :
  forallb f (bits b) = true ↔ ∀ i : nat, Z.of_nat i < Bits b → f (bit b i) = true.
Proof.
  rewrite forallb_forall. split.
  - intros H i Hi. apply H, list_elem_of_In, list_elem_of_lookup. exists i.
    by rewrite bits_lookup, decide_True.
  - intros H v Hv. apply list_elem_of_In, list_elem_of_lookup in Hv as [i Hi].
    rewrite bits_lookup in Hi. case_decide; [|done]. injection Hi as <-. auto.
Qed.

Lemma IsFull_spec b : wf b → IsFull (Some b) = Ok (forallb id (bits b)).
Proof.
  intros Hb. destruct (wf_last b Hb) as (es & le & k & He & Hl & Ht & Hk & Hk1 & HB).
  pose proof (wf_elems b Hb) as Hu. rewrite He in Hu. apply Forall_app in Hu as [Hu Hle].
  apply Forall_cons in Hle as [Hle _].
  unfold IsFull. rewrite Hl, Ht, Hk.
  transitivity (Ok (A:=bool) (forallb (λ e, compl64 e =? 0) es &&
    (Z.land (u64 (le + 1)) (u64 (maskAt k - 1)) =? 0))); [by destruct (forallb _ es)|].
  f_equal. apply eq_true_iff_eq.
  rewrite andb_true_iff, Z.eqb_eq, low_ones, forallb_bits, forallb_forall by (done || lia).
  split.
  - intros [Hinit Hlast] i Hi. cbn.
    destruct (decide (i < 64 * length es)%nat) as [Hlt|Hge].
    + destruct (lookup_lt_is_Some_2 es (i `div` 64)) as [e Hei];
        [by apply Nat.Div0.div_lt_upper_bound|].
      rewrite (Nat.div_mod_eq i 64), <- (Nat2Z.id (i mod 64)).
      pose proof (Nat.mod_upper_bound i 64 ltac:(lia)).
      rewrite (bit_init b es le _ e) by (done || lia).
      specialize (Hinit e). rewrite <- list_elem_of_In in Hinit.
      specialize (Hinit (list_elem_of_lookup_2 _ _ _ Hei)). apply Z.eqb_eq in Hinit.
      rewrite <- (negb_involutive (Z.testbit _ _)), <- compl64_bit, Hinit, Z.bits_0 by lia.
      done.
    + replace i with (64 * length es + Z.to_nat (Z.of_nat i - 64 * Z.of_nat (length es)))%nat
        by lia.
      rewrite (bit_last b es le) by (done || lia). apply Hlast. lia.
  - intros Hall. split.
    + intros e Hin. apply list_elem_of_In, list_elem_of_lookup in Hin as [i Hi].
      apply Z.eqb_eq, word_zero; [apply in_u64_compl; by eapply Forall_lookup_1|].
      intros j Hj. rewrite compl64_bit, <- (bit_init b es le i e) by done.
      apply lookup_lt_Some in Hi. unfold id in Hall. rewrite Hall by lia. done.
    + intros j Hj. rewrite <- (bit_last b es le) by (done || lia).
      apply (Hall (64 * length es + Z.to_nat j)%nat). lia.
Qed.

(** *** The indices of the set bits *)

Lemma trueBits_spec n e j cur acc :
  0 <= j → j + Z.of_nat n <= 64 → 0 <= cur → cur + Z.of_nat n < 2 ^ 32 →
  trueBits n e j cur acc =
    (cur + Z.of_nat n,
     acc ++ ((λ k, cur + Z.of_nat k) <$>
       base.filter (λ k : nat, Z.testbit e (j + Z.of_nat k) = true) (seq 0 n))).
Proof.
  revert j cur acc. induction n as [|n IH]; intros j cur acc Hj Hn Hc Hcn; cbn [trueBits].
  - rewrite app_nil_r. f_equal. lia.
  - rewrite u32_small, IH by (unfold in_u32; lia). f_equal; [lia|].
    rewrite land_mask by lia. cbn [seq]. rewrite <- fmap_S_seq, filter_cons.
    assert (Hs : ∀ l : list nat,
      (λ k, cur + 1 + Z.of_nat k) <$>
        base.filter (λ k : nat, Z.testbit e (j + 1 + Z.of_nat k) = true) l =
      (λ k, cur + Z.of_nat k) <$>
        base.filter (λ k : nat, Z.testbit e (j + Z.of_nat k) = true) (S <$> l)).
    { clear. induction l as [|x l IHl]; [done|]. rewrite fmap_cons, !filter_cons.
      replace (j + Z.of_nat (S x)) with (j + 1 + Z.of_nat x) by lia.
      case_decide; [|done]. rewrite !fmap_cons, IHl. f_equal. lia. }
    rewrite Hs. change (Z.of_nat 0) with 0. rewrite Z.add_0_r.
    destruct (Z.testbit e j); [rewrite decide_True|rewrite decide_False]; try done.
    rewrite fmap_cons, <- app_assoc. change (Z.of_nat 0) with 0. by rewrite Z.add_0_r.
Qed.

(** The set bits among [n] bits from [lo]. *)
Definition trueIn (b : BitArray) (lo n : nat) : list Z :=
  Z.of_nat <$> base.filter (λ i, bit b i = true) (seq lo n).

Lemma trueIn_app b lo n m : trueIn b lo (n + m) = trueIn b lo n ++ trueIn b (lo + n) m.
Proof. unfold trueIn. by rewrite seq_app, filter_app, fmap_app. Qed.

Lemma elem_of_trueIn b lo n i :
  i ∈ trueIn b lo n ↔ ∃ k : nat, i = Z.of_nat k ∧ bit b k = true ∧ (lo <= k < lo + n)%nat.
Proof.
  unfold trueIn. rewrite list_elem_of_fmap. setoid_rewrite list_elem_of_filter.
  setoid_rewrite elem_of_seq. done.
Qed.

Lemma trueIn_word b k e n acc :
  Elems b !! k = Some e → (n <= 64)%nat → 64 * Z.of_nat k + Z.of_nat n < 2 ^ 32 →
  trueBits n e 0 (64 * Z.of_nat k) acc =
    (64 * Z.of_nat k + Z.of_nat n, acc ++ trueIn b (64 * k) n).
Proof.
  intros He Hn Hlt. rewrite trueBits_spec by lia. f_equal. f_equal.
  unfold trueIn. rewrite <- (Nat.add_0_r (64 * k)), <- fmap_add_seq.
  assert (Hl : ∀ l : list nat, Forall (λ i, i < n)%nat l →
    (λ j, 64 * Z.of_nat k + Z.of_nat j) <$>
      base.filter (λ j : nat, Z.testbit e (0 + Z.of_nat j) = true) l =
    Z.of_nat <$> base.filter (λ i : nat, bit b i = true) (Nat.add (64 * k) <$> l)).
  { induction 1 as [|x l Hx Hl IH]; [done|]. rewrite fmap_cons, !filter_cons.
    rewrite Z.add_0_l, <- (bit_word b k e (Z.of_nat x) He), Nat2Z.id by lia.
    case_decide; [|done]. rewrite !fmap_cons, IH. f_equal. lia. }
  apply Hl, Forall_seq. lia.
Qed.

Lemma trueElems_spec b k es acc :
  wf b → (∀ i e, es !! i = Some e → Elems b !! (k + i)%nat = Some e) →
  64 * Z.of_nat (k + length es) < 2 ^ 32 →
  trueElems es (64 * Z.of_nat k) acc =
    (64 * Z.of_nat (k + length es), acc ++ trueIn b (64 * k) (64 * length es)).
Proof.
  intros Hb. revert k acc. induction es as [|e es IH]; intros k acc Hes Hlt; cbn [trueElems].
  - cbn [length]. rewrite Nat.mul_0_r, Nat.add_0_r. unfold trueIn. cbn. by rewrite app_nil_r.
  - pose proof (Hes 0%nat e eq_refl) as He. rewrite Nat.add_0_r in He.
    cbn [length] in *.
    assert (Hnext : ∀ acc, trueElems es (64 * Z.of_nat (S k)) acc =
      (64 * Z.of_nat (k + S (length es)),
       acc ++ trueIn b (64 * S k) (64 * length es))).
    { intros acc'. rewrite IH; [|intros i e' Hi|lia].
      - by rewrite <- Nat.add_succ_comm.
      - rewrite Nat.add_succ_comm. by apply Hes. }
    replace (64 * S (length es))%nat with (64 + 64 * length es)%nat by lia.
    rewrite trueIn_app. replace (64 * k + 64)%nat with (64 * S k)%nat by lia.
    destruct (Z.eqb_spec e 0) as [->|Hne].
    + rewrite u32_small by (unfold in_u32; lia).
      replace (64 * Z.of_nat k + 64) with (64 * Z.of_nat (S k)) by lia. rewrite Hnext.
      enough (trueIn b (64 * k) 64 = []) as -> by done.
      apply elem_of_nil_inv. intros x (i & -> & Hbit & Hi)%elem_of_trueIn.
      replace i with (64 * k + Z.to_nat (Z.of_nat i - 64 * Z.of_nat k))%nat in Hbit by lia.
      rewrite (bit_word b k 0), Z.bits_0 in Hbit by (done || lia). done.
    + rewrite (trueIn_word b k e) by (done || lia).
      replace (64 * Z.of_nat k + Z.of_nat 64) with (64 * Z.of_nat (S k)) by lia.
      by rewrite Hnext, <- app_assoc.
Qed.

Lemma getTrueIndices_spec b :
  wf b → getTrueIndices b = Ok (trueIn b 0 (Z.to_nat (Bits b))).
Proof.
  intros Hb. destruct (wf_last b Hb) as (es & le & k & He & Hl & Ht & _ & Hk & HB).
  pose proof (wf_bits b Hb). unfold getTrueIndices. rewrite Hl, Ht.
  pose proof (trueElems_spec b 0 es [] Hb) as Hs.
  change (64 * Z.of_nat 0) with 0 in Hs. rewrite Hs; [|intros i e Hi|lia].
  - rewrite u32_small by (unfold in_u32; lia). cbn [app Nat.add].
    rewrite (trueIn_word b (length es) le); [|by rewrite He, lookup_app_r, Nat.sub_diag|lia|lia].
    cbn [snd]. f_equal.
    replace (Z.to_nat (Bits b)) with
      (64 * length es + Z.to_nat (Bits b - 64 * Z.of_nat (length es)))%nat by lia.
    by rewrite trueIn_app.
  - rewrite He. by apply lookup_app_l_Some.
Qed.

(** *** JSON *)

Lemma marshalBits_spec b n i acc :
  wf b → (i + n = Z.to_nat (Bits b))%nat →
  marshalBits b n (Z.of_nat i) acc = Ok (acc ++ (bitChar <$> drop i (bits b))).
Proof.
  intros Hb. revert i acc. induction n as [|n IH]; intros i acc Hi; cbn [marshalBits].
  - rewrite drop_ge by (rewrite bits_length; lia). cbn. by rewrite app_nil_r.
  - rewrite getIndex_spec, Nat2Z.id by (done || lia). cbn [mbind outcome_bind].
    assert (Hlk : bits b !! i = Some (bit b i))
      by (rewrite bits_lookup, decide_True by lia; done).
    rewrite Hlk, (drop_S _ _ _ Hlk). cbn [default from_option].
    replace (Z.of_nat i + 1) with (Z.of_nat (S i)) by lia.
    rewrite IH, fmap_cons, <- app_assoc by lia. done.
Qed.

Lemma MarshalJSON_spec b :
  wf b → MarshalJSON (Some b) = Ok (quote :: (bitChar <$> bits b) ++ [quote]).
Proof.
  intros Hb. unfold MarshalJSON.
  rewrite (marshalBits_spec b _ 0 [quote]) by (done || lia). done.
Qed.

Lemma regexp_body body :
  Forall (λ c, isBitChar c = true) body →
  bitArrayJSONRegexp (quote :: body ++ [quote]) = Some body.
Proof.
  intros Hb. unfold bitArrayJSONRegexp.
  rewrite last_snoc, length_app, Nat.add_sub, take_app_length.
  rewrite !bool_decide_eq_true_2 by done.
  assert (forallb isBitChar body = true) as ->; [|done].
  by apply forallb_forall, List.Forall_forall.
Qed.

Lemma unmarshalBits_spec body i b :
  wf b → clean b → Z.of_nat i + Z.of_nat (length body) <= Bits b →
  ∃ b', unmarshalBits (bitChar <$> body) (Z.of_nat i) (Some b) = Ok (Some b') ∧
        wf b' ∧ clean b' ∧ Bits b' = Bits b ∧
        ∀ k, bits b' !! k =
          if decide (i <= k < i + length body)%nat
          then x ← bits b !! k; y ← body !! (k - i)%nat; Some (x || y)
          else bits b !! k.
Proof.
  revert i b. induction body as [|v body IH]; intros i b Hb Hc Hi.
  - exists b. split_and!; try done. intros k. cbn. by rewrite decide_False by lia.
  - rewrite fmap_cons. cbn [unmarshalBits length] in *.
    assert (Hstep : ∃ b1, (if bool_decide (bitChar v = "x"%char)
        then r ← SetIndex (Some b) (Z.of_nat i) true;
             unmarshalBits (bitChar <$> body) (Z.of_nat i + 1) r.2
        else unmarshalBits (bitChar <$> body) (Z.of_nat i + 1) (Some b)) =
        unmarshalBits (bitChar <$> body) (Z.of_nat (S i)) (Some b1) ∧
        wf b1 ∧ clean b1 ∧ Bits b1 = Bits b ∧
        bits b1 = if v then <[i:=true]> (bits b) else bits b).
    { replace (Z.of_nat i + 1) with (Z.of_nat (S i)) by lia. destruct v.
      - destruct (setIndex_spec b (Z.of_nat i) true) as (b1 & Hs & Hw & HB & Hcl & Hbs);
          [done|lia|].
        exists b1. rewrite Nat2Z.id in Hbs. cbn [bitChar SetIndex].
        rewrite bool_decide_eq_true_2, Hs by done. split_and!; auto.
      - exists b. split_and!; done. }
    destruct Hstep as (b1 & -> & Hw1 & Hc1 & HB1 & Hbs).
    destruct (IH (S i) b1) as (b' & Hr & Hw' & Hc' & HB' & Hk); [done|done|lia|].
    exists b'. split_and!; [done|done|done|lia|]. intros k. rewrite Hk.
    assert (Hlk : bits b !! i = Some (bit b i))
      by (rewrite bits_lookup, decide_True by lia; done).
    assert (Hb1 : bits b1 !! k = if decide (k = i) then Some (bit b i || v) else bits b !! k).
    { rewrite Hbs. case_decide as Hki; [subst k|]; destruct v.
      - by rewrite list_lookup_insert_eq, orb_true_r by (by eapply lookup_lt_Some).
      - by rewrite orb_false_r.
      - by rewrite list_lookup_insert_ne.
      - done. }
    rewrite Hb1. destruct (decide (k = i)) as [->|Hne].
    + rewrite decide_False, decide_True, Nat.sub_diag, Hlk by lia. done.
    + destruct (decide (i <= k < i + S (length body))%nat).
      * rewrite decide_True by lia. by replace (k - i)%nat with (S (k - S i)) by lia.
      * by rewrite decide_False by lia.
Qed.

Lemma words_eq b b' :
  wf b → wf b' → Bits b = Bits b' → (∀ i, bit b i = bit b' i) → b = b'.
Proof.
  intros Hb Hb' HB Hbit. destruct b as [n es], b' as [n' es']; cbn in HB. subst n'.
  f_equal. pose proof (wf_words _ Hb). pose proof (wf_words _ Hb'). cbn in *.
  apply list_eq_same_length with (length es); [lia|done|].
  intros i x y Hi Hx Hy. apply Z.bits_inj'. intros j Hj.
  assert (in_u64 x) as [_ Hxh]%in_u64_bits by (eapply Forall_lookup_1; [apply Hb|done]).
  assert (in_u64 y) as [_ Hyh]%in_u64_bits by (eapply Forall_lookup_1; [apply Hb'|done]).
  destruct (decide (j < 64)); [|rewrite Hxh, Hyh by lia; done].
  specialize (Hbit (64 * i + Z.to_nat j)%nat).
  rewrite (bit_word _ i x), (bit_word _ i y) in Hbit by (done || lia). done.
Qed.

(** Reading back the JSON of an array gives the array, words included. *)
Lemma JSON_roundtrip b :
  wf b → clean b → ∃ bz, MarshalJSON (Some b) = Ok bz ∧ UnmarshalJSON bz = Ok b.
Proof.
  intros Hb Hc. eexists. split; [by apply MarshalJSON_spec|].
  pose proof (wf_bits b Hb). unfold UnmarshalJSON.
  rewrite bool_decide_eq_false_2 by done. rewrite regexp_body.
  2:{ apply Forall_fmap, Forall_true. by intros []. }
  rewrite length_fmap, bits_length, u32_small by (unfold in_u32; lia).
  rewrite Z2Nat.id by lia.
  destruct (NewBitArray_spec (Bits b)) as (b0 & -> & Hw0 & Hc0 & HB0 & Hbs0); [done|].
  destruct (unmarshalBits_spec (bits b) 0 b0) as (b' & Hr & Hw' & Hc' & HB' & Hk);
    [done|done|rewrite bits_length; lia|].
  change (Z.of_nat 0) with 0 in Hr. rewrite Hr. cbn. f_equal.
  apply words_eq; [done|done|lia|]. intros i.
  destruct (decide (Z.of_nat i < Bits b)) as [Hi|Hi]; [|rewrite Hc, Hc' by lia; done].
  specialize (Hk i). rewrite Hbs0, Nat.sub_0_r, !bits_lookup in Hk.
  rewrite !decide_True in Hk by (rewrite ?bits_length; lia).
  rewrite lookup_replicate_2 in Hk by lia. by injection Hk.
Qed.

Lemma Update_spec b o :
  wf b → wf o → Bits b = Bits o → Update (Some b) (Some o) = Some o.
Proof.
  intros Hb Ho HB. cbn. destruct o as [n es]. cbn in *. f_equal. rewrite HB. f_equal.
  apply list_eq. intros i. rewrite copySlice_lookup.
  pose proof (wf_words _ Hb) as Hlb. pose proof (wf_words _ Ho) as Hlo. cbn in *.
  rewrite HB in Hlb. case_decide; [done|]. rewrite !lookup_ge_None_2 by lia. done.
Qed.

(** *** Theorems *)

(** C35: an array of at most 2^32 - 64 bits with its words behaves as a vector
    of booleans: reading and setting a bit, intersection, complement, the
    test for all ones and the list of set indices agree with the operations
    on the vector, no word is accessed out of range, and what they return is
    well formed again. *)
Theorem BitArray_refines b o i v :
  wf b → wf o → 0 <= i →
  getIndex b i = Ok (default false (bits b !! Z.to_nat i)) ∧
  (∃ b', setIndex b i v = Ok (i <? Bits b, b') ∧ wf b' ∧
         bits b' = <[Z.to_nat i := v]> (bits b)) ∧
  (∃ c, And (Some b) (Some o) = Ok (Some c) ∧ wf c ∧
        bits c = zip_with andb (bits b) (bits o)) ∧
  (∃ c, Not (Some b) = Some c ∧ wf c ∧ bits c = negb <$> bits b) ∧
  IsFull (Some b) = Ok (forallb id (bits b)) ∧
  getTrueIndices b = Ok (trueIn b 0 (Z.to_nat (Bits b))).
Proof.
  intros Hb Ho Hi. split_and!; auto using getIndex_spec, IsFull_spec, getTrueIndices_spec.
  - destruct (setIndex_spec b i v) as (b' & ? & ? & ? & ? & ?); eauto.
  - destruct (And_spec b o) as (c & ? & ? & ? & ?); eauto.
  - destruct (Not_spec b) as (c & ? & ? & ? & ?); eauto.
Qed.

Definition demoBits : BitArray := mkBitArray 70 [5; 33].

Lemma demoBits_wf : wf demoBits.
Proof.
  constructor; [cbn; lia|done|].
  repeat constructor; unfold in_u64; lia.
Qed.

Lemma BitArray_refines_witness :
  getIndex demoBits 69 = Ok true ∧ getTrueIndices demoBits = Ok [0; 2; 64; 69].
Proof.
  destruct (BitArray_refines demoBits demoBits 69 true demoBits_wf demoBits_wf)
    as (Hg & _ & _ & _ & _ & Ht); [lia|].
  split; [exact Hg|exact Ht].
Defined.

(** [Or] loses the bits of an argument that has more words than the receiver. *)
Lemma Or_drops_bits :
  ∃ b o c, wf b ∧ wf o ∧ Or (Some b) (Some o) = Ok (Some c) ∧
           Bits c = Bits o ∧ bit o 69 = true ∧ bit c 69 = false.
Proof.
  exists (mkBitArray 3 [5]), demoBits, (mkBitArray 70 [5; 0]).
  split_and!; try done; [|apply demoBits_wf].
  constructor; [cbn; lia|done|]. repeat constructor; unfold in_u64; lia.
Qed.

(** The complement of a full array is empty, but [IsEmpty] denies it. *)
Lemma IsEmpty_of_Not :
  ∃ b c, wf b ∧ Not (Some b) = Some c ∧ IsFull (Some b) = Ok true ∧
         bits c = [false; false; false] ∧ IsEmpty (Some c) = false.
Proof.
  exists (mkBitArray 3 [7]). eexists. split_and!; try done.
  constructor; [cbn; lia|done|]. repeat constructor; unfold in_u64; lia.
Qed.

(** The JSON of an array of no bits cannot be read back: the receiver is a
    nil pointer. *)
Lemma UnmarshalJSON_empty : UnmarshalJSON [quote; quote] = Panic.
Proof. done. Qed.
