(* ===== verification/PbftTypes.v ===== *)
(** Blocks, certificates and messages of the PBFT engine.

    Models consensus/pbft/types/crypto.go and step.go and the messages of
    consensus/pbft/protocols.  A message is signed as the Keccak hash of the
    RLP encoding of a list of its fields; the lists have a fixed shape, so
    the model signs the list itself.  The hash of a block, the BLS curve and
    the signature of a header are operations of the class [Crypto], because
    they are computed by foreign code. *)

From S2P Require Import Prelude BitArray.

(** ** Blocks *)

(** What the engine reads of a block; [bRest] stands for the rest of the
    header, of which the engine reads nothing. *)
Record Block := mkBlock {
  bNumber : Z;
  bParentHash : Z;
  bTime : Z;
  bRest : Z;
}.

#[export] Instance Block_eq_dec : EqDecision Block.
Proof. solve_decision. Defined.

Class Crypto := {
  (* types.Block.Hash *)
  Hash : Block → Z;
  (* Keccak256 of the RLP encoding of a whole block *)
  blockData : Block → Z;
  (* the seal of the header can be recovered and its extra data has the right size *)
  headerOk : Block → bool;
  (* libs/crypto/bls *)
  PublicKey : Type;
  SecretKey : Type;
  Sign : Type;
  PublicKey_eq_dec :: EqDecision PublicKey;
  pubSerialize : PublicKey → Z;
  pubAdd : PublicKey → PublicKey → PublicKey;
  signAdd : Sign → Sign → Sign;
  signSerialize : Sign → Z;
  signDeserialize : Z → option Sign;
  signVerify : Sign → PublicKey → list Z → bool;
  signWith : SecretKey → list Z → Sign;
}.

(** ** Steps *)

Definition RoundStepPrepareBlock : Z := 1.
Definition RoundStepPrepareVote : Z := 2.
Definition RoundStepPreCommit : Z := 3.

(** ** Certificates *)

Record QuorumCert := mkQC {
  qc_Epoch : Z;
  qc_ViewNumber : Z;
  qc_BlockHash : Z;
  qc_BlockNumber : Z;
  qc_BlockIndex : Z;
  qc_Step : Z;
  qc_Signature : Z;
  qc_ValidatorSet : option BitArray;
}.

#[export] Instance QuorumCert_eq_dec : EqDecision QuorumCert.
Proof. solve_decision. Defined.

Definition qcDigest (q : QuorumCert) : list Z :=
  [qc_Epoch q; qc_ViewNumber q; qc_BlockHash q; qc_BlockNumber q;
   qc_BlockIndex q; qc_Step q].

(** The loop of the [Len] methods: the set bits among the next [n]. *)
Fixpoint countBits (v : option BitArray) (n : nat) (i : Z) (length : Z) : outcome Z :=
  match n with
  | O => Ok length
  | S n =>
      b ← GetIndex v i;
      countBits v n (i + 1) (if b : bool then length + 1 else length)
  end.

Definition qcLen (q : QuorumCert) : outcome Z :=
  countBits (qc_ValidatorSet q) (Z.to_nat (Size (qc_ValidatorSet q))) 0 0.

Definition HigherBlockView (q : QuorumCert) (blockEpoch blockView : Z) : bool :=
  (blockEpoch <? qc_Epoch q)
  || ((qc_Epoch q =? blockEpoch) && (blockView <? qc_ViewNumber q)).

Definition HigherQuorumCert (q : QuorumCert) (blockNumber blockEpoch blockView : Z) : bool :=
  if blockNumber <? qc_BlockNumber q then true
  else if qc_BlockNumber q =? blockNumber then HigherBlockView q blockEpoch blockView
  else false.

Record ViewChangeQuorumCert := mkVQ {
  vq_Epoch : Z;
  vq_ViewNumber : Z;
  vq_BlockHash : Z;
  vq_BlockNumber : Z;
  vq_BlockEpoch : Z;
  vq_BlockViewNumber : Z;
  vq_Signature : Z;
  vq_ValidatorSet : option BitArray;
}.

#[export] Instance ViewChangeQuorumCert_eq_dec : EqDecision ViewChangeQuorumCert.
Proof. solve_decision. Defined.

Definition vqDigest (q : ViewChangeQuorumCert) : list Z :=
  [vq_Epoch q; vq_ViewNumber q; vq_BlockHash q; vq_BlockNumber q;
   vq_BlockEpoch q; vq_BlockViewNumber q].

Definition vqLen (q : ViewChangeQuorumCert) : outcome Z :=
  countBits (vq_ValidatorSet q) (Z.to_nat (Size (vq_ValidatorSet q))) 0 0.

Definition vqHigherBlockView (q : ViewChangeQuorumCert) (blockEpoch blockView : Z) : bool :=
  (blockEpoch <? vq_BlockEpoch q)
  || ((vq_BlockEpoch q =? blockEpoch) && (blockView <? vq_BlockViewNumber q)).

Definition vqHigherQuorumCert (q c : ViewChangeQuorumCert) : bool :=
  if vq_BlockNumber c <? vq_BlockNumber q then true
  else if vq_BlockNumber q =? vq_BlockNumber c
       then vqHigherBlockView q (vq_BlockEpoch c) (vq_BlockViewNumber c)
  else false.

(** [ViewChangeQC.QCs] *)
Definition ViewChangeQC : Type := list ViewChangeQuorumCert.

(** [EqualAll] answers an error for the first certificate that differs. *)
Definition EqualAll (v : ViewChangeQC) (epoch viewNumber blockNumber : Z) : outcome unit :=
  if forallb (λ q, negb (negb (vq_ViewNumber q =? viewNumber)
                         || negb (vq_Epoch q =? epoch)
                         || negb (vq_BlockNumber q =? blockNumber))) v
  then Ok tt else Err GenericError.

(** The six results of [MaxBlock]. *)
Record MaxBlockInfo := mkMax {
  mb_Epoch : Z;
  mb_ViewNumber : Z;
  mb_BlockEpoch : Z;
  mb_BlockViewNumber : Z;
  mb_BlockHash : Z;
  mb_BlockNumber : Z;
}.

Definition maxQC (q0 : ViewChangeQuorumCert) (v : ViewChangeQC) : ViewChangeQuorumCert :=
  foldl (λ m q, if vqHigherQuorumCert q m then q else m) q0 v.

Definition MaxBlock (v : ViewChangeQC) : MaxBlockInfo :=
  match v with
  | [] => mkMax 0 0 0 0 0 0
  | q0 :: _ =>
      let m := maxQC q0 v in
      mkMax (vq_Epoch m) (vq_ViewNumber m) (vq_BlockEpoch m) (vq_BlockViewNumber m)
            (vq_BlockHash m) (vq_BlockNumber m)
  end.

Fixpoint vcqcLen (v : ViewChangeQC) : outcome Z :=
  match v with
  | [] => Ok 0
  | q :: v => l ← vqLen q; r ← vcqcLen v; Ok (l + r)
  end.

Definition ExistViewChange (v : ViewChangeQC) (epoch viewNumber blockHash : Z) : bool :=
  existsb (λ q, (vq_Epoch q =? epoch) && (vq_ViewNumber q =? viewNumber)
                && (vq_BlockHash q =? blockHash)) v.

Definition AppendQuorumCert (v : ViewChangeQC) (q : ViewChangeQuorumCert) : ViewChangeQC :=
  v ++ [q].

(** ** Consensus messages *)

Record PrepareBlock := mkPB {
  pb_Epoch : Z;
  pb_ViewNumber : Z;
  pb_Block : Block;
  pb_BlockIndex : Z;
  pb_ProposalIndex : Z;
  pb_PrepareQC : option QuorumCert;
  pb_ViewChangeQC : option ViewChangeQC;
  pb_Signature : Z;
}.

Record PrepareVote := mkPV {
  pv_Epoch : Z;
  pv_ViewNumber : Z;
  pv_BlockHash : Z;
  pv_BlockNumber : Z;
  pv_BlockIndex : Z;
  pv_ValidatorIndex : Z;
  pv_ParentQC : option QuorumCert;
  pv_Signature : Z;
}.

Record PreCommit := mkPC {
  pc_Epoch : Z;
  pc_ViewNumber : Z;
  pc_BlockHash : Z;
  pc_BlockNumber : Z;
  pc_BlockIndex : Z;
  pc_ValidatorIndex : Z;
  pc_ParentQC : option QuorumCert;
  pc_Signature : Z;
}.

Record ViewChange := mkVC {
  vc_Epoch : Z;
  vc_ViewNumber : Z;
  vc_BlockHash : Z;
  vc_BlockNumber : Z;
  vc_ValidatorIndex : Z;
  vc_PrepareQC : option QuorumCert;
  vc_Signature : Z;
}.

#[export] Instance PrepareBlock_eq_dec : EqDecision PrepareBlock.
Proof. solve_decision. Defined.
#[export] Instance PrepareVote_eq_dec : EqDecision PrepareVote.
Proof. solve_decision. Defined.
#[export] Instance PreCommit_eq_dec : EqDecision PreCommit.
Proof. solve_decision. Defined.
#[export] Instance ViewChange_eq_dec : EqDecision ViewChange.
Proof. solve_decision. Defined.

Definition pvEqualState (p vote : PrepareVote) : bool :=
  (pv_Epoch p =? pv_Epoch vote) && (pv_BlockHash p =? pv_BlockHash vote)
  && (pv_BlockNumber p =? pv_BlockNumber vote) && (pv_BlockIndex p =? pv_BlockIndex vote).

Definition pcEqualState (p vote : PreCommit) : bool :=
  (pc_Epoch p =? pc_Epoch vote) && (pc_BlockHash p =? pc_BlockHash vote)
  && (pc_BlockNumber p =? pc_BlockNumber vote) && (pc_BlockIndex p =? pc_BlockIndex vote).

(** The epoch and view of the certificate a view change carries. *)
Definition vcBlockView (v : ViewChange) : Z * Z :=
  match vc_PrepareQC v with
  | Some q => (qc_Epoch q, qc_ViewNumber q)
  | None => (0, 0)
  end.

(** The interface [ConsensusMsg] and its four implementations. *)
Inductive ConsensusMsg :=
  | MPrepareBlock (m : PrepareBlock)
  | MPrepareVote (m : PrepareVote)
  | MPreCommit (m : PreCommit)
  | MViewChange (m : ViewChange).

#[export] Instance ConsensusMsg_eq_dec : EqDecision ConsensusMsg.
Proof. solve_decision. Defined.

Definition EpochNum (m : ConsensusMsg) : Z :=
  match m with
  | MPrepareBlock m => pb_Epoch m | MPrepareVote m => pv_Epoch m
  | MPreCommit m => pc_Epoch m | MViewChange m => vc_Epoch m
  end.

Definition ViewNum (m : ConsensusMsg) : Z :=
  match m with
  | MPrepareBlock m => pb_ViewNumber m | MPrepareVote m => pv_ViewNumber m
  | MPreCommit m => pc_ViewNumber m | MViewChange m => vc_ViewNumber m
  end.

Definition BlockNum (m : ConsensusMsg) : Z :=
  match m with
  | MPrepareBlock m => bNumber (pb_Block m) | MPrepareVote m => pv_BlockNumber m
  | MPreCommit m => pc_BlockNumber m | MViewChange m => vc_BlockNumber m
  end.

Definition NodeIndex (m : ConsensusMsg) : Z :=
  match m with
  | MPrepareBlock m => pb_ProposalIndex m | MPrepareVote m => pv_ValidatorIndex m
  | MPreCommit m => pc_ValidatorIndex m | MViewChange m => vc_ValidatorIndex m
  end.

Definition msgSign (m : ConsensusMsg) : Z :=
  match m with
  | MPrepareBlock m => pb_Signature m | MPrepareVote m => pv_Signature m
  | MPreCommit m => pc_Signature m | MViewChange m => vc_Signature m
  end.

(** The message with the signature [s], the [SetSign] methods. *)
Definition pbSetSign (m : PrepareBlock) (s : Z) : PrepareBlock :=
  mkPB (pb_Epoch m) (pb_ViewNumber m) (pb_Block m) (pb_BlockIndex m)
       (pb_ProposalIndex m) (pb_PrepareQC m) (pb_ViewChangeQC m) s.
Definition pvSetSign (m : PrepareVote) (s : Z) : PrepareVote :=
  mkPV (pv_Epoch m) (pv_ViewNumber m) (pv_BlockHash m) (pv_BlockNumber m)
       (pv_BlockIndex m) (pv_ValidatorIndex m) (pv_ParentQC m) s.
Definition pcSetSign (m : PreCommit) (s : Z) : PreCommit :=
  mkPC (pc_Epoch m) (pc_ViewNumber m) (pc_BlockHash m) (pc_BlockNumber m)
       (pc_BlockIndex m) (pc_ValidatorIndex m) (pc_ParentQC m) s.
Definition vcSetSign (m : ViewChange) (s : Z) : ViewChange :=
  mkVC (vc_Epoch m) (vc_ViewNumber m) (vc_BlockHash m) (vc_BlockNumber m)
       (vc_ValidatorIndex m) (vc_PrepareQC m) s.

Definition pvSetParentQC (m : PrepareVote) (q : option QuorumCert) : PrepareVote :=
  mkPV (pv_Epoch m) (pv_ViewNumber m) (pv_BlockHash m) (pv_BlockNumber m)
       (pv_BlockIndex m) (pv_ValidatorIndex m) q (pv_Signature m).
Definition pcSetParentQC (m : PreCommit) (q : option QuorumCert) : PreCommit :=
  mkPC (pc_Epoch m) (pc_ViewNumber m) (pc_BlockHash m) (pc_BlockNumber m)
       (pc_BlockIndex m) (pc_ValidatorIndex m) q (pc_Signature m).

Section digests.
Context `{Crypto}.

Definition pbDigest (m : PrepareBlock) : list Z :=
  [pb_Epoch m; pb_ViewNumber m; Hash (pb_Block m); bNumber (pb_Block m);
   blockData (pb_Block m); pb_BlockIndex m; pb_ProposalIndex m].
Definition pvDigest (m : PrepareVote) : list Z :=
  [pv_Epoch m; pv_ViewNumber m; pv_BlockHash m; pv_BlockNumber m;
   pv_BlockIndex m; RoundStepPrepareVote].
Definition pcDigest (m : PreCommit) : list Z :=
  [pc_Epoch m; pc_ViewNumber m; pc_BlockHash m; pc_BlockNumber m;
   pc_BlockIndex m; RoundStepPreCommit].
Definition vcDigest (m : ViewChange) : list Z :=
  [vc_Epoch m; vc_ViewNumber m; vc_BlockHash m; vc_BlockNumber m;
   (vcBlockView m).1; (vcBlockView m).2].

Definition CannibalizeBytes (m : ConsensusMsg) : list Z :=
  match m with
  | MPrepareBlock m => pbDigest m
  | MPrepareVote m => pvDigest m
  | MPreCommit m => pcDigest m
  | MViewChange m => vcDigest m
  end.
End digests.

(** *** Counting the bits of a certificate *)

Lemma countBits_spec b n i acc :
  wf b → Z.of_nat i + Z.of_nat n <= Bits b →
  countBits (Some b) n (Z.of_nat i) acc = Ok (acc + Z.of_nat (length (trueIn b i n))).
Proof.
  intros Hb. revert i acc. induction n as [|n IH]; intros i acc Hi; cbn [countBits].
  - unfold trueIn. cbn. f_equal. lia.
  - cbn [GetIndex]. rewrite getIndex_spec, Nat2Z.id, bits_lookup, decide_True by (done || lia).
    cbn [mbind outcome_bind default from_option].
    replace (Z.of_nat i + 1) with (Z.of_nat (S i)) by lia. rewrite IH by lia.
    f_equal. unfold trueIn. cbn [seq]. rewrite filter_cons.
    destruct (bit b i); [rewrite decide_True by done|rewrite decide_False by done].
    + rewrite fmap_cons. cbn [length id]. lia.
    + done.
Qed.

Lemma qcLen_spec q b :
  qc_ValidatorSet q = Some b → wf b →
  qcLen q = Ok (Z.of_nat (length (trueIn b 0 (Z.to_nat (Bits b))))).
Proof.
  intros Hq Hb. unfold qcLen. rewrite Hq. cbn [Size]. pose proof (wf_bits b Hb).
  change 0 with (Z.of_nat 0) at 1. rewrite countBits_spec by (done || lia). f_equal.
Qed.
