(* ===== verification/PbftValidators.v ===== *)
(** The validators of an epoch and the pool that switches between them.

    Models ethereum/core/types/pbfttypes/type.go and
    consensus/pbft/validator/validator.go.  The list of nodes sorted by index,
    which the code caches, is computed from the map of nodes; the agency that
    names the validators of a block is the class [Agency], with the static
    agency as an instance. *)

From S2P Require Import Prelude BitArray PbftTypes.

Section validators.
Context `{Crypto}.

(** ** Validators *)

Record ValidateNode := mkVN {
  vn_Index : Z;
  vn_Address : Z;
  vn_NodeID : Z;
  vn_BlsPubKey : PublicKey;
}.

Record Validators := mkVs {
  vs_Nodes : gmap Z ValidateNode;
  vs_ValidBlockNumber : Z;
}.

(** [ValidateNode.Verify] and [EvidenceNode.Verify] *)
Definition blsVerify (pub : PublicKey) (data : list Z) (sign : Z) : outcome unit :=
  match signDeserialize sign with
  | None => Err GenericError
  | Some sig => if signVerify sig pub data then Ok tt else Err GenericError
  end.

Definition indexLe (a b : ValidateNode) : Prop := vn_Index a <= vn_Index b.
#[export] Instance indexLe_dec : RelDecision indexLe := λ a b, Z_le_dec _ _.

Definition sortedNodes (vs : Validators) : list ValidateNode :=
  merge_sort indexLe (map_to_list (vs_Nodes vs)).*2.

Definition NodeList (vs : Validators) : list Z := (map_to_list (vs_Nodes vs)).*1.

Fixpoint listByBits (nodes : list ValidateNode) (vSet : option BitArray)
    (n : nat) (index : Z) (l : list ValidateNode) : outcome (list ValidateNode) :=
  match n with
  | O => Ok l
  | S n =>
      b ← GetIndex vSet index;
      if b : bool then
        match nodes !! Z.to_nat index with
        | None => Err GenericError
        | Some node => listByBits nodes vSet n (index + 1) (l ++ [node])
        end
      else listByBits nodes vSet n (index + 1) l
  end.

Definition NodeListByBitArray (vs : Validators) (vSet : option BitArray) :
    outcome (list ValidateNode) :=
  listByBits (sortedNodes vs) vSet (Z.to_nat (Size vSet)) 0 [].

Fixpoint NodeListByIndexes (nodes : list ValidateNode) (indexes : list Z) :
    outcome (list ValidateNode) :=
  match indexes with
  | [] => Ok []
  | i :: indexes =>
      match nodes !! Z.to_nat i with
      | None => Err GenericError
      | Some node => l ← NodeListByIndexes nodes indexes; Ok (node :: l)
      end
  end.

Definition FindNodeByID (vs : Validators) (id : Z) : outcome ValidateNode :=
  match vs_Nodes vs !! id with Some n => Ok n | None => Err GenericError end.

Definition FindNodeByIndex (vs : Validators) (index : Z) : outcome ValidateNode :=
  match sortedNodes vs !! Z.to_nat index with
  | Some n => Ok n
  | None => Err GenericError
  end.

Definition FindNodeByAddress (vs : Validators) (addr : Z) : outcome ValidateNode :=
  match list_find (λ n, vn_Address n = addr) (map_to_list (vs_Nodes vs)).*2 with
  | Some (_, n) => Ok n
  | None => Err GenericError
  end.

Definition vsLen (vs : Validators) : Z := Z.of_nat (size (vs_Nodes vs)).

(** [newValidators]: a node that is listed twice keeps its last index. *)
Fixpoint newNodes (nodes : list (Z * Z * PublicKey)) (i : Z)
    (m : gmap Z ValidateNode) : gmap Z ValidateNode :=
  match nodes with
  | [] => m
  | (id, addr, pub) :: nodes =>
      newNodes nodes (i + 1) (<[id := mkVN (u32 i) addr id pub]> m)
  end.

Definition newValidators (nodes : list (Z * Z * PublicKey)) (validBlockNumber : Z) : Validators :=
  mkVs (newNodes nodes 0 ∅) validBlockNumber.

(** ** Agencies *)

(** [consensus.Agency]; [GetValidator] is [None] when the code answers an
    error and a nil pointer. *)
Class Agency := {
  GetLastNumber : Z → Z;
  GetValidator : Z → option Validators;
  IsCandidateNode : Z → bool;
  agencyVerifyHeader : Block → bool;
}.

Definition StaticAgency (nodes : list (Z * Z * PublicKey)) : Agency := {|
  GetLastNumber := λ _, 0;
  GetValidator := λ _, Some (newValidators nodes 0);
  IsCandidateNode := λ _, false;
  agencyVerifyHeader := λ _, true;
|}.

(** The validators of the inner contract, as the agency [InnerAgency] finds
    them in the state of an old block. *)
Section inner_agency.
Context (blocksPerNode defaultBlocksPerRound offset : Z).
Context (defaultValidators : Validators) (contractValidators : Z → option Validators).

(** A division by zero is a panic. *)
Definition innerGetValidator (blockNumber : Z) : outcome Validators :=
  if defaultBlocksPerRound =? 0 then Panic
  else
    let baseNumber := if blockNumber =? 0 then 1 else blockNumber in
    let dflt := mkVs (vs_Nodes defaultValidators)
      (u64 ((baseNumber - 1) / defaultBlocksPerRound * defaultBlocksPerRound + 1)) in
    if blockNumber <=? defaultBlocksPerRound then Ok dflt
    else Ok (default dflt (contractValidators (u64 (blockNumber - offset - 1)))).

Definition innerGetLastNumber (blockNumber : Z) : outcome Z :=
  if blockNumber <=? defaultBlocksPerRound then Ok defaultBlocksPerRound
  else
    vds ← innerGetValidator blockNumber;
    if (vs_ValidBlockNumber vds =? 0) && (blockNumber mod defaultBlocksPerRound =? 0)
    then Ok blockNumber
    else
      let blocksPerRound := u64 (blocksPerNode * vsLen vds) in
      let lastBlockNumber := u64 (vs_ValidBlockNumber vds + blocksPerRound - 1) in
      if lastBlockNumber <? blockNumber then
        if blocksPerRound =? 0 then Panic
        else if blockNumber mod blocksPerRound =? 0 then Ok blockNumber
        else Ok (u64 (blockNumber - blockNumber mod blocksPerRound + blocksPerRound))
      else Ok lastBlockNumber.
End inner_agency.

(** ** The pool *)

Record ValidatorPool := mkVP {
  vp_nodeID : Z;
  vp_switchPoint : Z;
  vp_lastNumber : Z;
  vp_epoch : Z;
  vp_prevValidators : option Validators;
  vp_currentValidators : Validators;
}.

Definition NextRound (blockNumber : Z) : Z := u64 (blockNumber + 1).

(** [switchPoint] of a pool whose current validators are [vs]. *)
Definition switchPointOf (vs : Validators) (old : Z) : Z :=
  if 0 <? vs_ValidBlockNumber vs then vs_ValidBlockNumber vs - 1 else old.

Section pool.
Context `{Agency}.

(** The common part of [NewValidatorPool] and [Reset]; [next] is the epoch
    after a last block. *)
Definition loadPool (nodeID switchPoint blockNumber epoch next : Z) : outcome ValidatorPool :=
  if GetLastNumber blockNumber =? blockNumber then
    match GetValidator (NextRound blockNumber) with
    | None => Panic
    | Some cur =>
        Ok (mkVP nodeID (switchPointOf cur switchPoint)
             (GetLastNumber (NextRound blockNumber)) next
             (GetValidator blockNumber) cur)
    end
  else
    match GetValidator blockNumber with
    | None => Panic
    | Some cur =>
        Ok (mkVP nodeID (switchPointOf cur switchPoint)
             (GetLastNumber blockNumber) epoch (Some cur) cur)
    end.

Definition NewValidatorPool (blockNumber epoch nodeID : Z) : outcome ValidatorPool :=
  loadPool nodeID 0 blockNumber epoch
    (if blockNumber =? 0 then epoch else u64 (epoch + 1)).

Definition vpReset (vp : ValidatorPool) (blockNumber epoch : Z) : outcome ValidatorPool :=
  loadPool (vp_nodeID vp) (vp_switchPoint vp) blockNumber epoch (u64 (epoch + 1)).
End pool.

Definition ShouldSwitch (vp : ValidatorPool) (blockNumber : Z) : bool :=
  if blockNumber =? 0 then false
  else if blockNumber =? vp_switchPoint vp then true
  else blockNumber =? vp_lastNumber vp.

Definition EqualSwitchPoint (vp : ValidatorPool) (number : Z) : bool :=
  (0 <? vp_switchPoint vp) && (vp_switchPoint vp =? number).

Definition EnableVerifyEpoch (vp : ValidatorPool) (epoch : Z) : outcome unit :=
  if (u64 (epoch + 1) =? vp_epoch vp) || (epoch =? vp_epoch vp)
  then Ok tt else Err GenericError.

Definition epochToBlockNumber (vp : ValidatorPool) (epoch : Z) : outcome Z :=
  if vp_epoch vp <? epoch then Panic
  else if u64 (epoch + 1) =? vp_epoch vp then Ok (vp_switchPoint vp)
  else Ok (u64 (vp_switchPoint vp + 1)).

(** The validators that the lookups of an epoch are made in. *)
Definition validatorsAt (vp : ValidatorPool) (epoch : Z) : outcome Validators :=
  n ← epochToBlockNumber vp epoch;
  if n <=? vp_switchPoint vp
  then match vp_prevValidators vp with Some vs => Ok vs | None => Panic end
  else Ok (vp_currentValidators vp).

Definition GetValidatorByNodeID (vp : ValidatorPool) (epoch nodeID : Z) : outcome ValidateNode :=
  vs ← validatorsAt vp epoch; FindNodeByID vs nodeID.

Definition GetValidatorByAddr (vp : ValidatorPool) (epoch addr : Z) : outcome ValidateNode :=
  vs ← validatorsAt vp epoch; FindNodeByAddress vs addr.

Definition GetValidatorByIndex (vp : ValidatorPool) (epoch index : Z) : outcome ValidateNode :=
  vs ← validatorsAt vp epoch; FindNodeByIndex vs index.

Definition ValidatorList (vp : ValidatorPool) (epoch : Z) : outcome (list Z) :=
  vs ← validatorsAt vp epoch; Ok (NodeList vs).

Definition IsValidator (vp : ValidatorPool) (epoch nodeID : Z) : outcome bool :=
  match GetValidatorByNodeID vp epoch nodeID with
  | Ok _ => Ok true
  | Err _ => Ok false
  | Panic => Panic
  end.

Definition vpLen (vp : ValidatorPool) (epoch : Z) : outcome Z :=
  vs ← validatorsAt vp epoch; Ok (vsLen vs).

Definition vpVerify (vp : ValidatorPool) (epoch validatorIndex : Z) (msg : list Z)
    (signature : Z) : outcome unit :=
  node ← GetValidatorByIndex vp epoch validatorIndex;
  blsVerify (vn_BlsPubKey node) msg signature.

(** The sum of the keys of a list of nodes. *)
Fixpoint aggPub (pub : PublicKey) (nodes : list ValidateNode) : PublicKey :=
  match nodes with
  | [] => pub
  | n :: nodes => aggPub (pubAdd pub (vn_BlsPubKey n)) nodes
  end.

Definition VerifyAggSigByBA (vp : ValidatorPool) (epoch : Z) (vSet : option BitArray)
    (msg : list Z) (signature : Z) : outcome unit :=
  vs ← validatorsAt vp epoch;
  nodeList ← NodeListByBitArray vs vSet;
  match nodeList with
  | [] => Err GenericError
  | n :: nodes => blsVerify (aggPub (vn_BlsPubKey n) nodes) msg signature
  end.

(** *** Switching validators *)

Inductive ValidatorEvent :=
  | AddValidatorEvent (nodeID : Z)
  | RemoveValidatorEvent (nodeID : Z).

(** The nodes of [a] that are not in [b]. *)
Definition notIn (a b : Validators) : list Z :=
  base.filter (λ id, vs_Nodes b !! id = None) (NodeList a).

Definition switchEvents (before after : bool) (prev cur : Validators) : list ValidatorEvent :=
  if before then
    if after then
      (AddValidatorEvent <$> notIn cur prev) ++ (RemoveValidatorEvent <$> notIn prev cur)
    else RemoveValidatorEvent <$> NodeList prev
  else if after then AddValidatorEvent <$> NodeList cur
  else [].

Definition vpUpdate `{Agency} (vp : ValidatorPool) (blockNumber epoch : Z) :
    outcome (ValidatorPool * list ValidatorEvent) :=
  if blockNumber <=? vp_switchPoint vp then Err GenericError
  else match GetValidator (NextRound blockNumber) with
  | None => Err GenericError
  | Some nds =>
      let vp := mkVP (vp_nodeID vp) (u64 (vs_ValidBlockNumber nds - 1))
        (GetLastNumber (NextRound blockNumber)) epoch
        (Some (vp_currentValidators vp)) nds in
      before ← IsValidator vp (u64 (epoch - 1)) (vp_nodeID vp);
      after ← IsValidator vp epoch (vp_nodeID vp);
      match vp_prevValidators vp with
      | None => Panic
      | Some prev => Ok (vp, switchEvents before after prev nds)
      end
  end.
End validators.
