(* ===== verification/BlockTree.v ===== *)
(** The tree of the blocks that are certified and not yet final.

    Models consensus/pbft/types/block_tree.go.  The nodes of the tree point to
    their parents and children, and pruning cuts both ends; so the model has
    a heap of nodes, and the tree holds pointers into it.  The time at which
    a block was received is not modelled. *)

From S2P Require Import Prelude BitArray PbftTypes.

Definition MaxUint64 : Z := 2 ^ 64 - 1.

Record blockExt := mkExt {
  be_ViewNumber : Z;
  be_Block : Block;
  be_QC : option QuorumCert;
  be_Parent : option nat;
  be_Children : option (gmap Z nat);
}.

Record BlockTree := mkTree {
  bt_heap : gmap nat blockExt;
  bt_next : nat;
  bt_root : option nat;
  bt_blocks : gmap Z (gmap Z nat);
}.

Definition setHeap (h : gmap nat blockExt) (t : BlockTree) : BlockTree :=
  mkTree h (bt_next t) (bt_root t) (bt_blocks t).
Definition setRoot (r : option nat) (t : BlockTree) : BlockTree :=
  mkTree (bt_heap t) (bt_next t) r (bt_blocks t).
Definition setBlocks (b : gmap Z (gmap Z nat)) (t : BlockTree) : BlockTree :=
  mkTree (bt_heap t) (bt_next t) (bt_root t) b.

Definition setParent (p : option nat) (e : blockExt) : blockExt :=
  mkExt (be_ViewNumber e) (be_Block e) (be_QC e) p (be_Children e).
Definition setChildren (c : option (gmap Z nat)) (e : blockExt) : blockExt :=
  mkExt (be_ViewNumber e) (be_Block e) (be_QC e) (be_Parent e) c.

(** *** Reading and writing through pointers *)

Definition deref (p : nat) : M BlockTree blockExt := λ t,
  match bt_heap t !! p with Some e => (Ok e, t) | None => (Panic, t) end.

Definition derefRoot : M BlockTree blockExt := λ t,
  match bt_root t with Some p => deref p t | None => (Panic, t) end.

Definition updExt (p : nat) (f : blockExt → blockExt) : M BlockTree unit :=
  modify (λ t, setHeap (alter f p (bt_heap t)) t).

Definition allocExt (e : blockExt) : M BlockTree nat := λ t,
  (Ok (bt_next t),
   mkTree (<[bt_next t := e]> (bt_heap t)) (S (bt_next t)) (bt_root t) (bt_blocks t)).

Section tree.
Context `{Crypto}.

(** The view number of a node: the genesis block has the largest. *)
Definition extView (block : Block) (qc : option QuorumCert) : outcome Z :=
  if bNumber block =? 0 then Ok MaxUint64
  else match qc with Some q => Ok (qc_ViewNumber q) | None => Panic end.

Definition NewBlockTree (root : Block) (qc : option QuorumCert) : outcome BlockTree :=
  v ← extView root qc;
  Ok (mkTree {[ 0%nat := mkExt v root qc None (Some ∅) ]} 1 (Some 0%nat)
        {[ bNumber root := {[ Hash root := 0%nat ]} ]}).

(** ** Lookups *)

Definition findBlockExt (t : BlockTree) (hash number : Z) : option nat :=
  m ← bt_blocks t !! number; m !! hash.

Definition FindBlockAndQC (t : BlockTree) (hash number : Z) :
    option (Block * option QuorumCert) :=
  p ← findBlockExt t hash number; e ← bt_heap t !! p; Some (be_Block e, be_QC e).

(** The nodes at one height. *)
Definition extsAt (t : BlockTree) (number : Z) : list (nat * blockExt) :=
  match bt_blocks t !! number with
  | None => []
  | Some m => omap (λ hp, e ← bt_heap t !! hp.2; Some (hp.2, e)) (map_to_list m)
  end.

Definition FindBlockByHash (t : BlockTree) (hash : Z) : option Block :=
  head (omap (λ nm, p ← nm.2 !! hash; be_Block <$> bt_heap t !! p)
             (map_to_list (bt_blocks t))).

Definition findForkedBlockExts (t : BlockTree) (hash number : Z) : list blockExt :=
  match bt_blocks t !! number with
  | None => []
  | Some m =>
      omap (λ hp, if hp.1 =? hash then None else bt_heap t !! hp.2) (map_to_list m)
  end.

Definition IsForked (t : BlockTree) (hash number : Z) : option (Z * Z) :=
  e ← head (findForkedBlockExts t hash number);
  Some (Hash (be_Block e), bNumber (be_Block e)).

Definition FindForkedBlocksAndQCs (t : BlockTree) (hash number : Z) :
    list Block * list (option QuorumCert) :=
  let l := findForkedBlockExts t hash number in (be_Block <$> l, be_QC <$> l).

Definition FindBlocksAndQCs (t : BlockTree) (number : Z) :
    list Block * list (option QuorumCert) :=
  let l := (extsAt t number).*2 in (be_Block <$> l, be_QC <$> l).

Definition findParent (t : BlockTree) (hash number : Z) : option nat :=
  fst <$> head (base.filter (λ pe, Hash (be_Block pe.2) = hash)
                            (extsAt t (u64 (number - 1)))).

Definition findChild (t : BlockTree) (hash number : Z) : option nat :=
  fst <$> head (base.filter (λ pe, bParentHash (be_Block pe.2) = hash)
                            (extsAt t (u64 (number + 1)))).

(** ** Insertion *)

(** [parent.Children[hash] = ext]: a nil map panics. *)
Definition addChild (p : nat) (hash : Z) (c : nat) : M BlockTree unit :=
  e ← deref p;
  match be_Children e with
  | None => panic
  | Some m => updExt p (setChildren (Some (<[hash := c]> m)))
  end.

Definition fixTree (p : nat) : M BlockTree unit :=
  ext ← deref p;
  parent ← gets (λ t, findParent t (bParentHash (be_Block ext)) (bNumber (be_Block ext)));
  child ← gets (λ t, findChild t (Hash (be_Block ext)) (bNumber (be_Block ext)));
  (match parent with
   | Some q => addChild q (Hash (be_Block ext)) p ≫= λ _, updExt p (setParent (Some q))
   | None => mret tt
   end) ≫= λ _,
  match child with
  | Some c =>
      updExt c (setParent (Some p)) ≫= λ _,
      ce ← deref c; addChild p (Hash (be_Block ce)) c
  | None => mret tt
  end.

(** The node of the largest view at the height of [p]. *)
Definition maxBlock (p : nat) : M BlockTree nat :=
  ext ← deref p;
  t ← get;
  mret (foldl (λ (m : nat * blockExt) pe,
           if (u64 (be_ViewNumber m.2 + 1) <? u64 (be_ViewNumber pe.2 + 1))
              && bool_decide (is_Some (be_Parent pe.2))
           then pe else m)
         (p, ext) (extsAt t (bNumber (be_Block ext)))).1.

(** The locked block and the block to commit. *)
Definition lockAndCommit (p : nat) : M BlockTree (option Block * option Block) :=
  lock ← deref p;
  root ← derefRoot;
  if Hash (be_Block lock) =? Hash (be_Block root)
  then mret (Some (be_Block root), Some (be_Block root))
  else match be_Parent lock with
  | None => mret (Some (be_Block lock), None)
  | Some c => commit ← deref c; mret (Some (be_Block lock), Some (be_Block commit))
  end.

Definition insertBlock (p : nat) : M BlockTree (option Block * option Block) :=
  ext ← deref p;
  t ← get;
  let number := bNumber (be_Block ext) in
  let hash := Hash (be_Block ext) in
  let m := default ∅ (bt_blocks t !! number) in
  if bool_decide (is_Some (m !! hash)) then mret (None, None)
  else
    modify (λ t, setBlocks (<[number := <[hash := p]> m]> (bt_blocks t)) t) ≫= λ _,
    fixTree p ≫= λ _,
    q ← maxBlock p;
    lockAndCommit q.

Definition InsertQCBlock (block : Block) (qc : option QuorumCert) :
    M BlockTree (option Block * option Block) :=
  v ← ask (extView block qc);
  p ← allocExt (mkExt v block qc None (Some ∅));
  insertBlock p.

(** ** Pruning *)

Definition clearParent (p : nat) : M BlockTree unit :=
  e ← deref p;
  match be_Parent e with
  | None => mret tt
  | Some q => updExt q (setChildren None) ≫= λ _, updExt p (setParent None)
  end.

(** [for num := from; num < number; num++ { delete(b.blocks, num) }] *)
Fixpoint deleteFrom (n : nat) (from : Z) (b : gmap Z (gmap Z nat)) : gmap Z (gmap Z nat) :=
  match n with
  | O => b
  | S n => deleteFrom n (from + 1) (delete from b)
  end.

Definition deleteBelow (number : Z) : M BlockTree unit :=
  root ← derefRoot;
  modify (λ t, setBlocks
    (deleteFrom (Z.to_nat (number - bNumber (be_Block root))) (bNumber (be_Block root))
       (bt_blocks t)) t).

Definition deleteHash (number hash : Z) : M BlockTree unit :=
  modify (λ t, setBlocks (alter (delete hash) number (bt_blocks t)) t).

(** The recursion ends because a node is cut from its children when it is
    reached; [fuel] bounds its depth by the number of nodes. *)
Fixpoint pruneBranch (fuel : nat) (p : nat) : M BlockTree unit :=
  match fuel with
  | O => panic
  | S fuel =>
      ext ← deref p;
      for_each (λ hc : Z * nat,
        e ← deref hc.2;
        t ← get;
        match bt_blocks t !! bNumber (be_Block e) with
        | None => mret tt
        | Some _ =>
            clearParent hc.2 ≫= λ _,
            deleteHash (bNumber (be_Block e)) hc.1 ≫= λ _,
            pruneBranch fuel hc.2
        end) (map_to_list (default ∅ (be_Children ext))) ≫= λ _,
      updExt p (setChildren None)
  end.

Definition PruneBlock (hash number : Z) : M BlockTree unit :=
  deleteBelow number ≫= λ _,
  t ← get;
  match bt_blocks t !! number with
  | None => mret tt
  | Some m =>
      for_each (λ hp : Z * nat,
        clearParent hp.2 ≫= λ _,
        if hp.1 =? hash then modify (setRoot (Some hp.2))
        else deleteHash number hp.1 ≫= λ _, pruneBranch (S (bt_next t)) hp.2)
      (map_to_list m)
  end.

Definition NewRoot (block : Block) : M BlockTree unit :=
  deleteBelow (bNumber block) ≫= λ _,
  modify (λ t, setRoot (findBlockExt t (Hash block) (bNumber block)) t).

(** [Reset] makes a new tree; the nodes of the old one are garbage. *)
Definition treeReset (root : Block) (qc : option QuorumCert) : outcome BlockTree :=
  NewBlockTree root qc.
End tree.
