(* ===== verification/PbftEvidence.v ===== *)
(** Evidence of double signing and the pool that collects it.

    Models consensus/pbft/evidence: the records made of the four messages,
    their validation, the lists kept for each identity and the pool.  The
    identity of a message, a string of four numbers in the code, is the tuple
    of them; the database of the pool is the list of what was written to it,
    and writing to it succeeds.  The items under one identity have equal sort
    keys, so the code's sorting of them is left out. *)

From S2P Require Import Prelude BitArray PbftTypes PbftValidators.

Section evidence.
Context `{Crypto}.

(** ** Records *)

Record EvidenceNode := mkEN {
  en_Index : Z;
  en_NodeID : Z;
  en_BlsPubKey : PublicKey;
}.

Definition NewEvidenceNode (n : ValidateNode) : EvidenceNode :=
  mkEN (vn_Index n) (vn_NodeID n) (vn_BlsPubKey n).

Record EvidencePrepare := mkEP {
  ep_Epoch : Z;
  ep_ViewNumber : Z;
  ep_BlockHash : Z;
  ep_BlockNumber : Z;
  ep_BlockIndex : Z;
  ep_BlockData : Z;
  ep_ValidateNode : EvidenceNode;
  ep_Signature : Z;
}.

Record EvidenceVote := mkEV {
  ev_Epoch : Z;
  ev_ViewNumber : Z;
  ev_BlockHash : Z;
  ev_BlockNumber : Z;
  ev_BlockIndex : Z;
  ev_ValidateNode : EvidenceNode;
  ev_Signature : Z;
}.

(** [EvidencePrecommit] has the fields and the digest of [EvidenceVote]. *)
Definition EvidencePrecommit : Type := EvidenceVote.

Record EvidenceView := mkEW {
  ew_Epoch : Z;
  ew_ViewNumber : Z;
  ew_BlockHash : Z;
  ew_BlockNumber : Z;
  ew_ValidateNode : EvidenceNode;
  ew_Signature : Z;
  ew_BlockEpoch : Z;
  ew_BlockView : Z;
}.

#[export] Instance EvidenceNode_eq_dec : EqDecision EvidenceNode.
Proof. solve_decision. Defined.
#[export] Instance EvidencePrepare_eq_dec : EqDecision EvidencePrepare.
Proof. solve_decision. Defined.
#[export] Instance EvidenceVote_eq_dec : EqDecision EvidenceVote.
Proof. solve_decision. Defined.
#[export] Instance EvidenceView_eq_dec : EqDecision EvidenceView.
Proof. solve_decision. Defined.

Definition NewEvidencePrepare (m : PrepareBlock) (n : ValidateNode) : EvidencePrepare :=
  mkEP (pb_Epoch m) (pb_ViewNumber m) (Hash (pb_Block m)) (bNumber (pb_Block m))
    (pb_BlockIndex m) (blockData (pb_Block m)) (NewEvidenceNode n) (pb_Signature m).

Definition NewEvidenceVote (m : PrepareVote) (n : ValidateNode) : EvidenceVote :=
  mkEV (pv_Epoch m) (pv_ViewNumber m) (pv_BlockHash m) (pv_BlockNumber m)
    (pv_BlockIndex m) (NewEvidenceNode n) (pv_Signature m).

Definition NewEvidencePrecommit (m : PreCommit) (n : ValidateNode) : EvidencePrecommit :=
  mkEV (pc_Epoch m) (pc_ViewNumber m) (pc_BlockHash m) (pc_BlockNumber m)
    (pc_BlockIndex m) (NewEvidenceNode n) (pc_Signature m).

Definition NewEvidenceView (m : ViewChange) (n : ValidateNode) : EvidenceView :=
  mkEW (vc_Epoch m) (vc_ViewNumber m) (vc_BlockHash m) (vc_BlockNumber m)
    (NewEvidenceNode n) (vc_Signature m) (vcBlockView m).1 (vcBlockView m).2.

Definition epDigest (e : EvidencePrepare) : list Z :=
  [ep_Epoch e; ep_ViewNumber e; ep_BlockHash e; ep_BlockNumber e; ep_BlockData e;
   ep_BlockIndex e; en_Index (ep_ValidateNode e)].
Definition evDigest (e : EvidenceVote) : list Z :=
  [ev_Epoch e; ev_ViewNumber e; ev_BlockHash e; ev_BlockNumber e; ev_BlockIndex e].
Definition ewDigest (e : EvidenceView) : list Z :=
  [ew_Epoch e; ew_ViewNumber e; ew_BlockHash e; ew_BlockNumber e;
   ew_BlockEpoch e; ew_BlockView e].

Definition epVerify (e : EvidencePrepare) : outcome unit :=
  blsVerify (en_BlsPubKey (ep_ValidateNode e)) (epDigest e) (ep_Signature e).
Definition evVerify (e : EvidenceVote) : outcome unit :=
  blsVerify (en_BlsPubKey (ev_ValidateNode e)) (evDigest e) (ev_Signature e).
Definition ewVerify (e : EvidenceView) : outcome unit :=
  blsVerify (en_BlsPubKey (ew_ValidateNode e)) (ewDigest e) (ew_Signature e).

(** ** Duplicates *)

Inductive Duplicate :=
  | DuplicatePrepareBlockEvidence (a b : EvidencePrepare)
  | DuplicatePrepareVoteEvidence (a b : EvidenceVote)
  | DuplicatePrecommitEvidence (a b : EvidencePrecommit)
  | DuplicateViewChangeEvidence (a b : EvidenceView).

#[export] Instance Duplicate_eq_dec : EqDecision Duplicate.
Proof. solve_decision. Defined.

Definition DuplicatePrepareBlockType : Z := 1.
Definition DuplicatePrepareVoteType : Z := 2.
Definition DuplicateViewChangeType : Z := 3.
Definition DuplicatePreCommitType : Z := 4.

Definition dupType (d : Duplicate) : Z :=
  match d with
  | DuplicatePrepareBlockEvidence _ _ => DuplicatePrepareBlockType
  | DuplicatePrepareVoteEvidence _ _ => DuplicatePrepareVoteType
  | DuplicatePrecommitEvidence _ _ => DuplicatePreCommitType
  | DuplicateViewChangeEvidence _ _ => DuplicateViewChangeType
  end.

Definition dupEpoch (d : Duplicate) : Z :=
  match d with
  | DuplicatePrepareBlockEvidence a _ => ep_Epoch a
  | DuplicatePrepareVoteEvidence a _ => ev_Epoch a
  | DuplicatePrecommitEvidence a _ => ev_Epoch a
  | DuplicateViewChangeEvidence a _ => ew_Epoch a
  end.

Definition sameNode (a b : EvidenceNode) : bool :=
  (en_Index a =? en_Index b) && (en_NodeID a =? en_NodeID b)
  && (pubSerialize (en_BlsPubKey a) =? pubSerialize (en_BlsPubKey b)).

(** The [Validate] methods: every check that fails is an error. *)
Definition epValidate (a b : EvidencePrepare) : outcome unit :=
  reject (negb (ep_Epoch a =? ep_Epoch b)) GenericError ≫= λ _,
  reject (negb (ep_ViewNumber a =? ep_ViewNumber b)) GenericError ≫= λ _,
  reject (negb (ep_BlockNumber a =? ep_BlockNumber b)) GenericError ≫= λ _,
  reject (negb (sameNode (ep_ValidateNode a) (ep_ValidateNode b))) GenericError ≫= λ _,
  reject (ep_BlockHash a =? ep_BlockHash b) GenericError ≫= λ _,
  epVerify a ≫= λ _, epVerify b.

Definition evValidate (a b : EvidenceVote) : outcome unit :=
  reject (negb (ev_Epoch a =? ev_Epoch b)) GenericError ≫= λ _,
  reject (negb (ev_ViewNumber a =? ev_ViewNumber b)) GenericError ≫= λ _,
  reject (negb (ev_BlockNumber a =? ev_BlockNumber b)) GenericError ≫= λ _,
  reject (negb (sameNode (ev_ValidateNode a) (ev_ValidateNode b))) GenericError ≫= λ _,
  reject (ev_BlockHash a =? ev_BlockHash b) GenericError ≫= λ _,
  evVerify a ≫= λ _, evVerify b.

Definition ewValidate (a b : EvidenceView) : outcome unit :=
  reject (negb (ew_Epoch a =? ew_Epoch b)) GenericError ≫= λ _,
  reject (negb (ew_ViewNumber a =? ew_ViewNumber b)) GenericError ≫= λ _,
  reject (negb (sameNode (ew_ValidateNode a) (ew_ValidateNode b))) GenericError ≫= λ _,
  reject ((ew_BlockNumber a =? ew_BlockNumber b) && (ew_BlockHash a =? ew_BlockHash b))
    GenericError ≫= λ _,
  ewVerify a ≫= λ _, ewVerify b.

Definition Validate (d : Duplicate) : outcome unit :=
  match d with
  | DuplicatePrepareBlockEvidence a b => epValidate a b
  | DuplicatePrepareVoteEvidence a b => evValidate a b
  | DuplicatePrecommitEvidence a b => evValidate a b
  | DuplicateViewChangeEvidence a b => ewValidate a b
  end.

(** ** Lists of one identity *)

(** The two records of a duplicate, the smaller hash first. *)
Definition byHash {A} (hash : A → Z) (new old : A) : A * A :=
  if hash old <? hash new then (old, new) else (new, old).

Definition opbFind (l : list EvidencePrepare) (epoch viewNumber blockNumber : Z) :
    option EvidencePrepare :=
  head (base.filter (λ v, ep_Epoch v = epoch ∧ ep_ViewNumber v = viewNumber
                          ∧ ep_BlockNumber v = blockNumber) l).

Definition opbAdd (l : list EvidencePrepare) (pb : EvidencePrepare) :
    list EvidencePrepare * option Duplicate :=
  match opbFind l (ep_Epoch pb) (ep_ViewNumber pb) (ep_BlockNumber pb) with
  | Some ev =>
      if ep_BlockHash ev =? ep_BlockHash pb then (l, None)
      else let '(a, b) := byHash ep_BlockHash pb ev in
           (l, Some (DuplicatePrepareBlockEvidence a b))
  | None => (l ++ [pb], None)
  end.

Definition opvFind (l : list EvidenceVote) (epoch viewNumber blockNumber : Z) :
    option EvidenceVote :=
  head (base.filter (λ v, ev_Epoch v = epoch ∧ ev_ViewNumber v = viewNumber
                          ∧ ev_BlockNumber v = blockNumber) l).

(** [NumberOrderPrepareVote.Add] and [NumberOrderPrecommit.Add] *)
Definition opvAdd (dup : EvidenceVote → EvidenceVote → Duplicate)
    (l : list EvidenceVote) (pv : EvidenceVote) : list EvidenceVote * option Duplicate :=
  match opvFind l (ev_Epoch pv) (ev_ViewNumber pv) (ev_BlockNumber pv) with
  | Some ev =>
      if ev_BlockHash ev =? ev_BlockHash pv then (l, None)
      else let '(a, b) := byHash ev_BlockHash pv ev in (l, Some (dup a b))
  | None => (l ++ [pv], None)
  end.

(** The lookup for view changes compares the block number with its second
    argument. *)
Definition ovcFind (l : list EvidenceView) (epoch blockNumber : Z) : option EvidenceView :=
  head (base.filter (λ v, ew_Epoch v = epoch ∧ ew_BlockNumber v = blockNumber) l).

(** [Add] passes the view number to it. *)
Definition ovcAdd (l : list EvidenceView) (vc : EvidenceView) :
    list EvidenceView * option Duplicate :=
  match ovcFind l (ew_Epoch vc) (ew_ViewNumber vc) with
  | Some ev =>
      if negb (ew_BlockNumber ev =? ew_BlockNumber vc)
         || negb (ew_BlockHash ev =? ew_BlockHash vc)
      then let '(a, b) := byHash ew_BlockHash vc ev in
           (l, Some (DuplicateViewChangeEvidence a b))
      else (l, None)
  | None => (l ++ [vc], None)
  end.

(** ** The pool *)

(** Epoch, block number, view number and index of the signer. *)
Definition Identity : Type := Z * Z * Z * Z.

Record EvidencePool := mkPool {
  ep_pb : gmap Identity (list EvidencePrepare);
  ep_pv : gmap Identity (list EvidenceVote);
  ep_pc : gmap Identity (list EvidencePrecommit);
  ep_vc : gmap Identity (list EvidenceView);
  ep_db : list Duplicate;
}.

Definition NewBaseEvidencePool : EvidencePool := mkPool ∅ ∅ ∅ ∅ [].

Definition verifyIdentity (m : ConsensusMsg) : Identity :=
  (EpochNum m, BlockNum m, ViewNum m, NodeIndex m).

(** Adding to the list of an identity. *)
Definition evidenceAdd {A} (add : list A → A → list A * option Duplicate)
    (m : gmap Identity (list A)) (x : A) (id : Identity) :
    gmap Identity (list A) * option Duplicate :=
  let '(l, d) := add (default [] (m !! id)) x in (<[id := l]> m, d).

Definition commit (d : option Duplicate) (db : list Duplicate) : list Duplicate :=
  match d with
  | None => db
  | Some d => if decide (d ∈ db) then db else db ++ [d]
  end.

Definition evAddPrepareBlock (p : EvidencePool) (m : PrepareBlock) (n : ValidateNode) :
    EvidencePool * option Duplicate :=
  let '(pb, d) := evidenceAdd opbAdd (ep_pb p) (NewEvidencePrepare m n)
                    (verifyIdentity (MPrepareBlock m)) in
  (mkPool pb (ep_pv p) (ep_pc p) (ep_vc p) (commit d (ep_db p)), d).

Definition evAddPrepareVote (p : EvidencePool) (m : PrepareVote) (n : ValidateNode) :
    EvidencePool * option Duplicate :=
  let '(pv, d) := evidenceAdd (opvAdd DuplicatePrepareVoteEvidence) (ep_pv p)
                    (NewEvidenceVote m n) (verifyIdentity (MPrepareVote m)) in
  (mkPool (ep_pb p) pv (ep_pc p) (ep_vc p) (commit d (ep_db p)), d).

Definition evAddPreCommit (p : EvidencePool) (m : PreCommit) (n : ValidateNode) :
    EvidencePool * option Duplicate :=
  let '(pc, d) := evidenceAdd (opvAdd DuplicatePrecommitEvidence) (ep_pc p)
                    (NewEvidencePrecommit m n) (verifyIdentity (MPreCommit m)) in
  (mkPool (ep_pb p) (ep_pv p) pc (ep_vc p) (commit d (ep_db p)), d).

Definition evAddViewChange (p : EvidencePool) (m : ViewChange) (n : ValidateNode) :
    EvidencePool * option Duplicate :=
  let '(vc, d) := evidenceAdd ovcAdd (ep_vc p) (NewEvidenceView m n)
                    (verifyIdentity (MViewChange m)) in
  (mkPool (ep_pb p) (ep_pv p) (ep_pc p) vc (commit d (ep_db p)), d).

(** [Clear] drops the identities up to a block of an epoch. *)
Definition stale (epoch blockNumber : Z) (id : Identity) : bool :=
  let '(e, n, _, _) := id in (e <? epoch) || ((e =? epoch) && (n <=? blockNumber)).

Definition clearMap {A} (epoch blockNumber : Z) (m : gmap Identity (list A)) :
    gmap Identity (list A) :=
  base.filter (λ kv, stale epoch blockNumber kv.1 = false) m.

Definition evClear (p : EvidencePool) (epoch blockNumber : Z) : EvidencePool :=
  mkPool (clearMap epoch blockNumber (ep_pb p)) (clearMap epoch blockNumber (ep_pv p))
    (clearMap epoch blockNumber (ep_pc p)) (clearMap epoch blockNumber (ep_vc p)) (ep_db p).

(** The first byte of the key under which a duplicate is written: the prefix
    of its kind or, for precommits, which have none, of its epoch. *)
Definition keyFlag (d : Duplicate) : Z :=
  match d with
  | DuplicatePrepareBlockEvidence _ _ => 1
  | DuplicatePrepareVoteEvidence _ _ => 2
  | DuplicateViewChangeEvidence _ _ => 3
  | DuplicatePrecommitEvidence _ _ => Z.shiftr (u64 (dupEpoch d)) 56
  end.

(** [Evidences] reads the entries whose first byte is a known prefix. *)
Definition Evidences (p : EvidencePool) : list Duplicate :=
  base.filter (λ d, keyFlag d = 1 ∨ keyFlag d = 2 ∨ keyFlag d = 3) (ep_db p).

(** [NewEvidence]: the kinds that can be decoded, by their number. *)
Definition evidenceKnown (dupType : Z) : bool :=
  (dupType =? DuplicatePrepareBlockType) || (dupType =? DuplicatePrepareVoteType)
  || (dupType =? DuplicateViewChangeType).
End evidence.
