(* ===== verification/PbftState.v ===== *)
(** The state of a view: votes, blocks and certificates of the current height.

    Models consensus/pbft/state/state.go and timer.go.  Times are in
    nanoseconds and the present time is an argument.  The four highest blocks,
    which the code loads from atomic values and panics when they were never
    stored, are set when the engine starts and are plain fields.  The queues
    of pending votes, which nothing fills, the locks and the JSON encoding are
    not modelled. *)

From S2P Require Import Prelude Float64 BitArray PbftTypes.

Definition DefaultEpoch : Z := 1.
Definition DefaultViewNumber : Z := 0.
Definition ViewCacheLen : nat := 10.
Definition MaxUint32 : Z := 2 ^ 32 - 1.

(** ** Components of a view *)

(** A block of the view: a proposal, or a block that came with its
    certificate. *)
Inductive viewBlock :=
  | prepareViewBlock (pb : PrepareBlock)
  | qcBlock (b : Block) (qc : option QuorumCert).

Definition vbBlock (v : viewBlock) : Block :=
  match v with prepareViewBlock pb => pb_Block pb | qcBlock b _ => b end.

Definition vbPrepareBlock (v : viewBlock) : option PrepareBlock :=
  match v with prepareViewBlock pb => Some pb | qcBlock _ _ => None end.

Record viewBlocks := mkVBs {
  vb_Blocks : gmap Z viewBlock;
  vb_IsProduced : bool;
}.

Definition newViewBlocks : viewBlocks := mkVBs ∅ false.

(** The minimum starts from zero, so it is zero. *)
Definition minKey {A} (m : gmap Z A) : Z :=
  foldr Z.min 0 (map_to_list m).*1.
Definition maxKey {A} (m : gmap Z A) : Z :=
  foldr Z.max 0 (map_to_list m).*1.

Definition vbMaxNumber (v : viewBlocks) : Z :=
  foldr Z.max 0 ((λ kv, bNumber (vbBlock kv.2)) <$> map_to_list (vb_Blocks v)).
Definition vbMinNumber (v : viewBlocks) : Z :=
  foldr Z.min 0 ((λ kv, bNumber (vbBlock kv.2)) <$> map_to_list (vb_Blocks v)).

Definition addBlock `{Crypto} (b : viewBlock) (v : viewBlocks) : viewBlocks :=
  let number := bNumber (vbBlock b) in
  let same := match vb_Blocks v !! number with
              | Some o => Hash (vbBlock o) =? Hash (vbBlock b)
              | None => false
              end in
  if same then v
  else
    let bs := if (ViewCacheLen <=? size (vb_Blocks v))%nat
              then delete (vbMinNumber v) (vb_Blocks v) else vb_Blocks v in
    mkVBs (<[number := b]> bs) true.

(** [clear] keeps the blocks. *)
Definition vbClear (blockNumber : Z) (v : viewBlocks) : viewBlocks :=
  mkVBs (vb_Blocks v) false.

Record viewQCs := mkVQs {
  vq_MaxNumber : Z;
  vq_MinNumber : Z;
  vq_QCs : gmap Z QuorumCert;
  vq_IsProduced : bool;
}.

Definition newViewQCs : viewQCs := mkVQs 0 0 ∅ false.

Definition addQC (qc : QuorumCert) (v : viewQCs) : viewQCs :=
  let number := qc_BlockNumber qc in
  let same := match vq_QCs v !! number with
              | Some o => qc_BlockHash o =? qc_BlockHash qc
              | None => false
              end in
  if same then v
  else
    let qcs := if (ViewCacheLen <=? size (vq_QCs v))%nat
               then delete (vq_MinNumber v) (vq_QCs v) else vq_QCs v in
    mkVQs (if vq_MaxNumber v <? number then number else vq_MaxNumber v)
          (if number <? vq_MinNumber v then number else vq_MinNumber v)
          (<[number := qc]> qcs) true.

Definition vqClear (blockNumber : Z) (v : viewQCs) : viewQCs :=
  mkVQs (vq_MaxNumber v) (vq_MinNumber v) (delete blockNumber (vq_QCs v)) false.

(** [viewVotes.addVote] and [viewPreCommits.addPreCommit]: the votes of a
    height, by the index of the voter. *)
Definition addVoteAt {A} (number id : Z) (vote : A) (v : gmap Z (gmap Z A)) :
    gmap Z (gmap Z A) :=
  let v := if (ViewCacheLen <=? size v)%nat then delete (minKey v) v else v in
  <[number := <[id := vote]> (default ∅ (v !! number))]> v.

Record executing := mkExecuting {
  ex_BlockIndex : Z;
  ex_Finish : bool;
}.

(** ** The timer *)

Record viewTimer := mkTimer {
  vt_deadline : Z;
  vt_baseMs : Z;
  vt_preViewInterval : Z;
}.

Definition maxExponent : Z := 2.
Definition exponentBase : float64 := ratio 3 2.

Definition newViewTimer (period : Z) : viewTimer :=
  mkTimer 0 (u64 (period * 1000000)) 1.

Definition calViewInterval (t : viewTimer) (viewInterval : Z) : Z :=
  let pre := vt_preViewInterval t in
  if ((1 <? pre) && (viewInterval =? 1)) || (viewInterval <? pre) then pre - 1
  else if negb (pre =? 1) && (pre =? viewInterval) then u64 (viewInterval + 1)
  else viewInterval.

(** [math.Pow] for the exponents 0, 1 and 2, for which it is exact. *)
Fixpoint powBase (k : nat) : float64 :=
  match k with O => of_Z 1 | S k => fmul (powBase k) exponentBase end.

Definition getViewTimeInterval (baseMs viewInterval : Z) : Z :=
  let pow := u64 (viewInterval - 1) in
  let pow := if maxExponent <? pow then maxExponent else pow in
  to_int64 (fmul (of_Z baseMs) (powBase (Z.to_nat pow))).

Definition setupTimer (now viewInterval : Z) (t : viewTimer) : viewTimer :=
  let viewInterval := calViewInterval t viewInterval in
  mkTimer (now + getViewTimeInterval (vt_baseMs t) viewInterval) (vt_baseMs t) viewInterval.

Definition isDeadline (now : Z) (t : viewTimer) : bool := vt_deadline t <? now.

(** ** The state *)

Record ViewState := mkVS {
  v_epoch : Z;
  v_viewNumber : Z;
  v_blockNumber : Z;
  v_lastAddBlockNumberTime : Z;
  v_maxExecutedBlockNumber : Z;
  v_Step : Z;
  v_executing : executing;
  v_viewChanges : gmap Z ViewChange;
  v_lastViewChangeQC : option ViewChangeQC;
  v_hadSendVoteNumber : Z;
  v_hadSendVoteLast : option PrepareVote;
  v_hadSendPreCommitNumber : Z;
  v_hadSendPreCommitLast : option PreCommit;
  v_viewBlocks : viewBlocks;
  v_viewQCs : viewQCs;
  v_viewPreCommitQCs : viewQCs;
  v_viewPreCommitQC : option QuorumCert;
  v_viewPrepareVoteQC : option QuorumCert;
  v_viewVotes : gmap Z (gmap Z PrepareVote);
  v_viewPreCommits : gmap Z (gmap Z PreCommit);
  v_highestQCBlock : Block;
  v_highestLockBlock : Block;
  v_highestCommitBlock : Block;
  v_highestPreCommitQCBlock : Block;
  v_viewTimer : viewTimer;
}.

(** One setter for each field. *)
Definition set_epoch (x : Z) (s : ViewState) : ViewState :=
  mkVS x (v_viewNumber s) (v_blockNumber s) (v_lastAddBlockNumberTime s)
  (v_maxExecutedBlockNumber s) (v_Step s) (v_executing s) (v_viewChanges s)
  (v_lastViewChangeQC s) (v_hadSendVoteNumber s) (v_hadSendVoteLast s)
  (v_hadSendPreCommitNumber s) (v_hadSendPreCommitLast s) (v_viewBlocks s) (v_viewQCs
  s) (v_viewPreCommitQCs s) (v_viewPreCommitQC s) (v_viewPrepareVoteQC s) (v_viewVotes
  s) (v_viewPreCommits s) (v_highestQCBlock s) (v_highestLockBlock s)
  (v_highestCommitBlock s) (v_highestPreCommitQCBlock s) (v_viewTimer s).
Definition set_viewNumber (x : Z) (s : ViewState) : ViewState :=
  mkVS (v_epoch s) x (v_blockNumber s) (v_lastAddBlockNumberTime s)
  (v_maxExecutedBlockNumber s) (v_Step s) (v_executing s) (v_viewChanges s)
  (v_lastViewChangeQC s) (v_hadSendVoteNumber s) (v_hadSendVoteLast s)
  (v_hadSendPreCommitNumber s) (v_hadSendPreCommitLast s) (v_viewBlocks s) (v_viewQCs
  s) (v_viewPreCommitQCs s) (v_viewPreCommitQC s) (v_viewPrepareVoteQC s) (v_viewVotes
  s) (v_viewPreCommits s) (v_highestQCBlock s) (v_highestLockBlock s)
  (v_highestCommitBlock s) (v_highestPreCommitQCBlock s) (v_viewTimer s).
Definition set_blockNumber (x : Z) (s : ViewState) : ViewState :=
  mkVS (v_epoch s) (v_viewNumber s) x (v_lastAddBlockNumberTime s)
  (v_maxExecutedBlockNumber s) (v_Step s) (v_executing s) (v_viewChanges s)
  (v_lastViewChangeQC s) (v_hadSendVoteNumber s) (v_hadSendVoteLast s)
  (v_hadSendPreCommitNumber s) (v_hadSendPreCommitLast s) (v_viewBlocks s) (v_viewQCs
  s) (v_viewPreCommitQCs s) (v_viewPreCommitQC s) (v_viewPrepareVoteQC s) (v_viewVotes
  s) (v_viewPreCommits s) (v_highestQCBlock s) (v_highestLockBlock s)
  (v_highestCommitBlock s) (v_highestPreCommitQCBlock s) (v_viewTimer s).
Definition set_lastAddBlockNumberTime (x : Z) (s : ViewState) : ViewState :=
  mkVS (v_epoch s) (v_viewNumber s) (v_blockNumber s) x (v_maxExecutedBlockNumber s)
  (v_Step s) (v_executing s) (v_viewChanges s) (v_lastViewChangeQC s)
  (v_hadSendVoteNumber s) (v_hadSendVoteLast s) (v_hadSendPreCommitNumber s)
  (v_hadSendPreCommitLast s) (v_viewBlocks s) (v_viewQCs s) (v_viewPreCommitQCs s)
  (v_viewPreCommitQC s) (v_viewPrepareVoteQC s) (v_viewVotes s) (v_viewPreCommits s)
  (v_highestQCBlock s) (v_highestLockBlock s) (v_highestCommitBlock s)
  (v_highestPreCommitQCBlock s) (v_viewTimer s).
Definition set_maxExecutedBlockNumber (x : Z) (s : ViewState) : ViewState :=
  mkVS (v_epoch s) (v_viewNumber s) (v_blockNumber s) (v_lastAddBlockNumberTime s) x
  (v_Step s) (v_executing s) (v_viewChanges s) (v_lastViewChangeQC s)
  (v_hadSendVoteNumber s) (v_hadSendVoteLast s) (v_hadSendPreCommitNumber s)
  (v_hadSendPreCommitLast s) (v_viewBlocks s) (v_viewQCs s) (v_viewPreCommitQCs s)
  (v_viewPreCommitQC s) (v_viewPrepareVoteQC s) (v_viewVotes s) (v_viewPreCommits s)
  (v_highestQCBlock s) (v_highestLockBlock s) (v_highestCommitBlock s)
  (v_highestPreCommitQCBlock s) (v_viewTimer s).
Definition set_Step (x : Z) (s : ViewState) : ViewState :=
  mkVS (v_epoch s) (v_viewNumber s) (v_blockNumber s) (v_lastAddBlockNumberTime s)
  (v_maxExecutedBlockNumber s) x (v_executing s) (v_viewChanges s) (v_lastViewChangeQC
  s) (v_hadSendVoteNumber s) (v_hadSendVoteLast s) (v_hadSendPreCommitNumber s)
  (v_hadSendPreCommitLast s) (v_viewBlocks s) (v_viewQCs s) (v_viewPreCommitQCs s)
  (v_viewPreCommitQC s) (v_viewPrepareVoteQC s) (v_viewVotes s) (v_viewPreCommits s)
  (v_highestQCBlock s) (v_highestLockBlock s) (v_highestCommitBlock s)
  (v_highestPreCommitQCBlock s) (v_viewTimer s).
Definition set_executing (x : executing) (s : ViewState) : ViewState :=
  mkVS (v_epoch s) (v_viewNumber s) (v_blockNumber s) (v_lastAddBlockNumberTime s)
  (v_maxExecutedBlockNumber s) (v_Step s) x (v_viewChanges s) (v_lastViewChangeQC s)
  (v_hadSendVoteNumber s) (v_hadSendVoteLast s) (v_hadSendPreCommitNumber s)
  (v_hadSendPreCommitLast s) (v_viewBlocks s) (v_viewQCs s) (v_viewPreCommitQCs s)
  (v_viewPreCommitQC s) (v_viewPrepareVoteQC s) (v_viewVotes s) (v_viewPreCommits s)
  (v_highestQCBlock s) (v_highestLockBlock s) (v_highestCommitBlock s)
  (v_highestPreCommitQCBlock s) (v_viewTimer s).
Definition set_viewChanges (x : gmap Z ViewChange) (s : ViewState) : ViewState :=
  mkVS (v_epoch s) (v_viewNumber s) (v_blockNumber s) (v_lastAddBlockNumberTime s)
  (v_maxExecutedBlockNumber s) (v_Step s) (v_executing s) x (v_lastViewChangeQC s)
  (v_hadSendVoteNumber s) (v_hadSendVoteLast s) (v_hadSendPreCommitNumber s)
  (v_hadSendPreCommitLast s) (v_viewBlocks s) (v_viewQCs s) (v_viewPreCommitQCs s)
  (v_viewPreCommitQC s) (v_viewPrepareVoteQC s) (v_viewVotes s) (v_viewPreCommits s)
  (v_highestQCBlock s) (v_highestLockBlock s) (v_highestCommitBlock s)
  (v_highestPreCommitQCBlock s) (v_viewTimer s).
Definition set_lastViewChangeQC (x : option ViewChangeQC) (s : ViewState) : ViewState :=
  mkVS (v_epoch s) (v_viewNumber s) (v_blockNumber s) (v_lastAddBlockNumberTime s)
  (v_maxExecutedBlockNumber s) (v_Step s) (v_executing s) (v_viewChanges s) x
  (v_hadSendVoteNumber s) (v_hadSendVoteLast s) (v_hadSendPreCommitNumber s)
  (v_hadSendPreCommitLast s) (v_viewBlocks s) (v_viewQCs s) (v_viewPreCommitQCs s)
  (v_viewPreCommitQC s) (v_viewPrepareVoteQC s) (v_viewVotes s) (v_viewPreCommits s)
  (v_highestQCBlock s) (v_highestLockBlock s) (v_highestCommitBlock s)
  (v_highestPreCommitQCBlock s) (v_viewTimer s).
Definition set_hadSendVoteNumber (x : Z) (s : ViewState) : ViewState :=
  mkVS (v_epoch s) (v_viewNumber s) (v_blockNumber s) (v_lastAddBlockNumberTime s)
  (v_maxExecutedBlockNumber s) (v_Step s) (v_executing s) (v_viewChanges s)
  (v_lastViewChangeQC s) x (v_hadSendVoteLast s) (v_hadSendPreCommitNumber s)
  (v_hadSendPreCommitLast s) (v_viewBlocks s) (v_viewQCs s) (v_viewPreCommitQCs s)
  (v_viewPreCommitQC s) (v_viewPrepareVoteQC s) (v_viewVotes s) (v_viewPreCommits s)
  (v_highestQCBlock s) (v_highestLockBlock s) (v_highestCommitBlock s)
  (v_highestPreCommitQCBlock s) (v_viewTimer s).
Definition set_hadSendVoteLast (x : option PrepareVote) (s : ViewState) : ViewState :=
  mkVS (v_epoch s) (v_viewNumber s) (v_blockNumber s) (v_lastAddBlockNumberTime s)
  (v_maxExecutedBlockNumber s) (v_Step s) (v_executing s) (v_viewChanges s)
  (v_lastViewChangeQC s) (v_hadSendVoteNumber s) x (v_hadSendPreCommitNumber s)
  (v_hadSendPreCommitLast s) (v_viewBlocks s) (v_viewQCs s) (v_viewPreCommitQCs s)
  (v_viewPreCommitQC s) (v_viewPrepareVoteQC s) (v_viewVotes s) (v_viewPreCommits s)
  (v_highestQCBlock s) (v_highestLockBlock s) (v_highestCommitBlock s)
  (v_highestPreCommitQCBlock s) (v_viewTimer s).
Definition set_hadSendPreCommitNumber (x : Z) (s : ViewState) : ViewState :=
  mkVS (v_epoch s) (v_viewNumber s) (v_blockNumber s) (v_lastAddBlockNumberTime s)
  (v_maxExecutedBlockNumber s) (v_Step s) (v_executing s) (v_viewChanges s)
  (v_lastViewChangeQC s) (v_hadSendVoteNumber s) (v_hadSendVoteLast s) x
  (v_hadSendPreCommitLast s) (v_viewBlocks s) (v_viewQCs s) (v_viewPreCommitQCs s)
  (v_viewPreCommitQC s) (v_viewPrepareVoteQC s) (v_viewVotes s) (v_viewPreCommits s)
  (v_highestQCBlock s) (v_highestLockBlock s) (v_highestCommitBlock s)
  (v_highestPreCommitQCBlock s) (v_viewTimer s).
Definition set_hadSendPreCommitLast (x : option PreCommit) (s : ViewState) : ViewState :=
  mkVS (v_epoch s) (v_viewNumber s) (v_blockNumber s) (v_lastAddBlockNumberTime s)
  (v_maxExecutedBlockNumber s) (v_Step s) (v_executing s) (v_viewChanges s)
  (v_lastViewChangeQC s) (v_hadSendVoteNumber s) (v_hadSendVoteLast s)
  (v_hadSendPreCommitNumber s) x (v_viewBlocks s) (v_viewQCs s) (v_viewPreCommitQCs s)
  (v_viewPreCommitQC s) (v_viewPrepareVoteQC s) (v_viewVotes s) (v_viewPreCommits s)
  (v_highestQCBlock s) (v_highestLockBlock s) (v_highestCommitBlock s)
  (v_highestPreCommitQCBlock s) (v_viewTimer s).
Definition set_viewBlocks (x : viewBlocks) (s : ViewState) : ViewState :=
  mkVS (v_epoch s) (v_viewNumber s) (v_blockNumber s) (v_lastAddBlockNumberTime s)
  (v_maxExecutedBlockNumber s) (v_Step s) (v_executing s) (v_viewChanges s)
  (v_lastViewChangeQC s) (v_hadSendVoteNumber s) (v_hadSendVoteLast s)
  (v_hadSendPreCommitNumber s) (v_hadSendPreCommitLast s) x (v_viewQCs s)
  (v_viewPreCommitQCs s) (v_viewPreCommitQC s) (v_viewPrepareVoteQC s) (v_viewVotes s)
  (v_viewPreCommits s) (v_highestQCBlock s) (v_highestLockBlock s)
  (v_highestCommitBlock s) (v_highestPreCommitQCBlock s) (v_viewTimer s).
Definition set_viewQCs (x : viewQCs) (s : ViewState) : ViewState :=
  mkVS (v_epoch s) (v_viewNumber s) (v_blockNumber s) (v_lastAddBlockNumberTime s)
  (v_maxExecutedBlockNumber s) (v_Step s) (v_executing s) (v_viewChanges s)
  (v_lastViewChangeQC s) (v_hadSendVoteNumber s) (v_hadSendVoteLast s)
  (v_hadSendPreCommitNumber s) (v_hadSendPreCommitLast s) (v_viewBlocks s) x
  (v_viewPreCommitQCs s) (v_viewPreCommitQC s) (v_viewPrepareVoteQC s) (v_viewVotes s)
  (v_viewPreCommits s) (v_highestQCBlock s) (v_highestLockBlock s)
  (v_highestCommitBlock s) (v_highestPreCommitQCBlock s) (v_viewTimer s).
Definition set_viewPreCommitQCs (x : viewQCs) (s : ViewState) : ViewState :=
  mkVS (v_epoch s) (v_viewNumber s) (v_blockNumber s) (v_lastAddBlockNumberTime s)
  (v_maxExecutedBlockNumber s) (v_Step s) (v_executing s) (v_viewChanges s)
  (v_lastViewChangeQC s) (v_hadSendVoteNumber s) (v_hadSendVoteLast s)
  (v_hadSendPreCommitNumber s) (v_hadSendPreCommitLast s) (v_viewBlocks s) (v_viewQCs
  s) x (v_viewPreCommitQC s) (v_viewPrepareVoteQC s) (v_viewVotes s) (v_viewPreCommits
  s) (v_highestQCBlock s) (v_highestLockBlock s) (v_highestCommitBlock s)
  (v_highestPreCommitQCBlock s) (v_viewTimer s).
Definition set_viewPreCommitQC (x : option QuorumCert) (s : ViewState) : ViewState :=
  mkVS (v_epoch s) (v_viewNumber s) (v_blockNumber s) (v_lastAddBlockNumberTime s)
  (v_maxExecutedBlockNumber s) (v_Step s) (v_executing s) (v_viewChanges s)
  (v_lastViewChangeQC s) (v_hadSendVoteNumber s) (v_hadSendVoteLast s)
  (v_hadSendPreCommitNumber s) (v_hadSendPreCommitLast s) (v_viewBlocks s) (v_viewQCs
  s) (v_viewPreCommitQCs s) x (v_viewPrepareVoteQC s) (v_viewVotes s)
  (v_viewPreCommits s) (v_highestQCBlock s) (v_highestLockBlock s)
  (v_highestCommitBlock s) (v_highestPreCommitQCBlock s) (v_viewTimer s).
Definition set_viewPrepareVoteQC (x : option QuorumCert) (s : ViewState) : ViewState :=
  mkVS (v_epoch s) (v_viewNumber s) (v_blockNumber s) (v_lastAddBlockNumberTime s)
  (v_maxExecutedBlockNumber s) (v_Step s) (v_executing s) (v_viewChanges s)
  (v_lastViewChangeQC s) (v_hadSendVoteNumber s) (v_hadSendVoteLast s)
  (v_hadSendPreCommitNumber s) (v_hadSendPreCommitLast s) (v_viewBlocks s) (v_viewQCs
  s) (v_viewPreCommitQCs s) (v_viewPreCommitQC s) x (v_viewVotes s) (v_viewPreCommits
  s) (v_highestQCBlock s) (v_highestLockBlock s) (v_highestCommitBlock s)
  (v_highestPreCommitQCBlock s) (v_viewTimer s).
Definition set_viewVotes (x : gmap Z (gmap Z PrepareVote)) (s : ViewState) : ViewState :=
  mkVS (v_epoch s) (v_viewNumber s) (v_blockNumber s) (v_lastAddBlockNumberTime s)
  (v_maxExecutedBlockNumber s) (v_Step s) (v_executing s) (v_viewChanges s)
  (v_lastViewChangeQC s) (v_hadSendVoteNumber s) (v_hadSendVoteLast s)
  (v_hadSendPreCommitNumber s) (v_hadSendPreCommitLast s) (v_viewBlocks s) (v_viewQCs
  s) (v_viewPreCommitQCs s) (v_viewPreCommitQC s) (v_viewPrepareVoteQC s) x
  (v_viewPreCommits s) (v_highestQCBlock s) (v_highestLockBlock s)
  (v_highestCommitBlock s) (v_highestPreCommitQCBlock s) (v_viewTimer s).
Definition set_viewPreCommits (x : gmap Z (gmap Z PreCommit)) (s : ViewState) : ViewState :=
  mkVS (v_epoch s) (v_viewNumber s) (v_blockNumber s) (v_lastAddBlockNumberTime s)
  (v_maxExecutedBlockNumber s) (v_Step s) (v_executing s) (v_viewChanges s)
  (v_lastViewChangeQC s) (v_hadSendVoteNumber s) (v_hadSendVoteLast s)
  (v_hadSendPreCommitNumber s) (v_hadSendPreCommitLast s) (v_viewBlocks s) (v_viewQCs
  s) (v_viewPreCommitQCs s) (v_viewPreCommitQC s) (v_viewPrepareVoteQC s) (v_viewVotes
  s) x (v_highestQCBlock s) (v_highestLockBlock s) (v_highestCommitBlock s)
  (v_highestPreCommitQCBlock s) (v_viewTimer s).
Definition set_highestQCBlock (x : Block) (s : ViewState) : ViewState :=
  mkVS (v_epoch s) (v_viewNumber s) (v_blockNumber s) (v_lastAddBlockNumberTime s)
  (v_maxExecutedBlockNumber s) (v_Step s) (v_executing s) (v_viewChanges s)
  (v_lastViewChangeQC s) (v_hadSendVoteNumber s) (v_hadSendVoteLast s)
  (v_hadSendPreCommitNumber s) (v_hadSendPreCommitLast s) (v_viewBlocks s) (v_viewQCs
  s) (v_viewPreCommitQCs s) (v_viewPreCommitQC s) (v_viewPrepareVoteQC s) (v_viewVotes
  s) (v_viewPreCommits s) x (v_highestLockBlock s) (v_highestCommitBlock s)
  (v_highestPreCommitQCBlock s) (v_viewTimer s).
Definition set_highestLockBlock (x : Block) (s : ViewState) : ViewState :=
  mkVS (v_epoch s) (v_viewNumber s) (v_blockNumber s) (v_lastAddBlockNumberTime s)
  (v_maxExecutedBlockNumber s) (v_Step s) (v_executing s) (v_viewChanges s)
  (v_lastViewChangeQC s) (v_hadSendVoteNumber s) (v_hadSendVoteLast s)
  (v_hadSendPreCommitNumber s) (v_hadSendPreCommitLast s) (v_viewBlocks s) (v_viewQCs
  s) (v_viewPreCommitQCs s) (v_viewPreCommitQC s) (v_viewPrepareVoteQC s) (v_viewVotes
  s) (v_viewPreCommits s) (v_highestQCBlock s) x (v_highestCommitBlock s)
  (v_highestPreCommitQCBlock s) (v_viewTimer s).
Definition set_highestCommitBlock (x : Block) (s : ViewState) : ViewState :=
  mkVS (v_epoch s) (v_viewNumber s) (v_blockNumber s) (v_lastAddBlockNumberTime s)
  (v_maxExecutedBlockNumber s) (v_Step s) (v_executing s) (v_viewChanges s)
  (v_lastViewChangeQC s) (v_hadSendVoteNumber s) (v_hadSendVoteLast s)
  (v_hadSendPreCommitNumber s) (v_hadSendPreCommitLast s) (v_viewBlocks s) (v_viewQCs
  s) (v_viewPreCommitQCs s) (v_viewPreCommitQC s) (v_viewPrepareVoteQC s) (v_viewVotes
  s) (v_viewPreCommits s) (v_highestQCBlock s) (v_highestLockBlock s) x
  (v_highestPreCommitQCBlock s) (v_viewTimer s).
Definition set_highestPreCommitQCBlock (x : Block) (s : ViewState) : ViewState :=
  mkVS (v_epoch s) (v_viewNumber s) (v_blockNumber s) (v_lastAddBlockNumberTime s)
  (v_maxExecutedBlockNumber s) (v_Step s) (v_executing s) (v_viewChanges s)
  (v_lastViewChangeQC s) (v_hadSendVoteNumber s) (v_hadSendVoteLast s)
  (v_hadSendPreCommitNumber s) (v_hadSendPreCommitLast s) (v_viewBlocks s) (v_viewQCs
  s) (v_viewPreCommitQCs s) (v_viewPreCommitQC s) (v_viewPrepareVoteQC s) (v_viewVotes
  s) (v_viewPreCommits s) (v_highestQCBlock s) (v_highestLockBlock s)
  (v_highestCommitBlock s) x (v_viewTimer s).
Definition set_viewTimer (x : viewTimer) (s : ViewState) : ViewState :=
  mkVS (v_epoch s) (v_viewNumber s) (v_blockNumber s) (v_lastAddBlockNumberTime s)
  (v_maxExecutedBlockNumber s) (v_Step s) (v_executing s) (v_viewChanges s)
  (v_lastViewChangeQC s) (v_hadSendVoteNumber s) (v_hadSendVoteLast s)
  (v_hadSendPreCommitNumber s) (v_hadSendPreCommitLast s) (v_viewBlocks s) (v_viewQCs
  s) (v_viewPreCommitQCs s) (v_viewPreCommitQC s) (v_viewPrepareVoteQC s) (v_viewVotes
  s) (v_viewPreCommits s) (v_highestQCBlock s) (v_highestLockBlock s)
  (v_highestCommitBlock s) (v_highestPreCommitQCBlock s) x.

(** [NewViewState] and [newView], with the block that the highest blocks are
    set to when the engine starts. *)
Definition NewViewState (period now : Z) (block : Block) : ViewState :=
  mkVS 0 0 1 (now / 1000000000) 0 0 (mkExecuting MaxUint32 false) ∅ None 0 None 0 None
    newViewBlocks newViewQCs newViewQCs None None ∅ ∅
    block block block block (newViewTimer period).

(** [view.Reset] *)
Definition viewReset (blockNumber : Z) (s : ViewState) : ViewState :=
  set_viewPreCommits (delete blockNumber (v_viewPreCommits s))
  (set_viewVotes (delete blockNumber (v_viewVotes s))
  (set_viewPreCommitQCs (vqClear blockNumber (v_viewPreCommitQCs s))
  (set_viewQCs (vqClear blockNumber (v_viewQCs s))
  (set_viewBlocks (vbClear blockNumber (v_viewBlocks s))
  (set_viewPreCommitQC None (set_viewPrepareVoteQC None
  (set_viewChanges ∅ (set_executing (mkExecuting MaxUint32 false)
  (set_maxExecutedBlockNumber 0 (set_blockNumber 1
  (set_viewNumber 0 (set_epoch 0 s)))))))))))).

Definition ResetView (epoch viewNumber blockNumber : Z) (s : ViewState) : ViewState :=
  set_Step 0 (set_blockNumber blockNumber (set_viewNumber viewNumber
    (set_epoch epoch (viewReset blockNumber s)))).

(** The time of a new height is kept in seconds. *)
Definition SetBlockNumber (now blockNumber : Z) (s : ViewState) : ViewState :=
  set_lastAddBlockNumberTime (now / 1000000000) (set_blockNumber blockNumber s).

Definition AddBlockNumber (now : Z) (qc : QuorumCert) (s : ViewState) : ViewState :=
  SetBlockNumber now (u64 (qc_BlockNumber qc + 1)) s.

Definition AddHadSendVoteNumber (number : Z) (vote : PrepareVote) (s : ViewState) : ViewState :=
  set_hadSendVoteNumber number (set_hadSendVoteLast (Some vote) s).

Definition AddHadSendPreCommitNumber (number : Z) (vote : PreCommit) (s : ViewState) : ViewState :=
  set_hadSendPreCommitNumber number (set_hadSendPreCommitLast (Some vote) s).

Definition SetMaxExecutedBlockNumber (blockNumber : Z) (s : ViewState) : ViewState :=
  if v_maxExecutedBlockNumber s <? blockNumber
  then set_maxExecutedBlockNumber blockNumber s else s.

(** *** Queries *)

Definition NextViewBlockIndex (s : ViewState) : Z :=
  if vb_IsProduced (v_viewBlocks s) then 1 else 0.

Definition MaxQCIndex (s : ViewState) : Z :=
  if vq_IsProduced (v_viewPreCommitQCs s) then 0 else MaxUint32.

Definition HadPrepareVoteQC (s : ViewState) (hash number : Z) : bool :=
  match vq_QCs (v_viewQCs s) !! number with
  | Some qc => (qc_BlockHash qc =? hash) && (qc_BlockNumber qc =? number)
  | None => false
  end.

Definition HadPreCommitQC (s : ViewState) (hash number : Z) : bool :=
  match vq_QCs (v_viewPreCommitQCs s) !! number with
  | Some qc => (qc_BlockHash qc =? hash) && (qc_BlockNumber qc =? number)
  | None => false
  end.

Definition AllPrepareVoteByNumber (s : ViewState) (blockNumber : Z) : gmap Z PrepareVote :=
  default ∅ (v_viewVotes s !! blockNumber).
Definition AllPreCommitByNumber (s : ViewState) (blockNumber : Z) : gmap Z PreCommit :=
  default ∅ (v_viewPreCommits s !! blockNumber).

Definition PrepareVoteLenByNumber (s : ViewState) (blockNumber : Z) : Z :=
  Z.of_nat (size (AllPrepareVoteByNumber s blockNumber)).
Definition PreCommitLenByNumber (s : ViewState) (blockNumber : Z) : Z :=
  Z.of_nat (size (AllPreCommitByNumber s blockNumber)).

Definition ViewBlockByIndex (s : ViewState) (number : Z) : option Block :=
  vbBlock <$> vb_Blocks (v_viewBlocks s) !! number.

Definition PrepareBlockByIndex (s : ViewState) (number : Z) : option PrepareBlock :=
  vb_Blocks (v_viewBlocks s) !! number ≫= vbPrepareBlock.

(** Has a vote of this height, epoch and view, or a later one, been sent? *)
Definition hadSend (number lastEpoch lastView : Z) (last : bool)
    (blockNumber epoch viewNumber : Z) : bool :=
  if number <? blockNumber then false
  else if blockNumber <? number then true
  else if negb last then false
  else (epoch <? lastEpoch) || ((lastEpoch =? epoch) && (viewNumber <=? lastView)).

Definition HadSendPreVoteAt (s : ViewState) (blockNumber epoch viewNumber : Z) : bool :=
  match v_hadSendVoteLast s with
  | Some l => hadSend (v_hadSendVoteNumber s) (pv_Epoch l) (pv_ViewNumber l) true
                blockNumber epoch viewNumber
  | None => hadSend (v_hadSendVoteNumber s) 0 0 false blockNumber epoch viewNumber
  end.

Definition HadSendPreVoteByQC (s : ViewState) (qc : QuorumCert) : bool :=
  HadSendPreVoteAt s (qc_BlockNumber qc) (qc_Epoch qc) (qc_ViewNumber qc).

Definition HadSendPreVote (s : ViewState) (vote : PrepareVote) : bool :=
  HadSendPreVoteAt s (pv_BlockNumber vote) (pv_Epoch vote) (pv_ViewNumber vote).

Definition HadSendPreCommit (s : ViewState) (vote : PreCommit) : bool :=
  match v_hadSendPreCommitLast s with
  | Some l => hadSend (v_hadSendPreCommitNumber s) (pc_Epoch l) (pc_ViewNumber l) true
                (pc_BlockNumber vote) (pc_Epoch vote) (pc_ViewNumber vote)
  | None => hadSend (v_hadSendPreCommitNumber s) 0 0 false
                (pc_BlockNumber vote) (pc_Epoch vote) (pc_ViewNumber vote)
  end.

Definition FindPrepareVote (s : ViewState) (blockNumber validatorIndex : Z) : option PrepareVote :=
  AllPrepareVoteByNumber s blockNumber !! validatorIndex.
Definition FindPreCommit (s : ViewState) (blockNumber validatorIndex : Z) : option PreCommit :=
  AllPreCommitByNumber s blockNumber !! validatorIndex.

Definition ViewBlockAndQC (s : ViewState) (blockNumber : Z) : option Block * option QuorumCert :=
  (ViewBlockByIndex s blockNumber, vq_QCs (v_viewQCs s) !! blockNumber).
Definition ViewBlockAndPreCommitQC (s : ViewState) (blockNumber : Z) :
    option Block * option QuorumCert :=
  (ViewBlockByIndex s blockNumber, vq_QCs (v_viewPreCommitQCs s) !! blockNumber).

Definition ViewChangeLen (s : ViewState) : Z := Z.of_nat (size (v_viewChanges s)).

Section updates.
Context `{Crypto}.

(** [FindBlock] looks for a hash among the blocks of the view. *)
Definition FindBlock (s : ViewState) (hash number : Z) : option Block :=
  head (base.filter (λ b, Hash b = hash ∧ bNumber b = number)
         (vbBlock <$> (map_to_list (vb_Blocks (v_viewBlocks s))).*2)).

(** *** Additions *)

Definition AddPrepareBlock (pb : PrepareBlock) (s : ViewState) : ViewState :=
  set_viewBlocks (addBlock (prepareViewBlock pb) (v_viewBlocks s)) s.

Definition AddQCBlock (block : Block) (qc : option QuorumCert) (s : ViewState) : ViewState :=
  set_viewBlocks (addBlock (qcBlock block qc) (v_viewBlocks s)) s.

(** A certificate of another step is kept as one of the vote step. *)
Definition AddQC (qc : QuorumCert) (s : ViewState) : ViewState :=
  let qc := if qc_Step qc =? RoundStepPrepareVote then qc
            else mkQC (qc_Epoch qc) (qc_ViewNumber qc) (qc_BlockHash qc)
                   (qc_BlockNumber qc) (qc_BlockIndex qc) RoundStepPrepareVote
                   (qc_Signature qc) (qc_ValidatorSet qc) in
  set_viewQCs (addQC qc (v_viewQCs s)) s.

Definition AddPreCommitQC (qc : QuorumCert) (s : ViewState) : ViewState :=
  set_viewPreCommitQCs (addQC qc (v_viewPreCommitQCs s)) s.

Definition AddPrepareVote (id : Z) (vote : PrepareVote) (s : ViewState) : ViewState :=
  set_viewVotes (addVoteAt (pv_BlockNumber vote) id vote (v_viewVotes s)) s.

Definition AddPreCommit (id : Z) (vote : PreCommit) (s : ViewState) : ViewState :=
  set_viewPreCommits (addVoteAt (pc_BlockNumber vote) id vote (v_viewPreCommits s)) s.

Definition AddViewChange (id : Z) (vc : ViewChange) (s : ViewState) : ViewState :=
  set_viewChanges (<[id := vc]> (v_viewChanges s)) s.

Definition SetViewTimer (now viewInterval : Z) (s : ViewState) : ViewState :=
  set_viewTimer (setupTimer now viewInterval (v_viewTimer s)) s.

Definition IsDeadline (now : Z) (s : ViewState) : bool := isDeadline now (v_viewTimer s).
End updates.
