(* ===== verification/PbftRules.v ===== *)
(** The rules that a message must meet before a node acts on it.

    Models consensus/pbft/rules/safety_rules.go and vote_rules.go.  A rule
    answers no error, or an error of one of five classes that decide what
    the handler does next; a rule that reads through a nil pointer panics. *)

From S2P Require Import Prelude BitArray PbftTypes PbftValidators BlockTree PbftState.

(** The flags of [safetyError]; [PlainError] has none of them. *)
Inductive SafetyError :=
  | CommonError
  | FetchError
  | ViewError
  | FetchPrepareError
  | PlainError.

#[export] Instance SafetyError_eq_dec : EqDecision SafetyError.
Proof. solve_decision. Defined.

Section rules.
Context `{Crypto}.
(** The number of blocks of a view, the present time, and the objects that
    [baseSafetyRules] holds. *)
Context (Amount now : Z) (s : ViewState) (t : BlockTree) (vp : ValidatorPool).

(** ** Proposals *)

Section prepare_block.
Context (m : PrepareBlock).
Let block := pb_Block m.

Definition isCommitChild : bool :=
  match FindBlockByHash t (bParentHash block) with
  | None => false
  | Some parent => bNumber parent =? bNumber (v_highestPreCommitQCBlock s)
  end.

Definition isLockChild : bool :=
  (bNumber block =? u64 (bNumber (v_highestLockBlock s) + 1))
  && (bParentHash block =? Hash (v_highestLockBlock s))
  && bool_decide (is_Some (FindBlockByHash t (bParentHash block))).

Definition acceptViewChangeQC : bool :=
  match pb_ViewChangeQC m with
  | None =>
      (Amount =? u32 (MaxQCIndex s + 1)) || EqualSwitchPoint vp (u64 (bNumber block - 1))
  | Some v =>
      (u64 (mb_BlockNumber (MaxBlock v) + 1) =? bNumber block)
      && (bParentHash block =? mb_BlockHash (MaxBlock v))
  end.

Definition isFirstBlock : bool := pb_BlockIndex m =? 0.

Definition doubtDuplicateBlock : bool :=
  match ViewBlockByIndex s (bNumber block) with
  | Some local => (bNumber local =? bNumber block) && negb (Hash local =? Hash block)
  | None => false
  end.

(** Block times are in milliseconds; a proposal may be one second ahead. *)
Definition acceptBlockTime : option SafetyError :=
  match FindBlockByHash t (bParentHash block) with
  | None => Some CommonError
  | Some parent =>
      if bTime block <? bTime parent then Some CommonError
      else if (now + 1000 * 1000000) / 1000000 <? bTime block then Some CommonError
      else None
  end.

Definition acceptIndexBlock : option SafetyError :=
  if Amount <=? pb_BlockIndex m then Some CommonError
  else if doubtDuplicateBlock then None
  else if bool_decide (is_Some (ViewBlockByIndex s (bNumber block))) then Some CommonError
  else if isFirstBlock then
    if negb isCommitChild && negb isLockChild then Some CommonError else acceptBlockTime
  else acceptBlockTime.

Definition changeEpochBlockRules : option SafetyError :=
  if pb_Epoch m <? v_epoch s then Some CommonError
  else if isFirstBlock && acceptViewChangeQC && isCommitChild then Some ViewError
  else match FindBlockAndQC t (bParentHash block) (u64 (bNumber block - 1)) with
  | None => Some CommonError
  | Some _ => Some FetchError
  end.

Definition PrepareBlockRules : option SafetyError :=
  if negb (v_epoch s =? pb_Epoch m) then changeEpochBlockRules
  else if bNumber block <? v_blockNumber s then Some CommonError
  else if (v_blockNumber s <? bNumber block) && (1 <? bNumber block)
          && bool_decide (FindBlockAndQC t (bParentHash block) (u64 (bNumber block - 1)) = None)
  then Some FetchError
  else if pb_ViewNumber m <? v_viewNumber s then Some CommonError
  else if v_viewNumber s <? pb_ViewNumber m then
    if (isCommitChild || isLockChild) && acceptViewChangeQC then Some ViewError
    else Some FetchError
  else match acceptIndexBlock with
  | Some e => Some e
  | None => if IsDeadline now s then Some CommonError else None
  end.
End prepare_block.

(** ** Votes *)

(** What the rules of the two votes read of them: [PrepareVoteRules] and
    [PreCommitRules] are the same function of these. *)
Record VoteView := mkVoteView {
  vw_Epoch : Z;
  vw_ViewNumber : Z;
  vw_BlockHash : Z;
  vw_BlockNumber : Z;
  vw_BlockIndex : Z;
  vw_ParentQC : option QuorumCert;
  (* the number and hash of the vote that the view holds of the same validator *)
  vw_local : option (Z * Z);
}.

Definition existsPrepare (v : VoteView) : bool :=
  match ViewBlockByIndex s (vw_BlockNumber v) with
  | Some b => (bNumber b =? vw_BlockNumber v) && (Hash b =? vw_BlockHash v)
  | None => false
  end.

Definition doubtDuplicateVote (v : VoteView) : bool :=
  match vw_local v with
  | Some (n, h) => (n =? vw_BlockNumber v) && negb (h =? vw_BlockHash v)
  | None => false
  end.

Definition acceptIndexVote (v : VoteView) : option SafetyError :=
  if Amount <=? vw_BlockIndex v then Some CommonError
  else if doubtDuplicateVote v then None
  else if bool_decide (is_Some (vw_local v)) then Some CommonError
  else if negb (existsPrepare v) then Some FetchPrepareError
  else None.

(** [changeEpochVoteRules], [changeEpochPreCommitRules] and
    [changeEpochViewChangeRules] *)
Definition changeEpochRules (epoch : Z) : option SafetyError :=
  if epoch <? v_epoch s then Some CommonError else Some FetchError.

Definition alreadyQCBlock (v : VoteView) : bool :=
  bool_decide (is_Some (FindBlockByHash t (vw_BlockHash v)))
  || (vw_BlockNumber v <=? bNumber (v_highestPreCommitQCBlock s)).

(** A vote above the height of the node is read for its parent's certificate,
    which may be nil. *)
Definition voteParent (v : VoteView) : outcome bool :=
  if (v_blockNumber s <? vw_BlockNumber v) && (1 <? vw_BlockNumber v) then
    match vw_ParentQC v with
    | None => Panic
    | Some qc =>
        Ok (bool_decide (FindBlockAndQC t (qc_BlockHash qc) (u64 (vw_BlockNumber v - 1)) = None))
    end
  else Ok false.

Definition voteRules (v : VoteView) : outcome (option SafetyError) :=
  if alreadyQCBlock v then Ok (Some CommonError)
  else if negb (v_epoch s =? vw_Epoch v) then Ok (changeEpochRules (vw_Epoch v))
  else if vw_BlockNumber v <? v_blockNumber s then Ok (Some CommonError)
  else
    missing ← voteParent v;
    if missing : bool then Ok (Some FetchError)
    else if negb (v_viewNumber s =? vw_ViewNumber v) then Ok (Some CommonError)
    else match acceptIndexVote v with
    | Some e => Ok (Some e)
    | None => if IsDeadline now s then Ok (Some CommonError) else Ok None
    end.

Definition PrepareVoteRules (m : PrepareVote) : outcome (option SafetyError) :=
  voteRules (mkVoteView (pv_Epoch m) (pv_ViewNumber m) (pv_BlockHash m) (pv_BlockNumber m)
    (pv_BlockIndex m) (pv_ParentQC m)
    ((λ l, (pv_BlockNumber l, pv_BlockHash l))
       <$> FindPrepareVote s (pv_BlockNumber m) (pv_ValidatorIndex m))).

Definition PreCommitRules (m : PreCommit) : outcome (option SafetyError) :=
  voteRules (mkVoteView (pc_Epoch m) (pc_ViewNumber m) (pc_BlockHash m) (pc_BlockNumber m)
    (pc_BlockIndex m) (pc_ParentQC m)
    ((λ l, (pc_BlockNumber l, pc_BlockHash l))
       <$> FindPreCommit s (pc_BlockNumber m) (pc_ValidatorIndex m))).

(** ** View changes and certified blocks *)

Definition ViewChangeRules (m : ViewChange) : outcome (option SafetyError) :=
  if negb (v_epoch s =? vc_Epoch m) then Ok (changeEpochRules (vc_Epoch m))
  else if vc_BlockNumber m <? bNumber (v_highestCommitBlock s) then Ok (Some CommonError)
  else
    missing ←
      (if (bNumber (v_highestCommitBlock s) <? vc_BlockNumber m) && (0 <? vc_BlockNumber m)
       then match vc_PrepareQC m with
            | None => Panic
            | Some qc =>
                Ok (bool_decide (FindBlockAndQC t (qc_BlockHash qc) (vc_BlockNumber m) = None))
            end
       else Ok false);
    if missing : bool then Ok (Some FetchError)
    else if negb (v_viewNumber s =? vc_ViewNumber m) then Ok (Some CommonError)
    else Ok None.

Definition QCBlockRules (block : Block) (qc : QuorumCert) : option SafetyError :=
  match FindBlockByHash t (bParentHash block) with
  | None => Some PlainError
  | Some _ => if u64 (v_epoch s + 1) =? qc_Epoch qc then Some ViewError else None
  end.

(** ** Sending votes *)

Definition AllowVote (m : PrepareVote) : bool :=
  negb (negb (v_blockNumber s =? pv_BlockNumber m) || negb (v_viewNumber s =? pv_ViewNumber m))
  && negb (HadSendPreVote s m).

Definition AllowPreCommit (m : PreCommit) : bool :=
  negb (negb (v_blockNumber s =? pc_BlockNumber m) || negb (v_viewNumber s =? pc_ViewNumber m))
  && negb (HadSendPreCommit s m).
End rules.
