(* ===== verification/PbftNode.v ===== *)
(** A node of the PBFT engine: its state, and how it verifies and signs.

    Models the structure [Pbft] of consensus/pbft/pbft.go with its helpers:
    proposers and thresholds, the verification of signatures, certificates
    and messages, and the certificates made of stored votes.  What a node
    sends, executes and commits is appended to the list of its outputs.  The
    transaction pool, the write-ahead log, metrics and the pool of messages
    that are delivered again are not modelled; the peer with the empty name
    is the number 0.  Go walks through maps in a random order; the model
    takes the order of [map_to_list]. *)

From S2P Require Import Prelude BitArray PbftTypes PbftValidators BlockTree PbftEvidence PbftState PbftRules.

(** An error for which [AuthFailed] is true. *)
Definition authFailed : Error := BizError 1.

(** ** Messages that are not signed as a whole *)

Inductive NetMsg :=
  | NConsensus (m : ConsensusMsg)
  | NBlockQuorumCert (qc : QuorumCert)
  | NBlockPreCommitQuorumCert (qc : QuorumCert)
  | NGetPrepareBlock (epoch blockNumber viewNumber blockIndex : Z)
  | NGetBlockQuorumCert (blockHash blockNumber : Z)
  | NGetBlockPreCommitQuorumCert (blockHash blockNumber : Z)
  | NGetQCBlockList (epoch blockHash blockNumber : Z)
  | NQCBlockList (qcs : list QuorumCert) (blocks : list Block)
      (forkedQCs : list (option QuorumCert)) (forkedBlocks : list Block)
  | NPrepareVotes (epoch viewNumber blockIndex : Z) (votes : list PrepareVote)
  | NPreCommits (epoch viewNumber blockIndex : Z) (votes : list PreCommit)
  | NGetViewChange (epoch blockNumber viewNumber : Z) (bits : option BitArray)
  | NViewChangeQuorumCert (qc : ViewChangeQC) (highest : option ViewChangeQC)
  | NViewChanges (vcs : list ViewChange)
  | NLatestStatus (blockNumber blockHash : Z) (qc : option QuorumCert)
      (lBlockNumber lBlockHash : Z) (lqc : option QuorumCert) (logicType : Z).

(** ** The node *)

Inductive Output :=
  (* a message to all peers, or to one *)
  | OBroadcast (m : NetMsg)
  | OSend (id : Z) (m : NetMsg)
  (* a view change whose signature leaves the node inside a certificate *)
  | ORelease (v : ViewChange)
  (* a block for the executor *)
  | OExecute (block parent : Block)
  (* a certified block has entered the tree; the code writes this to its log *)
  | OInserted (block : Block) (qc : QuorumCert)
  (* a final block with its certificate, for the chain *)
  | OCommit (block : Block) (qc : option QuorumCert)
  (* the state that is written for the last three blocks: [UpdateChainState] *)
  | OChainState (qc lock commit : option Block * option QuorumCert)
  (* the transactions of a block leave the pool, or come back to it *)
  | OReset (block : Block)
  | OForkedReset (head : Block) (rollback : list Block)
  | OValidators (events : list ValidatorEvent).

(** [config.Sys] and [config.Option]. *)
Record Config `{Crypto} := mkConfig {
  cf_Amount : Z;
  cf_Period : Z;
  cf_NodeID : Z;
  cf_BlsPriKey : SecretKey;
}.

Section node.
Context `{Crypto} `{!Agency}.

Record Node := mkNode {
  n_state : ViewState;
  n_tree : BlockTree;
  n_pool : ValidatorPool;
  n_ev : EvidencePool;
  (* [syncingCache.items], keyed by a height or by a hash *)
  n_sync : gmap (Z + Z) Z;
  (* the fetcher has a task *)
  n_fetching : bool;
  n_out : list Output;
}.

Definition setState (x : ViewState) (n : Node) : Node :=
  mkNode x (n_tree n) (n_pool n) (n_ev n) (n_sync n) (n_fetching n) (n_out n).
Definition setTree (x : BlockTree) (n : Node) : Node :=
  mkNode (n_state n) x (n_pool n) (n_ev n) (n_sync n) (n_fetching n) (n_out n).
Definition setPool (x : ValidatorPool) (n : Node) : Node :=
  mkNode (n_state n) (n_tree n) x (n_ev n) (n_sync n) (n_fetching n) (n_out n).
Definition setEv (x : EvidencePool) (n : Node) : Node :=
  mkNode (n_state n) (n_tree n) (n_pool n) x (n_sync n) (n_fetching n) (n_out n).
Definition setSync (x : gmap (Z + Z) Z) (n : Node) : Node :=
  mkNode (n_state n) (n_tree n) (n_pool n) (n_ev n) x (n_fetching n) (n_out n).
Definition setFetching (x : bool) (n : Node) : Node :=
  mkNode (n_state n) (n_tree n) (n_pool n) (n_ev n) (n_sync n) x (n_out n).
Definition setOut (x : list Output) (n : Node) : Node :=
  mkNode (n_state n) (n_tree n) (n_pool n) (n_ev n) (n_sync n) (n_fetching n) x.

Definition stateOf : M Node ViewState := gets n_state.
Definition treeOf : M Node BlockTree := gets n_tree.
Definition poolOf : M Node ValidatorPool := gets n_pool.

Definition updState (f : ViewState → ViewState) : M Node unit :=
  modify (λ n, setState (f (n_state n)) n).
Definition emit (o : Output) : M Node unit := modify (λ n, setOut (n_out n ++ [o]) n).

(** An operation of the tree as one of the node. *)
Definition onTree {A} (m : M BlockTree A) : M Node A := λ n,
  let '(r, t) := m (n_tree n) in (r, setTree t n).

(** A pointer that is read through. *)
Definition must {A} (o : option A) : M Node A :=
  match o with Some a => mret a | None => panic end.

Context (cfg : Config) (now : Z).

(** [FindBlockAndQC] of the node's tree, as the two results of the code. *)
Definition findBlock (hash number : Z) : M Node (option Block * option QuorumCert) :=
  t ← treeOf;
  mret (match FindBlockAndQC t hash number with
        | Some (b, qc) => (Some b, qc)
        | None => (None, None)
        end).

(** ** Thresholds and proposers *)

Definition threshold (num : Z) : Z := num - Z.quot (num - 1) 3.

Definition currentValidatorLen : M Node Z :=
  s ← stateOf; vp ← poolOf; ask (vpLen vp (v_epoch s)).

Definition CalCurrentProposerWithBlockNumber (s : ViewState) (blockNumber numValidators : Z) :
    outcome Z :=
  if numValidators =? 0 then Panic
  else Ok (u64 (blockNumber - 1 + v_viewNumber s / 10) mod numValidators).

Definition CalCurrentProposer (s : ViewState) (numValidators : Z) : outcome Z :=
  CalCurrentProposerWithBlockNumber s (v_blockNumber s) numValidators.

Definition isCurrentValidator : M Node ValidateNode :=
  s ← stateOf; vp ← poolOf; ask (GetValidatorByNodeID vp (v_epoch s) (cf_NodeID cfg)).

(** The error of the lookup is dropped and the nil pointer read. *)
Definition currentProposer : M Node ValidateNode :=
  s ← stateOf; vp ← poolOf;
  len ← ask (vpLen vp (v_epoch s));
  i ← ask (CalCurrentProposer s len);
  r ← try (ask (GetValidatorByIndex vp (v_epoch s) (u32 i)));
  match r with inl v => mret v | inr _ => panic end.

Definition isProposer (epoch blockNumber nodeIndex : Z) : M Node bool :=
  s ← stateOf; vp ← poolOf;
  match EnableVerifyEpoch vp epoch with
  | Ok _ =>
      len ← ask (vpLen vp epoch);
      index ← (if 0 <? blockNumber
               then ask (CalCurrentProposerWithBlockNumber s blockNumber len) else mret 0);
      r ← try (ask (GetValidatorByIndex vp epoch (u32 index)));
      match r with
      | inl v => mret (vn_Index v =? nodeIndex)
      | inr _ => mret false
      end
  | _ => mret false
  end.

(** ** Signing *)

Definition signature (d : list Z) : Z := signSerialize (signWith (cf_BlsPriKey cfg) d).

Definition signPrepareBlock (m : PrepareBlock) : PrepareBlock :=
  pbSetSign m (signature (pbDigest m)).
Definition signPrepareVote (m : PrepareVote) : PrepareVote :=
  pvSetSign m (signature (pvDigest m)).
Definition signPreCommit (m : PreCommit) : PreCommit :=
  pcSetSign m (signature (pcDigest m)).
Definition signViewChange (m : ViewChange) : ViewChange :=
  vcSetSign m (signature (vcDigest m)).

(** ** Verification *)

Definition VerifyHeader (b : Block) : outcome unit :=
  if headerOk b && agencyVerifyHeader b then Ok tt else Err GenericError.

Definition verifyConsensusSign (vp : ValidatorPool) (m : ConsensusMsg) : outcome unit :=
  EnableVerifyEpoch vp (EpochNum m) ≫= λ _,
  match vpVerify vp (EpochNum m) (NodeIndex m) (CannibalizeBytes m) (msgSign m) with
  | Ok _ => Ok tt
  | Err _ => Err authFailed
  | Panic => Panic
  end.

(** The last argument of the code, the step, is not used. *)
Definition verifyPrepareQC (vp : ValidatorPool) (oriNum oriHash : Z)
    (qc : option QuorumCert) : outcome unit :=
  match qc with
  | None => Err GenericError
  | Some qc =>
      EnableVerifyEpoch vp (qc_Epoch qc) ≫= λ _,
      len ← vpLen vp (qc_Epoch qc);
      signsTotal ← qcLen qc;
      reject (signsTotal <? threshold len) authFailed ≫= λ _,
      reject (negb (oriNum =? qc_BlockNumber qc) || negb (oriHash =? qc_BlockHash qc))
        authFailed ≫= λ _,
      match VerifyAggSigByBA vp (qc_Epoch qc) (qc_ValidatorSet qc) (qcDigest qc)
              (qc_Signature qc) with
      | Ok _ => Ok tt
      | Err _ => Err authFailed
      | Panic => Panic
      end
  end.

(** The certificates are of one view and of different blocks. *)
Fixpoint oneView (epoch viewNumber : Z) (seen : list Z) (v : ViewChangeQC) : bool :=
  match v with
  | [] => true
  | q :: v =>
      (vq_Epoch q =? epoch) && (vq_ViewNumber q =? viewNumber)
      && negb (bool_decide (vq_BlockHash q ∈ seen))
      && oneView epoch viewNumber (vq_BlockHash q :: seen) v
  end.

Definition validateViewChangeQC (vp : ValidatorPool) (v : ViewChangeQC) : outcome unit :=
  maxLimit ← vpLen vp (mb_Epoch (MaxBlock v));
  reject (maxLimit <? Z.of_nat (length v)) GenericError ≫= λ _,
  signsTotal ← vcqcLen v;
  reject (signsTotal <? threshold maxLimit) GenericError ≫= λ _,
  match v with
  | [] => Ok tt
  | q :: _ =>
      if oneView (vq_Epoch q) (vq_ViewNumber q) [] v then Ok tt else Err GenericError
  end.

Fixpoint verifyCerts (vp : ValidatorPool) (v : ViewChangeQC) : outcome unit :=
  match v with
  | [] => Ok tt
  | q :: v =>
      match VerifyAggSigByBA vp (vq_Epoch q) (vq_ValidatorSet q) (vqDigest q)
              (vq_Signature q) with
      | Ok _ => verifyCerts vp v
      | Err _ => Err authFailed
      | Panic => Panic
      end
  end.

Definition verifyViewChangeQC (vp : ValidatorPool) (v : ViewChangeQC) : outcome unit :=
  EnableVerifyEpoch vp (mb_Epoch (MaxBlock v)) ≫= λ _,
  validateViewChangeQC vp v ≫= λ _,
  verifyCerts vp v.

Definition checkViewChangeQC (vp : ValidatorPool) (pb : PrepareBlock) : outcome unit :=
  match pb_ViewChangeQC pb with
  | None => Ok tt
  | Some v =>
      reject (negb ((bNumber (pb_Block pb) =? u64 (mb_BlockNumber (MaxBlock v) + 1))
                    && (bParentHash (pb_Block pb) =? mb_BlockHash (MaxBlock v))))
        authFailed ≫= λ _,
      verifyViewChangeQC vp v
  end.

(** Must the message carry a certificate? *)
Definition checkPrepareQC (m : ConsensusMsg) : outcome unit :=
  match m with
  | MPrepareBlock m =>
      reject (((bNumber (pb_Block m) =? 1) || (pb_ViewNumber m =? 0))
              && bool_decide (is_Some (pb_PrepareQC m))) authFailed
  | MPrepareVote m =>
      reject ((1 <? pv_BlockNumber m) && bool_decide (pv_ParentQC m = None)) authFailed
  | MPreCommit m =>
      reject ((1 <? pc_BlockNumber m) && bool_decide (pc_ParentQC m = None)) authFailed
  | MViewChange m =>
      reject ((1 <? vc_BlockNumber m) && bool_decide (vc_PrepareQC m = None)) authFailed
  end.

(** Record a message with the evidence pool; a duplicate is an error. *)
Definition doubtDuplicate (m : ConsensusMsg) (node : ValidateNode) : M Node unit :=
  n ← get;
  let '(ev, d) := match m with
    | MPrepareBlock m => evAddPrepareBlock (n_ev n) m node
    | MPrepareVote m => evAddPrepareVote (n_ev n) m node
    | MPreCommit m => evAddPreCommit (n_ev n) m node
    | MViewChange m => evAddViewChange (n_ev n) m node
    end in
  modify (setEv ev) ≫= λ _,
  match d with None => mret tt | Some _ => fail GenericError end.

(** The certificate of the parent that a vote carries, against the parent in
    the tree. *)
Definition verifyParentQC (blockNumber : Z) (qc : option QuorumCert) : M Node unit :=
  q ← must qc;
  '(_, localQC) ← findBlock (qc_BlockHash q) (u64 (blockNumber - 1));
  match localQC with
  | None => fail GenericError
  | Some l =>
      vp ← poolOf;
      ask (verifyPrepareQC vp (qc_BlockNumber l) (qc_BlockHash l) (Some q))
  end.

Definition verifyConsensusMsg (m : ConsensusMsg) : M Node ValidateNode :=
  ask (checkPrepareQC m) ≫= λ _,
  vp ← poolOf;
  ask (verifyConsensusSign vp m) ≫= λ _,
  r ← try (ask (GetValidatorByIndex vp (EpochNum m) (NodeIndex m)));
  match r with
  | inr _ => fail authFailed
  | inl vnode =>
      doubtDuplicate m vnode ≫= λ _,
      (match m with
       | MPrepareBlock pb =>
           proposer ← currentProposer;
           if negb (vn_Index proposer =? NodeIndex m) then fail GenericError
           else if (bNumber (pb_Block pb) =? 1) || negb (pb_BlockIndex pb =? 0) then mret tt
           else ask (checkViewChangeQC vp pb)
       | MPrepareVote pv =>
           if pv_BlockNumber pv =? 1 then mret tt
           else verifyParentQC (pv_BlockNumber pv) (pv_ParentQC pv)
       | MPreCommit pc =>
           if pc_BlockNumber pc =? 1 then mret tt
           else verifyParentQC (pc_BlockNumber pc) (pc_ParentQC pc)
       | MViewChange vc =>
           if vc_BlockNumber vc =? 0 then mret tt
           else ask (verifyPrepareQC vp (vc_BlockNumber vc) (vc_BlockHash vc) (vc_PrepareQC vc))
       end) ≫= λ _,
      mret vnode
  end.

(** ** Certificates made of votes *)

(** Add a signature and its signer to the aggregate. *)
Definition aggregate (agg : Sign) (vSet : option BitArray) (index sign : Z) :
    outcome (option (Sign * option BitArray)) :=
  match signDeserialize sign with
  | None => Ok None
  | Some sig => r ← SetIndex vSet index true; Ok (Some (signAdd agg sig, r.2))
  end.

(** The loops over the votes, which stop at a vote that differs from the
    first. *)
Fixpoint aggVotes (vote : PrepareVote) (votes : list PrepareVote)
    (agg : Sign) (vSet : option BitArray) : outcome (option (Sign * option BitArray)) :=
  match votes with
  | [] => Ok (Some (agg, vSet))
  | p :: votes =>
      if negb (pvEqualState vote p) then Ok None
      else if pv_ValidatorIndex p =? pv_ValidatorIndex vote then aggVotes vote votes agg vSet
      else
        r ← aggregate agg vSet (pv_ValidatorIndex p) (pv_Signature p);
        match r with
        | None => Ok None
        | Some (agg, vSet) => aggVotes vote votes agg vSet
        end
  end.

Fixpoint aggPreCommits (vote : PreCommit) (votes : list PreCommit)
    (agg : Sign) (vSet : option BitArray) : outcome (option (Sign * option BitArray)) :=
  match votes with
  | [] => Ok (Some (agg, vSet))
  | p :: votes =>
      if negb (pcEqualState vote p) then Ok None
      else if pc_ValidatorIndex p =? pc_ValidatorIndex vote then aggPreCommits vote votes agg vSet
      else
        r ← aggregate agg vSet (pc_ValidatorIndex p) (pc_Signature p);
        match r with
        | None => Ok None
        | Some (agg, vSet) => aggPreCommits vote votes agg vSet
        end
  end.

Definition generatePrepareQC (total : Z) (votes : gmap Z PrepareVote) :
    outcome (option QuorumCert) :=
  let l := (map_to_list votes).*2 in
  match l with
  | [] => Ok None
  | vote :: _ =>
      vSet ← SetIndex (NewBitArray (u32 total)) (pv_ValidatorIndex vote) true;
      match signDeserialize (pv_Signature vote) with
      | None => Ok None
      | Some aggSig =>
          r ← aggVotes vote l aggSig vSet.2;
          Ok (match r with
              | None => None
              | Some (agg, set) =>
                  Some (mkQC (pv_Epoch vote) (pv_ViewNumber vote) (pv_BlockHash vote)
                    (pv_BlockNumber vote) (pv_BlockIndex vote) RoundStepPrepareVote
                    (signSerialize agg) (Update (NewBitArray (Size vSet.2)) set))
              end)
      end
  end.

Definition generatePreCommitQC (total : Z) (votes : gmap Z PreCommit) :
    outcome (option QuorumCert) :=
  let l := (map_to_list votes).*2 in
  match l with
  | [] => Ok None
  | vote :: _ =>
      vSet ← SetIndex (NewBitArray (u32 total)) (pc_ValidatorIndex vote) true;
      match signDeserialize (pc_Signature vote) with
      | None => Ok None
      | Some aggSig =>
          r ← aggPreCommits vote l aggSig vSet.2;
          Ok (match r with
              | None => None
              | Some (agg, set) =>
                  Some (mkQC (pc_Epoch vote) (pc_ViewNumber vote) (pc_BlockHash vote)
                    (pc_BlockNumber vote) (pc_BlockIndex vote) RoundStepPreCommit
                    (signSerialize agg) (Update (NewBitArray (Size vSet.2)) set))
              end)
      end
  end.

(** A certificate under construction: the certificate without its signature,
    the aggregate and the signers. *)
Definition partialCert : Type := ViewChangeQuorumCert * Sign * option BitArray.

Definition certOf (v : ViewChange) (sign : Z) (set : option BitArray) : ViewChangeQuorumCert :=
  mkVQ (vc_Epoch v) (vc_ViewNumber v) (vc_BlockHash v) (vc_BlockNumber v)
       (vcBlockView v).1 (vcBlockView v).2 sign set.

(** One certificate for each block hash, [None] for a signature that cannot
    be read. *)
Fixpoint groupChanges (total : Z) (vcs : list ViewChange) (qcs : gmap Z partialCert) :
    outcome (option (gmap Z partialCert)) :=
  match vcs with
  | [] => Ok (Some qcs)
  | v :: vcs =>
      match signDeserialize (vc_Signature v) with
      | None => Ok None
      | Some sig =>
          match qcs !! vc_BlockHash v with
          | None =>
              r ← SetIndex (NewBitArray (u32 total)) (vc_ValidatorIndex v) true;
              groupChanges total vcs
                (<[vc_BlockHash v := (certOf v 0 (NewBitArray (u32 total)), sig, r.2)]> qcs)
          | Some (c, agg, ba) =>
              r ← SetIndex ba (vc_ValidatorIndex v) true;
              groupChanges total vcs (<[vc_BlockHash v := (c, signAdd agg sig, r.2)]> qcs)
          end
      end
  end.

Definition finishCert (p : partialCert) : ViewChangeQuorumCert :=
  let '(c, agg, ba) := p in
  mkVQ (vq_Epoch c) (vq_ViewNumber c) (vq_BlockHash c) (vq_BlockNumber c)
       (vq_BlockEpoch c) (vq_BlockViewNumber c) (signSerialize agg)
       (Update (vq_ValidatorSet c) ba).

Definition generateViewChangeQC (total : Z) (viewChanges : gmap Z ViewChange) :
    outcome (option ViewChangeQC) :=
  groupChanges total (map_to_list viewChanges).*2 ∅ ≫= λ r,
  Ok (match r with
      | None => None
      | Some qcs => Some (finishCert <$> (map_to_list qcs).*2)
      end).

Definition generateViewChangeQuorumCert (v : ViewChange) : M Node ViewChangeQuorumCert :=
  node ← isCurrentValidator;
  s ← stateOf; vp ← poolOf;
  total ← ask (vpLen vp (v_epoch s));
  match signDeserialize (vc_Signature v) with
  | None => fail GenericError
  | Some sig =>
      r ← ask (SetIndex (NewBitArray (u32 total)) (vn_Index node) true);
      mret (certOf v (signSerialize sig) r.2)
  end.

(** The view change that goes into a certificate leaves the node with it. *)
Definition generateViewChange (qc : QuorumCert) : M Node ViewChange :=
  node ← isCurrentValidator;
  s ← stateOf;
  let v := signViewChange (mkVC (v_epoch s) (v_viewNumber s) (qc_BlockHash qc)
             (qc_BlockNumber qc) (vn_Index node) (Some qc) 0) in
  emit (ORelease v) ≫= λ _, mret v.
End node.
