(* ===== verification/PbftEngine.v ===== *)
(** The consensus of the PBFT engine: from a proposal to a final block.

    Models consensus/pbft/consensus_process.go, and from sync_process.go the
    requests that it makes and from pbft.go the commit of a block.  A handler
    runs to its end before the next one starts, since [receiveLoop] calls all
    of them.  [log.Crit] ends the process, which is a panic here. *)

From S2P Require Import Prelude BitArray PbftTypes PbftValidators BlockTree PbftEvidence PbftState PbftRules PbftNode.

Section engine.
Context `{Crypto} `{!Agency} (cfg : Config) (now : Z).

Definition syncCacheTimeout : Z := 200 * 1000000.

(** ** Requests *)

Definition AddOrReplace (k : Z + Z) : M Node bool :=
  n ← get;
  let fresh := match n_sync n !! k with
               | Some t => now - t <? syncCacheTimeout
               | None => false
               end in
  if fresh then mret false
  else modify (setSync (<[k := now]> (n_sync n))) ≫= λ _, mret true.

Definition SyncPrepareBlock (id epoch blockNumber blockIndex viewNumber : Z) : M Node unit :=
  ok ← AddOrReplace (inl blockNumber);
  let msg := NGetPrepareBlock epoch blockNumber viewNumber blockIndex in
  if ok : bool then (if id =? 0 then emit (OBroadcast msg) else emit (OSend id msg)) else mret tt.

Definition SyncBlockQuorumCert (id blockNumber blockHash : Z) : M Node unit :=
  ok ← AddOrReplace (inr blockHash);
  if ok : bool then emit (OSend id (NGetBlockQuorumCert blockHash blockNumber)) else mret tt.

Definition SyncBlockPreCommitQuorumCert (id blockNumber blockHash : Z) : M Node unit :=
  ok ← AddOrReplace (inr blockHash);
  if ok : bool then emit (OSend id (NGetBlockPreCommitQuorumCert blockHash blockNumber))
  else mret tt.

(** Ask a peer for the blocks above the highest one.  A certificate that the
    request is made for is verified when it is of this epoch. *)
Definition fetchBlock (id hash number : Z) (qc : option QuorumCert) : M Node unit :=
  n ← get;
  let s := n_state n in
  let highest := v_highestPreCommitQCBlock s in
  if n_fetching n then mret tt
  else if u64 (bNumber highest + 2) <? number then mret tt
  else if negb (bNumber highest <? number) then mret tt
  else
    ok ← match qc with
         | Some q =>
             if qc_Epoch q =? v_epoch s then
               r ← try (ask (verifyPrepareQC (n_pool n) number hash qc));
               mret (match r with inl _ => true | inr _ => false end)
             else mret true
         | None => mret true
         end;
    if ok : bool then
      modify (setFetching true) ≫= λ _,
      emit (OSend id (NGetQCBlockList (v_epoch s) (Hash highest) (bNumber highest)))
    else mret tt.

(** [prepareVoteFetchRules] and [preCommitFetchRules] *)
Definition prepareVoteFetchRules (id : Z) (vote : PrepareVote) : M Node unit :=
  s ← stateOf;
  let base := v_blockNumber s in
  if (pv_BlockNumber vote =? base) && (pv_ViewNumber vote =? v_viewNumber s) then
    match ViewBlockAndQC s base with
    | (None, _) => SyncPrepareBlock id (v_epoch s) base 0 (v_viewNumber s)
    | (Some b, None) => SyncBlockQuorumCert id (bNumber b) (Hash b)
    | (Some _, Some _) => mret tt
    end
  else mret tt.

Definition preCommitFetchRules (id : Z) (vote : PreCommit) : M Node unit :=
  s ← stateOf;
  let base := v_blockNumber s in
  if (pc_BlockNumber vote =? base) && (pc_ViewNumber vote =? v_viewNumber s) then
    match ViewBlockAndPreCommitQC s base with
    | (None, _) => SyncPrepareBlock id (v_epoch s) base 0 (v_viewNumber s)
    | (Some b, None) => SyncBlockPreCommitQuorumCert id (bNumber b) (Hash b)
    | (Some _, Some _) => mret tt
    end
  else mret tt.

(** ** Changing the view *)

(** The numbers from [hi] down to [lo + 1]. *)
Definition downFrom (hi lo : Z) : list Z := reverse (seqZ (lo + 1) (hi - lo)).

Definition clearInvalidBlocks (newBlock : Block) : M Node unit :=
  s ← stateOf;
  let rollback :=
    if 1 <=? v_viewNumber s
    then omap (ViewBlockByIndex s) (downFrom (vbMaxNumber (v_viewBlocks s)) (bNumber newBlock))
    else [] in
  emit (OForkedReset newBlock rollback).

Definition changeView (epoch viewNumber : Z) (block : option Block)
    (viewChangeQC : option ViewChangeQC) : M Node unit :=
  modify (setSync ∅) ≫= λ _,
  block ← must block;
  updState (λ s, ResetView epoch viewNumber (v_blockNumber s) s) ≫= λ _,
  updState (SetViewTimer now 1) ≫= λ _,
  updState (set_lastViewChangeQC viewChangeQC) ≫= λ _,
  clearInvalidBlocks block ≫= λ _,
  modify (λ n, setEv (evClear (n_ev n) epoch (bNumber block)) n) ≫= λ _,
  s ← stateOf;
  SyncPrepareBlock 0 epoch (bNumber block) 0 (v_viewNumber s).

(** The certificates of a view change, completed with the view change of this
    node; a step that fails leaves what was appended before it. *)
Definition richViewChangeQC (v : ViewChangeQC) : M Node ViewChangeQC :=
  r ← try (isCurrentValidator cfg);
  match r with
  | inr _ => mret v
  | inl node =>
      s ← stateOf;
      let hadSend := v_viewChanges s !! vn_Index node in
      r ← match hadSend with
          | Some vc =>
              if ExistViewChange v (vc_Epoch vc) (vc_ViewNumber vc) (vc_BlockHash vc)
              then mret (Some v)
              else
                c ← try (generateViewChangeQuorumCert cfg vc);
                mret (match c with
                      | inr _ => None
                      | inl cert => Some (AppendQuorumCert v cert)
                      end)
          | None => mret (Some v)
          end;
      match r with
      | None => mret v
      | Some v =>
          '(_, qc) ← findBlock (Hash (v_highestQCBlock s)) (bNumber (v_highestQCBlock s));
          let mb := MaxBlock v in
          match qc with
          | None => mret v
          | Some qc =>
              if HigherQuorumCert qc (mb_BlockNumber mb) (mb_BlockEpoch mb) (mb_BlockViewNumber mb)
                 && bool_decide (hadSend = None)
              then
                vc ← try (generateViewChange cfg qc);
                match vc with
                | inr _ => mret v
                | inl vc =>
                    c ← try (generateViewChangeQuorumCert cfg vc);
                    mret (match c with
                          | inr _ => v
                          | inl cert => AppendQuorumCert v cert
                          end)
                end
              else mret v
          end
      end
  end.

Definition tryChangeViewByViewChange (v : ViewChangeQC) : M Node unit :=
  s ← stateOf;
  let highest := v_highestPreCommitQCBlock s in
  '(block, _) ← findBlock (Hash highest) (bNumber highest);
  b ← must block;
  v ← (if bNumber b =? 0 then mret (Some v)
       else
         v ← richViewChangeQC v;
         let mb := MaxBlock v in
         mret (if (bNumber highest <? mb_BlockNumber mb)
                  || ((bNumber highest =? mb_BlockNumber mb) && (v_epoch s <? mb_BlockEpoch mb))
               then None else Some v));
  match v with
  | None => mret tt
  | Some v =>
      let mb := MaxBlock v in
      vp ← poolOf;
      if EqualSwitchPoint vp (mb_BlockNumber mb) && (mb_BlockEpoch mb =? v_epoch s)
      then changeView (u64 (v_epoch s + 1)) DefaultViewNumber block (Some v)
      else changeView (v_epoch s) (u64 (v_viewNumber s + 1)) block (Some v)
  end.

Definition tryChangeView : M Node unit :=
  s ← stateOf; vp ← poolOf;
  '(block, qc) ← findBlock (Hash (v_highestPreCommitQCBlock s))
                           (bNumber (v_highestPreCommitQCBlock s));
  b ← must block;
  let shouldSwitch := ShouldSwitch vp (bNumber b) in
  let enough := (u32 (MaxQCIndex s + 1) =? cf_Amount cfg)
    || (match qc with Some q => qc_Epoch q =? v_epoch s | None => false end && shouldSwitch) in
  (if shouldSwitch then
     r ← try (ask (vpUpdate vp (bNumber b) (u64 (v_epoch s + 1))));
     match r with
     | inl (vp, events) => modify (setPool vp) ≫= λ _, emit (OValidators events)
     | inr _ => mret tt
     end
   else mret tt) ≫= λ _,
  if enough then
    vp ← poolOf;
    if EqualSwitchPoint vp (bNumber b)
    then changeView (u64 (v_epoch s + 1)) DefaultViewNumber block None
    else changeView (v_epoch s) DefaultViewNumber block None
  else
    len ← currentValidatorLen;
    if threshold len <=? ViewChangeLen s then
      vp ← poolOf;
      total ← ask (vpLen vp (v_epoch s));
      v ← ask (generateViewChangeQC total (v_viewChanges s));
      v ← must v;
      tryChangeViewByViewChange v
    else mret tt.

(** ** Inserting a certified block *)

Definition HasBlock (s : ViewState) (hash number : Z) : bool :=
  let qcBlock := v_highestPreCommitQCBlock s in
  (number <? bNumber qcBlock) || ((bNumber qcBlock =? number) && (Hash qcBlock =? hash)).

Definition TrySetHighestQCBlock (block : Block) : M Node unit :=
  s ← stateOf;
  if bNumber (v_highestQCBlock s) <=? bNumber block
  then updState (set_highestQCBlock block) else mret tt.

(** Is the certificate of [block] higher than that of [h]? *)
Definition higherBlock (block h : Block) : M Node bool :=
  '(_, qc) ← findBlock (Hash block) (bNumber block);
  '(_, hqc) ← findBlock (Hash h) (bNumber h);
  match hqc with
  | None => mret true
  | Some hqc =>
      qc ← must qc;
      mret (HigherQuorumCert qc (qc_BlockNumber hqc) (qc_Epoch hqc) (qc_ViewNumber hqc))
  end.

Definition TrySetHighestPreCommitQCBlock (block : Block) : M Node unit :=
  s ← stateOf;
  b ← higherBlock block (v_highestPreCommitQCBlock s);
  if b : bool then updState (set_highestPreCommitQCBlock block) else mret tt.

Definition TrySetHighestLockBlock (block : option Block) : M Node unit :=
  block ← must block;
  s ← stateOf;
  b ← higherBlock block (v_highestLockBlock s);
  if b : bool then updState (set_highestLockBlock block) else mret tt.

Definition commitBlock (block : Block) (qc : option QuorumCert) : M Node unit :=
  emit (OCommit block qc).

Definition tryCommitNewBlock (lock commit : option Block) (qc : Block) : M Node unit :=
  match lock, commit with
  | Some lock, Some commit =>
      if negb (u64 (bNumber commit + 1) =? bNumber qc) then mret tt
      else
        '(commitBlk, commitQC) ← findBlock (Hash commit) (bNumber commit);
        s ← stateOf;
        let old := bNumber (v_highestCommitBlock s) in
        if u64 (old + 1) =? bNumber commit then
          commitBlock commit commitQC ≫= λ _,
          updState (set_highestCommitBlock commit) ≫= λ _,
          onTree (PruneBlock (Hash commit) (bNumber commit)) ≫= λ _,
          onTree (NewRoot commit)
        else if (old =? bNumber commit) && (0 <? old) then
          lockState ← findBlock (Hash lock) (bNumber lock);
          qcState ← findBlock (Hash qc) (bNumber qc);
          emit (OChainState qcState lockState (commitBlk, commitQC))
        else mret tt
  | _, _ => mret tt
  end.

(** Did this node propose the block? *)
Definition isOwn (qc : QuorumCert) : M Node bool :=
  r ← try (isCurrentValidator cfg);
  match r with
  | inr _ => mret false
  | inl node =>
      proposer ← currentProposer;
      s ← stateOf;
      mret ((vn_Index node =? vn_Index proposer) && (v_epoch s =? qc_Epoch qc))
  end.

Definition insertQCBlock (block : option Block) (qc : QuorumCert) : M Node unit :=
  block ← must block;
  s ← stateOf;
  if (bNumber block <=? bNumber (v_highestLockBlock s)) || HasBlock s (Hash block) (bNumber block)
  then mret tt
  else
    (if v_epoch s =? qc_Epoch qc then
       updState (λ s, AddPreCommitQC qc (AddQC qc
         (if bool_decide (ViewBlockByIndex s (qc_BlockNumber qc) = None)
          then AddQCBlock block (Some qc) s else s)))
     else mret tt) ≫= λ _,
    '(lock, commit) ← onTree (InsertQCBlock block (Some qc));
    emit (OInserted block qc) ≫= λ _,
    TrySetHighestQCBlock block ≫= λ _,
    TrySetHighestPreCommitQCBlock block ≫= λ _,
    TrySetHighestLockBlock lock ≫= λ _,
    own ← isOwn qc;
    (if own : bool then mret tt else emit (OReset block)) ≫= λ _,
    tryCommitNewBlock lock commit block.

Definition tryAddStateBlockNumber (qc : QuorumCert) : M Node unit :=
  s ← stateOf;
  if (qc_BlockNumber qc =? 0) || (qc_BlockNumber qc =? v_blockNumber s)
  then updState (AddBlockNumber now qc) else mret tt.

Fixpoint insertQCBlocks (bqs : list (Block * QuorumCert)) : M Node unit :=
  match bqs with
  | [] => mret tt
  | (block, qc) :: bqs =>
      s ← stateOf; t ← treeOf;
      (match QCBlockRules s t block qc with
       | None => mret tt
       | Some ViewError => changeView (qc_Epoch qc) DefaultViewNumber (Some block) None
       | Some _ => fail GenericError
       end) ≫= λ _,
      insertQCBlock (Some block) qc ≫= λ _,
      tryAddStateBlockNumber qc ≫= λ _,
      tryChangeView ≫= λ _,
      insertQCBlocks bqs
  end.

Definition OnInsertQCBlock (blocks : list Block) (qcs : list QuorumCert) : M Node unit :=
  if negb (length blocks =? length qcs)%nat then fail GenericError
  else insertQCBlocks (zip blocks qcs).

(** Has this node done its part for the block, or, as a candidate, executed
    it? *)
Definition hasExecuted (qc : QuorumCert) : M Node bool :=
  s ← stateOf; vp ← poolOf;
  v ← ask (IsValidator vp (qc_Epoch qc) (cf_NodeID cfg));
  mret (if v : bool then HadSendPreVoteByQC s qc
        else IsCandidateNode (cf_NodeID cfg)
             && (qc_BlockNumber qc <=? v_maxExecutedBlockNumber s)).

Definition insertPreCommitQC (qc : QuorumCert) : M Node unit :=
  s ← stateOf;
  match ViewBlockByIndex s (qc_BlockNumber qc) with
  | None => hasExecuted qc ≫= λ _, mret tt
  | Some block =>
      executed ← hasExecuted qc;
      '(parent, _) ← findBlock (bParentHash block) (u64 (bNumber block - 1));
      if (executed : bool) && bool_decide (is_Some parent)
         && (bNumber (v_highestPreCommitQCBlock s) <=? qc_BlockNumber qc)
      then
        updState (set_viewPreCommitQC (Some qc)) ≫= λ _,
        updState (AddPreCommitQC qc) ≫= λ _,
        insertQCBlock (Some block) qc ≫= λ _,
        tryAddStateBlockNumber qc ≫= λ _,
        tryChangeView
      else mret tt
  end.

(** ** Voting *)

(** [tryAddHadSendVote] and [tryAddHadSendPreCommit]: at the height of the
    last vote, that vote is read. *)
Definition tryAddHadSendVote (number : Z) (vote : PrepareVote) : M Node unit :=
  s ← stateOf;
  later ← (if v_hadSendVoteNumber s <? number then mret true
           else if number =? v_hadSendVoteNumber s then
             l ← must (v_hadSendVoteLast s);
             mret ((pv_Epoch l <? pv_Epoch vote)
                   || ((pv_Epoch vote =? pv_Epoch l) && (pv_ViewNumber l <? pv_ViewNumber vote)))
           else mret false);
  if later : bool then updState (AddHadSendVoteNumber number vote) else mret tt.

Definition tryAddHadSendPreCommit (number : Z) (vote : PreCommit) : M Node unit :=
  s ← stateOf;
  later ← (if v_hadSendPreCommitNumber s <? number then mret true
           else if number =? v_hadSendPreCommitNumber s then
             l ← must (v_hadSendPreCommitLast s);
             mret ((pc_Epoch l <? pc_Epoch vote)
                   || ((pc_Epoch vote =? pc_Epoch l) && (pc_ViewNumber l <? pc_ViewNumber vote)))
           else mret false);
  if later : bool then updState (AddHadSendPreCommitNumber number vote) else mret tt.

(** The local validator, read without a look at the error. *)
Definition localIndex : M Node Z :=
  r ← try (isCurrentValidator cfg);
  match r with inl node => mret (vn_Index node) | inr _ => panic end.

Definition trySendPrepareVote (p : PrepareVote) : M Node unit :=
  s ← stateOf;
  if IsDeadline now s then mret tt
  else if negb (AllowVote s p) then mret tt
  else
    block ← must (ViewBlockByIndex s (pv_BlockNumber p));
    '(b, qc) ← findBlock (bParentHash block) (u64 (bNumber block - 1));
    if bool_decide (is_Some b) || (bNumber block =? 0) then
      let p := pvSetParentQC p qc in
      tryAddHadSendVote (pv_BlockNumber p) p ≫= λ _,
      i ← localIndex;
      updState (AddPrepareVote i p) ≫= λ _,
      emit (OBroadcast (NConsensus (MPrepareVote p)))
    else mret tt.

Definition trySendPreCommit (p : PreCommit) : M Node unit :=
  s ← stateOf;
  if IsDeadline now s then mret tt
  else if negb (AllowPreCommit s p) then mret tt
  else
    block ← must (ViewBlockByIndex s (pc_BlockNumber p));
    '(b, qc) ← findBlock (bParentHash block) (u64 (bNumber block - 1));
    if bool_decide (is_Some b) || (bNumber block =? 0) then
      let p := pcSetParentQC p qc in
      tryAddHadSendPreCommit (pc_BlockNumber p) p ≫= λ _,
      i ← localIndex;
      updState (AddPreCommit i p) ≫= λ _,
      emit (OBroadcast (NConsensus (MPreCommit p)))
    else mret tt.

Definition signBlock (hash number index : Z) : M Node unit :=
  node ← isCurrentValidator cfg;
  s ← stateOf;
  trySendPrepareVote (signPrepareVote cfg
    (mkPV (v_epoch s) (v_viewNumber s) hash number index (vn_Index node) None 0)).

Definition genPreCommit (qc : QuorumCert) : M Node unit :=
  s ← stateOf;
  if negb (qc_BlockNumber qc =? v_blockNumber s) then fail GenericError
  else
    node ← isCurrentValidator cfg;
    block ← must (ViewBlockByIndex s (qc_BlockNumber qc));
    '(b, qc2) ← findBlock (bParentHash block) (u64 (bNumber block - 1));
    if bool_decide (is_Some b) || (bNumber block =? 0) then
      trySendPreCommit (signPreCommit cfg
        (mkPC (qc_Epoch qc) (qc_ViewNumber qc) (qc_BlockHash qc) (qc_BlockNumber qc)
           (qc_BlockIndex qc) (vn_Index node) qc2 0))
    else fail GenericError.

(** The certificate of the votes becomes the one of the view; a failure to
    send the next vote is ignored. *)
Definition acceptPrepareQC (qc : QuorumCert) : M Node unit :=
  updState (set_viewPrepareVoteQC (Some qc)) ≫= λ _,
  updState (AddQC qc) ≫= λ _,
  try (genPreCommit qc) ≫= λ _, mret tt.

Definition findPreVoteQC (blockNumber : Z) : M Node unit :=
  s ← stateOf;
  len ← currentValidatorLen;
  if threshold len <=? PrepareVoteLenByNumber s blockNumber then
    qc ← ask (generatePrepareQC len (AllPrepareVoteByNumber s blockNumber));
    match qc with
    | None => mret tt
    | Some qc =>
        block ← must (ViewBlockByIndex s blockNumber);
        TrySetHighestQCBlock block ≫= λ _,
        emit (OBroadcast (NBlockQuorumCert qc)) ≫= λ _,
        acceptPrepareQC qc
    end
  else mret tt.

Definition findPreCommitQC (blockNumber : Z) : M Node unit :=
  s ← stateOf;
  len ← currentValidatorLen;
  if threshold len <=? PreCommitLenByNumber s blockNumber then
    qc ← ask (generatePreCommitQC len (AllPreCommitByNumber s blockNumber));
    match qc with
    | None => mret tt
    | Some qc =>
        updState (set_viewPreCommitQC (Some qc)) ≫= λ _,
        updState (AddPreCommitQC qc) ≫= λ _,
        insertQCBlock (ViewBlockByIndex s blockNumber) qc ≫= λ _,
        emit (OBroadcast (NBlockPreCommitQuorumCert qc)) ≫= λ _,
        tryAddStateBlockNumber qc ≫= λ _,
        tryChangeView
    end
  else mret tt.

(** The executor answers for a block; [ok] when it had no error. *)
Definition onAsyncExecuteStatus (hash number : Z) (ok : bool) : M Node unit :=
  if negb ok then mret tt
  else
    s ← stateOf;
    match ViewBlockByIndex s number with
    | None => mret tt
    | Some block =>
        if negb (Hash block =? hash) then mret tt
        else
          updState (set_executing (mkExecuting 0 true)) ≫= λ _,
          updState (SetMaxExecutedBlockNumber (bNumber block)) ≫= λ _,
          r ← try (isCurrentValidator cfg);
          match r with
          | inr _ => mret tt
          | inl _ =>
              r ← try (signBlock (Hash block) (bNumber block) 0);
              match r with
              | inr _ => mret tt
              | inl _ => findPreVoteQC number
              end
          end
    end.

(** The proposal goes to the executor, unless its parent is missing. *)
Definition exePrepareBlock (m : PrepareBlock) : M Node unit :=
  s ← stateOf;
  match ViewBlockByIndex s (bNumber (pb_Block m)) with
  | None => mret tt
  | Some block =>
      '(parent, _) ← findBlock (bParentHash block) (u64 (bNumber block - 1));
      match parent with
      | None => mret tt
      | Some parent =>
          emit (OExecute block parent) ≫= λ _,
          updState (set_executing (mkExecuting (pb_BlockIndex m) false))
      end
  end.

(** ** Handlers of the consensus messages *)

Definition OnPrepareBlock (id : Z) (m : PrepareBlock) : M Node unit :=
  let block := pb_Block m in
  ask (VerifyHeader block) ≫= λ _,
  n ← get;
  (match PrepareBlockRules (cf_Amount cfg) now (n_state n) (n_tree n) (n_pool n) m with
   | None => mret tt
   | Some CommonError => fail GenericError
   | Some e =>
       ask (verifyConsensusSign (n_pool n) (MPrepareBlock m)) ≫= λ _,
       match e with
       | FetchError =>
           p ← isProposer (pb_Epoch m) (bNumber block) (pb_ProposalIndex m);
           (if p : bool then fetchBlock id (bParentHash block) (u64 (bNumber block - 1)) None
            else mret tt) ≫= λ _,
           fail GenericError
       | ViewError =>
           ask (checkViewChangeQC (n_pool n) m) ≫= λ _,
           '(base, _) ← match pb_ViewChangeQC m with
                        | Some v => findBlock (mb_BlockHash (MaxBlock v)) (mb_BlockNumber (MaxBlock v))
                        | None => findBlock (bParentHash block) (u64 (bNumber block - 1))
                        end;
           changeView (pb_Epoch m) (pb_ViewNumber m) base (pb_ViewChangeQC m)
       | _ => mret tt
       end
   end) ≫= λ _,
  verifyConsensusMsg (MPrepareBlock m) ≫= λ _,
  updState (AddPrepareBlock m) ≫= λ _,
  updState (set_Step RoundStepPrepareBlock) ≫= λ _,
  exePrepareBlock m.

(** The errors of the rules for the votes: a vote that is signed well may
    show that something is missing here. *)
Definition voteError (m : ConsensusMsg) (e : SafetyError) (fetch missing : M Node unit) :
    M Node unit :=
  match e with
  | CommonError => fail GenericError
  | _ =>
      vp ← poolOf;
      r ← try (ask (verifyConsensusSign vp m));
      match r with
      | inr _ => fail GenericError
      | inl _ =>
          (match e with FetchError => fetch | FetchPrepareError => missing | _ => mret tt end)
            ≫= λ _, fail GenericError
      end
  end.

Definition fetchParent (id : Z) (qc : option QuorumCert) : M Node unit :=
  match qc with
  | Some q => fetchBlock id (qc_BlockHash q) (qc_BlockNumber q) qc
  | None => mret tt
  end.

Definition OnPrepareVote (id : Z) (m : PrepareVote) : M Node unit :=
  n ← get;
  r ← ask (PrepareVoteRules (cf_Amount cfg) now (n_state n) (n_tree n) m);
  match r with
  | Some e =>
      voteError (MPrepareVote m) e (fetchParent id (pv_ParentQC m)) (prepareVoteFetchRules id m)
  | None =>
      node ← verifyConsensusMsg (MPrepareVote m);
      updState (AddPrepareVote (vn_Index node) m) ≫= λ _,
      updState (set_Step RoundStepPrepareVote) ≫= λ _,
      findPreVoteQC (pv_BlockNumber m)
  end.

Definition OnPreCommit (id : Z) (m : PreCommit) : M Node unit :=
  n ← get;
  r ← ask (PreCommitRules (cf_Amount cfg) now (n_state n) (n_tree n) m);
  match r with
  | Some e =>
      voteError (MPreCommit m) e (fetchParent id (pc_ParentQC m)) (preCommitFetchRules id m)
  | None =>
      node ← verifyConsensusMsg (MPreCommit m);
      updState (AddPreCommit (vn_Index node) m) ≫= λ _,
      updState (set_Step RoundStepPreCommit) ≫= λ _,
      findPreCommitQC (pc_BlockNumber m)
  end.

Definition OnViewChange (id : Z) (m : ViewChange) : M Node unit :=
  n ← get;
  r ← ask (ViewChangeRules (n_state n) (n_tree n) m);
  match r with
  | Some e =>
      (match e with
       | FetchError =>
           match vc_PrepareQC m with
           | Some _ => fetchBlock id (vc_BlockHash m) (vc_BlockNumber m) (vc_PrepareQC m)
           | None => mret tt
           end
       | _ => mret tt
       end) ≫= λ _,
      fail GenericError
  | None =>
      node ← verifyConsensusMsg (MViewChange m);
      updState (AddViewChange (vn_Index node) m) ≫= λ _,
      tryChangeView
  end.

Definition OnViewTimeout : M Node unit :=
  r ← try (isCurrentValidator cfg);
  match r with
  | inr _ => mret tt
  | inl node =>
      s ← stateOf;
      if bool_decide (is_Some (v_viewChanges s !! vn_Index node)) then mret tt
      else
        let highest := v_highestPreCommitQCBlock s in
        '(_, qc) ← findBlock (Hash highest) (bNumber highest);
        let vc := signViewChange cfg (mkVC (v_epoch s) (v_viewNumber s) (Hash highest)
                    (bNumber highest) (vn_Index node) qc 0) in
        updState (AddViewChange (vn_Index node) vc) ≫= λ _,
        emit (OBroadcast (NConsensus (MViewChange vc))) ≫= λ _,
        tryChangeView
  end.
End engine.
