(* ===== verification/PbftSync.v ===== *)
(** Synchronisation, sealing, and the events of a node.

    Models consensus/pbft/sync_process.go, the sealing and the insertion of
    blocks of pbft.go, and the start of the engine.  What the network layer
    remembers of messages and peers, the write-ahead log and the average
    latency are arguments of the events that read them. *)

From S2P Require Import Prelude BitArray PbftTypes PbftValidators BlockTree PbftEvidence PbftState PbftRules PbftNode PbftEngine.

(** [network.TypeForPreCommitQCBn] *)
Definition TypeForPreCommitQCBn : Z := 4.

Section sync.
Context `{Crypto} `{!Agency} (cfg : Config) (now : Z).

Definition send (id : Z) (m : NetMsg) : M Node unit := emit (OSend id m).

Definition sendQC (id : Z) (mk : QuorumCert → NetMsg) (qc : option QuorumCert) : M Node unit :=
  match qc with Some qc => send id (mk qc) | None => mret tt end.

(** ** Proposals and certificates *)

Definition OnGetPrepareBlock (id epoch blockNumber viewNumber : Z) : M Node unit :=
  s ← stateOf;
  if (epoch =? v_epoch s) && (blockNumber =? v_blockNumber s) && (viewNumber =? v_viewNumber s)
  then
    match PrepareBlockByIndex s blockNumber with
    | Some pb => send id (NConsensus (MPrepareBlock pb))
    | None => mret tt
    end ≫= λ _,
    sendQC id NBlockQuorumCert (ViewBlockAndQC s blockNumber).2
  else mret tt.

Definition OnGetBlockQuorumCert (id blockNumber : Z) : M Node unit :=
  s ← stateOf; sendQC id NBlockQuorumCert (ViewBlockAndQC s blockNumber).2.

Definition OnGetBlockPreCommitQuorumCert (id blockNumber : Z) : M Node unit :=
  s ← stateOf; sendQC id NBlockPreCommitQuorumCert (ViewBlockAndPreCommitQC s blockNumber).2.

(** The checks that the two kinds of certificates share: the block of the
    view that the certificate is for. *)
Definition checkBlockQC (qc : QuorumCert) (had : ViewState → Z → Z → bool) : M Node Block :=
  s ← stateOf;
  if negb (qc_Epoch qc =? v_epoch s)
     || (negb (qc_BlockNumber qc =? v_blockNumber s) && negb (v_blockNumber s =? 0))
     || negb (qc_ViewNumber qc =? v_viewNumber s)
  then fail GenericError
  else
    '(_, local) ← findBlock (qc_BlockHash qc) (qc_BlockNumber qc);
    if bool_decide (is_Some local) then fail GenericError
    else if had s (qc_BlockHash qc) (qc_BlockNumber qc) then fail GenericError
    else match ViewBlockByIndex s (qc_BlockNumber qc) with
    | None => fail GenericError
    | Some block =>
        vp ← poolOf;
        r ← try (ask (verifyPrepareQC vp (bNumber block) (Hash block) (Some qc)));
        match r with
        | inr _ => fail authFailed
        | inl _ => mret block
        end
    end.

Definition OnBlockQuorumCert (id : Z) (qc : QuorumCert) : M Node unit :=
  block ← checkBlockQC qc HadPrepareVoteQC;
  TrySetHighestQCBlock block ≫= λ _,
  acceptPrepareQC cfg now qc.

Definition OnBlockPreCommitQuorumCert (id : Z) (qc : QuorumCert) : M Node unit :=
  checkBlockQC qc HadPreCommitQC ≫= λ _,
  insertPreCommitQC cfg now qc.

(** ** Blocks *)

(** The certified blocks of the next heights, up to one of a later epoch. *)
Fixpoint certifiedFrom (s : ViewState) (epoch : Z) (numbers : list Z) :
    list (QuorumCert * Block) :=
  match numbers with
  | [] => []
  | n :: numbers =>
      match ViewBlockAndPreCommitQC s n with
      | (Some b, Some qc) =>
          if epoch <? qc_Epoch qc then [] else (qc, b) :: certifiedFrom s epoch numbers
      | _ => certifiedFrom s epoch numbers
      end
  end.

Definition OnGetQCBlockList (id epoch blockHash blockNumber : Z) : M Node unit :=
  s ← stateOf; t ← treeOf;
  let highest := v_highestPreCommitQCBlock s in
  if bNumber highest <=? blockNumber then fail GenericError
  else if u64 (blockNumber + 2) <? bNumber highest then fail GenericError
  else
    let l := certifiedFrom s epoch (seqZ (blockNumber + 1) (bNumber highest - blockNumber)) in
    let forked := if bParentHash highest =? blockHash
                  then FindForkedBlocksAndQCs t (Hash highest) (bNumber highest) else ([], []) in
    match l with
    | [] => mret tt
    | _ => send id (NQCBlockList l.*1 l.*2 forked.2 forked.1)
    end.

(** The answer to a fetch, once its blocks are executed: every block needs
    its certificate, and one that is missing is read past the end. *)
Fixpoint verifyQCs (vp : ValidatorPool) (blocks : list Block) (qcs : list QuorumCert) :
    outcome unit :=
  match blocks, qcs with
  | [], _ => Ok tt
  | _ :: _, [] => Panic
  | b :: blocks, qc :: qcs =>
      verifyPrepareQC vp (bNumber b) (Hash b) (Some qc) ≫= λ _,
      verifyQCs vp blocks qcs
  end.

Definition onFetched (blocks : list Block) (qcs : list QuorumCert) : M Node unit :=
  vp ← poolOf;
  ask (verifyQCs vp blocks qcs) ≫= λ _,
  OnInsertQCBlock cfg now blocks qcs.

(** The part of [InsertChain] that runs in the loop of the engine; [qc] is
    read from the block. *)
Definition InsertChain (block : Block) (qc : option QuorumCert) : M Node unit :=
  s ← stateOf;
  if HasBlock s (Hash block) (bNumber block) then mret tt
  else
    vp ← poolOf;
    ask (verifyPrepareQC vp (bNumber block) (Hash block) qc) ≫= λ _,
    qc ← must qc;
    OnInsertQCBlock cfg now [block] [qc].

(** ** Votes *)

(** The votes that the peer does not know, at most [remain] of them. *)
Fixpoint unknownVotes {A} (unknown : option BitArray) (remain : Z) (l : list (Z * A))
    (votes : list A) : outcome (list A) :=
  match l with
  | [] => Ok votes
  | (k, v) :: l =>
      b ← GetIndex unknown k;
      let votes := if b : bool then votes ++ [v] else votes in
      if (0 <? remain) && (remain <=? Z.of_nat (length votes)) then Ok votes
      else unknownVotes unknown remain l votes
  end.

Definition remaining (unknown : option BitArray) : M Node Z :=
  len ← currentValidatorLen;
  mret (threshold len - (len - Size unknown)).

Definition OnGetPrepareVote (id epoch blockNumber viewNumber blockIndex : Z)
    (unknown : option BitArray) : M Node unit :=
  s ← stateOf;
  if (epoch =? v_epoch s) && (blockNumber =? v_blockNumber s) && (viewNumber =? v_viewNumber s)
  then
    match (ViewBlockAndQC s blockNumber).2 with
    | Some qc => send id (NBlockQuorumCert qc)
    | None =>
        remain ← remaining unknown;
        votes ← ask (unknownVotes unknown remain
                       (map_to_list (AllPrepareVoteByNumber s blockNumber)) []);
        if bool_decide (votes = []) then mret tt
        else send id (NPrepareVotes epoch viewNumber blockIndex votes)
    end
  else mret tt.

Definition OnGetPreCommit (id epoch blockNumber viewNumber blockIndex : Z)
    (unknown : option BitArray) : M Node unit :=
  s ← stateOf;
  if (epoch =? v_epoch s) && (blockNumber =? v_blockNumber s) && (viewNumber =? v_viewNumber s)
  then
    match (ViewBlockAndPreCommitQC s blockNumber).2 with
    | Some qc => send id (NBlockPreCommitQuorumCert qc)
    | None =>
        remain ← remaining unknown;
        votes ← ask (unknownVotes unknown remain
                       (map_to_list (AllPreCommitByNumber s blockNumber)) []);
        if bool_decide (votes = []) then mret tt
        else send id (NPreCommits epoch viewNumber blockIndex votes)
    end
  else mret tt.

(** [seen]: the network layer has the message in its history. *)
Definition OnPrepareVotes (seen : PrepareVote → bool) (id : Z) (votes : list PrepareVote) :
    M Node unit :=
  for_each (λ v,
    s ← stateOf;
    if bool_decide ((ViewBlockAndQC s (pv_BlockNumber v)).2 = None) && negb (seen v)
    then OnPrepareVote cfg now id v else mret tt) votes.

Definition OnPreCommits (seen : PreCommit → bool) (id : Z) (votes : list PreCommit) :
    M Node unit :=
  for_each (λ v,
    s ← stateOf;
    if bool_decide ((ViewBlockAndPreCommitQC s (pc_BlockNumber v)).2 = None) && negb (seen v)
    then OnPreCommit cfg now id v else mret tt) votes.

(** ** View changes *)

(** [wal]: the certificates in the write-ahead log, by epoch, height and
    view. *)
Definition OnGetViewChange (wal : Z → Z → Z → option ViewChangeQC)
    (id epoch blockNumber viewNumber : Z) (bits : option BitArray) : M Node unit :=
  s ← stateOf;
  let here := v_blockNumber s in
  let view := v_viewNumber s in
  let isLocalView := (epoch =? v_epoch s) && (viewNumber =? view) && (blockNumber =? here) in
  let isLastView :=
    ((epoch =? v_epoch s) && (u64 (viewNumber + 1) =? view) && (blockNumber =? here))
    || ((epoch =? v_epoch s) && (view =? DefaultViewNumber) && (u64 (blockNumber + 1) =? here)) in
  let isPreviousView :=
    ((epoch =? v_epoch s) && (u64 (viewNumber + 1) <? view) && (blockNumber =? here))
    || ((epoch =? v_epoch s) && (u64 (blockNumber + 1) <? here)) in
  if isLocalView then
    vcs ← ask (unknownVotes bits 0 (map_to_list (v_viewChanges s)) []);
    if bool_decide (vcs = []) then mret tt else send id (NViewChanges vcs)
  else if isLastView then
    match v_lastViewChangeQC s with
    | None => mret tt
    | Some v =>
        ask (EqualAll v epoch viewNumber (u64 (blockNumber - 1))) ≫= λ _,
        send id (NViewChangeQuorumCert v None)
    end
  else
    match (if isPreviousView then wal epoch (u64 (blockNumber - 1)) viewNumber else None) with
    | Some v =>
        send id (NViewChangeQuorumCert v
          (wal (v_epoch s) (u64 (here - 1)) (u64 (view - 1))))
    | None => fail GenericError
    end.

Definition trySyncViewChangeQuorumCert (id : Z) (highest : option ViewChangeQC) : M Node unit :=
  match highest with
  | None => mret tt
  | Some v =>
      s ← stateOf; vp ← poolOf;
      let mb := MaxBlock v in
      if negb (v_epoch s =? mb_Epoch mb) then mret tt
      else if (v_viewNumber s =? mb_ViewNumber mb)
              && (v_blockNumber s =? u64 (mb_BlockNumber mb + 1)) then
        r ← try (ask (verifyViewChangeQC vp v));
        match r with inl _ => tryChangeViewByViewChange cfg now v | inr _ => mret tt end
      else if (v_viewNumber s <? mb_ViewNumber mb)
              && (v_blockNumber s =? u64 (mb_BlockNumber mb + 1)) then
        r ← try (ask (verifyViewChangeQC vp v));
        match r with
        | inl _ =>
            len ← currentValidatorLen;
            send id (NGetViewChange (v_epoch s) (v_blockNumber s) (v_viewNumber s)
                       (NewBitArray (u32 len)))
        | inr _ => mret tt
        end
      else mret tt
  end.

Definition OnViewChangeQuorumCert (id : Z) (v : ViewChangeQC) (highest : option ViewChangeQC) :
    M Node unit :=
  s ← stateOf; vp ← poolOf;
  let mb := MaxBlock v in
  (if (v_epoch s =? mb_Epoch mb) && (v_viewNumber s =? mb_ViewNumber mb)
      && (v_blockNumber s =? u64 (mb_BlockNumber mb + 1)) then
     r ← try (ask (verifyViewChangeQC vp v));
     match r with
     | inl _ => tryChangeViewByViewChange cfg now v
     | inr _ => fail authFailed
     end
   else mret tt) ≫= λ _,
  trySyncViewChangeQuorumCert id highest.

Definition OnViewChanges (seen : ViewChange → bool) (id : Z) (vcs : list ViewChange) :
    M Node unit :=
  for_each (λ v, if seen v then mret tt else OnViewChange cfg now id v) vcs.

(** ** The status of peers *)

Definition sendStatus (id hash number logicType : Z) : M Node unit :=
  s ← stateOf;
  let lock := v_highestLockBlock s in
  '(_, qc) ← findBlock hash number;
  '(_, lqc) ← findBlock (Hash lock) (bNumber lock);
  send id (NLatestStatus number hash qc (bNumber lock) (Hash lock) lqc logicType).

(** [peer]: the network layer knows the peer. *)
Definition OnGetLatestStatus (peer : bool) (id blockNumber blockHash : Z) (qc : option QuorumCert)
    (lBlockNumber : Z) (lqc : option QuorumCert) (logicType : Z) : M Node unit :=
  s ← stateOf; t ← treeOf;
  let local := v_highestPreCommitQCBlock s in
  if (negb (blockNumber =? 0) && bool_decide (qc = None))
     || (negb (lBlockNumber =? 0) && bool_decide (lqc = None)) then mret tt
  else if negb (logicType =? TypeForPreCommitQCBn) then mret tt
  else if (bNumber local =? blockNumber) && (Hash local =? blockHash) then
    match IsForked t (Hash local) (bNumber local) with
    | Some (hash, number) => sendStatus id hash number logicType
    | None => mret tt
    end
  else if (bNumber local <? blockNumber)
          || ((bNumber local =? blockNumber) && negb (Hash local =? blockHash)) then
    if peer then fetchBlock id blockHash blockNumber qc else fail GenericError
  else sendStatus id (Hash local) (bNumber local) logicType.

Definition OnLatestStatus (peer : bool) (id blockNumber blockHash : Z) (qc : option QuorumCert)
    (lBlockNumber : Z) (lqc : option QuorumCert) (logicType : Z) : M Node unit :=
  s ← stateOf;
  let local := v_highestPreCommitQCBlock s in
  if (negb (blockNumber =? 0) && bool_decide (qc = None))
     || (negb (lBlockNumber =? 0) && bool_decide (lqc = None)) then mret tt
  else if (logicType =? TypeForPreCommitQCBn)
          && ((bNumber local <? blockNumber)
              || ((bNumber local =? blockNumber) && negb (Hash local =? blockHash))) then
    if peer then fetchBlock id blockHash blockNumber qc else fail GenericError
  else mret tt.

Definition OnPrepareBlockHash (id epoch blockNumber viewNumber blockIndex : Z) : M Node unit :=
  s ← stateOf;
  if (epoch =? v_epoch s) && (blockNumber =? v_blockNumber s) && (viewNumber =? v_viewNumber s)
     && bool_decide (ViewBlockByIndex s blockNumber = None)
  then SyncPrepareBlock now id epoch blockNumber blockIndex viewNumber
  else mret tt.

(** ** Sealing *)

(** May this node seal a block now?  [rtt] is the average latency. *)
Definition OnShouldSeal (rtt : Z) : M Node unit :=
  s ← stateOf; vp ← poolOf;
  if IsDeadline now s then fail GenericError
  else
    v ← ask (IsValidator vp (v_epoch s) (cf_NodeID cfg));
    if negb v then fail GenericError
    else
      len ← ask (vpLen vp (v_epoch s));
      proposer ← ask (CalCurrentProposer s len);
      me ← isCurrentValidator cfg;
      if negb (proposer =? vn_Index me) then fail GenericError
      else if cf_Amount cfg <=? NextViewBlockIndex s then fail GenericError
      else
        let b := v_highestPreCommitQCBlock s in
        '(_, qc) ← findBlock (Hash b) (bNumber b);
        if ShouldSwitch vp (bNumber b)
           && match qc with Some q => qc_Epoch q =? v_epoch s | None => false end
        then fail GenericError
        else if vt_deadline (v_viewTimer s) - now <=? rtt then fail GenericError
        else mret tt.

(** A block that the worker has made becomes a proposal. *)
Definition OnSeal (block : Block) : M Node unit :=
  s ← stateOf; vp ← poolOf;
  if negb (Hash (v_highestPreCommitQCBlock s) =? bParentHash block) then mret tt
  else
    r ← try (isCurrentValidator cfg);
    match r with
    | inr _ => mret tt
    | inl me =>
        len ← ask (vpLen vp (v_epoch s));
        proposer ← ask (CalCurrentProposer s len);
        if negb (proposer =? vn_Index me) then mret tt
        else
          let pb := signPrepareBlock cfg
            (mkPB (v_epoch s) (v_viewNumber s) block 0 (vn_Index me) None
                  (v_lastViewChangeQC s) 0) in
          r ← try (OnPrepareBlock cfg now 0 pb);
          match r with
          | inr _ => updState (set_executing (mkExecuting 0 false))
          | inl _ =>
              emit (OBroadcast (NConsensus (MPrepareBlock pb))) ≫= λ _,
              emit (OReset block)
          end
    end.

(** ** Start *)

(** [Start] on a chain whose last block is [block], with the certificate that
    its extra data holds; the write-ahead log is empty. *)
Definition start (block : Block) (qc : option QuorumCert) : outcome Node :=
  t ← NewBlockTree block qc;
  epoch ← (if bNumber block =? 0 then Ok DefaultEpoch
           else match qc with Some q => Ok (qc_Epoch q) | None => Panic end);
  vp ← NewValidatorPool (bNumber block) epoch (cf_NodeID cfg);
  let n := mkNode (NewViewState (cf_Period cfg) now block) t vp NewBaseEvidencePool ∅ false [] in
  let m : M Node unit :=
    changeView now epoch
      (if bNumber block =? 0 then DefaultViewNumber
       else match qc with Some q => qc_ViewNumber q | None => 0 end) (Some block) None ≫= λ _,
    match qc with
    | Some q =>
        updState (AddBlockNumber now q) ≫= λ _,
        updState (set_executing (mkExecuting (qc_BlockIndex q) true)) ≫= λ _,
        updState (SetMaxExecutedBlockNumber (qc_BlockNumber q)) ≫= λ _,
        updState (λ s, AddPreCommitQC q (AddQC q (AddQCBlock block qc s)))
    | None => mret tt
    end ≫= λ _,
    tryChangeView cfg now in
  match m n with
  | (Ok _, n) => Ok n
  | (Err e, _) => Err e
  | (Panic, _) => Panic
  end.
End sync.
