(* ===== verification/PbftSystem.v ===== *)
(** A network of PBFT nodes.

    The events of [receiveLoop] (messages, executed blocks, timeouts, calls of
    the worker, the fetcher and the downloader) drive the handlers of one node
    at a time.  The network may lose, repeat, reorder and invent messages; the
    only thing it cannot do is forge a signature of a correct validator.  The
    validators are those of the static agency, and the nodes start from the
    genesis block. *)

From S2P Require Import Prelude BitArray PbftTypes PbftValidators BlockTree PbftEvidence PbftState PbftRules PbftNode PbftEngine PbftSync.

(** ** Events *)

Inductive Event :=
  | EConsensus (id : Z) (m : ConsensusMsg)
  | EBlockQC (id : Z) (qc : QuorumCert)
  | EBlockPreCommitQC (id : Z) (qc : QuorumCert)
  | EPrepareVotes (seen : PrepareVote → bool) (id : Z) (votes : list PrepareVote)
  | EPreCommits (seen : PreCommit → bool) (id : Z) (votes : list PreCommit)
  | EViewChanges (seen : ViewChange → bool) (id : Z) (vcs : list ViewChange)
  | EViewChangeQC (id : Z) (v : ViewChangeQC) (highest : option ViewChangeQC)
  | EGetLatestStatus (peer : bool) (id blockNumber blockHash : Z) (qc : option QuorumCert)
      (lBlockNumber : Z) (lqc : option QuorumCert) (logicType : Z)
  | ELatestStatus (peer : bool) (id blockNumber blockHash : Z) (qc : option QuorumCert)
      (lBlockNumber : Z) (lqc : option QuorumCert) (logicType : Z)
  | EPrepareBlockHash (id epoch blockNumber viewNumber blockIndex : Z)
  | EGetPrepareBlock (id epoch blockNumber viewNumber : Z)
  | EGetBlockQC (id blockNumber : Z)
  | EGetBlockPreCommitQC (id blockNumber : Z)
  | EGetQCBlockList (id epoch blockHash blockNumber : Z)
  | EGetPrepareVote (id epoch blockNumber viewNumber blockIndex : Z) (unknown : option BitArray)
  | EGetPreCommit (id epoch blockNumber viewNumber blockIndex : Z) (unknown : option BitArray)
  | EGetViewChange (wal : Z → Z → Z → option ViewChangeQC)
      (id epoch blockNumber viewNumber : Z) (bits : option BitArray)
  | EExecuted (hash number : Z) (ok : bool)
  | ETimeout
  | EShouldSeal (rtt : Z)
  | ESeal (block : Block)
  | EInsertChain (block : Block) (qc : option QuorumCert)
  (* the fetcher drops its task, and calls back with the blocks *)
  | EFetchEnd
  | EFetched (blocks : list Block) (qcs : list QuorumCert).

Section system.
Context `{Crypto}.

(** [handleConsensusMsg], [handleSyncMsg] and the other cases of
    [receiveLoop]; a node that is paused handles nothing. *)
Definition handle `{!Agency} (cfg : Config) (now : Z) (ev : Event) : M Node unit :=
  match ev with
  | EConsensus id (MPrepareBlock m) => OnPrepareBlock cfg now id m
  | EConsensus id (MPrepareVote m) => OnPrepareVote cfg now id m
  | EConsensus id (MPreCommit m) => OnPreCommit cfg now id m
  | EConsensus id (MViewChange m) => OnViewChange cfg now id m
  | EBlockQC id qc => OnBlockQuorumCert cfg now id qc
  | EBlockPreCommitQC id qc => OnBlockPreCommitQuorumCert cfg now id qc
  | EPrepareVotes seen id votes => OnPrepareVotes cfg now seen id votes
  | EPreCommits seen id votes => OnPreCommits cfg now seen id votes
  | EViewChanges seen id vcs => OnViewChanges cfg now seen id vcs
  | EViewChangeQC id v highest => OnViewChangeQuorumCert cfg now id v highest
  | EGetLatestStatus peer id bn bh qc lbn lqc ty => OnGetLatestStatus peer id bn bh qc lbn lqc ty
  | ELatestStatus peer id bn bh qc lbn lqc ty => OnLatestStatus peer id bn bh qc lbn lqc ty
  | EPrepareBlockHash id e n v i => OnPrepareBlockHash now id e n v i
  | EGetPrepareBlock id e n v => OnGetPrepareBlock id e n v
  | EGetBlockQC id n => OnGetBlockQuorumCert id n
  | EGetBlockPreCommitQC id n => OnGetBlockPreCommitQuorumCert id n
  | EGetQCBlockList id e h n => OnGetQCBlockList id e h n
  | EGetPrepareVote id e n v i u => OnGetPrepareVote id e n v i u
  | EGetPreCommit id e n v i u => OnGetPreCommit id e n v i u
  | EGetViewChange wal id e n v bits => OnGetViewChange wal id e n v bits
  | EExecuted hash number ok => onAsyncExecuteStatus cfg now hash number ok
  | ETimeout => OnViewTimeout cfg now
  | EShouldSeal rtt => OnShouldSeal cfg now rtt
  | ESeal block => OnSeal cfg now block
  | EInsertChain block qc => InsertChain cfg now block qc
  | EFetchEnd => modify (setFetching false)
  | EFetched blocks qcs => onFetched cfg now blocks qcs
  end.

(** *** What an event carries *)

Definition qcSigs (q : option QuorumCert) : list Z :=
  match q with Some q => [qc_Signature q] | None => [] end.
Definition vcqcSigs (v : option ViewChangeQC) : list Z :=
  match v with Some v => vq_Signature <$> v | None => [] end.

Definition pvSigs (m : PrepareVote) : list Z := pv_Signature m :: qcSigs (pv_ParentQC m).
Definition pcSigs (m : PreCommit) : list Z := pc_Signature m :: qcSigs (pc_ParentQC m).
Definition vcSigs (m : ViewChange) : list Z := vc_Signature m :: qcSigs (vc_PrepareQC m).

Definition msgSigs (m : ConsensusMsg) : list Z :=
  match m with
  | MPrepareBlock m =>
      pb_Signature m :: qcSigs (pb_PrepareQC m) ++ vcqcSigs (pb_ViewChangeQC m)
  | MPrepareVote m => pvSigs m
  | MPreCommit m => pcSigs m
  | MViewChange m => vcSigs m
  end.

(** The signatures of an event. *)
Definition sigsOf (ev : Event) : list Z :=
  match ev with
  | EConsensus _ m => msgSigs m
  | EBlockQC _ qc | EBlockPreCommitQC _ qc => qcSigs (Some qc)
  | EPrepareVotes _ _ l => l ≫= pvSigs
  | EPreCommits _ _ l => l ≫= pcSigs
  | EViewChanges _ _ l => l ≫= vcSigs
  | EViewChangeQC _ v h => vcqcSigs (Some v) ++ vcqcSigs h
  | EGetLatestStatus _ _ _ _ q _ l _ | ELatestStatus _ _ _ _ q _ l _ => qcSigs q ++ qcSigs l
  | EInsertChain _ q => qcSigs q
  | EFetched _ qcs => qc_Signature <$> qcs
  | _ => []
  end.

(** Heights are below [MaxUint64] and indexes are not negative. *)
Definition heightOk (n : Z) : bool := (0 <=? n) && (n <? MaxUint64).

Definition msgOk (m : ConsensusMsg) : bool :=
  match m with
  | MPrepareBlock m => heightOk (bNumber (pb_Block m))
  | MPrepareVote m => heightOk (pv_BlockNumber m) && (0 <=? pv_ValidatorIndex m)
  | MPreCommit m => heightOk (pc_BlockNumber m) && (0 <=? pc_ValidatorIndex m)
  | MViewChange m => heightOk (vc_BlockNumber m) && (0 <=? vc_ValidatorIndex m)
  end.

Definition eventOk (ev : Event) : bool :=
  match ev with
  | EConsensus _ m => msgOk m
  | EBlockQC _ qc | EBlockPreCommitQC _ qc => heightOk (qc_BlockNumber qc)
  | EPrepareVotes _ _ l => forallb msgOk (MPrepareVote <$> l)
  | EPreCommits _ _ l => forallb msgOk (MPreCommit <$> l)
  | EViewChanges _ _ l => forallb msgOk (MViewChange <$> l)
  | EInsertChain b _ => heightOk (bNumber b)
  | EFetched bs _ => forallb heightOk (bNumber <$> bs)
  | ESeal b => heightOk (bNumber b)
  | _ => true
  end.

(** ** What a node has said *)

(** The digests that a node has signed for others to see. *)
Definition releasedDigest (o : Output) : option (list Z) :=
  match o with
  | OBroadcast (NConsensus m) => Some (CannibalizeBytes m)
  | ORelease v => Some (vcDigest v)
  | _ => None
  end.

Definition released (out : list Output) (d : list Z) : Prop :=
  ∃ o, o ∈ out ∧ releasedDigest o = Some d.

(** ** The network *)

Context (nodes : list (Z * Z * PublicKey)) (period : Z) (genesis : Block).
(** The correct nodes, by node ID, with their keys. *)
Context (keys : gmap Z SecretKey).

Let agency : Agency := StaticAgency nodes.
#[local] Existing Instance agency.

Definition validators : Validators := newValidators nodes 0.

Definition configOf (id : Z) (key : SecretKey) : Config := mkConfig _ 1 period id key.

(** The nodes that run; the outputs of all correct nodes, also of those that
    have stopped. *)
Record Sys := mkSys {
  sys_nodes : gmap Z Node;
  sys_out : gmap Z (list Output);
}.

Definition outOf (w : gmap Z (list Output)) (id : Z) : list Output := default [] (w !! id).

(** A signature that verifies for the sum of the keys of validators has been
    made by each of them: those that are correct have released it. *)
Definition authentic (w : gmap Z (list Output)) (sign : Z) : Prop :=
  ∀ (v : ValidateNode) (vs : list ValidateNode) (d : list Z) (u : ValidateNode),
    NoDup (v :: vs) → v :: vs ⊆ (map_to_list (vs_Nodes validators)).*2 →
    blsVerify (aggPub (vn_BlsPubKey v) vs) d sign = Ok tt →
    u ∈ v :: vs → is_Some (keys !! vn_NodeID u) → released (outOf w (vn_NodeID u)) d.

Inductive step : Sys → Sys → Prop :=
  | step_start sys id key now n :
      keys !! id = Some key → sys_out sys !! id = None →
      start (configOf id key) now genesis None = Ok n →
      step sys (mkSys (<[id := n]> (sys_nodes sys)) (<[id := n_out n]> (sys_out sys)))
  | step_handle sys id key now ev n r n' :
      keys !! id = Some key → sys_nodes sys !! id = Some n →
      eventOk ev = true → Forall (authentic (sys_out sys)) (sigsOf ev) →
      handle (configOf id key) now ev n = (r, n') → r ≠ Panic →
      step sys (mkSys (<[id := n']> (sys_nodes sys)) (<[id := n_out n']> (sys_out sys)))
  | step_crash sys id key now ev n n' :
      keys !! id = Some key → sys_nodes sys !! id = Some n →
      eventOk ev = true → Forall (authentic (sys_out sys)) (sigsOf ev) →
      handle (configOf id key) now ev n = (Panic, n') →
      step sys (mkSys (delete id (sys_nodes sys)) (<[id := n_out n']> (sys_out sys))).

Definition initial : Sys := mkSys ∅ ∅.

Definition reachable : Sys → Prop := rtc step initial.
End system.
