(* ===== verification/Triples.v ===== *)
(** Weakest preconditions of the state and error monad.

    [wp m Q E P s]: the run of [m] from [s] ends in [Q] with a result, in [E]
    with an error, or in [P] with a panic.  A handler that fails leaves the
    node running in the state it reached, so errors need a postcondition; a
    panic ends the node, and only what it has put out before matters. *)

From S2P Require Import Prelude.

Definition wp {S A} (m : M S A) (Q : A → S → Prop) (E P : S → Prop) (s : S) : Prop :=
  match m s with
  | (Ok a, s') => Q a s'
  | (Err _, s') => E s'
  | (Panic, s') => P s'
  end.

Section rules.
Context {S : Type} (E P : S → Prop).
Implicit Types s : S.

Lemma wp_ret {A} (a : A) (Q : A → S → Prop) s : Q a s → wp (mret a) Q E P s.
Proof. done. Qed.

Lemma wp_bind {A B} (m : M S A) (k : A → M S B) (Q : B → S → Prop) s :
  wp m (λ a s', wp (k a) Q E P s') E P s → wp (m ≫= k) Q E P s.
Proof.
  unfold wp, mbind, M_bind. destruct (m s) as [[a|e|] s']; done.
Qed.

Lemma wp_mono {A} (m : M S A) (Q Q' : A → S → Prop) (E' P' : S → Prop) s :
  wp m Q' E' P' s → (∀ a s', Q' a s' → Q a s') → (∀ s', E' s' → E s') → (∀ s', P' s' → P s') →
  wp m Q E P s.
Proof. unfold wp. destruct (m s) as [[a|e|] s']; auto. Qed.

Lemma wp_get (Q : S → S → Prop) s : Q s s → wp get Q E P s.
Proof. done. Qed.

Lemma wp_gets {A} (f : S → A) (Q : A → S → Prop) s : Q (f s) s → wp (gets f) Q E P s.
Proof. done. Qed.

Lemma wp_modify f (Q : unit → S → Prop) s : Q tt (f s) → wp (modify f) Q E P s.
Proof. done. Qed.

Lemma wp_ask {A} (o : outcome A) (Q : A → S → Prop) s :
  (∀ a, o = Ok a → Q a s) → E s → P s → wp (ask o) Q E P s.
Proof. unfold wp, ask. destruct o; auto. Qed.

Lemma wp_ask_Ok {A} (a : A) (Q : A → S → Prop) s : Q a s → wp (ask (Ok a)) Q E P s.
Proof. done. Qed.

Lemma wp_fail {A} e (Q : A → S → Prop) s : E s → wp (fail e) Q E P s.
Proof. done. Qed.

Lemma wp_panic {A} (Q : A → S → Prop) s : P s → wp panic Q E P s.
Proof. done. Qed.

Lemma wp_when b m (Q : unit → S → Prop) s :
  (b = true → wp m Q E P s) → (b = false → Q tt s) → wp (when b m) Q E P s.
Proof. destruct b; cbn; auto. Qed.

Lemma wp_try {A} (m : M S A) (Q : A + Error → S → Prop) s :
  wp m (λ a, Q (inl a)) (λ s', ∀ e, Q (inr e) s') P s → wp (try m) Q E P s.
Proof. unfold wp, try. destruct (m s) as [[a|e|] s']; auto. Qed.

(** A loop keeps an invariant. *)
Lemma wp_for_each {A} (f : A → M S unit) (I : S → Prop) l s :
  I s → (∀ a s', a ∈ l → I s' → wp (f a) (λ _, I) E P s') →
  wp (for_each f l) (λ _, I) E P s.
Proof.
  revert s. induction l as [|a l IH]; intros s Hs Hf; [done|].
  cbn [for_each]. apply wp_bind.
  eapply wp_mono; [apply Hf; [left|exact Hs]| |done|done].
  intros [] s' Hs'. apply IH; [done|]. intros b s'' Hb. apply Hf. by right.
Qed.
End rules.

(** One step of the derivation of a weakest precondition. *)
Ltac wp_step :=
  lazymatch goal with
  | |- wp (_ ≫= _) _ _ _ _ => apply wp_bind
  | |- wp (mret _) _ _ _ _ => apply wp_ret
  | |- wp get _ _ _ _ => apply wp_get
  | |- wp (gets _) _ _ _ _ => apply wp_gets
  | |- wp (modify _) _ _ _ _ => apply wp_modify
  | |- wp (fail _) _ _ _ _ => apply wp_fail
  | |- wp panic _ _ _ _ => apply wp_panic
  | |- wp (try _) _ _ _ _ => apply wp_try
  | |- wp (when _ _) _ _ _ _ => apply wp_when; intros ?
  | |- wp (match ?x with _ => _ end) _ _ _ _ => destruct x eqn:?
  | |- wp (let '(_, _) := ?x in _) _ _ _ _ => destruct x eqn:?
  end.
