(* ===== verification/PbftTree.v ===== *)
(** The tree of certified blocks: its invariant, and what an insertion above
    all of its blocks and the pruning after a commit do to it. *)

From S2P Require Import Prelude Triples BitArray PbftTypes BlockTree.

Section tree.
Context `{Crypto}.
Implicit Types (t : BlockTree) (e : blockExt) (b c : Block).

(** The certificate of a node is for its block; the genesis block has
    none. *)
Definition certified (e : blockExt) : Prop :=
  (bNumber (be_Block e) = 0 ∧ be_QC e = None)
  ∨ ∃ q, be_QC e = Some q ∧ qc_BlockNumber q = bNumber (be_Block e)
         ∧ qc_BlockHash q = Hash (be_Block e).

(** [had n h]: the tree has, or once had, a block of this height and hash;
    [top] is the greatest height. *)
Record treeOk (had : Z → Z → Prop) (top : Z) (t : BlockTree) : Prop := {
  tree_entry : ∀ h k p, findBlockExt t h k = Some p →
    ∃ e, bt_heap t !! p = Some e ∧ bNumber (be_Block e) = k ∧ Hash (be_Block e) = h
         ∧ 0 <= k <= top ∧ had k h ∧ certified e;
  tree_parent : ∀ p e q, bt_heap t !! p = Some e → be_Parent e = Some q →
    ∃ e', bt_heap t !! q = Some e' ∧ Hash (be_Block e') = bParentHash (be_Block e)
          ∧ bNumber (be_Block e) = bNumber (be_Block e') + 1;
  tree_root : ∀ p, bt_root t = Some p →
    ∃ e, bt_heap t !! p = Some e ∧ bNumber (be_Block e) <= top;
  tree_next : ∀ p, is_Some (bt_heap t !! p) → (p < bt_next t)%nat;
}.

Lemma treeOk_mono (had had' : Z → Z → Prop) top top' t :
  (∀ k h, had k h → had' k h) → top <= top' → treeOk had top t → treeOk had' top' t.
Proof.
  intros Hh Ht [He Hp Hr Hn]. split; [|done| |done].
  - intros h k p Hk. destruct (He _ _ _ Hk) as (e & ? & ? & ? & ? & ? & ?).
    exists e. split_and!; auto; lia.
  - intros p Hp1. destruct (Hr p Hp1) as (e & ? & ?). exists e. split; [done|lia].
Qed.

(** *** Lookups *)

Lemma findBlockExt_blocks t k m h p :
  bt_blocks t !! k = Some m → m !! h = Some p → findBlockExt t h k = Some p.
Proof. intros Hk Hh. unfold findBlockExt. rewrite Hk. done. Qed.

Lemma extsAt_elem t k p e :
  (p, e) ∈ extsAt t k → bt_heap t !! p = Some e ∧ ∃ h, findBlockExt t h k = Some p.
Proof.
  unfold extsAt. destruct (bt_blocks t !! k) as [m|] eqn:Hk; [|by intros ?%elem_of_nil].
  intros ([h q] & Hin & Hq)%list_elem_of_omap. cbn in Hq.
  destruct (bt_heap t !! q) as [e'|] eqn:He; cbn in Hq; [|done]. simplify_eq.
  split; [done|]. exists h. eapply findBlockExt_blocks; [done|]. by apply elem_of_map_to_list.
Qed.

Section lookups.
Context (had : Z → Z → Prop) (top : Z) (t : BlockTree) (Ht : treeOk had top t).

Lemma FindBlockAndQC_ok h k b q :
  FindBlockAndQC t h k = Some (b, q) →
  bNumber b = k ∧ Hash b = h ∧ 0 <= k <= top ∧ had k h
  ∧ (k = 0 ∧ q = None ∨ ∃ qc, q = Some qc ∧ qc_BlockNumber qc = k ∧ qc_BlockHash qc = h).
Proof.
  unfold FindBlockAndQC. destruct (findBlockExt t h k) as [p|] eqn:Hp; [|done].
  destruct (tree_entry _ _ _ Ht _ _ _ Hp) as (e & He & Hk & Hh & ? & ? & Hc).
  cbn [mbind option_bind]. rewrite He. cbn [mbind option_bind]. intros [= <- <-].
  do 4 (split; [done|]). unfold certified in Hc. rewrite Hk, Hh in Hc. naive_solver.
Qed.

Lemma FindBlockByHash_ok h b :
  FindBlockByHash t h = Some b →
  ∃ k, bNumber b = k ∧ Hash b = h ∧ 0 <= k <= top ∧ had k h.
Proof.
  unfold FindBlockByHash. intros Hb%head_Some_elem_of.
  apply list_elem_of_omap in Hb as ([k m] & Hin%elem_of_map_to_list & Hb). cbn in Hb.
  destruct (m !! h) as [p|] eqn:Hp; [|done]. cbn in Hb.
  destruct (tree_entry _ _ _ Ht h k p) as (e & He & Hk & Hh & ? & ? & Hc).
  { by eapply findBlockExt_blocks. }
  rewrite He in Hb. cbn in Hb. simplify_eq. eauto.
Qed.

Lemma entries_above k h : top < k → findBlockExt t h k = None.
Proof.
  intros Hk. destruct (findBlockExt t h k) as [p|] eqn:Hp; [|done].
  destruct (tree_entry _ _ _ Ht _ _ _ Hp) as (e & ? & ? & ? & ? & _). lia.
Qed.

Lemma blocks_above k : top < k → default ∅ (bt_blocks t !! k) = ∅.
Proof.
  intros Hk. destruct (bt_blocks t !! k) as [m|] eqn:Hm; [|done]. cbn. apply map_empty.
  intros h. pose proof (entries_above k h Hk) as Hn. unfold findBlockExt in Hn.
  by rewrite Hm in Hn.
Qed.

Lemma extsAt_above k : top < k → extsAt t k = [].
Proof.
  intros Hk. destruct (extsAt t k) as [|[p e] l] eqn:He; [done|].
  destruct (extsAt_elem t k p e) as [_ [h Hh]]; [rewrite He; left|].
  by rewrite entries_above in Hh.
Qed.

Lemma findParent_ok h n q :
  findParent t h n = Some q →
  ∃ e, bt_heap t !! q = Some e ∧ Hash (be_Block e) = h ∧ bNumber (be_Block e) = u64 (n - 1).
Proof.
  unfold findParent. intros ([q' e] & Hq & ->)%fmap_Some. apply head_Some_elem_of in Hq.
  apply list_elem_of_filter in Hq as [Hh Hin].
  apply extsAt_elem in Hin as [He [h' Hh']]. cbn in *. exists e.
  destruct (tree_entry _ _ _ Ht _ _ _ Hh') as (e' & ? & ? & ?). by simplify_eq.
Qed.
End lookups.

(** *** Small changes *)

(** Links, and the blocks that are looked up, may disappear. *)
Lemma treeOk_children had top t p x :
  treeOk had top t → treeOk had top (setHeap (alter (setChildren x) p (bt_heap t)) t).
Proof.
  intros [He Hp Hr Hn]. split; cbn.
  - intros h k q Hq. destruct (He h k q Hq) as (e & Heq & Hrest).
    destruct (decide (p = q)) as [->|].
    + exists (setChildren x e). rewrite lookup_alter_eq, Heq. done.
    + exists e. by rewrite lookup_alter_ne.
  - intros q e r Hq Hpar.
    assert (∃ e0, bt_heap t !! q = Some e0 ∧ be_Block e0 = be_Block e ∧ be_Parent e0 = be_Parent e)
      as (e0 & Hq0 & Hb & Hpp).
    { destruct (decide (p = q)) as [->|].
      - rewrite lookup_alter_eq in Hq. apply fmap_Some in Hq as (e0 & ? & ->). by exists e0.
      - rewrite lookup_alter_ne in Hq by done. by exists e. }
    rewrite <- Hb. destruct (Hp q e0 r) as (e' & He' & ? & ?); [done|by rewrite Hpp|].
    destruct (decide (p = r)) as [->|].
    + exists (setChildren x e'). rewrite lookup_alter_eq, He'. done.
    + exists e'. by rewrite lookup_alter_ne.
  - intros q Hroot. destruct (Hr q Hroot) as (e & Hq & ?). destruct (decide (p = q)) as [->|].
    + exists (setChildren x e). by rewrite lookup_alter_eq, Hq.
    + exists e. by rewrite lookup_alter_ne.
  - intros q Hq. apply Hn. destruct (decide (p = q)) as [->|].
    + by rewrite lookup_alter_eq, fmap_is_Some in Hq.
    + by rewrite lookup_alter_ne in Hq.
Qed.

Lemma treeOk_setParent had top t p x :
  treeOk had top t →
  (∀ q e, x = Some q → bt_heap t !! p = Some e →
     ∃ e', bt_heap t !! q = Some e' ∧ Hash (be_Block e') = bParentHash (be_Block e)
           ∧ bNumber (be_Block e) = bNumber (be_Block e') + 1) →
  treeOk had top (setHeap (alter (setParent x) p (bt_heap t)) t).
Proof.
  intros [He Hp Hr Hn] Hx.
  assert (Hkeep : ∀ q e', bt_heap t !! q = Some e' →
    ∃ e'', alter (setParent x) p (bt_heap t) !! q = Some e'' ∧ be_Block e'' = be_Block e'
           ∧ be_QC e'' = be_QC e').
  { intros q e' Hq. destruct (decide (p = q)) as [->|].
    - exists (setParent x e'). by rewrite lookup_alter_eq, Hq.
    - exists e'. by rewrite lookup_alter_ne. }
  split; cbn.
  - intros h k q Hq. destruct (He h k q Hq) as (e & Heq & ? & ? & ? & ? & Hc).
    destruct (Hkeep q e Heq) as (e'' & ? & Hb & Hqc). exists e''.
    unfold certified in *. rewrite Hb, Hqc. done.
  - intros q e r Hq Hpar.
    assert (∃ e0 e', bt_heap t !! q = Some e0 ∧ be_Block e0 = be_Block e ∧ bt_heap t !! r = Some e'
      ∧ Hash (be_Block e') = bParentHash (be_Block e0)
      ∧ bNumber (be_Block e0) = bNumber (be_Block e') + 1) as (e0 & e' & ? & <- & He' & ?).
    { destruct (decide (p = q)) as [->|].
      - rewrite lookup_alter_eq in Hq. apply fmap_Some in Hq as (e0 & Hq0 & ->).
        cbn in Hpar. destruct (Hx r e0) as (e' & ? & ? & ?); [done|done|]. by exists e0, e'.
      - rewrite lookup_alter_ne in Hq by done. destruct (Hp q e r Hq Hpar) as (e' & ? & ? & ?).
        by exists e, e'. }
    destruct (Hkeep r e' He') as (e'' & ? & Hb & _). exists e''. by rewrite Hb.
  - intros q Hroot. destruct (Hr q Hroot) as (e & Hq & ?).
    destruct (Hkeep q e Hq) as (e'' & ? & Hb & _). exists e''. by rewrite Hb.
  - intros q Hq. apply Hn. destruct (decide (p = q)) as [->|].
    + by rewrite lookup_alter_eq, fmap_is_Some in Hq.
    + by rewrite lookup_alter_ne in Hq.
Qed.

Lemma treeOk_blocks had top t bs :
  treeOk had top t →
  (∀ h k p, findBlockExt (setBlocks bs t) h k = Some p → findBlockExt t h k = Some p) →
  treeOk had top (setBlocks bs t).
Proof. intros [He Hp Hr Hn] Hsub. split; [|done..]. intros h k p Hk. cbn. by apply He, Hsub. Qed.

Lemma treeOk_root had top t r :
  treeOk had top t →
  (∀ p, r = Some p → ∃ e, bt_heap t !! p = Some e ∧ bNumber (be_Block e) <= top) →
  treeOk had top (setRoot r t).
Proof. intros [He Hp Hr Hn] Hroot. by split. Qed.

(** *** Insertion *)

(** A new node, which nothing points to. *)
Lemma treeOk_alloc had top t v b qc x :
  treeOk had top t →
  treeOk had top (mkTree (<[bt_next t := mkExt v b qc None x]> (bt_heap t))
                    (S (bt_next t)) (bt_root t) (bt_blocks t)).
Proof.
  intros [He Hp Hr Hn].
  assert (Hold : ∀ p e, bt_heap t !! p = Some e →
    <[bt_next t := mkExt v b qc None x]> (bt_heap t) !! p = Some e).
  { intros p e Hpe. rewrite lookup_insert_ne; [done|]. intros <-.
    assert (bt_next t < bt_next t)%nat by (by apply Hn). lia. }
  split; cbn.
  - intros h k p Hk. destruct (He h k p Hk) as (e & ? & ?). exists e. auto.
  - intros p e q Hpe Hq. destruct (decide (bt_next t = p)) as [<-|].
    + rewrite lookup_insert_eq in Hpe. by simplify_eq.
    + rewrite lookup_insert_ne in Hpe by done. destruct (Hp p e q Hpe Hq) as (e' & ? & ?).
      exists e'. auto.
  - intros p Hroot. destruct (Hr p Hroot) as (e & ? & ?). exists e. auto.
  - intros p Hpe. destruct (decide (bt_next t = p)) as [<-|]; [lia|].
    rewrite lookup_insert_ne in Hpe by done. specialize (Hn p Hpe). lia.
Qed.

(** The new node becomes the only one of its height. *)
Lemma treeOk_enter (had had' : Z → Z → Prop) top t p e :
  treeOk had top t → (∀ k h, had k h → had' k h) →
  bt_heap t !! p = Some e → certified e → 0 <= top < bNumber (be_Block e) →
  had' (bNumber (be_Block e)) (Hash (be_Block e)) →
  treeOk had' (bNumber (be_Block e))
    (setBlocks (<[bNumber (be_Block e) := {[Hash (be_Block e) := p]}]> (bt_blocks t)) t).
Proof.
  intros Ht Hhad Hpe Hc Htop Hn. split; cbn.
  - intros h k q Hq. unfold findBlockExt in Hq. cbn in Hq.
    destruct (decide (k = bNumber (be_Block e))) as [->|].
    + rewrite lookup_insert_eq in Hq. cbn in Hq.
      apply lookup_singleton_Some in Hq as [<- <-]. exists e. split_and!; auto; lia.
    + rewrite lookup_insert_ne in Hq by done.
      destruct (tree_entry _ _ _ Ht h k q Hq) as (e' & ? & ? & ? & ? & ? & ?).
      exists e'. split_and!; auto; lia.
  - apply (tree_parent _ _ _ Ht).
  - intros q Hq. destruct (tree_root _ _ _ Ht q Hq) as (e' & ? & ?). exists e'. split; [done|lia].
  - apply (tree_next _ _ _ Ht).
Qed.

(** Two trees with the same nodes, up to their links. *)
Definition sameHeap t t' : Prop :=
  ∀ p, (λ e, (be_Block e, be_QC e)) <$> bt_heap t' !! p
       = (λ e, (be_Block e, be_QC e)) <$> bt_heap t !! p.

Definition sameNodes t t' : Prop :=
  bt_blocks t' = bt_blocks t ∧ bt_root t' = bt_root t ∧ sameHeap t t'.

Lemma sameHeap_upd t0 t p f :
  (∀ e, (be_Block (f e), be_QC (f e)) = (be_Block e, be_QC e)) →
  sameHeap t0 t → sameHeap t0 (setHeap (alter f p (bt_heap t)) t).
Proof.
  intros Hf Hh q. cbn. rewrite <- Hh.
  destruct (decide (p = q)) as [->|]; [|by rewrite lookup_alter_ne].
  rewrite lookup_alter_eq. destruct (bt_heap t !! q); cbn; [by rewrite Hf|done].
Qed.

Lemma sameNodes_upd t0 t p f :
  (∀ e, (be_Block (f e), be_QC (f e)) = (be_Block e, be_QC e)) →
  sameNodes t0 t → sameNodes t0 (setHeap (alter f p (bt_heap t)) t).
Proof. intros Hf (Hb & Hr & Hh). split; [done|]. split; [done|]. by apply sameHeap_upd. Qed.

Lemma sameHeap_lookup t t' p e :
  sameHeap t t' → bt_heap t !! p = Some e →
  ∃ e', bt_heap t' !! p = Some e' ∧ be_Block e' = be_Block e ∧ be_QC e' = be_QC e.
Proof.
  intros Hh Hp. specialize (Hh p). rewrite Hp in Hh.
  apply fmap_Some in Hh as (e' & ? & ?). exists e'. by simplify_eq.
Qed.

(** Linking the highest block to its parent. *)
Lemma fixTree_ok had t p e :
  treeOk had (bNumber (be_Block e)) t → bt_heap t !! p = Some e →
  1 <= bNumber (be_Block e) < MaxUint64 →
  wp (fixTree p) (λ _ t', treeOk had (bNumber (be_Block e)) t' ∧ sameNodes t t')
    (λ _, False) (λ _, True) t.
Proof.
  intros Ht Hp Hn. unfold MaxUint64 in Hn.
  assert (Hchild : findChild t (Hash (be_Block e)) (bNumber (be_Block e)) = None).
  { unfold findChild. rewrite u64_small by (unfold in_u64; lia).
    by rewrite (extsAt_above _ _ _ Ht) by lia. }
  unfold fixTree. wp_step. unfold wp at 1, deref. rewrite Hp. wp_step. wp_step. wp_step. wp_step.
  rewrite Hchild. wp_step. wp_step; [|wp_step; done].
  rename n into q. apply (findParent_ok _ _ _ Ht) in Heqo as (eq & Hq & Hh & Hnum).
  rewrite u64_small in Hnum by (unfold in_u64; lia).
  wp_step. unfold addChild. wp_step. unfold wp at 1, deref. rewrite Hq.
  wp_step; [|wp_step; done]. unfold updExt. wp_step. wp_step. wp_step. split.
  - apply treeOk_setParent; [by apply treeOk_children|]. cbn. intros q' e0 [= <-] He0.
    exists (setChildren (Some (<[Hash (be_Block e):=p]> g)) eq).
    rewrite lookup_alter_eq, Hq. split; [done|]. cbn.
    destruct (decide (q = p)) as [->|].
    + rewrite lookup_alter_eq in He0. apply fmap_Some in He0 as (e1 & ? & ->). simplify_eq.
      cbn. lia.
    + rewrite lookup_alter_ne in He0 by done. simplify_eq. lia.
  - apply sameNodes_upd; [done|]. by apply (sameNodes_upd t t).
Qed.

(** A node that is alone at its height is the one that gets locked. *)
Lemma maxBlock_alone t p e :
  bt_blocks t !! bNumber (be_Block e) = Some {[Hash (be_Block e) := p]} →
  bt_heap t !! p = Some e → maxBlock p t = (Ok p, t).
Proof.
  intros Hb Hp. unfold maxBlock, mbind, M_bind, deref, get, mret, M_ret. rewrite Hp.
  unfold extsAt. rewrite Hb, map_to_list_singleton. cbn [omap list_omap fst snd].
  rewrite Hp. cbn [mbind option_bind omap list_omap foldl fst snd].
  by rewrite Z.ltb_irrefl.
Qed.

Lemma lockAndCommit_ok had top t p e :
  (∀ b c, Hash b = Hash c → b = c) →
  treeOk had top t → bt_heap t !! p = Some e →
  (∀ q e', bt_root t = Some q → bt_heap t !! q = Some e' →
     bNumber (be_Block e') < bNumber (be_Block e)) →
  wp (lockAndCommit p) (λ lc t', t' = t ∧ lc.1 = Some (be_Block e)
      ∧ ∀ c, lc.2 = Some c → Hash c = bParentHash (be_Block e)
                             ∧ bNumber (be_Block e) = bNumber c + 1)
    (λ _, False) (λ _, True) t.
Proof.
  intros Hinj Ht Hp Hroot. unfold lockAndCommit. wp_step. unfold wp at 1, deref. rewrite Hp.
  wp_step. unfold wp at 1, derefRoot, deref. destruct (bt_root t) as [r|]; [|done].
  destruct (bt_heap t !! r) as [er|] eqn:Hr; [|done].
  specialize (Hroot r er eq_refl Hr). case_match eqn:Hh.
  { apply Z.eqb_eq, Hinj in Hh. rewrite Hh in Hroot. lia. }
  wp_step; [|wp_step; done]. rename n into q.
  destruct (tree_parent _ _ _ Ht p e q Hp Heqo) as (eq & Hq & ? & ?).
  wp_step. unfold wp at 1, deref. rewrite Hq. wp_step. cbn.
  split; [done|]. split; [done|]. by intros c [= <-].
Qed.

(** A block above all others enters the tree, is locked, and its parent, if
    it is there, is the block to commit. *)
Lemma InsertQCBlock_ok (had had' : Z → Z → Prop) top t b q :
  (∀ b c, Hash b = Hash c → b = c) →
  treeOk had top t → (∀ k h, had k h → had' k h) → had' (bNumber b) (Hash b) →
  0 <= top < bNumber b → bNumber b < MaxUint64 →
  qc_BlockNumber q = bNumber b → qc_BlockHash q = Hash b →
  wp (InsertQCBlock b (Some q)) (λ lc t', treeOk had' (bNumber b) t'
      ∧ FindBlockAndQC t' (Hash b) (bNumber b) = Some (b, Some q)
      ∧ lc.1 = Some b
      ∧ ∀ c, lc.2 = Some c → Hash c = bParentHash b ∧ bNumber b = bNumber c + 1)
    (λ _, False) (λ _, True) t.
Proof.
  intros Hinj Ht Hhad Hb Htop Hmax Hqn Hqh. unfold InsertQCBlock, extView. wp_step.
  rewrite (proj2 (Z.eqb_neq (bNumber b) 0)) by lia. apply wp_ask_Ok.
  generalize (qc_ViewNumber q). intros v. wp_step. unfold wp at 1, allocExt.
  set (e := mkExt v b (Some q) None (Some ∅)).
  set (t1 := mkTree _ _ _ _).
  assert (Ht1 : treeOk had top t1) by (by apply treeOk_alloc).
  assert (Hp : bt_heap t1 !! bt_next t = Some e) by apply lookup_insert_eq.
  assert (Hr1 : ∀ r er, bt_root t1 = Some r → bt_heap t1 !! r = Some er →
                bNumber (be_Block er) < bNumber b).
  { intros r er Hr Her. destruct (tree_root _ _ _ Ht1 r Hr) as (e' & ? & ?). simplify_eq. lia. }
  generalize dependent (bt_next t). intros p t1 Ht1 Hp Hr1. unfold insertBlock.
  wp_step. unfold wp at 1, deref. rewrite Hp. wp_step. wp_step. cbn [be_Block e].
  rewrite (blocks_above _ _ _ Ht1) by lia. rewrite lookup_empty.
  rewrite bool_decide_false by (intros [? ?]; done). wp_step. wp_step. wp_step.
  set (t2 := setBlocks _ t1).
  assert (Ht2 : treeOk had' (bNumber b) t2).
  { apply (treeOk_enter had had' top t1 p e); try done. right. by exists q. }
  assert (Hp2 : bt_heap t2 !! p = Some e) by exact Hp.
  eapply wp_mono; [apply (fixTree_ok had' t2 p e); [done|done|cbn; lia]| |done|done].
  intros [] t3 [Ht3 (Hbl & Hro & Hnodes)].
  destruct (bt_heap t3 !! p) as [e3|] eqn:Hp3; last first.
  { specialize (Hnodes p). rewrite Hp3 in Hnodes. by rewrite Hp2 in Hnodes. }
  assert (be_Block e3 = b ∧ be_QC e3 = Some q) as [Hb3 Hq3].
  { specialize (Hnodes p). rewrite Hp3 in Hnodes. rewrite Hp2 in Hnodes.
    by simplify_eq/=. }
  assert (Hbl3 : bt_blocks t3 !! bNumber b = Some {[Hash b := p]}).
  { rewrite Hbl. cbn. apply lookup_insert_eq. }
  wp_step. unfold wp at 1. rewrite (maxBlock_alone t3 p e3) by (by rewrite ?Hb3).
  eapply wp_mono; [eapply (lockAndCommit_ok had' _ t3 p e3); try done| |done|done].
  - intros r er Hr Her. rewrite Hro in Hr. specialize (Hnodes r). rewrite Her in Hnodes.
    destruct (bt_heap t2 !! r) as [e2|] eqn:H2; [|done].
    injection Hnodes as Hbb _. rewrite Hb3, Hbb. by apply (Hr1 r).
  - intros [lock commit] t4 (-> & ? & ?). rewrite Hb3 in *. split; [done|]. split; [|done].
    unfold FindBlockAndQC, findBlockExt. rewrite Hbl3. cbn [mbind option_bind].
    rewrite lookup_singleton_eq. cbn [mbind option_bind]. rewrite Hp3.
    cbn [mbind option_bind]. by rewrite Hb3, Hq3.
Qed.

(** *** Pruning *)

Section prune.
Context (had : Z → Z → Prop) (top : Z) (t0 : BlockTree).

(** Pruning removes links and entries, and moves the root. *)
Definition pruned (t : BlockTree) : Prop := treeOk had top t ∧ sameHeap t0 t.

Abbreviation wpp m t := (wp m (λ _ t', pruned t') (λ _, False) (λ _, True) t).

Lemma pruned_children p x t :
  pruned t → pruned (setHeap (alter (setChildren x) p (bt_heap t)) t).
Proof. intros [? ?]. split; [by apply treeOk_children|by apply sameHeap_upd]. Qed.

Lemma clearParent_ok p t : pruned t → wpp (clearParent p) t.
Proof.
  intros Ht. unfold clearParent. wp_step. unfold wp at 1, deref.
  destruct (bt_heap t !! p) as [e|]; [|done]. wp_step; [|by wp_step].
  unfold updExt. wp_step. wp_step. wp_step.
  destruct (pruned_children n None t Ht) as [? ?]. split.
  - by apply treeOk_setParent.
  - by apply sameHeap_upd.
Qed.

Lemma pruned_blocks bs t :
  (∀ h k p, findBlockExt (setBlocks bs t) h k = Some p → findBlockExt t h k = Some p) →
  pruned t → pruned (setBlocks bs t).
Proof. intros Hsub [? ?]. split; [by apply treeOk_blocks|done]. Qed.

Lemma deleteHash_ok number hash t : pruned t → wpp (deleteHash number hash) t.
Proof.
  intros Ht. unfold deleteHash. wp_step. apply pruned_blocks; [|done].
  intros h k p. unfold findBlockExt. cbn. destruct (decide (number = k)) as [->|].
  - rewrite lookup_alter_eq. destruct (bt_blocks t !! k) as [m|]; [|done]. cbn.
    by intros [_ ?]%lookup_delete_Some.
  - by rewrite lookup_alter_ne.
Qed.

Lemma deleteFrom_lookup n from bs k m :
  deleteFrom n from bs !! k = Some m → bs !! k = Some m.
Proof.
  revert from bs. induction n as [|n IH]; intros from bs Hk; [done|]. cbn in Hk.
  apply IH in Hk. by apply lookup_delete_Some in Hk as [_ ?].
Qed.

Lemma deleteBelow_ok number t : pruned t → wpp (deleteBelow number) t.
Proof.
  intros Ht. unfold deleteBelow. wp_step. unfold wp at 1, derefRoot, deref.
  destruct (bt_root t) as [r|]; [|done]. destruct (bt_heap t !! r) as [e|]; [|done].
  wp_step. apply pruned_blocks; [|done]. intros h k p. unfold findBlockExt. cbn.
  destruct (deleteFrom _ _ _ !! k) as [m|] eqn:Hk; [|done]. apply deleteFrom_lookup in Hk.
  by rewrite Hk.
Qed.

Lemma pruneBranch_ok fuel p t : pruned t → wpp (pruneBranch fuel p) t.
Proof.
  revert p t. induction fuel as [|fuel IH]; intros p t Ht; [done|]. cbn [pruneBranch].
  wp_step. unfold wp at 1, deref. destruct (bt_heap t !! p) as [e|]; [|done]. wp_step.
  eapply wp_mono; [apply (wp_for_each (λ _, False) (λ _, True) _ pruned)| |done|done]; [done| |].
  - intros [h c] t' _ Ht'. wp_step. unfold wp at 1, deref. cbn [fst snd].
    destruct (bt_heap t' !! c) as [ec|]; [|done]. wp_step. wp_step. wp_step; [|by wp_step].
    wp_step. eapply wp_mono; [by apply clearParent_ok| |done|done]. intros [] t1 Ht1.
    wp_step. eapply wp_mono; [by apply deleteHash_ok| |done|done]. intros [] t2 Ht2.
    by apply IH.
  - intros [] t' Ht'. unfold updExt. wp_step. by apply pruned_children.
Qed.

Lemma pruned_root r t :
  (∀ p, r = Some p → ∃ e, bt_heap t !! p = Some e ∧ bNumber (be_Block e) <= top) →
  pruned t → pruned (setRoot r t).
Proof. intros Hr [? ?]. split; [by apply treeOk_root|done]. Qed.

Lemma pruned_entry h k p t :
  pruned t → findBlockExt t h k = Some p →
  ∀ t', pruned t' → ∃ e, bt_heap t' !! p = Some e ∧ bNumber (be_Block e) <= top.
Proof.
  intros [Ht Hs] Hp t' [_ Hs']. destruct (tree_entry _ _ _ Ht _ _ _ Hp) as (e & He & <- & ? & ? & _).
  specialize (Hs p). specialize (Hs' p). rewrite He in Hs. rewrite <- Hs in Hs'.
  apply fmap_Some in Hs' as (e' & He' & [= Hb _]). exists e'. rewrite <- Hb. split; [done|lia].
Qed.

Lemma PruneBlock_ok hash number t : pruned t → wpp (PruneBlock hash number) t.
Proof.
  intros Ht. unfold PruneBlock. wp_step.
  eapply wp_mono; [by apply deleteBelow_ok| |done|done]. intros [] t1 Ht1.
  wp_step. wp_step. wp_step; [|by wp_step]. rename g into m.
  eapply wp_mono; [apply (wp_for_each (λ _, False) (λ _, True) _ pruned)|done..]; [done|].
  intros [h p] t' Hin%elem_of_map_to_list Ht'. cbn [fst snd]. wp_step.
  eapply wp_mono; [by apply clearParent_ok| |done|done]. intros [] t2 Ht2.
  wp_step.
  - wp_step. apply pruned_root; [|done]. intros ? [= <-].
    eapply (pruned_entry h number p t1); [done| |done]. by eapply findBlockExt_blocks.
  - wp_step. eapply wp_mono; [by apply deleteHash_ok| |done|done]. intros [] t3 Ht3.
    by apply pruneBranch_ok.
Qed.

Lemma NewRoot_ok b t : pruned t → wpp (NewRoot b) t.
Proof.
  intros Ht. unfold NewRoot. wp_step.
  eapply wp_mono; [by apply deleteBelow_ok| |done|done]. intros [] t1 Ht1.
  wp_step. apply pruned_root; [|done]. intros p Hp. by eapply (pruned_entry _ _ p t1).
Qed.
End prune.
End tree.
