(* ===== verification/PbftQuorum.v ===== *)
(** Quorums of validators, and what a certificate says about its signers. *)

From S2P Require Import Prelude BitArray PbftTypes PbftValidators BlockTree PbftEvidence PbftState PbftRules PbftNode PbftEngine PbftSync PbftSystem.

Lemma StronglySorted_seq k n : StronglySorted Nat.le (seq k n).
Proof.
  revert k. induction n as [|n IH]; intros k; cbn; constructor; [done|].
  apply Forall_forall. intros j Hj%elem_of_seq. unfold Nat.le. lia.
Qed.

Lemma value_elem {A} (m : gmap Z A) i v : m !! i = Some v → v ∈ (map_to_list m).*2.
Proof.
  intros Hi. apply list_elem_of_fmap. exists (i, v). split; [done|].
  by apply elem_of_map_to_list.
Qed.

Lemma elem_value {A} (m : gmap Z A) v : v ∈ (map_to_list m).*2 → ∃ i, m !! i = Some v.
Proof.
  intros ([i w] & -> & Hi%elem_of_map_to_list)%list_elem_of_fmap. by exists i.
Qed.

Section quorum.
Context `{CR : Crypto}.
Context (nodes : list (Z * Z * PublicKey)) (genesis : Block) (keys : gmap Z SecretKey).

Abbreviation vs := (validators nodes).

(** ** The static validators *)

Definition members : list ValidateNode := (map_to_list (vs_Nodes vs)).*2.

(** The list of nodes is a list: its node IDs are different and there are
    fewer of them than indexes. *)
Definition nodesOk : Prop :=
  NoDup ((λ x, x.1.1) <$> nodes) ∧ (Z.of_nat (length nodes) < 2 ^ 32).

Context (Hnodes : nodesOk).

Lemma newNodes_lookup l i m id :
  (∀ x, x ∈ l → m !! x.1.1 = None) → NoDup ((λ x, x.1.1) <$> l) →
  newNodes l i m !! id =
    match list_find (λ x : Z * Z * PublicKey, x.1.1 = id) l with
    | Some (k, x) => Some (mkVN (u32 (i + Z.of_nat k)) x.1.2 id x.2)
    | None => m !! id
    end.
Proof.
  revert i m. induction l as [|[[id' a] p] l IH]; intros i m Hm Hl; [done|].
  cbn [newNodes list_find fst snd]. apply NoDup_cons in Hl as [Hnin Hl]. cbn in Hnin.
  rewrite IH; [|intros x Hx; rewrite lookup_insert_ne; [apply Hm; by right|]|done].
  - destruct (decide (id' = id)) as [->|Hne].
    + destruct (list_find _ l) as [[k x]|] eqn:Hf.
      * apply list_find_Some in Hf as (Hk & Hx & _). exfalso. apply Hnin.
        rewrite <- Hx. apply list_elem_of_fmap. exists x. split; [done|].
        by eapply list_elem_of_lookup_2.
      * rewrite lookup_insert_eq. cbn [fst snd].
        by replace (i + Z.of_nat 0) with i by lia.
    + destruct (list_find _ l) as [[k x]|];
        cbn [fmap option_fmap option_map prod_map fst snd].
      * do 3 f_equal. lia.
      * by rewrite lookup_insert_ne.
  - intros ->. apply Hnin. apply list_elem_of_fmap. by exists x.
Qed.

Lemma validators_lookup id :
  vs_Nodes vs !! id =
    (λ kx, mkVN (u32 (Z.of_nat kx.1)) kx.2.1.2 id kx.2.2)
      <$> list_find (λ x : Z * Z * PublicKey, x.1.1 = id) nodes.
Proof.
  unfold validators, newValidators. cbn. rewrite newNodes_lookup; [|done|apply Hnodes].
  by destruct (list_find _ nodes) as [[k x]|].
Qed.

Lemma members_lookup u : u ∈ members ↔ vs_Nodes vs !! vn_NodeID u = Some u.
Proof.
  unfold members. split.
  - intros ([id v] & -> & Hin%elem_of_map_to_list)%list_elem_of_fmap. cbn in *.
    assert (vn_NodeID v = id) as ->; [|done].
    rewrite validators_lookup in Hin. apply fmap_Some in Hin as (kx & _ & ->). done.
  - intros Hu. apply list_elem_of_fmap. exists (vn_NodeID u, u). split; [done|].
    by apply elem_of_map_to_list.
Qed.

Lemma members_id u v : u ∈ members → v ∈ members → vn_NodeID u = vn_NodeID v → u = v.
Proof. rewrite !members_lookup. intros Hu Hv Hid. rewrite Hid in Hu. naive_solver. Qed.

Lemma members_index_pos u :
  u ∈ members →
  ∃ x, nodes !! Z.to_nat (vn_Index u) = Some x ∧ x.1.1 = vn_NodeID u
       ∧ 0 <= vn_Index u < Z.of_nat (length nodes).
Proof.
  rewrite members_lookup, validators_lookup. intros ([k x] & Hf & Hu)%fmap_Some.
  apply list_find_Some in Hf as (Hk & Hx & _). cbn in *.
  pose proof (lookup_lt_Some _ _ _ Hk). destruct Hnodes as [_ Hlen].
  assert (Hi : vn_Index u = Z.of_nat k).
  { rewrite Hu. cbn. apply u32_small. unfold in_u32. lia. }
  rewrite Hi, Nat2Z.id. exists x. split; [done|]. split; [done|lia].
Qed.

Lemma members_index u v : u ∈ members → v ∈ members → vn_Index u = vn_Index v → u = v.
Proof.
  intros Hu Hv Hi. apply members_id; [done..|].
  destruct (members_index_pos u Hu) as (x & Hx & <- & _).
  destruct (members_index_pos v Hv) as (y & Hy & <- & _).
  rewrite Hi in Hx. by simplify_eq.
Qed.

Lemma members_NoDup : NoDup members.
Proof.
  unfold members. apply NoDup_fmap_2_strong; [|apply NoDup_map_to_list].
  intros [i u] [j v] Hu%elem_of_map_to_list Hv%elem_of_map_to_list Huv. cbn in Huv. subst v.
  rewrite validators_lookup in Hu, Hv. apply fmap_Some in Hu as (? & _ & ->).
  apply fmap_Some in Hv as (? & _ & Heq). by simplify_eq/=.
Qed.

Lemma members_index_set : vn_Index <$> members ≡ₚ seqZ 0 (Z.of_nat (length nodes)).
Proof.
  apply NoDup_Permutation.
  - apply NoDup_fmap_2_strong; [|apply members_NoDup]. intros u v. apply members_index.
  - apply NoDup_seqZ.
  - intros k. rewrite list_elem_of_fmap, elem_of_seqZ. split.
    + intros (u & -> & Hu). destruct (members_index_pos u Hu) as (x & _ & _ & ?). lia.
    + intros Hk. destruct (lookup_lt_is_Some_2 nodes (Z.to_nat k)) as [x Hx]; [lia|].
      destruct Hnodes as [Hnd Hlen].
      exists (mkVN (u32 (Z.of_nat (Z.to_nat k))) x.1.2 x.1.1 x.2). cbn.
      rewrite u32_small by (unfold in_u32; lia). split; [lia|].
      apply members_lookup. cbn. rewrite validators_lookup. apply fmap_Some.
      exists (Z.to_nat k, x). cbn. rewrite u32_small by (unfold in_u32; lia). split; [|done].
      apply list_find_Some. split; [done|]. split; [done|].
      intros j y Hy Hj Heq. assert (j = Z.to_nat k); [|lia].
      eapply NoDup_lookup; [exact Hnd| |].
      * rewrite list_lookup_fmap, Hy. done.
      * rewrite list_lookup_fmap, Hx. cbn. by rewrite Heq.
Qed.

Lemma members_length : length members = length nodes.
Proof.
  pose proof (Permutation_length members_index_set) as Hl.
  rewrite length_fmap, length_seqZ in Hl. lia.
Qed.

Lemma vsLen_nodes : vsLen vs = Z.of_nat (length nodes).
Proof.
  unfold vsLen. rewrite <- length_map_to_list, <- (length_fmap snd).
  by rewrite <- members_length.
Qed.

(** The sorted list has every node at its index. *)
Lemma sortedNodes_perm : sortedNodes vs ≡ₚ members.
Proof. apply merge_sort_Permutation. Qed.

#[local] Instance indexLe_total : Total indexLe.
Proof. intros u v. unfold indexLe. lia. Qed.
#[local] Instance indexLe_trans : Transitive indexLe.
Proof. intros u v x. unfold indexLe. lia. Qed.

Lemma sortedNodes_index : vn_Index <$> sortedNodes vs = seqZ 0 (Z.of_nat (length nodes)).
Proof.
  apply (Sorted_unique Z.le).
  - apply Sorted_fmap with (R1 := indexLe); [by intros u v|]. apply (Sorted_merge_sort _).
  - apply StronglySorted_Sorted. unfold seqZ.
    apply StronglySorted_fmap with (R1 := Nat.le); [unfold Nat.le; lia|].
    apply StronglySorted_seq.
  - by rewrite sortedNodes_perm, members_index_set.
Qed.

Lemma sortedNodes_lookup k u :
  sortedNodes vs !! k = Some u → u ∈ members ∧ vn_Index u = Z.of_nat k.
Proof.
  intros Hk. split.
  - rewrite <- sortedNodes_perm. by eapply list_elem_of_lookup_2.
  - pose proof sortedNodes_index as Hi.
    assert ((vn_Index <$> sortedNodes vs) !! k = Some (vn_Index u)) as Hu
      by (by rewrite list_lookup_fmap, Hk).
    rewrite Hi in Hu. apply lookup_seqZ in Hu. lia.
Qed.

Lemma sortedNodes_NoDup : NoDup (sortedNodes vs).
Proof. rewrite sortedNodes_perm. apply members_NoDup. Qed.

(** ** Quorums *)

(** The validator is correct. *)
Definition honest (u : ValidateNode) : Prop := is_Some (keys !! vn_NodeID u).

#[export] Instance honest_dec u : Decision (honest u).
Proof. unfold honest. apply _. Defined.

(** Fewer than a third of the validators are not correct. *)
Definition faultBound : Prop :=
  3 * Z.of_nat (length (base.filter (λ u, ¬ honest u) members)) < Z.of_nat (length nodes).

(** Enough validators for a certificate, of which the correct ones have [P]. *)
Definition quorum (P : ValidateNode → Prop) : Prop :=
  ∃ S, NoDup S ∧ S ⊆ members ∧ threshold (Z.of_nat (length nodes)) <= Z.of_nat (length S)
       ∧ ∀ u, u ∈ S → honest u → P u.

Lemma quorum_mono (P P' : ValidateNode → Prop) :
  (∀ u, u ∈ members → honest u → P u → P' u) → quorum P → quorum P'.
Proof. intros HP (S & ? & ? & ? & HS). exists S. do 3 (split; [done|]). auto. Qed.

Lemma threshold_bound n :
  0 < n → threshold n <= n ∧ n < 3 * (2 * threshold n - n).
Proof.
  intros Hn. unfold threshold. rewrite Z.quot_div_nonneg by lia.
  pose proof (Z.div_mod (n - 1) 3 ltac:(lia)). pose proof (Z.mod_pos_bound (n - 1) 3 ltac:(lia)).
  lia.
Qed.

Definition idSet (l : list ValidateNode) : gset Z := list_to_set (vn_NodeID <$> l).

Lemma elem_of_idSet x l : x ∈ idSet l ↔ ∃ u, u ∈ l ∧ vn_NodeID u = x.
Proof.
  unfold idSet. rewrite elem_of_list_to_set, list_elem_of_fmap. naive_solver.
Qed.

Lemma size_idSet l : NoDup l → l ⊆ members → size (idSet l) = length l.
Proof.
  intros Hl Hs. unfold idSet. rewrite size_list_to_set; [by rewrite length_fmap|].
  apply NoDup_fmap_2_strong; [|done]. intros u v Hu Hv. apply members_id; auto.
Qed.

(** Two quorums share a correct validator. *)
Lemma quorum_inter P P' :
  faultBound → quorum P → quorum P' → ∃ u, u ∈ members ∧ honest u ∧ P u ∧ P' u.
Proof.
  intros Hf (S & HS & HSm & HSt & HSP) (S' & HS' & HSm' & HSt' & HSP').
  set (bad := idSet (base.filter (λ u, ¬ honest u) members)).
  assert (Hbad : size bad = length (base.filter (λ u, ¬ honest u) members)).
  { apply size_idSet; [apply NoDup_filter, members_NoDup|].
    intros u Hu. by apply list_elem_of_filter in Hu as [_ ?]. }
  assert (Hall : idSet S ∪ idSet S' ⊆ idSet members).
  { intros x. rewrite elem_of_union, !elem_of_idSet. naive_solver. }
  apply subseteq_size in Hall. rewrite (size_idSet members) in Hall by (done || apply members_NoDup).
  rewrite members_length in Hall. pose proof (size_union_alt (idSet S) (idSet S')) as Hu.
  assert (Hi : size (idSet S') = (size (idSet S' ∖ idSet S) + size (idSet S ∩ idSet S'))%nat).
  { rewrite <- size_union by set_solver. f_equal. apply set_eq. intros x.
    destruct (decide (x ∈ idSet S)); set_solver. }
  rewrite size_idSet in Hu by done. rewrite (size_idSet S') in Hi by done.
  unfold faultBound in Hf. pose proof (threshold_bound (Z.of_nat (length nodes)) ltac:(lia)).
  destruct (set_choose_or_empty ((idSet S ∩ idSet S') ∖ bad)) as [[x Hx]|He].
  - apply elem_of_difference in Hx as [[Hx Hx']%elem_of_intersection Hb].
    apply elem_of_idSet in Hx as (u & Hu1 & <-). apply elem_of_idSet in Hx' as (v & Hv1 & Hv2).
    assert (v = u) as -> by (apply members_id; auto). exists u.
    assert (honest u).
    { destruct (decide (honest u)); [done|]. exfalso. apply Hb, elem_of_idSet. exists u.
      split; [|done]. apply list_elem_of_filter. auto. }
    auto.
  - assert (idSet S ∩ idSet S' ⊆ bad) as Hsub%subseteq_size; [|lia].
    intros x Hx. destruct (decide (x ∈ bad)); [done|]. exfalso.
    apply (not_elem_of_empty (C:=gset Z) x). rewrite <- He. by apply elem_of_difference.
Qed.

Lemma quorum_honest P : faultBound → quorum P → ∃ u, u ∈ members ∧ honest u ∧ P u.
Proof.
  intros Hf HP. destruct (quorum_inter P P Hf HP HP) as (u & ?). exists u. naive_solver.
Qed.

(** Votes of different validators make a quorum. *)
Lemma quorum_votes {A} (m : gmap Z A) (P : ValidateNode → Prop) :
  threshold (Z.of_nat (length nodes)) <= Z.of_nat (size m) →
  (∀ i a, m !! i = Some a → ∃ u, u ∈ members ∧ vn_Index u = i ∧ (honest u → P u)) →
  quorum P.
Proof.
  intros Hs Hm.
  assert (∃ S, (vn_Index <$> S) = (map_to_list m).*1 ∧ S ⊆ members
               ∧ ∀ u, u ∈ S → honest u → P u) as (S & HS & Hsub & HP).
  { assert (Hl : ∀ i a, (i, a) ∈ map_to_list m →
      ∃ u, u ∈ members ∧ vn_Index u = i ∧ (honest u → P u)).
    { intros i a Hi%elem_of_map_to_list. eauto. }
    clear Hs Hm. revert Hl. induction (map_to_list m) as [|[i a] l IH]; intros Hl.
    - exists []. split; [done|]. split; [intros ? ?%elem_of_nil; done|by intros ? ?%elem_of_nil].
    - destruct IH as (S & HS & Hsub & HP). { intros j b Hj. apply (Hl j b). by right. }
      destruct (Hl i a) as (u & Hu & Hi & HPu); [left|]. exists (u :: S). cbn.
      rewrite HS, Hi. split; [done|]. split.
      + intros v [->|Hv]%elem_of_cons; auto.
      + intros v [->|Hv]%elem_of_cons; auto. }
  exists S. split; [|split; [done|split; [|done]]].
  - apply (NoDup_fmap_1 vn_Index). rewrite HS. apply NoDup_fst_map_to_list.
  - rewrite <- (length_fmap vn_Index), HS, length_fmap, length_map_to_list. done.
Qed.

(** ** The pool of the static agency *)

Definition staticPool (id : Z) : ValidatorPool := mkVP id 0 0 1 (Some vs) vs.

Lemma NewValidatorPool_static id :
  @NewValidatorPool _ (StaticAgency nodes) 0 1 id = Ok (staticPool id).
Proof. done. Qed.

Lemma staticPool_at id e vs' : validatorsAt (staticPool id) e = Ok vs' → e <= 1 ∧ vs' = vs.
Proof.
  unfold validatorsAt, epochToBlockNumber. cbn [staticPool vp_epoch vp_switchPoint].
  destruct (1 <? e) eqn:He; [done|]. intros Hv. split; [lia|].
  destruct (u64 (e + 1) =? 1); cbn in Hv; [congruence|]. case_match; congruence.
Qed.

Lemma staticPool_len id e n : vpLen (staticPool id) e = Ok n → n = Z.of_nat (length nodes).
Proof.
  unfold vpLen. intros Hv. apply outcome_bind_Ok in Hv as (v & Hv & Hn).
  apply staticPool_at in Hv as [_ ->]. rewrite vsLen_nodes in Hn. congruence.
Qed.

Lemma staticPool_len1 id : vpLen (staticPool id) 1 = Ok (Z.of_nat (length nodes)).
Proof. by rewrite <- vsLen_nodes. Qed.

Lemma staticPool_switch id n : 0 <= n → ShouldSwitch (staticPool id) n = false.
Proof.
  intros Hn. unfold ShouldSwitch. cbn. destruct (n =? 0) eqn:Hz; [done|]. done.
Qed.

Lemma staticPool_equal id n : EqualSwitchPoint (staticPool id) n = false.
Proof. done. Qed.

Lemma staticPool_enable id e : EnableVerifyEpoch (staticPool id) e = Ok tt → e <= 1 ∨ 2 ^ 64 - 1 < e.
Proof.
  unfold EnableVerifyEpoch, u64. cbn [staticPool vp_epoch].
  destruct (((e + 1) mod 2 ^ 64 =? 1) || (e =? 1)) eqn:He; [|done]. intros _.
  destruct (decide (e <= 2 ^ 64 - 1)); [|lia]. left. apply orb_true_iff in He as [He|He]; [|lia].
  apply Z.eqb_eq in He. destruct (decide (0 <= e)); [|lia].
  destruct (decide (e = 2 ^ 64 - 1)) as [->|]; [done|]. rewrite Z.mod_small in He by lia. lia.
Qed.

Lemma staticPool_byIndex id e i u :
  GetValidatorByIndex (staticPool id) e i = Ok u →
  u ∈ members ∧ vn_Index u = Z.of_nat (Z.to_nat i).
Proof.
  unfold GetValidatorByIndex. intros Hv. apply outcome_bind_Ok in Hv as (v & Hv & Hu).
  apply staticPool_at in Hv as [_ ->]. unfold FindNodeByIndex in Hu.
  destruct (sortedNodes vs !! Z.to_nat i) as [x|] eqn:Hx; [|done].
  injection Hu as <-. by apply sortedNodes_lookup.
Qed.

Lemma staticPool_byID id e i u :
  GetValidatorByNodeID (staticPool id) e i = Ok u → u ∈ members ∧ vn_NodeID u = i.
Proof.
  unfold GetValidatorByNodeID. intros Hv. apply outcome_bind_Ok in Hv as (v & Hv & Hu).
  apply staticPool_at in Hv as [_ ->]. unfold FindNodeByID in Hu.
  destruct (vs_Nodes vs !! i) as [x|] eqn:Hx; [|done]. injection Hu as ->.
  assert (vn_NodeID u = i) as Hi.
  { pose proof Hx as Hx'. rewrite validators_lookup in Hx'.
    apply fmap_Some in Hx' as (kx & _ & ->). done. }
  split; [|done]. apply members_lookup. by rewrite Hi.
Qed.

(** ** Certificates *)

(** The nodes of the set bits, as many as are counted. *)
Lemma listByBits_ok (l : list ValidateNode) b n i acc r c k :
  0 <= i → listByBits l b n i acc = Ok r → countBits b n i k = Ok c →
  ∃ js us, r = acc ++ us ∧ c = k + Z.of_nat (length us) ∧ NoDup js
    ∧ Forall (λ j, Z.to_nat i <= j)%nat js ∧ Forall2 (λ j u, l !! j = Some u) js us.
Proof.
  revert i acc k. induction n as [|n IH]; intros i acc k Hi Hl Hc; cbn in Hl, Hc.
  { simplify_eq. exists [], []. rewrite app_nil_r. cbn. split_and!; [done|lia|constructor..]. }
  apply outcome_bind_Ok in Hl as (x & Hx & Hl). rewrite Hx in Hc. cbn in Hc.
  destruct x.
  - destruct (l !! Z.to_nat i) as [u|] eqn:Hu; [|done].
    destruct (IH (i + 1) _ _ ltac:(lia) Hl Hc) as (js & us & -> & -> & Hnd & Hge & Hf).
    exists (Z.to_nat i :: js), (u :: us). rewrite <- app_assoc. cbn [length]. split_and!.
    + done.
    + lia.
    + constructor; [|done]. intros Hin. rewrite Forall_forall in Hge. specialize (Hge _ Hin). lia.
    + constructor; [lia|]. eapply Forall_impl; [exact Hge|]. intros j Hj. cbn beta in Hj. lia.
    + by constructor.
  - destruct (IH (i + 1) _ _ ltac:(lia) Hl Hc) as (js & us & -> & -> & Hnd & Hge & Hf).
    exists js, us. split_and!; [done|done|done| |done].
    eapply Forall_impl; [exact Hge|]. intros j Hj. cbn beta in Hj. lia.
Qed.

Lemma NodeListByBitArray_ok b r c :
  NodeListByBitArray vs b = Ok r → countBits b (Z.to_nat (Size b)) 0 0 = Ok c →
  NoDup r ∧ r ⊆ members ∧ Z.of_nat (length r) = c.
Proof.
  unfold NodeListByBitArray. intros Hr Hc.
  destruct (listByBits_ok _ _ _ _ _ _ _ _ ltac:(done) Hr Hc) as (js & us & -> & -> & Hnd & _ & Hf).
  cbn [app]. split_and!; [| |lia].
  - apply NoDup_alt. intros i j u Hi Hj.
    destruct (Forall2_lookup_r _ _ _ _ _ Hf Hi) as (x & Hx & Hxu).
    destruct (Forall2_lookup_r _ _ _ _ _ Hf Hj) as (y & Hy & Hyu).
    assert (x = y) as -> by (eapply NoDup_lookup; [apply sortedNodes_NoDup|done..]).
    by eapply NoDup_lookup.
  - intros u Hu. apply list_elem_of_lookup in Hu as [i Hi].
    destruct (Forall2_lookup_r _ _ _ _ _ Hf Hi) as (x & Hx & Hxu).
    by apply sortedNodes_lookup in Hxu as [? _].
Qed.

(** A certificate that is accepted is for the block it was checked for, and
    enough validators have signed it. *)
Lemma verifyPrepareQC_ok id n h oq :
  verifyPrepareQC (staticPool id) n h oq = Ok tt →
  ∃ q v l, oq = Some q ∧ qc_BlockNumber q = n ∧ qc_BlockHash q = h ∧ qc_Epoch q <= 1
    ∧ NoDup (v :: l) ∧ v :: l ⊆ members
    ∧ threshold (Z.of_nat (length nodes)) <= Z.of_nat (length (v :: l))
    ∧ blsVerify (aggPub (vn_BlsPubKey v) l) (qcDigest q) (qc_Signature q) = Ok tt.
Proof.
  destruct oq as [q|]; [|done]. cbn [verifyPrepareQC]. intros Hv.
  apply outcome_bind_Ok in Hv as (_ & _ & Hv). apply outcome_bind_Ok in Hv as (len & Hlen & Hv).
  apply outcome_bind_Ok in Hv as (c & Hc & Hv). apply outcome_bind_Ok in Hv as (? & Ht & Hv).
  apply outcome_bind_Ok in Hv as (? & Hm & Hv). apply reject_Ok in Ht, Hm.
  apply staticPool_len in Hlen as ->. apply Z.ltb_ge in Ht.
  apply orb_false_iff in Hm as [Hn Hh]. rewrite negb_false_iff, Z.eqb_eq in Hn, Hh.
  destruct (VerifyAggSigByBA _ _ _ _ _) as [[]| |] eqn:Hs; [|done|done].
  unfold VerifyAggSigByBA in Hs. apply outcome_bind_Ok in Hs as (v' & Hv' & Hs).
  apply staticPool_at in Hv' as [He ->]. apply outcome_bind_Ok in Hs as (r & Hr & Hs).
  destruct (NodeListByBitArray_ok _ _ _ Hr Hc) as (Hnd & Hsub & Hl).
  destruct r as [|v l]; [done|]. exists q, v, l. split_and!; auto. lia.
Qed.

(** The votes of a certificate agree. *)
Lemma aggVotes_ok vote l agg b r :
  aggVotes vote l agg b = Ok (Some r) → Forall (λ p, pvEqualState vote p = true) l.
Proof.
  revert agg b. induction l as [|p l IH]; intros agg b Ha; [constructor|]. cbn in Ha.
  destruct (pvEqualState vote p) eqn:Hp; [|done]. constructor; [done|]. cbn in Ha.
  destruct (_ =? _); [by eapply IH|]. apply outcome_bind_Ok in Ha as ([[agg' b']|] & _ & Ha);
    [by eapply IH|done].
Qed.

Lemma aggPreCommits_ok vote l agg b r :
  aggPreCommits vote l agg b = Ok (Some r) → Forall (λ p, pcEqualState vote p = true) l.
Proof.
  revert agg b. induction l as [|p l IH]; intros agg b Ha; [constructor|]. cbn in Ha.
  destruct (pcEqualState vote p) eqn:Hp; [|done]. constructor; [done|]. cbn in Ha.
  destruct (_ =? _); [by eapply IH|]. apply outcome_bind_Ok in Ha as ([[agg' b']|] & _ & Ha);
    [by eapply IH|done].
Qed.

Lemma generatePrepareQC_ok total m q :
  generatePrepareQC total m = Ok (Some q) →
  (∃ i v, m !! i = Some v)
  ∧ (∃ i v, m !! i = Some v ∧ qc_Epoch q = pv_Epoch v ∧ qc_ViewNumber q = pv_ViewNumber v)
  ∧ ∀ i v, m !! i = Some v → pv_BlockNumber v = qc_BlockNumber q
                             ∧ pv_BlockHash v = qc_BlockHash q.
Proof.
  unfold generatePrepareQC. destruct ((map_to_list m).*2) as [|vote l] eqn:Hm; [done|].
  intros Hq. apply outcome_bind_Ok in Hq as ([? set] & _ & Hq).
  destruct (signDeserialize _) as [agg|]; [|done].
  apply outcome_bind_Ok in Hq as ([[agg' set']|] & Ha & Hq); [|done].
  injection Hq as <-. apply aggVotes_ok in Ha. rewrite <- Hm in Ha.
  destruct (elem_value m vote) as [i Hi]; [rewrite Hm; left|].
  cbn. split; [by exists i, vote|]. split; [by exists i, vote|]. intros j v Hj.
  rewrite Forall_forall in Ha. specialize (Ha v (value_elem m j v Hj)).
  unfold pvEqualState in Ha. lia.
Qed.

Lemma generatePreCommitQC_ok total m q :
  generatePreCommitQC total m = Ok (Some q) →
  (∃ i v, m !! i = Some v)
  ∧ (∃ i v, m !! i = Some v ∧ qc_Epoch q = pc_Epoch v ∧ qc_ViewNumber q = pc_ViewNumber v)
  ∧ ∀ i v, m !! i = Some v → pc_BlockNumber v = qc_BlockNumber q
                             ∧ pc_BlockHash v = qc_BlockHash q.
Proof.
  unfold generatePreCommitQC. destruct ((map_to_list m).*2) as [|vote l] eqn:Hm; [done|].
  intros Hq. apply outcome_bind_Ok in Hq as ([? set] & _ & Hq).
  destruct (signDeserialize _) as [agg|]; [|done].
  apply outcome_bind_Ok in Hq as ([[agg' set']|] & Ha & Hq); [|done].
  injection Hq as <-. apply aggPreCommits_ok in Ha. rewrite <- Hm in Ha.
  destruct (elem_value m vote) as [i Hi]; [rewrite Hm; left|].
  cbn. split; [by exists i, vote|]. split; [by exists i, vote|]. intros j v Hj.
  rewrite Forall_forall in Ha. specialize (Ha v (value_elem m j v Hj)).
  unfold pcEqualState in Ha. lia.
Qed.
End quorum.
