(* ===== verification/PbftInv.v ===== *)
(** The invariant of a correct node.

    A node speaks for a block when it signs a list of fields with the height
    and the hash of the block: a vote, a precommit or a view change.  The
    invariant says what a node has inserted and put out, what its tree and its
    stored votes hold, and that what it has said is justified: it has the
    parent of the block, or a quorum has. *)

From S2P Require Import Prelude Triples BitArray PbftTypes PbftValidators BlockTree PbftEvidence PbftState PbftRules PbftNode PbftEngine PbftSync PbftSystem PbftTree PbftQuorum.

Section world.
Context `{CR : Crypto}.
Context (nodes : list (Z * Z * PublicKey)) (genesis : Block) (keys : gmap Z SecretKey).

Implicit Types (w : gmap Z (list Output)) (out : list Output).

(** ** What nodes have done *)

(** The node has had a block of this height and hash in its tree. *)
Definition had out (k x : Z) : Prop :=
  (k = 0 ∧ x = Hash genesis)
  ∨ ∃ b q, OInserted b q ∈ out ∧ bNumber b = k ∧ Hash b = x.

(** The node knows the parent of the block. *)
Definition endorsed out (k m : Z) : Prop :=
  ∃ c, Hash c = m ∧ bNumber c = k ∧ had out (k - 1) (bParentHash c).

(** The correct nodes of a quorum know the parent of the block. *)
Definition backed w (k m : Z) : Prop :=
  quorum nodes keys (λ u, endorsed (outOf w (vn_NodeID u)) k m).

(** The node has signed the height and the hash. *)
Definition spoke out (k m : Z) : Prop := ∃ e v a s, released out [e; v; m; k; a; s].

Definition saysOk w out : Prop :=
  ∀ e v m k a s, released out [e; v; m; k; a; s] →
    0 <= k ∧ (k = 0 → m = Hash genesis) ∧ (1 <= k → endorsed out k m ∨ backed w k m).

(** A node inserts one block per height, backed by a quorum, and commits the
    parent of a block that it has inserted. *)
Record logOk w out : Prop := {
  log_says : saysOk w out;
  log_inserted : ∀ b q, OInserted b q ∈ out →
    1 <= bNumber b ∧ backed w (bNumber b) (Hash b);
  log_once : ∀ b q b' q', OInserted b q ∈ out → OInserted b' q' ∈ out →
    bNumber b = bNumber b' → b = b';
  log_commit : ∀ b q, OCommit b q ∈ out →
    ∃ c qc, OInserted c qc ∈ out ∧ bParentHash c = Hash b ∧ bNumber c = bNumber b + 1;
}.

(** *** Growing worlds *)

Definition extends w w' : Prop := ∀ i, outOf w i ⊆ outOf w' i.

Lemma released_mono out out' d : out ⊆ out' → released out d → released out' d.
Proof. intros Hs (o & ? & ?). exists o. auto. Qed.

Lemma had_mono out out' k x : out ⊆ out' → had out k x → had out' k x.
Proof. intros Hs [?|(b & q & ? & ?)]; [by left|right; exists b, q; auto]. Qed.

Lemma endorsed_mono out out' k m : out ⊆ out' → endorsed out k m → endorsed out' k m.
Proof.
  intros Hs (c & ? & ? & ?). exists c. split; [done|]. split; [done|]. by eapply had_mono.
Qed.

Lemma backed_mono w w' k m : extends w w' → backed w k m → backed w' k m.
Proof. intros He. apply quorum_mono. intros u _ _. by apply endorsed_mono. Qed.

Lemma spoke_mono out out' k m : out ⊆ out' → spoke out k m → spoke out' k m.
Proof. intros Hs (e & v & a & s & ?). exists e, v, a, s. by eapply released_mono. Qed.

Lemma logOk_mono w w' out : extends w w' → logOk w out → logOk w' out.
Proof.
  intros He [Hs Hi Ho Hc]. split; [| |done|done].
  - intros e v m k a s Hr. destruct (Hs _ _ _ _ _ _ Hr) as (? & ? & Hk). split; [done|].
    split; [done|]. intros Hk1. destruct (Hk Hk1); [by left|right; by eapply backed_mono].
  - intros b q Hb. destruct (Hi b q Hb). split; [done|]. by eapply backed_mono.
Qed.

Lemma outOf_insert w id out i : outOf (<[id := out]> w) i = if decide (id = i) then out else outOf w i.
Proof.
  unfold outOf. case_decide as Hd; [by rewrite Hd, lookup_insert_eq|by rewrite lookup_insert_ne].
Qed.

Lemma extends_insert w id out : outOf w id ⊆ out → extends w (<[id := out]> w).
Proof. intros Hs i. rewrite outOf_insert. case_decide; subst; done. Qed.

Lemma extends_insert_insert w id out out' :
  out ⊆ out' → extends (<[id := out]> w) (<[id := out']> w).
Proof. intros Hs i. rewrite !outOf_insert. by case_decide. Qed.

(** *** Certificates *)

Context (Hnodes : nodesOk nodes) (Hf : faultBound nodes keys).

(** Signatures of a quorum on one height and hash. *)
Definition attested w (k m : Z) : Prop :=
  quorum nodes keys (λ u, spoke (outOf w (vn_NodeID u)) k m).

(** What every correct validator has said is justified. *)
Definition worldOk w : Prop :=
  ∀ u, u ∈ members nodes → honest keys u → saysOk w (outOf w (vn_NodeID u)).

Lemma attested_backed w k m : worldOk w → 1 <= k → attested w k m → backed w k m.
Proof.
  intros Hw Hk (S & Hnd & Hsub & Ht & HS).
  assert (backed w k m ∨ ∀ u, u ∈ S → honest keys u → endorsed (outOf w (vn_NodeID u)) k m)
    as [?|Hall]; [|done|by exists S].
  clear Hnd Ht. induction S as [|u S IH]; [right; by intros u ?%elem_of_nil|].
  destruct IH as [?|IH]; [|by intros v ? ?; apply HS; [by right|]|by left|].
  { intros v Hv. apply Hsub. by right. }
  destruct (decide (honest keys u)) as [Hu|Hu]; last first.
  { right. intros v [->|Hv]%elem_of_cons ?; [done|auto]. }
  destruct (HS u) as (e & v & a & s & Hr); [left|done|].
  assert (Hum : u ∈ members nodes) by (apply Hsub; left).
  destruct (Hw u Hum Hu _ _ _ _ _ _ Hr) as (_ & _ & Hj).
  destruct (Hj Hk) as [?|?]; [|by left]. right.
  intros x [->|Hx]%elem_of_cons ?; [done|auto].
Qed.

Lemma attested_zero w m : worldOk w → attested w 0 m → m = Hash genesis.
Proof.
  intros Hw Ha. destruct (quorum_honest _ _ Hnodes _ Hf Ha) as (u & Hu & Hh & Hr).
  destruct Hr as (e & v & a & s & Hr). by destruct (Hw u Hu Hh _ _ _ _ _ _ Hr) as (_ & ? & _); auto.
Qed.

(** A backed block comes right after its parent. *)
Lemma backed_parent w b p :
  (∀ b c, Hash b = Hash c → b = c) → bNumber genesis = 0 →
  backed w (bNumber b) (Hash b) → Hash p = bParentHash b → bNumber b = bNumber p + 1.
Proof.
  intros Hinj Hg Hb Hp.
  destruct (quorum_honest _ _ Hnodes _ Hf Hb) as (u & _ & _ & c & Hc & _ & Hh).
  apply Hinj in Hc as ->. destruct Hh as [[Hk Hx]|(x & q & _ & Hk & Hx)].
  - rewrite <- Hp in Hx. apply Hinj in Hx as ->. lia.
  - rewrite <- Hp in Hx. apply Hinj in Hx as ->. lia.
Qed.

(** A certificate that a node accepts is attested, if its signature is
    authentic. *)
Lemma verifyPrepareQC_attested w id n h oq :
  verifyPrepareQC (staticPool nodes id) n h oq = Ok tt →
  Forall (authentic nodes keys w) (qcSigs oq) →
  attested w n h
  ∧ ∃ q, oq = Some q ∧ qc_BlockNumber q = n ∧ qc_BlockHash q = h ∧ qc_Epoch q <= 1.
Proof.
  intros Hv Ha.
  destruct (verifyPrepareQC_ok nodes Hnodes id n h oq Hv)
    as (q & v & l & -> & Hn & Hh & He & Hnd & Hsub & Ht & Hs).
  split; [|by exists q]. apply Forall_inv in Ha. exists (v :: l). do 3 (split; [done|]).
  intros u Hu Hhon. exists (qc_Epoch q), (qc_ViewNumber q), (qc_BlockIndex q), (qc_Step q).
  rewrite <- Hn, <- Hh. by eapply (Ha v l (qcDigest q) u).
Qed.
End world.

(** ** The node *)

Section node.
Context `{CR : Crypto}.
Context (nodes : list (Z * Z * PublicKey)) (genesis : Block) (keys : gmap Z SecretKey).
(** The node, and the world in which its handler starts. *)
Context (id : Z) (w : gmap Z (list Output)).

Implicit Types n : Node.

Definition worldOf n : gmap Z (list Output) := <[id := n_out n]> w.

Definition topOf n : Block := v_highestLockBlock (n_state n).

(** The vote of the validator with this index counts for the block. *)
Definition vouched n (i k m : Z) : Prop :=
  ∃ u, u ∈ members nodes ∧ vn_Index u = i
       ∧ (honest keys u → spoke (outOf (worldOf n) (vn_NodeID u)) k m).

(** A second precommit of the same validator would be noticed: the evidence
    pool has the first, or it is the node's own. *)
Definition known n (i : Z) (v : PreCommit) : Prop :=
  (∃ l ev, ep_pc (n_ev n) !! (1, pc_BlockNumber v, pc_ViewNumber v, i) = Some l
      ∧ opvFind l 1 (pc_ViewNumber v) (pc_BlockNumber v) = Some ev
      ∧ ev_BlockHash ev = pc_BlockHash v)
  ∨ ∃ u a, u ∈ members nodes ∧ vn_NodeID u = id ∧ vn_Index u = i
      ∧ released (n_out n) [1; pc_ViewNumber v; pc_BlockHash v; pc_BlockNumber v; a;
                            RoundStepPreCommit].

Record Core n : Prop := {
  c_pool : n_pool n = staticPool nodes id;
  c_epoch : v_epoch (n_state n) = 1;
  c_top : v_highestPreCommitQCBlock (n_state n) = topOf n;
  c_range : 0 <= bNumber (topOf n) < MaxUint64;
  c_had : had genesis (n_out n) (bNumber (topOf n)) (Hash (topOf n));
  c_tree : treeOk (had genesis (n_out n)) (bNumber (topOf n)) (n_tree n);
  c_blocks : ∀ k b, vb_Blocks (v_viewBlocks (n_state n)) !! k = Some b → bNumber (vbBlock b) = k;
  c_votes : ∀ k m i v, v_viewVotes (n_state n) !! k = Some m → m !! i = Some v →
    pv_BlockNumber v = k ∧ pv_Epoch v = 1 ∧ vouched n i k (pv_BlockHash v);
  c_preCommits : ∀ k m i v, v_viewPreCommits (n_state n) !! k = Some m → m !! i = Some v →
    pc_BlockNumber v = k ∧ k <= v_blockNumber (n_state n) ∧ vouched n i k (pc_BlockHash v)
    ∧ (k = v_blockNumber (n_state n) →
       pc_ViewNumber v = v_viewNumber (n_state n) ∧ known n i v);
  c_inserted : ∀ b q, OInserted b q ∈ n_out n → bNumber b <= bNumber (topOf n);
  c_said : ∀ e v m k a, released (n_out n) [e; v; m; k; a; RoundStepPreCommit] →
    k < v_blockNumber (n_state n)
    ∨ ∃ l, v_hadSendPreCommitLast (n_state n) = Some l ∧ k = pc_BlockNumber l
           ∧ v <= pc_ViewNumber l;
  c_unique : ∀ e v m k a e' m' a',
    released (n_out n) [e; v; m; k; a; RoundStepPreCommit] →
    released (n_out n) [e'; v; m'; k; a'; RoundStepPreCommit] →
    v_blockNumber (n_state n) <= k → m = m';
  c_last : ∀ l, v_hadSendPreCommitLast (n_state n) = Some l →
    v_hadSendPreCommitNumber (n_state n) = pc_BlockNumber l ∧ pc_Epoch l = 1;
  c_start : outOf w id ⊆ n_out n;
  c_log : logOk nodes genesis keys (worldOf n) (n_out n);
}.

(** Between two handlers, the node works on the height above its highest
    block. *)
Definition Inv n : Prop := Core n ∧ v_blockNumber (n_state n) = bNumber (topOf n) + 1.

(** What holds even if the node has stopped. *)
Definition logged n : Prop :=
  outOf w id ⊆ n_out n ∧ logOk nodes genesis keys (worldOf n) (n_out n).

Lemma Core_logged n : Core n → logged n.
Proof. intros Hn. split; apply Hn. Qed.

Lemma Inv_logged n : Inv n → logged n.
Proof. intros [Hn _]. by apply Core_logged. Qed.

(** The parts of a node that the invariant reads. *)
Definition coreOf n :=
  (n_pool n, n_tree n, n_out n, ep_pc (n_ev n),
   (v_epoch (n_state n), v_viewNumber (n_state n), v_blockNumber (n_state n)),
   (v_hadSendPreCommitNumber (n_state n), v_hadSendPreCommitLast (n_state n)),
   vb_Blocks (v_viewBlocks (n_state n)), v_viewVotes (n_state n), v_viewPreCommits (n_state n),
   v_highestLockBlock (n_state n), v_highestPreCommitQCBlock (n_state n)).

Lemma Core_proper n n' : coreOf n' = coreOf n → Core n → Core n'.
Proof.
  unfold coreOf. intros Hc Hn.
  injection Hc as Hp Ht Ho Hev He Hv Hb Hpn Hpl Hvb Hvv Hpc Hl Hh. destruct Hn.
  unfold topOf, vouched, known, worldOf in *.
  split; unfold topOf, vouched, known, worldOf;
    rewrite ?Hp, ?Ht, ?Ho, ?Hev, ?He, ?Hv, ?Hb, ?Hpn, ?Hpl, ?Hvb, ?Hvv, ?Hpc, ?Hl, ?Hh; assumption.
Qed.

Lemma Inv_proper n n' : coreOf n' = coreOf n → Inv n → Inv n'.
Proof.
  intros Hc [Hn Hb]. split; [by eapply Core_proper|]. unfold coreOf, topOf in *.
  injection Hc. congruence.
Qed.

(** *** Outputs *)

(** An output with which the node neither speaks nor inserts nor commits. *)
Definition quiet (o : Output) : Prop :=
  (∀ e v m k a s, releasedDigest o ≠ Some [e; v; m; k; a; s])
  ∧ (∀ b q, o ≠ OInserted b q) ∧ ∀ b q, o ≠ OCommit b q.

Lemma quiet_other o :
  releasedDigest o = None → (∀ b q, o ≠ OInserted b q) → (∀ b q, o ≠ OCommit b q) → quiet o.
Proof. intros Hr Hi Hc. split; [|done]. intros e v m k a s. by rewrite Hr. Qed.

Lemma released_app out o d :
  released (out ++ [o]) d ↔ released out d ∨ releasedDigest o = Some d.
Proof.
  unfold released. split.
  - intros (x & [Hx| ->%list_elem_of_singleton]%elem_of_app & ?); [left; by exists x|by right].
  - intros [(x & ? & ?)|Ho]; [exists x|exists o]; (split; [apply elem_of_app|done]); [by left|].
    right. left.
Qed.

Lemma released_quiet out o e v m k a s :
  quiet o → released (out ++ [o]) [e; v; m; k; a; s] ↔ released out [e; v; m; k; a; s].
Proof. intros [Hq _]. rewrite released_app. split; [|by left]. intros [?|?]; [done|naive_solver]. Qed.

Lemma worldOf_grow n o : extends (worldOf n) (worldOf (setOut (n_out n ++ [o]) n)).
Proof. apply extends_insert_insert. cbn. set_solver. Qed.

Lemma vouched_grow n o i k m :
  vouched n i k m → vouched (setOut (n_out n ++ [o]) n) i k m.
Proof.
  intros (u & ? & ? & Hu). exists u. split; [done|]. split; [done|]. intros Hh.
  eapply spoke_mono; [apply worldOf_grow|auto].
Qed.

Lemma known_grow n o i v : known n i v → known (setOut (n_out n ++ [o]) n) i v.
Proof.
  intros [?|(u & a & ? & ? & ? & ?)]; [by left|right]. exists u, a. do 3 (split; [done|]).
  eapply released_mono; [|done]. cbn. set_solver.
Qed.

Lemma had_grow (out : list Output) o k x : had genesis out k x → had genesis (out ++ [o]) k x.
Proof. apply had_mono. set_solver. Qed.

(** A commit is justified by an inserted child. *)
Definition commitOk (out : list Output) (o : Output) : Prop :=
  ∀ b q, o = OCommit b q →
    ∃ c qc, OInserted c qc ∈ out ∧ bParentHash c = Hash b ∧ bNumber c = bNumber b + 1.

(** The log after an output that does not insert. *)
Lemma logOk_grow n o :
  logOk nodes genesis keys (worldOf n) (n_out n) →
  (∀ b q, o ≠ OInserted b q) → commitOk (n_out n) o →
  (∀ e v m k a s, releasedDigest o = Some [e; v; m; k; a; s] →
     0 <= k ∧ (k = 0 → m = Hash genesis)
     ∧ (1 <= k → endorsed genesis (n_out n) k m ∨ backed nodes genesis keys (worldOf n) k m)) →
  logOk nodes genesis keys (worldOf (setOut (n_out n ++ [o]) n)) (n_out n ++ [o]).
Proof.
  intros [Hs Hi Ho Hc] Hni Hnc Hsay. pose proof (worldOf_grow n o) as Hw.
  assert (Hold : ∀ b q, OInserted b q ∈ n_out n ++ [o] → OInserted b q ∈ n_out n).
  { intros b q [?|Hb%list_elem_of_singleton]%elem_of_app; [done|]. by destruct (Hni b q). }
  split.
  - intros e v m k a s Hr.
    assert (0 <= k ∧ (k = 0 → m = Hash genesis)
     ∧ (1 <= k → endorsed genesis (n_out n) k m ∨ backed nodes genesis keys (worldOf n) k m))
      as (? & ? & Hk) by (apply released_app in Hr as [Hr|Hr]; [by apply (Hs e v m k a s)|eauto]).
    split; [done|]. split; [done|]. intros Hk1. destruct (Hk Hk1) as [He|Hb]; [left|right].
    + eapply endorsed_mono; [|done]. set_solver.
    + by eapply backed_mono.
  - intros b q Hb. destruct (Hi b q (Hold b q Hb)). split; [done|]. by eapply backed_mono.
  - intros b q b' q' Hb Hb'. eauto.
  - intros b q [Hb|Hb%list_elem_of_singleton]%elem_of_app;
      [destruct (Hc b q Hb) as (c & qc & ? & ?)|destruct (Hnc b q) as (c & qc & ? & ?); [done|]];
      exists c, qc; (split; [apply elem_of_app; by left|done]).
Qed.

(** The node after an output of a digest, or of something quiet. *)
Lemma Core_output n o :
  Core n → (∀ b q, o ≠ OInserted b q) → commitOk (n_out n) o →
  (∀ e v m k a s, releasedDigest o = Some [e; v; m; k; a; s] →
     0 <= k ∧ (k = 0 → m = Hash genesis)
     ∧ (1 <= k → endorsed genesis (n_out n) k m ∨ backed nodes genesis keys (worldOf n) k m)) →
  (∀ e v m k a, releasedDigest o = Some [e; v; m; k; a; RoundStepPreCommit] →
     (k < v_blockNumber (n_state n)
      ∨ ∃ l, v_hadSendPreCommitLast (n_state n) = Some l ∧ k = pc_BlockNumber l
             ∧ v <= pc_ViewNumber l)
     ∧ (v_blockNumber (n_state n) <= k →
        ∀ e' m' a', released (n_out n) [e'; v; m'; k; a'; RoundStepPreCommit] → m' = m)) →
  Core (setOut (n_out n ++ [o]) n).
Proof.
  intros [] Hni Hnc Hsay Hpc.
  assert (Hsub : n_out n ⊆ n_out n ++ [o]) by set_solver.
  split; cbn; try done.
  - by apply had_grow.
  - eapply treeOk_mono; [|done|done]. intros k h. by apply had_grow.
  - intros k m i v Hk Hi. destruct (c_votes0 k m i v Hk Hi) as (? & ? & ?).
    split; [done|]. split; [done|]. by apply vouched_grow.
  - intros k m i v Hk Hi. destruct (c_preCommits0 k m i v Hk Hi) as (? & ? & ? & Hcur).
    split; [done|]. split; [done|]. split; [by apply vouched_grow|]. intros Hk'.
    destruct (Hcur Hk'). split; [done|]. by apply known_grow.
  - intros b q [Hb|Hb%list_elem_of_singleton]%elem_of_app; [eauto|]. by destruct (Hni b q).
  - intros e v m k a [Hr|Hr]%released_app; [eauto|]. by apply (Hpc e v m k a).
  - intros e v m k a e' m' a' Hr Hr' Hk. apply released_app in Hr, Hr'.
    destruct Hr as [Hr|Hr], Hr' as [Hr'|Hr'].
    + eauto.
    + by eapply (proj2 (Hpc _ _ _ _ _ Hr')).
    + symmetry. by eapply (proj2 (Hpc _ _ _ _ _ Hr)).
    + rewrite Hr in Hr'. by simplify_eq.
  - etrans; done.
  - by apply logOk_grow.
Qed.

Lemma Core_quiet n o : Core n → quiet o → Core (setOut (n_out n ++ [o]) n).
Proof.
  intros Hn (Hr & Hi & Hc). apply Core_output; [done|done| | |].
  - intros b q Ho. by destruct (Hc b q).
  - intros e v m k a s Ho. by destruct (Hr e v m k a s).
  - intros e v m k a Ho. by destruct (Hr e v m k a RoundStepPreCommit).
Qed.

Lemma Inv_quiet n o : Inv n → quiet o → Inv (setOut (n_out n ++ [o]) n).
Proof. intros [Hn Hb] Hq. split; [by apply Core_quiet|done]. Qed.
End node.
