(* ===== verification/PbftSteps.v ===== *)
(** The operations of a correct node keep its invariant. *)

From S2P Require Import Prelude Triples BitArray PbftTypes PbftValidators BlockTree PbftEvidence PbftState PbftRules PbftNode PbftEngine PbftSync PbftSystem PbftTree PbftQuorum PbftInv.

#[local] Opaque setupTimer vbMaxNumber evClear.

(** Steps of handlers of the node. *)
Ltac node_step :=
  lazymatch goal with
  | |- wp stateOf _ _ _ _ => apply wp_gets
  | |- wp treeOf _ _ _ _ => apply wp_gets
  | |- wp poolOf _ _ _ _ => apply wp_gets
  | |- wp (must _) _ _ _ _ => unfold must
  | |- wp (findBlock _ _) _ _ _ _ => unfold findBlock
  | _ => wp_step
  end.

(** The reads at the start of an operation. *)
Ltac node_reads :=
  repeat lazymatch goal with
  | |- wp (stateOf ≫= _) _ _ _ _ => apply wp_bind, wp_gets
  | |- wp (treeOf ≫= _) _ _ _ _ => apply wp_bind, wp_gets
  | |- wp (poolOf ≫= _) _ _ _ _ => apply wp_bind, wp_gets
  | |- wp (get ≫= _) _ _ _ _ => apply wp_bind, wp_get
  end.

Lemma wp_find `{Crypto} Q (E P : Node → Prop) h k n :
  Q (match FindBlockAndQC (n_tree n) h k with
     | Some (b, qc) => (Some b, qc)
     | None => (None, None)
     end) n →
  wp (findBlock h k) Q E P n.
Proof. done. Qed.

Lemma wp_must `{Crypto} {A} Q (E P : Node → Prop) (o : option A) n :
  (∀ a, o = Some a → Q a n) → P n → wp (must o) Q E P n.
Proof. destruct o; cbn; auto. Qed.

(** An output that says nothing. *)
Ltac quiet_tac := first [done | apply quiet_other; done].

Section steps.
Context `{CR : Crypto}.
Context (nodes : list (Z * Z * PublicKey)) (period : Z) (genesis : Block) (keys : gmap Z SecretKey).
Context (id : Z) (key : SecretKey) (w : gmap Z (list Output)) (now : Z).

Let agency : Agency := StaticAgency nodes.
#[local] Existing Instance agency.

Context (Hinj : ∀ b c : Block, Hash b = Hash c → b = c).
Context (Hg0 : bNumber genesis = 0) (Hgp : ∀ b, Hash b ≠ bParentHash genesis).
Context (Hnodes : nodesOk nodes) (Hf : faultBound nodes keys).
Context (Hkey : keys !! id = Some key).
Context (Hothers : ∀ u, u ∈ members nodes → honest keys u → vn_NodeID u ≠ id →
           saysOk nodes genesis keys w (outOf w (vn_NodeID u))).

Abbreviation cfg := (configOf period id key).
Abbreviation Core := (Core nodes genesis keys id w).
Abbreviation Inv := (Inv nodes genesis keys id w).
Abbreviation logged := (logged nodes genesis keys id w).
Abbreviation world := (worldOf id w).
Abbreviation backed := (backed nodes genesis keys).
Abbreviation attested := (attested nodes keys).
Abbreviation keeps m n := (wp m (λ _, Inv) Inv logged n).

Implicit Types n : Node.

#[local] Hint Resolve Inv_logged Core_logged : core.

(** *** The world during a handler *)

Lemma extends_world n : Core n → extends w (world n).
Proof. intros Hn. apply extends_insert, Hn. Qed.

Lemma worldOk_node n : Core n → worldOk nodes genesis keys (world n).
Proof.
  intros Hn u Hu Hh. destruct (decide (vn_NodeID u = id)) as [He|He].
  - unfold worldOf. rewrite outOf_insert, decide_True by done. apply (log_says _ _ _ _ _ (c_log _ _ _ _ _ _ Hn)).
  - unfold worldOf at 2. rewrite outOf_insert, decide_False by done.
    intros e v m k a s Hr. destruct (Hothers u Hu Hh He _ _ _ _ _ _ Hr) as (? & ? & Hk).
    split; [done|]. split; [done|]. intros Hk1. destruct (Hk Hk1); [by left|right].
    eapply backed_mono; [by apply extends_world|done].
Qed.

Lemma attested_grow k m n : Core n → attested w k m → attested (world n) k m.
Proof.
  intros Hn. apply quorum_mono. intros u _ _. apply spoke_mono. by apply extends_world.
Qed.

Lemma attested_node k m n : Core n → 1 <= k → attested w k m → backed (world n) k m.
Proof.
  intros Hn Hk Ha. apply attested_backed; [|done|].
  - by apply worldOk_node.
  - by apply attested_grow.
Qed.

(** A block that the node has had is backed. *)
Lemma had_backed n k x :
  Core n → 1 <= k → had genesis (n_out n) k x → backed (world n) k x.
Proof.
  intros Hn Hk [[-> _]|(b & q & Hb & <- & <-)]; [lia|].
  by apply (log_inserted _ _ _ _ _ (c_log _ _ _ _ _ _ Hn) b q).
Qed.

(** *** Steps that do not matter *)

Lemma Core_same n n' : Core n → coreOf n' = coreOf n → Core n'.
Proof. intros Hn Hc. by eapply Core_proper. Qed.

Lemma Inv_same n n' : Inv n → coreOf n' = coreOf n → Inv n'.
Proof. intros Hn Hc. by eapply Inv_proper. Qed.

Lemma keeps_same f n : coreOf (f n) = coreOf n → Inv n → keeps (modify f) n.
Proof. intros Hc Hn. wp_step. by eapply Inv_proper. Qed.

Lemma keeps_state f n :
  coreOf (setState (f (n_state n)) n) = coreOf n → Inv n → keeps (updState f) n.
Proof. apply keeps_same. Qed.

Lemma node_keeps_quiet o n : quiet o → Inv n → keeps (emit o) n.
Proof. intros Ho Hn. unfold emit. wp_step. by apply Inv_quiet. Qed.

Lemma quiet_proposal pb : quiet (OBroadcast (NConsensus (MPrepareBlock pb))).
Proof. done. Qed.

Lemma keeps_bind {A B} (m : M Node A) (k : A → M Node B) n :
  keeps m n → (∀ a n', Inv n' → keeps (k a) n') → keeps (m ≫= k) n.
Proof.
  intros Hm Hk. apply wp_bind. eapply wp_mono; [exact Hm| |done|done]. intros a n' Hn'. auto.
Qed.

Lemma keeps_try {A} (m : M Node A) n : keeps m n → keeps (try m) n.
Proof. intros Hm. wp_step. eapply wp_mono; [exact Hm|done..]. Qed.

Lemma keeps_ask {A} (o : outcome A) n : Inv n → keeps (ask o) n.
Proof. intros Hn. apply wp_ask; auto. Qed.

Lemma keeps_must {A} (o : option A) n : Inv n → keeps (must o) n.
Proof. intros Hn. destruct o; [done|]. by apply wp_panic, Inv_logged. Qed.

Lemma keeps_find h k n : Inv n → keeps (findBlock h k) n.
Proof. done. Qed.

(** *** Requests *)

Lemma keeps_AddOrReplace k n : Inv n → keeps (AddOrReplace now k) n.
Proof.
  intros Hn. unfold AddOrReplace. wp_step. wp_step. wp_step; [by wp_step|].
  apply keeps_bind; [by apply keeps_same|]. intros [] n' Hn'. by wp_step.
Qed.

Lemma keeps_SyncPrepareBlock i e k x v n : Inv n → keeps (SyncPrepareBlock now i e k x v) n.
Proof.
  intros Hn. unfold SyncPrepareBlock. apply keeps_bind; [by apply keeps_AddOrReplace|].
  intros [] n' Hn'; [|by wp_step]. wp_step; (apply node_keeps_quiet; [quiet_tac|done]).
Qed.

Lemma keeps_SyncBlockQuorumCert i k h n : Inv n → keeps (SyncBlockQuorumCert now i k h) n.
Proof.
  intros Hn. unfold SyncBlockQuorumCert. apply keeps_bind; [by apply keeps_AddOrReplace|].
  intros [] n' Hn'; [|by wp_step]. apply node_keeps_quiet; [quiet_tac|done].
Qed.

Lemma keeps_SyncBlockPreCommitQuorumCert i k h n :
  Inv n → keeps (SyncBlockPreCommitQuorumCert now i k h) n.
Proof.
  intros Hn. unfold SyncBlockPreCommitQuorumCert.
  apply keeps_bind; [by apply keeps_AddOrReplace|].
  intros [] n' Hn'; [|by wp_step]. apply node_keeps_quiet; [quiet_tac|done].
Qed.

Lemma keeps_fetchBlock i h k q n : Inv n → keeps (fetchBlock i h k q) n.
Proof.
  intros Hn. unfold fetchBlock. wp_step. wp_step.
  wp_step; [by wp_step|]. wp_step; [by wp_step|]. wp_step; [by wp_step|].
  apply keeps_bind.
  - repeat wp_step; try done. apply wp_ask; [done|done|by apply Inv_logged].
  - intros [] n' Hn'; [|by wp_step]. apply keeps_bind; [by apply keeps_same|].
    intros [] n2 Hn2. apply node_keeps_quiet; [quiet_tac|done].
Qed.

Lemma keeps_prepareVoteFetchRules i v n : Inv n → keeps (prepareVoteFetchRules now i v) n.
Proof.
  intros Hn. unfold prepareVoteFetchRules. wp_step. node_step. wp_step; [|by wp_step].
  repeat wp_step; try done; auto using keeps_SyncPrepareBlock, keeps_SyncBlockQuorumCert.
Qed.

Lemma keeps_preCommitFetchRules i v n : Inv n → keeps (preCommitFetchRules now i v) n.
Proof.
  intros Hn. unfold preCommitFetchRules. wp_step. node_step. wp_step; [|by wp_step].
  repeat wp_step; try done; auto using keeps_SyncPrepareBlock, keeps_SyncBlockPreCommitQuorumCert.
Qed.

(** *** Changing the view *)

Lemma Core_reset n view :
  Core n → Core (setState (ResetView 1 view (v_blockNumber (n_state n)) (n_state n)) n).
Proof.
  intros []. split; cbn; try done.
  - intros k m i v Hk Hi. apply lookup_delete_Some in Hk as [_ Hk]. by apply (c_votes k m i v).
  - intros k m i v Hk Hi. apply lookup_delete_Some in Hk as [Hne Hk].
    destruct (c_preCommits k m i v Hk Hi) as (? & ? & ? & _).
    split; [done|]. split; [done|]. split; [done|]. intros ->. done.
Qed.

(** Evidence matters only for the precommits of the present height. *)
Lemma Core_setEv n ev :
  Core n → v_viewPreCommits (n_state n) !! v_blockNumber (n_state n) = None → Core (setEv ev n).
Proof.
  intros [] Hnone. split; cbn; try done.
  intros k m i v Hk Hi. destruct (c_preCommits k m i v Hk Hi) as (? & ? & ? & _).
  split; [done|]. split; [done|]. split; [done|]. intros ->. by rewrite Hk in Hnone.
Qed.

(** The node right after a reset: no precommits of its height are left. *)
Definition fresh n : Prop :=
  Inv n ∧ v_viewPreCommits (n_state n) !! v_blockNumber (n_state n) = None.

Lemma fresh_same n n' : fresh n → coreOf n' = coreOf n → fresh n'.
Proof.
  intros [Hn Hp] Hc. split; [by eapply Inv_same|]. unfold coreOf in Hc. injection Hc as. congruence.
Qed.

Lemma fresh_state f n :
  fresh n → coreOf (setState (f (n_state n)) n) = coreOf n →
  wp (updState f) (λ _, fresh) Inv logged n.
Proof. intros Hn Hc. unfold updState. wp_step. by eapply fresh_same. Qed.

Lemma fresh_reset view n :
  Inv n → wp (updState (λ s, ResetView 1 view (v_blockNumber s) s)) (λ _, fresh) Inv logged n.
Proof.
  intros [Hn Hb]. unfold updState. wp_step. split; [split|].
  - by apply Core_reset.
  - done.
  - cbn. apply lookup_delete_eq.
Qed.

Lemma fresh_clear b n : fresh n → wp (clearInvalidBlocks b) (λ _, fresh) Inv logged n.
Proof.
  intros [Hn Hp]. unfold clearInvalidBlocks. wp_step. node_step. unfold emit. wp_step.
  split; [apply Inv_quiet; [done|quiet_tac]|done].
Qed.

Lemma coreOf_timer x n : coreOf (setState (SetViewTimer now x (n_state n)) n) = coreOf n.
Proof. unfold SetViewTimer. by generalize (setupTimer now x (v_viewTimer (n_state n))). Qed.

Lemma keeps_changeView view b v n : Inv n → keeps (changeView now 1 view b v) n.
Proof.
  intros Hn. unfold changeView. apply keeps_bind; [by apply keeps_same|]. clear n Hn.
  intros [] n Hn. apply keeps_bind; [by apply keeps_must|]. clear n Hn.
  intros blk n Hn. wp_step. eapply wp_mono; [by apply fresh_reset| |done|done]. clear n Hn.
  intros [] n Hn. wp_step.
  eapply wp_mono; [apply fresh_state; [done|apply coreOf_timer]| |done|done]. clear n Hn.
  intros [] n Hn. wp_step. eapply wp_mono; [by apply fresh_state| |done|done]. clear n Hn.
  intros [] n Hn. wp_step. eapply wp_mono; [by apply fresh_clear| |done|done]. clear n Hn.
  intros [] n [[Hn Hb] Hp]. wp_step. wp_step. wp_step. node_step.
  apply keeps_SyncPrepareBlock. split; [by apply Core_setEv|done].
Qed.

(** *** View changes *)

Lemma had_range n k m : Core n → had genesis (n_out n) k m → 0 <= k <= bNumber (topOf n).
Proof.
  intros Hn [[-> _]|(b & q & Hb & <- & _)].
  - pose proof (c_range _ _ _ _ _ _ Hn). lia.
  - pose proof (c_inserted _ _ _ _ _ _ Hn b q Hb).
    destruct (log_inserted _ _ _ _ _ (c_log _ _ _ _ _ _ Hn) b q Hb). lia.
Qed.

Lemma had_zero n m : Core n → had genesis (n_out n) 0 m → m = Hash genesis.
Proof.
  intros Hn [[_ ?]|(b & q & Hb & Hk & _)]; [done|].
  destruct (log_inserted _ _ _ _ _ (c_log _ _ _ _ _ _ Hn) b q Hb). lia.
Qed.

(** A node may speak for a block that it has had. *)
Lemma keeps_say o e v m k a s n :
  releasedDigest o = Some [e; v; m; k; a; s] →
  (∀ b q, o ≠ OInserted b q) → (∀ b q, o ≠ OCommit b q) →
  had genesis (n_out n) k m → Inv n → keeps (emit o) n.
Proof.
  intros Ho Hi Hc Hh [Hn Hb]. unfold emit. wp_step. pose proof (had_range n k m Hn Hh) as Hk.
  split; [|done]. apply Core_output; [done|done|by intros b q ->; destruct (Hc b q)| |].
  - rewrite Ho. intros ? ? ? ? ? ? [= <- <- <- <- <- <-]. split; [lia|]. split.
    + intros ->. by eapply had_zero.
    + intros Hk1. right. by apply had_backed.
  - rewrite Ho. intros ? ? ? ? ? [= <- <- <- <- <- _]. split; [left; lia|lia].
Qed.

Lemma wp_current n :
  Inv n → wp (isCurrentValidator cfg)
            (λ u n', n' = n ∧ u ∈ members nodes ∧ vn_NodeID u = id) Inv logged n.
Proof.
  intros Hn. unfold isCurrentValidator. node_reads.
  apply wp_ask; [|done|by apply Inv_logged]. intros u Hu.
  rewrite (c_pool _ _ _ _ _ _ (proj1 Hn)) in Hu. split; [done|]. by eapply staticPool_byID.
Qed.

Lemma keeps_current n : Inv n → keeps (isCurrentValidator cfg) n.
Proof. intros Hn. eapply wp_mono; [by apply wp_current| |done|done]. by intros u n' [-> _]. Qed.

Lemma keeps_validatorLen n : Inv n → keeps currentValidatorLen n.
Proof. intros Hn. unfold currentValidatorLen. node_reads. by apply keeps_ask. Qed.

Lemma keeps_generateViewChangeQuorumCert v n :
  Inv n → keeps (generateViewChangeQuorumCert cfg v) n.
Proof.
  intros Hn. unfold generateViewChangeQuorumCert.
  apply keeps_bind; [by apply keeps_current|]. clear n Hn. intros u n Hn.
  node_reads. apply keeps_bind; [by apply keeps_ask|]. clear n Hn. intros total n Hn.
  node_step; [|by wp_step]. apply keeps_bind; [by apply keeps_ask|]. clear n Hn. intros r n Hn.
  by wp_step.
Qed.

Lemma keeps_generateViewChange qc n :
  had genesis (n_out n) (qc_BlockNumber qc) (qc_BlockHash qc) → Inv n →
  keeps (generateViewChange cfg qc) n.
Proof.
  intros Hh Hn. unfold generateViewChange. wp_step.
  eapply wp_mono; [by apply wp_current| |done|done]. intros u n' [-> _]. node_reads.
  apply keeps_bind; [by eapply keeps_say|]. intros [] n1 Hn1. by wp_step.
Qed.

Lemma keeps_richViewChangeQC v n : Inv n → keeps (richViewChangeQC cfg v) n.
Proof.
  intros Hn. unfold richViewChangeQC. apply keeps_bind; [by apply keeps_try, keeps_current|].
  clear n Hn. intros [u|e] n Hn; [|by wp_step]. node_reads.
  apply keeps_bind.
  { repeat wp_step; try done.
    eapply wp_mono; [by apply keeps_generateViewChangeQuorumCert|by intros; wp_step|by intros; wp_step|done]. }
  generalize (n_state n). clear n Hn. intros s [v'|] n Hn; [|by wp_step].
  apply wp_bind, wp_find.
  destruct (FindBlockAndQC (n_tree n) _ _) as [[b [qc|]]|] eqn:Hfind; [|by wp_step..].
  destruct (_ && _); [|by wp_step].
  destruct (FindBlockAndQC_ok _ _ _ (c_tree _ _ _ _ _ _ (proj1 Hn)) _ _ _ _ Hfind)
    as (_ & _ & _ & Hh & [[_ ?]|(q & Hq & Hqn & Hqh)]); [done|]. injection Hq as <-.
  apply keeps_bind.
  { apply keeps_try, keeps_generateViewChange; [by rewrite Hqn, Hqh|done]. }
  clear n Hn Hfind Hh. intros [vc|e] n Hn; [|by wp_step].
  apply keeps_bind; [by apply keeps_try, keeps_generateViewChangeQuorumCert|].
  clear n Hn. intros c n Hn. by wp_step.
Qed.

Lemma keeps_tryChangeViewByViewChange v n :
  Inv n → keeps (tryChangeViewByViewChange cfg now v) n.
Proof.
  intros Hn. unfold tryChangeViewByViewChange. node_reads.
  apply keeps_bind; [by apply keeps_find|]. intros [block qc] n1 Hn1.
  apply keeps_bind; [by apply keeps_must|]. intros b n2 Hn2.
  rewrite (c_epoch _ _ _ _ _ _ (proj1 Hn)).
  generalize (v_highestPreCommitQCBlock (n_state n)) (v_viewNumber (n_state n)).
  intros top view. clear n n1 Hn Hn1. rename n2 into n, Hn2 into Hn.
  apply keeps_bind.
  { destruct (bNumber b =? 0); [by wp_step|].
    apply keeps_bind; [by apply keeps_richViewChangeQC|]. intros v' n' Hn'. by wp_step. }
  clear n Hn. intros [v'|] n Hn; [|by wp_step]. node_reads.
  rewrite (c_pool _ _ _ _ _ _ (proj1 Hn)), staticPool_equal. by apply keeps_changeView.
Qed.

Lemma keeps_tryChangeView n : Inv n → keeps (tryChangeView cfg now) n.
Proof.
  intros Hn. unfold tryChangeView. node_reads. apply wp_bind, wp_find.
  destruct (FindBlockAndQC (n_tree n) _ _) as [[b qc]|] eqn:Hfind;
    [|by apply wp_bind, wp_panic, Inv_logged].
  destruct (FindBlockAndQC_ok _ _ _ (c_tree _ _ _ _ _ _ (proj1 Hn)) _ _ _ _ Hfind)
    as (Hb & _ & Hk & _). apply wp_bind. cbn [must]. wp_step.
  rewrite (c_pool _ _ _ _ _ _ (proj1 Hn)), staticPool_switch by lia.
  rewrite (c_epoch _ _ _ _ _ _ (proj1 Hn)).
  apply keeps_bind; [by wp_step|]. generalize (n_state n). clear n Hn Hfind Hb Hk.
  intros s [] n Hn. wp_step.
  - node_reads. rewrite (c_pool _ _ _ _ _ _ (proj1 Hn)), staticPool_equal.
    by apply keeps_changeView.
  - apply keeps_bind; [by apply keeps_validatorLen|]. clear n Hn. intros len n Hn.
    wp_step; [|by wp_step]. node_reads.
    apply keeps_bind; [by apply keeps_ask|]. clear n Hn. intros total n Hn.
    apply keeps_bind; [by apply keeps_ask|]. clear n Hn. intros v n Hn.
    apply keeps_bind; [by apply keeps_must|]. clear n Hn. intros v' n Hn.
    by apply keeps_tryChangeViewByViewChange.
Qed.
End steps.
