(* ===== verification/PbftInsert.v ===== *)
(** Inserting a certified block keeps the invariant of a correct node.

    While a block is inserted, the node is ahead of its height: the block is
    the highest one, and the height follows with [tryAddStateBlockNumber]. *)

From S2P Require Import Prelude Triples BitArray PbftTypes PbftValidators BlockTree PbftEvidence PbftState PbftRules PbftNode PbftEngine PbftSync PbftSystem PbftTree PbftQuorum PbftInv PbftSteps.

#[local] Opaque setupTimer vbMaxNumber evClear.

Lemma addBlock_lookup `{Crypto} x v k b :
  vb_Blocks (addBlock x v) !! k = Some b →
  b = x ∧ k = bNumber (vbBlock x) ∨ vb_Blocks v !! k = Some b.
Proof.
  unfold addBlock. destruct (match vb_Blocks v !! _ with Some _ => _ | None => _ end); [by right|]. cbn. intros [[<- <-]|[_ Hk]]%lookup_insert_Some; [by left|].
  right. revert Hk. case_match; [|done]. by intros [_ ?]%lookup_delete_Some.
Qed.

Lemma wp_onTree `{Crypto} {A} (m : M BlockTree A) (Q : A → BlockTree → Prop)
    (E E' : BlockTree → Prop) (F P : Node → Prop) n :
  wp m Q E E' (n_tree n) → (∀ t, E t → F (setTree t n)) → (∀ t, P (setTree t n)) →
  wp (onTree m) (λ a n', ∃ t, n' = setTree t n ∧ Q a t) F P n.
Proof.
  unfold wp, onTree. destruct (m (n_tree n)) as [[a|e|] t]; [|by auto|by auto].
  intros HQ _ _. by exists t.
Qed.

Section insert.
Context `{CR : Crypto}.
Context (nodes : list (Z * Z * PublicKey)) (period : Z) (genesis : Block) (keys : gmap Z SecretKey).
Context (id : Z) (key : SecretKey) (w : gmap Z (list Output)) (now : Z).

Let agency : Agency := StaticAgency nodes.
#[local] Existing Instance agency.

Context (Hinj : ∀ b c : Block, Hash b = Hash c → b = c).
Context (Hnodes : nodesOk nodes).

Abbreviation cfg := (configOf period id key).
Abbreviation Core := (Core nodes genesis keys id w).
Abbreviation Inv := (Inv nodes genesis keys id w).
Abbreviation logged := (logged nodes genesis keys id w).
Abbreviation world := (worldOf id w).
Abbreviation backed := (backed nodes genesis keys).
Abbreviation keeps m n := (wp m (λ _, Inv) Inv logged n).

Implicit Types n : Node.

#[local] Hint Resolve Inv_logged Core_logged : core.

(** *** Parts of the state *)

Lemma Core_viewBlocks n x :
  Core n → Core (setState (set_viewBlocks (addBlock x (v_viewBlocks (n_state n))) (n_state n)) n).
Proof.
  intros []. split; cbn; try done. intros k b [[-> ->]|Hb]%addBlock_lookup; [done|by apply c_blocks].
Qed.

Lemma Core_setTree n t :
  Core n → treeOk (had genesis (n_out n)) (bNumber (topOf n)) t → Core (setTree t n).
Proof. intros [] Ht. by split. Qed.

(** The node with one more block in its tree. *)
Definition inserted (b : Block) (q : QuorumCert) (t : BlockTree) n : Node :=
  setOut (n_out n ++ [OInserted b q]) (setTree t
    (setState (set_highestLockBlock b (set_highestPreCommitQCBlock b (n_state n))) n)).

Lemma logOk_inserted n b q :
  Core n → bNumber b = bNumber (topOf n) + 1 →
  backed (world n) (bNumber b) (Hash b) →
  logOk nodes genesis keys (worldOf id w (setOut (n_out n ++ [OInserted b q]) n))
    (n_out n ++ [OInserted b q]).
Proof.
  intros [] Hb Hk. destruct c_log as [Hs Hi Ho Hc].
  pose proof (worldOf_grow id w n (OInserted b q)) as Hw.
  assert (Hin : ∀ c p, OInserted c p ∈ n_out n ++ [OInserted b q] →
            OInserted c p ∈ n_out n ∨ c = b).
  { intros c p [?|Hc'%list_elem_of_singleton]%elem_of_app; [by left|right; congruence]. }
  split.
  - intros e v m k a s [Hr|Hr]%released_app; [|done].
    destruct (Hs e v m k a s Hr) as (? & ? & Hj). split; [done|]. split; [done|]. intros Hk1.
    destruct (Hj Hk1); [left; eapply endorsed_mono; [|done]; set_solver|right; by eapply backed_mono].
  - intros c p [Hc'| ->]%Hin.
    + destruct (Hi c p Hc'). split; [done|]. by eapply backed_mono.
    + split; [lia|]. by eapply backed_mono.
  - intros c p c' p' [Hc1| ->]%Hin [Hc2| ->]%Hin He; [by eapply Ho| | |done].
    + specialize (c_inserted c p Hc1). lia.
    + specialize (c_inserted c' p' Hc2). lia.
  - intros c p [Hc'|Hc'%list_elem_of_singleton]%elem_of_app; [|done].
    destruct (Hc c p Hc') as (x & y & ? & ?). exists x, y. split; [|done]. apply elem_of_app. by left.
Qed.

Lemma Core_inserted n b q t :
  Core n → bNumber b = bNumber (topOf n) + 1 → bNumber b < MaxUint64 →
  backed (world n) (bNumber b) (Hash b) →
  treeOk (had genesis (n_out n ++ [OInserted b q])) (bNumber b) t →
  Core (inserted b q t n).
Proof.
  intros Hn Hb Hmax Hk Ht. pose proof (logOk_inserted n b q Hn Hb Hk) as Hlog.
  destruct Hn. assert (Hsub : n_out n ⊆ n_out n ++ [OInserted b q]) by set_solver.
  split; cbn; try done.
  - lia.
  - right. exists b, q. split; [|done]. apply elem_of_app. right. left.
  - intros k m i v Hm Hi. destruct (c_votes k m i v Hm Hi) as (? & ? & ?).
    split; [done|]. split; [done|]. by apply (vouched_grow _ _ _ _ n).
  - intros k m i v Hm Hi. destruct (c_preCommits k m i v Hm Hi) as (? & ? & ? & Hcur).
    split; [done|]. split; [done|]. split; [by apply (vouched_grow _ _ _ _ n)|]. intros Hk'.
    destruct (Hcur Hk'). split; [done|]. by apply (known_grow _ _ n).
  - intros c p [Hc|Hc%list_elem_of_singleton]%elem_of_app; [specialize (c_inserted c p Hc); lia|].
    injection Hc as -> _. lia.
  - intros e v m k a [Hr|Hr]%released_app; [by eapply c_said|done].
  - intros e v m k a e' m' a' [Hr|Hr]%released_app [Hr'|Hr']%released_app; [by eapply c_unique|done..].
  - etrans; done.
Qed.

(** *** The operation *)

(** The highest block is [b], and the height has not followed yet. *)
Definition ahead (b : Block) n : Prop :=
  Core n ∧ topOf n = b ∧ v_blockNumber (n_state n) = bNumber b.

Lemma ahead_same b n n' : ahead b n → coreOf n' = coreOf n → ahead b n'.
Proof.
  intros (Hn & Ht & Hb) Hc. split; [by eapply Core_proper|].
  unfold coreOf, topOf in *. injection Hc as. split; congruence.
Qed.

Lemma ahead_quiet b o n : quiet o → ahead b n → ahead b (setOut (n_out n ++ [o]) n).
Proof. intros Ho (Hn & ? & ?). split; [by apply Core_quiet|done]. Qed.

(** The new block is higher than the present one. *)
Lemma higherBlock_new (R : bool → Node → Prop) E P b q h t n :
  n_tree n = t → FindBlockAndQC t (Hash b) (bNumber b) = Some (b, Some q) →
  qc_BlockNumber q = bNumber b → bNumber h < bNumber b →
  (∀ c p, FindBlockAndQC t (Hash h) (bNumber h) = Some (c, Some p) → qc_BlockNumber p = bNumber h) →
  R true n → wp (higherBlock b h) R E P n.
Proof.
  intros Ht Hb Hq Hlt Hh HR. unfold higherBlock. apply wp_bind, wp_find.
  rewrite Ht, Hb. apply wp_bind, wp_find. rewrite Ht.
  destruct (FindBlockAndQC t (Hash h) (bNumber h)) as [[c [p|]]|] eqn:Hf; [|by wp_step..].
  apply wp_bind. cbn [must]. wp_step. wp_step. unfold HigherQuorumCert.
  rewrite (Hh c p), Hq, (proj2 (Z.ltb_lt _ _) Hlt) by done. done.
Qed.

(** *** After the insertion *)

Abbreviation stays b m n := (wp m (λ _, ahead b) (λ _, False) logged n).

Lemma stays_bind {A B} b (m : M Node A) (k : A → M Node B) n :
  stays b m n → (∀ a n', ahead b n' → stays b (k a) n') → stays b (m ≫= k) n.
Proof.
  intros Hm Hk. apply wp_bind. eapply wp_mono; [exact Hm| |done|done]. intros a n' Hn'. auto.
Qed.

Lemma stays_quiet b o n : quiet o → ahead b n → stays b (emit o) n.
Proof. intros Ho Hn. unfold emit. wp_step. by apply ahead_quiet. Qed.

Lemma stays_state b f n :
  coreOf (setState (f (n_state n)) n) = coreOf n → ahead b n → stays b (updState f) n.
Proof. intros Hc Hn. unfold updState. wp_step. by eapply ahead_same. Qed.

Lemma stays_isOwn b qc n : ahead b n → stays b (isOwn cfg qc) n.
Proof.
  intros Hn. pose proof Hn as (Hc & _). unfold isOwn, isCurrentValidator, currentProposer.
  apply wp_bind, wp_try. node_reads.
  apply wp_ask; [intros u _|intros e; by wp_step|by eapply Core_logged].
  apply wp_bind. node_reads.
  rewrite (c_pool _ _ _ _ _ _ Hc), (c_epoch _ _ _ _ _ _ Hc), staticPool_len1 by done.
  apply wp_bind, wp_ask_Ok, wp_bind. unfold CalCurrentProposer, CalCurrentProposerWithBlockNumber.
  destruct (_ =? 0); [by apply wp_panic; eapply Core_logged|]. apply wp_ask_Ok, wp_bind, wp_try.
  apply wp_ask; [intros x _|intros e; by apply wp_panic; eapply Core_logged|by eapply Core_logged].
  wp_step. node_reads. by wp_step.
Qed.

Lemma stays_onTree b (m : M BlockTree unit) n :
  ahead b n →
  (∀ H T, treeOk H T (n_tree n) →
     wp m (λ _, pruned H T (n_tree n)) (λ _, False) (λ _, True) (n_tree n)) →
  stays b (onTree m) n.
Proof.
  intros (Hn & Ht & Hb) Hm.
  eapply wp_mono; [eapply (wp_onTree m _ _ _ (λ _, False) logged)| |done|done].
  - by apply Hm, (c_tree _ _ _ _ _ _ Hn).
  - done.
  - intros t. by apply (Core_logged _ _ _ _ _ n).
  - intros [] n' (t & -> & [Hok _]). split; [by apply Core_setTree|done].
Qed.

Lemma ahead_inserted b n : ahead b n → 1 <= bNumber b → ∃ q, OInserted b q ∈ n_out n.
Proof.
  intros (Hn & <- & _) Hb.
  destruct (c_had _ _ _ _ _ _ Hn) as [[? _]|(c & q & Hi & _ & He)]; [lia|].
  apply Hinj in He as ->. by exists q.
Qed.

Lemma stays_commit b c qc n :
  ahead b n → 1 <= bNumber b → bParentHash b = Hash c → bNumber b = bNumber c + 1 →
  stays b (commitBlock c qc) n.
Proof.
  intros Ha H1 Hp Hk. destruct (ahead_inserted b n Ha H1) as [q Hi]. destruct Ha as (Hn & ? & ?).
  unfold commitBlock, emit. wp_step. split; [|done].
  apply Core_output; [done|done| |done|done]. intros ? ? [= <- <-]. by exists b, q.
Qed.

Lemma stays_tryCommitNewBlock b commit n :
  ahead b n → 1 <= bNumber b →
  (∀ c, commit = Some c → Hash c = bParentHash b ∧ bNumber b = bNumber c + 1) →
  stays b (tryCommitNewBlock (Some b) commit b) n.
Proof.
  intros Hn H1 Hc. destruct commit as [c|]; [|done]. destruct (Hc c) as [Hp Hk]; [done|].
  cbn [tryCommitNewBlock]. destruct (negb _); [done|].
  apply wp_bind, wp_find.
  destruct (match FindBlockAndQC _ _ _ with Some _ => _ | None => _ end) as [cb cq].
  node_reads. destruct (_ =? _); [|destruct (_ && _)]; [| |by wp_step].
  - apply stays_bind; [by apply stays_commit|]. clear n Hn. intros [] n Hn.
    apply stays_bind; [by apply stays_state|]. clear n Hn. intros [] n Hn.
    apply stays_bind; [|clear n Hn; intros [] n Hn]; (apply stays_onTree; [done|]; intros H T HT).
    + by apply PruneBlock_ok.
    + by apply NewRoot_ok.
  - apply wp_bind, wp_find, wp_bind, wp_find.
    apply stays_quiet; [quiet_tac|done].
Qed.

(** *** [insertQCBlock] *)

(** What holds after an insertion: the node is ahead, or the block was known. *)
Definition after (b : Block) n : Prop :=
  ahead b n ∨ (Inv n ∧ bNumber b < v_blockNumber (n_state n)).

(** The blocks of the view may get the certified one. *)
Lemma keeps_viewQC b qc n :
  Inv n → wp (if v_epoch (n_state n) =? qc_Epoch qc then
       updState (λ s, AddPreCommitQC qc (AddQC qc
         (if bool_decide (ViewBlockByIndex s (qc_BlockNumber qc) = None)
          then AddQCBlock b (Some qc) s else s)))
     else mret tt)
    (λ _ n', Inv n' ∧ topOf n' = topOf n ∧ n_out n' = n_out n) (λ _, False) logged n.
Proof.
  intros [Hn Hb]. wp_step; [|by wp_step]. unfold updState. wp_step. cbn beta.
  case_bool_decide; (split; [|done]); (split; [|done]); [|by eapply Core_same].
  by eapply Core_same; [by apply (Core_viewBlocks n (qcBlock b (Some qc)))|].
Qed.

(** The highest blocks follow, before the rest [m] of the operation. *)
Lemma stays_highest b q t (m : M Node unit) n :
  Core n → bNumber b = bNumber (topOf n) + 1 →
  treeOk (had genesis (n_out n ++ [OInserted b q])) (bNumber b) t →
  FindBlockAndQC t (Hash b) (bNumber b) = Some (b, Some q) → qc_BlockNumber q = bNumber b →
  Core (inserted b q t n) → v_blockNumber (n_state n) = bNumber b →
  (∀ n', ahead b n' → stays b m n') →
  stays b (TrySetHighestQCBlock b ≫= λ _, TrySetHighestPreCommitQCBlock b ≫= λ _,
           TrySetHighestLockBlock (Some b) ≫= λ _, m)
    (setOut (n_out n ++ [OInserted b q]) (setTree t n)).
Proof.
  intros Hn Hb Ht Hfind Hq Hin Hbn Hm.
  assert (Hold : ∀ c p, FindBlockAndQC t (Hash (topOf n)) (bNumber (topOf n)) = Some (c, Some p) →
            qc_BlockNumber p = bNumber (topOf n)).
  { intros c p Hf.
    destruct (FindBlockAndQC_ok _ _ _ Ht _ _ _ _ Hf) as (_ & _ & _ & _ & [[_ ?]|(x & ? & ? & _)]);
      [done|congruence]. }
  pose proof (c_top _ _ _ _ _ _ Hn) as Htop.
  unfold TrySetHighestQCBlock, TrySetHighestPreCommitQCBlock, TrySetHighestLockBlock.
  apply wp_bind. node_reads.
  apply (wp_mono _ _ _ _ (λ _ n', coreOf n' = coreOf (setOut (n_out n ++ [OInserted b q]) (setTree t n)))
           (λ _, False) logged); [by wp_step| |done|done].
  intros [] n1 H1. apply wp_bind. node_reads. apply wp_bind.
  pose proof H1 as H1'. unfold coreOf in H1'. injection H1' as Hp1 Ht1 Ho1 Hev1 He1 Hv1 Hb1 Hpn1 Hpl1 Hvb1 Hvv1 Hpc1 Hl1 Hh1.
  rewrite Hh1. cbn. rewrite Htop.
  eapply higherBlock_new; [exact Ht1|exact Hfind|done|lia|done|].
  unfold updState. wp_step. apply wp_bind. cbn [must]. wp_step. node_reads. apply wp_bind. cbn.
  rewrite Hl1. cbn. apply wp_bind.
  eapply higherBlock_new; [exact Ht1|exact Hfind|done|unfold topOf in *; lia|done|].
  wp_step. apply Hm. split; [|split; [done|cbn; congruence]].
  eapply Core_proper; [|exact Hin]. unfold coreOf. cbn. congruence.
Qed.

Lemma insertQCBlock_ok b q n :
  Inv n → 1 <= bNumber b <= v_blockNumber (n_state n) → bNumber b < MaxUint64 →
  qc_BlockNumber q = bNumber b → qc_BlockHash q = Hash b →
  backed (world n) (bNumber b) (Hash b) →
  wp (insertQCBlock cfg (Some b) q) (λ _, after b) (λ _, False) logged n.
Proof.
  intros Hn Hk Hmax Hq Hh Hbk. pose proof Hn as [Hc Hb]. unfold insertQCBlock.
  apply wp_bind. cbn [must]. wp_step. node_reads.
  destruct (_ || _) eqn:Hold; [wp_step; right; split; [done|]|].
  { pose proof (c_top _ _ _ _ _ _ Hc) as Htop. unfold HasBlock, topOf in *. rewrite Htop in Hold.
    destruct (decide (bNumber b = v_blockNumber (n_state n))); [|lia].
    destruct (Z.leb_spec (bNumber b) (bNumber (v_highestLockBlock (n_state n)))); [lia|].
    destruct (Z.ltb_spec (bNumber b) (bNumber (v_highestLockBlock (n_state n)))); [lia|].
    destruct (Z.eqb_spec (bNumber (v_highestLockBlock (n_state n))) (bNumber b)); [lia|done]. }
  apply orb_false_iff in Hold as [Hold%Z.leb_gt _].
  assert (Hnew : bNumber b = bNumber (topOf n) + 1) by (unfold topOf in *; lia).
  apply wp_bind. eapply wp_mono; [by apply keeps_viewQC| |done|done].
  assert (Hpos : 1 <= bNumber b) by lia.
  intros [] n1 ([Hc1 Hb1] & Ht1 & Ho1). rewrite <- Ht1 in Hnew.
  assert (Hbk1 : backed (world n1) (bNumber b) (Hash b)) by (unfold worldOf; by rewrite Ho1).
  clear n Hn Hc Hb Hold Ht1 Ho1 Hbk Hk. rename n1 into n.
  apply wp_bind. eapply wp_mono; [eapply (wp_onTree _ _ _ _ (λ _, False) logged)| |done|done].
  { eapply (InsertQCBlock_ok _ (had genesis (n_out n ++ [OInserted b q])));
      [done|by apply (c_tree _ _ _ _ _ _ Hc1)|intros; by apply had_grow| | |done|done|done].
    - right. exists b, q. split; [|done]. apply elem_of_app. right. left.
    - pose proof (c_range _ _ _ _ _ _ Hc1). lia. }
  { done. }
  { intros t. by apply (Core_logged _ _ _ _ _ n). }
  intros [lock commit] n' (t & -> & Ht & Hfind & Hl & Hcom). cbn in Hl, Hcom. subst lock.
  unfold emit at 1. apply wp_bind, wp_modify.
  eapply wp_mono; [apply (stays_highest b q t _ n)|by left|done|done]; try done.
  - by apply Core_inserted.
  - lia.
  - clear n Hc1 Hb1 Hnew Hbk1 Ht Hfind. intros n Hn.
    apply stays_bind; [by apply stays_isOwn|]. clear n Hn. intros own n Hn.
    apply stays_bind; [destruct own; [done|by apply stays_quiet; [quiet_tac|]]|].
    clear n Hn. intros [] n Hn. by apply stays_tryCommitNewBlock; [|lia|].
Qed.

(** *** The next height *)

Lemma Core_next n k :
  Core n → v_blockNumber (n_state n) < k →
  Core (setState (SetBlockNumber now k (n_state n)) n).
Proof.
  intros [] Hk. split; cbn; try done.
  - intros j m i v Hm Hi. destruct (c_preCommits j m i v Hm Hi) as (? & ? & ? & _).
    split; [done|]. split; [lia|]. split; [done|]. lia.
  - intros e v m j a Hr. destruct (c_said e v m j a Hr); [left; lia|by right].
  - intros e v m j a e' m' a' Hr Hr' Hj. eapply (c_unique e v m j a e' m' a'); [done|done|lia].
Qed.

Lemma keeps_tryAddStateBlockNumber b q n :
  after b n → 1 <= bNumber b < MaxUint64 → qc_BlockNumber q = bNumber b →
  keeps (tryAddStateBlockNumber now q) n.
Proof.
  intros Ha Hb Hq. unfold tryAddStateBlockNumber. node_reads. rewrite Hq.
  rewrite (proj2 (Z.eqb_neq (bNumber b) 0)) by lia. cbn [orb].
  destruct Ha as [(Hn & Ht & Hk)|[Hn Hk]]; last first.
  { rewrite (proj2 (Z.eqb_neq _ _)) by lia. by wp_step. }
  rewrite Hk, Z.eqb_refl. unfold updState, AddBlockNumber. wp_step. unfold MaxUint64 in Hb.
  rewrite Hq, u64_small by (unfold in_u64; lia). split; [apply Core_next; [done|lia]|].
  cbn. unfold topOf in *. cbn. by rewrite Ht.
Qed.

Context (Hf : faultBound nodes keys) (Hg0 : bNumber genesis = 0).
Context (Hgp : ∀ b, Hash b ≠ bParentHash genesis).
Context (Hothers : ∀ u, u ∈ members nodes → honest keys u → vn_NodeID u ≠ id →
           saysOk nodes genesis keys w (outOf w (vn_NodeID u))).

Abbreviation attested := (attested nodes keys).

(** A certified block for the height of the node, or for one below it. *)
Lemma keeps_insert b q (m : M Node unit) n :
  Inv n → 1 <= bNumber b <= v_blockNumber (n_state n) → bNumber b < MaxUint64 →
  qc_BlockNumber q = bNumber b → qc_BlockHash q = Hash b →
  attested (world n) (bNumber b) (Hash b) →
  (∀ n', Inv n' → keeps m n') →
  keeps (insertQCBlock cfg (Some b) q ≫= λ _, tryAddStateBlockNumber now q ≫= λ _, m) n.
Proof.
  intros Hn Hb Hmax Hq Hh Ha Hm. apply wp_bind.
  eapply wp_mono; [apply (insertQCBlock_ok b q); try done| |done|done].
  { apply attested_backed; [|lia|done]. by eapply worldOk_node; [|apply (proj1 Hn)]. }
  intros [] n1 Hn1. apply keeps_bind; [by apply (keeps_tryAddStateBlockNumber b); [|lia|]|].
  intros [] n2 Hn2. auto.
Qed.

Lemma after_quiet b o n : quiet o → after b n → after b (setOut (n_out n ++ [o]) n).
Proof.
  intros Ho [Hn|[Hn Hb]]; [left; by apply ahead_quiet|right]. split; [by apply Inv_quiet|done].
Qed.

(** *** A certificate of precommits *)

Lemma keeps_insertPreCommitQC q b n :
  Inv n → ViewBlockByIndex (n_state n) (qc_BlockNumber q) = Some b →
  qc_BlockNumber q = v_blockNumber (n_state n) → qc_BlockNumber q < MaxUint64 →
  qc_BlockHash q = Hash b → attested (world n) (qc_BlockNumber q) (Hash b) →
  keeps (insertPreCommitQC cfg now q) n.
Proof.
  intros Hn Hb Hq Hmax Hh Ha. unfold insertPreCommitQC. node_reads. rewrite Hb.
  assert (Hbn : bNumber b = qc_BlockNumber q).
  { unfold ViewBlockByIndex in Hb. apply fmap_Some in Hb as (v & Hv & ->).
    by apply (c_blocks _ _ _ _ _ _ (proj1 Hn)). }
  unfold hasExecuted. apply wp_bind. node_reads. apply wp_bind, wp_ask; [|done|by apply Inv_logged].
  intros isv _. wp_step. apply wp_bind, wp_find.
  destruct (match FindBlockAndQC _ _ _ with Some _ => _ | None => _ end) as [parent pq].
  destruct (_ && _ && _); [|by wp_step].
  apply wp_bind. unfold updState at 1. wp_step. apply wp_bind. unfold updState at 1. wp_step.
  pose proof (c_range _ _ _ _ _ _ (proj1 Hn)). pose proof (proj2 Hn).
  apply keeps_insert; try done; try (cbn; lia); [by eapply Inv_same|by rewrite Hbn|].
  intros n' Hn'. by apply keeps_tryChangeView.
Qed.

(** *** Lists of certified blocks *)

Definition certifies (bq : Block * QuorumCert) : Prop :=
  attested w (bNumber bq.1) (Hash bq.1) ∧ 0 <= bNumber bq.1 < MaxUint64
  ∧ qc_BlockNumber bq.2 = bNumber bq.1 ∧ qc_BlockHash bq.2 = Hash bq.1 ∧ qc_Epoch bq.2 <= 1.

(** A certified block whose parent is in the tree is at most for the height of
    the node. *)
Lemma certified_height b p n :
  Inv n → attested (world n) (bNumber b) (Hash b) → 0 <= bNumber b →
  FindBlockByHash (n_tree n) (bParentHash b) = Some p →
  1 <= bNumber b <= v_blockNumber (n_state n).
Proof.
  intros [Hn Hk] Ha Hb Hp. pose proof (worldOk_node _ _ _ _ _ Hothers n Hn) as Hw.
  destruct (FindBlockByHash_ok _ _ _ (c_tree _ _ _ _ _ _ Hn) _ _ Hp) as (k & Hpk & Hph & Hr & _).
  destruct (decide (bNumber b = 0)) as [H0|H0].
  - rewrite H0 in Ha. apply (attested_zero nodes genesis keys Hnodes Hf) in Ha; [|done].
    apply Hinj in Ha as ->. by destruct (Hgp p).
  - assert (bNumber b = bNumber p + 1); [|lia].
    eapply (backed_parent nodes genesis keys); try done.
    apply attested_backed; [done|lia|done].
Qed.

Lemma keeps_insertQCBlocks l n :
  Inv n → Forall certifies l → keeps (insertQCBlocks cfg now l) n.
Proof.
  revert n. induction l as [|[b q] l IH]; intros n Hn Hl; [done|].
  apply Forall_cons in Hl as [(Ha & Hb & Hq & Hh & He) Hl]. cbn [fst snd] in *.
  cbn [insertQCBlocks]. node_reads. unfold QCBlockRules.
  destruct (FindBlockByHash _ _) as [p|] eqn:Hp; [|by apply wp_bind, wp_fail].
  rewrite (c_epoch _ _ _ _ _ _ (proj1 Hn)), (proj2 (Z.eqb_neq _ _)) by (change (u64 (1 + 1)) with 2; lia).
  apply wp_bind, wp_ret.
  assert (Ha' : attested (world n) (bNumber b) (Hash b))
    by (by eapply attested_grow; [apply (proj1 Hn)|]).
  pose proof (certified_height b p n Hn Ha' (proj1 Hb) Hp) as Hk.
  apply keeps_insert; try done; [lia|]. clear n Hn Ha' Hp Hk. intros n Hn.
  apply keeps_bind; [by apply keeps_tryChangeView|]. intros [] n' Hn'. by apply IH.
Qed.

Lemma keeps_OnInsertQCBlock bs qs n :
  Inv n → Forall certifies (zip bs qs) → keeps (OnInsertQCBlock cfg now bs qs) n.
Proof.
  intros Hn Hl. unfold OnInsertQCBlock. wp_step; [by wp_step|]. by apply keeps_insertQCBlocks.
Qed.
End insert.
