(* ===== verification/PbftVotes.v ===== *)
(** Voting keeps the invariant of a correct node: the votes it stores count,
    and it sends one precommit in each view of a height. *)

From S2P Require Import Prelude Triples BitArray PbftTypes PbftValidators BlockTree PbftEvidence PbftState PbftRules PbftNode PbftEngine PbftSync PbftSystem PbftTree PbftQuorum PbftInv PbftSteps PbftInsert.

#[local] Opaque setupTimer vbMaxNumber evClear.

Lemma addVoteAt_lookup {A} number j (vote : A) v k m i x :
  addVoteAt number j vote v !! k = Some m → m !! i = Some x →
  k = number ∧ i = j ∧ x = vote ∨ ∃ m', v !! k = Some m' ∧ m' !! i = Some x.
Proof.
  unfold addVoteAt.
  set (v' := if (ViewCacheLen <=? size v)%nat then delete (minKey v) v else v).
  assert (Hv : ∀ k m, v' !! k = Some m → v !! k = Some m).
  { unfold v'. intros k' m'. case_match; [by intros [_ ?]%lookup_delete_Some|done]. }
  intros [[<- <-]|[_ Hk]]%lookup_insert_Some Hi; [|right; eauto].
  apply lookup_insert_Some in Hi as [[<- <-]|[_ Hi]]; [by left|].
  destruct (v' !! number) as [m'|] eqn:Hm; [right; eauto|done].
Qed.

Lemma addVoteAt_new {A} number j (vote : A) v :
  default ∅ (addVoteAt number j vote v !! number) !! j = Some vote.
Proof. unfold addVoteAt. rewrite lookup_insert_eq. cbn. apply lookup_insert_eq. Qed.

Section votes.
Context `{CR : Crypto}.
Context (nodes : list (Z * Z * PublicKey)) (period : Z) (genesis : Block) (keys : gmap Z SecretKey).
Context (id : Z) (key : SecretKey) (w : gmap Z (list Output)) (now : Z).

Let agency : Agency := StaticAgency nodes.
#[local] Existing Instance agency.

Context (Hinj : ∀ b c : Block, Hash b = Hash c → b = c).
Context (Hnodes : nodesOk nodes) (Hf : faultBound nodes keys).
Context (Hg0 : bNumber genesis = 0) (Hgp : ∀ b, Hash b ≠ bParentHash genesis).
Context (Hothers : ∀ u, u ∈ members nodes → honest keys u → vn_NodeID u ≠ id →
           saysOk nodes genesis keys w (outOf w (vn_NodeID u))).

Abbreviation cfg := (configOf period id key).
Abbreviation Core := (Core nodes genesis keys id w).
Abbreviation Inv := (Inv nodes genesis keys id w).
Abbreviation logged := (logged nodes genesis keys id w).
Abbreviation world := (worldOf id w).
Abbreviation backed := (backed nodes genesis keys).
Abbreviation attested := (attested nodes keys).
Abbreviation vouched := (vouched nodes keys id w).
Abbreviation known := (known nodes id).
Abbreviation keeps m n := (wp m (λ _, Inv) Inv logged n).

Implicit Types n : Node.

#[local] Hint Resolve Inv_logged Core_logged : core.

(** *** Storing votes *)

Lemma Core_addPrepareVote n i v :
  Core n → pv_Epoch v = 1 → vouched n i (pv_BlockNumber v) (pv_BlockHash v) →
  Core (setState (AddPrepareVote i v (n_state n)) n).
Proof.
  intros [] He Hv. split; cbn; try done. intros k m j x Hm Hj.
  destruct (addVoteAt_lookup _ _ _ _ _ _ _ _ Hm Hj) as [(-> & -> & ->)|(m' & Hm' & Hj')]; [done|].
  by apply (c_votes k m' j x).
Qed.

Lemma Core_addPreCommit n i v :
  Core n → pc_BlockNumber v = v_blockNumber (n_state n) →
  pc_ViewNumber v = v_viewNumber (n_state n) →
  vouched n i (pc_BlockNumber v) (pc_BlockHash v) → known n i v →
  Core (setState (AddPreCommit i v (n_state n)) n).
Proof.
  intros [] Hk Hview Hv Hkn. split; cbn; try done. intros k m j x Hm Hj.
  destruct (addVoteAt_lookup _ _ _ _ _ _ _ _ Hm Hj) as [(-> & -> & ->)|(m' & Hm' & Hj')].
  - split; [done|]. split; [lia|]. by split.
  - by apply (c_preCommits k m' j x).
Qed.

(** What the node itself has said counts. *)
Lemma vouched_own u n k m :
  u ∈ members nodes → vn_NodeID u = id → spoke (n_out n) k m → vouched n (vn_Index u) k m.
Proof.
  intros Hu Hid Hs. exists u. split; [done|]. split; [done|]. intros _.
  unfold worldOf. by rewrite outOf_insert, decide_True.
Qed.

Lemma wp_localIndex n :
  Inv n → wp (localIndex cfg)
    (λ i n', n' = n ∧ ∃ u, u ∈ members nodes ∧ vn_NodeID u = id ∧ vn_Index u = i)
    (λ _, False) logged n.
Proof.
  intros Hn. unfold localIndex. apply wp_bind, wp_try.
  eapply wp_mono; [by apply wp_current| | |].
  - intros u n' (-> & Hu & Hid). wp_step. split; [done|]. by exists u.
  - intros n' Hn' e. by apply wp_panic, Inv_logged.
  - done.
Qed.

(** *** Votes *)

Lemma tryAddHadSendVote_ok k p n :
  Inv n → wp (tryAddHadSendVote k p) (λ _ n', coreOf n' = coreOf n) (λ _, False) logged n.
Proof.
  intros Hn. unfold tryAddHadSendVote. node_reads. apply wp_bind.
  apply (wp_mono _ _ _ _ (λ _ n', n' = n) (λ _, False) logged).
  - wp_step; [by wp_step|]. wp_step; [|by wp_step].
    apply wp_bind. destruct (v_hadSendVoteLast _); cbn [must]; [by wp_step; wp_step|].
    by apply wp_panic, Inv_logged.
  - intros later n' ->. by destruct later.
  - done.
  - done.
Qed.

(** The parent of the block at the height of the node has been inserted. *)
Lemma parent_had n b c q :
  Inv n → bNumber b = v_blockNumber (n_state n) →
  FindBlockAndQC (n_tree n) (bParentHash b) (u64 (bNumber b - 1)) = Some (c, q) →
  had genesis (n_out n) (bNumber b - 1) (bParentHash b).
Proof.
  intros [Hn Hk] Hb Hc. pose proof (c_range _ _ _ _ _ _ Hn) as Hr. unfold MaxUint64 in Hr.
  rewrite u64_small in Hc by (unfold in_u64; lia).
  by destruct (FindBlockAndQC_ok _ _ _ (c_tree _ _ _ _ _ _ Hn) _ _ _ _ Hc) as (_ & _ & _ & ? & _).
Qed.

Lemma Inv_sendVote n u p b :
  Inv n → u ∈ members nodes → vn_NodeID u = id → pv_Epoch p = 1 →
  pv_BlockNumber p = v_blockNumber (n_state n) → bNumber b = pv_BlockNumber p →
  Hash b = pv_BlockHash p → had genesis (n_out n) (bNumber b - 1) (bParentHash b) →
  Inv (setState (AddPrepareVote (vn_Index u) p (n_state n))
        (setOut (n_out n ++ [OBroadcast (NConsensus (MPrepareVote p))]) n)).
Proof.
  intros [Hn Hk] Hu Hid He Hp Hb Hh Hpar. split; [|done].
  apply (Core_addPrepareVote (setOut (n_out n ++ [OBroadcast (NConsensus (MPrepareVote p))]) n)).
  - apply Core_output; [done|done|done| |].
    + intros ? ? ? ? ? ? [= <- <- <- <- <- <-]. pose proof (c_range _ _ _ _ _ _ Hn).
      split; [lia|]. split; [lia|]. intros _. left. exists b. by rewrite <- Hb.
    + intros ? ? ? ? ? [=].
  - done.
  - apply vouched_own; [done|done|]. exists (pv_Epoch p), (pv_ViewNumber p), (pv_BlockIndex p), RoundStepPrepareVote.
    apply released_app. by right.
Qed.

Lemma keeps_trySendPrepareVote p n :
  Inv n → pv_Epoch p = 1 →
  (∀ b, ViewBlockByIndex (n_state n) (pv_BlockNumber p) = Some b → Hash b = pv_BlockHash p) →
  keeps (trySendPrepareVote cfg now p) n.
Proof.
  intros Hn He Hp. unfold trySendPrepareVote. node_reads. wp_step; [by wp_step|].
  destruct (AllowVote (n_state n) p) eqn:Hallow; cbn [negb]; [|by wp_step].
  unfold AllowVote in Hallow.
  apply andb_true_iff in Hallow as [[Hk _]%negb_true_iff%orb_false_iff _].
  apply negb_false_iff, Z.eqb_eq in Hk.
  destruct (ViewBlockByIndex (n_state n) (pv_BlockNumber p)) as [b|] eqn:Hb; cbn [must];
    [|by apply wp_bind, wp_panic, Inv_logged].
  apply wp_bind. wp_step. specialize (Hp b eq_refl).
  assert (Hbn : bNumber b = pv_BlockNumber p).
  { unfold ViewBlockByIndex in Hb. apply fmap_Some in Hb as (v & Hv & ->).
    by apply (c_blocks _ _ _ _ _ _ (proj1 Hn)). }
  apply wp_bind, wp_find.
  destruct (FindBlockAndQC _ _ _) as [[c qc]|] eqn:Hc; last first.
  { pose proof (c_range _ _ _ _ _ _ (proj1 Hn)). pose proof (proj2 Hn).
    rewrite bool_decide_eq_false_2 by (by intros [? ?]).
    rewrite (proj2 (Z.eqb_neq _ _)) by lia. by wp_step. }
  rewrite bool_decide_eq_true_2 by eauto. cbn [orb].
  apply parent_had in Hc; [|done|lia].
  apply wp_bind. eapply wp_mono; [by apply tryAddHadSendVote_ok| |done|done].
  intros [] n1 H1. pose proof (Inv_same _ _ _ _ _ _ _ Hn H1) as Hn1.
  unfold coreOf in H1. injection H1 as _ _ Ho1 _ _ _ Hb1 _ _ _ _ _ _ _.
  apply wp_bind. eapply wp_mono; [by apply wp_localIndex| |done|done].
  intros i n' (-> & u & Hu & Hid & <-). apply wp_bind. unfold updState, emit. wp_step. wp_step.
  apply (Inv_sendVote n1 u (pvSetParentQC p qc) b); cbn; try done; [congruence|by rewrite Ho1].
Qed.

Lemma keeps_signBlock h k i n :
  Inv n → (∀ b, ViewBlockByIndex (n_state n) k = Some b → Hash b = h) →
  keeps (signBlock cfg now h k i) n.
Proof.
  intros Hn Hb. unfold signBlock. apply wp_bind.
  eapply wp_mono; [by apply wp_current| |done|done]. intros u n' (-> & _). node_reads.
  apply keeps_trySendPrepareVote; [done| |done]. apply (c_epoch _ _ _ _ _ _ (proj1 Hn)).
Qed.

(** *** Precommits *)

(** The node has sent no precommit of this height in this view or later. *)
Definition newPreCommit n (p : PreCommit) : Prop :=
  ∀ e v m a, released (n_out n) [e; v; m; pc_BlockNumber p; a; RoundStepPreCommit] →
    v < pc_ViewNumber p.

Lemma allow_newPreCommit n p :
  Inv n → pc_Epoch p = 1 → AllowPreCommit (n_state n) p = true →
  pc_BlockNumber p = v_blockNumber (n_state n) ∧ pc_ViewNumber p = v_viewNumber (n_state n)
  ∧ newPreCommit n p
  ∧ ∀ l, v_hadSendPreCommitLast (n_state n) = Some l →
      pc_BlockNumber l < pc_BlockNumber p
      ∨ pc_BlockNumber l = pc_BlockNumber p ∧ pc_ViewNumber l < pc_ViewNumber p.
Proof.
  intros [Hn Hb] He Hallow. unfold AllowPreCommit in Hallow.
  apply andb_true_iff in Hallow as [[Hk Hv]%negb_true_iff%orb_false_iff Hs%negb_true_iff].
  apply negb_false_iff, Z.eqb_eq in Hk, Hv.
  assert (Hl : ∀ l, v_hadSendPreCommitLast (n_state n) = Some l →
      pc_BlockNumber l < pc_BlockNumber p
      ∨ pc_BlockNumber l = pc_BlockNumber p ∧ pc_ViewNumber l < pc_ViewNumber p).
  { intros l Hl. destruct (c_last _ _ _ _ _ _ Hn l Hl) as [Hln Hle].
    unfold HadSendPreCommit, hadSend in Hs. rewrite Hl, Hln, Hle, He in Hs.
    destruct (Z.ltb_spec (pc_BlockNumber l) (pc_BlockNumber p)); [by left|].
    destruct (Z.ltb_spec (pc_BlockNumber p) (pc_BlockNumber l)); [done|]. cbn in Hs.
    apply Z.leb_gt in Hs. right. lia. }
  split; [done|]. split; [done|]. split; [|done]. intros e v m a Hr.
  destruct (c_said _ _ _ _ _ _ Hn e v m (pc_BlockNumber p) a Hr) as [?|(l & Hl' & ? & ?)]; [lia|].
  destruct (Hl l Hl'); lia.
Qed.

(** Remembering the precommit that is sent. *)
Lemma Inv_remember n p :
  Inv n → pc_Epoch p = 1 → AllowPreCommit (n_state n) p = true →
  Inv (setState (AddHadSendPreCommitNumber (pc_BlockNumber p) p (n_state n)) n).
Proof.
  intros Hn He Hallow. destruct (allow_newPreCommit n p Hn He Hallow) as (Hk & Hv & Hnew & Hl).
  destruct Hn as [[] Hb]. split; [|done]. split; cbn; try done.
  - intros e v m k a Hr. destruct (c_said e v m k a Hr) as [?|(l & Hl' & -> & Hle)]; [by left|].
    destruct (Hl l Hl') as [?|[He' ?]]; [left; lia|]. right. exists p. split; [done|]. lia.
  - by intros l [= <-].
Qed.

Lemma tryAddHadSendPreCommit_ok p n :
  Inv n → pc_Epoch p = 1 → AllowPreCommit (n_state n) p = true →
  wp (tryAddHadSendPreCommit (pc_BlockNumber p) p)
    (λ _ n', n' = setState (AddHadSendPreCommitNumber (pc_BlockNumber p) p (n_state n)) n)
    (λ _, False) logged n.
Proof.
  intros Hn He Hallow. destruct (allow_newPreCommit n p Hn He Hallow) as (Hk & Hv & _ & Hl).
  unfold tryAddHadSendPreCommit. node_reads. apply wp_bind.
  apply andb_true_iff in Hallow as [_ Hs%negb_true_iff]. unfold HadSendPreCommit, hadSend in Hs.
  destruct (Z.ltb_spec (v_hadSendPreCommitNumber (n_state n)) (pc_BlockNumber p)) as [Hlt|Hge];
    [by wp_step|].
  destruct (v_hadSendPreCommitLast (n_state n)) as [l|] eqn:Hlast; last first.
  { destruct (Z.ltb_spec (pc_BlockNumber p) (v_hadSendPreCommitNumber (n_state n))); [done|].
    rewrite (proj2 (Z.eqb_eq _ _)) by lia. by apply wp_bind, wp_panic, Inv_logged. }
  destruct (c_last _ _ _ _ _ _ (proj1 Hn) l Hlast) as [Hln Hle].
  destruct (Hl l eq_refl) as [?|[Heq Hlt]]; [lia|].
  rewrite (proj2 (Z.eqb_eq _ _)) by lia. apply wp_bind. cbn [must]. wp_step. wp_step.
  rewrite Hle, He, (proj2 (Z.ltb_lt _ _) Hlt). done.
Qed.

Lemma Inv_sendPreCommit n u p :
  Inv n → u ∈ members nodes → vn_NodeID u = id → pc_Epoch p = 1 →
  pc_BlockNumber p = v_blockNumber (n_state n) → pc_ViewNumber p = v_viewNumber (n_state n) →
  v_hadSendPreCommitLast (n_state n) = Some p → newPreCommit n p →
  backed (world n) (pc_BlockNumber p) (pc_BlockHash p) →
  Inv (setState (AddPreCommit (vn_Index u) p (n_state n))
        (setOut (n_out n ++ [OBroadcast (NConsensus (MPreCommit p))]) n)).
Proof.
  intros [Hn Hk] Hu Hid He Hp Hv Hl Hnew Hbk. split; [|done].
  assert (Hr : released (n_out n ++ [OBroadcast (NConsensus (MPreCommit p))]) (pcDigest p))
    by (apply released_app; by right).
  apply (Core_addPreCommit (setOut (n_out n ++ [OBroadcast (NConsensus (MPreCommit p))]) n));
    [|done|done| |].
  - apply Core_output; [done|done|done| |].
    + intros ? ? ? ? ? ? [= <- <- <- <- <- <-]. pose proof (c_range _ _ _ _ _ _ Hn).
      split; [lia|]. split; [lia|]. by right.
    + intros ? ? ? ? ? [= <- <- <- <- <-]. split; [right; by exists p|].
      intros _ e m a Hold. specialize (Hnew _ _ _ _ Hold). lia.
  - apply vouched_own; [done|done|]. by eexists _, _, _, _.
  - right. exists u, (pc_BlockIndex p). do 3 (split; [done|]). rewrite <- He. exact Hr.
Qed.

Lemma keeps_recordPreCommit p n :
  Inv n → pc_Epoch p = 1 → AllowPreCommit (n_state n) p = true →
  backed (world n) (pc_BlockNumber p) (pc_BlockHash p) →
  keeps (tryAddHadSendPreCommit (pc_BlockNumber p) p ≫= λ _,
         localIndex cfg ≫= λ i,
         updState (AddPreCommit i p) ≫= λ _,
         emit (OBroadcast (NConsensus (MPreCommit p)))) n.
Proof.
  intros Hn He Hallow Hbk. apply wp_bind.
  eapply wp_mono; [by apply tryAddHadSendPreCommit_ok| |done|done]. intros [] n1 ->.
  pose proof (allow_newPreCommit n p Hn He Hallow) as (Hk & Hv & Hnew & _).
  pose proof (Inv_remember n p Hn He Hallow) as Hn1.
  apply wp_bind. eapply wp_mono; [by apply wp_localIndex| |done|done].
  intros i n' (-> & u & Hu & Hid & <-). apply wp_bind. unfold updState, emit. wp_step. wp_step.
  by apply (Inv_sendPreCommit
    (setState (AddHadSendPreCommitNumber (pc_BlockNumber p) p (n_state n)) n) u p).
Qed.

Lemma keeps_trySendPreCommit p n :
  Inv n → pc_Epoch p = 1 → backed (world n) (pc_BlockNumber p) (pc_BlockHash p) →
  keeps (trySendPreCommit cfg now p) n.
Proof.
  intros Hn He Hbk. unfold trySendPreCommit. node_reads. wp_step; [by wp_step|].
  destruct (AllowPreCommit (n_state n) p) eqn:Hallow; cbn [negb]; [|by wp_step].
  apply wp_bind, wp_must; [intros b _|by apply Inv_logged]. apply wp_bind, wp_find.
  destruct (match FindBlockAndQC _ _ _ with Some _ => _ | None => _ end) as [c qc].
  destruct (_ || _); [|by wp_step]. by apply (keeps_recordPreCommit (pcSetParentQC p qc)).
Qed.

Lemma keeps_genPreCommit qc n :
  Inv n → qc_Epoch qc = 1 → attested (world n) (qc_BlockNumber qc) (qc_BlockHash qc) →
  keeps (genPreCommit cfg now qc) n.
Proof.
  intros Hn He Ha. unfold genPreCommit. node_reads.
  destruct (Z.eqb_spec (qc_BlockNumber qc) (v_blockNumber (n_state n))) as [Hk|]; cbn [negb];
    [|by wp_step].
  apply wp_bind. eapply wp_mono; [by apply wp_current| |done|done]. intros u n' (-> & _).
  apply wp_bind, wp_must; [intros b _|by apply Inv_logged]. apply wp_bind, wp_find.
  destruct (match FindBlockAndQC _ _ _ with Some _ => _ | None => _ end) as [c qc2].
  destruct (_ || _); [|by wp_step]. apply keeps_trySendPreCommit; [done|done|].
  apply attested_backed; [by eapply worldOk_node; [|apply (proj1 Hn)]| |done].
  destruct Hn as [Hn Hb]. pose proof (c_range _ _ _ _ _ _ Hn). cbn. lia.
Qed.

Lemma keeps_acceptPrepareQC qc n :
  Inv n → qc_Epoch qc = 1 → attested (world n) (qc_BlockNumber qc) (qc_BlockHash qc) →
  keeps (acceptPrepareQC cfg now qc) n.
Proof.
  intros Hn He Ha. unfold acceptPrepareQC, updState. apply wp_bind. wp_step. apply wp_bind. wp_step.
  apply keeps_bind; [apply keeps_try, keeps_genPreCommit; [by eapply Inv_same|done|done]|].
  intros r n' Hn'. by wp_step.
Qed.

(** *** Certificates made of votes *)

Lemma keeps_TrySetHighestQCBlock b n : Inv n → keeps (TrySetHighestQCBlock b) n.
Proof.
  intros Hn. unfold TrySetHighestQCBlock. node_reads. wp_step; [by apply keeps_state|by wp_step].
Qed.

Lemma wp_validatorLen n :
  Inv n → wp currentValidatorLen (λ l n', n' = n ∧ l = Z.of_nat (length nodes)) (λ _, False) logged n.
Proof.
  intros [Hn _]. unfold currentValidatorLen. node_reads.
  rewrite (c_pool _ _ _ _ _ _ Hn), (c_epoch _ _ _ _ _ _ Hn), staticPool_len1 by done. done.
Qed.

Lemma prepareQC_attested n k q :
  Inv n →
  threshold (Z.of_nat (length nodes)) <= PrepareVoteLenByNumber (n_state n) k →
  generatePrepareQC (Z.of_nat (length nodes)) (AllPrepareVoteByNumber (n_state n) k) = Ok (Some q) →
  qc_Epoch q = 1 ∧ attested (world n) (qc_BlockNumber q) (qc_BlockHash q).
Proof.
  intros [Hn _] Hlen Hq. apply generatePrepareQC_ok in Hq as (_ & (i & v & Hv & He & _) & Hall).
  assert (Hst : ∀ i v, AllPrepareVoteByNumber (n_state n) k !! i = Some v →
    pv_BlockNumber v = k ∧ pv_Epoch v = 1 ∧ vouched n i k (pv_BlockHash v)).
  { intros j x. unfold AllPrepareVoteByNumber.
    destruct (v_viewVotes (n_state n) !! k) as [m|] eqn:Hm; [|done]. cbn.
    by apply (c_votes _ _ _ _ _ _ Hn k m j x). }
  destruct (Hst i v Hv) as (_ & He1 & _). split; [congruence|].
  eapply (quorum_votes nodes keys); [exact Hlen|]. intros j x Hx.
  destruct (Hst j x Hx) as (Hk & _ & u & ? & ? & Hs). destruct (Hall j x Hx) as [Hqn Hqh].
  exists u. by rewrite <- Hqn, <- Hqh, Hk.
Qed.

Lemma attested_emit n o k m :
  attested (world n) k m → attested (world (setOut (n_out n ++ [o]) n)) k m.
Proof. apply quorum_mono. intros u _ _. apply spoke_mono. apply worldOf_grow. Qed.

Lemma keeps_findPreVoteQC k n : Inv n → keeps (findPreVoteQC cfg now k) n.
Proof.
  intros Hn. unfold findPreVoteQC. node_reads. apply wp_bind.
  eapply wp_mono; [by apply wp_validatorLen| |done|done]. intros len n' [-> ->].
  destruct (Z.leb_spec (threshold (Z.of_nat (length nodes))) (PrepareVoteLenByNumber (n_state n) k));
    [|by wp_step].
  apply wp_bind, wp_ask; [|done|by apply Inv_logged]. intros [q|] Hq; [|by wp_step].
  destruct (prepareQC_attested n k q) as [He Ha]; [done..|].
  apply wp_bind, wp_must; [intros b _|by apply Inv_logged]. apply wp_bind.
  apply (wp_mono _ _ _ _ (λ _ n', Inv n' ∧ n_out n' = n_out n) Inv logged); [| |done|done].
  { unfold TrySetHighestQCBlock. node_reads. wp_step; [|by wp_step]. unfold updState. wp_step.
    split; [by eapply Inv_same|done]. }
  intros [] n1 [Hn1 Ho]. apply wp_bind. unfold emit. wp_step.
  apply keeps_acceptPrepareQC; [apply Inv_quiet; [done|quiet_tac]|done|]. apply attested_emit.
  unfold worldOf in *. by rewrite Ho.
Qed.
End votes.
