(* ===== verification/PbftHandlers.v ===== *)
(** The handlers of a correct node keep its invariant. *)

From S2P Require Import Prelude Triples BitArray PbftTypes PbftValidators BlockTree PbftEvidence PbftState PbftRules PbftNode PbftEngine PbftSync PbftSystem PbftTree PbftQuorum PbftInv PbftSteps PbftInsert PbftVotes.

#[local] Opaque setupTimer vbMaxNumber evClear.

(** ** Evidence *)

(** What the pool has found of precommits, it finds again. *)
Definition evGrows `{Crypto} (p p' : EvidencePool) : Prop :=
  ∀ i l e v k ev, ep_pc p !! i = Some l → opvFind l e v k = Some ev →
    ∃ l', ep_pc p' !! i = Some l' ∧ opvFind l' e v k = Some ev.

Lemma evGrows_same `{Crypto} p p' : ep_pc p' = ep_pc p → evGrows p p'.
Proof. intros He i l e v k ev Hl Hev. exists l. by rewrite He. Qed.

Lemma opvFind_app `{Crypto} l x e v k :
  opvFind (l ++ [x]) e v k =
    match opvFind l e v k with
    | Some ev => Some ev
    | None => opvFind [x] e v k
    end.
Proof. unfold opvFind. rewrite filter_app. by destruct (base.filter _ l). Qed.

(** A precommit without a duplicate is on record. *)
Lemma evAddPreCommit_ok `{Crypto} p m u p' d :
  evAddPreCommit p m u = (p', d) →
  evGrows p p'
  ∧ (d = None → ∃ l ev, ep_pc p' !! verifyIdentity (MPreCommit m) = Some l
       ∧ opvFind l (pc_Epoch m) (pc_ViewNumber m) (pc_BlockNumber m) = Some ev
       ∧ ev_BlockHash ev = pc_BlockHash m).
Proof.
  unfold evAddPreCommit, evidenceAdd, opvAdd.
  set (i := verifyIdentity (MPreCommit m)).
  lazymatch goal with |- context [opvFind ?x _ _ _] => set (l := x) end.
  assert (Hl : ∀ l0, ep_pc p !! i = Some l0 → l = l0) by (intros l0 Hl0; unfold l, EvidencePrecommit in *; by rewrite Hl0).
  cbn [NewEvidencePrecommit ev_Epoch ev_ViewNumber ev_BlockNumber ev_BlockHash].
  assert (Hsame : ∀ db, evGrows p (mkPool (ep_pb p) (ep_pv p) (<[i := l]> (ep_pc p)) (ep_vc p) db)).
  { intros db j l0 e v k ev Hj Hev. destruct (decide (i = j)) as [<-|Hne]; cbn.
    - exists l. by rewrite lookup_insert_eq, (Hl l0 Hj).
    - exists l0. by rewrite lookup_insert_ne. }
  destruct (opvFind l (pc_Epoch m) (pc_ViewNumber m) (pc_BlockNumber m)) as [x|] eqn:Hx.
  - destruct (Z.eqb_spec (ev_BlockHash x) (pc_BlockHash m)) as [He|He].
    + intros [= <- <-]. split; [apply Hsame|]. intros _. exists l, x. cbn. by rewrite lookup_insert_eq.
    + destruct (byHash ev_BlockHash _ x) as [a b]. intros [= <- <-]. by split; [apply Hsame|].
  - intros [= <- <-]. cbn. split.
    + intros j l0 e v k ev Hj Hev. destruct (decide (i = j)) as [<-|Hne]; cbn.
      * eexists. rewrite lookup_insert_eq. split; [done|]. by rewrite opvFind_app, (Hl l0 Hj), Hev.
      * exists l0. by rewrite lookup_insert_ne.
    + intros _. eexists _, _. rewrite lookup_insert_eq. split; [done|].
      rewrite opvFind_app, Hx. unfold opvFind. rewrite filter_cons, decide_True by done. done.
Qed.

(** ** Rules *)

Lemma voteRules_ok `{Crypto} Amount now s t v :
  voteRules Amount now s t v = Ok None →
  v_epoch s = vw_Epoch v ∧ v_blockNumber s <= vw_BlockNumber v
  ∧ (v_blockNumber s < vw_BlockNumber v → 1 < vw_BlockNumber v →
     ∃ h b, FindBlockAndQC t h (u64 (vw_BlockNumber v - 1)) = Some b)
  ∧ v_viewNumber s = vw_ViewNumber v
  ∧ (doubtDuplicateVote v = true ∨ existsPrepare s v = true).
Proof.
  unfold voteRules, changeEpochRules. destruct (alreadyQCBlock _ _ _); [done|].
  destruct (Z.eqb_spec (v_epoch s) (vw_Epoch v)); cbn [negb]; [|by destruct (_ <? _)].
  destruct (Z.ltb_spec (vw_BlockNumber v) (v_blockNumber s)); [done|].
  intros (missing & Hm & Hr)%outcome_bind_Ok. destruct missing; [done|].
  destruct (Z.eqb_spec (v_viewNumber s) (vw_ViewNumber v)); cbn [negb] in Hr; [|done].
  split; [done|]. split; [done|]. split; [|split; [done|]].
  - intros H1 H2. unfold voteParent in Hm.
    rewrite (proj2 (Z.ltb_lt _ _) H1), (proj2 (Z.ltb_lt _ _) H2) in Hm. cbn in Hm.
    destruct (vw_ParentQC v) as [q|]; [|done]. injection Hm as Hm%bool_decide_eq_false.
    exists (qc_BlockHash q). by apply not_eq_None_Some in Hm as [b ?]; exists b.
  - unfold acceptIndexVote in Hr. destruct (_ <=? _); [done|].
    destruct (doubtDuplicateVote v); [by left|]. destruct (bool_decide _); [done|].
    destruct (existsPrepare s v); [by right|done].
Qed.

Section handlers.
Context `{CR : Crypto}.
Context (nodes : list (Z * Z * PublicKey)) (period : Z) (genesis : Block) (keys : gmap Z SecretKey).
Context (id : Z) (key : SecretKey) (w : gmap Z (list Output)) (now : Z).

Let agency : Agency := StaticAgency nodes.
#[local] Existing Instance agency.

Context (Hinj : ∀ b c : Block, Hash b = Hash c → b = c).
Context (Hnodes : nodesOk nodes) (Hf : faultBound nodes keys).
Context (Hg0 : bNumber genesis = 0) (Hgp : ∀ b, Hash b ≠ bParentHash genesis).
Context (Hkey : keys !! id = Some key).
Context (Hothers : ∀ u, u ∈ members nodes → honest keys u → vn_NodeID u ≠ id →
           saysOk nodes genesis keys w (outOf w (vn_NodeID u))).

Abbreviation cfg := (configOf period id key).
Abbreviation Core := (Core nodes genesis keys id w).
Abbreviation Inv := (Inv nodes genesis keys id w).
Abbreviation logged := (logged nodes genesis keys id w).
Abbreviation world := (worldOf id w).
Abbreviation attested := (attested nodes keys).
Abbreviation vouched := (vouched nodes keys id w).
Abbreviation known := (known nodes id).
Abbreviation authentic := (authentic nodes keys w).
Abbreviation keeps m n := (wp m (λ _, Inv) Inv logged n).

Implicit Types n : Node.

#[local] Hint Resolve Inv_logged Core_logged : core.

(** ** Certificates of precommits *)

Lemma preCommitQC_attested n k q :
  Inv n →
  threshold (Z.of_nat (length nodes)) <= PreCommitLenByNumber (n_state n) k →
  generatePreCommitQC (Z.of_nat (length nodes)) (AllPreCommitByNumber (n_state n) k) = Ok (Some q) →
  qc_BlockNumber q = k ∧ attested (world n) k (qc_BlockHash q)
  ∧ ∀ i v, AllPreCommitByNumber (n_state n) k !! i = Some v → pc_BlockHash v = qc_BlockHash q.
Proof.
  intros [Hn _] Hlen Hq. apply generatePreCommitQC_ok in Hq as (_ & (i & v & Hv & _) & Hall).
  assert (Hst : ∀ i v, AllPreCommitByNumber (n_state n) k !! i = Some v →
    pc_BlockNumber v = k ∧ vouched n i k (pc_BlockHash v)).
  { intros j x. unfold AllPreCommitByNumber.
    destruct (v_viewPreCommits (n_state n) !! k) as [m|] eqn:Hm; [|done]. cbn. intros Hx.
    by destruct (c_preCommits _ _ _ _ _ _ Hn k m j x Hm Hx) as (? & _ & ? & _). }
  destruct (Hst i v Hv) as [Hk _]. destruct (Hall i v Hv) as [Hqn _].
  split; [congruence|]. split; [|intros j x Hx; by apply (Hall j x)].
  eapply (quorum_votes nodes keys); [exact Hlen|]. intros j x Hx.
  destruct (Hst j x Hx) as (_ & u & ? & ? & Hs). destruct (Hall j x Hx) as [_ Hqh].
  exists u. by rewrite <- Hqh.
Qed.

Lemma keeps_findPreCommitQC i v n :
  Inv n → pc_BlockNumber v = v_blockNumber (n_state n) → pc_BlockNumber v < MaxUint64 →
  AllPreCommitByNumber (n_state n) (pc_BlockNumber v) !! i = Some v →
  (∀ b, ViewBlockByIndex (n_state n) (pc_BlockNumber v) = Some b → Hash b = pc_BlockHash v) →
  keeps (findPreCommitQC cfg now (pc_BlockNumber v)) n.
Proof.
  intros Hn Hk Hmax Hv Hblk. unfold findPreCommitQC. node_reads. apply wp_bind.
  eapply wp_mono; [by apply wp_validatorLen| |done|done]. intros len n' [-> ->].
  destruct (Z.leb_spec (threshold (Z.of_nat (length nodes)))
              (PreCommitLenByNumber (n_state n) (pc_BlockNumber v))); [|by wp_step].
  apply wp_bind, wp_ask; [|done|by apply Inv_logged]. intros [q|] Hq; [|by wp_step].
  destruct (preCommitQC_attested n (pc_BlockNumber v) q) as (Hqn & Ha & Hall); [done..|].
  specialize (Hall i v Hv). unfold updState. apply wp_bind. wp_step. apply wp_bind. wp_step.
  destruct (ViewBlockByIndex (n_state n) (pc_BlockNumber v)) as [b|] eqn:Hb;
    [|by apply wp_bind, wp_bind, wp_panic, (Inv_logged _ _ _ _ _ n)].
  assert (Hbn : bNumber b = pc_BlockNumber v).
  { unfold ViewBlockByIndex in Hb. apply fmap_Some in Hb as (x & Hx & ->).
    by apply (c_blocks _ _ _ _ _ _ (proj1 Hn)). }
  specialize (Hblk b eq_refl). pose proof (c_range _ _ _ _ _ _ (proj1 Hn)). pose proof (proj2 Hn).
  assert (Hn1 : Inv (setState (AddPreCommitQC q (set_viewPreCommitQC (Some q) (n_state n))) n))
    by (by eapply Inv_same).
  apply wp_bind. eapply wp_mono; [eapply (insertQCBlock_ok nodes period genesis keys id key w); try done| |done|done].
  { cbn. lia. } { lia. } { lia. } { congruence. }
  { rewrite Hbn, Hblk, Hall. apply attested_backed; [|lia|done].
    exact (worldOk_node _ _ _ _ _ Hothers n (proj1 Hn)). }
  intros [] n1 Hn2. apply wp_bind. unfold emit. wp_step.
  apply keeps_bind; [|intros [] n2 Hn3; by apply keeps_tryChangeView].
  apply (keeps_tryAddStateBlockNumber _ _ _ _ _ _ b); [apply after_quiet; [quiet_tac|done]|lia|lia].
Qed.

(** ** Verification of messages *)

Lemma Inv_evGrows n ev : Inv n → evGrows (n_ev n) ev → Inv (setEv ev n).
Proof.
  intros [[] Hb] Hev. split; [|done]. split; cbn; try done.
  intros k m i v Hm Hi. destruct (c_preCommits k m i v Hm Hi) as (? & ? & ? & Hcur).
  split; [done|]. split; [done|]. split; [done|]. intros Hk.
  destruct (Hcur Hk) as [? [(l & e & Hl & Hfind & He)|?]]; (split; [done|]); [left|by right].
  destruct (Hev _ _ _ _ _ _ Hl Hfind) as (l' & ? & ?). by exists l', e.
Qed.

Lemma wp_currentProposer n :
  Inv n → wp currentProposer (λ _ n', n' = n) (λ _, False) logged n.
Proof.
  intros [Hn Hb]. unfold currentProposer. node_reads.
  rewrite (c_pool _ _ _ _ _ _ Hn), (c_epoch _ _ _ _ _ _ Hn), staticPool_len1 by done.
  apply wp_bind, wp_ask_Ok, wp_bind. unfold CalCurrentProposer, CalCurrentProposerWithBlockNumber.
  destruct (_ =? 0); [by apply wp_panic; eapply Core_logged|]. apply wp_ask_Ok, wp_bind, wp_try.
  apply wp_ask; [intros x _; by wp_step|intros e; by apply wp_panic; eapply Core_logged|by eapply Core_logged].
Qed.

(** A message that is signed by a validator: a correct one has released it. *)
Lemma verifyConsensusSign_ok m :
  verifyConsensusSign (staticPool nodes id) m = Ok tt →
  ∃ u, GetValidatorByIndex (staticPool nodes id) (EpochNum m) (NodeIndex m) = Ok u
    ∧ EpochNum m <= 1 ∧ u ∈ members nodes ∧ vn_Index u = Z.of_nat (Z.to_nat (NodeIndex m))
    ∧ (authentic (msgSign m) → honest keys u →
       released (outOf w (vn_NodeID u)) (CannibalizeBytes m)).
Proof.
  intros Hv. apply outcome_bind_Ok in Hv as (_ & _ & Hv).
  destruct (vpVerify _ _ _ _ _) as [[]| |] eqn:Hver; [|done..].
  apply outcome_bind_Ok in Hver as (u & Hu & Hsig). exists u. split; [done|].
  assert (He : EpochNum m <= 1).
  { apply outcome_bind_Ok in Hu as (vs & Hvs & _). by apply staticPool_at in Hvs as [? _]. }
  destruct (staticPool_byIndex nodes Hnodes id _ _ _ Hu) as [Hmem Hi].
  split; [done|]. split; [done|]. split; [done|]. intros Ha Hh.
  apply (Ha u [] (CannibalizeBytes m) u); [|by intros x ->%list_elem_of_singleton|done|left|done].
  apply NoDup_singleton.
Qed.

(** After a precommit is accepted, its block is on record for the signer. *)
Definition recorded (m : ConsensusMsg) n : Prop :=
  match m with
  | MPreCommit m =>
      ∃ l ev, ep_pc (n_ev n) !! verifyIdentity (MPreCommit m) = Some l
        ∧ opvFind l (pc_Epoch m) (pc_ViewNumber m) (pc_BlockNumber m) = Some ev
        ∧ ev_BlockHash ev = pc_BlockHash m
  | _ => True
  end.

(** Only the evidence changes. *)
Definition onlyEv n n' : Prop := n' = setEv (n_ev n') n ∧ evGrows (n_ev n) (n_ev n').

Lemma onlyEv_fields n n' :
  onlyEv n n' → n_out n' = n_out n ∧ n_state n' = n_state n ∧ n_tree n' = n_tree n.
Proof. by intros [-> _]. Qed.

Lemma doubtDuplicate_ok m u n :
  Inv n → wp (doubtDuplicate m u) (λ _ n', Inv n' ∧ onlyEv n n' ∧ recorded m n') Inv logged n.
Proof.
  intros Hn. unfold doubtDuplicate. node_reads.
  set (r := match m with MPrepareBlock _ => _ | _ => _ end).
  assert (Hr : evGrows (n_ev n) r.1 ∧ (r.2 = None → recorded m (setEv r.1 n))).
  { unfold r. destruct m as [m|m|m|m].
    - unfold evAddPrepareBlock. destruct (evidenceAdd _ _ _ _). by split; [apply evGrows_same|].
    - unfold evAddPrepareVote. destruct (evidenceAdd _ _ _ _). by split; [apply evGrows_same|].
    - destruct (evAddPreCommit _ m u) as [ev d] eqn:He. by apply (evAddPreCommit_ok _ _ _ _ _ He).
    - unfold evAddViewChange. destruct (evidenceAdd _ _ _ _). by split; [apply evGrows_same|]. }
  clearbody r. destruct r as [ev d]. cbn [fst snd] in Hr. destruct Hr as [Hev Hrec].
  apply wp_bind. wp_step. pose proof (Inv_evGrows n ev Hn Hev) as Hn1.
  destruct d; [by wp_step|]. wp_step. split; [done|]. split; [done|]. auto.
Qed.

(** The checks that follow do not change the node. *)
Lemma verifyParentQC_ok k qc n :
  Inv n → wp (verifyParentQC k qc) (λ _ n', n' = n) Inv logged n.
Proof.
  intros Hn. unfold verifyParentQC. apply wp_bind, wp_must; [intros q _|by apply Inv_logged].
  apply wp_bind, wp_find.
  destruct (match FindBlockAndQC _ _ _ with Some _ => _ | None => _ end) as [c [l|]]; [|by wp_step].
  node_reads. apply wp_ask; [done|done|by apply Inv_logged].
Qed.

Lemma verifyConsensusMsg_ok m n :
  Inv n →
  wp (verifyConsensusMsg m)
    (λ u n', Inv n' ∧ onlyEv n n' ∧ recorded m n' ∧ EpochNum m <= 1
       ∧ u ∈ members nodes ∧ vn_Index u = Z.of_nat (Z.to_nat (NodeIndex m))
       ∧ (authentic (msgSign m) → honest keys u →
          released (outOf w (vn_NodeID u)) (CannibalizeBytes m)))
    Inv logged n.
Proof.
  intros Hn. unfold verifyConsensusMsg.
  apply wp_bind, wp_ask; [intros _ _|done|by apply Inv_logged]. node_reads.
  rewrite (c_pool _ _ _ _ _ _ (proj1 Hn)).
  apply wp_bind, wp_ask; [intros [] Hs|done|by apply Inv_logged].
  destruct (verifyConsensusSign_ok m Hs) as (u & Hu & He & Hmem & Hi & Hrel). rewrite Hu.
  apply wp_bind, wp_try, wp_ask_Ok, wp_bind.
  eapply wp_mono; [by apply doubtDuplicate_ok| |done|done]. intros [] n1 (Hn1 & Hev & Hrec).
  apply wp_bind.
  apply (wp_mono _ _ _ _ (λ _ n', n' = n1) Inv logged); [|by intros [] n2 ->|done|done].
  destruct m as [m|m|m|m].
  - apply wp_bind. eapply wp_mono; [by apply wp_currentProposer| |done|done]. intros p n2 ->.
    wp_step; [by wp_step|]. wp_step; [by wp_step|]. apply wp_ask; [done|done|by apply Inv_logged].
  - wp_step; [by wp_step|]. by apply verifyParentQC_ok.
  - wp_step; [by wp_step|]. by apply verifyParentQC_ok.
  - wp_step; [by wp_step|]. apply wp_ask; [done|done|by apply Inv_logged].
Qed.

(** ** Votes *)

Lemma keeps_fetchParent i q n : Inv n → keeps (fetchParent i q) n.
Proof. intros Hn. unfold fetchParent. wp_step; [by apply keeps_fetchBlock|by wp_step]. Qed.

Lemma keeps_voteError m e (f g : M Node unit) n :
  Inv n → keeps f n → keeps g n → keeps (voteError m e f g) n.
Proof.
  intros Hn Hfe Hmi. unfold voteError. destruct e; [by wp_step|..]; node_reads;
    (apply wp_bind, wp_try, wp_ask; [intros _ _|intros _; by wp_step|by apply Inv_logged]);
    (apply keeps_bind; [done|]); intros [] n' Hn'; by wp_step.
Qed.

(** A released digest of a height and hash. *)
Lemma vouched_released n u k m i e v a s :
  Core n → u ∈ members nodes → vn_Index u = i →
  (honest keys u → released (outOf w (vn_NodeID u)) [e; v; m; k; a; s]) → vouched n i k m.
Proof.
  intros Hn Hu Hi Hr. exists u. split; [done|]. split; [done|]. intros Hh.
  exists e, v, a, s. eapply released_mono; [by eapply extends_world|auto].
Qed.

Lemma keeps_OnPrepareVote i m n :
  Inv n → 0 <= pv_ValidatorIndex m → Forall authentic (pvSigs m) →
  keeps (OnPrepareVote cfg now i m) n.
Proof.
  intros Hn Hi Ha. apply Forall_inv in Ha. unfold OnPrepareVote. node_reads.
  apply wp_bind, wp_ask; [|done|by apply Inv_logged]. intros [e|] Hr.
  { apply keeps_voteError; [done|by apply keeps_fetchParent|by apply keeps_prepareVoteFetchRules]. }
  apply voteRules_ok in Hr as (He & _). cbn in He. rewrite (c_epoch _ _ _ _ _ _ (proj1 Hn)) in He.
  apply wp_bind. eapply wp_mono; [by apply (verifyConsensusMsg_ok (MPrepareVote m))| |done|done].
  intros u n1 (Hn1 & Hev & _ & _ & Hu & Hui & Hrel). cbn in Hui. specialize (Hrel Ha).
  unfold updState. apply wp_bind. wp_step. apply wp_bind. wp_step. apply keeps_findPreVoteQC; try done.
  assert (Hn2 : Inv (setState (AddPrepareVote (vn_Index u) m (n_state n1)) n1)).
  { destruct Hn1 as [Hc1 Hb1]. split; [|done]. apply Core_addPrepareVote; [done|done|].
    by eapply vouched_released. }
  by eapply Inv_same.
Qed.

(** A precommit that passes the rules is for the height of the node. *)
Lemma PreCommitRules_height m n :
  Inv n → heightOk (pc_BlockNumber m) = true →
  PreCommitRules (cf_Amount cfg) now (n_state n) (n_tree n) m = Ok None →
  pc_Epoch m = 1 ∧ pc_BlockNumber m = v_blockNumber (n_state n)
  ∧ pc_BlockNumber m < MaxUint64 ∧ pc_ViewNumber m = v_viewNumber (n_state n)
  ∧ (∀ b, ViewBlockByIndex (n_state n) (pc_BlockNumber m) = Some b →
       Hash b = pc_BlockHash m
       ∨ ∃ l, FindPreCommit (n_state n) (pc_BlockNumber m) (pc_ValidatorIndex m) = Some l
              ∧ pc_BlockHash l ≠ pc_BlockHash m).
Proof.
  intros [Hn Hb] Hh Hr. apply andb_true_iff in Hh as [H0%Z.leb_le Hmax%Z.ltb_lt].
  apply voteRules_ok in Hr as (He & Hk & Hpar & Hv & Hex). cbn in He, Hk, Hpar, Hv.
  rewrite (c_epoch _ _ _ _ _ _ Hn) in He. split; [done|].
  assert (Hkn : pc_BlockNumber m = v_blockNumber (n_state n)).
  { destruct (decide (v_blockNumber (n_state n) < pc_BlockNumber m)) as [Hlt|]; [|lia].
    pose proof (c_range _ _ _ _ _ _ Hn). destruct Hpar as (h & [b q] & Hf'); [done|lia|].
    unfold MaxUint64 in *. rewrite u64_small in Hf' by (unfold in_u64; lia).
    destruct (FindBlockAndQC_ok _ _ _ (c_tree _ _ _ _ _ _ Hn) _ _ _ _ Hf') as (_ & _ & ? & _). lia. }
  split; [done|]. split; [done|]. split; [done|]. intros b Hblk. destruct Hex as [Hd|Hd].
  - right. unfold doubtDuplicateVote in Hd. cbn in Hd.
    destruct (FindPreCommit _ _ _) as [l|]; [|done]. cbn in Hd. exists l. split; [done|].
    apply andb_true_iff in Hd as [_ Hd%negb_true_iff]. by apply Z.eqb_neq.
  - left. unfold existsPrepare in Hd. cbn in Hd. rewrite Hblk in Hd.
    apply andb_true_iff in Hd as [_ Hd]. by apply Z.eqb_eq.
Qed.

(** A second precommit of a validator in the same view does not get through. *)
Lemma no_second_preCommit m l n n' u :
  Inv n → onlyEv n n' → recorded (MPreCommit m) n' → pc_Epoch m = 1 →
  pc_BlockNumber m = v_blockNumber (n_state n) → pc_ViewNumber m = v_viewNumber (n_state n) →
  u ∈ members nodes → vn_Index u = pc_ValidatorIndex m →
  (honest keys u → released (outOf w (vn_NodeID u)) (pcDigest m)) →
  FindPreCommit (n_state n) (pc_BlockNumber m) (pc_ValidatorIndex m) = Some l →
  pc_BlockHash l = pc_BlockHash m.
Proof.
  intros [Hn Hb] [_ Hev] (l2 & ev2 & Hl2 & Hf2 & Hh2) He Hk Hv Hu Hui Hrel Hl.
  unfold FindPreCommit, AllPreCommitByNumber in Hl.
  destruct (v_viewPreCommits (n_state n) !! pc_BlockNumber m) as [ms|] eqn:Hms; [|done]. cbn in Hl.
  destruct (c_preCommits _ _ _ _ _ _ Hn _ _ _ _ Hms Hl) as (Hlk & _ & _ & Hcur).
  destruct (Hcur Hk) as [Hlv [(l1 & ev1 & Hl1 & Hf1 & Hh1)|(x & a & Hx & Hxid & Hxi & Hxr)]].
  - destruct (Hev _ _ _ _ _ _ Hl1 Hf1) as (l1' & Hl1' & Hf1').
    unfold verifyIdentity in Hl2. cbn in Hl2. rewrite He in Hl2, Hf2.
    rewrite Hlk, Hlv in Hl1', Hf1'. rewrite Hv in Hl2, Hf2. simplify_eq. congruence.
  - assert (x = u) as -> by (apply (members_index nodes Hnodes); [done|done|congruence]).
    assert (Hh : honest keys u) by (unfold honest; rewrite Hxid; eauto).
    specialize (Hrel Hh). rewrite Hxid in Hrel.
    eapply released_mono in Hrel; [|apply (c_start _ _ _ _ _ _ Hn)]. unfold pcDigest in Hrel.
    rewrite Hlk, Hlv, <- Hv in Hxr. eapply (c_unique _ _ _ _ _ _ Hn); [exact Hxr|exact Hrel|lia].
Qed.

Lemma keeps_OnPreCommit i m n :
  Inv n → msgOk (MPreCommit m) = true → Forall authentic (pcSigs m) →
  keeps (OnPreCommit cfg now i m) n.
Proof.
  intros Hn [Hh Hi%Z.leb_le]%andb_true_iff Ha. apply Forall_inv in Ha. unfold OnPreCommit. node_reads.
  apply wp_bind, wp_ask; [|done|by apply Inv_logged]. intros [e|] Hr.
  { apply keeps_voteError; [done|by apply keeps_fetchParent|by apply keeps_preCommitFetchRules]. }
  apply PreCommitRules_height in Hr as (He & Hk & Hmax & Hv & Hblk); [|done|done].
  apply wp_bind. eapply wp_mono; [by apply (verifyConsensusMsg_ok (MPreCommit m))| |done|done].
  intros u n1 (Hn1 & Hev & Hrec & _ & Hu & Hui & Hrel). cbn in Hui.
  specialize (Hrel Ha). rewrite Z2Nat.id in Hui by done.
  destruct (onlyEv_fields _ _ Hev) as (Ho & Hs & _).
  assert (Hblk' : ∀ b, ViewBlockByIndex (n_state n) (pc_BlockNumber m) = Some b →
                    Hash b = pc_BlockHash m).
  { intros b Hb. destruct (Hblk b Hb) as [?|(l & Hl & Hne)]; [done|]. destruct Hne.
    by eapply (no_second_preCommit m l n n1 u). }
  unfold updState. apply wp_bind. wp_step. apply wp_bind. wp_step.
  assert (Hn2 : Inv (setState (AddPreCommit (vn_Index u) m (n_state n1)) n1)).
  { destruct Hn1 as [Hc1 Hb1]. split; [|done].
    apply Core_addPreCommit; [done|by rewrite Hs|by rewrite Hs|by eapply vouched_released|].
    left. destruct Hrec as (l & ev & Hl & Hfind & Hhash). exists l, ev.
    unfold verifyIdentity in Hl. cbn in Hl. rewrite He in Hl, Hfind. by rewrite Hui. }
  apply (keeps_findPreCommitQC (vn_Index u)); [by eapply Inv_same| |done| |].
  - cbn. by rewrite Hs.
  - cbn. apply addVoteAt_new.
  - cbn. unfold ViewBlockByIndex in *. cbn. by rewrite Hs.
Qed.

(** ** Proposals *)

Lemma PrepareBlockRules_view m n :
  Inv n → PrepareBlockRules (cf_Amount cfg) now (n_state n) (n_tree n) (n_pool n) m = Some ViewError →
  1 <= pb_Epoch m.
Proof.
  intros [Hn _]. unfold PrepareBlockRules, changeEpochBlockRules.
  rewrite (c_epoch _ _ _ _ _ _ Hn).
  destruct (Z.eqb_spec 1 (pb_Epoch m)) as [<-|]; [done|]. cbn [negb].
  destruct (Z.ltb_spec (pb_Epoch m) 1); [done|lia].
Qed.

Lemma keeps_isProposer e k i n : Inv n → keeps (isProposer e k i) n.
Proof.
  intros Hn. unfold isProposer. node_reads. wp_step; [|by wp_step..].
  apply keeps_bind; [by apply keeps_ask|]. intros len n1 Hn1.
  apply keeps_bind; [wp_step; [by apply keeps_ask|by wp_step]|]. intros index n2 Hn2.
  apply keeps_bind; [by apply keeps_try, keeps_ask|]. intros [u|err] n3 Hn3; by wp_step.
Qed.

Lemma keeps_exePrepareBlock m n : Inv n → keeps (exePrepareBlock m) n.
Proof.
  intros Hn. unfold exePrepareBlock. node_reads. wp_step; [|by wp_step].
  apply keeps_bind; [by apply keeps_find|]. intros [[p|] q] n1 Hn1; [|by wp_step].
  apply keeps_bind; [apply node_keeps_quiet; [quiet_tac|done]|]. intros [] n2 Hn2.
  by apply keeps_state.
Qed.

Lemma Inv_addPrepareBlock m n : Inv n → Inv (setState (AddPrepareBlock m (n_state n)) n).
Proof. intros [Hn Hb]. split; [by apply Core_viewBlocks|done]. Qed.

Lemma keeps_OnPrepareBlock i m n : Inv n → keeps (OnPrepareBlock cfg now i m) n.
Proof.
  intros Hn. unfold OnPrepareBlock. apply keeps_bind; [by apply keeps_ask|].
  clear n Hn. intros [] n Hn. node_reads. apply keeps_bind.
  - destruct (PrepareBlockRules _ _ _ _ _ m) as [e|] eqn:Hr; [|by wp_step].
    destruct e; [by wp_step|..];
      (apply wp_bind, wp_ask; [intros [] Hs|done|by apply Inv_logged]); [| |by wp_step..].
    + apply keeps_bind; [by apply keeps_isProposer|]. intros p n1 Hn1.
      apply keeps_bind; [destruct p; [by apply keeps_fetchBlock|by wp_step]|]. intros [] n2 Hn2.
      by wp_step.
    + rewrite (c_pool _ _ _ _ _ _ (proj1 Hn)) in Hs.
      destruct (verifyConsensusSign_ok _ Hs) as (_ & _ & He & _). cbn in He.
      apply PrepareBlockRules_view in Hr; [|done]. assert (pb_Epoch m = 1) as -> by lia.
      apply wp_bind, wp_ask; [intros [] _|done|by apply Inv_logged].
      apply keeps_bind; [wp_step; by apply keeps_find|]. intros [base q] n1 Hn1.
      by apply keeps_changeView.
  - clear n Hn. intros [] n Hn. apply wp_bind.
    eapply wp_mono; [by apply verifyConsensusMsg_ok| |done|done]. intros u n1 (Hn1 & _).
    clear n Hn. rename n1 into n, Hn1 into Hn.
    unfold updState. apply wp_bind. wp_step. apply wp_bind. wp_step. apply keeps_exePrepareBlock.
    by eapply Inv_same; [by apply (Inv_addPrepareBlock m n)|].
Qed.

Lemma keeps_onAsyncExecuteStatus h k ok n :
  Inv n → keeps (onAsyncExecuteStatus cfg now h k ok) n.
Proof.
  intros Hn. unfold onAsyncExecuteStatus. wp_step; [by wp_step|]. node_reads.
  destruct (ViewBlockByIndex (n_state n) k) as [b|] eqn:Hb; [|by wp_step]. wp_step; [by wp_step|].
  assert (Hbn : bNumber b = k).
  { pose proof Hb as Hb'. unfold ViewBlockByIndex in Hb'. apply fmap_Some in Hb' as (x & Hx & ->).
    by apply (c_blocks _ _ _ _ _ _ (proj1 Hn)). }
  unfold updState. apply wp_bind. wp_step. apply wp_bind. wp_step.
  set (n1 := setState _ (setState _ n)).
  assert (Hc1 : coreOf n1 = coreOf n) by (unfold n1, SetMaxExecutedBlockNumber; by destruct (_ <? _)).
  assert (Hb1 : ViewBlockByIndex (n_state n1) k = Some b)
    by (unfold n1, SetMaxExecutedBlockNumber; by destruct (_ <? _)).
  clearbody n1. pose proof (Inv_same _ _ _ _ _ _ _ Hn Hc1) as Hn1. clear n Hn Hb Hc1.
  apply wp_bind, wp_try.
  eapply wp_mono; [by apply wp_current|intros u n' (-> & _)|intros n' Hn' e; by wp_step|done].
  apply keeps_bind.
  { apply keeps_try, keeps_signBlock; try done. intros c. rewrite Hbn, Hb1. by intros [= <-]. }
  clear n1 Hb1 Hn1. intros [[]|e] n Hn; [|by wp_step]. by apply keeps_findPreVoteQC.
Qed.

(** ** View changes *)

Lemma keeps_addViewChange i v n : Inv n → keeps (updState (AddViewChange i v)) n.
Proof. by apply keeps_state. Qed.

Lemma keeps_OnViewChange i m n : Inv n → keeps (OnViewChange cfg now i m) n.
Proof.
  intros Hn. unfold OnViewChange. node_reads. apply wp_bind, wp_ask; [|done|by apply Inv_logged].
  intros [e|] _.
  - apply keeps_bind; [|intros [] n' Hn'; by wp_step].
    destruct e; try by wp_step. wp_step; [by apply keeps_fetchBlock|by wp_step].
  - apply wp_bind. eapply wp_mono; [by apply verifyConsensusMsg_ok| |done|done].
    intros u n1 (Hn1 & _). clear n Hn. rename n1 into n, Hn1 into Hn.
    apply keeps_bind; [by apply keeps_addViewChange|]. intros [] n' Hn'. by apply keeps_tryChangeView.
Qed.

Lemma keeps_OnViewTimeout n : Inv n → keeps (OnViewTimeout cfg now) n.
Proof.
  intros Hn. unfold OnViewTimeout. apply wp_bind, wp_try.
  eapply wp_mono; [by apply wp_current|intros u n' (-> & _)|intros n' Hn' e; by wp_step|done].
  node_reads. wp_step; [by wp_step|]. apply wp_bind, wp_find.
  destruct (match FindBlockAndQC _ _ _ with Some _ => _ | None => _ end) as [b q].
  unfold updState. apply wp_bind. wp_step. apply keeps_bind.
  - eapply keeps_say; try done; [|by eapply Inv_same]. cbn.
    rewrite (c_top _ _ _ _ _ _ (proj1 Hn)). apply (c_had _ _ _ _ _ _ (proj1 Hn)).
  - intros [] n' Hn'. by apply keeps_tryChangeView.
Qed.

(** ** Synchronisation *)

Lemma keeps_send i m n : Inv n → keeps (send i m) n.
Proof. intros Hn. apply node_keeps_quiet; [quiet_tac|done]. Qed.

Lemma keeps_sendQC i mk q n : Inv n → keeps (sendQC i mk q) n.
Proof. intros Hn. unfold sendQC. wp_step; [by apply keeps_send|by wp_step]. Qed.

Lemma keeps_OnGetPrepareBlock i e k v n : Inv n → keeps (OnGetPrepareBlock i e k v) n.
Proof.
  intros Hn. unfold OnGetPrepareBlock. node_reads. wp_step; [|by wp_step].
  apply keeps_bind; [wp_step; [by apply keeps_send|by wp_step]|]. intros [] n' Hn'.
  by apply keeps_sendQC.
Qed.

(** What [checkBlockQC] has checked. *)
Lemma checkBlockQC_ok q had n :
  Inv n → Forall authentic (qcSigs (Some q)) →
  wp (checkBlockQC q had)
    (λ b n', n' = n ∧ ViewBlockByIndex (n_state n) (qc_BlockNumber q) = Some b
       ∧ qc_Epoch q = 1 ∧ qc_BlockNumber q = v_blockNumber (n_state n)
       ∧ qc_BlockHash q = Hash b ∧ attested (world n) (qc_BlockNumber q) (qc_BlockHash q))
    Inv logged n.
Proof.
  intros Hn Ha. pose proof Hn as [Hc Hb]. unfold checkBlockQC. node_reads.
  destruct (_ || _) eqn:Hcond; [by wp_step|].
  apply orb_false_iff in Hcond as [[He Hk]%orb_false_iff _].
  apply negb_false_iff, Z.eqb_eq in He. rewrite (c_epoch _ _ _ _ _ _ Hc) in He.
  pose proof (c_range _ _ _ _ _ _ Hc).
  rewrite (proj2 (Z.eqb_neq (v_blockNumber (n_state n)) 0)), andb_true_r in Hk by lia.
  apply negb_false_iff, Z.eqb_eq in Hk.
  apply wp_bind, wp_find.
  destruct (match FindBlockAndQC _ _ _ with Some _ => _ | None => _ end) as [x local].
  wp_step; [by wp_step|]. wp_step; [by wp_step|].
  destruct (ViewBlockByIndex _ _) as [b|] eqn:Hblk; [|by wp_step]. node_reads.
  rewrite (c_pool _ _ _ _ _ _ Hc).
  apply wp_bind, wp_try, wp_ask; [intros [] Hv|intros e; by wp_step|by apply Inv_logged]. wp_step.
  destruct (verifyPrepareQC_attested nodes keys Hnodes w id _ _ _ Hv Ha)
    as (Hat & q' & [= <-] & Hqn & Hqh & _).
  do 5 (split; [done|]). rewrite Hqn, Hqh. by eapply attested_grow.
Qed.

Lemma keeps_OnBlockQuorumCert i q n :
  Inv n → Forall authentic (qcSigs (Some q)) → keeps (OnBlockQuorumCert cfg now i q) n.
Proof.
  intros Hn Ha. unfold OnBlockQuorumCert. apply wp_bind.
  eapply wp_mono; [by apply checkBlockQC_ok| |done|done]. intros b n' (-> & _ & He & _ & _ & Hat).
  apply wp_bind.
  apply (wp_mono _ _ _ _ (λ _ n', Inv n' ∧ n_out n' = n_out n) Inv logged); [| |done|done].
  { unfold TrySetHighestQCBlock. node_reads. wp_step; [|by wp_step]. unfold updState. wp_step.
    split; [by eapply Inv_same|done]. }
  intros [] n1 [Hn1 Ho]. apply keeps_acceptPrepareQC; try done. unfold worldOf in *. by rewrite Ho.
Qed.

Lemma keeps_OnBlockPreCommitQuorumCert i q n :
  Inv n → heightOk (qc_BlockNumber q) = true → Forall authentic (qcSigs (Some q)) →
  keeps (OnBlockPreCommitQuorumCert cfg now i q) n.
Proof.
  intros Hn [_ Hmax%Z.ltb_lt]%andb_true_iff Ha. unfold OnBlockPreCommitQuorumCert. apply wp_bind.
  eapply wp_mono; [by apply checkBlockQC_ok| |done|done].
  intros b n' (-> & Hblk & _ & Hk & Hh & Hat). rewrite Hh in Hat. by eapply keeps_insertPreCommitQC.
Qed.

Lemma keeps_OnGetQCBlockList i e h k n : Inv n → keeps (OnGetQCBlockList i e h k) n.
Proof.
  intros Hn. unfold OnGetQCBlockList. node_reads. wp_step; [by wp_step|]. wp_step; [by wp_step|].
  wp_step; [by wp_step|by apply keeps_send].
Qed.

(** The blocks of an answer are certified. *)
Lemma verifyQCs_certifies bs qs :
  verifyQCs (staticPool nodes id) bs qs = Ok tt → Forall authentic (qc_Signature <$> qs) →
  forallb heightOk (bNumber <$> bs) = true → Forall (certifies nodes keys w) (zip bs qs).
Proof.
  revert qs. induction bs as [|b bs IH]; intros [|q qs] Hv Ha Hh; [done..|].
  cbn in Hv. apply outcome_bind_Ok in Hv as ([] & Hv & Hvs).
  apply Forall_cons in Ha as [Ha Has].
  cbn in Hh. apply andb_true_iff in Hh as [[H0%Z.leb_le Hmax%Z.ltb_lt]%andb_true_iff Hhs].
  constructor; [|by apply IH].
  destruct (verifyPrepareQC_attested nodes keys Hnodes w id _ _ (Some q) Hv)
    as (Hat & q' & [= <-] & Hqn & Hqh & He); [by constructor|]. by split_and!.
Qed.

Lemma keeps_onFetched bs qs n :
  Inv n → Forall authentic (qc_Signature <$> qs) → forallb heightOk (bNumber <$> bs) = true →
  keeps (onFetched cfg now bs qs) n.
Proof.
  intros Hn Ha Hh. unfold onFetched. node_reads. rewrite (c_pool _ _ _ _ _ _ (proj1 Hn)).
  apply wp_bind, wp_ask; [intros [] Hv|done|by apply Inv_logged].
  apply keeps_OnInsertQCBlock; try done. by apply verifyQCs_certifies.
Qed.

Lemma keeps_InsertChain b q n :
  Inv n → heightOk (bNumber b) = true → Forall authentic (qcSigs q) →
  keeps (InsertChain cfg now b q) n.
Proof.
  intros Hn Hh Ha. unfold InsertChain. node_reads. wp_step; [by wp_step|]. node_reads.
  rewrite (c_pool _ _ _ _ _ _ (proj1 Hn)).
  apply wp_bind, wp_ask; [intros [] Hv|done|by apply Inv_logged].
  apply wp_bind, wp_must; [intros q' ->|by apply Inv_logged].
  apply keeps_OnInsertQCBlock; try done. apply (verifyQCs_certifies [b] [q']); [|done|].
  - cbn [verifyQCs]. by rewrite Hv.
  - cbn. by rewrite Hh.
Qed.

Lemma keeps_remaining u n : Inv n → keeps (remaining u) n.
Proof.
  intros Hn. unfold remaining. apply keeps_bind; [by apply keeps_validatorLen|]. by intros len n' Hn'.
Qed.

Lemma keeps_OnGetPrepareVote i e k v x u n : Inv n → keeps (OnGetPrepareVote i e k v x u) n.
Proof.
  intros Hn. unfold OnGetPrepareVote. node_reads. wp_step; [|by wp_step].
  wp_step; [by apply keeps_send|]. apply keeps_bind; [by apply keeps_remaining|]. intros r n1 Hn1.
  apply keeps_bind; [by apply keeps_ask|]. intros vs n2 Hn2. wp_step; [by wp_step|by apply keeps_send].
Qed.

Lemma keeps_OnGetPreCommit i e k v x u n : Inv n → keeps (OnGetPreCommit i e k v x u) n.
Proof.
  intros Hn. unfold OnGetPreCommit. node_reads. wp_step; [|by wp_step].
  wp_step; [by apply keeps_send|]. apply keeps_bind; [by apply keeps_remaining|]. intros r n1 Hn1.
  apply keeps_bind; [by apply keeps_ask|]. intros vs n2 Hn2. wp_step; [by wp_step|by apply keeps_send].
Qed.

Lemma keeps_for_each {A} (f : A → M Node unit) l n :
  Inv n → (∀ a n', a ∈ l → Inv n' → keeps (f a) n') → keeps (for_each f l) n.
Proof. intros Hn Hf'. by apply (wp_for_each Inv logged f Inv). Qed.

(** The signatures of a list of messages. *)
Lemma authentic_bind {A} (f : A → list Z) l a :
  Forall authentic (l ≫= f) → a ∈ l → Forall authentic (f a).
Proof.
  intros Hl Ha. apply Forall_forall. intros x Hx. rewrite Forall_forall in Hl. apply Hl.
  apply list_elem_of_bind. by exists a.
Qed.

Lemma keeps_OnPrepareVotes seen i l n :
  Inv n → forallb msgOk (MPrepareVote <$> l) = true → Forall authentic (l ≫= pvSigs) →
  keeps (OnPrepareVotes cfg now seen i l) n.
Proof.
  intros Hn Hok Ha. apply keeps_for_each; [done|]. clear n Hn. intros v n Hv Hn. node_reads.
  wp_step; [|by wp_step]. apply keeps_OnPrepareVote; [done| |by eapply authentic_bind].
  rewrite forallb_forall in Hok. specialize (Hok (MPrepareVote v)).
  rewrite <- list_elem_of_In in Hok. specialize (Hok (list_elem_of_fmap_2 _ _ _ Hv)).
  by apply andb_true_iff in Hok as [_ ?%Z.leb_le].
Qed.

Lemma keeps_OnPreCommits seen i l n :
  Inv n → forallb msgOk (MPreCommit <$> l) = true → Forall authentic (l ≫= pcSigs) →
  keeps (OnPreCommits cfg now seen i l) n.
Proof.
  intros Hn Hok Ha. apply keeps_for_each; [done|]. clear n Hn. intros v n Hv Hn. node_reads.
  wp_step; [|by wp_step]. apply keeps_OnPreCommit; [done| |by eapply authentic_bind].
  rewrite forallb_forall in Hok. specialize (Hok (MPreCommit v)).
  rewrite <- list_elem_of_In in Hok. exact (Hok (list_elem_of_fmap_2 _ _ _ Hv)).
Qed.

Lemma keeps_OnViewChanges seen i l n : Inv n → keeps (OnViewChanges cfg now seen i l) n.
Proof.
  intros Hn. apply keeps_for_each; [done|]. clear n Hn. intros v n Hv Hn.
  wp_step; [by wp_step|by apply keeps_OnViewChange].
Qed.

Lemma keeps_OnGetViewChange wal i e k v u n : Inv n → keeps (OnGetViewChange wal i e k v u) n.
Proof.
  intros Hn. unfold OnGetViewChange. node_reads. wp_step; [|wp_step].
  - apply keeps_bind; [by apply keeps_ask|]. intros vs n1 Hn1. wp_step; [by wp_step|by apply keeps_send].
  - wp_step; [|by wp_step]. apply keeps_bind; [by apply keeps_ask|]. intros [] n1 Hn1.
    by apply keeps_send.
  - wp_step; [by apply keeps_send|by wp_step].
Qed.

Lemma keeps_trySyncViewChangeQuorumCert i h n :
  Inv n → keeps (trySyncViewChangeQuorumCert cfg now i h) n.
Proof.
  intros Hn. unfold trySyncViewChangeQuorumCert. wp_step; [|by wp_step]. node_reads.
  wp_step; [by wp_step|]. wp_step; [|wp_step; [|by wp_step]].
  - apply keeps_bind; [by apply keeps_try, keeps_ask|]. intros [[]|e] n1 Hn1; [|by wp_step].
    by apply keeps_tryChangeViewByViewChange.
  - apply keeps_bind; [by apply keeps_try, keeps_ask|]. intros [[]|e] n1 Hn1; [|by wp_step].
    apply keeps_bind; [by apply keeps_validatorLen|]. intros len n2 Hn2. by apply keeps_send.
Qed.

Lemma keeps_OnViewChangeQuorumCert i v h n :
  Inv n → keeps (OnViewChangeQuorumCert cfg now i v h) n.
Proof.
  intros Hn. unfold OnViewChangeQuorumCert. node_reads.
  apply keeps_bind; [|intros [] n' Hn'; by apply keeps_trySyncViewChangeQuorumCert].
  wp_step; [|by wp_step].
  apply keeps_bind; [by apply keeps_try, keeps_ask|]. intros [[]|e] n1 Hn1; [|by wp_step].
  by apply keeps_tryChangeViewByViewChange.
Qed.

Lemma keeps_sendStatus i h k ty n : Inv n → keeps (sendStatus i h k ty) n.
Proof.
  intros Hn. unfold sendStatus. node_reads.
  apply keeps_bind; [by apply keeps_find|]. intros [b q] n1 Hn1.
  apply keeps_bind; [by apply keeps_find|]. intros [c lq] n2 Hn2. by apply keeps_send.
Qed.

Lemma keeps_OnGetLatestStatus peer i k h q lk lq ty n :
  Inv n → keeps (OnGetLatestStatus peer i k h q lk lq ty) n.
Proof.
  intros Hn. unfold OnGetLatestStatus. node_reads. wp_step; [by wp_step|]. wp_step; [by wp_step|].
  wp_step; [wp_step; [wp_step; by apply keeps_sendStatus|by wp_step]|].
  wp_step; [|by apply keeps_sendStatus]. wp_step; [by apply keeps_fetchBlock|by wp_step].
Qed.

Lemma keeps_OnLatestStatus peer i k h q lk lq ty n :
  Inv n → keeps (OnLatestStatus peer i k h q lk lq ty) n.
Proof.
  intros Hn. unfold OnLatestStatus. node_reads. wp_step; [by wp_step|].
  wp_step; [|by wp_step]. wp_step; [by apply keeps_fetchBlock|by wp_step].
Qed.

Lemma keeps_OnPrepareBlockHash i e k v x n :
  Inv n → keeps (OnPrepareBlockHash now i e k v x) n.
Proof.
  intros Hn. unfold OnPrepareBlockHash. node_reads.
  wp_step; [by apply keeps_SyncPrepareBlock|by wp_step].
Qed.

(** ** Sealing *)

Lemma keeps_OnShouldSeal rtt n : Inv n → keeps (OnShouldSeal cfg now rtt) n.
Proof.
  intros Hn. unfold OnShouldSeal. node_reads. wp_step; [by wp_step|].
  apply keeps_bind; [by apply keeps_ask|]. intros v n1 Hn1. wp_step; [by wp_step|].
  apply keeps_bind; [by apply keeps_ask|]. intros len n2 Hn2.
  apply keeps_bind; [by apply keeps_ask|]. intros p n3 Hn3.
  apply keeps_bind; [by apply keeps_current|]. intros me n4 Hn4.
  wp_step; [by wp_step|]. wp_step; [by wp_step|].
  apply keeps_bind; [by apply keeps_find|]. intros [b q] n5 Hn5.
  wp_step; [by wp_step|]. wp_step; by wp_step.
Qed.

Lemma keeps_OnSeal b n : Inv n → keeps (OnSeal cfg now b) n.
Proof.
  intros Hn. unfold OnSeal. node_reads. wp_step; [by wp_step|].
  apply keeps_bind; [by apply keeps_try, keeps_current|]. intros [me|e] n1 Hn1; [|by wp_step].
  apply keeps_bind; [by apply keeps_ask|]. intros len n2 Hn2.
  apply keeps_bind; [by apply keeps_ask|]. intros p n3 Hn3. wp_step; [by wp_step|].
  apply keeps_bind; [by apply keeps_try, keeps_OnPrepareBlock|]. intros [[]|e] n4 Hn4.
  - apply keeps_bind; [apply node_keeps_quiet; [apply quiet_proposal|done]|]. intros [] n5 Hn5.
    apply node_keeps_quiet; [quiet_tac|done].
  - by apply keeps_state.
Qed.

(** ** All events *)

Lemma keeps_handle ev n :
  Inv n → eventOk ev = true → Forall authentic (sigsOf ev) → keeps (handle cfg now ev) n.
Proof.
  intros Hn Hok Ha. destruct ev as [i [m|m|m|m]| | | | | | | | | | | | | | | | | | | | | | |];
    cbn [handle sigsOf eventOk msgOk msgSigs] in *.
  - by apply keeps_OnPrepareBlock.
  - apply andb_true_iff in Hok as [_ Hok%Z.leb_le]. by apply keeps_OnPrepareVote.
  - by apply keeps_OnPreCommit.
  - by apply keeps_OnViewChange.
  - by apply keeps_OnBlockQuorumCert.
  - by apply keeps_OnBlockPreCommitQuorumCert.
  - by apply keeps_OnPrepareVotes.
  - by apply keeps_OnPreCommits.
  - by apply keeps_OnViewChanges.
  - by apply keeps_OnViewChangeQuorumCert.
  - by apply keeps_OnGetLatestStatus.
  - by apply keeps_OnLatestStatus.
  - by apply keeps_OnPrepareBlockHash.
  - by apply keeps_OnGetPrepareBlock.
  - unfold OnGetBlockQuorumCert. node_reads. by apply keeps_sendQC.
  - unfold OnGetBlockPreCommitQuorumCert. node_reads. by apply keeps_sendQC.
  - by apply keeps_OnGetQCBlockList.
  - by apply keeps_OnGetPrepareVote.
  - by apply keeps_OnGetPreCommit.
  - by apply keeps_OnGetViewChange.
  - by apply keeps_onAsyncExecuteStatus.
  - by apply keeps_OnViewTimeout.
  - by apply keeps_OnShouldSeal.
  - by apply keeps_OnSeal.
  - by apply keeps_InsertChain.
  - by apply keeps_same.
  - by apply keeps_onFetched.
Qed.
End handlers.
