(* ===== verification/PbftCert.v ===== *)
(** Certificates: the certificate that a node builds of enough matching votes
    is accepted by every node.

    The signature scheme is a parameter; what the code relies on is that it
    aggregates: signatures of one digest add up to a signature of it under the
    sum of the keys, and adding keys is commutative and associative. *)

From S2P Require Import Prelude BitArray PbftTypes PbftValidators BlockTree PbftEvidence PbftState PbftRules PbftNode PbftEngine PbftSync PbftSystem PbftQuorum.

(** ** Indexes in a bit array *)

Definition isSet (b : BitArray) (j : nat) : Prop := bits b !! j = Some true.

Lemma SetIndex_isSet b i :
  wf b → 0 <= i < Bits b →
  ∃ b', SetIndex (Some b) i true = Ok (true, Some b') ∧ wf b' ∧ Bits b' = Bits b
        ∧ ∀ j, isSet b' j ↔ Z.of_nat j = i ∨ isSet b j.
Proof.
  intros Hb Hi. destruct (setIndex_spec b i true Hb ltac:(lia)) as (b' & He & Hw & HB & _ & Hbits).
  exists b'. unfold SetIndex. rewrite He, (proj2 (Z.ltb_lt i _)) by lia. cbn.
  split_and!; [done..|]. intros j. unfold isSet. rewrite Hbits.
  rewrite list_lookup_insert_Some, bits_length. split.
  - intros [(<- & _)|[_ ?]]; [left; lia|by right].
  - intros [<-|?]; [left; split_and!; [lia|done|lia]|].
    destruct (decide (Z.to_nat i = j)) as [<-|]; [left; split_and!; [done..|lia]|by right].
Qed.

Lemma GetIndex_isSet b (i : nat) :
  wf b → ∃ v, GetIndex (Some b) (Z.of_nat i) = Ok v ∧ (v = true ↔ isSet b i).
Proof.
  intros Hb. cbn. rewrite getIndex_spec, Nat2Z.id by (done || lia). eexists. split; [done|].
  unfold isSet. destruct (bits b !! i) as [[]|]; naive_solver.
Qed.

Lemma filter_absent {A} (i : Z) (l : list (Z * A)) :
  i ∉ l.*1 → base.filter (λ x, x.1 ≠ i) l = l.
Proof.
  induction l as [|[j a] l IH]; intros Hi; [done|]. rewrite filter_cons. cbn in *.
  apply not_elem_of_cons in Hi as [Hj Hi]. rewrite decide_True, IH by done. done.
Qed.

Section cert.
Context `{CR : Crypto}.
Context (nodes : list (Z * Z * PublicKey)) (Hnodes : nodesOk nodes).
Context (Hlen : Z.of_nat (length nodes) <= 2 ^ 32 - 64).

(** The scheme aggregates. *)
Context (Hser : ∀ s : Sign, signDeserialize (signSerialize s) = Some s).
Context (Hagg : ∀ (s t : Sign) p q d, signVerify s p d = true → signVerify t q d = true →
           signVerify (signAdd s t) (pubAdd p q) d = true).
Context (Hcomm : ∀ p q, pubAdd p q = pubAdd q p).
Context (Hassoc : ∀ p q r, pubAdd p (pubAdd q r) = pubAdd (pubAdd p q) r).

Implicit Types (u : ValidateNode) (us : list ValidateNode) (b : BitArray).

(** ** Sums of keys *)

Definition sumPub us : option PublicKey :=
  match us with [] => None | u :: us => Some (aggPub (vn_BlsPubKey u) us) end.

Lemma aggPub_add p q us : aggPub (pubAdd p q) us = pubAdd p (aggPub q us).
Proof.
  revert p q. induction us as [|u us IH]; intros p q; cbn; [done|]. by rewrite <- Hassoc, IH.
Qed.

Lemma aggPub_app p us u : aggPub p (us ++ [u]) = pubAdd (aggPub p us) (vn_BlsPubKey u).
Proof. revert p. induction us as [|x us IH]; intros p; cbn; [done|apply IH]. Qed.

Lemma aggPub_perm p us us' : us ≡ₚ us' → aggPub p us = aggPub p us'.
Proof.
  intros Hp. revert p. induction Hp as [|x l l' _ IH|x y l|l1 l2 l3 _ IH1 _ IH2]; intros p; cbn.
  - done.
  - apply IH.
  - f_equal. by rewrite <- !Hassoc, (Hcomm (vn_BlsPubKey x)).
  - by rewrite IH1.
Qed.

Lemma sumPub_perm us us' : us ≡ₚ us' → sumPub us = sumPub us'.
Proof.
  intros Hp. induction Hp as [|x l l' Hl _|x y l|l1 l2 l3 _ IH1 _ IH2]; cbn.
  - done.
  - f_equal. by apply aggPub_perm.
  - by rewrite Hcomm.
  - by rewrite IH1.
Qed.

(** ** The certificate under construction *)

(** [us] have signed [d], and are marked. *)
Record gathered (d : list Z) us (agg : Sign) b : Prop := {
  g_nodup : NoDup us;
  g_members : us ⊆ members nodes;
  g_sum : ∃ p, sumPub us = Some p ∧ signVerify agg p d = true;
  g_wf : wf b;
  g_size : Bits b = Z.of_nat (length nodes);
  g_marked : ∀ j, isSet b j ↔ ∃ u, u ∈ us ∧ vn_Index u = Z.of_nat j;
}.

(** The validator of this index has signed. *)
Definition signedBy (d : list Z) (u : ValidateNode) (i sign : Z) : Prop :=
  u ∈ members nodes ∧ vn_Index u = i ∧ blsVerify (vn_BlsPubKey u) d sign = Ok tt.

Lemma signedBy_verify d u i sign :
  signedBy d u i sign →
  ∃ s, signDeserialize sign = Some s ∧ signVerify s (vn_BlsPubKey u) d = true.
Proof.
  intros (_ & _ & Hv). unfold blsVerify in Hv. destruct (signDeserialize sign) as [s|]; [|done].
  exists s. split; [done|]. by destruct (signVerify _ _ _).
Qed.

Lemma member_range u : u ∈ members nodes → 0 <= vn_Index u < Z.of_nat (length nodes).
Proof. intros Hu. by destruct (members_index_pos nodes Hnodes u Hu) as (x & _ & _ & ?). Qed.

Lemma gathered_first d u i sign :
  signedBy d u i sign →
  ∃ b s, SetIndex (NewBitArray (u32 (Z.of_nat (length nodes)))) i true = Ok (true, Some b)
         ∧ signDeserialize sign = Some s ∧ gathered d [u] s b.
Proof.
  intros Hs. destruct (signedBy_verify _ _ _ _ Hs) as (s & Hd & Hv). destruct Hs as (Hu & <- & _).
  pose proof (member_range u Hu). rewrite u32_small by (unfold in_u32; lia).
  destruct (NewBitArray_spec (Z.of_nat (length nodes))) as (b0 & -> & Hw & _ & HB & Hbits); [lia|].
  destruct (SetIndex_isSet b0 (vn_Index u) Hw) as (b & -> & Hw' & HB' & Hset); [lia|].
  exists b, s. split; [done|]. split; [done|]. split; cbn; try done.
  - apply NoDup_singleton.
  - intros x ->%list_elem_of_singleton. done.
  - by eexists.
  - congruence.
  - intros j. rewrite Hset. unfold isSet. rewrite Hbits. setoid_rewrite list_elem_of_singleton.
    rewrite lookup_replicate. naive_solver.
Qed.

Lemma gathered_add d us agg b u i sign :
  gathered d us agg b → signedBy d u i sign → u ∉ us →
  ∃ agg' b', aggregate agg (Some b) i sign = Ok (Some (agg', Some b'))
             ∧ gathered d (us ++ [u]) agg' b'.
Proof.
  intros Hg Hs Hnin. destruct (signedBy_verify _ _ _ _ Hs) as (s & Hd & Hv).
  destruct Hs as (Hu & <- & _). pose proof (member_range u Hu).
  destruct Hg as [Hnd Hsub (p & Hp & Hvp) Hw HB Hm].
  destruct (SetIndex_isSet b (vn_Index u) Hw) as (b' & He & Hw' & HB' & Hset); [lia|].
  exists (signAdd agg s), b'. unfold aggregate. rewrite Hd, He. split; [done|]. split; try done.
  - apply NoDup_app. split; [done|]. split; [|apply NoDup_singleton].
    by intros x Hx ->%list_elem_of_singleton.
  - intros x [?| ->%list_elem_of_singleton]%elem_of_app; [auto|done].
  - destruct us as [|x us]; [done|]. cbn in Hp. injection Hp as <-. cbn. rewrite aggPub_app.
    eexists. split; [done|]. by apply Hagg.
  - congruence.
  - intros j. rewrite Hset, Hm. setoid_rewrite elem_of_app. setoid_rewrite list_elem_of_singleton.
    naive_solver.
Qed.

(** ** The nodes of the marks *)

Lemma listByBits_total b (l : list ValidateNode) n (i : nat) acc :
  wf b → (∀ j, isSet b j → (j < length l)%nat) →
  ∃ r, listByBits l (Some b) n (Z.of_nat i) acc = Ok r
       ∧ ∀ u, u ∈ r ↔ u ∈ acc ∨ ∃ j, isSet b j ∧ (i <= j < i + n)%nat ∧ l !! j = Some u.
Proof.
  intros Hw Hl. revert i acc. induction n as [|n IH]; intros i acc; cbn [listByBits].
  { exists acc. split; [done|]. intros u. split; [by left|]. intros [?|(j & _ & ? & _)]; [done|lia]. }
  destruct (GetIndex_isSet b i Hw) as (v & -> & Hv). cbn [mbind outcome_bind].
  replace (Z.of_nat i + 1) with (Z.of_nat (S i)) by lia. rewrite Nat2Z.id. destruct v.
  - destruct (lookup_lt_is_Some_2 l i) as [x Hx]; [apply Hl; by apply Hv|]. rewrite Hx.
    destruct (IH (S i) (acc ++ [x])) as (r & -> & Hr). exists r. split; [done|].
    intros u. rewrite Hr, elem_of_app, list_elem_of_singleton. split.
    + intros [[?| ->]|(j & ? & ? & ?)]; [by left| |].
      * right. exists i. split; [by apply Hv|]. split; [lia|done].
      * right. exists j. split; [done|]. split; [lia|done].
    + intros [?|(j & ? & Hj & ?)]; [by left; left|]. destruct (decide (j = i)) as [->|].
      * left. right. congruence.
      * right. exists j. split; [done|]. split; [lia|done].
  - destruct (IH (S i) acc) as (r & -> & Hr). exists r. split; [done|]. intros u. rewrite Hr.
    split; (intros [?|(j & Hj & ? & ?)]; [by left|right]; exists j; split; [done|split; [|done]]);
      [lia|]. destruct (decide (j = i)) as [->|]; [|lia]. apply Hv in Hj. done.
Qed.

Lemma gathered_nodes d us agg b :
  gathered d us agg b →
  ∃ r, NodeListByBitArray (validators nodes) (Some b) = Ok r ∧ r ≡ₚ us
       ∧ countBits (Some b) (Z.to_nat (Size (Some b))) 0 0 = Ok (Z.of_nat (length us)).
Proof.
  intros Hg.
  assert (Hsorted : length (sortedNodes (validators nodes)) = length nodes).
  { by rewrite (Permutation_length (sortedNodes_perm nodes)), (members_length nodes Hnodes). }
  assert (Hin : ∀ j, isSet b j → (j < length nodes)%nat).
  { intros j (u & Hu & Hi)%(g_marked _ _ _ _ Hg). apply (g_members _ _ _ _ Hg) in Hu.
    pose proof (member_range u Hu). lia. }
  unfold NodeListByBitArray. change 0 with (Z.of_nat 0) at 1.
  destruct (listByBits_total b (sortedNodes (validators nodes)) (Z.to_nat (Size (Some b))) 0 []
    (g_wf _ _ _ _ Hg)) as (r & Hr & Helem); [by rewrite Hsorted|].
  pose proof (g_size _ _ _ _ Hg) as HB. pose proof (g_wf _ _ _ _ Hg) as Hw.
  pose proof (countBits_spec b (Z.to_nat (Size (Some b))) 0 0 Hw ltac:(cbn; lia)) as Hc.
  destruct (NodeListByBitArray_ok nodes Hnodes (Some b) r _ Hr Hc) as (Hnd & Hsub & Hl).
  assert (Hperm : r ≡ₚ us).
  { apply NoDup_Permutation; [done|apply Hg|]. intros u. rewrite Helem. cbn [Size]. split.
    - intros [?%elem_of_nil|(j & Hj & _ & Hx)]; [done|].
      apply (sortedNodes_lookup nodes Hnodes) in Hx as [Hu Hi].
      apply (g_marked _ _ _ _ Hg) in Hj as (x & Hx & Hxi).
      assert (u = x) as ->; [|done].
      apply (members_index nodes Hnodes); [done|by apply (g_members _ _ _ _ Hg)|congruence].
    - intros Hu. right. pose proof (g_members _ _ _ _ Hg u Hu) as Hm.
      pose proof (member_range u Hm) as Hrange.
      exists (Z.to_nat (vn_Index u)). split.
      { apply (g_marked _ _ _ _ Hg). exists u. split; [done|lia]. }
      split; [rewrite HB; lia|].
      destruct (lookup_lt_is_Some_2 (sortedNodes (validators nodes)) (Z.to_nat (vn_Index u)))
        as [x Hx]; [rewrite Hsorted; lia|]. rewrite Hx. f_equal.
      apply (sortedNodes_lookup nodes Hnodes) in Hx as [Hxm Hxi].
      apply (members_index nodes Hnodes); [done|done|lia]. }
  exists r. split; [done|]. split; [done|]. rewrite <- (Permutation_length Hperm), Hl. exact Hc.
Qed.

(** A certificate of a quorum is accepted. *)
Lemma gathered_verifies us agg b q id :
  gathered (qcDigest q) us agg b → qc_Epoch q = 1 →
  qc_Signature q = signSerialize agg → qc_ValidatorSet q = Some b →
  threshold (Z.of_nat (length nodes)) <= Z.of_nat (length us) →
  verifyPrepareQC (staticPool nodes id) (qc_BlockNumber q) (qc_BlockHash q) (Some q) = Ok tt.
Proof.
  intros Hg He Hs Hb Ht. destruct (gathered_nodes _ _ _ _ Hg) as (r & Hr & Hperm & Hc).
  destruct (g_sum _ _ _ _ Hg) as (p & Hp & Hv). rewrite <- (sumPub_perm _ _ Hperm) in Hp.
  assert (HV : VerifyAggSigByBA (staticPool nodes id) 1 (Some b) (qcDigest q) (signSerialize agg)
               = Ok tt).
  { unfold VerifyAggSigByBA. change (validatorsAt (staticPool nodes id) 1) with (Ok (validators nodes)).
    cbn [mbind outcome_bind]. rewrite Hr. cbn [mbind outcome_bind]. destruct r as [|u r]; [done|].
    injection Hp as ->. unfold blsVerify. by rewrite Hser, Hv. }
  unfold verifyPrepareQC. rewrite He, (staticPool_len1 nodes Hnodes). unfold qcLen.
  rewrite Hb, Hc, Hs, HV.
  change (EnableVerifyEpoch (staticPool nodes id) 1) with (Ok tt). cbn [mbind outcome_bind].
  unfold reject. rewrite (proj2 (Z.ltb_ge _ _)), !Z.eqb_refl by done. done.
Qed.

(** ** The loops *)

(** The loops over the votes, for votes that agree. *)
Fixpoint aggSigs (i0 : Z) (l : list (Z * Z)) (agg : Sign) (vSet : option BitArray) :
    outcome (option (Sign * option BitArray)) :=
  match l with
  | [] => Ok (Some (agg, vSet))
  | (i, sign) :: l =>
      if i =? i0 then aggSigs i0 l agg vSet
      else
        r ← aggregate agg vSet i sign;
        match r with
        | None => Ok None
        | Some (agg, vSet) => aggSigs i0 l agg vSet
        end
  end.

Lemma aggVotes_sigs vote l agg set :
  Forall (λ p, pvEqualState vote p = true) l →
  aggVotes vote l agg set
  = aggSigs (pv_ValidatorIndex vote) ((λ p, (pv_ValidatorIndex p, pv_Signature p)) <$> l) agg set.
Proof.
  intros Hl. revert agg set. induction Hl as [|p l Hp _ IH]; intros agg set; [done|].
  cbn. rewrite Hp. cbn [negb]. case_match; [apply IH|].
  destruct (aggregate _ _ _ _) as [[[agg' set']|]| |]; [apply IH|done..].
Qed.

Lemma aggPreCommits_sigs vote l agg set :
  Forall (λ p, pcEqualState vote p = true) l →
  aggPreCommits vote l agg set
  = aggSigs (pc_ValidatorIndex vote) ((λ p, (pc_ValidatorIndex p, pc_Signature p)) <$> l) agg set.
Proof.
  intros Hl. revert agg set. induction Hl as [|p l Hp _ IH]; intros agg set; [done|].
  cbn. rewrite Hp. cbn [negb]. case_match; [apply IH|].
  destruct (aggregate _ _ _ _) as [[[agg' set']|]| |]; [apply IH|done..].
Qed.

Lemma aggSigs_gathered d i0 l us agg b :
  gathered d us agg b → NoDup l.*1 →
  (∀ i s, (i, s) ∈ l → i ≠ i0 → (∃ u, signedBy d u i s) ∧ ∀ u, u ∈ us → vn_Index u ≠ i) →
  ∃ us' agg' b', aggSigs i0 l agg (Some b) = Ok (Some (agg', Some b')) ∧ gathered d us' agg' b'
    ∧ length us' = (length us + length (base.filter (λ x, x.1 ≠ i0) l))%nat.
Proof.
  revert us agg b. induction l as [|[i s] l IH]; intros us agg b Hg Hnd Hl.
  { exists us, agg, b. split; [done|]. split; [done|]. cbn. lia. }
  apply NoDup_cons in Hnd as [Hnin Hnd]. cbn [aggSigs]. rewrite filter_cons. cbn [fst].
  destruct (Z.eqb_spec i i0) as [->|Hne].
  { rewrite decide_False by naive_solver. apply IH; [done|done|].
    intros j t Hj. apply Hl. by right. }
  rewrite decide_True by done. destruct (Hl i s) as [(u & Hu) Hnot]; [left|done|].
  destruct (gathered_add d us agg b u i s Hg Hu) as (agg' & b' & -> & Hg').
  { intros Hin. destruct Hu as (_ & Hi & _). by apply (Hnot u). }
  cbn [mbind outcome_bind].
  destruct (IH (us ++ [u]) agg' b' Hg' Hnd) as (us' & agg'' & b'' & He & Hg'' & Hlen').
  - intros j t Hj Hj0. destruct (Hl j t) as [Hs Hn]; [by right|done|]. split; [done|].
    intros x [Hx| ->%list_elem_of_singleton]%elem_of_app; [auto|].
    destruct Hu as (_ & -> & _). intros ->. apply Hnin. apply list_elem_of_fmap. by exists (j, t).
  - exists us', agg'', b''. split; [done|]. split; [done|]. rewrite Hlen', length_app. cbn. lia.
Qed.

(** The first signature with the loop over all of them. *)
Lemma certificate d i0 s0 l :
  NoDup (i0 :: l.*1) → (∀ i s, (i, s) ∈ (i0, s0) :: l → ∃ u, signedBy d u i s) →
  ∃ b0 s us agg b,
    SetIndex (NewBitArray (u32 (Z.of_nat (length nodes)))) i0 true = Ok (true, Some b0)
    ∧ signDeserialize s0 = Some s
    ∧ aggSigs i0 ((i0, s0) :: l) s (Some b0) = Ok (Some (agg, Some b))
    ∧ Update (NewBitArray (Size (Some b0))) (Some b) = Some b
    ∧ gathered d us agg b ∧ length us = S (length l).
Proof.
  intros Hnd Hl. destruct (Hl i0 s0) as (u & Hu); [left|].
  destruct (gathered_first d u i0 s0 Hu) as (b0 & s & Hset & Hd & Hg).
  destruct (aggSigs_gathered d i0 ((i0, s0) :: l) [u] s b0 Hg Hnd) as (us & agg & b & He & Hg' & Hlen').
  { intros i t Hi Hne. split; [by eapply Hl|].
    intros x ->%list_elem_of_singleton. destruct Hu as (_ & -> & _). done. }
  exists b0, s, us, agg, b. split_and!; [done..| |done|].
  - pose proof (g_size _ _ _ _ Hg) as HB. pose proof (g_wf _ _ _ _ Hg) as Hw.
    cbn [Size]. rewrite HB. pose proof (wf_bits _ Hw).
    destruct (NewBitArray_spec (Z.of_nat (length nodes))) as (c & -> & Hc & _ & HB' & _); [lia|].
    apply Update_spec; [done|apply Hg'|]. rewrite HB'. symmetry. apply Hg'.
  - apply NoDup_cons in Hnd as [Hnin _].
    rewrite Hlen', filter_cons, decide_False by (cbn; naive_solver). cbn [length].
    rewrite filter_absent by done. lia.
Qed.

(** Votes for one block, by the index of their signers. *)
Definition votesOf {A} (digest : A → list Z) (index sign : A → Z) (d : list Z) (m : gmap Z A) :
    Prop :=
  ∀ i a, m !! i = Some a → index a = i ∧ digest a = d ∧ ∃ u, signedBy d u i (sign a).

Lemma votesOf_list {A} digest index sign d (m : gmap Z A) :
  votesOf digest index sign d m →
  NoDup ((λ a, (index a, sign a)) <$> (map_to_list m).*2).*1
  ∧ (∀ i s, (i, s) ∈ (λ a, (index a, sign a)) <$> (map_to_list m).*2 → ∃ u, signedBy d u i s)
  ∧ Forall (λ a, digest a = d) (map_to_list m).*2.
Proof.
  intros Hm.
  assert (Hin : ∀ a, a ∈ (map_to_list m).*2 → m !! index a = Some a).
  { intros a [i Hi]%elem_value. destruct (Hm i a Hi) as (-> & _). done. }
  split_and!.
  - assert (((λ a, (index a, sign a)) <$> (map_to_list m).*2).*1 = (map_to_list m).*1) as ->;
      [|apply NoDup_fst_map_to_list].
    rewrite <- !list_fmap_compose. apply list_fmap_ext. intros k [i a] Hk. cbn.
    apply list_elem_of_lookup_2, elem_of_map_to_list in Hk. by destruct (Hm i a Hk) as (-> & _).
  - intros i s (a & [= -> ->] & Ha%Hin)%list_elem_of_fmap. by destruct (Hm _ _ Ha) as (_ & _ & ?).
  - apply Forall_forall. intros a Ha%Hin. by destruct (Hm _ _ Ha) as (_ & ? & _).
Qed.

Context (Hne : nodes ≠ []).

Lemma threshold_pos : 0 < threshold (Z.of_nat (length nodes)).
Proof.
  destruct nodes; [done|]. pose proof (threshold_bound (Z.of_nat (length (p :: l)))).
  cbn [length] in *. lia.
Qed.

Lemma generatePrepareQC_verifies v h k x m id :
  votesOf pvDigest pv_ValidatorIndex pv_Signature [1; v; h; k; x; RoundStepPrepareVote] m →
  threshold (Z.of_nat (length nodes)) <= Z.of_nat (size m) →
  ∃ q, generatePrepareQC (Z.of_nat (length nodes)) m = Ok (Some q)
       ∧ verifyPrepareQC (staticPool nodes id) k h (Some q) = Ok tt.
Proof.
  intros Hm Ht. destruct (votesOf_list _ _ _ _ _ Hm) as (Hnd & Hs & Hd).
  pose proof (length_map_to_list m) as Hsize. rewrite <- (length_fmap snd) in Hsize.
  pose proof threshold_pos. unfold generatePrepareQC.
  destruct ((map_to_list m).*2) as [|p l]; [cbn in Hsize; lia|].
  assert (Heq : Forall (λ a, pvEqualState p a = true) (p :: l)).
  { apply Forall_cons in Hd as [Hp Hd]. rewrite Forall_forall in Hd.
    apply Forall_forall. intros a [->|Ha%Hd]%elem_of_cons; unfold pvEqualState, pvDigest in *;
      rewrite !andb_true_iff, !Z.eqb_eq; split_and!; congruence. }
  destruct (certificate _ (pv_ValidatorIndex p) (pv_Signature p)
    (fmap (M:=list) (λ a, (pv_ValidatorIndex a, pv_Signature a)) l) Hnd Hs)
    as (b0 & s & us & agg & b & -> & Hds & He & Hu & Hg & Hlen').
  cbn [mbind outcome_bind snd]. rewrite Hds, aggVotes_sigs by done.
  rewrite fmap_cons, He. cbn [mbind outcome_bind]. rewrite Hu. eexists. split; [done|].
  apply Forall_cons in Hd as [Hp _]. unfold pvDigest in Hp. injection Hp as -> -> -> -> ->.
  rewrite length_fmap in Hlen'. eapply (gathered_verifies us agg b); [exact Hg|done|done|done|].
  cbn [length] in Hsize. lia.
Qed.

Lemma generatePreCommitQC_verifies v h k x m id :
  votesOf pcDigest pc_ValidatorIndex pc_Signature [1; v; h; k; x; RoundStepPreCommit] m →
  threshold (Z.of_nat (length nodes)) <= Z.of_nat (size m) →
  ∃ q, generatePreCommitQC (Z.of_nat (length nodes)) m = Ok (Some q)
       ∧ verifyPrepareQC (staticPool nodes id) k h (Some q) = Ok tt.
Proof.
  intros Hm Ht. destruct (votesOf_list _ _ _ _ _ Hm) as (Hnd & Hs & Hd).
  pose proof (length_map_to_list m) as Hsize. rewrite <- (length_fmap snd) in Hsize.
  pose proof threshold_pos. unfold generatePreCommitQC.
  destruct ((map_to_list m).*2) as [|p l]; [cbn in Hsize; lia|].
  assert (Heq : Forall (λ a, pcEqualState p a = true) (p :: l)).
  { apply Forall_cons in Hd as [Hp Hd]. rewrite Forall_forall in Hd.
    apply Forall_forall. intros a [->|Ha%Hd]%elem_of_cons; unfold pcEqualState, pcDigest in *;
      rewrite !andb_true_iff, !Z.eqb_eq; split_and!; congruence. }
  destruct (certificate _ (pc_ValidatorIndex p) (pc_Signature p)
    (fmap (M:=list) (λ a, (pc_ValidatorIndex a, pc_Signature a)) l) Hnd Hs)
    as (b0 & s & us & agg & b & -> & Hds & He & Hu & Hg & Hlen').
  cbn [mbind outcome_bind snd]. rewrite Hds, aggPreCommits_sigs by done.
  rewrite fmap_cons, He. cbn [mbind outcome_bind]. rewrite Hu. eexists. split; [done|].
  apply Forall_cons in Hd as [Hp _]. unfold pcDigest in Hp. injection Hp as -> -> -> -> ->.
  rewrite length_fmap in Hlen'. eapply (gathered_verifies us agg b); [exact Hg|done|done|done|].
  cbn [length] in Hsize. lia.
Qed.

(** C34: certificates are complete.  Votes, or precommits, of at least the
    threshold of the validators that carry valid signatures for one block of
    one view are aggregated into a certificate, without a panic, and every
    node of the network accepts that certificate for the block. *)
Theorem certificates_complete v h k x votes preCommits id :
  (votesOf pvDigest pv_ValidatorIndex pv_Signature [1; v; h; k; x; RoundStepPrepareVote] votes →
   threshold (Z.of_nat (length nodes)) <= Z.of_nat (size votes) →
   ∃ q, generatePrepareQC (Z.of_nat (length nodes)) votes = Ok (Some q)
        ∧ verifyPrepareQC (staticPool nodes id) k h (Some q) = Ok tt)
  ∧ (votesOf pcDigest pc_ValidatorIndex pc_Signature [1; v; h; k; x; RoundStepPreCommit] preCommits →
     threshold (Z.of_nat (length nodes)) <= Z.of_nat (size preCommits) →
     ∃ q, generatePreCommitQC (Z.of_nat (length nodes)) preCommits = Ok (Some q)
          ∧ verifyPrepareQC (staticPool nodes id) k h (Some q) = Ok tt).
Proof. split; [apply generatePrepareQC_verifies|apply generatePreCommitQC_verifies]. Qed.
End cert.
