(* ===== verification/PbftSafety.v ===== *)
(** Agreement: two correct nodes never commit different blocks of one height.

    Every step of the network keeps the invariant of every running node and
    the justification of everything that correct nodes have said; a committed
    block has a child that a quorum backs, two quorums share a correct node,
    and that node has had one block of the height. *)

From S2P Require Import Prelude Triples BitArray PbftTypes PbftValidators BlockTree PbftEvidence PbftState PbftRules PbftNode PbftEngine PbftSync PbftSystem PbftTree PbftQuorum PbftInv PbftSteps PbftHandlers.

Section safety.
Context `{CR : Crypto}.
Context (nodes : list (Z * Z * PublicKey)) (period : Z) (genesis : Block) (keys : gmap Z SecretKey).

Let agency : Agency := StaticAgency nodes.
#[local] Existing Instance agency.

(** The hash function has no collisions, the genesis block is the first, and
    fewer than a third of the validators are not correct. *)
Context (Hinj : ∀ b c : Block, Hash b = Hash c → b = c).
Context (Hg0 : bNumber genesis = 0) (Hgp : ∀ b, Hash b ≠ bParentHash genesis).
Context (Hnodes : nodesOk nodes) (Hf : faultBound nodes keys).

Implicit Types (n : Node) (sys : Sys) (w : gmap Z (list Output)).

Abbreviation logOk := (logOk nodes genesis keys).
Abbreviation Inv := (Inv nodes genesis keys).
Abbreviation Core := (Core nodes genesis keys).

(** ** Other nodes *)

(** What a node relies on stays true while the others go on. *)
Lemma Core_world id w w' n :
  extends w w' → outOf w' id ⊆ n_out n → Core id w n → Core id w' n.
Proof.
  intros He Hs Hn.
  assert (Hw : extends (worldOf id w n) (worldOf id w' n)).
  { intros i. unfold worldOf. rewrite !outOf_insert. case_decide; [done|apply He]. }
  assert (Hv : ∀ i k m, vouched nodes keys id w n i k m → vouched nodes keys id w' n i k m).
  { intros i k m (u & ? & ? & Hu). exists u. split; [done|]. split; [done|]. intros Hh.
    eapply spoke_mono; [apply Hw|auto]. }
  destruct Hn. split; try done.
  - intros k m i v Hk Hi. destruct (c_votes k m i v Hk Hi) as (? & ? & ?). auto.
  - intros k m i v Hk Hi. destruct (c_preCommits k m i v Hk Hi) as (? & ? & ? & ?). auto.
  - by eapply logOk_mono.
Qed.

Lemma Inv_world id w w' n :
  extends w w' → outOf w' id ⊆ n_out n → Inv id w n → Inv id w' n.
Proof. intros He Hs [Hn Hb]. split; [by eapply Core_world|done]. Qed.

Lemma logOk_nil w : logOk w [].
Proof.
  split.
  - by intros e v m k a s (o & ?%elem_of_nil & _).
  - by intros b q ?%elem_of_nil.
  - by intros b q b' q' ?%elem_of_nil.
  - by intros b q ?%elem_of_nil.
Qed.

(** ** The start of a node *)

Lemma NewBlockTree_genesis t had :
  had 0 (Hash genesis) → NewBlockTree genesis None = Ok t → treeOk had 0 t.
Proof.
  intros Hh Ht. apply outcome_bind_Ok in Ht as (v & _ & [= <-]). split; cbn.
  - intros h k p Hk. unfold findBlockExt in Hk. cbn in Hk. apply bind_Some in Hk as (m & Hm & Hp).
    apply lookup_singleton_Some in Hm as [<- <-]. apply lookup_singleton_Some in Hp as [<- <-].
    eexists. rewrite lookup_singleton_eq. split; [done|]. cbn. rewrite Hg0.
    split_and!; [done..|left; done].
  - intros p e q Hp. apply lookup_singleton_Some in Hp as [_ <-]. done.
  - intros p [= <-]. eexists. rewrite lookup_singleton_eq. split; [done|]. cbn. lia.
  - intros p [e Hp]. apply lookup_singleton_Some in Hp as [<- _]. lia.
Qed.

Lemma Core_start id key w now t :
  outOf w id = [] → NewBlockTree genesis None = Ok t →
  Inv id w (mkNode (set_epoch 1 (NewViewState (cf_Period (configOf period id key)) now genesis)) t
              (staticPool nodes id) NewBaseEvidencePool ∅ false []).
Proof.
  intros Hw Ht. split; [|cbn; unfold topOf; cbn; lia].
  split; unfold topOf; cbn; try done.
  - rewrite Hg0. done.
  - left. auto.
  - rewrite Hg0. apply (NewBlockTree_genesis t); [left; auto|done].
  - by intros b q ?%elem_of_nil.
  - by intros e v m k a (o & ?%elem_of_nil & _).
  - by intros e v m k a e' m' a' (o & ?%elem_of_nil & _).
  - by rewrite Hw.
  - apply logOk_nil.
Qed.

(** The reset of a view forgets its epoch. *)
Lemma changeView_epoch now e view b v n :
  changeView now e view (Some b) v (setState (set_epoch e (n_state n)) n)
  = changeView now e view (Some b) v n.
Proof.
  assert (Hbind : ∀ (f : Node → Node) (k : unit → M Node unit) x, (modify f ≫= k) x = k tt (f x))
    by done.
  assert (Hret : ∀ (k : Block → M Node unit) x, (must (Some b) ≫= k) x = k b x) by done.
  assert (Hupd : ∀ f (k : unit → M Node unit) x,
    (updState f ≫= k) x = k tt (setState (f (n_state x)) x)) by done.
  unfold changeView. rewrite !Hbind, !Hret. rewrite Hupd. symmetry. rewrite Hupd. f_equal.
Qed.

Lemma start_ok id key w now n :
  keys !! id = Some key → outOf w id = [] →
  (∀ u, u ∈ members nodes → honest keys u → vn_NodeID u ≠ id →
     saysOk nodes genesis keys w (outOf w (vn_NodeID u))) →
  start (configOf period id key) now genesis None = Ok n → Inv id w n.
Proof.
  intros Hkey Hw Hothers Hs. unfold start in Hs. rewrite Hg0 in Hs. cbn [Z.eqb] in Hs.
  apply outcome_bind_Ok in Hs as (t & Ht & Hs). apply outcome_bind_Ok in Hs as (e & [= <-] & Hs).
  apply outcome_bind_Ok in Hs as (vp & Hvp & Hs).
  assert (vp = staticPool nodes id) as ->.
  { cbn in Hvp. by injection Hvp. }
  pose proof (Core_start id key w now t Hw Ht) as Hn0.
  match type of Hs with context [?m (mkNode ?s ?t ?p ?e ?y ?f ?o)] =>
    assert (Hm : wp m (λ _, Inv id w) (Inv id w) (logged nodes genesis keys id w)
                   (mkNode s t p e y f o))
  end.
  { apply wp_bind.
    match goal with |- wp ?m ?Q ?E ?P ?n => unfold wp; rewrite <- (changeView_epoch _ _ _ _ _ n);
      change (wp m Q E P (setState (set_epoch 1 (n_state n)) n)) end.
    eapply wp_mono; [by apply keeps_changeView| |done|done]. intros [] n1 Hn1.
    apply wp_bind. wp_step. by apply keeps_tryChangeView. }
  unfold wp in Hm. case_match. case_match; congruence.
Qed.

(** ** The network *)

(** Everything that correct nodes have said is justified, and the running
    nodes are in their invariant. *)
Record SysInv sys : Prop := {
  sys_log : ∀ id, logOk (sys_out sys) (outOf (sys_out sys) id);
  sys_inv : ∀ id n, sys_nodes sys !! id = Some n →
    sys_out sys !! id = Some (n_out n) ∧ Inv id (sys_out sys) n;
}.

Lemma SysInv_others sys id :
  SysInv sys → ∀ u, u ∈ members nodes → honest keys u → vn_NodeID u ≠ id →
    saysOk nodes genesis keys (sys_out sys) (outOf (sys_out sys) (vn_NodeID u)).
Proof. intros Hs u _ _ _. apply (sys_log _ Hs). Qed.

(** A node has got further; the nodes that run are [running]. *)
Lemma SysInv_step sys id n running :
  SysInv sys → logged nodes genesis keys id (sys_out sys) n →
  (∀ i m, running !! i = Some m →
     (i = id ∧ m = n ∧ Inv id (sys_out sys) n) ∨ (i ≠ id ∧ sys_nodes sys !! i = Some m)) →
  SysInv (mkSys running (<[id := n_out n]> (sys_out sys))).
Proof.
  intros [Hl Hi] [Hsub Hlog] Hr.
  assert (He : extends (sys_out sys) (<[id := n_out n]> (sys_out sys))) by by apply extends_insert.
  split; cbn.
  - intros i. rewrite outOf_insert. case_decide; [done|]. by eapply logOk_mono.
  - intros i m Hm. destruct (Hr i m Hm) as [(-> & -> & Hn)|[Hne Hm']].
    + split; [apply lookup_insert_eq|]. eapply Inv_world; [done| |done].
      rewrite outOf_insert. by case_decide.
    + destruct (Hi i m Hm') as [Ho Hn]. split; [by rewrite lookup_insert_ne|].
      eapply Inv_world; [done| |done]. rewrite outOf_insert. case_decide; [done|].
      unfold outOf. by rewrite Ho.
Qed.

Lemma handle_ok sys id key now ev n :
  SysInv sys → keys !! id = Some key → sys_nodes sys !! id = Some n →
  eventOk ev = true → Forall (authentic nodes keys (sys_out sys)) (sigsOf ev) →
  wp (handle (configOf period id key) now ev) (λ _, Inv id (sys_out sys)) (Inv id (sys_out sys))
    (logged nodes genesis keys id (sys_out sys)) n.
Proof.
  intros Hs Hkey Hn Hok Ha. destruct (sys_inv _ Hs id n Hn) as [_ HI].
  apply keeps_handle; try done. by apply SysInv_others.
Qed.

Lemma step_SysInv sys sys' : SysInv sys → step nodes period genesis keys sys sys' → SysInv sys'.
Proof.
  intros Hs Hstep. destruct Hstep as [sys id key now n Hkey Hno Hst
    |sys id key now ev n r n' Hkey Hn Hok Ha Hh Hr|sys id key now ev n n' Hkey Hn Hok Ha Hh].
  - assert (Hi : Inv id (sys_out sys) n).
    { eapply start_ok; [done| |by apply SysInv_others|done]. unfold outOf. by rewrite Hno. }
    apply SysInv_step; [done|by apply Inv_logged|]. intros i m Hm.
    apply lookup_insert_Some in Hm as [[<- <-]|[? ?]]; auto.
  - pose proof (handle_ok sys id key now ev n Hs Hkey Hn Hok Ha) as Hw. unfold wp, agency in Hw.
    rewrite Hh in Hw. assert (Hi : Inv id (sys_out sys) n') by by destruct r.
    apply SysInv_step; [done|by apply Inv_logged|]. intros i m Hm.
    apply lookup_insert_Some in Hm as [[<- <-]|[? ?]]; auto.
  - pose proof (handle_ok sys id key now ev n Hs Hkey Hn Hok Ha) as Hw. unfold wp, agency in Hw.
    rewrite Hh in Hw. apply SysInv_step; [done|done|]. intros i m Hm.
    apply lookup_delete_Some in Hm as [? ?]. auto.
Qed.

Lemma reachable_SysInv sys : reachable nodes period genesis keys sys → SysInv sys.
Proof.
  intros Hr. unfold reachable in Hr.
  assert (H0 : SysInv initial).
  { split; [intros id; apply logOk_nil|done]. }
  induction Hr as [|s1 s2 s3 Hst _ IH]; [done|]. apply IH. by eapply step_SysInv.
Qed.

(** A correct node has had one block of a height. *)
Lemma had_once w out k x y : logOk w out → had genesis out k x → had genesis out k y → x = y.
Proof.
  intros Hl [[Hk ->]|(b & q & Hb & Hk & <-)] [[Hk' ->]|(c & q' & Hc & Hk' & <-)].
  - done.
  - destruct (log_inserted _ _ _ _ _ Hl c q' Hc). lia.
  - destruct (log_inserted _ _ _ _ _ Hl b q Hb). lia.
  - f_equal. eapply (log_once _ _ _ _ _ Hl); [done|done|lia].
Qed.

(** *** Backed and committed blocks *)

(** Blocks of one height that quorums back have the same parent. *)
Lemma backed_same_parent w c c' :
  (∀ u, u ∈ members nodes → honest keys u → logOk w (outOf w (vn_NodeID u))) →
  backed nodes genesis keys w (bNumber c) (Hash c) →
  backed nodes genesis keys w (bNumber c') (Hash c') →
  bNumber c = bNumber c' → bParentHash c = bParentHash c'.
Proof.
  intros Hl Hq Hq' Hk.
  destruct (quorum_inter _ _ Hnodes _ _ Hf Hq Hq')
    as (u & Hm & Hh & (d & Hd%Hinj & _ & Hu) & d' & Hd'%Hinj & _ & Hu'). subst d d'.
  rewrite <- Hk in Hu'. by eapply had_once; [apply Hl|..].
Qed.

(** A committed block has a child that a quorum backs; it is the genesis
    block, or a quorum backs it too. *)
Lemma committed_backed sys i b q :
  SysInv sys → OCommit b q ∈ outOf (sys_out sys) i →
  (∃ c, bParentHash c = Hash b ∧ bNumber c = bNumber b + 1
        ∧ backed nodes genesis keys (sys_out sys) (bNumber c) (Hash c))
  ∧ (b = genesis ∨ 1 <= bNumber b ∧ backed nodes genesis keys (sys_out sys) (bNumber b) (Hash b)).
Proof.
  intros Hs Hb. pose proof (sys_log _ Hs) as Hl.
  destruct (log_commit _ _ _ _ _ (Hl i) b q Hb) as (c & qc & Hc & Hp & Hn).
  destruct (log_inserted _ _ _ _ _ (Hl i) c qc Hc) as [_ Hq]. split; [by exists c|].
  destruct (quorum_honest _ _ Hnodes _ Hf Hq) as (u & _ & _ & d & Hd%Hinj & _ & Hu). subst d.
  rewrite Hp in Hu. destruct Hu as [[_ Hg%Hinj]|(x & qx & Hx & _ & Hh%Hinj)]; [by left|].
  subst x. right. by eapply log_inserted.
Qed.

(** C1: agreement of the consensus.  Whatever messages the network loses,
    repeats, reorders or makes up, as long as fewer than a third of the
    validators are not correct, their signatures cannot be forged and hashes
    do not collide, two correct nodes never commit different blocks of one
    height. *)
Theorem agreement sys i j b q b' q' :
  reachable nodes period genesis keys sys →
  OCommit b q ∈ outOf (sys_out sys) i → OCommit b' q' ∈ outOf (sys_out sys) j →
  bNumber b = bNumber b' → b = b'.
Proof.
  intros Hr%reachable_SysInv Hb Hb' Hk.
  destruct (committed_backed _ _ _ _ Hr Hb) as [(c & Hp & Hn & Hq) _].
  destruct (committed_backed _ _ _ _ Hr Hb') as [(c' & Hp' & Hn' & Hq') _].
  apply Hinj. rewrite <- Hp, <- Hp'. eapply backed_same_parent; [|done|done|lia].
  intros u _ _. apply (sys_log _ Hr).
Qed.

(** C2: the blocks that correct nodes commit form one chain.  A block that
    some correct node commits has as its parent the block that any correct
    node commits at the height below. *)
Theorem committed_chain sys i j a q b q' :
  reachable nodes period genesis keys sys →
  OCommit a q ∈ outOf (sys_out sys) i → OCommit b q' ∈ outOf (sys_out sys) j →
  bNumber b = bNumber a + 1 → bParentHash b = Hash a.
Proof.
  intros Hr%reachable_SysInv Ha Hb Hk.
  destruct (committed_backed _ _ _ _ Hr Ha) as [(c & Hp & Hn & Hq) Hga].
  destruct (committed_backed _ _ _ _ Hr Hb) as [_ [->|[_ Hq']]].
  - destruct Hga as [->|[? _]]; lia.
  - rewrite <- Hp. eapply backed_same_parent; [|done|done|lia].
    intros u _ _. apply (sys_log _ Hr).
Qed.

(** C36: a vote without the certificate of its parent stops a node.  The rules
    of a vote above the node's height read the certificate of the parent
    before any signature is checked, and the decoder allows it to be absent;
    so every running node, in every reachable state, has a message that needs
    no key of a validator and after which it runs no more. *)
Theorem unsigned_vote_stops_node sys id key n h sign :
  reachable nodes period genesis keys sys → keys !! id = Some key →
  sys_nodes sys !! id = Some n → FindBlockByHash (n_tree n) h = None →
  signDeserialize sign = None → v_blockNumber (n_state n) + 1 < MaxUint64 →
  ∃ m sys', pv_Signature m = sign
    ∧ (∀ now, handle (configOf period id key) now (EConsensus 0 (MPrepareVote m)) n = (Panic, n))
    ∧ step nodes period genesis keys sys sys'
    ∧ sys_nodes sys' = delete id (sys_nodes sys).
Proof.
  intros Hr%reachable_SysInv Hkey Hn Hh Hsign Hmax.
  destruct (sys_inv _ Hr id n Hn) as [_ [Hc Hb]]. pose proof (c_range _ _ _ _ _ _ Hc) as Hrange.
  set (k := v_blockNumber (n_state n) + 1) in *.
  set (m := mkPV 1 0 h k 0 0 None sign).
  assert (Hpanic : ∀ now,
    handle (configOf period id key) now (EConsensus 0 (MPrepareVote m)) n = (Panic, n)).
  { intros now. cbn [handle]. unfold OnPrepareVote, PrepareVoteRules, voteRules, alreadyQCBlock.
    cbn [vw_BlockHash vw_BlockNumber vw_Epoch pv_BlockHash pv_BlockNumber pv_Epoch m].
    unfold mbind, M_bind, get, ask. cbn [fst snd].
    cbn [vw_BlockHash vw_BlockNumber vw_Epoch pv_BlockHash pv_BlockNumber pv_Epoch m].
    rewrite Hh, (c_top _ _ _ _ _ _ Hc), (c_epoch _ _ _ _ _ _ Hc). cbn [orb bool_decide].
    rewrite bool_decide_eq_false_2 by (by intros [? ?]).
    rewrite (proj2 (Z.leb_gt k _)) by lia. cbn [orb negb Z.eqb].
    rewrite (proj2 (Z.ltb_ge k _)) by lia. unfold voteParent. cbn [vw_BlockNumber vw_ParentQC].
    rewrite (proj2 (Z.ltb_lt _ k)), (proj2 (Z.ltb_lt 1 k)) by lia. done. }
  exists m. eexists. split; [done|]. split; [exact Hpanic|]. split.
  - eapply (step_crash _ _ _ _ _ id key 0 (EConsensus 0 (MPrepareVote m)) n n); try done.
    + cbn. unfold heightOk. lia.
    + cbn. constructor; [|constructor]. intros v vs d u _ _ Hv. unfold blsVerify in Hv.
      cbn [pv_Signature m] in Hv. by rewrite Hsign in Hv.
  - done.
Qed.
End safety.
