(* ===== verification/PbftRun.v ===== *)
(** An executable run of a network: scripts of deliveries and local events,
    and an ideal signature scheme with which they can be evaluated. *)

From S2P Require Import Prelude Triples BitArray PbftTypes PbftValidators BlockTree PbftEvidence PbftState PbftRules PbftNode PbftEngine PbftSync PbftSystem PbftQuorum PbftCert PbftSafety.

(** ** An ideal scheme *)

(** The blocks of the run have short hashes; all others hash to their
    encoding. *)
Definition blockCode (b : Block) : positive :=
  encode (bNumber b, bParentHash b, bTime b, bRest b).

Definition shortHash (l : list Block) (b : Block) : Z :=
  match list_find (λ c, c = b) l with
  | Some (i, _) => 1 + Z.of_nat i
  | None => 1 + Z.of_nat (length l) + Z.pos (blockCode b)
  end.

(** A key signs by writing its name under the digest. *)
Definition IdealCrypto (l : list Block) : Crypto := {|
  Hash := shortHash l;
  blockData := shortHash l;
  headerOk := λ _, true;
  PublicKey := gset Z;
  SecretKey := Z;
  Sign := list (Z * list Z);
  pubSerialize := λ p, Z.pos (encode (elements p));
  pubAdd := λ p q, p ∪ q;
  signAdd := λ s t, s ++ t;
  signSerialize := λ s, Z.pos (encode s);
  signDeserialize := λ z, match z with Z.pos p => decode p | _ => None end;
  signVerify := λ s p d,
    bool_decide (list_to_set s.*1 = p) && forallb (λ x, bool_decide (x.2 = d)) s;
  signWith := λ k d, [(k, d)];
|}.

Lemma blockCode_inj b c : blockCode b = blockCode c → b = c.
Proof. intros Hb%(inj encode). destruct b, c. by simplify_eq/=. Qed.

Lemma shortHash_inj l b c : shortHash l b = shortHash l c → b = c.
Proof.
  unfold shortHash. intros Hbc.
  destruct (list_find (λ x, x = b) l) as [[i x]|] eqn:Hb;
    destruct (list_find (λ x, x = c) l) as [[j y]|] eqn:Hc.
  - apply list_find_Some in Hb as (Hi & -> & _). apply list_find_Some in Hc as (Hj & -> & _).
    assert (i = j) as -> by lia. naive_solver.
  - apply list_find_Some in Hb as (Hi%lookup_lt_Some & _). lia.
  - apply list_find_Some in Hc as (Hi%lookup_lt_Some & _). lia.
  - apply blockCode_inj. lia.
Qed.

(** The ideal scheme aggregates. *)
Section ideal.
Context (l : list Block).
#[local] Instance anIdeal : Crypto := IdealCrypto l.

Lemma ideal_serialize (s : Sign) : signDeserialize (signSerialize s) = Some s.
Proof. cbn. apply decode_encode. Qed.

Lemma ideal_aggregate (s t : Sign) p q d :
  signVerify s p d = true → signVerify t q d = true →
  signVerify (signAdd s t) (pubAdd p q) d = true.
Proof.
  cbn. rewrite !andb_true_iff, !bool_decide_eq_true, fmap_app, list_to_set_app_L, forallb_app.
  intros [<- ->] [<- ->]. done.
Qed.

Lemma ideal_comm (p q : PublicKey) : pubAdd p q = pubAdd q p.
Proof. cbn. apply (comm_L _). Qed.

Lemma ideal_assoc (p q r : PublicKey) : pubAdd p (pubAdd q r) = pubAdd (pubAdd p q) r.
Proof. cbn. apply (assoc_L _). Qed.
End ideal.

(** ** Scripts *)

Inductive Action :=
  | AStart (id : Z)
  (* node [to] receives the [k]-th output of node [from], a consensus message *)
  | ADeliver (to from : Z) (k : nat)
  | AEvent (id : Z) (ev : Event).

Section run.
Context (blocks : list Block).
#[local] Instance ideal : Crypto := IdealCrypto blocks.

Context (nodes : list (Z * Z * gset Z)) (period : Z) (genesis : Block) (keys : gmap Z Z).

#[local] Instance runAgency : Agency := StaticAgency nodes.

Implicit Types (sys : Sys) (w : gmap Z (list Output)).

(** Who signed, and has the digest been released? *)
Definition signOk w (sign : Z) : bool :=
  match signDeserialize sign with
  | None => true
  | Some s => forallb (λ x, match keys !! x.1 with
                            | None => true
                            | Some _ => existsb (λ o, bool_decide (releasedDigest o = Some x.2))
                                          (outOf w x.1)
                            end) s
  end.

Definition handleAt sys (now id : Z) (ev : Event) : option Sys :=
  key ← keys !! id; n ← sys_nodes sys !! id;
  if eventOk ev && forallb (signOk (sys_out sys)) (sigsOf ev) then
    match handle (configOf period id key) now ev n with
    | (Panic, _) => None
    | (_, n') => Some (mkSys (<[id := n']> (sys_nodes sys)) (<[id := n_out n']> (sys_out sys)))
    end
  else None.

Definition perform sys (now : Z) (a : Action) : option Sys :=
  match a with
  | AStart id =>
      key ← keys !! id;
      match sys_out sys !! id, start (configOf period id key) now genesis None with
      | None, Ok n => Some (mkSys (<[id := n]> (sys_nodes sys)) (<[id := n_out n]> (sys_out sys)))
      | _, _ => None
      end
  | ADeliver to from k =>
      match outOf (sys_out sys) from !! k with
      | Some (OBroadcast (NConsensus m)) => handleAt sys now to (EConsensus from m)
      | _ => None
      end
  | AEvent id ev => handleAt sys now id ev
  end.

Fixpoint performAll sys (now : Z) (l : list Action) : option Sys :=
  match l with
  | [] => Some sys
  | a :: l => sys' ← perform sys now a; performAll sys' (now + 1) l
  end.

(** *** Scripts are runs *)

Lemma aggPub_elem (u v : ValidateNode) vs :
  u ∈ v :: vs → (vn_BlsPubKey u : gset Z) ⊆ aggPub (vn_BlsPubKey v) vs.
Proof.
  assert (Hacc : ∀ l p, (p : gset Z) ⊆ aggPub p l).
  { induction l as [|x l IH]; intros p; cbn; [done|]. etrans; [|apply IH]. cbn. set_solver. }
  cut (∀ l p, u ∈ l → (vn_BlsPubKey u : gset Z) ⊆ aggPub p l).
  { intros Hl [->|Hu]%elem_of_cons; [apply Hacc|by apply Hl]. }
  induction l as [|x l IH]; intros p Hu; [by apply elem_of_nil in Hu|].
  apply elem_of_cons in Hu as [->|Hu]; cbn; [|by apply IH]. etrans; [|apply Hacc]. cbn. set_solver.
Qed.

(** Every validator has a key with its name. *)
Context (Hnames : ∀ u, u ∈ members nodes → vn_BlsPubKey u = ({[vn_NodeID u]} : gset Z)).

Lemma signOk_authentic w sign : signOk w sign = true → authentic nodes keys w sign.
Proof.
  unfold signOk, authentic, blsVerify. intros Hok v vs d u _ Hsub Hv Hu [k Hk].
  destruct (signDeserialize sign) as [s|]; [|done]. destruct (signVerify _ _ _) eqn:Hs; [|done].
  apply andb_true_iff in Hs as [Hp%bool_decide_eq_true Hd].
  rewrite forallb_forall in Hok, Hd.
  assert (Hx : vn_NodeID u ∈ (list_to_set s.*1 : gset Z)).
  { rewrite Hp. apply (aggPub_elem u v vs Hu). rewrite Hnames by by apply Hsub. set_solver. }
  apply elem_of_list_to_set, list_elem_of_fmap in Hx as ([i d'] & Hi & Hin%list_elem_of_In).
  specialize (Hok _ Hin). specialize (Hd _ Hin). cbn in Hi, Hok, Hd. subst i.
  apply bool_decide_eq_true in Hd as ->. change (@lookup Z Z (gmap Z Z) _ (vn_NodeID u) keys = Some k) in Hk. rewrite Hk in Hok.
  apply existsb_exists in Hok as (o & Ho%list_elem_of_In & Hr%bool_decide_eq_true). by exists o.
Qed.

Lemma handleAt_step sys now id ev sys' :
  handleAt sys now id ev = Some sys' → step nodes period genesis keys sys sys'.
Proof.
  unfold handleAt. intros Hh. apply bind_Some in Hh as (key & Hkey & Hh).
  apply bind_Some in Hh as (n & Hn & Hh).
  destruct (eventOk ev && _) eqn:Hok; [|done]. apply andb_true_iff in Hok as [Hok Hs].
  rewrite forallb_forall in Hs.
  assert (Forall (authentic nodes keys (sys_out sys)) (sigsOf ev)).
  { apply Forall_forall. intros x Hx%list_elem_of_In. by apply signOk_authentic, Hs. }
  destruct (handle _ _ _ _) as [r n'] eqn:Hr.
  destruct r; simplify_eq/=; by eapply step_handle.
Qed.

Lemma perform_step sys now a sys' :
  perform sys now a = Some sys' → step nodes period genesis keys sys sys'.
Proof.
  destruct a as [id|to from k|id ev]; cbn; intros Hp.
  - apply bind_Some in Hp as (key & Hkey & Hp). repeat case_match; simplify_eq/=.
    by eapply step_start.
  - repeat case_match; simplify_eq/=. by eapply handleAt_step.
  - by eapply handleAt_step.
Qed.

Lemma performAll_steps sys now l sys' :
  performAll sys now l = Some sys' → rtc (step nodes period genesis keys) sys sys'.
Proof.
  revert sys now. induction l as [|a l IH]; intros sys now Hp; cbn in Hp; [by simplify_eq|].
  apply bind_Some in Hp as (s & Ha & Hp). eapply rtc_l; [by eapply perform_step|by eapply IH].
Qed.
End run.

(** ** Four validators, one of them silent, commit a block *)

Module FourNodes.

Definition genesis : Block := mkBlock 0 0 0 0.
Definition block1 : Block := mkBlock 1 1 1 0.
Definition block2 : Block := mkBlock 2 2 2 0.
Definition block3 : Block := mkBlock 3 3 3 0.
Definition blocks : list Block := [genesis; block1; block2; block3].

Definition nodes : list (Z * Z * gset Z) :=
  [(1, 11, {[1]}); (2, 12, {[2]}); (3, 13, {[3]}); (4, 14, {[4]})].
Definition keys : gmap Z Z := {[1 := 1; 2 := 2; 3 := 3]}.
Definition period : Z := 1000.

(** Every node receives the given outputs of the others. *)
Definition exchange (l : list (Z * nat)) : list Action :=
  i ← l.*1; '(j, k) ← l; if i =? j then [] else [ADeliver i j k].

Definition executed (h n : Z) : list Action := (λ i, AEvent i (EExecuted h n true)) <$> [1; 2; 3].

(** Three heights: a proposal, its execution, the votes and the
    precommits. *)
Definition script : list Action :=
  [AStart 1; AStart 2; AStart 3;
   AEvent 1 (ESeal block1); ADeliver 2 1 3; ADeliver 3 1 3] ++ executed 2 1
  ++ exchange [(1, 5%nat); (2, 3%nat); (3, 3%nat)] ++ exchange [(1, 7%nat); (2, 5%nat); (3, 5%nat)]
  ++ [AEvent 2 (ESeal block2); ADeliver 1 2 12; ADeliver 3 2 12] ++ executed 3 2
  ++ exchange [(1, 13%nat); (2, 14%nat); (3, 12%nat)]
  ++ exchange [(1, 15%nat); (2, 16%nat); (3, 14%nat)]
  ++ [AEvent 3 (ESeal block3); ADeliver 1 3 22; ADeliver 2 3 22] ++ executed 4 3
  ++ exchange [(1, 23%nat); (2, 23%nat); (3, 24%nat)]
  ++ exchange [(1, 25%nat); (2, 25%nat); (3, 26%nat)].

Definition outcomeOf (l : list Action) : Sys :=
  default initial (performAll blocks nodes period genesis keys initial 1 l).

Definition committed (o : Output) : option Block :=
  match o with OCommit b _ => Some b | _ => None end.

Lemma committed_elem (b : Block) (out : list Output) :
  b ∈ omap committed out → ∃ q, OCommit b q ∈ out.
Proof.
  intros ([] & Ho & Hb)%list_elem_of_omap; simplify_eq/=. by eexists.
Qed.

Lemma names (u : ValidateNode (H := IdealCrypto blocks)) :
  u ∈ members (CR := IdealCrypto blocks) nodes → vn_BlsPubKey u = ({[vn_NodeID u]} : gset Z).
Proof.
  assert (Hall : forallb (λ u : ValidateNode (H := IdealCrypto blocks),
      bool_decide ((vn_BlsPubKey u : gset Z) = {[vn_NodeID u]}))
    (members (CR := IdealCrypto blocks) nodes) = true) by (vm_compute; reflexivity).
  rewrite forallb_forall in Hall. intros Hu%list_elem_of_In%Hall. by apply bool_decide_eq_true in Hu.
Qed.

Lemma script_runs :
  reachable (H := IdealCrypto blocks) nodes period genesis keys (outcomeOf script).
Proof.
  apply (performAll_steps blocks nodes period genesis keys names initial 1 script).
  assert (Hs : match performAll blocks nodes period genesis keys initial 1 script with
               | Some _ => true | None => false end = true) by (vm_compute; reflexivity).
  unfold outcomeOf. by destruct (performAll _ _ _ _ _ _ _ _).
Qed.

Lemma script_commits :
  forallb (λ i, bool_decide (omap committed (outOf (sys_out (outcomeOf script)) i)
                             = [block1; block2])) [1; 2; 3] = true.
Proof. vm_compute. reflexivity. Qed.

Lemma script_commit i b :
  In i [1; 2; 3] → In b [block1; block2] →
  ∃ q, OCommit b q ∈ outOf (sys_out (outcomeOf script)) i.
Proof.
  pose proof script_commits as Hs. rewrite forallb_forall in Hs. intros Hi%Hs Hb.
  apply bool_decide_eq_true in Hi. apply committed_elem. rewrite Hi. by apply list_elem_of_In.
Qed.

(** Node 1 still runs; it has no block of hash 9, and its height is small. *)
Lemma script_node :
  ∃ n, sys_nodes (outcomeOf script) !! 1 = Some n
       ∧ FindBlockByHash (n_tree n) 9 = None
       ∧ v_blockNumber (n_state n) + 1 < MaxUint64.
Proof.
  assert (Hs : match sys_nodes (outcomeOf script) !! 1 with
               | Some n => negb (bool_decide (is_Some (FindBlockByHash (n_tree n) 9)))
                           && (v_blockNumber (n_state n) + 1 <? MaxUint64)
               | None => false end = true) by (vm_compute; reflexivity).
  destruct (_ !! 1) as [n|]; [|done]. exists n. split; [done|].
  apply andb_true_iff in Hs as [Hf%negb_true_iff Hb%Z.ltb_lt]. split; [|done].
  apply bool_decide_eq_false in Hf. by apply eq_None_not_Some.
Qed.

Lemma genesis_first b : shortHash blocks b ≠ bParentHash genesis.
Proof. cbn. unfold shortHash. destruct (list_find _ _) as [[i x]|]; lia. Qed.

Lemma nodes_ok : nodesOk (CR := IdealCrypto blocks) nodes.
Proof. split; [|done]. apply (bool_decide_unpack _). vm_compute. done. Qed.

Lemma fault_bound : faultBound (CR := IdealCrypto blocks) nodes keys.
Proof. vm_compute. done. Qed.
End FourNodes.

(** *** The theorems of the network in this run *)

Section witnesses.
Import FourNodes.
#[local] Instance fourCrypto : Crypto := IdealCrypto blocks.

Lemma agreement_witness :
  ∃ (b b' : Block) q q',
    OCommit b q ∈ outOf (sys_out (outcomeOf script)) 1
    ∧ OCommit b' q' ∈ outOf (sys_out (outcomeOf script)) 2
    ∧ bNumber b = 1 ∧ bNumber b' = 1 ∧ b = b'.
Proof.
  destruct (script_commit 1 block1) as [q Hq]; [left; reflexivity..|].
  destruct (script_commit 2 block1) as [q' Hq']; [right; left; reflexivity|left; reflexivity|].
  exists block1, block1, q, q'.
  split; [exact Hq|]. split; [exact Hq'|]. do 2 (split; [reflexivity|]).
  exact (agreement (CR := fourCrypto) nodes period genesis keys (shortHash_inj blocks) eq_refl genesis_first
    nodes_ok fault_bound _ 1 2 _ q _ q' script_runs Hq Hq' eq_refl).
Defined.

Lemma committed_chain_witness :
  ∃ (a b : Block) q q',
    OCommit a q ∈ outOf (sys_out (outcomeOf script)) 3
    ∧ OCommit b q' ∈ outOf (sys_out (outcomeOf script)) 1
    ∧ bNumber a = 1 ∧ bNumber b = 2 ∧ bParentHash b = Hash a.
Proof.
  destruct (script_commit 3 block1) as [q Hq]; [do 2 right; left; reflexivity|left; reflexivity|].
  destruct (script_commit 1 block2) as [q' Hq']; [left; reflexivity|right; left; reflexivity|].
  exists block1, block2, q, q'.
  split; [exact Hq|]. split; [exact Hq'|]. do 2 (split; [reflexivity|]).
  exact (committed_chain (CR := fourCrypto) nodes period genesis keys (shortHash_inj blocks) eq_refl genesis_first
    nodes_ok fault_bound _ 3 1 _ q _ q' script_runs Hq Hq' eq_refl).
Defined.

Lemma unsigned_vote_stops_node_witness :
  ∃ n m sys', sys_nodes (outcomeOf script) !! 1 = Some n ∧ pv_Signature m = 0
    ∧ step nodes period genesis keys (outcomeOf script) sys'
    ∧ sys_nodes sys' = delete 1 (sys_nodes (outcomeOf script)).
Proof.
  destruct script_node as (n & Hn & Hh & Hb).
  destruct (unsigned_vote_stops_node (CR := fourCrypto) nodes period genesis keys
    (shortHash_inj blocks) eq_refl genesis_first nodes_ok fault_bound
    _ 1 1 n 9 0 script_runs eq_refl Hn Hh eq_refl Hb) as (m & sys' & Hm & _ & Hs & Hd).
  exists n, m, sys'. split; [exact Hn|]. split; [exact Hm|]. split; [exact Hs|exact Hd].
Defined.
(** The votes and the precommits of validators 1, 2 and 3. *)
Definition vote1 (i : Z) : PrepareVote :=
  signPrepareVote (configOf period i i) (mkPV 1 0 2 1 0 (i - 1) None 0).
Definition preCommit1 (i : Z) : PreCommit :=
  signPreCommit (configOf period i i) (mkPC 1 0 2 1 0 (i - 1) None 0).
Definition byIndex {A} (f : Z → A) : gmap Z A := {[0 := f 1; 1 := f 2; 2 := f 3]}.

Lemma byIndex_votes {A} (digest : A → list Z) (index sign : A → Z) d (f : Z → A) :
  forallb (λ i, (index (f i) =? i - 1) && bool_decide (digest (f i) = d)
                && match vs_Nodes (validators nodes) !! i with
                   | Some u => (vn_NodeID u =? i) && (vn_Index u =? i - 1)
                               && match blsVerify (vn_BlsPubKey u) d (sign (f i)) with
                                  | Ok _ => true | _ => false end
                   | None => false
                   end) [1; 2; 3] = true →
  votesOf (CR := fourCrypto) nodes digest index sign d (byIndex f).
Proof.
  intros Hall i a Hi. rewrite forallb_forall in Hall.
  assert (∃ j, In j [1; 2; 3] ∧ i = j - 1 ∧ a = f j) as (j & Hj%Hall & -> & ->).
  { unfold byIndex in Hi.
    apply lookup_insert_Some in Hi as [[<- <-]|[_ Hi]]; [exists 1; cbn; auto|].
    apply lookup_insert_Some in Hi as [[<- <-]|[_ Hi]]; [exists 2; cbn; auto|].
    apply lookup_singleton_Some in Hi as [<- <-]. exists 3; cbn; auto. }
  apply andb_true_iff in Hj as [[Hi'%Z.eqb_eq Hd%bool_decide_eq_true]%andb_true_iff Hu].
  split; [done|]. split; [done|]. destruct (_ !! j) as [u|] eqn:Hl; [|done].
  apply andb_true_iff in Hu as [[Hn%Z.eqb_eq Hx%Z.eqb_eq]%andb_true_iff Hv].
  exists u. split; [|split; [done|]].
  - apply members_lookup; [apply nodes_ok|]. by rewrite Hn.
  - by destruct (blsVerify _ _ _) as [[]| |].
Qed.

Lemma certificates_complete_witness :
  (∃ q, generatePrepareQC 4 (byIndex vote1) = Ok (Some q)
        ∧ verifyPrepareQC (staticPool nodes 4) 1 2 (Some q) = Ok tt)
  ∧ ∃ q, generatePreCommitQC 4 (byIndex preCommit1) = Ok (Some q)
         ∧ verifyPrepareQC (staticPool nodes 4) 1 2 (Some q) = Ok tt.
Proof.
  destruct (certificates_complete (CR := fourCrypto) nodes nodes_ok ltac:(done)
    (ideal_serialize blocks) (ideal_aggregate blocks) (ideal_comm blocks) (ideal_assoc blocks)
    ltac:(done) 0 2 1 0
    (byIndex vote1) (byIndex preCommit1) 4) as [Hv Hp].
  split.
  - apply Hv; [apply byIndex_votes; vm_compute; reflexivity|by vm_compute].
  - apply Hp; [apply byIndex_votes; vm_compute; reflexivity|by vm_compute].
Defined.
End witnesses.
