(* ===== verification/Accounts.v ===== *)
(** Accounts with a journal (src/ethereum/core/state).

    [AccountsDB] is the [StateDB] of the execution layer: the live objects of a
    block over those of its uncommitted parents and over the account trie, the
    journal of modifications and the snapshots.  A trie is the map of its
    contents, and a storage root stands for the contents it commits to; [None]
    is the zero hash.  Reads of the database do not fail. *)

From Stdlib Require Import Ascii String.
From S2P Require Import Prelude Keys StateDB.

Abbreviation bytes := (list Z).

(** The hash function, and the addresses for which the engine has code. *)
Class Hashing := { Keccak256 : bytes → bytes }.

Definition HashLength : nat := 32.

(** The last 32 bytes, filled up with zeroes on the left. *)
Definition BytesToHash (b : bytes) : bytes :=
  let b := drop (length b - HashLength) b in replicate (HashLength - length b) 0 ++ b.

Definition ValidatorInnerContractAddr : Z := 0x2000000000000000000000000000000000000000.

Definition IsPhoenixChainPrecompiledContract (addr : Z) : bool :=
  bool_decide (addr ∈ [ValidatorInnerContractAddr; StakingContractAddr; RestrictingContractAddr;
    SlashingContractAddr; GovContractAddr; RewardManagerPoolAddr; DelegateRewardPoolAddr]).

(** ** State objects *)

Abbreviation ValueStorage := (gmap bytes bytes).

Record Account := mkAccount {
  a_Nonce : Z;
  a_Balance : Z;
  a_Root : option ValueStorage;
  a_CodeHash : bytes;
  a_StorageKeyPrefix : bytes;
}.

Record stateObject := mkObject {
  so_address : Z;
  so_data : Account;
  (* nil until the storage is first read *)
  so_trie : option ValueStorage;
  (* nil until the code is loaded *)
  so_code : option bytes;
  so_originStorage : ValueStorage;
  so_dirtyStorage : ValueStorage;
  so_dirtyCode : bool;
  so_suicided : bool;
  so_deleted : bool;
}.

Definition setNonce (nonce : Z) (o : stateObject) : stateObject :=
  let d := so_data o in
  mkObject (so_address o)
    (mkAccount nonce (a_Balance d) (a_Root d) (a_CodeHash d) (a_StorageKeyPrefix d))
    (so_trie o) (so_code o) (so_originStorage o) (so_dirtyStorage o)
    (so_dirtyCode o) (so_suicided o) (so_deleted o).

Definition setBalance (amount : Z) (o : stateObject) : stateObject :=
  let d := so_data o in
  mkObject (so_address o)
    (mkAccount (a_Nonce d) amount (a_Root d) (a_CodeHash d) (a_StorageKeyPrefix d))
    (so_trie o) (so_code o) (so_originStorage o) (so_dirtyStorage o)
    (so_dirtyCode o) (so_suicided o) (so_deleted o).

Definition setCode (codeHash : bytes) (code : option bytes) (o : stateObject) : stateObject :=
  let d := so_data o in
  mkObject (so_address o)
    (mkAccount (a_Nonce d) (a_Balance d) (a_Root d) codeHash (a_StorageKeyPrefix d))
    (so_trie o) code (so_originStorage o) (so_dirtyStorage o)
    true (so_suicided o) (so_deleted o).

Definition setTrie (t : option ValueStorage) (root : option ValueStorage) (o : stateObject) :
    stateObject :=
  let d := so_data o in
  mkObject (so_address o)
    (mkAccount (a_Nonce d) (a_Balance d) root (a_CodeHash d) (a_StorageKeyPrefix d))
    t (so_code o) (so_originStorage o) (so_dirtyStorage o)
    (so_dirtyCode o) (so_suicided o) (so_deleted o).

Definition setCodeCache (code : option bytes) (o : stateObject) : stateObject :=
  mkObject (so_address o) (so_data o) (so_trie o) code (so_originStorage o) (so_dirtyStorage o)
    (so_dirtyCode o) (so_suicided o) (so_deleted o).

Definition setStorage (origin dirty : ValueStorage) (o : stateObject) : stateObject :=
  mkObject (so_address o) (so_data o) (so_trie o) (so_code o) origin dirty
    (so_dirtyCode o) (so_suicided o) (so_deleted o).

Definition setSuicided (b : bool) (o : stateObject) : stateObject :=
  mkObject (so_address o) (so_data o) (so_trie o) (so_code o) (so_originStorage o)
    (so_dirtyStorage o) (so_dirtyCode o) b (so_deleted o).

Definition setDeleted (o : stateObject) : stateObject :=
  mkObject (so_address o) (so_data o) (so_trie o) (so_code o) (so_originStorage o)
    (so_dirtyStorage o) (so_dirtyCode o) (so_suicided o) true.

Definition Balance (o : stateObject) : Z := a_Balance (so_data o).
Definition Nonce (o : stateObject) : Z := a_Nonce (so_data o).
Definition CodeHash (o : stateObject) : bytes := a_CodeHash (so_data o).

Section objects.
Context `{Hashing}.

Definition emptyCodeHash : bytes := Keccak256 [].

(** [newObject]; a new account has the hash of the empty code. *)
Definition newObject (addr : Z) (data : Account) : stateObject :=
  mkObject addr data None None ∅ ∅ false false false.

Definition newAccount (prefix : bytes) : Account := mkAccount 0 0 None emptyCodeHash prefix.

Definition objectEmpty (o : stateObject) : bool :=
  if IsPhoenixChainPrecompiledContract (so_address o) then false
  else (Nonce o =? 0) && (Balance o =? 0) && bool_decide (CodeHash o = emptyCodeHash).

Definition accountEmpty (a : Account) : bool :=
  (a_Nonce a =? 0) && (a_Balance a =? 0) && bool_decide (a_Root a = None)
  && bool_decide (a_CodeHash a = []) && bool_decide (a_StorageKeyPrefix a = []).

(** [copy]: what a block takes over from the object of its parent. *)
Definition copyObject (o : stateObject) : stateObject :=
  mkObject (so_address o) (so_data o) (so_trie o) (so_code o) ∅ ∅
    (so_dirtyCode o) (so_suicided o) (so_deleted o).

Definition getTrie (o : stateObject) : ValueStorage :=
  match so_trie o with Some t => t | None => default ∅ (a_Root (so_data o)) end.

(** [setState] *)
Definition setState (key value : bytes) (o : stateObject) : stateObject :=
  setStorage (so_originStorage o) (<[key := value]> (so_dirtyStorage o)) o.

Definition getPrefixValue (o : stateObject) (pack key value : bytes) : bytes :=
  match value with
  | [] => []
  | _ => BytesToHash (Keccak256 (a_StorageKeyPrefix (so_data o) ++ pack ++ key)) ++ value
  end.

Definition removePrefixValue (value : bytes) : bytes :=
  if (HashLength <? length value)%nat then drop HashLength value else [].

(** The loop of [updateTrie]: the new origin values and the new trie. *)
Definition updateEntry (acc : ValueStorage * ValueStorage) (kv : bytes * bytes) :
    ValueStorage * ValueStorage :=
  let '(origin, t) := acc in
  let '(key, value) := kv in
  if bool_decide (value = default [] (origin !! key)) then (origin, t)
  else (<[key := value]> origin,
        match value with [] => delete key t | _ => <[key := value]> t end).

Definition updateTrie (o : stateObject) : stateObject :=
  let '(origin, t) :=
    foldl updateEntry (so_originStorage o, getTrie o) (map_to_list (so_dirtyStorage o)) in
  setTrie (Some t) (a_Root (so_data o)) (setStorage origin ∅ o).

Definition updateRoot (o : stateObject) : stateObject :=
  let o := updateTrie o in setTrie (so_trie o) (so_trie o) o.
End objects.

(** ** The journal *)

Inductive journalEntry :=
  | createObjectChange (account : Z)
  | resetObjectChange (prev : stateObject)
  | suicideChange (account : Z) (prev : bool) (prevbalance : Z)
  | balanceChange (account prev : Z)
  | nonceChange (account prev : Z)
  | storageChange (account : Z) (key preValue : bytes)
  | codeChange (account : Z) (prevcode : option bytes) (prevhash : bytes)
  | refundChange (prev : Z)
  | addLogChange (txhash : bytes)
  | addPreimageChange (hash : bytes)
  | touchChange (account : Z).

Definition dirtied (e : journalEntry) : option Z :=
  match e with
  | createObjectChange a | suicideChange a _ _ | balanceChange a _ | nonceChange a _
  | storageChange a _ _ | codeChange a _ _ | touchChange a => Some a
  | resetObjectChange _ | refundChange _ | addLogChange _ | addPreimageChange _ => None
  end.

Record journal := mkJournal {
  j_entries : list journalEntry;
  j_dirties : gmap Z Z;
}.

Definition newJournal : journal := mkJournal [] ∅.

Definition bumpDirty (a : Z) (m : gmap Z Z) : gmap Z Z := <[a := default 0 (m !! a) + 1]> m.

(** [append] and [dirty] *)
Definition journalAppend (e : journalEntry) (j : journal) : journal :=
  mkJournal (j_entries j ++ [e])
    (match dirtied e with Some a => bumpDirty a (j_dirties j) | None => j_dirties j end).

Definition journalDirty (a : Z) (j : journal) : journal :=
  mkJournal (j_entries j) (bumpDirty a (j_dirties j)).

(** The count of an address goes down, and its entry goes with the last one. *)
Definition dropDirty (a : Z) (m : gmap Z Z) : gmap Z Z :=
  let n := default 0 (m !! a) - 1 in
  if n =? 0 then delete a m else <[a := n]> m.

(** ** The state *)

Record Log := mkLog {
  l_TxHash : bytes;
  l_BlockHash : bytes;
  l_TxIndex : Z;
  l_Index : Z;
  (* address, topics, data and block number *)
  l_Content : Z * list bytes * bytes * Z;
}.

Record AccountsDB := mkDB {
  (* the code of the database by hash, and the account trie *)
  sd_codes : gmap bytes bytes;
  sd_trie : gmap Z Account;
  (* the live objects *)
  sd_objects : gmap Z stateObject;
  sd_dirty : gset Z;
  sd_refund : Z;
  sd_thash : bytes;
  sd_bhash : bytes;
  sd_txIndex : Z;
  sd_logs : gmap bytes (list Log);
  sd_logSize : Z;
  sd_preimages : gmap bytes bytes;
  sd_journal : journal;
  sd_revisions : list (Z * nat);
  sd_nextRevision : Z;
  (* the objects of the parents, the nearest first, each with the flag
     [parentCommitted] of the state whose parent it is *)
  sd_parents : list (bool * gmap Z stateObject);
  sd_originRoot : bytes;
  (* the number of children that refer to this state *)
  sd_children : nat;
}.

Definition with_objects (f : gmap Z stateObject → gmap Z stateObject) (s : AccountsDB) :
    AccountsDB :=
  mkDB (sd_codes s) (sd_trie s) (f (sd_objects s)) (sd_dirty s) (sd_refund s) (sd_thash s)
    (sd_bhash s) (sd_txIndex s) (sd_logs s) (sd_logSize s) (sd_preimages s) (sd_journal s)
    (sd_revisions s) (sd_nextRevision s) (sd_parents s) (sd_originRoot s) (sd_children s).

Definition with_trie (f : gmap Z Account → gmap Z Account) (s : AccountsDB) : AccountsDB :=
  mkDB (sd_codes s) (f (sd_trie s)) (sd_objects s) (sd_dirty s) (sd_refund s) (sd_thash s)
    (sd_bhash s) (sd_txIndex s) (sd_logs s) (sd_logSize s) (sd_preimages s) (sd_journal s)
    (sd_revisions s) (sd_nextRevision s) (sd_parents s) (sd_originRoot s) (sd_children s).

Definition with_dirty (f : gset Z → gset Z) (s : AccountsDB) : AccountsDB :=
  mkDB (sd_codes s) (sd_trie s) (sd_objects s) (f (sd_dirty s)) (sd_refund s) (sd_thash s)
    (sd_bhash s) (sd_txIndex s) (sd_logs s) (sd_logSize s) (sd_preimages s) (sd_journal s)
    (sd_revisions s) (sd_nextRevision s) (sd_parents s) (sd_originRoot s) (sd_children s).

Definition with_refund (x : Z) (s : AccountsDB) : AccountsDB :=
  mkDB (sd_codes s) (sd_trie s) (sd_objects s) (sd_dirty s) x (sd_thash s)
    (sd_bhash s) (sd_txIndex s) (sd_logs s) (sd_logSize s) (sd_preimages s) (sd_journal s)
    (sd_revisions s) (sd_nextRevision s) (sd_parents s) (sd_originRoot s) (sd_children s).

Definition with_logs (m : gmap bytes (list Log)) (size : Z) (s : AccountsDB) : AccountsDB :=
  mkDB (sd_codes s) (sd_trie s) (sd_objects s) (sd_dirty s) (sd_refund s) (sd_thash s)
    (sd_bhash s) (sd_txIndex s) m size (sd_preimages s) (sd_journal s)
    (sd_revisions s) (sd_nextRevision s) (sd_parents s) (sd_originRoot s) (sd_children s).

Definition with_preimages (m : gmap bytes bytes) (s : AccountsDB) : AccountsDB :=
  mkDB (sd_codes s) (sd_trie s) (sd_objects s) (sd_dirty s) (sd_refund s) (sd_thash s)
    (sd_bhash s) (sd_txIndex s) (sd_logs s) (sd_logSize s) m (sd_journal s)
    (sd_revisions s) (sd_nextRevision s) (sd_parents s) (sd_originRoot s) (sd_children s).

Definition with_journal (f : journal → journal) (s : AccountsDB) : AccountsDB :=
  mkDB (sd_codes s) (sd_trie s) (sd_objects s) (sd_dirty s) (sd_refund s) (sd_thash s)
    (sd_bhash s) (sd_txIndex s) (sd_logs s) (sd_logSize s) (sd_preimages s) (f (sd_journal s))
    (sd_revisions s) (sd_nextRevision s) (sd_parents s) (sd_originRoot s) (sd_children s).

Definition with_revisions (l : list (Z * nat)) (next : Z) (s : AccountsDB) : AccountsDB :=
  mkDB (sd_codes s) (sd_trie s) (sd_objects s) (sd_dirty s) (sd_refund s) (sd_thash s)
    (sd_bhash s) (sd_txIndex s) (sd_logs s) (sd_logSize s) (sd_preimages s) (sd_journal s)
    l next (sd_parents s) (sd_originRoot s) (sd_children s).

Definition with_tx (thash bhash : bytes) (i : Z) (s : AccountsDB) : AccountsDB :=
  mkDB (sd_codes s) (sd_trie s) (sd_objects s) (sd_dirty s) (sd_refund s) thash
    bhash i (sd_logs s) (sd_logSize s) (sd_preimages s) (sd_journal s)
    (sd_revisions s) (sd_nextRevision s) (sd_parents s) (sd_originRoot s) (sd_children s).

Definition with_children (n : nat) (s : AccountsDB) : AccountsDB :=
  mkDB (sd_codes s) (sd_trie s) (sd_objects s) (sd_dirty s) (sd_refund s) (sd_thash s)
    (sd_bhash s) (sd_txIndex s) (sd_logs s) (sd_logSize s) (sd_preimages s) (sd_journal s)
    (sd_revisions s) (sd_nextRevision s) (sd_parents s) (sd_originRoot s) n.

(** [New], and [NewStateDB] of a parent: the new state and the parent, which
    gets a reference to it. *)
Definition New (codes : gmap bytes bytes) (trie : gmap Z Account) (root : bytes) : AccountsDB :=
  mkDB codes trie ∅ ∅ 0 [] [] 0 ∅ 0 ∅ newJournal [] 0 [] root 0.

Definition NewStateDB (root : bytes) (s : AccountsDB) : AccountsDB * AccountsDB :=
  (mkDB (sd_codes s) (sd_trie s) ∅ ∅ 0 [] [] 0 ∅ 0 ∅ newJournal [] 0
     ((false, sd_objects s) :: sd_parents s) root 0,
   with_children (S (sd_children s)) s).

(** [clearParentRef]: the parent has been committed. *)
Definition clearParentRef (s : AccountsDB) : AccountsDB :=
  mkDB (sd_codes s) (sd_trie s) (sd_objects s) (sd_dirty s) (sd_refund s) (sd_thash s)
    (sd_bhash s) (sd_txIndex s) (sd_logs s) (sd_logSize s) (sd_preimages s) (sd_journal s)
    (sd_revisions s) (sd_nextRevision s) [] (sd_originRoot s) (sd_children s).

(** ** Finding objects *)

Definition getStateObjectLocalCache (objs : gmap Z stateObject) (addr : Z) : option stateObject :=
  match objs !! addr with
  | Some o => if so_deleted o then None else Some o
  | None => None
  end.

Definition getStateObjectSnapshot (objs : gmap Z stateObject) (addr : Z) (key : bytes) :
    option bytes :=
  match objs !! addr with
  | Some o =>
      if so_deleted o then None
      else match so_dirtyStorage o !! key with
           | Some v => Some v
           | None => so_originStorage o !! key
           end
  | None => None
  end.

(** The walk over the parents: the first that answers, or none from the
    first committed one on. *)
Fixpoint walkParents {A} (f : gmap Z stateObject → option A)
    (ps : list (bool * gmap Z stateObject)) : option A :=
  match ps with
  | [] => None
  | (committed, objs) :: ps =>
      match f objs with
      | Some a => Some a
      | None => if committed then None else walkParents f ps
      end
  end.

Definition parentObject (s : AccountsDB) (addr : Z) : option stateObject :=
  walkParents (λ objs, getStateObjectLocalCache objs addr) (sd_parents s).

Definition parentStorage (s : AccountsDB) (addr : Z) (key : bytes) : option bytes :=
  walkParents (λ objs, getStateObjectSnapshot objs addr key) (sd_parents s).

Definition setStateObject (o : stateObject) : M AccountsDB unit :=
  s ← get;
  if (0 <? sd_children s)%nat then panic
  else modify (with_objects (<[so_address o := o]>)).

Definition getStateObjectCache (addr : Z) : M AccountsDB (option stateObject) :=
  s ← get;
  match sd_objects s !! addr with
  | Some o => mret (Some o)
  | None =>
      match parentObject s addr with
      | Some o => let cpy := copyObject o in setStateObject cpy;; mret (Some cpy)
      | None => mret None
      end
  end.

(** The account of the trie; one without any content gets its prefix. *)
Definition loadAccount (addr : Z) (d : Account) : Account :=
  if accountEmpty d
  then mkAccount (a_Nonce d) (a_Balance d) (a_Root d) (a_CodeHash d) (address_bytes addr)
  else d.

Definition getStateObject (addr : Z) : M AccountsDB (option stateObject) :=
  c ← getStateObjectCache addr;
  match c with
  | Some o => mret (if so_deleted o then None else Some o)
  | None =>
      s ← get;
      match sd_trie s !! addr with
      | Some d =>
          let o := newObject addr (loadAccount addr d) in
          setStateObject o;; mret (Some o)
      | None => mret None
      end
  end.

(** Write through the pointer to a live object. *)
Definition mutate (addr : Z) (f : stateObject → stateObject) : M AccountsDB unit :=
  modify (with_objects (alter f addr)).

Definition append (e : journalEntry) : M AccountsDB unit :=
  modify (with_journal (journalAppend e)).

Section operations.
Context `{Hashing}.

(** ** Creating accounts *)

Definition createObject (addr : Z) : M AccountsDB (stateObject * option stateObject) :=
  prev ← getStateObject addr;
  match prev with
  | None =>
      let o := newObject addr (newAccount (address_bytes addr)) in
      append (createObjectChange addr);;
      setStateObject o;;
      mret (o, None)
  | Some p =>
      let o := newObject addr (newAccount (a_StorageKeyPrefix (so_data p))) in
      append (resetObjectChange p);;
      setStateObject o;;
      mret (o, Some p)
  end.

Definition GetOrNewStateObject (addr : Z) : M AccountsDB stateObject :=
  o ← getStateObject addr;
  match o with
  | Some o => mret o
  | None => p ← createObject addr; mret (fst p)
  end.

Definition CreateAccount (addr : Z) : M AccountsDB unit :=
  p ← createObject addr;
  match snd p with
  | Some prev => mutate addr (setBalance (Balance prev))
  | None => mret tt
  end.

(** ** Reading accounts *)

Definition Exist (addr : Z) : M AccountsDB bool :=
  o ← getStateObject addr; mret (bool_decide (is_Some o)).

Definition Empty (addr : Z) : M AccountsDB bool :=
  o ← getStateObject addr;
  mret (match o with Some o => objectEmpty o | None => true end).

Definition GetBalance (addr : Z) : M AccountsDB Z :=
  o ← getStateObject addr;
  mret (match o with Some o => Balance o | None => 0 end).

Definition GetNonce (addr : Z) : M AccountsDB Z :=
  o ← getStateObject addr;
  mret (match o with Some o => Nonce o | None => 0 end).

Definition GetCodeHash (addr : Z) : M AccountsDB bytes :=
  o ← getStateObject addr;
  mret (match o with
        | Some o => BytesToHash (CodeHash o)
        | None => replicate HashLength 0
        end).

Definition HasSuicided (addr : Z) : M AccountsDB bool :=
  o ← getStateObject addr;
  mret (match o with Some o => so_suicided o | None => false end).

(** [Code]: the code of an object, which stays with it once loaded. *)
Definition codeOf (codes : gmap bytes bytes) (o : stateObject) : option bytes :=
  match so_code o with
  | Some c => Some c
  | None =>
      if bool_decide (CodeHash o = emptyCodeHash) then None
      else codes !! BytesToHash (CodeHash o)
  end.

Definition Code (o : stateObject) : M AccountsDB (option bytes) :=
  codes ← gets sd_codes;
  let c := codeOf codes o in
  mutate (so_address o) (setCodeCache c);;
  mret c.

Definition GetCode (addr : Z) : M AccountsDB (option bytes) :=
  o ← getStateObject addr;
  match o with Some o => Code o | None => mret None end.

Definition GetCodeSize (addr : Z) : M AccountsDB nat :=
  o ← getStateObject addr;
  match o with
  | None => mret 0%nat
  | Some o =>
      match so_code o with
      | Some c => mret (length c)
      | None =>
          codes ← gets sd_codes;
          mret (length (default [] (codes !! BytesToHash (CodeHash o))))
      end
  end.

(** ** Reading storage *)

(** A value that has been read stays with the object, with the trie if it has
    been opened. *)
Definition rememberState (cached : option bytes) (key value : bytes) (o : stateObject) :
    stateObject :=
  let o := setStorage (<[key := value]> (so_originStorage o)) (so_dirtyStorage o) o in
  match cached with
  | Some (_ :: _) => o
  | _ => setTrie (Some (getTrie o)) (a_Root (so_data o)) o
  end.

(** [getCommittedStateCache] and [GetCommittedState] of an object: a value of
    the object, of a parent, or of the trie. *)
Definition soGetCommittedState (o : stateObject) (key : bytes) : M AccountsDB bytes :=
  s ← get;
  let cached := match so_originStorage o !! key with
                | Some v => Some v
                | None => parentStorage s (so_address o) key
                end in
  let value := match cached with
               | Some (b :: v) => b :: v
               | _ => default [] (getTrie o !! key)
               end in
  mutate (so_address o) (rememberState cached key value);;
  mret value.

Definition soGetState (o : stateObject) (key : bytes) : M AccountsDB bytes :=
  match so_dirtyStorage o !! key with
  | Some v => mret v
  | None => soGetCommittedState o key
  end.

Definition GetState (addr : Z) (key : bytes) : M AccountsDB bytes :=
  o ← getStateObject addr;
  match o with
  | Some o => v ← soGetState o key; mret (removePrefixValue v)
  | None => mret []
  end.

Definition GetCommittedState (addr : Z) (key : bytes) : M AccountsDB bytes :=
  o ← getStateObject addr;
  match o with
  | Some o => v ← soGetCommittedState o key; mret (removePrefixValue v)
  | None => mret []
  end.

(** ** Journaled modifications *)

Definition ripemd : Z := 3.

Definition touch (addr : Z) : M AccountsDB unit :=
  append (touchChange addr);;
  when (addr =? ripemd) (modify (with_journal (journalDirty addr))).

Definition soSetBalance (o : stateObject) (amount : Z) : M AccountsDB unit :=
  append (balanceChange (so_address o) (Balance o));;
  mutate (so_address o) (setBalance amount).

Definition soAddBalance (o : stateObject) (amount : Z) : M AccountsDB unit :=
  if amount =? 0 then when (objectEmpty o) (touch (so_address o))
  else soSetBalance o (Balance o + amount).

Definition soSubBalance (o : stateObject) (amount : Z) : M AccountsDB unit :=
  if amount =? 0 then mret tt else soSetBalance o (Balance o - amount).

Definition AddBalance (addr amount : Z) : M AccountsDB unit :=
  o ← GetOrNewStateObject addr; soAddBalance o amount.

Definition SubBalance (addr amount : Z) : M AccountsDB unit :=
  o ← GetOrNewStateObject addr; soSubBalance o amount.

Definition SetBalance (addr amount : Z) : M AccountsDB unit :=
  o ← GetOrNewStateObject addr; soSetBalance o amount.

Definition AddMinerEarnings (addr amount : Z) : M AccountsDB unit :=
  o ← GetOrNewStateObject addr; soAddBalance o amount.

Definition SetNonce (addr nonce : Z) : M AccountsDB unit :=
  o ← GetOrNewStateObject addr;
  append (nonceChange addr (Nonce o));;
  mutate addr (setNonce nonce).

Definition SetCode (addr : Z) (code : bytes) : M AccountsDB unit :=
  o ← GetOrNewStateObject addr;
  prevcode ← Code o;
  append (codeChange addr prevcode (CodeHash o));;
  mutate addr (setCode (BytesToHash (Keccak256 code)) (Some code)).

Definition SetState (addr : Z) (key value : bytes) : M AccountsDB unit :=
  o ← GetOrNewStateObject addr;
  pack ← gets sd_originRoot;
  let value := getPrefixValue o pack key value in
  preValue ← soGetState o key;
  if bool_decide (preValue = value) then mret tt
  else append (storageChange addr key preValue);;
       mutate addr (setState key value).

Definition Suicide (addr : Z) : M AccountsDB bool :=
  o ← getStateObject addr;
  match o with
  | None => mret false
  | Some o =>
      append (suicideChange addr (so_suicided o) (Balance o));;
      mutate addr (λ o, setBalance 0 (setSuicided true o));;
      mret true
  end.

Definition AddLog (content : Z * list bytes * bytes * Z) : M AccountsDB unit :=
  s ← get;
  append (addLogChange (sd_thash s));;
  let log := mkLog (sd_thash s) (sd_bhash s) (sd_txIndex s) (sd_logSize s) content in
  modify (with_logs
    (<[sd_thash s := default [] (sd_logs s !! sd_thash s) ++ [log]]> (sd_logs s))
    (u64 (sd_logSize s + 1))).

Definition AddPreimage (hash preimage : bytes) : M AccountsDB unit :=
  s ← get;
  match sd_preimages s !! hash with
  | Some _ => mret tt
  | None =>
      append (addPreimageChange hash);;
      modify (with_preimages (<[hash := preimage]> (sd_preimages s)))
  end.

Definition AddRefund (gas : Z) : M AccountsDB unit :=
  r ← gets sd_refund;
  append (refundChange r);;
  modify (with_refund (u64 (r + gas))).

Definition SubRefund (gas : Z) : M AccountsDB unit :=
  r ← gets sd_refund;
  append (refundChange r);;
  if r <? gas then panic else modify (with_refund (r - gas)).

(** ** Reverting *)

(** What a change does to the object it has been made to; the object is there
    unless the change is a suicide. *)
Definition revertObject (addr : Z) (f : stateObject → stateObject) : M AccountsDB unit :=
  o ← getStateObject addr;
  match o with Some _ => mutate addr f | None => panic end.

Definition revertEntry (e : journalEntry) : M AccountsDB unit :=
  match e with
  | createObjectChange a =>
      modify (λ s, with_dirty (λ d, d ∖ {[a]}) (with_objects (delete a) s))
  | resetObjectChange prev => setStateObject prev
  | suicideChange a prev prevbalance =>
      o ← getStateObject a;
      match o with
      | Some _ => mutate a (λ o, setBalance prevbalance (setSuicided prev o))
      | None => mret tt
      end
  | balanceChange a prev => revertObject a (setBalance prev)
  | nonceChange a prev => revertObject a (setNonce prev)
  | codeChange a prevcode prevhash => revertObject a (setCode (BytesToHash prevhash) prevcode)
  | storageChange a key preValue => revertObject a (setState key preValue)
  | refundChange prev => modify (with_refund prev)
  | addLogChange txhash =>
      s ← get;
      let logs := default [] (sd_logs s !! txhash) in
      match logs with
      | [] => panic
      | [_] => modify (with_logs (delete txhash (sd_logs s)) (u64 (sd_logSize s - 1)))
      | _ => modify (with_logs (<[txhash := removelast logs]> (sd_logs s))
                       (u64 (sd_logSize s - 1)))
      end
  | addPreimageChange hash => modify (λ s, with_preimages (delete hash (sd_preimages s)) s)
  | touchChange _ => mret tt
  end.

(** The body of the loop of [journal.revert]. *)
Definition undo (e : journalEntry) : M AccountsDB unit :=
  revertEntry e;;
  match dirtied e with
  | Some a => modify (with_journal (λ j, mkJournal (j_entries j) (dropDirty a (j_dirties j))))
  | None => mret tt
  end.

Definition journalRevert (snapshot : nat) : M AccountsDB unit :=
  s ← get;
  for_each undo (reverse (drop snapshot (j_entries (sd_journal s))));;
  modify (with_journal (λ j, mkJournal (take snapshot (j_entries j)) (j_dirties j))).

Definition Snapshot : M AccountsDB Z :=
  s ← get;
  let id := sd_nextRevision s in
  modify (with_revisions (sd_revisions s ++ [(id, length (j_entries (sd_journal s)))]) (id + 1));;
  mret id.

(** The search is for the first revision with at least the given number. *)
Definition RevertToSnapshot (revid : Z) : M AccountsDB unit :=
  s ← get;
  match list_find (λ r, revid <= fst r) (sd_revisions s) with
  | Some (idx, (id, snapshot)) =>
      if id =? revid then
        journalRevert snapshot;;
        modify (λ s, with_revisions (take idx (sd_revisions s)) (sd_nextRevision s) s)
      else panic
  | None => panic
  end.

(** ** The end of a transaction and of a block *)

Definition clearJournalAndRefund (s : AccountsDB) : AccountsDB :=
  with_refund 0 (with_revisions [] (sd_nextRevision s) (with_journal (λ _, newJournal) s)).

Definition deleteStateObject (addr : Z) (s : AccountsDB) : AccountsDB :=
  with_trie (delete addr) (with_objects (alter setDeleted addr) s).

(** An object is written to its trie, and the account to the trie of accounts. *)
Definition updateStateObject (addr : Z) (o : stateObject) (s : AccountsDB) : AccountsDB :=
  with_trie (<[addr := so_data o]>) (with_objects (<[addr := o]>) s).

Definition finaliseOne (deleteEmptyObjects : bool) (addr : Z) (s : AccountsDB) : AccountsDB :=
  match sd_objects s !! addr with
  | None => s
  | Some o =>
      let s := if so_suicided o || deleteEmptyObjects && objectEmpty o
               then deleteStateObject addr s
               else updateStateObject addr (updateRoot o) s in
      with_dirty ({[addr]} ∪.) s
  end.

Definition Finalise (deleteEmptyObjects : bool) (s : AccountsDB) : AccountsDB :=
  clearJournalAndRefund
    (foldr (finaliseOne deleteEmptyObjects) s (fst <$> map_to_list (j_dirties (sd_journal s)))).

Definition Prepare (thash bhash : bytes) (ti : Z) : AccountsDB → AccountsDB :=
  with_tx thash bhash ti.

Definition IncreaseTxIdx (s : AccountsDB) : AccountsDB :=
  with_tx (sd_thash s) (sd_bhash s) (sd_txIndex s + 1) s.

(** The code of an object goes to the database, its storage to its trie. *)
Definition commitOne (deleteEmptyObjects : bool) (addr : Z) (s : AccountsDB) : AccountsDB :=
  match sd_objects s !! addr with
  | None => s
  | Some o =>
      let isDirty := bool_decide (addr ∈ sd_dirty s) in
      let s' :=
        if so_suicided o || isDirty && deleteEmptyObjects && objectEmpty o
        then deleteStateObject addr s
        else if isDirty then
          let codes := match so_code o with
                       | Some c => if so_dirtyCode o
                                   then <[BytesToHash (CodeHash o) := c]> (sd_codes s)
                                   else sd_codes s
                       | None => sd_codes s
                       end in
          let clean := match so_code o with Some _ => false | None => so_dirtyCode o end in
          let o := updateRoot o in
          let o := mkObject (so_address o) (so_data o) (so_trie o) (so_code o)
                     (so_originStorage o) (so_dirtyStorage o) clean (so_suicided o)
                     (so_deleted o) in
          updateStateObject addr o
            (mkDB codes (sd_trie s) (sd_objects s) (sd_dirty s) (sd_refund s) (sd_thash s)
               (sd_bhash s) (sd_txIndex s) (sd_logs s) (sd_logSize s) (sd_preimages s)
               (sd_journal s) (sd_revisions s) (sd_nextRevision s) (sd_parents s)
               (sd_originRoot s) (sd_children s))
        else s in
      with_dirty (.∖ {[addr]}) s'
  end.

Definition Commit (deleteEmptyObjects : bool) (s : AccountsDB) : AccountsDB :=
  let s := with_dirty (dom (j_dirties (sd_journal s)) ∪.) s in
  clearJournalAndRefund
    (foldr (commitOne deleteEmptyObjects) s (fst <$> map_to_list (sd_objects s))).
End operations.

(** ** Hashes *)

Lemma length_BytesToHash b : length (BytesToHash b) = HashLength.
Proof. unfold BytesToHash. rewrite length_app, length_replicate, length_drop. lia. Qed.

Lemma BytesToHash_id b : length b = HashLength → BytesToHash b = b.
Proof. intros Hb. unfold BytesToHash. by rewrite Hb, Nat.sub_diag, drop_0, Hb. Qed.
