(* ===== verification/AccountsProofs.v ===== *)
(** What a revert restores.

    [same_view] compares two states by what can be read of them, caches
    aside.  Every journaled operation leaves entries whose undoing leads back
    to the same view, so a revert restores the view of its snapshot, through
    snapshots and reverts in between. *)

From Stdlib Require Import Ascii String.
From S2P Require Import Prelude Keys StateDB Accounts.

Section view.
Context `{Hashing}.

(** ** Objects as they are read *)

(** The object an address leads to, deleted ones included. *)
Definition resolve (s : AccountsDB) (a : Z) : option stateObject :=
  match sd_objects s !! a with
  | Some o => Some o
  | None =>
      match parentObject s a with
      | Some o => Some (copyObject o)
      | None => (λ d, newObject a (loadAccount a d)) <$> sd_trie s !! a
      end
  end.

Definition present (o : stateObject) : option stateObject :=
  if so_deleted o then None else Some o.

Definition live (s : AccountsDB) (a : Z) : option stateObject := resolve s a ≫= present.

(** What the storage of an object reads at a key. *)
Definition committedState (s : AccountsDB) (o : stateObject) (key : bytes) : bytes :=
  match (match so_originStorage o !! key with
         | Some v => Some v
         | None => parentStorage s (so_address o) key
         end) with
  | Some (b :: v) => b :: v
  | _ => default [] (getTrie o !! key)
  end.

Definition readState (s : AccountsDB) (o : stateObject) (key : bytes) : bytes :=
  match so_dirtyStorage o !! key with Some v => v | None => committedState s o key end.

(** Two objects that read the same in [s]. *)
Record same_object (s : AccountsDB) (o1 o2 : stateObject) : Prop := {
  same_address : so_address o1 = so_address o2;
  same_data : so_data o1 = so_data o2;
  same_trie : getTrie o1 = getTrie o2;
  same_code : codeOf (sd_codes s) o1 = codeOf (sd_codes s) o2;
  same_storage : ∀ k, readState s o1 k = readState s o2 k;
  same_suicided : so_suicided o1 = so_suicided o2;
}.

(** What no operation of a transaction changes. *)
Record same_base (s1 s2 : AccountsDB) : Prop := {
  same_codes : sd_codes s1 = sd_codes s2;
  same_trie_of_accounts : sd_trie s1 = sd_trie s2;
  same_parents : sd_parents s1 = sd_parents s2;
  same_root : sd_originRoot s1 = sd_originRoot s2;
  same_thash : sd_thash s1 = sd_thash s2;
  same_bhash : sd_bhash s1 = sd_bhash s2;
  same_txIndex : sd_txIndex s1 = sd_txIndex s2;
  same_children : sd_children s1 = sd_children s2;
}.

Record same_view (s1 s2 : AccountsDB) : Prop := {
  view_base : same_base s1 s2;
  view_live : ∀ a, option_Forall2 (same_object s1) (live s1 a) (live s2 a);
  view_refund : sd_refund s1 = sd_refund s2;
  view_logs : sd_logs s1 = sd_logs s2;
  view_logSize : sd_logSize s1 = sd_logSize s2;
  view_preimages : sd_preimages s1 = sd_preimages s2;
}.

(** ** Well-formed states *)

Record good_object (a : Z) (o : stateObject) : Prop := {
  good_address : so_address o = a;
  good_hash : length (CodeHash o) = HashLength;
}.

Definition good_entry (e : journalEntry) : Prop :=
  match e with
  | resetObjectChange p => good_object (so_address p) p ∧ so_deleted p = false
  | _ => True
  end.

(** A state that is being executed: no children, and no deleted object that
    hides one of a parent or of the trie. *)
Record good_state (s : AccountsDB) : Prop := {
  good_children : sd_children s = 0%nat;
  good_objects : ∀ a o, sd_objects s !! a = Some o → good_object a o;
  good_parents : ∀ a o, parentObject s a = Some o → good_object a o;
  good_trie : ∀ a d, sd_trie s !! a = Some d → length (a_CodeHash d) = HashLength;
  good_deleted : ∀ a o, sd_objects s !! a = Some o → so_deleted o = true →
    parentObject s a = None ∧ sd_trie s !! a = None;
  good_entries : Forall good_entry (j_entries (sd_journal s));
  good_logSize : in_u64 (sd_logSize s);
  good_logs : ∀ h, sd_logs s !! h ≠ Some [];
}.

(** ** The view is an equivalence *)

#[export] Instance same_object_equiv s : Equivalence (same_object s).
Proof.
  split.
  - intros o. by split.
  - intros o1 o2 [? ? ? ? Hk ?]. split; [done..| |done]. intros k. by rewrite Hk.
  - intros o1 o2 o3 [] []. split; congruence.
Qed.

#[export] Instance same_base_equiv : Equivalence same_base.
Proof.
  split.
  - by split.
  - intros s1 s2 []. by split.
  - intros s1 s2 s3 [] []. split; congruence.
Qed.

Lemma parentStorage_base s1 s2 a k :
  same_base s1 s2 → parentStorage s1 a k = parentStorage s2 a k.
Proof. intros []. unfold parentStorage. congruence. Qed.

Lemma parentObject_base s1 s2 a : same_base s1 s2 → parentObject s1 a = parentObject s2 a.
Proof. intros []. unfold parentObject. congruence. Qed.

Lemma readState_base s1 s2 o k : same_base s1 s2 → readState s1 o k = readState s2 o k.
Proof.
  intros Hb. unfold readState, committedState.
  by rewrite (parentStorage_base _ _ _ _ Hb).
Qed.

Lemma same_object_base s1 s2 o1 o2 :
  same_base s1 s2 → same_object s1 o1 o2 → same_object s2 o1 o2.
Proof.
  intros Hb [? ? ? Hc Hk ?]. split; try done.
  - by rewrite <- (same_codes _ _ Hb).
  - intros k. by rewrite <- !(readState_base _ _ _ _ Hb).
Qed.

Lemma same_objects_base s1 s2 x y :
  same_base s1 s2 → option_Forall2 (same_object s1) x y → option_Forall2 (same_object s2) x y.
Proof. intros Hb []; constructor. by eapply same_object_base. Qed.

#[export] Instance same_view_equiv : Equivalence same_view.
Proof.
  split.
  - intros s. by split.
  - intros s1 s2 [Hb Hl ? ? ? ?]. split; [by symmetry| |done..].
    intros a. symmetry. by eapply same_objects_base.
  - intros s1 s2 s3 [Hb Hl ? ? ? ?] [Hb' Hl' ? ? ? ?]. split; try congruence.
    + by etrans.
    + intros a. etrans; [apply Hl|]. eapply same_objects_base; [symmetry; exact Hb|apply Hl'].
Qed.

(** ** Finding an object caches it *)

Definition put (a : Z) (o : stateObject) : AccountsDB → AccountsDB := with_objects (<[a := o]>).

Definition cached (s : AccountsDB) (a : Z) : AccountsDB :=
  match resolve s a with Some o => put a o s | None => s end.

Lemma put_id a o s : sd_objects s !! a = Some o → put a o s = s.
Proof. intros Ho. unfold put, with_objects. rewrite insert_id by done. by destruct s. Qed.

Lemma walkParents_local a ps o :
  walkParents (λ objs, getStateObjectLocalCache objs a) ps = Some o → so_deleted o = false.
Proof.
  induction ps as [|[c objs] ps IH]; cbn [walkParents]; [done|].
  unfold getStateObjectLocalCache in *. repeat case_match; naive_solver.
Qed.

Lemma parentObject_present s a o : parentObject s a = Some o → so_deleted o = false.
Proof. apply walkParents_local. Qed.

Lemma setStateObject_run o s :
  good_state s → setStateObject o s = (Ok tt, put (so_address o) o s).
Proof. intros Hs. unfold setStateObject. run_eval. by rewrite (good_children _ Hs). Qed.

Lemma getStateObject_run s a :
  good_state s → getStateObject a s = (Ok (live s a), cached s a).
Proof.
  intros Hs. unfold getStateObject, getStateObjectCache, live, cached, resolve, present.
  run_eval. destruct (sd_objects s !! a) as [o|] eqn:Ho; cbn.
  { rewrite put_id by done. by destruct (so_deleted o). }
  destruct (parentObject s a) as [o|] eqn:Hp; cbn.
  { rewrite setStateObject_run by done. cbn.
    rewrite (good_address _ _ (good_parents _ Hs _ _ Hp)).
    by rewrite (parentObject_present _ _ _ Hp). }
  destruct (sd_trie s !! a) as [d|]; cbn; [|done].
  by rewrite setStateObject_run by done.
Qed.

(** ** Replacing an object *)

Lemma live_put a o s b :
  live (put a o s) b = if decide (b = a) then present o else live s b.
Proof.
  unfold live. case_decide as Hb.
  - subst b. unfold resolve, put. cbn. by rewrite lookup_insert_eq.
  - unfold resolve, put at 1. cbn. by rewrite lookup_insert_ne by done.
Qed.

Lemma put_put a o1 o2 s : put a o1 (put a o2 s) = put a o1 s.
Proof. unfold put, with_objects. cbn. by rewrite insert_insert_eq. Qed.

Lemma put_cached a o s : put a o (cached s a) = put a o s.
Proof. unfold cached. destruct (resolve s a); [apply put_put|done]. Qed.

Lemma mutate_run a f s o :
  sd_objects s !! a = Some o → mutate a f s = (Ok tt, put a (f o) s).
Proof.
  intros Ho. unfold mutate, modify, put, with_objects. do 2 f_equal.
  apply map_eq. intros b. destruct (decide (b = a)) as [->|].
  - by rewrite lookup_alter_eq, lookup_insert_eq, Ho.
  - by rewrite lookup_alter_ne, lookup_insert_ne.
Qed.

Lemma live_resolve s a o : live s a = Some o → resolve s a = Some o ∧ so_deleted o = false.
Proof.
  unfold live, present. destruct (resolve s a) as [o'|]; cbn; [|done].
  destruct (so_deleted o') eqn:?; naive_solver.
Qed.

Lemma cached_lookup s a o : live s a = Some o → sd_objects (cached s a) !! a = Some o.
Proof.
  intros [Hr _]%live_resolve. unfold cached. rewrite Hr. cbn. apply lookup_insert_eq.
Qed.

Lemma live_cached s a b : live (cached s a) b = live s b.
Proof.
  unfold cached. destruct (resolve s a) as [o|] eqn:Ho; [|done].
  rewrite (live_put a o). case_decide; [|done]. subst. unfold live. by rewrite Ho.
Qed.

Lemma same_base_put a o s : same_base (put a o s) s.
Proof. by split. Qed.

Lemma same_base_cached a s : same_base (cached s a) s.
Proof. unfold cached. case_match; by split. Qed.

(** *** and well-formedness *)

Lemma good_present o : so_deleted o = false → present o = Some o.
Proof. unfold present. by intros ->. Qed.

Lemma resolve_good s a o : good_state s → resolve s a = Some o → good_object a o.
Proof.
  intros Hs. unfold resolve.
  destruct (sd_objects s !! a) as [o'|] eqn:Ho; [intros [= <-]; by apply (good_objects _ Hs)|].
  destruct (parentObject s a) as [o'|] eqn:Hp.
  { intros [= <-]. by destruct (good_parents _ Hs _ _ Hp). }
  destruct (sd_trie s !! a) as [d|] eqn:Hd; cbn; [|done]. intros [= <-]. split; [done|].
  cbn. unfold CodeHash. cbn. unfold loadAccount. case_match; exact (good_trie _ Hs a d Hd).
Qed.

Lemma live_good s a o : good_state s → live s a = Some o → good_object a o.
Proof. intros Hs [Hr _]%live_resolve. by eapply resolve_good. Qed.

Lemma good_put a o s :
  good_state s → good_object a o → so_deleted o = false → good_state (put a o s).
Proof.
  intros [? Hobj ? ? Hd ? ? ?] Ho Hdel. split; try done; cbn; intros b p.
  - intros [[<- <-]|[_ Hb]]%lookup_insert_Some; [done|by apply Hobj].
  - intros [[<- <-]|[_ Hb]]%lookup_insert_Some; [congruence|by apply (Hd b p)].
Qed.

Lemma resolve_deleted s a o :
  resolve s a = Some o → so_deleted o = true → sd_objects s !! a = Some o.
Proof.
  unfold resolve. destruct (sd_objects s !! a) as [?|] eqn:Ho; [done|].
  destruct (parentObject s a) as [p|] eqn:Hp.
  - intros [= <-]. cbn. by rewrite (parentObject_present _ _ _ Hp).
  - destruct (sd_trie s !! a); cbn; [|done]. by intros [= <-].
Qed.

Lemma good_cached a s : good_state s → good_state (cached s a).
Proof.
  intros Hs. unfold cached. destruct (resolve s a) as [o|] eqn:Hr; [|done].
  destruct (so_deleted o) eqn:Hd.
  - by rewrite put_id by (by apply resolve_deleted).
  - apply good_put; [done| |done]. by eapply resolve_good.
Qed.

Lemma view_cached a s : same_view (cached s a) s.
Proof.
  split; [apply same_base_cached| |unfold cached; by case_match..].
  intros b. rewrite live_cached. reflexivity.
Qed.

Lemma view_put a o1 o2 s1 s2 :
  same_view s1 s2 → same_object s1 o1 o2 → so_deleted o1 = false → so_deleted o2 = false →
  same_view (put a o1 s1) (put a o2 s2).
Proof.
  intros [Hb Hl ? ? ? ?] Ho H1 H2. split; [by destruct Hb| |done..].
  intros b. rewrite !live_put. apply (same_objects_base s1); [by destruct Hb|].
  case_decide; [|done]. rewrite !good_present by done. by constructor.
Qed.

Lemma view_put_live a o o' s :
  live s a = Some o → same_object s o' o → so_deleted o' = false → same_view (put a o' s) s.
Proof.
  intros Ha Ho Hd. split; [by split| |done..].
  intros b. rewrite live_put. case_decide; [|reflexivity].
  subst. rewrite Ha, good_present by done. constructor.
  by apply (same_object_base s); [by split|].
Qed.

(** ** Updates of one object *)

Record good_update (f : stateObject → stateObject) : Prop := {
  update_same : ∀ s o1 o2, same_object s o1 o2 → same_object s (f o1) (f o2);
  update_good : ∀ a o, good_object a o → good_object a (f o);
  update_deleted : ∀ o, so_deleted (f o) = so_deleted o;
}.

Lemma readState_eq s o1 o2 k :
  so_address o1 = so_address o2 → so_dirtyStorage o1 = so_dirtyStorage o2 →
  so_originStorage o1 = so_originStorage o2 → getTrie o1 = getTrie o2 →
  readState s o1 k = readState s o2 k.
Proof. unfold readState, committedState. by intros -> -> -> ->. Qed.

Lemma update_balance x : good_update (setBalance x).
Proof.
  split; [|by intros a o []|done].
  intros s o1 o2 [Ha Hd Ht Hc Hk Hs]. split; try done; cbn. by rewrite Hd.
Qed.

Lemma update_nonce x : good_update (setNonce x).
Proof.
  split; [|by intros a o []|done].
  intros s o1 o2 [Ha Hd Ht Hc Hk Hs]. split; try done; cbn. by rewrite Hd.
Qed.

Lemma update_suicided b : good_update (setSuicided b).
Proof.
  split; [|by intros a o []|done].
  intros s o1 o2 [Ha Hd Ht Hc Hk Hs]. by split.
Qed.

Lemma update_code h c : good_update (setCode (BytesToHash h) c).
Proof.
  split; [|intros a o []; split; [done|apply length_BytesToHash]|done].
  intros s o1 o2 [Ha Hd Ht Hc Hk Hs]. split; try done; cbn. by rewrite Hd.
Qed.

Lemma update_state k v : good_update (setState k v).
Proof.
  split; [|by intros a o []|done].
  intros s o1 o2 [Ha Hd Ht Hc Hk Hs]. split; try done. intros k'.
  specialize (Hk k'). unfold readState, committedState, setState, getTrie in *. cbn.
  destruct (decide (k' = k)) as [->|].
  - by rewrite !lookup_insert_eq.
  - by rewrite !lookup_insert_ne.
Qed.

Lemma update_compose f g : good_update f → good_update g → good_update (λ o, f (g o)).
Proof.
  intros [Hf1 Hf2 Hf3] [Hg1 Hg2 Hg3]. split; [auto..|]. intros o. by rewrite Hf3.
Qed.

(** Undoing an update of the object of an address. *)
Lemma revertObject_run a f s :
  good_state s →
  revertObject a f s =
    match live s a with
    | Some o => (Ok tt, put a (f o) s)
    | None => (Panic, cached s a)
    end.
Proof.
  intros Hs. unfold revertObject. rewrite (bind_Ok_run _ _ _ _ _ (getStateObject_run s a Hs)).
  destruct (live s a) as [o|] eqn:Ho; [|done].
  by rewrite (mutate_run _ _ _ o (cached_lookup _ _ _ Ho)), put_cached.
Qed.

Lemma good_update_live s a o f :
  good_state s → good_update f → live s a = Some o → good_state (put a (f o) s).
Proof.
  intros Hs Hf Ho. apply good_put; [done| |].
  - by apply (update_good _ Hf), (live_good s).
  - rewrite (update_deleted _ Hf). by apply live_resolve in Ho as [_ ?].
Qed.

Lemma view_update s1 s2 a f o1 o2 :
  good_update f → same_view s1 s2 → live s1 a = Some o1 → live s2 a = Some o2 →
  same_view (put a (f o1) s1) (put a (f o2) s2).
Proof.
  intros Hf Hv H1 H2. pose proof (view_live _ _ Hv a) as Ho. rewrite H1, H2 in Ho.
  inversion_clear Ho. apply live_resolve in H1 as [_ ?], H2 as [_ ?].
  apply view_put; [done|by apply Hf|by rewrite (update_deleted _ Hf)..].
Qed.

(** ** Undoing respects the view *)

Lemma live_ext s s' a :
  same_base s s' → sd_objects s = sd_objects s' → live s a = live s' a.
Proof.
  intros Hb Ho. unfold live, resolve.
  by rewrite Ho, (parentObject_base _ _ _ Hb), (same_trie_of_accounts _ _ Hb).
Qed.

(** States that differ from equal ones outside of the objects. *)
Lemma view_frame s1 s2 t1 t2 :
  same_view s1 s2 → same_base s1 t1 → same_base s2 t2 →
  sd_objects s1 = sd_objects t1 → sd_objects s2 = sd_objects t2 →
  sd_refund t1 = sd_refund t2 → sd_logs t1 = sd_logs t2 → sd_logSize t1 = sd_logSize t2 →
  sd_preimages t1 = sd_preimages t2 →
  same_view t1 t2.
Proof.
  intros Hv H1 H2 O1 O2 ? ? ? ?. split; [| |done..].
  - rewrite <- H1, <- H2. apply Hv.
  - intros a. rewrite <- (live_ext _ _ a H1 O1), <- (live_ext _ _ a H2 O2).
    apply (same_objects_base s1); [done|apply Hv].
Qed.

Lemma view_delete s1 s2 a :
  same_view s1 s2 → same_view (with_objects (delete a) s1) (with_objects (delete a) s2).
Proof.
  intros [Hb Hl ? ? ? ?]. split; [by destruct Hb| |done..].
  intros b. apply (same_objects_base s1); [by destruct Hb|].
  destruct (decide (b = a)) as [->|].
  - unfold live, resolve, parentObject. cbn. rewrite !lookup_delete_eq.
    rewrite (same_parents _ _ Hb), (same_trie_of_accounts _ _ Hb). reflexivity.
  - specialize (Hl b). unfold live, resolve in *. cbn. by rewrite !lookup_delete_ne by done.
Qed.

Lemma good_delete s a : good_state s → good_state (with_objects (delete a) s).
Proof.
  intros [? Hobj ? ? Hd ? ? ?]. split; try done; cbn; intros b p.
  - intros [_ Hb]%lookup_delete_Some. by apply Hobj.
  - intros [_ Hb]%lookup_delete_Some. by apply Hd.
Qed.

(** A step of the undoing that is well-defined on the view. *)
Definition respectful (m : M AccountsDB unit) : Prop :=
  ∀ s1 s2 t1, good_state s1 → good_state s2 → same_view s1 s2 → m s1 = (Ok tt, t1) →
  ∃ t2, m s2 = (Ok tt, t2) ∧ same_view t1 t2 ∧ good_state t1 ∧ good_state t2.

Lemma respectful_bind m k :
  respectful m → respectful k → respectful (m ≫= λ _, k).
Proof.
  intros Hm Hk s1 s2 t1 G1 G2 Hv ([] & r1 & E1 & E2)%bind_Ok_inv.
  destruct (Hm s1 s2 r1) as (r2 & F1 & Hv' & G1' & G2'); [done..|].
  destruct (Hk r1 r2 t1) as (t2 & F2 & ?); [done..|].
  exists t2. by rewrite (bind_Ok_run _ _ _ _ _ F1).
Qed.

Lemma respectful_object a f : good_update f → respectful (revertObject a f).
Proof.
  intros Hf s1 s2 t1 G1 G2 Hv. rewrite !revertObject_run by done.
  pose proof (view_live _ _ Hv a) as Ho.
  destruct (live s1 a) as [o1|] eqn:H1, (live s2 a) as [o2|] eqn:H2; try by inversion Ho.
  intros [= <-]. eexists. split; [done|].
  split; [by apply view_update|]. split; by apply good_update_live.
Qed.

Lemma respectful_suicide a f :
  good_update f →
  respectful (o ← getStateObject a; match o with Some _ => mutate a f | None => mret tt end).
Proof.
  intros Hf s1 s2 t1 G1 G2 Hv.
  rewrite (bind_Ok_run _ _ _ _ _ (getStateObject_run s1 a G1)).
  rewrite (bind_Ok_run _ _ _ _ _ (getStateObject_run s2 a G2)).
  pose proof (view_live _ _ Hv a) as Ho.
  destruct (live s1 a) as [o1|] eqn:H1, (live s2 a) as [o2|] eqn:H2; try by inversion Ho.
  - rewrite (mutate_run _ _ _ o1), (mutate_run _ _ _ o2), !put_cached by (by apply cached_lookup).
    intros [= <-]. eexists. split; [done|].
    split; [by apply view_update|]. split; by apply good_update_live.
  - intros [= <-]. eexists. split; [done|].
    split; [by rewrite !view_cached|auto using good_cached].
Qed.

(** A change outside of the objects. *)
Lemma respectful_modify f :
  (∀ s, same_base (f s) s) → (∀ s, sd_objects (f s) = sd_objects s) →
  (∀ s1 s2, same_view s1 s2 → same_view (f s1) (f s2)) →
  (∀ s, good_state s → good_state (f s)) → respectful (modify f).
Proof. intros Hb Ho Hv Hg s1 s2 t1 G1 G2 Hs [= <-]. eexists. split; [done|auto]. Qed.

Lemma respectful_create a :
  respectful (modify (λ s, with_dirty (λ d, d ∖ {[a]}) (with_objects (delete a) s))).
Proof.
  intros s1 s2 t1 G1 G2 Hs [= <-]. eexists. split; [done|]. apply (view_delete _ _ a) in Hs.
  apply (good_delete _ a) in G1, G2. split; [|split].
  - by apply (view_frame _ _ _ _ Hs); try done; destruct Hs.
  - by destruct G1.
  - by destruct G2.
Qed.

Lemma respectful_reset p : good_entry (resetObjectChange p) → respectful (setStateObject p).
Proof.
  intros [Hp Hd] s1 s2 t1 G1 G2 Hs. rewrite !setStateObject_run by done. intros [= <-].
  eexists. split; [done|]. split; [by apply view_put|]. split; by apply good_put.
Qed.

Lemma good_with_logs m n s :
  good_state s → (∀ h, m !! h ≠ Some []) → in_u64 n → good_state (with_logs m n s).
Proof. by intros [] ? ?. Qed.

Lemma respectful_log h : respectful (revertEntry (addLogChange h)).
Proof.
  intros s1 s2 t1 G1 G2 Hs. cbn [revertEntry]. run_eval. pose proof (good_logs _ G1) as Hn.
  rewrite <- (view_logs _ _ Hs), <- (view_logSize _ _ Hs).
  destruct (default [] (sd_logs s1 !! h)) as [|l1 [|l2 ls]] eqn:Hl; [done|..];
    intros [= <-]; (eexists; split; [done|]);
    (split; [by apply (view_frame _ _ _ _ Hs); try done; destruct Hs|]).
  - assert (∀ h', delete h (sd_logs s1) !! h' ≠ Some []).
    { intros h'. rewrite lookup_delete. by case_decide. }
    split; apply good_with_logs; auto using u64_range.
  - assert (∀ h', <[h := removelast (l1 :: l2 :: ls)]> (sd_logs s1) !! h' ≠ Some []).
    { intros h'. rewrite lookup_insert. by case_decide. }
    split; apply good_with_logs; auto using u64_range.
Qed.

Lemma respectful_revertEntry e : good_entry e → respectful (revertEntry e).
Proof.
  intros He. destruct e; cbn [revertEntry].
  - apply respectful_create.
  - by apply respectful_reset.
  - apply respectful_suicide, update_compose; [apply update_balance|apply update_suicided].
  - apply respectful_object, update_balance.
  - apply respectful_object, update_nonce.
  - apply respectful_object, update_state.
  - apply respectful_object, update_code.
  - apply respectful_modify; [done..| |by intros s []].
    intros s1 s2 Hs. by apply (view_frame _ _ _ _ Hs); try done; destruct Hs.
  - apply respectful_log.
  - apply respectful_modify; [done..| |by intros s []].
    intros s1 s2 Hs. apply (view_frame _ _ _ _ Hs); try done; try apply Hs.
    cbn. by rewrite (view_preimages _ _ Hs).
  - apply respectful_modify; [done..|]; auto.
Qed.

Lemma respectful_undo e : good_entry e → respectful (undo e).
Proof.
  intros He. apply respectful_bind; [by apply respectful_revertEntry|].
  destruct (dirtied e) as [a|].
  - apply respectful_modify; [done..| |by intros s []].
    intros s1 s2 Hs. by apply (view_frame _ _ _ _ Hs); try done; destruct Hs.
  - intros s1 s2 t1 G1 G2 Hs [= <-]. by exists s2.
Qed.

(** Undoing a run of entries, the last one first. *)
Definition undoAll (es : list journalEntry) : M AccountsDB unit := for_each undo (reverse es).

Lemma for_each_app {S A} (f : A → M S unit) l1 l2 s :
  for_each f (l1 ++ l2) s = (for_each f l1;; for_each f l2) s.
Proof.
  revert s. induction l1 as [|x l1 IH]; intros s; [done|]. cbn [for_each app].
  rewrite bind_assoc. apply bind_ext_run. intros _ s'. apply IH.
Qed.

Lemma undoAll_app es1 es2 s : undoAll (es1 ++ es2) s = (undoAll es2;; undoAll es1) s.
Proof. unfold undoAll. rewrite reverse_app. apply for_each_app. Qed.

Lemma respectful_undoAll es : Forall good_entry es → respectful (undoAll es).
Proof.
  induction es as [|e es IH] using rev_ind; intros Hes.
  - intros s1 s2 t1 G1 G2 Hs [= <-]. by exists s2.
  - apply Forall_app in Hes as [Hes [He _]%Forall_cons].
    intros s1 s2 t1. rewrite !undoAll_app.
    apply respectful_bind; [|by apply IH].
    apply (respectful_bind (undo e) (mret tt)); [by apply respectful_undo|].
    intros ? ? ? ? ? ? [= <-]. eauto.
Qed.

(** ** Where undoing leads back *)

(** [s'] has been reached from [s], and the entries added since lead back. *)
Definition undoable (s s' : AccountsDB) : Prop :=
  good_state s' ∧ ∃ es t,
    j_entries (sd_journal s') = j_entries (sd_journal s) ++ es ∧
    undoAll es s' = (Ok tt, t) ∧ same_view t s.

Lemma undoable_view s s' :
  good_state s' → same_view s' s → j_entries (sd_journal s') = j_entries (sd_journal s) →
  undoable s s'.
Proof.
  intros G Hv He. split; [done|]. exists [], s'. by rewrite app_nil_r.
Qed.

Lemma undoable_trans s1 s2 s3 :
  good_state s1 → undoable s1 s2 → undoable s2 s3 → undoable s1 s3.
Proof.
  intros G1 (G2 & es1 & t1 & E1 & U1 & V1) (G3 & es2 & t2 & E2 & U2 & V2).
  split; [done|].
  pose proof (good_entries _ G3) as Hes. rewrite E2, E1, !Forall_app in Hes.
  destruct Hes as [[_ Hes1] Hes2].
  destruct (respectful_undoAll es2 Hes2 s3 s3 t2) as (_ & _ & _ & G & _); [done..|].
  destruct (respectful_undoAll es1 Hes1 s2 t2 t1) as (t & U & V & _); [done|done|by symmetry|done|].
  exists (es1 ++ es2), t. rewrite E2, E1, app_assoc. split; [done|].
  rewrite undoAll_app, (bind_Ok_run _ _ _ _ _ U2). split; [done|]. by rewrite <- V.
Qed.

Lemma undoable_step s s' e t :
  good_state s' → j_entries (sd_journal s') = j_entries (sd_journal s) ++ [e] →
  revertEntry e s' = (Ok tt, t) → same_view t s → undoable s s'.
Proof.
  intros G E U V. split; [done|].
  assert (∃ t', undoAll [e] s' = (Ok tt, t') ∧ same_view t' t) as (t' & Ht & Hv).
  { unfold undoAll, undo. cbn. run_eval. rewrite U. destruct (dirtied e); cbn.
    - eexists. split; [done|]. by apply (view_frame t t); try done; reflexivity.
    - by exists t. }
  exists [e], t'. split; [done|]. split; [done|]. by rewrite Hv.
Qed.

Definition logged (e : journalEntry) : AccountsDB → AccountsDB :=
  with_journal (journalAppend e).

Lemma good_logged e s : good_state s → good_entry e → good_state (logged e s).
Proof. intros [] He. split; try done. cbn. by apply Forall_app_2; [|apply Forall_singleton]. Qed.

Lemma view_logged e s : same_view (logged e s) s.
Proof. by apply (view_frame s s); try done; reflexivity. Qed.

(** A change of an object and the entry that takes it back. *)
Lemma undoable_object s a o e f g :
  good_state s → live s a = Some o → good_update f → good_entry e →
  (∀ s o, good_state s → live s a = Some o → revertEntry e s = (Ok tt, put a (g o) s)) →
  so_deleted (g (f o)) = false → same_object s (g (f o)) o →
  undoable s (put a (f o) (logged e s)).
Proof.
  intros G Ho Hf He Hrev Hdel Hback. set (s' := put a (f o) (logged e s)).
  assert (G' : good_state s').
  { apply good_update_live; [by apply good_logged|done|done]. }
  assert (Ho' : live s' a = Some (f o)).
  { unfold s'. rewrite live_put, decide_True by done. apply good_present.
    rewrite (update_deleted _ Hf). by apply live_resolve in Ho as [_ ?]. }
  eapply undoable_step; [done|done|by apply Hrev|].
  unfold s'. rewrite put_put. etrans; [|apply (view_logged e)].
  apply (view_put_live a o); [done| |done].
  by apply (same_object_base s); [by split|].
Qed.

Lemma revertObject_live a g s o :
  good_state s → live s a = Some o → revertObject a g s = (Ok tt, put a (g o) s).
Proof. intros G Ho. by rewrite revertObject_run, Ho. Qed.

Lemma revertSuicide_live a b x s o :
  good_state s → live s a = Some o →
  revertEntry (suicideChange a b x) s = (Ok tt, put a (setBalance x (setSuicided b o)) s).
Proof.
  intros G Ho. cbn [revertEntry].
  rewrite (bind_Ok_run _ _ _ _ _ (getStateObject_run s a G)), Ho.
  by rewrite (mutate_run _ _ _ o (cached_lookup _ _ _ Ho)), put_cached.
Qed.

Lemma undoable_cached s a : good_state s → undoable s (cached s a).
Proof.
  intros G. apply undoable_view; [by apply good_cached|apply view_cached|].
  unfold cached. by case_match.
Qed.

(** *** Creating accounts *)

Lemma cached_none s a : live s a = None → cached s a = s.
Proof.
  unfold live, cached, present. destruct (resolve s a) as [o|] eqn:Hr; cbn; [|done].
  destruct (so_deleted o) eqn:Hd; [|done]. intros _. by apply put_id, resolve_deleted.
Qed.

Lemma live_none s a :
  good_state s → live s a = None → parentObject s a = None ∧ sd_trie s !! a = None.
Proof.
  intros G. unfold live, resolve, present.
  destruct (sd_objects s !! a) as [o|] eqn:Ho; cbn.
  { destruct (so_deleted o) eqn:Hd; [|done]. intros _. by apply (good_deleted _ G a o). }
  destruct (parentObject s a) as [o|] eqn:Hp; cbn.
  { by rewrite (parentObject_present _ _ _ Hp). }
  by destruct (sd_trie s !! a).
Qed.

Lemma undoable_create s a o :
  good_state s → live s a = None → good_object a o → so_deleted o = false →
  undoable s (put a o (logged (createObjectChange a) s)).
Proof.
  intros G Ha Ho Hd.
  eapply undoable_step; [by apply good_put; [apply good_logged| |]|done|done|].
  split; [by split| |done..]. intros b. destruct (decide (b = a)) as [->|Hb].
  - rewrite Ha. destruct (live_none _ _ G Ha) as [Hp Ht].
    unfold live, resolve, parentObject in *. cbn.
    rewrite lookup_delete_eq, Hp, Ht. constructor.
  - unfold live at 1, resolve. cbn. rewrite lookup_delete_ne, lookup_insert_ne by done.
    change (option_Forall2 (same_object
      (with_dirty (λ d, d ∖ {[a]}) (with_objects (delete a) (put a o (logged (createObjectChange a) s)))))
      (live s b) (live s b)). reflexivity.
Qed.

Lemma undoable_reset s a p o :
  good_state s → live s a = Some p → good_object a o → so_deleted o = false →
  undoable s (put a o (logged (resetObjectChange p) (cached s a))).
Proof.
  intros G Ha Ho Hd. pose proof (live_good _ _ _ G Ha) as Hp.
  pose proof (live_resolve _ _ _ Ha) as [_ Hpd].
  assert (He : good_entry (resetObjectChange p)).
  { split; [|done]. by destruct Hp. }
  eapply (undoable_trans _ (cached s a)); [done|by apply undoable_cached|].
  apply (good_cached a) in G.
  assert (G' : good_state (put a o (logged (resetObjectChange p) (cached s a)))).
  { by apply good_put; [apply good_logged| |]. }
  eapply undoable_step; [done|done|by apply setStateObject_run|].
  rewrite (good_address _ _ Hp), put_put. etrans; [|apply (view_logged (resetObjectChange p))].
  apply (view_put_live a p); [|reflexivity|done]. by rewrite <- Ha, <- (live_cached s a a).
Qed.

Context (Keccak256_length : ∀ x, length (Keccak256 x) = HashLength).

Lemma good_new a prefix : good_object a (newObject a (newAccount prefix)).
Proof. split; [done|]. apply Keccak256_length. Qed.

Lemma createObject_none s a :
  good_state s → live s a = None →
  let o := newObject a (newAccount (address_bytes a)) in
  createObject a s = (Ok (o, None), put a o (logged (createObjectChange a) s)).
Proof.
  intros G Ha o. unfold createObject, append.
  rewrite (bind_Ok_run _ _ _ _ _ (getStateObject_run s a G)), Ha, cached_none by done. run_eval.
  by rewrite setStateObject_run by (by apply good_logged).
Qed.

Lemma createObject_some s a p :
  good_state s → live s a = Some p →
  let o := newObject a (newAccount (a_StorageKeyPrefix (so_data p))) in
  createObject a s = (Ok (o, Some p), put a o (logged (resetObjectChange p) (cached s a))).
Proof.
  intros G Ha o. unfold createObject, append.
  rewrite (bind_Ok_run _ _ _ _ _ (getStateObject_run s a G)), Ha. run_eval.
  rewrite setStateObject_run; [done|]. apply good_logged; [by apply good_cached|].
  split; [by destruct (live_good _ _ _ G Ha)|by apply live_resolve in Ha as [_ ?]].
Qed.

Lemma lookup_live s a o : sd_objects s !! a = Some o → so_deleted o = false → live s a = Some o.
Proof. intros Ho Hd. unfold live, resolve. rewrite Ho. cbn. by apply good_present. Qed.

Lemma GetOrNewStateObject_run s a :
  good_state s → ∃ o s', GetOrNewStateObject a s = (Ok o, s') ∧
    undoable s s' ∧ sd_objects s' !! a = Some o ∧ so_deleted o = false.
Proof.
  intros G. unfold GetOrNewStateObject.
  rewrite (bind_Ok_run _ _ _ _ _ (getStateObject_run s a G)).
  destruct (live s a) as [p|] eqn:Ha.
  - exists p, (cached s a). split; [done|]. split; [by apply undoable_cached|].
    split; [by apply cached_lookup|by apply live_resolve in Ha as [_ ?]].
  - rewrite cached_none, (bind_Ok_run _ _ _ _ _ (createObject_none s a G Ha)) by done.
    eexists _, _. split; [done|]. split; [|split; [apply lookup_insert_eq|done]].
    apply undoable_create; [done|done|apply good_new|done].
Qed.

(** ** Every operation can be undone *)

Definition undoes {A} (m : M AccountsDB A) : Prop :=
  ∀ s r s', good_state s → m s = (Ok r, s') → undoable s s'.

Definition held (s : AccountsDB) (a : Z) (o : stateObject) : Prop :=
  sd_objects s !! a = Some o ∧ so_deleted o = false.

Lemma held_live s a o : held s a o → live s a = Some o.
Proof. intros []. by apply lookup_live. Qed.

Lemma held_address s a o : good_state s → held s a o → so_address o = a.
Proof. intros G [Ho _]. by apply (good_objects _ G a o). Qed.

(** What is done with the object of an address. *)
Definition undoes_at {A} (a : Z) (k : stateObject → M AccountsDB A) : Prop :=
  ∀ s o r s', good_state s → held s a o → k o s = (Ok r, s') → undoable s s'.

Lemma undoes_new {A} a (k : stateObject → M AccountsDB A) :
  undoes_at a k → undoes (o ← GetOrNewStateObject a; k o).
Proof.
  intros Hk s r s' G Hrun.
  destruct (GetOrNewStateObject_run s a G) as (o & t & E & U & Ho & Hd).
  rewrite (bind_Ok_run _ _ _ _ _ E) in Hrun.
  eapply undoable_trans; [done|exact U|]. eapply (Hk _ o); [apply U|by split|done].
Qed.

Lemma undoes_get {A} a (k : stateObject → M AccountsDB A) (m : M AccountsDB A) :
  undoes_at a k → undoes m →
  undoes (o ← getStateObject a; match o with Some o => k o | None => m end).
Proof.
  intros Hk Hm s r s' G Hrun.
  rewrite (bind_Ok_run _ _ _ _ _ (getStateObject_run s a G)) in Hrun.
  eapply undoable_trans; [done|by apply undoable_cached|].
  destruct (live s a) as [o|] eqn:Ho.
  - eapply (Hk _ o); [by apply good_cached| |done].
    split; [by apply cached_lookup|by apply live_resolve in Ho as [_ ?]].
  - eapply Hm; [by apply good_cached|done].
Qed.

Lemma undoable_refl s : good_state s → undoable s s.
Proof. intros G. by apply undoable_view. Qed.

Lemma undoes_ret {A} (a : A) : undoes (mret a).
Proof. intros s r s' G [= <- <-]. by apply undoable_refl. Qed.

Lemma undoes_read {A} a (f : option stateObject → A) :
  undoes (o ← getStateObject a; mret (f o)).
Proof.
  intros s r s' G Hrun. rewrite (bind_Ok_run _ _ _ _ _ (getStateObject_run s a G)) in Hrun.
  injection Hrun as <- <-. by apply undoable_cached.
Qed.

Lemma undoes_bind {A B} (m : M AccountsDB A) (k : A → M AccountsDB B) :
  undoes m → (∀ x, undoes (k x)) → undoes (m ≫= k).
Proof.
  intros Hm Hk s r s' G (x & t & E1 & E2)%bind_Ok_inv. apply Hm in E1; [|done].
  eapply undoable_trans; [done|done|]. eapply Hk; [apply E1|done].
Qed.

(** *** Balances and nonces *)

Lemma same_set_balance s x o : same_object s (setBalance (Balance o) (setBalance x o)) o.
Proof. destruct o as [? [] ? ? ? ? ? ? ?]. by split. Qed.

Lemma undoes_soSetBalance a (f : stateObject → Z) : undoes_at a (λ o, soSetBalance o (f o)).
Proof.
  intros s o r s' G Ho. unfold soSetBalance. rewrite (held_address s a o) by done.
  rewrite (bind_Ok_run _ _ s tt (logged (balanceChange a (Balance o)) s)) by done.
  rewrite (mutate_run _ _ _ o) by apply Ho. intros [= <- <-].
  apply (undoable_object _ _ _ _ _ (setBalance (Balance o)));
    [done|by apply held_live|apply update_balance|done| |apply Ho|].
  - intros t p Gt Hp. by apply revertObject_live.
  - apply same_set_balance.
Qed.

Lemma undoes_touch a : undoes (touch a).
Proof.
  intros s r s' G Hrun. unfold touch in Hrun.
  rewrite (bind_Ok_run _ _ s tt (logged (touchChange a) s)) in Hrun by done.
  assert (∃ f, s' = with_journal (λ j, mkJournal (j_entries j) (f (j_dirties j)))
                      (logged (touchChange a) s)) as [f ->].
  { destruct (a =? ripemd); injection Hrun as <- <-;
      [by eexists|exists (λ d, d); by destruct s]. }
  assert (G' := good_logged (touchChange a) s G I).
  eapply undoable_step; [by destruct G'|done|done|].
  by apply (view_frame s s); try done; reflexivity.
Qed.

Lemma undoes_soAddBalance a x : undoes_at a (λ o, soAddBalance o x).
Proof.
  intros s o r s' G Ho. unfold soAddBalance. destruct (x =? 0).
  - destruct (objectEmpty o); cbn; [|by apply undoes_ret].
    rewrite (held_address s a o) by done. by apply undoes_touch.
  - by apply (undoes_soSetBalance a (λ o, Balance o + x)).
Qed.

Lemma undoes_soSubBalance a x : undoes_at a (λ o, soSubBalance o x).
Proof.
  intros s o r s' G Ho. unfold soSubBalance. destruct (x =? 0).
  - by apply undoes_ret.
  - by apply (undoes_soSetBalance a (λ o, Balance o - x)).
Qed.

Lemma undoes_AddBalance a x : undoes (AddBalance a x).
Proof. apply undoes_new, undoes_soAddBalance. Qed.

Lemma undoes_SubBalance a x : undoes (SubBalance a x).
Proof. apply undoes_new, undoes_soSubBalance. Qed.

Lemma undoes_SetBalance a x : undoes (SetBalance a x).
Proof. apply undoes_new, (undoes_soSetBalance a (λ _, x)). Qed.

Lemma undoes_SetNonce a x : undoes (SetNonce a x).
Proof.
  apply undoes_new. intros s o r s' G Ho.
  rewrite (bind_Ok_run _ _ s tt (logged (nonceChange a (Nonce o)) s)) by done.
  rewrite (mutate_run _ _ _ o) by apply Ho. intros [= <- <-].
  apply (undoable_object _ _ _ _ _ (setNonce (Nonce o)));
    [done|by apply held_live|apply update_nonce|done| |apply Ho|].
  - intros t p Gt Hp. by apply revertObject_live.
  - destruct o as [? [] ? ? ? ? ? ? ?]. by split.
Qed.

Lemma undoes_CreateAccount a : undoes (CreateAccount a).
Proof.
  intros s r s' G. unfold CreateAccount. destruct (live s a) as [p|] eqn:Ha.
  - rewrite (bind_Ok_run _ _ _ _ _ (createObject_some s a p G Ha)). cbn [fst snd].
    erewrite mutate_run by apply lookup_insert_eq. rewrite put_put. intros [= <- <-].
    apply undoable_reset; [done|done|apply update_balance, good_new|done].
  - rewrite (bind_Ok_run _ _ _ _ _ (createObject_none s a G Ha)). intros [= <- <-].
    apply undoable_create; [done|done|apply good_new|done].
Qed.

Lemma undoes_Suicide a : undoes (Suicide a).
Proof.
  apply undoes_get; [|apply undoes_ret]. intros s o r s' G Ho.
  rewrite (bind_Ok_run _ _ s tt (logged (suicideChange a (so_suicided o) (Balance o)) s)) by done.
  rewrite (bind_Ok_run _ _ _ _ _ (mutate_run _ _ (logged _ s) o (proj1 Ho))). intros [= <- <-].
  apply (undoable_object _ _ _ _ (λ o, setBalance 0 (setSuicided true o))
    (λ p, setBalance (Balance o) (setSuicided (so_suicided o) p)));
    [done|by apply held_live| |done| |apply Ho|].
  - apply update_compose; [apply update_balance|apply update_suicided].
  - intros t p Gt Hp. by apply revertSuicide_live.
  - destruct o as [? [] ? ? ? ? ? ? ?]. by split.
Qed.

(** *** Code and storage, which reads leave with the object *)

Lemma undoable_held s a o o' :
  good_state s → held s a o → good_object a o' → so_deleted o' = false → same_object s o' o →
  undoable s (put a o' s).
Proof.
  intros G Ho Ho' Hd Hs.
  apply undoable_view; [by apply good_put|by apply (view_put_live a o); [apply held_live|..]|done].
Qed.

Lemma same_code_cache s o : same_object s (setCodeCache (codeOf (sd_codes s) o) o) o.
Proof.
  split; try done. unfold codeOf at 1. cbn. unfold CodeHash. cbn.
  destruct (codeOf (sd_codes s) o) eqn:Hc; [done|].
  unfold codeOf in Hc. by destruct (so_code o).
Qed.

Lemma Code_run s a o :
  good_state s → held s a o →
  Code o s = (Ok (codeOf (sd_codes s) o), put a (setCodeCache (codeOf (sd_codes s) o) o) s).
Proof.
  intros G Ho. unfold Code. rewrite (bind_Ok_run _ _ s (sd_codes s) s) by done.
  rewrite (held_address s a o) by done. cbv zeta.
  by rewrite (bind_Ok_run _ _ _ _ _ (mutate_run _ _ _ o (proj1 Ho))).
Qed.

Lemma undoable_Code s a o :
  good_state s → held s a o →
  undoable s (put a (setCodeCache (codeOf (sd_codes s) o) o) s).
Proof.
  intros G Ho. apply (undoable_held s a o); [done|done| |apply Ho|apply same_code_cache].
  by destruct (good_objects _ G a o (proj1 Ho)).
Qed.

Lemma undoes_GetCode a : undoes (GetCode a).
Proof.
  apply undoes_get; [|apply undoes_ret]. intros s o r s' G Ho.
  rewrite (Code_run s a) by done. intros [= <- <-]. by apply undoable_Code.
Qed.

Lemma same_set_code s h c o :
  length (CodeHash o) = HashLength →
  same_object s (setCode (BytesToHash (CodeHash o)) (codeOf (sd_codes s) o) (setCode h c o)) o.
Proof.
  intros Hh. rewrite BytesToHash_id by done. destruct o as [? [] ? ? ? ? ? ? ?].
  split; try done. unfold codeOf at 1. cbn.
  destruct (codeOf (sd_codes s) _) eqn:Hc; [done|].
  unfold codeOf, CodeHash in *. cbn in *. by case_match.
Qed.

Lemma undoes_SetCode a code : undoes (SetCode a code).
Proof.
  apply undoes_new. intros s o r s' G Ho. rewrite (bind_Ok_run _ _ _ _ _ (Code_run s a o G Ho)).
  set (c := codeOf (sd_codes s) o). set (o1 := setCodeCache c o). set (s1 := put a o1 s).
  assert (U : undoable s s1) by by apply undoable_Code. destruct U as [G1 U].
  assert (H1 : held s1 a o1) by (split; [apply lookup_insert_eq|apply Ho]).
  rewrite (bind_Ok_run _ _ s1 tt (logged (codeChange a c (CodeHash o)) s1)) by done.
  rewrite (mutate_run _ _ _ o1) by apply H1. intros [= <- <-].
  eapply undoable_trans; [done|by split|].
  apply (undoable_object _ _ _ _ (setCode (BytesToHash (Keccak256 code)) (Some code))
    (setCode (BytesToHash (CodeHash o)) c));
    [done|by apply held_live|apply update_code|done| |apply Ho|].
  - intros t p Gt Hp. by apply revertObject_live.
  - replace c with (codeOf (sd_codes s1) o1) by apply (same_code_cache s o).
    apply (same_set_code s1 _ _ o1). by apply (good_objects _ G1 a o1), H1.
Qed.

Definition cachedState (s : AccountsDB) (o : stateObject) (key : bytes) : option bytes :=
  match so_originStorage o !! key with
  | Some v => Some v
  | None => parentStorage s (so_address o) key
  end.

Lemma readState_remember s o key k c :
  c = cachedState s o key →
  readState s (rememberState c key (committedState s o key) o) k = readState s o k.
Proof.
  intros ->. unfold readState, rememberState.
  assert (Hcom : committedState s o key =
    match cachedState s o key with
    | Some (b :: v) => b :: v
    | _ => default [] (getTrie o !! key)
    end) by done.
  destruct (decide (k = key)) as [->|Hk].
  - destruct (cachedState s o key) as [[|b v]|] eqn:Hc; cbn;
      (destruct (so_dirtyStorage o !! key); [done|]);
      unfold committedState at 1; cbn; rewrite lookup_insert_eq, Hcom; try done;
      unfold getTrie; cbn; by case_match.
  - destruct (cachedState s o key) as [[|b v]|] eqn:Hc; cbn;
      (destruct (so_dirtyStorage o !! k); [done|]);
      unfold committedState at 1; cbn; by rewrite lookup_insert_ne by done.
Qed.

Lemma same_remember s o key :
  same_object s (rememberState (cachedState s o key) key (committedState s o key) o) o.
Proof.
  split; [| | | |intros k; by apply readState_remember|];
    unfold rememberState, codeOf, CodeHash; destruct (cachedState s o key) as [[|b v]|]; try done;
    by destruct o as [? [] ? ? ? ? ? ? ?].
Qed.

Lemma soGetCommittedState_run s a o key :
  good_state s → held s a o →
  soGetCommittedState o key s = (Ok (committedState s o key),
    put a (rememberState (cachedState s o key) key (committedState s o key) o) s).
Proof.
  intros G Ho. unfold soGetCommittedState. rewrite (bind_Ok_run _ _ s s s) by done. cbv zeta.
  change (match so_originStorage o !! key with
          | Some v => Some v
          | None => parentStorage s (so_address o) key
          end) with (cachedState s o key).
  rewrite (held_address s a o) by done.
  by rewrite (bind_Ok_run _ _ _ _ _ (mutate_run _ _ _ o (proj1 Ho))).
Qed.

Lemma soGetState_run s a o key :
  good_state s → held s a o →
  ∃ o', soGetState o key s = (Ok (readState s o key), put a o' s) ∧
    same_object s o' o ∧ so_deleted o' = false ∧ good_object a o'.
Proof.
  intros G Ho. pose proof (good_objects _ G a o (proj1 Ho)) as Hg.
  unfold soGetState, readState. destruct (so_dirtyStorage o !! key).
  - exists o. rewrite put_id by apply Ho. split; [done|]. split; [reflexivity|].
    split; [apply Ho|done].
  - eexists. rewrite (soGetCommittedState_run s a) by done. split; [done|].
    split; [apply same_remember|]. destruct Ho as [_ Hd], Hg as [? Hl].
    unfold rememberState, CodeHash in *.
    destruct (cachedState s o key) as [[|b v]|]; split; done.
Qed.

Lemma undoes_storage_read a (f : bytes → bytes) (k : stateObject → M AccountsDB bytes) key :
  k = (λ o, soGetState o key) ∨ k = (λ o, soGetCommittedState o key) →
  undoes (o ← getStateObject a;
          match o with Some o => v ← k o; mret (f v) | None => mret [] end).
Proof.
  intros Hk. apply undoes_get; [|apply undoes_ret]. intros s o r s' G Ho. destruct Hk as [-> | ->].
  - destruct (soGetState_run s a o key G Ho) as (o' & E & ? & ? & ?).
    rewrite (bind_Ok_run _ _ _ _ _ E). intros [= <- <-]. by apply (undoable_held s a o).
  - rewrite (bind_Ok_run _ _ _ _ _ (soGetCommittedState_run s a o key G Ho)).
    intros [= <- <-]. pose proof (good_objects _ G a o (proj1 Ho)) as [? Hl].
    apply (undoable_held s a o); [done|done| | |apply same_remember]; destruct Ho as [_ Hd];
      unfold rememberState, CodeHash in *;
      destruct (cachedState s o key) as [[|b v]|]; done.
Qed.

Lemma undoes_GetState a key : undoes (GetState a key).
Proof. apply (undoes_storage_read a removePrefixValue (λ o, soGetState o key) key). by left. Qed.

Lemma undoes_GetCommittedState a key : undoes (GetCommittedState a key).
Proof.
  apply (undoes_storage_read a removePrefixValue (λ o, soGetCommittedState o key) key). by right.
Qed.

Lemma same_set_state s k v o : same_object s (setState k (readState s o k) (setState k v o)) o.
Proof.
  destruct o as [? [] ? ? ? ? ? ? ?]. split; try done. intros k'.
  unfold setState, readState at 1. cbn. rewrite insert_insert_eq.
  destruct (decide (k' = k)) as [->|].
  - by rewrite lookup_insert_eq.
  - by rewrite lookup_insert_ne by done.
Qed.

Lemma undoes_SetState a key value : undoes (SetState a key value).
Proof.
  apply undoes_new. intros s o r s' G Ho.
  rewrite (bind_Ok_run _ _ s (sd_originRoot s) s) by done. cbv zeta.
  destruct (soGetState_run s a o key G Ho) as (o1 & E & Hs & Hd & Hg).
  rewrite (bind_Ok_run _ _ _ _ _ E). set (s1 := put a o1 s). set (v := getPrefixValue _ _ _ _).
  assert (U : undoable s s1) by by apply (undoable_held s a o).
  case_bool_decide as Hv; [by intros [= <- <-]|].
  assert (H1 : held s1 a o1) by (split; [apply lookup_insert_eq|done]).
  rewrite (bind_Ok_run _ _ s1 tt (logged (storageChange a key (readState s o key)) s1)) by done.
  rewrite (mutate_run _ _ _ o1) by apply H1. intros [= <- <-].
  eapply undoable_trans; [done|exact U|].
  apply (undoable_object _ _ _ _ (setState key v) (setState key (readState s o key)));
    [apply U|by apply held_live|apply update_state|done| |done|].
  - intros t p Gt Hp. by apply revertObject_live.
  - rewrite <- (same_storage _ _ _ Hs key). rewrite (readState_base s s1) by by split.
    apply same_set_state.
Qed.

(** *** Logs, preimages and refunds *)

Lemma good_plain s s' :
  good_state s → same_base s s' → sd_objects s' = sd_objects s →
  sd_journal s' = sd_journal s → in_u64 (sd_logSize s') → (∀ h, sd_logs s' !! h ≠ Some []) →
  good_state s'.
Proof.
  intros [Hc Ho Hp Ht Hd He _ _] Hb Eo Ej ? ?. split; try done.
  - by rewrite <- (same_children _ _ Hb).
  - by rewrite Eo.
  - intros a o. rewrite <- (parentObject_base _ _ _ Hb). apply Hp.
  - by rewrite <- (same_trie_of_accounts _ _ Hb).
  - intros a o. rewrite <- (parentObject_base _ _ _ Hb), <- (same_trie_of_accounts _ _ Hb), Eo.
    apply Hd.
  - by rewrite Ej.
Qed.

(** Dropping the last log of a transaction. *)
Lemma revertLog_run s h ls l :
  sd_logs s !! h = Some (ls ++ [l]) →
  revertEntry (addLogChange h) s =
    (Ok tt, with_logs (match ls with
                       | [] => delete h (sd_logs s)
                       | _ => <[h := ls]> (sd_logs s)
                       end) (u64 (sd_logSize s - 1)) s).
Proof.
  intros Hl. cbn [revertEntry]. run_eval. rewrite Hl. cbn [from_option id].
  rewrite removelast_last. destruct ls as [|x ls]; [done|]. by destruct ls.
Qed.

Lemma undoes_AddLog c : undoes (AddLog c).
Proof.
  intros s r s' G [= <- <-]. set (ls := default [] (sd_logs s !! sd_thash s)).
  set (l := mkLog _ _ _ _ _).
  set (s' := with_logs (<[sd_thash s := ls ++ [l]]> (sd_logs s)) _ _).
  assert (G' : good_state s').
  { apply (good_plain (logged (addLogChange (sd_thash s)) s)); try done.
    - by apply good_logged.
    - apply u64_range.
    - intros h. cbn. rewrite lookup_insert. case_decide; [|apply (good_logs _ G)].
      by destruct ls. }
  eapply undoable_step; [done|done|apply (revertLog_run _ _ ls l), lookup_insert_eq|].
  apply (view_frame s s); [reflexivity|done|done|done|done|done| | |done]; cbn.
  - unfold ls. destruct (sd_logs s !! sd_thash s) as [[|x xs]|] eqn:Hl; cbn.
    + by apply (good_logs _ G) in Hl.
    + by rewrite insert_insert_eq, insert_id.
    + by rewrite delete_insert_id.
  - unfold u64. rewrite Zminus_mod_idemp_l, Z.add_simpl_r.
    apply Z.mod_small, (good_logSize _ G).
Qed.

Lemma undoes_AddPreimage h x : undoes (AddPreimage h x).
Proof.
  intros s r s' G. unfold AddPreimage. run_eval.
  destruct (sd_preimages s !! h) eqn:Hh; [intros [= <- <-]; by apply undoable_refl|].
  intros [= <- <-]. eapply undoable_step; [|done|done|].
  - apply (good_plain (logged (addPreimageChange h) s)); try done; [by apply good_logged|..];
      apply G.
  - apply (view_frame s s); try done. cbn. by rewrite delete_insert_id.
Qed.

Lemma undoable_refund s x :
  good_state s → undoable s (with_refund x (logged (refundChange (sd_refund s)) s)).
Proof.
  intros G. eapply undoable_step; [|done|done|].
  - apply (good_plain (logged (refundChange (sd_refund s)) s)); try done;
      [by apply good_logged|..]; apply G.
  - by apply (view_frame s s).
Qed.

Lemma undoes_AddRefund x : undoes (AddRefund x).
Proof. intros s r s' G [= <- <-]. by apply undoable_refund. Qed.

Lemma undoes_SubRefund x : undoes (SubRefund x).
Proof.
  intros s r s' G. unfold SubRefund. run_eval. cbn. case_match; [done|].
  intros [= <- <-]. by apply undoable_refund.
Qed.

(** ** Sequences of operations *)

Inductive change :=
  | OpCreateAccount (a : Z)
  | OpAddBalance (a amount : Z)
  | OpSubBalance (a amount : Z)
  | OpSetBalance (a amount : Z)
  | OpSetNonce (a nonce : Z)
  | OpSetCode (a : Z) (code : bytes)
  | OpSetState (a : Z) (key value : bytes)
  | OpSuicide (a : Z)
  | OpAddLog (content : Z * list bytes * bytes * Z)
  | OpAddPreimage (hash preimage : bytes)
  | OpAddRefund (gas : Z)
  | OpSubRefund (gas : Z)
  | OpRead (a : Z)
  | OpGetCode (a : Z)
  | OpGetState (a : Z) (key : bytes)
  | OpGetCommittedState (a : Z) (key : bytes)
  | OpSnapshot
  | OpRevert (id : Z).

Definition perform (c : change) : M AccountsDB unit :=
  match c with
  | OpCreateAccount a => CreateAccount a
  | OpAddBalance a x => AddBalance a x
  | OpSubBalance a x => SubBalance a x
  | OpSetBalance a x => SetBalance a x
  | OpSetNonce a x => SetNonce a x
  | OpSetCode a code => SetCode a code
  | OpSetState a k v => SetState a k v
  | OpSuicide a => Suicide a;; mret tt
  | OpAddLog c => AddLog c
  | OpAddPreimage h x => AddPreimage h x
  | OpAddRefund x => AddRefund x
  | OpSubRefund x => SubRefund x
  | OpRead a => getStateObject a;; mret tt
  | OpGetCode a => GetCode a;; mret tt
  | OpGetState a k => GetState a k;; mret tt
  | OpGetCommittedState a k => GetCommittedState a k;; mret tt
  | OpSnapshot => Snapshot;; mret tt
  | OpRevert id => RevertToSnapshot id
  end.

Definition runChanges (cs : list change) : M AccountsDB unit := for_each perform cs.

Definition journaled (c : change) : Prop :=
  match c with OpSnapshot | OpRevert _ => False | _ => True end.

Lemma undoes_perform c : journaled c → undoes (perform c).
Proof.
  destruct c; cbn; try done; intros _;
    auto using undoes_CreateAccount, undoes_AddBalance, undoes_SubBalance, undoes_SetBalance,
      undoes_SetNonce, undoes_SetCode, undoes_SetState, undoes_AddLog, undoes_AddPreimage,
      undoes_AddRefund, undoes_SubRefund;
    try (apply undoes_bind; [|intros _; apply undoes_ret]);
    auto using undoes_Suicide, undoes_GetCode, undoes_GetState, undoes_GetCommittedState.
  intros s r s' G. rewrite getStateObject_run by done. intros [= <- <-].
  by apply undoable_cached.
Qed.

(** *** What operations leave alone *)

(** The number of entries that mark an address, as the journal keeps it. *)
Definition marks (a : Z) (es : list journalEntry) : Z :=
  Z.of_nat (length (filter (λ e, dirtied e = Some a) es)).

Definition counts (d : gmap Z Z) (es : list journalEntry) : Prop :=
  ∀ a, a ≠ ripemd → d !! a = if marks a es =? 0 then None else Some (marks a es).

Definition counted (s : AccountsDB) : Prop :=
  counts (j_dirties (sd_journal s)) (j_entries (sd_journal s)).

(** Predicates that changes of objects and the journal keep. *)
Record quiet (P : AccountsDB → Prop) : Prop := {
  quiet_objects : ∀ f s, P s → P (with_objects f s);
  quiet_append : ∀ e s, P s → P (logged e s);
  quiet_ripemd : ∀ s, P s → P (with_journal (journalDirty ripemd) s);
}.

Section quiet.
Context (P : AccountsDB → Prop) (HP : quiet P).

Lemma quiet_get : preserves P (get (S := AccountsDB)).
Proof. by intros s. Qed.

Lemma quiet_mutate a f : preserves P (mutate a f).
Proof. intros s. apply (quiet_objects _ HP). Qed.

Lemma quiet_append_m e : preserves P (append e).
Proof. intros s. apply (quiet_append _ HP). Qed.

Lemma quiet_modify_objects f : preserves P (modify (with_objects f)).
Proof. intros s. apply (quiet_objects _ HP). Qed.

#[local] Hint Resolve quiet_get quiet_mutate quiet_append_m quiet_modify_objects : preserve.

Lemma quiet_getStateObject a : preserves P (getStateObject a).
Proof. unfold getStateObject, getStateObjectCache, setStateObject. preserve. Qed.

#[local] Hint Resolve quiet_getStateObject : preserve.

Lemma quiet_createObject a : preserves P (createObject a).
Proof. unfold createObject, setStateObject. preserve. Qed.

#[local] Hint Resolve quiet_createObject : preserve.

Lemma quiet_GetOrNew a : preserves P (GetOrNewStateObject a).
Proof. unfold GetOrNewStateObject. preserve. Qed.

Lemma quiet_touch a : preserves P (touch a).
Proof.
  unfold touch, when. preserve_step; [preserve|].
  destruct (Z.eqb_spec a ripemd) as [->|Ha]; [|preserve].
  intros s. apply (quiet_ripemd _ HP).
Qed.

#[local] Hint Resolve quiet_GetOrNew quiet_touch : preserve.

(** The operations on accounts. *)
Definition on_accounts (c : change) : Prop :=
  match c with
  | OpSnapshot | OpRevert _ | OpAddLog _ | OpAddPreimage _ _ | OpAddRefund _ | OpSubRefund _ =>
      False
  | _ => True
  end.

Lemma quiet_perform c : on_accounts c → preserves P (perform c).
Proof.
  destruct c; cbn [perform]; try done; intros _;
    unfold CreateAccount, AddBalance, SubBalance, SetBalance, SetNonce, SetCode, SetState,
      Suicide, GetCode, GetState, GetCommittedState,
      soAddBalance, soSubBalance, soSetBalance, Code, soGetState, soGetCommittedState; preserve.
Qed.
End quiet.

(** and predicates that all operations keep. *)
Record stable (P : AccountsDB → Prop) : Prop := {
  stable_quiet : quiet P;
  stable_refund : ∀ x s, P s → P (with_refund x s);
  stable_logs : ∀ m n s, P s → P (with_logs m n s);
  stable_preimages : ∀ m s, P s → P (with_preimages m s);
}.

Lemma stable_perform P c : stable P → journaled c → preserves P (perform c).
Proof.
  intros HP Hc. assert (Hq := stable_quiet _ HP).
  destruct c; try done; try (by apply (quiet_perform P Hq)); cbn [perform]; intros s Hs.
  - apply (stable_logs _ HP), (quiet_append _ Hq), Hs.
  - unfold AddPreimage. run_eval. case_match; [done|].
    apply (stable_preimages _ HP), (quiet_append _ Hq), Hs.
  - apply (stable_refund _ HP), (quiet_append _ Hq), Hs.
  - unfold SubRefund. run_eval. cbn. case_match; [apply (quiet_append _ Hq), Hs|].
    apply (stable_refund _ HP), (quiet_append _ Hq), Hs.
Qed.

Lemma marks_app a es1 es2 : marks a (es1 ++ es2) = marks a es1 + marks a es2.
Proof. unfold marks. rewrite filter_app, length_app. lia. Qed.

Lemma marks_one a e : marks a [e] = if bool_decide (dirtied e = Some a) then 1 else 0.
Proof.
  unfold marks. rewrite filter_cons, filter_nil. case_bool_decide as He.
  - by rewrite decide_True.
  - by rewrite decide_False.
Qed.

Lemma marks_nonneg a es : 0 <= marks a es.
Proof. unfold marks. lia. Qed.

Lemma counted_logged e s : counted s → counted (logged e s).
Proof.
  intros Hs a Ha. cbn. rewrite marks_app, marks_one. pose proof (marks_nonneg a (j_entries (sd_journal s))).
  specialize (Hs a Ha). cbn in Hs.
  destruct (dirtied e) as [b|]; [|by rewrite bool_decide_false, Z.add_0_r].
  unfold bumpDirty. destruct (decide (b = a)) as [->|Hb].
  - rewrite bool_decide_true, lookup_insert_eq, Hs by done.
    destruct (Z.eqb_spec (marks a (j_entries (sd_journal s))) 0) as [->|]; [done|].
    rewrite (proj2 (Z.eqb_neq _ _)) by lia. done.
  - rewrite bool_decide_false, lookup_insert_ne, Z.add_0_r by congruence. done.
Qed.

Lemma stable_counted : stable counted.
Proof.
  split; [|done..]. split; [done|..].
  - intros e s. apply counted_logged.
  - intros s Hs a Ha. cbn. unfold bumpDirty. rewrite lookup_insert_ne by done. by apply Hs.
Qed.

Lemma stable_revisions l n : stable (λ s, sd_revisions s = l ∧ sd_nextRevision s = n).
Proof. by split. Qed.

(** *** What undoing does to the journal *)

Definition kept (j : journal) (l : list (Z * nat)) (n : Z) (s : AccountsDB) : Prop :=
  sd_journal s = j ∧ sd_revisions s = l ∧ sd_nextRevision s = n.

Lemma kept_revertEntry j l n e : preserves (kept j l n) (revertEntry e).
Proof.
  assert (preserves (kept j l n) get) by by intros s.
  assert (∀ a f, preserves (kept j l n) (mutate a f)) by (by intros a f s).
  destruct e; cbn [revertEntry]; unfold revertObject, getStateObject, getStateObjectCache,
    setStateObject; repeat preserve_step; try done; by apply preserves_modify.
Qed.

Lemma counts_drop d es e :
  counts d (es ++ [e]) →
  counts (match dirtied e with Some a => dropDirty a d | None => d end) es.
Proof.
  intros Hd a Ha. specialize (Hd a Ha). rewrite marks_app, marks_one in Hd.
  pose proof (marks_nonneg a es).
  destruct (dirtied e) as [b|]; [|by rewrite bool_decide_false, Z.add_0_r in Hd].
  unfold dropDirty. destruct (decide (b = a)) as [->|Hb].
  - rewrite bool_decide_true, (proj2 (Z.eqb_neq _ _)) in Hd by (done || lia). rewrite Hd. cbn.
    rewrite Z.add_simpl_r. case_match; [apply lookup_delete_eq|apply lookup_insert_eq].
  - rewrite bool_decide_false, Z.add_0_r in Hd by congruence.
    destruct (default 0 (d !! b) - 1 =? 0);
      [by rewrite lookup_delete_ne|by rewrite lookup_insert_ne].
Qed.

Lemma undoAll_journal es0 es s t :
  undoAll es s = (Ok tt, t) → counts (j_dirties (sd_journal s)) (es0 ++ es) →
  counts (j_dirties (sd_journal t)) es0 ∧
  j_entries (sd_journal t) = j_entries (sd_journal s) ∧
  sd_revisions t = sd_revisions s ∧ sd_nextRevision t = sd_nextRevision s.
Proof.
  revert s. induction es as [|e es IH] using rev_ind; intros s.
  { intros [= <-]. by rewrite app_nil_r. }
  rewrite undoAll_app. intros ([] & t1 & E1 & E2)%bind_Ok_inv Hc. rewrite app_assoc in Hc.
  assert (counts (j_dirties (sd_journal t1)) (es0 ++ es) ∧
    j_entries (sd_journal t1) = j_entries (sd_journal s) ∧
    sd_revisions t1 = sd_revisions s ∧ sd_nextRevision t1 = sd_nextRevision s)
    as (C1 & <- & <- & <-); [|by apply IH].
  unfold undoAll, undo in E1. cbn in E1. apply bind_Ok_inv in E1 as ([] & t2 & E1 & [= ->]).
  apply bind_Ok_inv in E1 as ([] & t3 & E1 & E3). apply counts_drop in Hc.
  destruct (kept_revertEntry (sd_journal s) (sd_revisions s) (sd_nextRevision s) e s)
    as (Hj & Hl & Hn); [done|]. rewrite E1 in Hj, Hl, Hn. cbn in Hj, Hl, Hn.
  destruct (dirtied e); injection E3 as <-; cbn; by rewrite Hj.
Qed.

Lemma good_truncate s k :
  good_state s → good_state (with_journal (λ j, mkJournal (take k (j_entries j)) (j_dirties j)) s).
Proof. intros []. split; try done. cbn. by apply Forall_take. Qed.

Lemma journalRevert_run s0 s k :
  good_state s0 → undoable s0 s → counted s →
  (length (j_entries (sd_journal s0)) <= k)%nat →
  ∃ t, journalRevert k s = (Ok tt, t) ∧ undoable s0 t ∧ counted t ∧
    j_entries (sd_journal t) = take k (j_entries (sd_journal s)) ∧
    sd_revisions t = sd_revisions s ∧ sd_nextRevision t = sd_nextRevision s.
Proof.
  intros G0 (G & es & t1 & E & U & V) C Hk.
  set (m := (k - length (j_entries (sd_journal s0)))%nat).
  assert (Hdrop : drop k (j_entries (sd_journal s)) = drop m es).
  { rewrite E, drop_app_ge by lia. done. }
  assert (Htake : take k (j_entries (sd_journal s)) = j_entries (sd_journal s0) ++ take m es).
  { rewrite E, take_app_ge by lia. done. }
  rewrite <- (take_drop m es), undoAll_app in U.
  apply bind_Ok_inv in U as ([] & t2 & U2 & U1).
  pose proof (good_entries _ G) as Hes. rewrite <- (take_drop k (j_entries _)), Forall_app in Hes.
  destruct Hes as [Hes1 Hes2]. rewrite Htake, Forall_app in Hes1. rewrite Hdrop in Hes2.
  destruct (respectful_undoAll _ Hes2 s s t2) as (_ & _ & _ & G2 & _); [done..|].
  destruct (undoAll_journal (take k (j_entries (sd_journal s))) _ _ _ U2) as (C2 & E2 & R2 & N2).
  { rewrite <- Hdrop, take_drop. exact C. }
  set (t := with_journal (λ j, mkJournal (take k (j_entries j)) (j_dirties j)) t2).
  exists t. unfold journalRevert. rewrite (bind_Ok_run _ _ s s s) by done. rewrite Hdrop.
  rewrite (bind_Ok_run _ _ _ _ _ U2). split; [done|].
  assert (Vt : same_view t2 t) by by apply (view_frame t2 t2).
  destruct (respectful_undoAll (take m es) (proj2 Hes1) t2 t t1) as (t1' & U1' & V1 & _);
    [done|by apply good_truncate|done|done|].
  unfold counted. cbn. rewrite E2. split; [|done]. split; [by apply good_truncate|].
  exists (take m es), t1'. cbn. rewrite E2. split; [done|]. split; [done|]. by rewrite <- V1.
Qed.

(** *** Snapshots and reverts *)

(** The run since the snapshot [id] of [s]: its revision is there, below the
    later ones. *)
Record since (s : AccountsDB) (id : Z) (s' : AccountsDB) : Prop := {
  since_undoable : undoable s s';
  since_counted : counted s';
  since_revisions : ∃ newer,
    sd_revisions s' =
      sd_revisions s ++ (id, length (j_entries (sd_journal s))) :: newer ∧
    Forall (λ r, id < fst r < sd_nextRevision s' ∧
                 (length (j_entries (sd_journal s)) <= snd r)%nat) newer;
  since_next : id < sd_nextRevision s';
}.

Lemma undoable_length s s' :
  undoable s s' →
  (length (j_entries (sd_journal s)) <= length (j_entries (sd_journal s')))%nat.
Proof. intros (_ & es & _ & -> & _). rewrite length_app. lia. Qed.

(** A computation that can be undone and leaves the revisions alone. *)
Definition calm {A} (m : M AccountsDB A) : Prop :=
  undoes m ∧ ∀ P, stable P → preserves P m.

Lemma calm_perform c : journaled c → calm (perform c).
Proof. intros Hc. split; [by apply undoes_perform|]. intros P HP. by apply stable_perform. Qed.

Lemma calm_ret {A} (a : A) : calm (mret a).
Proof. split; [apply undoes_ret|]. intros P HP. apply preserves_ret. Qed.

Lemma calm_bind {A B} (m : M AccountsDB A) (k : A → M AccountsDB B) :
  calm m → (∀ x, calm (k x)) → calm (m ≫= k).
Proof.
  intros [Hm1 Hm2] Hk. split; [apply undoes_bind; [done|apply Hk]|].
  intros P HP. apply preserves_bind; [by apply Hm2|]. intros x. by apply Hk.
Qed.

Lemma calm_getStateObject a : calm (getStateObject a).
Proof.
  split; [|intros P HP; by apply quiet_getStateObject, stable_quiet].
  intros s r s' G. rewrite getStateObject_run by done. intros [= <- <-]. by apply undoable_cached.
Qed.

Lemma calm_read {A} a (f : option stateObject → A) : calm (o ← getStateObject a; mret (f o)).
Proof. apply calm_bind; [apply calm_getStateObject|intros x; apply calm_ret]. Qed.

Lemma since_calm {A} (m : M AccountsDB A) s id s1 r s2 :
  good_state s → calm m → since s id s1 → m s1 = (Ok r, s2) → since s id s2.
Proof.
  intros G [Hu Hs] [U C (newer & R & F) N] E.
  assert (U2 : undoable s1 s2) by (by eapply Hu; [apply U|]).
  destruct (Hs _ (stable_revisions (sd_revisions s1) (sd_nextRevision s1)) s1) as [R2 N2]; [done|].
  pose proof (Hs _ stable_counted s1 C) as C2. rewrite E in R2, N2, C2.
  cbn in R2, N2, C2. split; [by eapply undoable_trans|done| |by rewrite N2].
  exists newer. by rewrite R2, N2.
Qed.

Lemma undoable_revisions s s' l n : undoable s s' → undoable s (with_revisions l n s').
Proof.
  intros (G & es & t & E & U & V).
  assert (G' : good_state (with_revisions l n s')) by by destruct G.
  split; [done|]. pose proof (good_entries _ G) as Hes. rewrite E, Forall_app in Hes.
  destruct (respectful_undoAll es (proj2 Hes) s' (with_revisions l n s') t)
    as (t' & U' & V' & _); [done|done|by apply (view_frame s' s')|done|].
  exists es, t'. split; [done|]. split; [done|]. by rewrite <- V'.
Qed.

Lemma since_Snapshot s id s1 id' s2 :
  since s id s1 → Snapshot s1 = (Ok id', s2) → since s id s2.
Proof.
  intros [U C (newer & R & F) N] [= <- <-].
  split; [by apply undoable_revisions|done| |cbn; lia].
  eexists. cbn. rewrite R, <- app_assoc, <- app_comm_cons. split; [done|].
  apply Forall_app_2; [eapply Forall_impl; [done|]; cbn; lia|].
  apply Forall_singleton. apply undoable_length in U. cbn. lia.
Qed.

Lemma since_Revert s id s1 id' s2 :
  good_state s → Forall (λ r, fst r < id) (sd_revisions s) → id < id' →
  since s id s1 → RevertToSnapshot id' s1 = (Ok tt, s2) → since s id s2.
Proof.
  intros G Hold Hid [U C (newer & R & F) N]. unfold RevertToSnapshot.
  rewrite (bind_Ok_run _ _ s1 s1 s1) by done. rewrite R.
  rewrite list_find_app_r
    by (apply list_find_None; eapply Forall_impl; [done|]; cbn; lia).
  cbn [list_find]. rewrite decide_False by (cbn; lia).
  destruct (list_find (λ r, id' <= fst r) newer) as [[i [x n]]|] eqn:Hf; [|done].
  apply list_find_Some in Hf as (Hi & _). cbn. destruct (x =? id'); [|done].
  pose proof (proj1 (Forall_lookup _ _) F _ _ Hi) as [_ Hn]. cbn in Hn.
  destruct (journalRevert_run s s1 n G U C Hn) as (t & E & Ut & Ct & Et & Rt & Nt).
  rewrite (bind_Ok_run _ _ _ _ _ E). intros [= <-].
  split; [by apply undoable_revisions|done| |cbn; by rewrite Nt].
  exists (take i newer). cbn. rewrite Rt, R, Nt. split; [|by apply Forall_take].
  rewrite take_app_ge by lia. f_equal.
  match goal with |- take ?k _ = _ => replace k with (S i) by lia end. done.
Qed.

(** Going back to the snapshot itself. *)
Lemma since_RevertTo s id s1 :
  good_state s → Forall (λ r, fst r < id) (sd_revisions s) → since s id s1 →
  ∃ t, RevertToSnapshot id s1 = (Ok tt, t) ∧ same_view t s ∧ counted t ∧ good_state t ∧
    j_entries (sd_journal t) = j_entries (sd_journal s) ∧ sd_revisions t = sd_revisions s ∧
    id < sd_nextRevision t.
Proof.
  intros G Hold [U C (newer & R & F) N]. unfold RevertToSnapshot.
  rewrite (bind_Ok_run _ _ s1 s1 s1) by done. rewrite R.
  rewrite list_find_app_r
    by (apply list_find_None; eapply Forall_impl; [done|]; cbn; lia).
  cbn [list_find]. rewrite decide_True by (cbn; lia). cbn. rewrite Z.eqb_refl.
  destruct (journalRevert_run s s1 (length (j_entries (sd_journal s))) G U C)
    as (t & E & Ut & Ct & Et & Rt & Nt); [done|].
  rewrite (bind_Ok_run _ _ _ _ _ E). eexists. split; [done|].
  destruct Ut as (Gt & es & u & Eu & Uu & V). cbn.
  assert (es = []) as ->.
  { apply (f_equal length) in Eu. rewrite Et, length_app, length_take in Eu.
    destruct es; [done|]. cbn in Eu. lia. }
  injection Uu as <-. rewrite app_nil_r in Eu.
  split; [etrans; [|exact V]; by apply (view_frame t t)|]. split; [done|]. split; [by destruct Gt|].
  split; [done|]. rewrite Nt. split; [|done]. by rewrite Rt, R, take_app_length.
Qed.

(** ** Reverts restore *)

(** Reverts in between go to later snapshots only. *)
Definition above (id : Z) (c : change) : Prop :=
  match c with OpRevert id' => id < id' | _ => True end.

Lemma since_runChanges s id cs s1 s2 :
  good_state s → Forall (λ r, fst r < id) (sd_revisions s) → Forall (above id) cs →
  since s id s1 → runChanges cs s1 = (Ok tt, s2) → since s id s2.
Proof.
  intros G Hold. revert s1. induction cs as [|c cs IH]; intros s1 Hcs H1.
  { by intros [= <-]. }
  apply Forall_cons in Hcs as [Hc Hcs]. intros ([] & t & E1 & E2)%bind_Ok_inv.
  eapply (IH t); [done| |done].
  assert (Hj : journaled c → since s id t).
  { intros Hj. exact (since_calm _ s id s1 tt t G (calm_perform c Hj) H1 E1). }
  destruct c; try (by apply Hj).
  - cbn in E1. apply bind_Ok_inv in E1 as (id' & t' & E1 & [= <-]). by eapply since_Snapshot.
  - by eapply since_Revert.
Qed.

Lemma since_start s id s1 :
  good_state s → counted s → Snapshot s = (Ok id, s1) → since s id s1.
Proof.
  intros G C [= <- <-]. split; [by apply undoable_revisions, undoable_refl|done| |cbn; lia].
  by exists [].
Qed.

(** A state between transactions or calls. *)
Record ready (s : AccountsDB) : Prop := {
  ready_good : good_state s;
  ready_counted : counted s;
  ready_revisions : Forall (λ r, fst r < sd_nextRevision s) (sd_revisions s);
}.

End view.

(** ** Accounts that come back *)

Section resurrection.
Context `{Hashing}.

(** The block that destroys the account [a] of its uncommitted parent. *)
Definition destroyed (root : bytes) (g : AccountsDB) (a : Z) : AccountsDB :=
  Finalise true (snd (Suicide a (fst (NewStateDB root g)))).

Lemma Suicide_inherited root g a o :
  sd_objects g !! a = Some o → so_address o = a → so_deleted o = false →
  Suicide a (fst (NewStateDB root g)) =
    (Ok true, put a (setBalance 0 (setSuicided true (copyObject o)))
       (logged (suicideChange a (so_suicided o) (Balance o)) (fst (NewStateDB root g)))).
Proof.
  intros Ho Ha Hd. set (p := fst (NewStateDB root g)).
  assert (Hp : parentObject p a = Some o).
  { unfold parentObject, getStateObjectLocalCache. cbn. by rewrite Ho, Hd. }
  assert (E : getStateObject a p = (Ok (Some (copyObject o)), put a (copyObject o) p)).
  { unfold getStateObject, getStateObjectCache, setStateObject. run_eval.
    replace (sd_objects p !! a) with (@None stateObject) by done. rewrite Hp. cbn.
    by rewrite Hd, Ha. }
  unfold Suicide. rewrite (bind_Ok_run _ _ _ _ _ E). unfold append. run_eval.
  rewrite (mutate_run _ _ _ (copyObject o)) by apply lookup_insert_eq.
  change (with_journal (journalAppend ?e) (put a ?x p)) with (put a x (logged e p)).
  by rewrite put_put.
Qed.

Lemma destroyed_eq root g a o :
  sd_objects g !! a = Some o → so_address o = a → so_deleted o = false →
  sd_objects (destroyed root g a) =
    {[a := setDeleted (setBalance 0 (setSuicided true (copyObject o)))]} ∧
  sd_trie (destroyed root g a) = delete a (sd_trie g) ∧
  sd_parents (destroyed root g a) = (false, sd_objects g) :: sd_parents g ∧
  sd_children (destroyed root g a) = 0%nat.
Proof.
  intros Ho Ha Hd. unfold destroyed. rewrite (Suicide_inherited _ _ _ o) by done.
  cbn [snd]. unfold Finalise. cbn. unfold bumpDirty. rewrite lookup_empty. cbn.
  rewrite !insert_empty, map_to_list_singleton. cbn.
  unfold finaliseOne. cbn. rewrite lookup_insert_eq. cbn.
  by rewrite insert_empty, alter_singleton_eq.
Qed.

Lemma GetBalance_none s a :
  sd_objects s !! a = None → parentObject s a = None → sd_trie s !! a = None →
  fst (GetBalance a s) = Ok 0.
Proof.
  intros Ho Hp Ht. unfold GetBalance, getStateObject, getStateObjectCache. run_eval.
  by rewrite Ho, Hp, Ht.
Qed.

Lemma GetBalance_inherited s a o :
  sd_objects s !! a = None → parentObject s a = Some o → so_deleted o = false →
  sd_children s = 0%nat → fst (GetBalance a s) = Ok (Balance o).
Proof.
  intros Ho Hp Hd Hc. unfold GetBalance, getStateObject, getStateObjectCache, setStateObject.
  run_eval. rewrite Ho, Hp, Hc. cbn. by rewrite Hd.
Qed.

(** C37: an account that a block destroys is back, with its whole balance, in
    the child of the block, when the parent of the block holds it among its
    objects and is not committed yet; once the parent has been committed the
    same child finds no account.  The deleted object of the block is skipped
    and the search goes on to the parent. *)
Theorem destroyed_account_returns root root' g a o :
  sd_objects g !! a = Some o → so_address o = a → so_deleted o = false →
  let p := destroyed root g a in
  fst (GetBalance a p) = Ok 0 ∧ sd_trie p !! a = None ∧
  fst (GetBalance a (fst (NewStateDB root' p))) = Ok (Balance o) ∧
  fst (GetBalance a (fst (NewStateDB root' (clearParentRef p)))) = Ok 0.
Proof.
  intros Ho Ha Hd p. destruct (destroyed_eq root g a o) as (Po & Pt & Pp & _); [done..|].
  fold p in Po, Pt, Pp. set (d := setDeleted _) in Po.
  assert (Pl : sd_objects p !! a = Some d) by (rewrite Po; apply lookup_singleton_eq).
  clearbody p. split; [|split; [|split]].
  - unfold GetBalance, getStateObject, getStateObjectCache. run_eval. by rewrite Pl.
  - rewrite Pt. apply lookup_delete_eq.
  - assert (Hp : parentObject (fst (NewStateDB root' p)) a = Some o).
    { unfold parentObject, getStateObjectLocalCache. cbn. rewrite Pl, Pp. cbn. by rewrite Ho, Hd. }
    by apply GetBalance_inherited.
  - apply GetBalance_none; [done| |].
    + unfold parentObject, getStateObjectLocalCache. cbn. by rewrite Pl.
    + cbn. rewrite Pt. apply lookup_delete_eq.
Qed.
End resurrection.

(** ** A run *)

Section run.
Context `{Hashing}.

Lemma ready_New codes trie root :
  (∀ a d, trie !! a = Some d → length (a_CodeHash d) = HashLength) → ready (New codes trie root).
Proof.
  intros Ht. split; [|by intros a Ha|by constructor].
  split; try done; cbn; by constructor.
Qed.

Lemma run_unit (m : M AccountsDB unit) s :
  match fst (m s) with Ok _ => true | _ => false end = true → m s = (Ok tt, snd (m s)).
Proof. by destruct (m s) as [[[]| |] t]. Qed.
End run.

Module AccountsRun.

#[local] Instance run_hashing : Hashing := {| Keccak256 x := replicate 31 7 ++ [Z.of_nat (length x)] |}.

Lemma run_hashing_length x : length (Keccak256 x) = HashLength.
Proof. done. Qed.

Definition rich : Account := mkAccount 3 100 None emptyCodeHash [1].

Definition genesis : AccountsDB := New ∅ {[0xa := rich]} [9].

(** A transfer, then calls that store, create and destroy, one of which is
    reverted. *)
Definition calls : list change :=
  [OpSubBalance 0xa 30; OpAddBalance 0xb 30; OpSetNonce 0xa 4; OpSnapshot; OpCreateAccount 0xc;
   OpSetCode 0xc [1; 2]; OpSetState 0xc [5] [6]; OpRevert 1; OpSetState 0xb [5] [6];
   OpSetState 0xb [5] []; OpAddLog (0xb, [], [1], 8); OpAddRefund 7; OpSuicide 0xb; OpAddBalance 3 0;
   OpGetState 0xb [5]].

Lemma genesis_ready : ready genesis.
Proof. apply ready_New. intros a d [_ <-]%lookup_singleton_Some. done. Qed.


(** The account of a block that its child destroys. *)
Definition holder : AccountsDB := snd (AddBalance 0xa 5 genesis).

Definition held_object : stateObject := setBalance 105 (newObject 0xa rich).

Lemma destroyed_account_returns_witness :
  let p := destroyed [1] holder 0xa in
  fst (GetBalance 0xa p) = Ok 0 ∧ sd_trie p !! 0xa = None ∧
  fst (GetBalance 0xa (fst (NewStateDB [2] p))) = Ok 105 ∧
  fst (GetBalance 0xa (fst (NewStateDB [2] (clearParentRef p)))) = Ok 0.
Proof.
  apply (destroyed_account_returns [1] [2] holder 0xa held_object); vm_compute; reflexivity.
Defined.
End AccountsRun.
