(* ===== verification/StateTransition.v ===== *)
(** Applying a transaction (src/ethereum/core).

    The gas of a message is bought from the gas pool of the block, the message
    is executed by the virtual machine on the accounts, and what is left is
    given back.  The interpreters and the precompiled contracts are arguments
    of the model; the calls at the top of the machine, with their transfers,
    snapshots and reverts, are not.  The snapshot database is not part of the
    state. *)

From Stdlib Require Import Ascii String.
From S2P Require Import Prelude Keys StateDB GovTypes Accounts.

(** ** Errors *)

Inductive vmError :=
  | ErrOutOfGas
  | ErrCodeStoreOutOfGas
  | ErrDepth
  | ErrInsufficientBalance
  | ErrContractAddressCollision
  | ErrExecutionReverted
  | ErrMaxCodeSizeExceeded
  | ErrAbort
  | ErrWASMUndefinedPanic
  (* the error of an inner contract *)
  | ErrBiz (code : Z)
  (* any other error of the interpreters *)
  | ErrVM (n : Z).

Inductive txError :=
  | ErrNonceTooHigh
  | ErrNonceTooLow
  | errInsufficientBalanceForGas
  | ErrGasLimitReached
  | ErrIntrinsicGas
  | ErrInvalidSender
  | ErrOf (e : vmError).

#[export] Instance vmError_eq_dec : EqDecision vmError.
Proof. solve_decision. Defined.

#[export] Instance txError_eq_dec : EqDecision txError.
Proof. solve_decision. Defined.

(** ** The gas pool *)

Definition MaxUint64 : Z := 2 ^ 64 - 1.

Definition AddGas (gp amount : Z) : outcome Z :=
  if MaxUint64 - amount <? gp then Panic else Ok (gp + amount).

Definition SubGas (gp amount : Z) : option Z :=
  if gp <? amount then None else Some (gp - amount).

(** ** Intrinsic gas *)

Definition TxGas : Z := 21000.
Definition TxGasContractCreation : Z := 53000.
Definition TxDataZeroGas : Z := 4.
Definition TxDataZeroWasmDeployGas : Z := 1.
Definition TxDataNonZeroGas : Z := 16.
Definition TxDataNonZeroWasmDeployGas : Z := 4.
Definition CreateDataGas : Z := 200.
Definition CreateWasmDataGas : Z := 4.
Definition CallCreateDepth : Z := 1024.
Definition MaxCodeSize : Z := 524288.

Definition InterpTypeLen : nat := 4.
Definition WasmInterp : bytes := [0x00; 0x61; 0x73; 0x6d].

(** The first bytes of a slice, which may lie beyond its length within the
    array behind it; beyond the array Go panics. *)
Definition CanUseWASMInterp (b spare : bytes) : outcome bool :=
  match b with
  | [] => Ok false
  | _ =>
      if (length (b ++ spare) <? InterpTypeLen)%nat then Panic
      else Ok (bool_decide (take InterpTypeLen (b ++ spare) = WasmInterp))
  end.

Definition nonZero (data : bytes) : Z := Z.of_nat (length (filter (λ b, b ≠ 0) data)).

(** The data of a transaction fills its array. *)
Definition IntrinsicGas (data : bytes) (contractCreation : bool) : outcome (vmError + Z) :=
  let gas := if contractCreation then TxGasContractCreation else TxGas in
  wasm ← (if contractCreation then CanUseWASMInterp data [] else Ok false);
  let noZeroGas := if (wasm : bool) then TxDataNonZeroWasmDeployGas else TxDataNonZeroGas in
  let zeroGas := if (wasm : bool) then TxDataZeroWasmDeployGas else TxDataZeroGas in
  match data with
  | [] => Ok (inr gas)
  | _ =>
      let nz := nonZero data in
      if (MaxUint64 - gas) / noZeroGas <? nz then Ok (inl ErrOutOfGas)
      else
        let gas := u64 (gas + nz * noZeroGas) in
        let z := Z.of_nat (length data) - nz in
        if (MaxUint64 - gas) / zeroGas <? z then Ok (inl ErrOutOfGas)
        else Ok (inr (u64 (gas + z * zeroGas)))
  end.

(** ** The virtual machine *)

(** What a contract runs with. *)
Record frame := mkFrame {
  fr_caller : Z;
  fr_self : Z;
  fr_codeAddr : Z;
  fr_code : bytes;
  fr_value : Z;
  fr_gas : Z;
  fr_input : bytes;
  fr_deploy : bool;
}.

(** The result of a run: the returned bytes and what follows them in memory,
    the gas that is left, and the error. *)
Record runResult := mkResult {
  rr_ret : bytes;
  rr_spare : bytes;
  rr_gas : Z;
  rr_err : option vmError;
}.

Class Machine := {
  runPrecompiled : frame → M AccountsDB runResult;
  runCode : frame → M AccountsDB runResult;
  CreateAddress : Z → Z → Z;
}.

Definition IsEVMPrecompiledContract (addr : Z) : bool := (1 <=? addr) && (addr <=? 9).

Definition IsPrecompiledContract (addr : Z) : bool :=
  IsEVMPrecompiledContract addr || IsPhoenixChainPrecompiledContract addr.

Section machine.
Context `{Hashing, Machine}.

(** The reward pool is listed with the inner contracts and has no code. *)
Definition run (fr : frame) : M AccountsDB runResult :=
  if IsPrecompiledContract (fr_codeAddr fr) && negb (fr_codeAddr fr =? RewardManagerPoolAddr)
  then runPrecompiled fr
  else match fr_code fr with
       | [] => mret (mkResult [] [] (fr_gas fr) None)
       | _ => runCode fr
       end.

Definition CanTransfer (addr amount : Z) : M AccountsDB bool :=
  b ← GetBalance addr; mret (amount <=? b).

Definition Transfer (sender recipient amount : Z) : M AccountsDB unit :=
  SubBalance sender amount;; AddBalance recipient amount.

(** After an error the state is that of the snapshot, and the gas is gone
    unless the contract has reverted itself. *)
Definition settle (snapshot : Z) (r : runResult) : M AccountsDB runResult :=
  match rr_err r with
  | None => mret r
  | Some e =>
      RevertToSnapshot snapshot;;
      mret (mkResult (rr_ret r) (rr_spare r)
              (if bool_decide (e = ErrExecutionReverted) then rr_gas r else 0) (Some e))
  end.

Definition Call (depth caller addr : Z) (input : bytes) (gas value : Z) :
    M AccountsDB runResult :=
  if CallCreateDepth <? depth then mret (mkResult [] [] gas (Some ErrDepth))
  else
  can ← (if value =? 0 then mret true else CanTransfer caller value);
  if negb can then mret (mkResult [] [] gas (Some ErrInsufficientBalance))
  else
  snapshot ← Snapshot;
  exist ← Exist addr;
  if negb exist && negb (IsPrecompiledContract addr) && (value =? 0)
  then mret (mkResult [] [] gas None)
  else
  when (negb exist) (CreateAccount addr);;
  Transfer caller addr value;;
  GetCodeHash addr;;
  code ← GetCode addr;
  r ← run (mkFrame caller addr addr (default [] code) value gas input false);
  settle snapshot r.

(** The returned code is paid for and stored. *)
Definition storeCode (address : Z) (r : runResult) : M AccountsDB runResult :=
  wasm ← ask (CanUseWASMInterp (rr_ret r) (rr_spare r));
  let price := if (wasm : bool) then CreateWasmDataGas else CreateDataGas in
  let createDataGas := u64 (Z.of_nat (length (rr_ret r)) * price) in
  if rr_gas r <? createDataGas
  then mret (mkResult (rr_ret r) (rr_spare r) (rr_gas r) (Some ErrCodeStoreOutOfGas))
  else
    SetCode address (rr_ret r);;
    mret (mkResult (rr_ret r) (rr_spare r) (rr_gas r - createDataGas) None).

Definition create (depth caller : Z) (code : bytes) (gas value address : Z) :
    M AccountsDB runResult :=
  if CallCreateDepth <? depth then mret (mkResult [] [] gas (Some ErrDepth))
  else
  can ← CanTransfer caller value;
  if negb can then mret (mkResult [] [] gas (Some ErrInsufficientBalance))
  else
  nonce ← GetNonce caller;
  SetNonce caller (u64 (nonce + 1));;
  contractHash ← GetCodeHash address;
  n ← GetNonce address;
  if negb (n =? 0) || negb (bool_decide (contractHash = replicate HashLength 0))
                      && negb (bool_decide (contractHash = emptyCodeHash))
  then mret (mkResult [] [] 0 (Some ErrContractAddressCollision))
  else
  snapshot ← Snapshot;
  CreateAccount address;;
  SetNonce address 1;;
  Transfer caller address value;;
  r ← run (mkFrame caller address address code value gas [] true);
  let exceeded := MaxCodeSize <? Z.of_nat (length (rr_ret r)) in
  r ← (if bool_decide (rr_err r = None) && negb exceeded then storeCode address r else mret r);
  let revert := exceeded || negb (bool_decide (rr_err r = None))
                            && negb (bool_decide (rr_err r = Some ErrCodeStoreOutOfGas)) in
  when revert (RevertToSnapshot snapshot);;
  let left := if revert && negb (bool_decide (rr_err r = Some ErrExecutionReverted))
              then 0 else rr_gas r in
  let err := if exceeded && bool_decide (rr_err r = None) then Some ErrMaxCodeSizeExceeded
             else rr_err r in
  mret (mkResult (rr_ret r) (rr_spare r) left err).

Definition Create (depth caller : Z) (code : bytes) (gas value : Z) : M AccountsDB runResult :=
  nonce ← GetNonce caller;
  create depth caller code gas value (CreateAddress caller nonce).

(** ** Messages *)

Record Message := mkMessage {
  m_From : Z;
  m_To : option Z;
  m_GasPrice : Z;
  m_Gas : Z;
  m_Value : Z;
  m_Nonce : Z;
  m_Data : bytes;
}.

Record ExecutionResult := mkExecution {
  er_UsedGas : Z;
  er_Err : option vmError;
  er_ReturnData : bytes;
}.

(** The pool that is left, after the gas has been bought. *)
Definition buyGas (msg : Message) (gp : Z) : M AccountsDB (txError + Z) :=
  let mgval := m_Gas msg * m_GasPrice msg in
  b ← GetBalance (m_From msg);
  if b <? mgval then mret (inl errInsufficientBalanceForGas)
  else match SubGas gp (m_Gas msg) with
       | None => mret (inl ErrGasLimitReached)
       | Some gp => SubBalance (m_From msg) mgval;; mret (inr gp)
       end.

Definition preCheck (msg : Message) (gp : Z) : M AccountsDB (txError + Z) :=
  nonce ← GetNonce (m_From msg);
  if nonce <? m_Nonce msg then mret (inl ErrNonceTooHigh)
  else if m_Nonce msg <? nonce then mret (inl ErrNonceTooLow)
  else buyGas msg gp.

Definition gasUsed (msg : Message) (gas : Z) : Z := u64 (m_Gas msg - gas).

(** The gas that is left, with the refund, and the pool. *)
Definition refundGas (msg : Message) (gas gp : Z) : M AccountsDB (Z * Z) :=
  r ← gets sd_refund;
  let gas := u64 (gas + Z.min (gasUsed msg gas / 2) r) in
  AddBalance (m_From msg) (gas * m_GasPrice msg);;
  gp ← ask (AddGas gp gas);
  mret (gas, gp).

(** Errors that make a transaction invalid. *)
Definition fatal (e : vmError) : bool :=
  bool_decide (e ∈ [ErrInsufficientBalance; ErrAbort; ErrWASMUndefinedPanic]).

(** The message itself. *)
Definition execute (msg : Message) (gas : Z) : M AccountsDB runResult :=
  match m_To msg with
  | None => Create 0 (m_From msg) (m_Data msg) gas (m_Value msg)
  | Some to =>
      nonce ← GetNonce (m_From msg);
      SetNonce (m_From msg) (u64 (nonce + 1));;
      Call 0 (m_From msg) to (m_Data msg) gas (m_Value msg)
  end.

(** The end of an execution: gas is given back and the miner is paid. *)
Definition conclude (coinbase : Z) (msg : Message) (r : runResult) (gp : Z) :
    M AccountsDB (Z * (txError + ExecutionResult)) :=
  p ← refundGas msg (rr_gas r) gp;
  let used := gasUsed msg (fst p) in
  AddBalance coinbase (used * m_GasPrice msg);;
  mret (snd p, inr (mkExecution used (rr_err r) (rr_ret r))).

(** The pool is shared with the block: it is returned with errors as well. *)
Definition TransitionDb (coinbase : Z) (msg : Message) (gp : Z) :
    M AccountsDB (Z * (txError + ExecutionResult)) :=
  bought ← preCheck msg gp;
  match bought with
  | inl e => mret (gp, inl e)
  | inr gp =>
      intrinsic ← ask (IntrinsicGas (m_Data msg) (bool_decide (m_To msg = None)));
      match intrinsic with
      | inl e => mret (gp, inl (ErrOf e))
      | inr intrinsic =>
          if m_Gas msg <? intrinsic then mret (gp, inl ErrIntrinsicGas)
          else
          r ← execute msg (m_Gas msg - intrinsic);
          match rr_err r with
          | Some e => if fatal e then mret (gp, inl (ErrOf e)) else conclude coinbase msg r gp
          | None => conclude coinbase msg r gp
          end
      end
  end.

(** ** Transactions and receipts *)

Record Transaction := mkTx {
  tx_hash : bytes;
  (* the sender, unless the signature is wrong *)
  tx_sender : option Z;
  tx_Nonce : Z;
  tx_GasPrice : Z;
  tx_Gas : Z;
  tx_To : option Z;
  tx_Value : Z;
  tx_Data : bytes;
}.

Definition FromAddr (tx : Transaction) : Z := default 0 (tx_sender tx).

Definition AsMessage (tx : Transaction) : option Message :=
  (λ from, mkMessage from (tx_To tx) (tx_GasPrice tx) (tx_Gas tx) (tx_Value tx) (tx_Nonce tx)
             (tx_Data tx)) <$> tx_sender tx.

Record Receipt := mkReceipt {
  r_Failed : bool;
  r_CumulativeGasUsed : Z;
  r_Logs : list Log;
  r_TxHash : bytes;
  r_ContractAddress : Z;
  r_GasUsed : Z;
  r_BlockHash : bytes;
  r_BlockNumber : Z;
  r_TransactionIndex : Z;
}.

Record Header := mkHeader {
  h_Number : Z;
  h_Coinbase : Z;
  h_GasLimit : Z;
}.

(** [rlp.Encode] of a list of one string of at most 54 bytes. *)
Definition rlpString (b : bytes) : bytes :=
  match b with
  | [x] => if x <? 128 then [x] else [0x81; x]
  | _ => (0x80 + Z.of_nat (length b)) :: b
  end.

Definition rlpList (payload : bytes) : bytes :=
  (0xc0 + Z.of_nat (length payload)) :: payload.

Definition ascii_bytes (x : string) : bytes :=
  (λ c, Z.of_nat (nat_of_ascii c)) <$> list_ascii_of_string x.

(** The logs of a receipt: an error of an inner contract is put into one. *)
Definition receiptLogs (number : Z) (msg : Message) (hash : bytes) (err : option vmError)
    (s : AccountsDB) : outcome (list Log) :=
  match err with
  | Some (ErrBiz code) =>
      match m_To msg with
      | Some to =>
          Ok [mkLog [] [] 0 0 (to, [], rlpList (rlpString (ascii_bytes (Itoa code))), number)]
      | None => Panic
      end
  | _ => Ok (default [] (sd_logs s !! hash))
  end.

(** The pool and the gas used by the block, with the receipt. *)
Definition ApplyTransaction (header : Header) (tx : Transaction) (gp usedGas : Z) :
    M AccountsDB (Z * Z * (txError + Receipt)) :=
  match AsMessage tx with
  | None => mret (gp, usedGas, inl ErrInvalidSender)
  | Some msg =>
      r ← TransitionDb (h_Coinbase header) msg gp;
      match r with
      | (gp, inl e) => mret (gp, usedGas, inl e)
      | (gp, inr result) =>
          modify (Finalise true);;
          s ← get;
          let usedGas := u64 (usedGas + er_UsedGas result) in
          logs ← ask (receiptLogs (h_Number header) msg (tx_hash tx) (er_Err result) s);
          mret (gp, usedGas,
            inr (mkReceipt (bool_decide (is_Some (er_Err result))) usedGas logs (tx_hash tx)
                   (match m_To msg with
                    | None => CreateAddress (m_From msg) (tx_Nonce tx)
                    | Some _ => 0
                    end)
                   (er_UsedGas result) (sd_bhash s) (h_Number header) (sd_txIndex s)))
      end
  end.

(** The transactions of [StateProcessor.Process]; the block is invalid with
    the first that is. *)
Fixpoint processTransactions (header : Header) (bhash : bytes) (i : Z) (txs : list Transaction)
    (gp usedGas : Z) (receipts : list Receipt) :
    M AccountsDB (txError + list Receipt * Z) :=
  match txs with
  | [] => mret (inr (receipts, usedGas))
  | tx :: txs =>
      modify (Prepare (tx_hash tx) bhash i);;
      r ← ApplyTransaction header tx gp usedGas;
      match r with
      | (_, _, inl e) => mret (inl e)
      | (gp, usedGas, inr receipt) =>
          processTransactions header bhash (i + 1) txs gp usedGas (receipts ++ [receipt])
      end
  end.
End machine.
