(* ===== verification/StateTransitionProofs.v ===== *)
(** What transactions do to accounts and to the gas pool. *)

From Stdlib Require Import Ascii String.
From S2P Require Import Prelude Keys StateDB GovTypes Accounts AccountsProofs StateTransition.

Section observers.
Context `{Hashing}.

(** ** What is read of an account *)

Definition balanceOf (s : AccountsDB) (a : Z) : Z := from_option Balance 0 (live s a).
Definition nonceOf (s : AccountsDB) (a : Z) : Z := from_option Nonce 0 (live s a).
Definition codeAt (s : AccountsDB) (a : Z) : option bytes := live s a ≫= codeOf (sd_codes s).
Definition storageAt (s : AccountsDB) (a : Z) (k : bytes) : bytes :=
  from_option (λ o, readState s o k) [] (live s a).

(** The accounts of [s'] read as those of [s] but for the changes [db] of the
    balances and [dn] of the nonces. *)
Record accounts_change (db : Z → Z) (dn : Z → Z → Z) (s s' : AccountsDB) : Prop := {
  ac_balance : ∀ a, balanceOf s' a = balanceOf s a + db a;
  ac_nonce : ∀ a, nonceOf s' a = dn a (nonceOf s a);
  ac_code : ∀ a, codeAt s' a = codeAt s a;
  ac_storage : ∀ a k, storageAt s' a k = storageAt s a k;
}.

Definition at_addr (a x b : Z) : Z := if decide (b = a) then x else 0.

Definition same_nonce (_ n : Z) : Z := n.

Lemma view_observers s s' : same_view s' s → accounts_change (λ _, 0) same_nonce s s'.
Proof.
  intros [Hb Hl _ _ _ _]. split; intros a; try intros k; specialize (Hl a);
    unfold balanceOf, nonceOf, codeAt, storageAt; rewrite ?Z.add_0_r;
    inversion Hl as [o1 o2 Ho E1 E2|E1 E2]; cbn; try done; destruct Ho as [? Hd ? Hc Hk ?].
  - unfold Balance. by rewrite Hd.
  - unfold Nonce. by rewrite Hd.
  - by rewrite Hc, (same_codes _ _ Hb).
  - by rewrite Hk, (readState_base _ _ _ _ Hb).
Qed.

Lemma accounts_change_trans f1 f2 g1 g2 s1 s2 s3 :
  accounts_change f1 g1 s1 s2 → accounts_change f2 g2 s2 s3 →
  accounts_change (λ a, f1 a + f2 a) (λ a n, g2 a (g1 a n)) s1 s3.
Proof.
  intros [] []. split; intros a; [..|intros k]; try congruence.
  rewrite ac_balance1, ac_balance0. lia.
Qed.

(** *** Replacing the object of an address *)

Lemma put_change s a o' x n :
  so_deleted o' = false → Balance o' = balanceOf s a + x → Nonce o' = n →
  codeOf (sd_codes s) o' = codeAt s a → (∀ k, readState s o' k = storageAt s a k) →
  accounts_change (at_addr a x) (λ b m, if decide (b = a) then n else m) s (put a o' s).
Proof.
  intros Hd Hb Hn Hc Hk. split; intros b.
  - unfold balanceOf at 1, at_addr. rewrite live_put.
    case_decide as E; [subst; rewrite good_present by done; done|by rewrite Z.add_0_r].
  - unfold nonceOf at 1. rewrite live_put.
    case_decide as E; [subst; by rewrite good_present by done|done].
  - unfold codeAt at 1. rewrite live_put.
    case_decide as E; [subst; by rewrite good_present by done|done].
  - intros k. unfold storageAt at 1. rewrite live_put.
    case_decide as E; [subst; rewrite good_present by done; apply Hk|done].
Qed.

Lemma logged_change e s : accounts_change (λ _, 0) same_nonce s (logged e s).
Proof. apply view_observers, view_logged. Qed.

Lemma parentStorage_none s a k : parentObject s a = None → parentStorage s a k = None.
Proof.
  unfold parentObject, parentStorage. induction (sd_parents s) as [|[c objs] ps IH]; [done|].
  cbn [walkParents]. unfold getStateObjectLocalCache at 1, getStateObjectSnapshot at 1.
  destruct (objs !! a) as [o|]; [destruct (so_deleted o); [|done]|]; destruct c; auto.
Qed.

Lemma readState_new s a prefix k :
  parentObject s a = None → readState s (newObject a (newAccount prefix)) k = [].
Proof.
  intros Hp. unfold readState, committedState. cbn. by rewrite parentStorage_none.
Qed.

Lemma codeOf_new codes a prefix : codeOf codes (newObject a (newAccount prefix)) = None.
Proof. unfold codeOf, CodeHash. cbn. by rewrite bool_decide_true. Qed.

Context (Keccak256_length : ∀ x, length (Keccak256 x) = HashLength).

(** Getting hold of an object changes nothing that is read. *)
Lemma GetOrNew_change s a :
  good_state s → ∃ o s', GetOrNewStateObject a s = (Ok o, s') ∧ good_state s' ∧ held s' a o ∧
    accounts_change (λ _, 0) same_nonce s s'.
Proof.
  intros G. destruct (GetOrNewStateObject_run Keccak256_length s a G) as (o & s' & E & U & Ho).
  exists o, s'. split; [done|]. split; [apply U|]. split; [done|].
  unfold GetOrNewStateObject in E. rewrite (bind_Ok_run _ _ _ _ _ (getStateObject_run s a G)) in E.
  destruct (live s a) as [p|] eqn:Ha.
  { injection E as <- <-. apply view_observers, view_cached. }
  rewrite cached_none in E by done. rewrite (bind_Ok_run _ _ _ _ _ (createObject_none s a G Ha)) in E.
  injection E as <- <-. destruct (live_none _ _ G Ha) as [Hp Ht].
  pose proof (logged_change (createObjectChange a) s) as H1.
  set (s1 := logged (createObjectChange a) s) in *.
  pose proof (put_change s1 a (newObject a (newAccount (address_bytes a))) 0 0) as H2.
  destruct H2 as [B N C K]; try done.
  - unfold balanceOf. change (live s1 a) with (live s a). by rewrite Ha.
  - rewrite codeOf_new. unfold codeAt. change (live s1 a) with (live s a). by rewrite Ha.
  - intros k. rewrite readState_new by done. unfold storageAt.
    change (live s1 a) with (live s a). by rewrite Ha.
  - split; intros b.
    + rewrite B. unfold at_addr. destruct H1 as [-> _ _ _]. case_decide; lia.
    + rewrite N. destruct H1 as [_ -> _ _]. case_decide; [|done]. subst.
      unfold nonceOf, same_nonce. by rewrite Ha.
    + rewrite C. apply H1.
    + intros k. rewrite K. apply H1.
Qed.

(** ** Effects of operations *)

(** All but the accounts. *)
Record same_rest (s s' : AccountsDB) : Prop := {
  rest_base : same_base s s';
  rest_refund : sd_refund s' = sd_refund s;
  rest_logs : sd_logs s' = sd_logs s;
  rest_logSize : sd_logSize s' = sd_logSize s;
  rest_preimages : sd_preimages s' = sd_preimages s;
}.

Lemma same_rest_refl s : same_rest s s.
Proof. by split. Qed.

Lemma same_rest_trans s1 s2 s3 : same_rest s1 s2 → same_rest s2 s3 → same_rest s1 s3.
Proof. intros [B1 ? ? ? ?] [B2 ? ? ? ?]. split; try congruence. destruct B1, B2. split; congruence. Qed.

Lemma rest_view s s' : same_view s' s → same_rest s s'.
Proof. intros [B _ ? ? ? ?]. by split. Qed.

Lemma quiet_rest s : quiet (same_rest s).
Proof.
  split; [intros f s' [[] ? ? ? ?]|intros e s' [[] ? ? ? ?]|intros s' [[] ? ? ? ?]];
    (split; [by split|done..]).
Qed.

Lemma calm_ready {A} (m : M AccountsDB A) s r s' :
  calm m → ready s → m s = (Ok r, s') → ready s'.
Proof.
  intros [Hu Hs] [G C R] E. split.
  - by eapply Hu.
  - pose proof (Hs _ stable_counted s C) as C'. by rewrite E in C'.
  - destruct (Hs _ (stable_revisions (sd_revisions s) (sd_nextRevision s)) s) as [R' N']; [done|].
    rewrite E in R', N'. cbn in R', N'. by rewrite R', N'.
Qed.

(** [m] succeeds and changes balances by [db] and nonces by [dn], no more. *)
Definition effect (db : Z → Z) (dn : Z → Z → Z) (m : M AccountsDB unit) : Prop :=
  ∀ s, ready s → ∃ s', m s = (Ok tt, s') ∧ ready s' ∧ accounts_change db dn s s' ∧ same_rest s s'.

Lemma effect_bind f1 f2 g1 g2 m1 m2 :
  effect f1 g1 m1 → effect f2 g2 m2 →
  effect (λ a, f1 a + f2 a) (λ a n, g2 a (g1 a n)) (m1;; m2).
Proof.
  intros H1 H2 s Hs. destruct (H1 s Hs) as (s1 & E1 & R1 & A1 & S1).
  destruct (H2 s1 R1) as (s2 & E2 & R2 & A2 & S2).
  exists s2. rewrite (bind_Ok_run _ _ _ _ _ E1). split; [done|]. split; [done|].
  split; [by eapply accounts_change_trans|by eapply same_rest_trans].
Qed.

Lemma effect_weaken f1 f2 g1 g2 m :
  effect f1 g1 m → (∀ a, f1 a = f2 a) → (∀ a n, g1 a n = g2 a n) → effect f2 g2 m.
Proof.
  intros Hm Hf Hg s Hs. destruct (Hm s Hs) as (s' & E & R & [] & S).
  exists s'. repeat (split; [done|]). split; [|done].
  split; try done; intros a; by rewrite <- ?Hf, <- ?Hg.
Qed.

(** A change of the object that an address leads to. *)
Lemma effect_perform c a (k : stateObject → M AccountsDB unit) db dn :
  on_accounts c → perform c = (o ← GetOrNewStateObject a; k o) →
  (∀ s o, good_state s → held s a o →
    ∃ s', k o s = (Ok tt, s') ∧ accounts_change db dn s s') →
  effect db dn (perform c).
Proof.
  intros Hc Hp Hk s Hs.
  destruct (GetOrNew_change s a (ready_good _ Hs)) as (o & s1 & E1 & G1 & Ho & A1).
  destruct (Hk s1 o G1 Ho) as (s2 & E2 & A2).
  assert (E : perform c s = (Ok tt, s2)) by by rewrite Hp, (bind_Ok_run _ _ _ _ _ E1).
  exists s2. split; [done|]. assert (Hj : journaled c) by by destruct c.
  split; [exact (calm_ready _ _ _ _ (calm_perform Keccak256_length c Hj) Hs E)|]. split.
  - destruct A1, A2. split; intros b; [..|intros key]; rewrite ?ac_balance1, ?ac_balance0,
      ?ac_nonce1, ?ac_nonce0, ?ac_code1, ?ac_code0, ?ac_storage1, ?ac_storage0; unfold same_nonce;
      try done; lia.
  - pose proof (quiet_perform _ (quiet_rest s) c Hc s (same_rest_refl s)) as HR. by rewrite E in HR.
Qed.

Lemma held_balanceOf s a o : held s a o → balanceOf s a = Balance o.
Proof. intros Ho. unfold balanceOf. by rewrite (held_live _ _ _ Ho). Qed.

Lemma set_change s a o o' e x n :
  held s a o → so_deleted o' = so_deleted o → Balance o' = Balance o + x → Nonce o' = n →
  codeOf (sd_codes s) o' = codeOf (sd_codes s) o → (∀ k, readState s o' k = readState s o k) →
  accounts_change (at_addr a x) (λ b m, if decide (b = a) then n else m) s (put a o' (logged e s)).
Proof.
  intros Ho Hd Hb Hn Hc Hk. pose proof (held_live _ _ _ Ho) as Hl.
  assert (accounts_change (at_addr a x) (λ b m, if decide (b = a) then n else m) s (put a o' s))
    as []; [|by split].
  apply put_change; [|unfold balanceOf|done|unfold codeAt|intros k; unfold storageAt];
    rewrite ?Hl; cbn; auto. rewrite Hd. apply Ho.
Qed.

Lemma soSetBalance_change s a o y :
  good_state s → held s a o →
  ∃ s', soSetBalance o y s = (Ok tt, s') ∧
    accounts_change (at_addr a (y - Balance o)) same_nonce s s'.
Proof.
  intros G Ho. unfold soSetBalance, append. rewrite (held_address s a o) by done. run_eval.
  rewrite (mutate_run _ _ _ o) by apply Ho. eexists. split; [done|].
  destruct (set_change s a o (setBalance y o) (balanceChange a (Balance o)) (y - Balance o) (Nonce o))
    as [B N C K]; try done; [cbn; lia|].
  split; try done. intros b. rewrite N. unfold same_nonce. case_decide; [|done].
  subst. unfold nonceOf. by rewrite (held_live _ _ _ Ho).
Qed.

Lemma effect_AddBalance a x : effect (at_addr a x) same_nonce (AddBalance a x).
Proof.
  apply (effect_perform (OpAddBalance a x) a (λ o, soAddBalance o x)); [done|done|].
  intros s o G Ho. unfold soAddBalance. destruct (Z.eqb_spec x 0) as [->|Hx].
  - assert (∃ s', when (objectEmpty o) (touch (so_address o)) s = (Ok tt, s') ∧
      accounts_change (λ _, 0) same_nonce s s') as (s' & E & [B N C K]).
    { destruct (objectEmpty o); cbn; [|eexists; split; [done|by apply view_observers]].
      unfold touch, append. run_eval. destruct (_ =? ripemd); cbn;
        (eexists; split; [done|]); apply view_observers; by apply (view_frame s s). }
    exists s'. split; [done|]. split; try done. intros b. rewrite B. unfold at_addr. by case_decide.
  - destruct (soSetBalance_change s a o (Balance o + x) G Ho) as (s' & E & A).
    exists s'. split; [done|]. by replace (Balance o + x - Balance o) with x in A by lia.
Qed.

Lemma effect_SubBalance a x : effect (at_addr a (- x)) same_nonce (SubBalance a x).
Proof.
  apply (effect_perform (OpSubBalance a x) a (λ o, soSubBalance o x)); [done|done|].
  intros s o G Ho. unfold soSubBalance. destruct (Z.eqb_spec x 0) as [->|Hx].
  - exists s. split; [done|]. destruct (view_observers s s) as [B N C K]; [done|].
    split; try done. intros b. unfold at_addr. case_decide; lia.
  - replace (- x) with (Balance o - x - Balance o) by lia. by apply soSetBalance_change.
Qed.

Definition set_nonce (a n b m : Z) : Z := if decide (b = a) then n else m.

Lemma effect_SetNonce a n : effect (λ _, 0) (set_nonce a n) (SetNonce a n).
Proof.
  apply (effect_perform (OpSetNonce a n) a (λ o,
    append (nonceChange a (Nonce o));; mutate a (setNonce n))); [done|done|].
  intros s o G Ho. unfold append. run_eval. rewrite (mutate_run _ _ _ o) by apply Ho.
  eexists. split; [done|].
  destruct (set_change s a o (setNonce n o) (nonceChange a (Nonce o)) 0 n) as [B N C K]; try done;
    [by rewrite Z.add_0_r|].
  split; try done. intros b. rewrite B. unfold at_addr. by case_decide.
Qed.

Lemma effect_GetOrNew a : effect (λ _, 0) same_nonce (GetOrNewStateObject a;; mret tt).
Proof.
  intros s Hs. destruct (GetOrNew_change s a (ready_good _ Hs)) as (o & s1 & E1 & G1 & Ho & A1).
  exists s1. rewrite (bind_Ok_run _ _ _ _ _ E1). split; [done|]. split; [|split; [done|]].
  - destruct (GetOrNewStateObject_run Keccak256_length s a (ready_good _ Hs)) as (o' & s' & E & U & _).
    rewrite E1 in E. injection E as <- <-. split; [done|..].
    + pose proof (quiet_GetOrNew _ (stable_quiet _ stable_counted) a s (ready_counted _ Hs)) as C.
      by rewrite E1 in C.
    + pose proof (quiet_GetOrNew _ (stable_quiet _ (stable_revisions (sd_revisions s)
        (sd_nextRevision s))) a s (conj eq_refl eq_refl)) as [R N].
      rewrite E1 in R, N. cbn in R, N. rewrite R, N. apply Hs.
  - pose proof (quiet_GetOrNew _ (quiet_rest s) a s (same_rest_refl s)) as HR. by rewrite E1 in HR.
Qed.

Lemma CreateAccount_none s a :
  good_state s → live s a = None → CreateAccount a s = (GetOrNewStateObject a;; mret tt) s.
Proof.
  intros G Ha. unfold CreateAccount, GetOrNewStateObject. rewrite bind_assoc.
  rewrite (bind_Ok_run _ _ _ _ _ (getStateObject_run s a G)), Ha, cached_none by done.
  rewrite bind_assoc. rewrite !(bind_Ok_run _ _ _ _ _ (createObject_none s a G Ha)). done.
Qed.
End observers.

Section machine.
Context `{Hashing, Machine}.
Context (Keccak256_length : ∀ x, length (Keccak256 x) = HashLength).

(** ** The contract of the interpreters

    A run changes the state by the operations of the state database, reverts
    to its own snapshots only, and does not make gas. *)
Record machine_ok : Prop := {
  machine_journaled : ∀ fr s r s',
    runPrecompiled fr s = (Ok r, s') ∨ runCode fr s = (Ok r, s') →
    ∃ cs, Forall (above (sd_nextRevision s - 1)) cs ∧ runChanges cs s = (Ok tt, s');
  machine_gas : ∀ fr s r s',
    runPrecompiled fr s = (Ok r, s') ∨ runCode fr s = (Ok r, s') →
    0 <= fr_gas fr → 0 <= rr_gas r <= fr_gas fr;
}.

Context (HM : machine_ok).

Lemma run_journaled fr s r s' :
  run fr s = (Ok r, s') →
  ∃ cs, Forall (above (sd_nextRevision s - 1)) cs ∧ runChanges cs s = (Ok tt, s').
Proof.
  unfold run. case_match; [intros E; eapply machine_journaled; eauto|].
  case_match; [intros [= <- <-]; by exists []|]. intros E. eapply machine_journaled; eauto.
Qed.

Lemma run_gas fr s r s' : run fr s = (Ok r, s') → 0 <= fr_gas fr → 0 <= rr_gas r <= fr_gas fr.
Proof.
  unfold run. case_match; [intros E ?; eapply machine_gas; eauto|].
  case_match; [intros [= <- <-]; cbn; lia|]. intros E ?. eapply machine_gas; eauto.
Qed.

(** ** Reads *)

Lemma GetBalance_run s a : good_state s → GetBalance a s = (Ok (balanceOf s a), cached s a).
Proof.
  intros G. unfold GetBalance. rewrite (bind_Ok_run _ _ _ _ _ (getStateObject_run s a G)).
  unfold balanceOf. by destruct (live s a).
Qed.

Lemma GetNonce_run s a : good_state s → GetNonce a s = (Ok (nonceOf s a), cached s a).
Proof.
  intros G. unfold GetNonce. rewrite (bind_Ok_run _ _ _ _ _ (getStateObject_run s a G)).
  unfold nonceOf. by destruct (live s a).
Qed.

Lemma calm_GetBalance a : calm (GetBalance a).
Proof. apply (calm_read a (λ o, match o with Some o => Balance o | None => 0 end)). Qed.

Lemma calm_GetCodeHash a : calm (GetCodeHash a).
Proof.
  apply (calm_read a (λ o, match o with
                           | Some o => BytesToHash (CodeHash o)
                           | None => replicate HashLength 0
                           end)).
Qed.

Lemma calm_Exist a : calm (Exist a).
Proof. apply (calm_read a (λ o, bool_decide (is_Some o))). Qed.

Lemma calm_CanTransfer a x : calm (CanTransfer a x).
Proof. apply calm_bind; [apply calm_GetBalance|intros b; apply calm_ret]. Qed.

Lemma calm_op c : journaled c → calm (perform c).
Proof. by apply calm_perform. Qed.

Lemma calm_GetCode a : calm (GetCode a).
Proof.
  split; [apply undoes_GetCode|]. intros P HP s Hs.
  pose proof (stable_perform P (OpGetCode a) HP I s Hs) as HP'. cbn [perform] in HP'.
  revert HP'. run_eval. by destruct (GetCode a s) as [[| |] ?].
Qed.

Lemma calm_Transfer a b x : calm (Transfer a b x).
Proof.
  apply calm_bind; [by apply (calm_op (OpSubBalance a x))|].
  intros _. by apply (calm_op (OpAddBalance b x)).
Qed.

Lemma ready_cached s a : ready s → ready (cached s a).
Proof.
  intros Hs. eapply (calm_ready (getStateObject a)); [apply calm_getStateObject|exact Hs|].
  apply getStateObject_run, Hs.
Qed.

(** ** Failed calls *)

Lemma since_run fr s id s1 r s2 :
  ready s → id = sd_nextRevision s → since s id s1 → run fr s1 = (Ok r, s2) → since s id s2.
Proof.
  intros Hs -> H1 (cs & Hcs & E)%run_journaled.
  eapply since_runChanges; [done|apply Hs|apply Hs| |exact H1|exact E].
  eapply Forall_impl; [exact Hcs|]. intros [] Hc; cbn in *; try done.
  pose proof (since_next _ _ _ H1). lia.
Qed.

Lemma settle_run s id s1 r r' s2 :
  ready s → id = sd_nextRevision s → since s id s1 → settle id r s1 = (Ok r', s2) →
  rr_err r' = rr_err r ∧ (rr_err r = None → s2 = s1 ∧ r' = r) ∧
  (rr_err r ≠ None → same_view s2 s ∧ ready s2).
Proof.
  intros Hs -> H1. unfold settle. destruct (rr_err r) as [e|] eqn:He.
  - destruct (since_RevertTo s _ s1 (ready_good _ Hs) (ready_revisions _ Hs) H1)
      as (t & E & V & C & G & _ & R & N).
    rewrite (bind_Ok_run _ _ _ _ _ E). intros [= <- <-]. cbn.
    split; [done|]. split; [done|]. intros _. split; [done|]. split; [done|done|].
    rewrite R. eapply Forall_impl; [apply Hs|]. cbn. lia.
  - intros [= <- <-]. by rewrite He.
Qed.

Lemma since_ready s s1 : ready s → since s (sd_nextRevision s) s1 → ready s1.
Proof.
  intros Hs [U C (newer & R & F) N]. split; [apply U|done|].
  rewrite R. apply Forall_app_2; [eapply Forall_impl; [apply Hs|]; cbn; lia|].
  apply Forall_cons. split; [done|]. eapply Forall_impl; [exact F|]. cbn. lia.
Qed.

Lemma since_Snapshot_start s id s1 :
  ready s → Snapshot s = (Ok id, s1) → id = sd_nextRevision s ∧ since s id s1.
Proof.
  intros Hs E. split; [by injection E as <- _|]. by apply since_start; [apply Hs..|].
Qed.

(** What the machine does between the snapshot of a call and its end. *)
Definition body (caller addr : Z) (input : bytes) (gas value : Z) (exist : bool) :
    M AccountsDB runResult :=
  when (negb exist) (CreateAccount addr);;
  Transfer caller addr value;;
  GetCodeHash addr;;
  code ← GetCode addr;
  run (mkFrame caller addr addr (default [] code) value gas input false).

Lemma since_body s s1 caller addr input gas value exist r s2 :
  ready s → since s (sd_nextRevision s) s1 → 0 <= gas →
  body caller addr input gas value exist s1 = (Ok r, s2) →
  since s (sd_nextRevision s) s2 ∧ 0 <= rr_gas r <= gas.
Proof.
  intros Hs H1 Hg. unfold body. set (m1 := when _ _).
  assert (Hm1 : calm m1).
  { unfold m1. destruct exist; [apply calm_ret|by apply (calm_op (OpCreateAccount addr))]. }
  intros (u & t1 & E1 & E)%bind_Ok_inv.
  pose proof (since_calm _ _ _ _ _ _ (ready_good _ Hs) Hm1 H1 E1) as H2.
  apply bind_Ok_inv in E as ([] & t2 & E2 & E).
  pose proof (since_calm _ _ _ _ _ _ (ready_good _ Hs) (calm_Transfer _ _ _) H2 E2) as H3.
  apply bind_Ok_inv in E as (h & t3 & E3 & E).
  pose proof (since_calm _ _ _ _ _ _ (ready_good _ Hs) (calm_GetCodeHash _) H3 E3) as H4.
  apply bind_Ok_inv in E as (c & t4 & E4 & E).
  pose proof (since_calm _ _ _ _ _ _ (ready_good _ Hs) (calm_GetCode _) H4 E4) as H5.
  split; [by eapply since_run|]. by eapply run_gas in E.
Qed.

Lemma Call_eq depth caller addr input gas value s :
  depth <= CallCreateDepth →
  Call depth caller addr input gas value s =
  (can ← (if value =? 0 then mret true else CanTransfer caller value);
   if negb can then mret (mkResult [] [] gas (Some ErrInsufficientBalance))
   else
   snapshot ← Snapshot;
   exist ← Exist addr;
   if negb exist && negb (IsPrecompiledContract addr) && (value =? 0)
   then mret (mkResult [] [] gas None)
   else r ← body caller addr input gas value exist; settle snapshot r) s.
Proof.
  intros Hd. unfold Call. rewrite (proj2 (Z.ltb_ge _ _)) by done.
  apply bind_ext_run. intros can s1. destruct (negb can); [done|].
  apply bind_ext_run. intros id s2. apply bind_ext_run. intros exist s3.
  destruct (_ && _); [done|]. unfold body.
  repeat (rewrite bind_assoc; apply bind_ext_run; intros ? ?). done.
Qed.

Lemma Call_run s caller addr input gas value r s' :
  ready s → 0 <= gas → Call 0 caller addr input gas value s = (Ok r, s') →
  ready s' ∧ 0 <= rr_gas r <= gas ∧ (rr_err r ≠ None → same_view s' s).
Proof.
  intros Hs Hg. rewrite Call_eq by (unfold CallCreateDepth; lia).
  intros (can & s1 & E1 & E)%bind_Ok_inv.
  assert (ready s1 ∧ same_view s1 s) as [R1 V1].
  { destruct (value =? 0); [by injection E1 as <- <-|].
    unfold CanTransfer in E1.
    rewrite (bind_Ok_run _ _ _ _ _ (GetBalance_run s caller (ready_good _ Hs))) in E1.
    injection E1 as <- <-. split; [by apply ready_cached|apply view_cached]. }
  destruct (negb can); [by injection E as <- <-|].
  apply bind_Ok_inv in E as (id & s2 & E2 & E).
  destruct (since_Snapshot_start s1 id s2 R1 E2) as [-> H2].
  apply bind_Ok_inv in E as (ex & s3 & E3 & E).
  pose proof (since_calm _ _ _ _ _ _ (ready_good _ R1) (calm_Exist _) H2 E3) as H3.
  destruct (negb ex && _ && _).
  { injection E as <- <-. split; [by eapply since_ready|done]. }
  apply bind_Ok_inv in E as (r0 & s4 & E4 & E).
  destruct (since_body s1 s3 _ _ _ _ _ _ _ _ R1 H3 Hg E4) as [H4 Hgas].
  destruct (settle_run s1 _ s4 r0 r s' R1 eq_refl H4 E) as (He & Hok & Herr).
  destruct (rr_err r0) as [e|] eqn:He0.
  - destruct Herr as [V R]; [done|]. split; [done|]. split; [|intros _; by rewrite V].
    unfold settle in E. rewrite He0 in E. apply bind_Ok_inv in E as ([] & t & _ & [= <- _]).
    cbn. case_bool_decide; lia.
  - destruct Hok as [-> ->]; [done|]. split; [by eapply since_ready|]. split; [done|]. by rewrite He0.
Qed.

(** ** Gas and fees *)

Lemma preCheck_run s msg gp gp1 s1 :
  ready s → preCheck msg gp s = (Ok (inr gp1), s1) →
  ready s1 ∧ accounts_change (at_addr (m_From msg) (- (m_Gas msg * m_GasPrice msg))) same_nonce s s1 ∧
  same_rest s s1 ∧ gp1 = gp - m_Gas msg ∧ nonceOf s (m_From msg) = m_Nonce msg.
Proof.
  intros Hs. unfold preCheck.
  rewrite (bind_Ok_run _ _ _ _ _ (GetNonce_run s (m_From msg) (ready_good _ Hs))).
  destruct (Z.ltb_spec (nonceOf s (m_From msg)) (m_Nonce msg)); [done|].
  destruct (Z.ltb_spec (m_Nonce msg) (nonceOf s (m_From msg))); [done|].
  assert (R : ready (cached s (m_From msg))) by by apply ready_cached.
  assert (V : same_view (cached s (m_From msg)) s) by apply view_cached.
  assert (S : same_rest s (cached s (m_From msg))) by by apply rest_view.
  unfold buyGas. rewrite (bind_Ok_run _ _ _ _ _ (GetBalance_run _ _ (ready_good _ R))).
  assert (C : cached (cached s (m_From msg)) (m_From msg) = cached s (m_From msg)).
  { unfold cached at 1. destruct (resolve (cached s (m_From msg)) (m_From msg)) as [o|] eqn:Ho; [|done].
    unfold cached in Ho |- *. destruct (resolve s (m_From msg)) as [o'|] eqn:Ho'; [|congruence].
    rewrite put_put. f_equal. unfold resolve, put in Ho. cbn in Ho.
    rewrite lookup_insert_eq in Ho. congruence. }
  rewrite C. destruct (_ <? _); [done|]. unfold SubGas.
  destruct (gp <? m_Gas msg); [done|].
  destruct (effect_SubBalance Keccak256_length (m_From msg) (m_Gas msg * m_GasPrice msg) _ R)
    as (s2 & E & R2 & A2 & S2).
  rewrite (bind_Ok_run _ _ _ _ _ E). intros [= <- <-]. split; [done|].
  pose proof (accounts_change_trans _ _ _ _ _ _ _ (view_observers _ _ V) A2) as [].
  split; [by split|]. split; [by eapply same_rest_trans|]. split; [done|lia].
Qed.

Lemma conclude_run s coinbase msg r gp gp' res s' :
  ready s → in_u64 (m_Gas msg) → 0 <= rr_gas r <= m_Gas msg → 0 <= sd_refund s →
  conclude coinbase msg r gp s = (Ok (gp', inr res), s') →
  let gas := rr_gas r + Z.min ((m_Gas msg - rr_gas r) / 2) (sd_refund s) in
  0 <= er_UsedGas res <= m_Gas msg ∧ gas = m_Gas msg - er_UsedGas res ∧ gp' = gp + gas ∧
  er_Err res = rr_err r ∧ ready s' ∧ same_rest s s' ∧
  accounts_change (λ a, at_addr (m_From msg) (gas * m_GasPrice msg) a +
                        at_addr coinbase (er_UsedGas res * m_GasPrice msg) a) same_nonce s s'.
Proof.
  intros Hs Hm Hr Hf. set (gas := rr_gas r + _). cbv zeta.
  assert (Hgas : 0 <= gas <= m_Gas msg).
  { unfold gas. pose proof (Z.div_pos (m_Gas msg - rr_gas r) 2).
    pose proof (Z.div_le_upper_bound (m_Gas msg - rr_gas r) 2 (m_Gas msg - rr_gas r)). lia. }
  assert (Hu : ∀ x, 0 <= x <= m_Gas msg → u64 x = x).
  { intros x Hx. apply u64_small. unfold in_u64 in *. lia. }
  unfold conclude, refundGas. intros (p & s1 & E1 & E)%bind_Ok_inv.
  rewrite (bind_Ok_run _ _ s (sd_refund s) s) in E1 by done. cbv zeta in E1. unfold gasUsed in *.
  rewrite (Hu (m_Gas msg - rr_gas r)) in E1 by lia. fold gas in E1. rewrite (Hu gas) in E1 by done.
  destruct (effect_AddBalance Keccak256_length (m_From msg) (gas * m_GasPrice msg) s Hs)
    as (s2 & E2 & R2 & A2 & S2).
  rewrite (bind_Ok_run _ _ _ _ _ E2) in E1.
  apply bind_Ok_inv in E1 as (gp2 & s3 & E3 & [= <- <-]).
  assert (s3 = s2 ∧ gp2 = gp + gas) as [-> ->].
  { unfold ask, AddGas in E3. destruct (_ <? gp); [done|]. by injection E3. }
  cbn [fst snd] in E. rewrite (Hu (m_Gas msg - gas)) in E by lia.
  destruct (effect_AddBalance Keccak256_length coinbase ((m_Gas msg - gas) * m_GasPrice msg) s2 R2)
    as (s4 & E4 & R4 & A4 & S4).
  rewrite (bind_Ok_run _ _ _ _ _ E4) in E. injection E as <- <- <-. cbn.
  split; [lia|]. split; [lia|]. split; [done|]. split; [done|]. split; [done|].
  split; [by eapply same_rest_trans|].
  exact (accounts_change_trans _ _ _ _ _ _ _ A2 A4).
Qed.

(** The intrinsic gas is the price of the data, without overflow. *)
Lemma IntrinsicGas_exact data creation g :
  IntrinsicGas data creation = Ok (inr g) →
  ∃ p q, p ∈ [TxDataNonZeroGas; TxDataNonZeroWasmDeployGas] ∧
    q ∈ [TxDataZeroGas; TxDataZeroWasmDeployGas] ∧
    g = (if creation then TxGasContractCreation else TxGas) + nonZero data * p +
        (Z.of_nat (length data) - nonZero data) * q ∧ in_u64 g.
Proof.
  unfold IntrinsicGas. intros (w & _ & E)%outcome_bind_Ok. revert E.
  set (base := if creation then _ else _). set (p := if w then _ else _). set (q := if w then _ else _).
  assert (Hbase : 0 <= base <= MaxUint64) by (unfold base, MaxUint64; by destruct creation).
  assert (Hp : p ∈ [TxDataNonZeroGas; TxDataNonZeroWasmDeployGas] ∧ 0 < p).
  { unfold p. destruct w; (split; [set_solver|done]). }
  assert (Hq : q ∈ [TxDataZeroGas; TxDataZeroWasmDeployGas] ∧ 0 < q).
  { unfold q. destruct w; (split; [set_solver|done]). }
  assert (Hnz : 0 <= nonZero data <= Z.of_nat (length data)).
  { unfold nonZero. pose proof (length_filter (λ b, b ≠ 0) data). lia. }
  destruct data as [|b bs] eqn:Hdata; rewrite <- ?Hdata in *.
  { intros [= <-]. exists p, q. split; [apply Hp|]. split; [apply Hq|].
    subst. unfold nonZero, in_u64. cbn. unfold MaxUint64 in Hbase. lia. }
  destruct (Z.ltb_spec ((MaxUint64 - base) / p) (nonZero data)) as [|H1]; [done|].
  assert (H1' : nonZero data * p <= MaxUint64 - base).
  { apply Z.mul_le_mono_nonneg_r with (p := p) in H1; [|lia].
    pose proof (Z.mul_div_le (MaxUint64 - base) p). lia. }
  rewrite u64_small by (unfold in_u64, MaxUint64 in *; nia).
  set (g1 := base + nonZero data * p) in *.
  destruct (Z.ltb_spec ((MaxUint64 - g1) / q) (Z.of_nat (length data) - nonZero data)) as [|H2]; [done|].
  assert (H2' : (Z.of_nat (length data) - nonZero data) * q <= MaxUint64 - g1).
  { apply Z.mul_le_mono_nonneg_r with (p := q) in H2; [|lia].
    pose proof (Z.mul_div_le (MaxUint64 - g1) q). lia. }
  rewrite u64_small by (unfold in_u64, MaxUint64 in *; nia).
  intros [= <-]. exists p, q. split; [apply Hp|]. split; [apply Hq|]. split; [done|].
  unfold in_u64, MaxUint64 in *. nia.
Qed.

Lemma conclude_err s coinbase msg r gp gp' res s' :
  conclude coinbase msg r gp s = (Ok (gp', inr res), s') → er_Err res = rr_err r.
Proof.
  unfold conclude. intros (p & s1 & _ & E)%bind_Ok_inv. cbv zeta in E.
  by apply bind_Ok_inv in E as ([] & s2 & _ & [= _ <- _]).
Qed.

(** The stages of a transition that is not refused. *)
Lemma TransitionDb_inv s coinbase msg gp gp' res s' :
  ready s → TransitionDb coinbase msg gp s = (Ok (gp', inr res), s') →
  ∃ s1 ig r s2,
    preCheck msg gp s = (Ok (inr (gp - m_Gas msg)), s1) ∧
    IntrinsicGas (m_Data msg) (bool_decide (m_To msg = None)) = Ok (inr ig) ∧
    0 <= ig <= m_Gas msg ∧ execute msg (m_Gas msg - ig) s1 = (Ok r, s2) ∧
    conclude coinbase msg r (gp - m_Gas msg) s2 = (Ok (gp', inr res), s').
Proof.
  intros Hs Hrun. unfold TransitionDb in Hrun.
  apply bind_Ok_inv in Hrun as (b & s1 & E1 & E). destruct b as [?|gp1]; [done|].
  destruct (preCheck_run s msg gp gp1 s1 Hs E1) as (_ & _ & _ & -> & _).
  apply bind_Ok_inv in E as (i & s1' & Ei & E). unfold ask in Ei. injection Ei as Ei <-.
  destruct i as [?|ig]; [done|]. destruct (Z.ltb_spec (m_Gas msg) ig); [done|].
  apply bind_Ok_inv in E as (r & s2 & E2 & E).
  exists s1, ig, r, s2. split; [done|]. split; [done|].
  assert (0 <= ig) by (by apply IntrinsicGas_exact in Ei as (? & ? & _ & _ & _ & [? _])).
  split; [lia|]. split; [done|]. destruct (rr_err r) as [e|]; [|done].
  by destruct (fatal e).
Qed.


(** ** No money is made *)

Definition total (f : Z → Z) (L : gset Z) : Z := foldr (λ a n, f a + n) 0 (elements L).

Lemma total_add f g L : total (λ a, f a + g a) L = total f L + total g L.
Proof. unfold total. induction (elements L) as [|a l IH]; cbn; lia. Qed.

Lemma total_ext f g L : (∀ a, f a = g a) → total f L = total g L.
Proof. intros Hfg. unfold total. induction (elements L) as [|a l IH]; cbn; [done|]. by rewrite Hfg, IH. Qed.

Lemma foldr_at_addr a x l :
  NoDup l → foldr (λ b n, at_addr a x b + n) 0 l = if bool_decide (a ∈ l) then x else 0.
Proof.
  induction 1 as [|b l Hb _ IH]; [done|]. cbn. rewrite IH. unfold at_addr.
  destruct (decide (b = a)) as [->|Hne].
  - rewrite bool_decide_false, bool_decide_true by set_solver. lia.
  - rewrite Z.add_0_l, (bool_decide_ext (a ∈ b :: l) (a ∈ l)) by set_solver. done.
Qed.

Lemma total_at_addr a x L : a ∈ L → total (at_addr a x) L = x.
Proof.
  intros Ha. unfold total. rewrite foldr_at_addr by apply NoDup_elements.
  rewrite bool_decide_true; [done|]. by apply elem_of_elements.
Qed.

(** From [s] to [t] the sum of the balances does not grow, once all accounts
    concerned are counted. *)
Definition thrifty (s t : AccountsDB) : Prop :=
  ∃ L0 : gset Z, ∀ L, L0 ⊆ L → total (balanceOf t) L <= total (balanceOf s) L.

Lemma thrifty_trans s t u : thrifty s t → thrifty t u → thrifty s u.
Proof.
  intros [L1 H1] [L2 H2]. exists (L1 ∪ L2). intros L HL.
  etrans; [apply H2; set_solver|apply H1; set_solver].
Qed.

Lemma thrifty_balances s t : (∀ a, balanceOf t a = balanceOf s a) → thrifty s t.
Proof. intros Hb. exists ∅. intros L _. by rewrite (total_ext _ _ L Hb). Qed.

Lemma thrifty_view s t : same_view t s → thrifty s t.
Proof.
  intros V. apply thrifty_balances. intros a. rewrite (ac_balance _ _ _ _ (view_observers _ _ V)). lia.
Qed.

Lemma total_change db dn s t L :
  accounts_change db dn s t → total (balanceOf t) L = total (balanceOf s) L + total db L.
Proof. intros A. rewrite <- total_add. apply total_ext, (ac_balance _ _ _ _ A). Qed.

(** *** The parts of a call *)

(** The balances do not grow and the refund counter stays unsigned. *)
Definition frugal (s t : AccountsDB) : Prop :=
  thrifty s t ∧ (0 <= sd_refund s → 0 <= sd_refund t).

Lemma frugal_trans s t u : frugal s t → frugal t u → frugal s u.
Proof. intros [] []. split; [by eapply thrifty_trans|auto]. Qed.

Lemma frugal_view s t : same_view t s → frugal s t.
Proof. intros V. split; [by apply thrifty_view|]. by rewrite (view_refund _ _ V). Qed.

Lemma frugal_rest s t : (∀ a, balanceOf t a = balanceOf s a) → same_rest s t → frugal s t.
Proof. intros Hb S. split; [by apply thrifty_balances|]. by rewrite (rest_refund _ _ S). Qed.

Lemma Transfer_run a b x s :
  ready s → ∃ t, Transfer a b x s = (Ok tt, t) ∧ ready t ∧ frugal s t.
Proof.
  intros Hs. destruct (effect_bind _ _ _ _ _ _ (effect_SubBalance Keccak256_length a x)
    (effect_AddBalance Keccak256_length b x) s Hs) as (t & E & R & A & S).
  exists t. split; [done|]. split; [done|]. split; [|by rewrite (rest_refund _ _ S)].
  exists {[a; b]}. intros L HL.
  rewrite (total_change _ _ _ _ L A), total_add, !total_at_addr by set_solver. lia.
Qed.

Lemma quiet_state c s t :
  on_accounts c → ready s → perform c s = (Ok tt, t) → ready t ∧ same_rest s t.
Proof.
  intros Hc Hs E. split.
  - eapply (calm_ready (perform c)); [apply calm_op; by destruct c|done..].
  - pose proof (quiet_perform _ (quiet_rest s) c Hc s (same_rest_refl s)) as HR. by rewrite E in HR.
Qed.

Lemma CreateAccount_run a s :
  ready s → ∃ t, CreateAccount a s = (Ok tt, t) ∧ ready t ∧ frugal s t.
Proof.
  intros Hs. pose proof (ready_good _ Hs) as G.
  assert (∃ t, CreateAccount a s = (Ok tt, t) ∧ ∀ b, balanceOf t b = balanceOf s b) as (t & E & B).
  { destruct (live s a) as [p|] eqn:Ha.
    - unfold CreateAccount.
      rewrite (bind_Ok_run _ _ _ _ _ (createObject_some s a p G Ha)). cbn [snd].
      erewrite mutate_run by apply lookup_insert_eq. rewrite put_put.
      eexists. split; [done|]. intros b. unfold balanceOf. rewrite live_put.
      case_decide; [by subst; rewrite Ha|].
      change (live (logged ?e ?x) b) with (live x b). by rewrite live_cached.
    - rewrite (CreateAccount_none s a G Ha).
      destruct (effect_GetOrNew Keccak256_length a s Hs) as (t & E & _ & A & _).
      exists t. split; [done|]. intros b. rewrite (ac_balance _ _ _ _ A). lia. }
  exists t. destruct (quiet_state (OpCreateAccount a) s t I Hs E) as [R S].
  split; [done|]. split; [done|]. by apply frugal_rest.
Qed.

Lemma GetCode_view a s c t : good_state s → GetCode a s = (Ok c, t) → same_view t s.
Proof.
  intros G. unfold GetCode. rewrite (bind_Ok_run _ _ _ _ _ (getStateObject_run s a G)).
  destruct (live s a) as [o|] eqn:Ha; [|intros [= <- <-]; apply view_cached].
  assert (Ho : held (cached s a) a o).
  { split; [by apply cached_lookup|by apply live_resolve in Ha as [_ ?]]. }
  rewrite (Code_run _ a o (good_cached _ _ G) Ho). intros [= <- <-].
  etrans; [|apply (view_cached a)]. apply (view_put_live a o); [by apply held_live| |apply Ho].
  apply same_code_cache.
Qed.

Lemma SetCode_run a code s :
  ready s → ∃ t, SetCode a code s = (Ok tt, t) ∧ ready t ∧ frugal s t.
Proof.
  intros Hs. destruct (GetOrNew_change Keccak256_length s a (ready_good _ Hs))
    as (o & s1 & E1 & G1 & Ho & A1).
  assert (∃ t, SetCode a code s = (Ok tt, t) ∧ ∀ b, balanceOf t b = balanceOf s b) as (t & E & B).
  { unfold SetCode. rewrite (bind_Ok_run _ _ _ _ _ E1).
    rewrite (bind_Ok_run _ _ _ _ _ (Code_run s1 a o G1 Ho)). unfold append. run_eval.
    erewrite mutate_run by apply lookup_insert_eq. eexists. split; [done|].
    intros b. transitivity (balanceOf s1 b); [|rewrite (ac_balance _ _ _ _ A1); lia].
    unfold balanceOf. rewrite live_put. case_decide as Hb.
    - subst. rewrite (held_live _ _ _ Ho), good_present by apply Ho. done.
    - change (live (with_journal ?f ?x) b) with (live x b). rewrite live_put. by case_decide. }
  exists t. destruct (quiet_state (OpSetCode a code) s t I Hs E) as [R S].
  split; [done|]. split; [done|]. by apply frugal_rest.
Qed.

Definition machine_frugal : Prop := ∀ fr s r s',
  ready s → runPrecompiled fr s = (Ok r, s') ∨ runCode fr s = (Ok r, s') → frugal s s'.

Context (HF : machine_frugal).

Lemma run_frugal fr s r s' : ready s → run fr s = (Ok r, s') → frugal s s'.
Proof.
  intros Hs. unfold run. case_match; [intros E; eapply HF; eauto|].
  case_match; [intros [= <- <-]; by apply frugal_view|]. intros E. eapply HF; eauto.
Qed.

Lemma body_frugal s caller addr input gas value exist r t :
  ready s → body caller addr input gas value exist s = (Ok r, t) → frugal s t.
Proof.
  intros Hs E. unfold body in E.
  assert (∃ s1, when (negb exist) (CreateAccount addr) s = (Ok tt, s1) ∧ ready s1 ∧ frugal s s1)
    as (s1 & E1 & R1 & F1).
  { destruct exist; [exists s; split; [done|split; [done|by apply frugal_view]]|].
    by apply CreateAccount_run. }
  rewrite (bind_Ok_run _ _ _ _ _ E1) in E.
  destruct (Transfer_run caller addr value s1 R1) as (s2 & E2 & R2 & F2).
  rewrite (bind_Ok_run _ _ _ _ _ E2) in E.
  apply bind_Ok_inv in E as (h & s3 & E3 & E). unfold GetCodeHash in E3.
  rewrite (bind_Ok_run _ _ _ _ _ (getStateObject_run s2 addr (ready_good _ R2))) in E3.
  injection E3 as _ <-. apply bind_Ok_inv in E as (c & s4 & E4 & E).
  assert (R3 := ready_cached s2 addr R2).
  assert (R4 := calm_ready _ _ _ _ (calm_GetCode addr) R3 E4).
  apply GetCode_view in E4; [|apply R3]. apply run_frugal in E; [|done].
  eapply frugal_trans; [exact F1|]. eapply frugal_trans; [exact F2|].
  eapply frugal_trans; [apply frugal_view, view_cached|].
  eapply frugal_trans; [by apply frugal_view|done].
Qed.

Lemma view_Snapshot s id t : Snapshot s = (Ok id, t) → same_view t s.
Proof. intros [= <- <-]. by apply (view_frame s s). Qed.

Lemma Call_frugal s caller addr input gas value r s' :
  ready s → 0 <= gas → Call 0 caller addr input gas value s = (Ok r, s') → frugal s s'.
Proof.
  intros Hs Hg Hrun. destruct (Call_run s _ _ _ _ _ _ _ Hs Hg Hrun) as (_ & _ & Hview).
  destruct (rr_err r) as [e|] eqn:Herr; [by apply frugal_view, Hview|].
  rewrite Call_eq in Hrun by (unfold CallCreateDepth; lia).
  apply bind_Ok_inv in Hrun as (can & s1 & E1 & E).
  assert (ready s1 ∧ same_view s1 s) as [R1 V1].
  { destruct (value =? 0); [by injection E1 as <- <-|]. unfold CanTransfer in E1.
    rewrite (bind_Ok_run _ _ _ _ _ (GetBalance_run s caller (ready_good _ Hs))) in E1.
    injection E1 as <- <-. split; [by apply ready_cached|apply view_cached]. }
  destruct (negb can); [by injection E as <- <-|].
  apply bind_Ok_inv in E as (id & s2 & E2 & E).
  destruct (since_Snapshot_start s1 id s2 R1 E2) as [-> H2]. apply view_Snapshot in E2.
  apply bind_Ok_inv in E as (ex & s3 & E3 & E).
  assert (R2 : ready s2) by by eapply since_ready.
  unfold Exist in E3.
  rewrite (bind_Ok_run _ _ _ _ _ (getStateObject_run s2 addr (ready_good _ R2))) in E3.
  injection E3 as _ <-. assert (V3 : same_view (cached s2 addr) s) by by rewrite view_cached, E2.
  destruct (negb ex && _ && _); [injection E as <- <-; by apply frugal_view|].
  apply bind_Ok_inv in E as (r0 & s4 & E4 & E). apply body_frugal in E4; [|by apply ready_cached].
  eapply frugal_trans; [by apply frugal_view|]. unfold settle in E.
  destruct (rr_err r0); [|by injection E as <- <-].
  apply bind_Ok_inv in E as ([] & t & _ & [= <- _]). done.
Qed.

(** *** Creation *)

Lemma SetNonce_run a n s : ready s → ∃ t, SetNonce a n s = (Ok tt, t) ∧ ready t ∧ frugal s t.
Proof.
  intros Hs. destruct (effect_SetNonce Keccak256_length a n s Hs) as (t & E & R & A & S).
  exists t. split; [done|]. split; [done|]. apply frugal_rest; [|done].
  intros b. rewrite (ac_balance _ _ _ _ A). lia.
Qed.

(** A state that has been reached since the snapshot of [s]. *)
Definition under (s t : AccountsDB) : Prop := since s (sd_nextRevision s) t ∧ frugal s t.

Lemma under_op {A} (m : M AccountsDB A) s t r u :
  ready s → calm m → under s t → m t = (Ok r, u) → frugal t u → under s u.
Proof.
  intros Hs Hm [H1 F1] E F. split; [|by eapply frugal_trans].
  by eapply since_calm; [apply Hs|exact Hm|exact H1|].
Qed.

Lemma under_ready s t : ready s → under s t → ready t.
Proof. intros Hs [H1 _]. by eapply since_ready. Qed.

(** The state after the code of a new contract has run. *)
Lemma created_under s s1 caller address code gas value r t :
  ready s → under s s1 → 0 <= gas →
  (CreateAccount address;; SetNonce address 1;; Transfer caller address value;;
   run (mkFrame caller address address code value gas [] true)) s1 = (Ok r, t) →
  under s t ∧ 0 <= rr_gas r <= gas.
Proof.
  intros Hs U1 Hg E. pose proof (under_ready _ _ Hs U1) as R1.
  destruct (CreateAccount_run address s1 R1) as (s2 & E2 & R2 & F2).
  rewrite (bind_Ok_run _ _ _ _ _ E2) in E.
  assert (U2 : under s s2) by exact (under_op _ _ _ _ _ Hs (calm_op (OpCreateAccount address) I) U1 E2 F2).
  destruct (SetNonce_run address 1 s2 R2) as (s3 & E3 & R3 & F3).
  rewrite (bind_Ok_run _ _ _ _ _ E3) in E.
  assert (U3 : under s s3) by exact (under_op _ _ _ _ _ Hs (calm_op (OpSetNonce address 1) I) U2 E3 F3).
  destruct (Transfer_run caller address value s3 R3) as (s4 & E4 & R4 & F4).
  rewrite (bind_Ok_run _ _ _ _ _ E4) in E.
  assert (U4 : under s s4) by exact (under_op _ _ _ _ _ Hs (calm_Transfer _ _ _) U3 E4 F4).
  split; [|by eapply run_gas in E]. split.
  - by eapply since_run; [..|apply U4|exact E].
  - eapply frugal_trans; [apply U4|by apply run_frugal in E].
Qed.

Lemma storeCode_under s t address r r' u :
  ready s → under s t → 0 <= rr_gas r → storeCode address r t = (Ok r', u) →
  under s u ∧ 0 <= rr_gas r' <= rr_gas r.
Proof.
  intros Hs U Hg. unfold storeCode. intros (w & t' & Ew & E)%bind_Ok_inv.
  unfold ask in Ew. injection Ew as _ <-. cbv zeta in E.
  set (price := if w then _ else _) in E.
  pose proof (u64_range (Z.of_nat (length (rr_ret r)) * price)) as Hu. unfold in_u64 in Hu.
  destruct (Z.ltb_spec (rr_gas r) (u64 (Z.of_nat (length (rr_ret r)) * price))).
  - injection E as <- <-. cbn. split; [done|lia].
  - destruct (SetCode_run address (rr_ret r) t (under_ready _ _ Hs U)) as (t1 & E1 & R1 & F1).
    rewrite (bind_Ok_run _ _ _ _ _ E1) in E. injection E as <- <-. cbn. split; [|lia].
    exact (under_op _ _ _ _ _ Hs (calm_op (OpSetCode address (rr_ret r)) I) U E1 F1).
Qed.

Lemma revert_under s t : ready s → under s t →
  ∃ u, RevertToSnapshot (sd_nextRevision s) t = (Ok tt, u) ∧ ready u ∧ same_view u s.
Proof.
  intros Hs [H1 _].
  destruct (since_RevertTo s _ t (ready_good _ Hs) (ready_revisions _ Hs) H1)
    as (u & E & V & C & G & _ & R & N).
  exists u. split; [done|]. split; [|done]. split; [done..|].
  rewrite R. eapply Forall_impl; [apply Hs|]. cbn. lia.
Qed.

Lemma bind_assoc4 {S A B} (m1 m2 m3 : M S unit) (m4 : M S A) (k : A → M S B) s :
  (m1;; m2;; m3;; m4 ≫= k) s = ((m1;; m2;; m3;; m4) ≫= k) s.
Proof.
  rewrite bind_assoc. apply bind_ext_run. intros [] s1.
  rewrite bind_assoc. apply bind_ext_run. intros [] s2. by rewrite bind_assoc.
Qed.

(** The end of a creation. *)
Lemma created_end s t address gas r r' s' :
  ready s → under s t → 0 <= rr_gas r <= gas →
  (let exceeded := MaxCodeSize <? Z.of_nat (length (rr_ret r)) in
   r ← (if bool_decide (rr_err r = None) && negb exceeded then storeCode address r else mret r);
   let revert := exceeded || negb (bool_decide (rr_err r = None))
                             && negb (bool_decide (rr_err r = Some ErrCodeStoreOutOfGas)) in
   when revert (RevertToSnapshot (sd_nextRevision s));;
   let left := if revert && negb (bool_decide (rr_err r = Some ErrExecutionReverted))
               then 0 else rr_gas r in
   let err := if exceeded && bool_decide (rr_err r = None) then Some ErrMaxCodeSizeExceeded
              else rr_err r in
   mret (mkResult (rr_ret r) (rr_spare r) left err)) t = (Ok r', s') →
  ready s' ∧ 0 <= rr_gas r' <= gas ∧ frugal s s'.
Proof.
  intros Hs U Hr. cbv zeta. set (ex := MaxCodeSize <? _). intros (r1 & t1 & E1 & E)%bind_Ok_inv.
  assert (under s t1 ∧ 0 <= rr_gas r1 <= gas) as [U1 Hr1].
  { destruct (bool_decide (rr_err r = None) && negb ex); [|by injection E1 as <- <-].
    destruct (storeCode_under _ _ _ _ _ _ Hs U (proj1 Hr) E1) as [? ?]. split; [done|lia]. }
  set (rev := ex || _) in E.
  apply bind_Ok_inv in E as ([] & t2 & E2 & [= <- <-]). cbn.
  split; [|split; [destruct (rev && _); lia|]].
  - destruct rev; cbn in E2; [|injection E2 as <-; by eapply under_ready].
    destruct (revert_under s t1 Hs U1) as (u & E3 & R & _). congruence.
  - destruct rev; cbn in E2; [|injection E2 as <-; apply U1].
    destruct (revert_under s t1 Hs U1) as (u & E3 & _ & V).
    rewrite E3 in E2. injection E2 as <-. by apply frugal_view.
Qed.

Lemma create_run s caller code gas value address r s' :
  ready s → 0 <= gas → create 0 caller code gas value address s = (Ok r, s') →
  ready s' ∧ 0 <= rr_gas r <= gas ∧ frugal s s'.
Proof.
  intros Hs Hg. unfold create. rewrite (proj2 (Z.ltb_ge _ _)) by (unfold CallCreateDepth; lia).
  intros (can & s1 & E1 & E)%bind_Ok_inv. unfold CanTransfer in E1.
  rewrite (bind_Ok_run _ _ _ _ _ (GetBalance_run s caller (ready_good _ Hs))) in E1.
  injection E1 as _ <-. assert (R1 := ready_cached s caller Hs).
  assert (F1 : frugal s (cached s caller)) by apply frugal_view, view_cached.
  destruct (negb can); [by injection E as <- <-|].
  rewrite (bind_Ok_run _ _ _ _ _ (GetNonce_run _ caller (ready_good _ R1))) in E.
  assert (R2 := ready_cached _ caller R1). set (s2 := cached (cached s caller) caller) in *.
  assert (F2 : frugal s s2) by (eapply frugal_trans; [exact F1|apply frugal_view, view_cached]).
  destruct (SetNonce_run caller (u64 (nonceOf (cached s caller) caller + 1)) s2 R2)
    as (s3 & E3 & R3 & F3).
  rewrite (bind_Ok_run _ _ _ _ _ E3) in E. apply bind_Ok_inv in E as (h & s4 & E4 & E).
  unfold GetCodeHash in E4.
  rewrite (bind_Ok_run _ _ _ _ _ (getStateObject_run s3 address (ready_good _ R3))) in E4.
  injection E4 as _ <-. assert (R4 := ready_cached s3 address R3).
  rewrite (bind_Ok_run _ _ _ _ _ (GetNonce_run _ address (ready_good _ R4))) in E.
  assert (R5 := ready_cached _ address R4). set (s5 := cached (cached s3 address) address) in *.
  assert (F5 : frugal s s5).
  { eapply frugal_trans; [exact F2|]. eapply frugal_trans; [exact F3|].
    eapply frugal_trans; apply frugal_view, view_cached. }
  destruct (negb _ || _); [injection E as <- <-; cbn; split; [done|split; [lia|done]]|].
  apply bind_Ok_inv in E as (id & s6 & E6 & E).
  destruct (since_Snapshot_start s5 id s6 R5 E6) as [-> H6].
  assert (U6 : under s5 s6) by (split; [done|by eapply frugal_view, view_Snapshot]).
  rewrite bind_assoc4 in E. apply bind_Ok_inv in E as (r0 & s7 & E7 & E).
  destruct (created_under s5 s6 _ _ _ _ _ _ _ R5 U6 Hg E7) as [U7 Hr0].
  destruct (created_end s5 s7 _ gas r0 r s' R5 U7 Hr0 E) as (R & Hr & F).
  split; [done|]. split; [done|]. by eapply frugal_trans.
Qed.

End machine.

(** ** Short creation data *)

Section creation.
Context `{Hashing, Machine}.

(** The intrinsic gas of a contract creation with one to three bytes of
    data cannot be computed: looking for the magic number of a WASM module, the
    code takes the first four bytes of the data and panics.  A transaction of
    that kind which is checked or applied stops the node. *)
Theorem short_creation_panics data :
  (0 < length data < InterpTypeLen)%nat →
  IntrinsicGas data true = Panic ∧
  ∀ coinbase msg gp gp1 s s1,
    m_To msg = None → m_Data msg = data → preCheck msg gp s = (Ok (inr gp1), s1) →
    TransitionDb coinbase msg gp s = (Panic, s1).
Proof.
  intros Hd. assert (HI : IntrinsicGas data true = Panic).
  { unfold IntrinsicGas, CanUseWASMInterp. destruct data as [|b bs]; [cbn in Hd; lia|].
    rewrite app_nil_r, (proj2 (Nat.ltb_lt _ _)) by lia. done. }
  split; [done|]. intros coinbase msg gp gp1 s s1 Hto Hdata E.
  unfold TransitionDb. rewrite (bind_Ok_run _ _ _ _ _ E), Hto, Hdata.
  rewrite bool_decide_true by done. unfold ask. run_eval. by rewrite HI.
Qed.
End creation.

(** ** Runs *)

Module TransitionRun.

#[local] Instance hashing : Hashing := {| Keccak256 x := replicate 31 7 ++ [Z.of_nat (length x)] |}.

(** A machine whose contracts write a log and ask for a refund, and which
    fails when it has an input. *)
Definition work (fr : frame) : M AccountsDB runResult :=
  runChanges [OpAddLog (fr_self fr, [], [1], 8); OpAddRefund 40];;
  mret (mkResult [] [] (fr_gas fr / 2)
          (match fr_input fr with [] => None | _ => Some ErrExecutionReverted end)).

#[local] Instance machine : Machine := {|
  runPrecompiled fr := mret (mkResult [] [] 0 (Some ErrOutOfGas));
  runCode := work;
  CreateAddress a n := a * 100 + n;
|}.

Lemma hashing_length x : length (Keccak256 x) = HashLength.
Proof. done. Qed.

(** A machine whose results come from such runs. *)
Lemma machine_cases fr s r s' :
  runPrecompiled fr s = (Ok r, s') ∨ runCode fr s = (Ok r, s') →
  (s' = s ∧ rr_gas r = 0) ∨
  (runChanges [OpAddLog (fr_self fr, [], [1], 8); OpAddRefund 40] s = (Ok tt, s') ∧
   rr_gas r = fr_gas fr / 2).
Proof.
  intros [[= <- <-]|E]; [by left|]. right. unfold runCode, machine, work in E.
  by apply bind_Ok_inv in E as ([] & t & E & [= <- <-]).
Qed.

Lemma machine_is_ok : machine_ok.
Proof.
  split; intros fr s r s' [[-> Hg]|[E Hg]]%machine_cases.
  - by exists [].
  - eexists. split; [|exact E]. by repeat constructor.
  - lia.
  - intros H0. pose proof (Z.div_pos (fr_gas fr) 2).
    pose proof (Z.div_le_upper_bound (fr_gas fr) 2 (fr_gas fr)). lia.
Qed.

Lemma machine_is_frugal : machine_frugal.
Proof.
  intros fr s r s' Hs [[-> _]|[E _]]%machine_cases; [by apply frugal_view|].
  injection E as <-. split; [by apply thrifty_balances|]. intros _. cbn. apply u64_range.
Qed.

(** An account with funds, one with code, and messages between them. *)
Definition codeHash : bytes := BytesToHash (Keccak256 [1; 2]).

Definition world : AccountsDB :=
  New {[codeHash := [1; 2]]}
    (<[0xa := mkAccount 3 1000000 None emptyCodeHash [1]]>
      {[0xc := mkAccount 1 5 None codeHash [2]]}) [9].

Definition message (data : bytes) : Message := mkMessage 0xa (Some 0xc) 2 60000 11 3 data.

Lemma world_ready : ready world.
Proof.
  apply ready_New. intros a d [[_ <-]|[_ [_ <-]%lookup_singleton_Some]]%lookup_insert_Some; done.
Qed.

Lemma run_value {A} (m : M AccountsDB A) s a : fst (m s) = Ok a → m s = (Ok a, snd (m s)).
Proof. by destruct (m s) as [? ?]; cbn; intros ->. Qed.

Definition failed : ExecutionResult := mkExecution 40508 (Some ErrExecutionReverted) [].


Definition succeeded : ExecutionResult := mkExecution 40460 None [].


Lemma short_creation_panics_witness : IntrinsicGas [0x60; 0x80] true = Panic.
Proof. apply (short_creation_panics [0x60; 0x80]). unfold InterpTypeLen. cbn. lia. Defined.
End TransitionRun.
