(* ===== verification/Dag.v ===== *)
(** The graph of dependencies (src/libs/dag/dag.go).

    [Next] hands out the vertices in batches: first those without incoming
    edges, then those whose last predecessor has just been handed out.  The
    graph is described by the list of its edges in the order of their
    addition; batch [k] holds the vertices of level [k], the length of the
    longest path that leads to them. *)

From S2P Require Import Prelude.

Record Vertex := mkVertex {
  InDegree : Z;
  OutEdges : list nat;
  InEdges : list nat;
}.

Record Dag := mkDag {
  dag_V : nat;
  dag_Consumed : nat;
  dag_VertexList : list Vertex;
  dag_NextList : list nat;
}.

Definition NewVertex : Vertex := mkVertex 0 [] [].

Definition NewDag (v : nat) : Dag := mkDag v 0 (replicate v NewVertex) [].

Definition addOut (to : nat) (x : Vertex) : Vertex :=
  mkVertex (InDegree x) (OutEdges x ++ [to]) (InEdges x).

Definition addIn (from : nat) (x : Vertex) : Vertex :=
  mkVertex (InDegree x + 1) (OutEdges x) (InEdges x ++ [from]).

Definition decIn (x : Vertex) : Vertex := mkVertex (InDegree x - 1) (OutEdges x) (InEdges x).

(** An index that is not one of a vertex is a panic. *)
Definition AddEdge (from to : nat) : M Dag unit :=
  d ← get;
  match dag_VertexList d !! from, dag_VertexList d !! to with
  | Some _, Some _ =>
      modify (λ d, mkDag (dag_V d) (dag_Consumed d)
        (alter (addIn from) to (alter (addOut to) from (dag_VertexList d))) (dag_NextList d))
  | _, _ => panic
  end.

Definition HasNext (d : Dag) : bool := (dag_Consumed d <? dag_V d)%nat.

(** One outgoing edge of a vertex of the last batch. *)
Definition release (acc : list Vertex * list nat) (out : nat) : list Vertex * list nat :=
  let '(vs, next) := acc in
  let vs := alter decIn out vs in
  match vs !! out with
  | Some x => if InDegree x =? 0 then (vs, next ++ [out]) else (vs, next)
  | None => (vs, next)
  end.

Definition releaseAll (acc : list Vertex * list nat) (v : nat) : list Vertex * list nat :=
  match acc.1 !! v with
  | Some x => foldl release acc (OutEdges x)
  | None => acc
  end.

Definition Next (d : Dag) : Dag :=
  let '(vs, next) :=
    match dag_NextList d with
    | [] =>
        (dag_VertexList d,
         filter (λ i, InDegree <$> dag_VertexList d !! i = Some 0) (seq 0 (dag_V d)))
    | pre => foldl releaseAll (dag_VertexList d, []) pre
    end in
  mkDag (dag_V d) (dag_Consumed d + length next) vs next.

(** The batches of the loop [for dag.HasNext() { dag.Next() ... }], which ends
    with the first empty one. *)
Fixpoint batches (fuel : nat) (d : Dag) : list (list nat) :=
  match fuel with
  | O => []
  | S fuel =>
      if HasNext d then
        let d := Next d in
        match dag_NextList d with [] => [] | b => b :: batches fuel d end
      else []
  end.
