(* ===== verification/DagProofs.v ===== *)
(** The batches of a graph are its levels. *)

From S2P Require Import Prelude Dag.

Abbreviation edges := (list (nat * nat)).

(** Edges that lead from smaller to larger vertices. *)
Definition ascending (n : nat) (E : edges) : Prop := Forall (λ e, (fst e < snd e < n)%nat) E.

Definition preds (E : edges) (v : nat) : list nat := fst <$> filter (λ e, snd e = v) E.
Definition outs (E : edges) (u : nat) : list nat := snd <$> filter (λ e, fst e = u) E.

Lemma elem_of_preds E u v : u ∈ preds E v ↔ (u, v) ∈ E.
Proof.
  unfold preds. rewrite list_elem_of_fmap. split.
  - by intros ([x y] & -> & [<- ?]%list_elem_of_filter).
  - intros He. exists (u, v). by rewrite list_elem_of_filter.
Qed.

Lemma elem_of_outs E u v : v ∈ outs E u ↔ (u, v) ∈ E.
Proof.
  unfold outs. rewrite list_elem_of_fmap. split.
  - by intros ([x y] & -> & [<- ?]%list_elem_of_filter).
  - intros He. exists (u, v). by rewrite list_elem_of_filter.
Qed.

(** ** Levels *)

Section levels.
Context (n : nat) (E : edges) (HE : ascending n E).

Definition maximum (l : list nat) : nat := foldr Nat.max 0%nat l.

Lemma maximum_ge l x : x ∈ l → (x <= maximum l)%nat.
Proof. unfold maximum. induction 1; cbn; lia. Qed.

Lemma maximum_in l : l ≠ [] → maximum l ∈ l.
Proof.
  induction l as [|x l IH]; [done|]. intros _. cbn. destruct l as [|y l].
  - cbn. rewrite Nat.max_0_r. by left.
  - destruct (Nat.max_spec x (foldr Nat.max 0%nat (y :: l))) as [[_ ->]|[_ ->]]; [right; by apply IH|by left].
Qed.

Fixpoint levelF (fuel v : nat) : nat :=
  match fuel with
  | O => 0
  | S fuel => maximum ((λ u, S (levelF fuel u)) <$> preds E v)
  end.

Definition level (v : nat) : nat := levelF v v.

Lemma preds_lt u v : u ∈ preds E v → (u < v < n)%nat.
Proof. intros Hu%elem_of_preds. by apply (proj1 (Forall_forall _ _) HE) in Hu. Qed.

Lemma levelF_stable f v : (v <= f)%nat → levelF f v = level v.
Proof.
  revert v. induction f as [f IH] using lt_wf_ind. intros v Hv. unfold level.
  destruct f as [|f]; [by replace v with 0%nat by lia|]. cbn [levelF]. destruct v as [|v].
  - cbn [levelF]. destruct (preds E 0) as [|u l] eqn:Hp; [done|].
    assert (u ∈ preds E 0) as ?%preds_lt by (rewrite Hp; left). lia.
  - cbn [levelF]. f_equal. apply list_fmap_ext. intros i u Hu%list_elem_of_lookup_2%preds_lt.
    f_equal. rewrite (IH f) by lia. destruct (decide (v = f)) as [->|]; [by rewrite IH by lia|].
    by rewrite (IH v) by lia.
Qed.

Lemma level_eq v : level v = maximum ((λ u, S (level u)) <$> preds E v).
Proof.
  rewrite <- (levelF_stable (S v)) by lia. cbn [levelF]. f_equal.
  apply list_fmap_ext. intros i u Hu%list_elem_of_lookup_2%preds_lt.
  by rewrite levelF_stable by lia.
Qed.

Lemma level_edge u v : (u, v) ∈ E → (level u < level v)%nat.
Proof.
  intros He%elem_of_preds. rewrite (level_eq v).
  enough (S (level u) <= maximum ((λ u, S (level u)) <$> preds E v))%nat by lia.
  apply maximum_ge, list_elem_of_fmap. eauto.
Qed.

Lemma level_zero v : level v = 0%nat ↔ preds E v = [].
Proof.
  rewrite level_eq. destruct (preds E v) as [|u l]; [done|]. split; [|done]. cbn. lia.
Qed.

Lemma level_succ v k :
  level v = S k ↔ (∃ u, (u, v) ∈ E ∧ level u = k) ∧ ∀ u, (u, v) ∈ E → (level u <= k)%nat.
Proof.
  split.
  - intros Hv. split.
    + assert (Hne : preds E v ≠ []) by (rewrite <- level_zero; lia).
      rewrite level_eq in Hv.
      assert (Hin : maximum ((λ u, S (level u)) <$> preds E v) ∈ (λ u, S (level u)) <$> preds E v).
      { apply maximum_in. by destruct (preds E v). }
      rewrite Hv in Hin. apply list_elem_of_fmap in Hin as (u & Hu & Hin).
      exists u. split; [by apply elem_of_preds|lia].
    + intros u Hu%level_edge. lia.
  - intros [(u & Hu & Hk) Hall].
    assert (level v <= S k)%nat; [|apply level_edge in Hu; lia].
    rewrite level_eq.
    destruct (decide (preds E v = [])) as [->|Hne]; [cbn; lia|].
    assert (Hin : maximum ((λ u, S (level u)) <$> preds E v) ∈ (λ u, S (level u)) <$> preds E v).
    { apply maximum_in. by destruct (preds E v). }
    apply list_elem_of_fmap in Hin as (w & -> & Hw%elem_of_preds%Hall). lia.
Qed.

Lemma level_below v k : (v < n)%nat → (k <= level v)%nat → ∃ w, (w < n)%nat ∧ level w = k.
Proof.
  induction v as [v IH] using lt_wf_ind. intros Hv Hk.
  destruct (decide (level v = k)) as [|Hne]; [by exists v|].
  destruct (level v) as [|l] eqn:Hl; [lia|].
  apply level_succ in Hl as [(u & Hu & Hlu) _].
  pose proof (proj1 (Forall_forall _ _) HE _ Hu) as Hlt. cbn in Hlt.
  apply (IH u); lia.
Qed.

Lemma level_le v : (level v <= v)%nat.
Proof.
  induction v as [v IH] using lt_wf_ind. rewrite level_eq.
  destruct (decide (preds E v = [])) as [->|Hne]; [cbn; lia|].
  assert (Hin : maximum ((λ u, S (level u)) <$> preds E v) ∈ (λ u, S (level u)) <$> preds E v).
  { apply maximum_in. by destruct (preds E v). }
  apply list_elem_of_fmap in Hin as (w & -> & Hw%preds_lt). specialize (IH w). lia.
Qed.
End levels.

(** ** Graphs and their edges *)

Definition times (v : nat) (l : list nat) : Z := Z.of_nat (length (filter (v =.) l)).

Lemma times_cons v w l : times v (w :: l) = (if decide (v = w) then 1 else 0) + times v l.
Proof. unfold times. rewrite filter_cons. case_decide; cbn; lia. Qed.

Lemma times_app v l1 l2 : times v (l1 ++ l2) = times v l1 + times v l2.
Proof. unfold times. rewrite filter_app, length_app. lia. Qed.

Lemma times_pos v l : 0 < times v l ↔ v ∈ l.
Proof.
  induction l as [|w l IH]; [unfold times; cbn; set_solver by lia|].
  rewrite times_cons, elem_of_cons, <- IH.
  assert (0 <= times v l) by (unfold times; lia). case_decide; naive_solver lia.
Qed.

Lemma times_nonneg v l : 0 <= times v l.
Proof. unfold times. lia. Qed.

(** A graph with the vertices [0..n-1], the edges [E], and degrees [deg]. *)
Record shape (n : nat) (E : edges) (deg : nat → Z) (vs : list Vertex) : Prop := {
  shape_length : length vs = n;
  shape_vertex : ∀ i x, vs !! i = Some x → InDegree x = deg i ∧ OutEdges x = outs E i;
}.

Lemma shape_lookup n E deg vs i :
  shape n E deg vs → (i < n)%nat → ∃ x, vs !! i = Some x ∧ InDegree x = deg i ∧ OutEdges x = outs E i.
Proof.
  intros Hs Hi. rewrite <- (shape_length _ _ _ _ Hs) in Hi.
  destruct (lookup_lt_is_Some_2 vs i Hi) as [x Hx]. exists x. split; [done|].
  by apply (shape_vertex _ _ _ _ Hs).
Qed.

Definition represents (n : nat) (E : edges) (d : Dag) : Prop :=
  dag_V d = n ∧ dag_Consumed d = 0%nat ∧ dag_NextList d = [] ∧
  shape n E (λ v, times v (snd <$> E)) (dag_VertexList d).

Lemma represents_New n : represents n [] (NewDag n).
Proof.
  repeat split; [apply length_replicate|..];
    intros; by apply lookup_replicate in H as [-> _].
Qed.

Lemma outs_app E1 E2 u : outs (E1 ++ E2) u = outs E1 u ++ outs E2 u.
Proof. unfold outs. by rewrite filter_app, fmap_app. Qed.

Lemma outs_one u v w : outs [(u, v)] w = if decide (w = u) then [v] else [].
Proof.
  unfold outs. rewrite filter_cons, filter_nil. cbn.
  destruct (decide (u = w)), (decide (w = u)); naive_solver.
Qed.

Lemma represents_AddEdge n E d u v :
  represents n E d → (u < n)%nat → (v < n)%nat → u ≠ v →
  ∃ d', AddEdge u v d = (Ok tt, d') ∧ represents n (E ++ [(u, v)]) d'.
Proof.
  intros (HV & HC & HN & Hs) Hu Hv Huv. unfold AddEdge. run_eval.
  destruct (shape_lookup _ _ _ _ u Hs Hu) as (x & Hx & _).
  destruct (shape_lookup _ _ _ _ v Hs Hv) as (y & Hy & _).
  rewrite Hx, Hy. eexists. split; [done|]. repeat split; try done; cbn [dag_VertexList] in *.
  - rewrite !length_alter. apply Hs.
  - rewrite fmap_app, times_app. change (snd <$> [(u, v)]) with [v].
    rewrite times_cons. change (times i []) with 0. revert H.
    destruct (decide (i = v)) as [->|Hiv].
    + rewrite list_lookup_alter_eq, list_lookup_alter_ne, Hy by done. cbn. intros [= <-]. cbn.
      apply (shape_vertex _ _ _ _ Hs) in Hy as [-> _]. lia.
    + rewrite list_lookup_alter_ne by done. destruct (decide (i = u)) as [->|].
      * rewrite list_lookup_alter_eq, Hx. intros [= <-]. cbn.
        apply (shape_vertex _ _ _ _ Hs) in Hx as [-> _]. lia.
      * rewrite list_lookup_alter_ne by done. intros Hi.
        apply (shape_vertex _ _ _ _ Hs) in Hi as [-> _]. lia.
  - rewrite outs_app, outs_one. revert H. destruct (decide (i = v)) as [->|Hiv].
    + rewrite list_lookup_alter_eq, list_lookup_alter_ne, Hy by done. cbn. intros [= <-]. cbn.
      apply (shape_vertex _ _ _ _ Hs) in Hy as [_ ->]. by rewrite decide_False, app_nil_r.
    + rewrite list_lookup_alter_ne by done. destruct (decide (i = u)) as [->|].
      * rewrite list_lookup_alter_eq, Hx. intros [= <-]. cbn.
        by apply (shape_vertex _ _ _ _ Hs) in Hx as [_ ->].
      * rewrite list_lookup_alter_ne by done. intros Hi.
        apply (shape_vertex _ _ _ _ Hs) in Hi as [_ ->]. by rewrite app_nil_r.
Qed.

(** ** One round *)

Lemma shape_dec n E deg vs t :
  shape n E deg vs → shape n E (λ v, deg v - if decide (v = t) then 1 else 0) (alter decIn t vs).
Proof.
  intros Hs. split; [rewrite length_alter; apply Hs|]. intros i x.
  destruct (decide (i = t)) as [->|Hi].
  - rewrite list_lookup_alter_eq, fmap_Some. intros (y & Hy & ->). cbn.
    by apply (shape_vertex _ _ _ _ Hs) in Hy as [-> ->].
  - rewrite list_lookup_alter_ne by done. intros [-> ->]%(shape_vertex _ _ _ _ Hs). split; [lia|done].
Qed.

Lemma shape_ext n E deg deg' vs : (∀ v, deg v = deg' v) → shape n E deg vs → shape n E deg' vs.
Proof.
  intros Hd [Hl Hv]. split; [done|]. intros i x Hx. apply Hv in Hx as [-> ->]. by rewrite Hd.
Qed.

Lemma release_spec n E ts vs next deg :
  shape n E deg vs → Forall (λ t, (t < n)%nat) ts → (∀ v, times v ts <= deg v) →
  ∃ new, (foldl release (vs, next) ts).2 = next ++ new ∧ NoDup new ∧
    (∀ v, v ∈ new ↔ v ∈ ts ∧ deg v = times v ts) ∧
    shape n E (λ v, deg v - times v ts) (foldl release (vs, next) ts).1.
Proof.
  revert vs next deg. induction ts as [|t ts IH]; intros vs next deg Hs Hts Hd.
  { exists []. cbn. rewrite app_nil_r. split; [done|]. split; [constructor|].
    split; [set_solver|]. eapply shape_ext; [|done]. intros v. unfold times. cbn. lia. }
  apply Forall_cons in Hts as [Ht Hts].
  pose proof (shape_dec n E deg vs t Hs) as Hs1. set (deg1 := λ v, _) in Hs1.
  assert (Hd1 : ∀ v, times v ts <= deg1 v).
  { intros v. specialize (Hd v). rewrite times_cons in Hd. unfold deg1. lia. }
  destruct (shape_lookup _ _ _ _ t Hs1 Ht) as (x & Hx & Hdeg & _).
  cbn [foldl]. unfold release at 2 4. rewrite Hx, Hdeg.
  assert (Hsum : ∀ v, deg1 v - times v ts = deg v - times v (t :: ts)).
  { intros v. unfold deg1. rewrite times_cons. lia. }
  assert (Hiff : ∀ v, v ≠ t → (v ∈ ts ∧ deg1 v = times v ts ↔ v ∈ t :: ts ∧ deg v = times v (t :: ts))).
  { intros v Hv. unfold deg1. rewrite times_cons, elem_of_cons, decide_False by done.
    rewrite Z.sub_0_r, Z.add_0_l. split; [intros []; auto|intros [[->|] ?]; auto; done]. }
  pose proof (Hd1 t) as Hdt. pose proof (times_nonneg t ts) as Hpos.
  assert (Hdeg1 : deg1 t = deg t - 1) by (unfold deg1; by rewrite decide_True).
  destruct (Z.eqb_spec (deg1 t) 0) as [H0|H0].
  - assert (Hnt : t ∉ ts) by (rewrite <- times_pos; lia).
    destruct (IH (alter decIn t vs) (next ++ [t]) deg1) as (new & E1 & Hnd & Hin & Hsh); [done..|].
    exists (t :: new). rewrite E1, <- app_assoc. split; [done|].
    split; [constructor; [rewrite Hin; by intros [? _]|done]|].
    split; [|exact (shape_ext _ _ _ _ _ Hsum Hsh)].
    intros v. destruct (decide (v = t)) as [->|Hv].
    + rewrite times_cons, decide_True by done. split; [|intros _; by left]. intros _.
      split; [by left|lia].
    + rewrite <- Hiff, <- Hin, elem_of_cons by done. split; [by intros [->|]|by right].
  - destruct (IH (alter decIn t vs) next deg1) as (new & E1 & Hnd & Hin & Hsh); [done..|].
    exists new. split; [done|]. split; [done|]. split; [|exact (shape_ext _ _ _ _ _ Hsum Hsh)].
    intros v. destruct (decide (v = t)) as [->|Hv]; [|by rewrite Hin, Hiff].
    rewrite Hin, times_cons, decide_True by done. split.
    + intros [_ He]. split; [by left|lia].
    + intros [_ He]. split; [apply times_pos; lia|lia].
Qed.

Lemma release_shape n E ts acc deg :
  shape n E deg acc.1 → ∃ deg', shape n E deg' (foldl release acc ts).1.
Proof.
  revert acc deg. induction ts as [|t ts IH]; intros [vs next] deg Hs; [eauto|].
  cbn [foldl]. eapply IH. unfold release.
  destruct (alter decIn t vs !! t) as [x|]; [destruct (InDegree x =? 0)|];
    by apply (shape_dec n E deg vs t).
Qed.

Lemma releaseAll_flat n E pre acc deg :
  shape n E deg acc.1 → Forall (λ u, (u < n)%nat) pre →
  foldl releaseAll acc pre = foldl release acc (pre ≫= outs E).
Proof.
  revert acc deg. induction pre as [|u pre IH]; intros acc deg Hs Hpre; [done|].
  apply Forall_cons in Hpre as [Hu Hpre]. cbn [foldl]. rewrite bind_cons, foldl_app.
  assert (releaseAll acc u = foldl release acc (outs E u)) as ->.
  { unfold releaseAll. destruct (shape_lookup _ _ _ _ u Hs Hu) as (x & -> & _ & ->). done. }
  destruct (release_shape n E (outs E u) acc deg Hs) as [deg' Hs']. by eapply IH.
Qed.

(** *** Counting edges *)

Definition cnt (f : nat * nat → bool) (E : edges) : Z :=
  foldr (λ e k, (if f e then 1 else 0) + k) 0 E.

Lemma cnt_cons f e E : cnt f (e :: E) = (if f e then 1 else 0) + cnt f E.
Proof. done. Qed.

Lemma cnt_add f g h E :
  (∀ e, e ∈ E → f e = g e || h e ∧ g e && h e = false) → cnt f E = cnt g E + cnt h E.
Proof.
  induction E as [|e E IH]; intros Hf; [done|]. rewrite !cnt_cons.
  rewrite IH by (intros; apply Hf; by right).
  destruct (Hf e) as [-> ?]; [left|]. destruct (g e), (h e); try done; cbn [orb]; lia.
Qed.

Lemma cnt_ext f g E : (∀ e, e ∈ E → f e = g e) → cnt f E = cnt g E.
Proof.
  induction E as [|e E IH]; intros Hf; [done|]. rewrite !cnt_cons, (Hf e) by left.
  by rewrite IH by (intros; apply Hf; by right).
Qed.

Lemma cnt_nonneg f E : 0 <= cnt f E.
Proof. induction E; [done|]; rewrite cnt_cons; case_match; lia. Qed.

Lemma cnt_zero f E : cnt f E = 0 ↔ ∀ e, e ∈ E → f e = false.
Proof.
  induction E as [|e E IH]; [by split; [intros _ e He%elem_of_nil|]|].
  rewrite cnt_cons. pose proof (cnt_nonneg f E). split.
  - intros Hc e'. destruct (f e) eqn:Hfe; [lia|].
    intros [->|He']%elem_of_cons; [done|]. apply IH; [lia|done].
  - intros Hall. rewrite (Hall e) by left. rewrite (proj2 IH); [done|].
    intros; apply Hall; by right.
Qed.

Lemma times_outs v E u : times v (outs E u) = cnt (λ e, (snd e =? v)%nat && (fst e =? u)%nat) E.
Proof.
  unfold outs. induction E as [|[x y] E IH]; [done|]. rewrite filter_cons, cnt_cons. cbn [fst snd].
  destruct (Nat.eqb_spec x u) as [->|], (Nat.eqb_spec y v) as [->|]; cbn.
  - rewrite decide_True by done. cbn. rewrite times_cons, decide_True, IH by done. done.
  - rewrite decide_True by done. cbn. rewrite times_cons, decide_False, IH by congruence. done.
  - rewrite decide_False by done. by rewrite IH.
  - rewrite decide_False by done. by rewrite IH.
Qed.

Lemma times_bind v E pre :
  NoDup pre →
  times v (pre ≫= outs E) = cnt (λ e, (snd e =? v)%nat && bool_decide (fst e ∈ pre)) E.
Proof.
  induction 1 as [|u pre Hu _ IH].
  { symmetry. apply cnt_zero. intros e _. by rewrite andb_false_r. }
  rewrite bind_cons, times_app, IH, times_outs. symmetry. apply cnt_add. intros [x y] _. cbn.
  destruct (y =? v)%nat; [|done]. cbn. destruct (Nat.eqb_spec x u) as [->|Hx]; cbn.
  - rewrite bool_decide_true by left. by rewrite bool_decide_false.
  - split; [|done]. apply bool_decide_ext. rewrite elem_of_cons. naive_solver.
Qed.

Lemma times_snd v E : times v (snd <$> E) = cnt (λ e, (snd e =? v)%nat) E.
Proof.
  induction E as [|[x y] E IH]; [done|]. rewrite fmap_cons, times_cons, cnt_cons, IH. cbn [snd].
  destruct (Nat.eqb_spec y v) as [->|]; [by rewrite decide_True|by rewrite decide_False by congruence].
Qed.

(** ** The state between rounds *)

Section rounds.
Context (n : nat) (E : edges) (HE : ascending n E).

Abbreviation lv := (level E).

Definition remaining (k v : nat) : Z := cnt (λ e, (snd e =? v)%nat && (k <=? lv (fst e))%nat) E.

(** After batch [k]: the degrees count the edges that are left. *)
Record at_level (k : nat) (d : Dag) : Prop := {
  at_V : dag_V d = n;
  at_shape : shape n E (remaining k) (dag_VertexList d);
  at_nodup : NoDup (dag_NextList d);
  at_next : ∀ v, v ∈ dag_NextList d ↔ (v < n)%nat ∧ lv v = k;
  at_consumed : dag_Consumed d = length (filter (λ v, lv v <= k)%nat (seq 0 n));
}.

Lemma remaining_step k pre v :
  (∀ u, u ∈ pre ↔ (u < n)%nat ∧ lv u = k) → NoDup pre →
  remaining k v = times v (pre ≫= outs E) + remaining (S k) v.
Proof.
  intros Hpre Hnd. rewrite times_bind by done. apply cnt_add. intros [x y] He. cbn [fst snd].
  destruct (y =? v)%nat; [|done]. cbn [andb].
  assert (Hx : (x < n)%nat).
  { pose proof (proj1 (Forall_forall _ _) HE _ He) as Hlt. cbn in Hlt. lia. }
  assert (Hp : bool_decide (x ∈ pre) = (lv x =? k)%nat).
  { destruct (Nat.eqb_spec (lv x) k) as [Hk|Hk].
    - rewrite bool_decide_true; [done|]. by apply Hpre.
    - rewrite bool_decide_false; [done|]. rewrite Hpre. by intros [_ ?]. }
  rewrite Hp. destruct (Nat.eqb_spec (lv x) k), (Nat.leb_spec k (lv x)),
    (Nat.leb_spec (S k) (lv x)); try lia; by split.
Qed.

Lemma released_level k pre v :
  (∀ u, u ∈ pre ↔ (u < n)%nat ∧ lv u = k) → NoDup pre →
  v ∈ pre ≫= outs E ∧ remaining k v = times v (pre ≫= outs E) ↔ (v < n)%nat ∧ lv v = S k.
Proof.
  intros Hpre Hnd. rewrite (remaining_step k pre v Hpre Hnd). rewrite (level_succ n E HE).
  assert (Hr : times v (pre ≫= outs E) + remaining (S k) v = times v (pre ≫= outs E) ↔
    ∀ u, (u, v) ∈ E → (lv u <= k)%nat).
  { assert (Hz : remaining (S k) v = 0 ↔ ∀ u, (u, v) ∈ E → (lv u <= k)%nat);
      [|rewrite <- Hz; lia].
    unfold remaining. rewrite cnt_zero. split.
    - intros Hall u Hu. specialize (Hall _ Hu). cbn [fst snd] in Hall.
      rewrite Nat.eqb_refl in Hall. cbn [andb] in Hall. apply Nat.leb_gt in Hall. lia.
    - intros Hall [x y] He. cbn [fst snd]. destruct (Nat.eqb_spec y v) as [->|]; [|done].
      apply Hall in He. cbn [andb]. apply Nat.leb_gt. lia. }
  rewrite Hr. rewrite list_elem_of_bind. split.
  - intros [(u & Hv%elem_of_outs & [Hu Hk]%Hpre) Hall].
    pose proof (proj1 (Forall_forall _ _) HE _ Hv) as Hlt. cbn in Hlt. split; [lia|]. eauto.
  - intros [Hv [(u & Hu & Hk) Hall]]. split; [|done]. exists u.
    split; [by apply elem_of_outs|]. apply Hpre.
    pose proof (proj1 (Forall_forall _ _) HE _ Hu) as Hlt. cbn in Hlt. split; [lia|done].
Qed.

Lemma filter_level_succ k (b : list nat) :
  NoDup b → (∀ v, v ∈ b ↔ (v < n)%nat ∧ lv v = S k) →
  length (filter (λ v, lv v <= S k)%nat (seq 0 n)) =
  (length (filter (λ v, lv v <= k)%nat (seq 0 n)) + length b)%nat.
Proof.
  intros Hnd Hb.
  assert (Hp : filter (λ v, lv v <= S k)%nat (seq 0 n) ≡ₚ filter (λ v, lv v <= k)%nat (seq 0 n) ++ b).
  { apply NoDup_Permutation.
    - apply NoDup_filter, NoDup_seq.
    - apply NoDup_app. split; [apply NoDup_filter, NoDup_seq|]. split; [|done].
      intros v [Hv _]%list_elem_of_filter [_ Hk]%Hb. lia.
    - intros v. rewrite elem_of_app, !list_elem_of_filter, Hb, elem_of_seq. lia. }
  by rewrite Hp, length_app.
Qed.

Lemma Next_step k d : at_level k d → dag_NextList d ≠ [] → at_level (S k) (Next d).
Proof.
  intros [HV Hs Hnd Hn Hc] Hne. set (pre := dag_NextList d) in *.
  assert (Hpre : Forall (λ u, (u < n)%nat) pre).
  { apply Forall_forall. intros u Hu. by apply Hn in Hu as [? _]. }
  assert (Hts : Forall (λ t, (t < n)%nat) (pre ≫= outs E)).
  { apply Forall_forall. intros t (u & Ht%elem_of_outs & _)%list_elem_of_bind.
    pose proof (proj1 (Forall_forall _ _) HE _ Ht) as Hlt. cbn in Hlt. lia. }
  assert (Hge : ∀ v, times v (pre ≫= outs E) <= remaining k v).
  { intros v. rewrite (remaining_step k pre v Hn Hnd). unfold remaining.
    pose proof (cnt_nonneg (λ e, (snd e =? v)%nat && (S k <=? lv (fst e))%nat) E). lia. }
  assert (Hnext : Next d = mkDag (dag_V d)
    (dag_Consumed d + length (foldl release (dag_VertexList d, []) (pre ≫= outs E)).2)
    (foldl release (dag_VertexList d, []) (pre ≫= outs E)).1
    (foldl release (dag_VertexList d, []) (pre ≫= outs E)).2).
  { unfold Next. fold pre. rewrite <- (releaseAll_flat n E pre (dag_VertexList d, []) _ Hs Hpre).
    destruct pre as [|u pre']; [done|]. by destruct (foldl releaseAll _ _). }
  destruct (release_spec n E (pre ≫= outs E) (dag_VertexList d) [] (remaining k) Hs Hts Hge)
    as (new & E1 & Hnd' & Hin & Hsh).
  assert (Hlev : ∀ v, v ∈ new ↔ (v < n)%nat ∧ lv v = S k).
  { intros v. rewrite Hin. by apply released_level. }
  rewrite Hnext, E1. split; cbn [dag_V dag_VertexList dag_NextList dag_Consumed app].
  - done.
  - eapply shape_ext; [|exact Hsh]. intros v. cbv beta.
    rewrite (remaining_step k pre v Hn Hnd). lia.
  - done.
  - done.
  - rewrite Hc. by rewrite (filter_level_succ k new).
Qed.

Lemma Next_first d : represents n E d → at_level 0 (Next d).
Proof.
  intros (HV & HC & HN & Hs).
  assert (Hlev : ∀ v, v ∈ filter (λ i, InDegree <$> dag_VertexList d !! i = Some 0) (seq 0 n) ↔
                      (v < n)%nat ∧ lv v = 0%nat).
  { intros v. rewrite list_elem_of_filter, elem_of_seq. split.
    - intros [Hd Hv]. assert (Hvn : (v < n)%nat) by lia. split; [done|].
      destruct (shape_lookup _ _ _ _ v Hs Hvn) as (x & Hx & Hdeg & _). rewrite Hx in Hd.
      cbn in Hd. injection Hd as Hd. rewrite Hd, times_snd in Hdeg. symmetry in Hdeg.
      rewrite cnt_zero in Hdeg. apply (level_zero n E HE).
      destruct (preds E v) as [|u l] eqn:Hp; [done|].
      assert (Hu : u ∈ preds E v) by (rewrite Hp; left). apply elem_of_preds, Hdeg in Hu.
      cbn in Hu. by rewrite Nat.eqb_refl in Hu.
    - intros [Hv Hl]. split; [|lia].
      destruct (shape_lookup _ _ _ _ v Hs Hv) as (x & -> & Hdeg & _). cbn. f_equal.
      rewrite Hdeg, times_snd. apply cnt_zero. intros [x' y] He. cbn.
      destruct (Nat.eqb_spec y v) as [->|]; [|done].
      apply (level_zero n E HE) in Hl. apply elem_of_preds in He. rewrite Hl in He. by apply elem_of_nil in He. }
  assert (Hnd : NoDup (filter (λ i, InDegree <$> dag_VertexList d !! i = Some 0) (seq 0 n)))
    by apply NoDup_filter, NoDup_seq.
  unfold Next. rewrite HN, HV. split; cbn [dag_V dag_VertexList dag_NextList dag_Consumed]; try done.
  - eapply shape_ext; [|exact Hs]. intros v. cbv beta. rewrite times_snd. apply cnt_ext.
    intros e _. by rewrite andb_true_r.
  - rewrite HC. cbn [Nat.add]. apply Permutation_length, NoDup_Permutation; [done|..].
    + apply NoDup_filter, NoDup_seq.
    + intros v. rewrite Hlev, list_elem_of_filter, elem_of_seq. lia.
Qed.

Lemma filter_all {A} (P : A → Prop) `{∀ x, Decision (P x)} l : Forall P l → filter P l = l.
Proof.
  induction 1 as [|x l Hx _ IH]; [done|]. by rewrite filter_cons, decide_True, IH.
Qed.

Lemma HasNext_level k d :
  at_level k d → HasNext d = true ↔ ∃ v, (v < n)%nat ∧ (k < lv v)%nat.
Proof.
  intros [HV _ _ _ Hc]. unfold HasNext. rewrite Nat.ltb_lt, HV, Hc. split.
  - intros Hlt. destruct (decide (Exists (λ v, (k < lv v)%nat) (seq 0 n))) as [He|He].
    + apply Exists_exists in He as (v & Hv%elem_of_seq & Hk). exists v. split; [lia|done].
    + rewrite filter_all in Hlt; [rewrite length_seq in Hlt; lia|]. apply not_Exists_Forall in He; [|apply _].
      eapply Forall_impl; [exact He|]. cbn. lia.
  - intros (v & Hv & Hk). pose proof (length_seq n 0) as Hlen.
    assert (Hlt : (length (filter (λ v, lv v <= k)%nat (seq 0 n)) < length (seq 0 n))%nat);
      [|lia]. apply (length_filter_lt _ _ v); [apply elem_of_seq; lia|lia].
Qed.

(** ** All rounds *)

Lemma at_level_nonempty k d v :
  at_level k d → (v < n)%nat → (k <= lv v)%nat → dag_NextList d ≠ [].
Proof.
  intros Hd Hv Hk Hnil. destruct (level_below n E HE v k Hv Hk) as (w & Hw & Hl).
  assert (Hin : w ∈ dag_NextList d) by (by apply (at_next _ _ Hd)).
  rewrite Hnil in Hin. by apply elem_of_nil in Hin.
Qed.

Lemma batches_from fuel k d :
  at_level k d → (n <= k + 1 + fuel)%nat →
  (∀ j b, batches fuel d !! j = Some b →
    NoDup b ∧ b ≠ [] ∧ ∀ v, v ∈ b ↔ (v < n)%nat ∧ lv v = (k + 1 + j)%nat) ∧
  (∀ v, (v < n)%nat → (k < lv v)%nat → ∃ b, batches fuel d !! (lv v - (k + 1))%nat = Some b ∧ v ∈ b).
Proof.
  revert k d. induction fuel as [|fuel IH]; intros k d Hd Hf.
  { split; [done|]. intros v Hv Hk. pose proof (level_le n E HE v). lia. }
  cbn [batches]. destruct (HasNext d) eqn:Hh.
  - apply (HasNext_level k d Hd) in Hh as (w & Hw & Hk).
    assert (Hne : dag_NextList d ≠ []) by (eapply at_level_nonempty; [done|done|lia]).
    assert (Hd1 := Next_step k d Hd Hne).
    assert (Hne1 : dag_NextList (Next d) ≠ []) by (eapply at_level_nonempty; [done|done|lia]).
    destruct (IH (S k) (Next d) Hd1 ltac:(lia)) as [IH1 IH2].
    assert (Hcons : match dag_NextList (Next d) with [] => [] | b => b :: batches fuel (Next d) end =
      dag_NextList (Next d) :: batches fuel (Next d)) by by destruct (dag_NextList (Next d)).
    rewrite Hcons. split.
    + intros [|j] b; cbn; [intros [= <-]|].
      * split; [apply Hd1|]. split; [done|]. intros v. rewrite (at_next _ _ Hd1). lia.
      * intros Hb. destruct (IH1 j b Hb) as (? & ? & Hv). split; [done|]. split; [done|].
        intros v. rewrite Hv. lia.
    + intros v Hv Hkv. destruct (decide (lv v = S k)) as [Hl|Hl].
      * exists (dag_NextList (Next d)). rewrite Hl. replace (S k - (k + 1))%nat with 0%nat by lia.
        split; [done|]. by apply (at_next _ _ Hd1).
      * destruct (IH2 v Hv ltac:(lia)) as (b & Hb & Hin). exists b. split; [|done].
        replace (lv v - (k + 1))%nat with (S (lv v - (S k + 1)))%nat by lia. done.
  - split; [done|]. intros v Hv Hk.
    assert (HasNext d = true) by (apply (HasNext_level k d Hd); eauto). congruence.
Qed.

(** Batch [k] holds the vertices of level [k], and every vertex is in one. *)
Lemma batches_levels fuel d :
  represents n E d → (n <= fuel)%nat →
  (∀ k b, batches fuel d !! k = Some b → NoDup b ∧ b ≠ [] ∧ ∀ v, v ∈ b ↔ (v < n)%nat ∧ lv v = k) ∧
  (∀ v, (v < n)%nat → ∃ b, batches fuel d !! lv v = Some b ∧ v ∈ b).
Proof.
  intros Hd Hf. pose proof Hd as (HV & HC & HN & Hs).
  destruct fuel as [|fuel]; [split; [done|intros; lia]|]. cbn [batches].
  unfold HasNext. rewrite HC, HV. destruct (Nat.ltb_spec 0 n) as [Hn|Hn]; [|split; [done|intros; lia]].
  pose proof (Next_first d Hd) as Hd0.
  assert (Hne : dag_NextList (Next d) ≠ []) by (eapply (at_level_nonempty 0 _ 0); [done|done|lia]).
  destruct (batches_from fuel 0 (Next d) Hd0 ltac:(lia)) as [H1 H2].
  assert (Hcons : match dag_NextList (Next d) with [] => [] | b => b :: batches fuel (Next d) end =
    dag_NextList (Next d) :: batches fuel (Next d)) by by destruct (dag_NextList (Next d)).
  rewrite Hcons. split.
  - intros [|k] b; cbn; [intros [= <-]|].
    + split; [apply Hd0|]. split; [done|]. intros v. by rewrite (at_next _ _ Hd0).
    + intros Hb. destruct (H1 k b Hb) as (? & ? & Hv). split; [done|]. split; [done|].
      intros v. rewrite Hv. lia.
  - intros v Hv. destruct (lv v) as [|l] eqn:Hl.
    + exists (dag_NextList (Next d)). split; [done|]. by apply (at_next _ _ Hd0).
    + destruct (H2 v Hv ltac:(lia)) as (b & Hb & Hin). exists b. split; [|done].
      replace (lv v - (0 + 1))%nat with l in Hb by lia. done.
Qed.

Lemma elem_of_concat {A} (bs : list (list A)) v :
  v ∈ concat bs ↔ ∃ k b, bs !! k = Some b ∧ v ∈ b.
Proof.
  induction bs as [|b bs IH]; cbn.
  - split; [by intros ?%elem_of_nil|by intros (k & b & ? & _)].
  - rewrite elem_of_app, IH. split.
    + intros [Hv|(k & b' & Hb & Hv)]; [by exists 0%nat, b|by exists (S k), b'].
    + intros ([|k] & b' & Hb & Hv); [injection Hb as ->; by left|right; eauto].
Qed.

Lemma NoDup_concat_levels (bs : list (list nat)) k0 :
  (∀ k b, bs !! k = Some b → NoDup b ∧ ∀ v, v ∈ b → lv v = (k0 + k)%nat) → NoDup (concat bs).
Proof.
  revert k0. induction bs as [|b bs IH]; intros k0 Hbs; [constructor|]. cbn. apply NoDup_app.
  destruct (Hbs 0%nat b eq_refl) as [Hnd Hl]. split; [done|]. split.
  - intros v Hv (k & b' & Hb' & Hin)%elem_of_concat.
    destruct (Hbs (S k) b' Hb') as [_ Hl']. apply Hl in Hv. apply Hl' in Hin. lia.
  - apply (IH (S k0)). intros k b' Hb'. destruct (Hbs (S k) b' Hb') as [? Hv]. split; [done|].
    intros v Hin%Hv. lia.
Qed.

(** The batches put the vertices into an order. *)
Lemma batches_permutation fuel d :
  represents n E d → (n <= fuel)%nat → concat (batches fuel d) ≡ₚ seq 0 n.
Proof.
  intros Hd Hf. destruct (batches_levels fuel d Hd Hf) as [H1 H2].
  apply NoDup_Permutation; [|apply NoDup_seq|].
  - apply (NoDup_concat_levels _ 0). intros k b Hb. destruct (H1 k b Hb) as (? & _ & Hv).
    split; [done|]. intros v [_ ?]%Hv. lia.
  - intros v. rewrite elem_of_seq, elem_of_concat. split.
    + intros (k & b & Hb & Hin). destruct (H1 k b Hb) as (_ & _ & Hv). apply Hv in Hin. lia.
    + intros [_ Hv]. destruct (H2 v Hv) as (b & Hb & Hin). eauto.
Qed.
End rounds.
