(* ===== verification/Parallel.v ===== *)
(** Executing the transactions of a block in parallel (src/ethereum/core).

    The transactions are arranged in a graph of dependencies; contracts are
    executed alone, transfers in batches by a pool of workers.  A worker takes
    atomic steps on the accounts of its transaction: on the live object of an
    account if there is one, else on a copy of its own that is merged into the
    state after the batch.  Blocks that are packed have a deadline as well,
    which is not modelled. *)

From Stdlib Require Import Ascii String.
From S2P Require Import Prelude Keys StateDB GovTypes Accounts StateTransition Dag.

(** ** Objects of the workers *)

(** [None] for the own object: the live object of the state is shared. *)
Record ParallelStateObject := mkParallel {
  po_address : Z;
  po_own : option stateObject;
  po_prevAmount : Z;
  po_createFlag : bool;
}.

(** What an address leads to: the live object, those of the parents, and the
    account of the trie. *)
Record cell := mkCell {
  c_live : option stateObject;
  c_parent : option stateObject;
  c_trie : option Account;
}.

Definition cellAt (s : AccountsDB) (a : Z) : cell :=
  mkCell (sd_objects s !! a) (parentObject s a) (sd_trie s !! a).

Section objects.
Context `{Hashing}.

Definition justCreateObject (addr : Z) : ParallelStateObject :=
  mkParallel addr (Some (newObject addr (newAccount (address_bytes addr)))) 0 true.

(** [justGetStateObject] and [GetOrNewParallelStateObject]: nothing is put
    among the live objects. *)
Definition GetOrNewParallelStateObject (addr : Z) (c : cell) : ParallelStateObject :=
  match c_live c with
  | Some o =>
      if so_deleted o then justCreateObject addr
      else mkParallel addr None (Balance o) false
  | None =>
      match c_parent c with
      | Some o =>
          if so_deleted o then justCreateObject addr
          else mkParallel addr (Some (copyObject o)) (Balance o) false
      | None =>
          match c_trie c with
          | Some d => mkParallel addr (Some (newObject addr d)) (a_Balance d) false
          | None => justCreateObject addr
          end
      end
  end.

(** The object a worker sees. *)
Definition deref (p : ParallelStateObject) (live : option stateObject) : option stateObject :=
  match po_own p with Some o => Some o | None => live end.

(** Write through its pointer. *)
Definition update (f : stateObject → stateObject) (p : ParallelStateObject)
    (live : option stateObject) : ParallelStateObject * option stateObject :=
  match po_own p with
  | Some o => (mkParallel (po_address p) (Some (f o)) (po_prevAmount p) (po_createFlag p), live)
  | None => (p, f <$> live)
  end.

Definition poAddBalance (amount : Z) (o : stateObject) : stateObject :=
  if amount =? 0 then o else setBalance (Balance o + amount) o.

Definition poSubBalance (amount : Z) (o : stateObject) : stateObject :=
  if amount =? 0 then o else setBalance (Balance o - amount) o.

(** ** Workers *)

Inductive Result :=
  | TransferFailed (err : txError) (needRefundGasPool : bool)
  | TransferSuccess (from : ParallelStateObject) (to : option ParallelStateObject)
      (gasUsed minerEarnings : Z).

(** How far a worker has come.  No object of the recipient: it is that of the
    sender. *)
Inductive progress :=
  | Started
  | Checked (from : ParallelStateObject)
  | Debited (from : ParallelStateObject)
  | Numbered (from : ParallelStateObject)
  | Loaded (from : ParallelStateObject) (to : option ParallelStateObject)
  | Credited (from : ParallelStateObject) (to : option ParallelStateObject)
  | Finished (r : Result).

(** One atomic step looks at one account: the new live object and how far the
    worker is then. *)
Definition action : Type := cell → progress → option stateObject * progress.

(** The transfer of a transaction, whose recipient is [to]. *)
Section transfer.
Context (tx : Transaction) (to intrinsicGas : Z).

Definition minerEarnings : Z := intrinsicGas * tx_GasPrice tx.
Definition subTotal : Z := tx_Value tx + minerEarnings.

Definition checkTransfer : action := λ c st,
  match st with
  | Started =>
      (c_live c,
       match tx_sender tx with
       | None => Finished (TransferFailed ErrInvalidSender true)
       | Some from =>
           if tx_Gas tx <? intrinsicGas then Finished (TransferFailed (ErrOf ErrOutOfGas) true)
           else
             let p := GetOrNewParallelStateObject from c in
             match deref p (c_live c) with
             | None => st
             | Some o =>
                 if Balance o <? tx_Gas tx * tx_GasPrice tx
                 then Finished (TransferFailed errInsufficientBalanceForGas true)
                 else if Nonce o <? tx_Nonce tx
                 then Finished (TransferFailed ErrNonceTooHigh true)
                 else if tx_Nonce tx <? Nonce o
                 then Finished (TransferFailed ErrNonceTooLow true)
                 else if Balance o <? subTotal
                 then Finished (TransferFailed errInsufficientBalanceForGas true)
                 else Checked p
             end
       end)
  | _ => (c_live c, st)
  end.

Definition debit : action := λ c st,
  match st with
  | Checked p => let '(p, l) := update (poSubBalance subTotal) p (c_live c) in (l, Debited p)
  | _ => (c_live c, st)
  end.

Definition bumpNonce (o : stateObject) : stateObject := setNonce (u64 (Nonce o + 1)) o.

Definition number : action := λ c st,
  match st with
  | Debited p => let '(p, l) := update bumpNonce p (c_live c) in (l, Numbered p)
  | _ => (c_live c, st)
  end.

Definition loadRecipient : action := λ c st,
  match st with
  | Numbered p =>
      (c_live c,
       if FromAddr tx =? to then Loaded p None
       else Loaded p (Some (GetOrNewParallelStateObject to c)))
  | _ => (c_live c, st)
  end.

Definition credit : action := λ c st,
  match st with
  | Loaded p None =>
      let '(p, l) := update (poAddBalance (tx_Value tx)) p (c_live c) in (l, Credited p None)
  | Loaded p (Some q) =>
      let '(q, l) := update (poAddBalance (tx_Value tx)) q (c_live c) in (l, Credited p (Some q))
  | _ => (c_live c, st)
  end.

Definition succeed : action := λ c st,
  match st with
  | Credited p q =>
      let '(p, l) := update updateRoot p (c_live c) in
      (l, Finished (TransferSuccess p q intrinsicGas minerEarnings))
  | _ => (c_live c, st)
  end.

(** The steps of a worker, with the accounts they look at. *)
Definition workerSteps : list (Z * action) :=
  let from := FromAddr tx in
  [(from, checkTransfer); (from, debit); (from, number); (to, loadRecipient); (to, credit);
   (from, succeed)].
End transfer.
End objects.

(** The live objects and the progress of the workers. *)
Definition batchState : Type := AccountsDB * gmap nat progress.

Definition setLive (a : Z) (o : option stateObject) (s : AccountsDB) : AccountsDB :=
  with_objects (partial_alter (λ _, o) a) s.

(** One step of worker [idx]. *)
Definition atomic (idx : nat) (sa : Z * action) (b : batchState) : batchState :=
  let '(a, act) := sa in
  let '(o, st) := act (cellAt (fst b) a) (default Started (snd b !! idx)) in
  (setLive a o (fst b), <[idx := st]> (snd b)).

(** A schedule says whose step comes next. *)
Inductive interleaving {A : Type} : list (list A) → list A → Prop :=
  | interleaving_nil ls : Forall (.= []) ls → interleaving ls []
  | interleaving_cons ls i a l r :
      ls !! i = Some (a :: l) → interleaving (<[i := l]> ls) r → interleaving ls (a :: r).

Definition runSteps (steps : list (nat * (Z * action))) (b : batchState) : batchState :=
  foldl (λ b st, atomic (fst st) (snd st) b) b steps.

(** ** The context of a block *)

Record ParallelContext := mkContext {
  pc_state : AccountsDB;
  pc_header : Header;
  pc_blockHash : bytes;
  pc_gp : Z;
  pc_txList : list Transaction;
  pc_packed : list Transaction;
  pc_results : gmap nat Result;
  pc_receipts : list Receipt;
  pc_popped : gset Z;
  pc_blockGasUsed : Z;
  pc_earnings : Z;
  pc_packNewBlock : bool;
  pc_contractCache : gset Z;
}.

Definition set_state (s : AccountsDB) (c : ParallelContext) : ParallelContext :=
  mkContext s (pc_header c) (pc_blockHash c) (pc_gp c) (pc_txList c) (pc_packed c) (pc_results c)
    (pc_receipts c) (pc_popped c) (pc_blockGasUsed c) (pc_earnings c) (pc_packNewBlock c)
    (pc_contractCache c).

Definition set_gp (gp : Z) (c : ParallelContext) : ParallelContext :=
  mkContext (pc_state c) (pc_header c) (pc_blockHash c) gp (pc_txList c) (pc_packed c)
    (pc_results c) (pc_receipts c) (pc_popped c) (pc_blockGasUsed c) (pc_earnings c)
    (pc_packNewBlock c) (pc_contractCache c).

Definition set_results (r : gmap nat Result) (c : ParallelContext) : ParallelContext :=
  mkContext (pc_state c) (pc_header c) (pc_blockHash c) (pc_gp c) (pc_txList c) (pc_packed c)
    r (pc_receipts c) (pc_popped c) (pc_blockGasUsed c) (pc_earnings c) (pc_packNewBlock c)
    (pc_contractCache c).

Definition set_popped (p : gset Z) (c : ParallelContext) : ParallelContext :=
  mkContext (pc_state c) (pc_header c) (pc_blockHash c) (pc_gp c) (pc_txList c) (pc_packed c)
    (pc_results c) (pc_receipts c) p (pc_blockGasUsed c) (pc_earnings c) (pc_packNewBlock c)
    (pc_contractCache c).

(** A transaction that has been executed: packed, with its receipt. *)
Definition add_executed (tx : Transaction) (r : Receipt) (used earnings : Z)
    (c : ParallelContext) : ParallelContext :=
  mkContext (pc_state c) (pc_header c) (pc_blockHash c) (pc_gp c) (pc_txList c)
    (pc_packed c ++ [tx]) (pc_results c) (pc_receipts c ++ [r]) (pc_popped c) used
    (pc_earnings c + earnings) (pc_packNewBlock c) (pc_contractCache c).

Definition NewParallelContext (s : AccountsDB) (header : Header) (blockHash : bytes) (gp : Z)
    (packNewBlock : bool) (cache : gset Z) (txs : list Transaction) : ParallelContext :=
  mkContext s header blockHash gp txs [] ∅ [] ∅ 0 0 packNewBlock cache.

(** Operations of the state in a context. *)
Definition inState {A} (m : M AccountsDB A) : M ParallelContext A := λ c,
  let '(r, s) := m (pc_state c) in (r, set_state s c).

Section executor.
Context `{Hashing, Machine}.

(** ** The graph *)

Record TxDag := mkTxDag {
  td_dag : Dag;
  td_contracts : gset nat;
  (* addresses of the transfers since the last contract *)
  td_transfers : gmap Z nat;
  (* the index of the last contract, or -1 *)
  td_latest : Z;
}.

Definition set_graph (d : Dag) (g : TxDag) : TxDag :=
  mkTxDag d (td_contracts g) (td_transfers g) (td_latest g).

(** The graph is built within a context. *)
Abbreviation graphM := (M (ParallelContext * TxDag)).

Definition inContext {A} (m : M ParallelContext A) : graphM A := λ cg,
  let '(r, c) := m (fst cg) in (r, (c, snd cg)).

Definition edge (from to : nat) : graphM unit := λ cg,
  let '(r, d) := AddEdge from to (td_dag (snd cg)) in (r, (fst cg, set_graph d (snd cg))).

Definition addContract (a : Z) : M ParallelContext unit :=
  modify (λ c, mkContext (pc_state c) (pc_header c) (pc_blockHash c) (pc_gp c) (pc_txList c)
    (pc_packed c) (pc_results c) (pc_receipts c) (pc_popped c) (pc_blockGasUsed c)
    (pc_earnings c) (pc_packNewBlock c) ({[a]} ∪ pc_contractCache c)).

Definition isContract (tx : Transaction) : M ParallelContext bool :=
  match tx_To tx with
  | None => addContract (CreateAddress (FromAddr tx) (tx_Nonce tx));; mret true
  | Some address =>
      cache ← gets pc_contractCache;
      if bool_decide (address ∈ cache) then mret true
      else if IsPrecompiledContract address then mret true
      else size ← inState (GetCodeSize address); mret (0 <? size)%nat
  end.

(** A contract comes after the transfers since the last one, or after that. *)
Definition contractNode (index : nat) : graphM unit :=
  cg ← get;
  let latest := td_latest (snd cg) in
  let i := Z.of_nat index in
  when (0 <? i)
    (if 1 <? i - latest
     then for_each (λ begin, edge begin index)
            (seq (Z.to_nat (latest + 1)) (index - Z.to_nat (latest + 1)))
     else when (i - latest =? 1) (edge (Z.to_nat latest) index));;
  modify (λ cg, (fst cg, mkTxDag (td_dag (snd cg)) ({[index]} ∪ td_contracts (snd cg)) ∅ i)).

(** A transfer comes after the last ones with its accounts, or after the last
    contract. *)
Definition transferNode (index : nat) (from to : Z) : graphM unit :=
  cg ← get;
  let g := snd cg in
  let d1 := td_transfers g !! from in
  let d2 := td_transfers g !! to in
  match d1 with Some i => edge i index | None => mret tt end;;
  match d2 with Some i => edge i index | None => mret tt end;;
  when (bool_decide (d1 = None) && bool_decide (d2 = None) && (0 <=? td_latest g))
    (edge (Z.to_nat (td_latest g)) index);;
  modify (λ cg, let g := snd cg in (fst cg, mkTxDag (td_dag g) (td_contracts g)
    (<[to := index]> (<[from := index]> (td_transfers g))) (td_latest g))).

Definition node (itx : nat * Transaction) : graphM unit :=
  let '(index, tx) := itx in
  if FromAddr tx =? 0 then mret tt
  else
    contract ← inContext (isContract tx);
    match contract, tx_To tx with
    | false, Some to => transferNode index (FromAddr tx) to
    | _, _ => contractNode index
    end.

Definition MakeDagGraph : M ParallelContext TxDag := λ c,
  let txs := pc_txList c in
  match for_each node (imap pair txs) (c, mkTxDag (NewDag (length txs)) ∅ ∅ (-1)) with
  | (Ok _, (c, g)) => (Ok g, c)
  | (Err e, (c, _)) => (Err e, c)
  | (Panic, (c, _)) => (Panic, c)
  end.

Definition IsContract (g : TxDag) (idx : nat) : bool := bool_decide (idx ∈ td_contracts g).

(** ** Batches of transfers *)

Definition setResult (idx : nat) (r : Result) : M ParallelContext unit :=
  modify (λ c, set_results (<[idx := r]> (pc_results c)) c).

(** The tasks of a batch are handed out one after the other: gas is taken
    from the pool first.  A transaction without recipient does not get through:
    every path from here on, failures included, looks at what its recipient
    points to. *)
Definition submit (idx : nat) : M ParallelContext (list (nat * (Transaction * Z * Z))) :=
  c ← get;
  match pc_txList c !! idx with
  | None => panic
  | Some tx =>
      if pc_packNewBlock c && bool_decide (FromAddr tx ∈ pc_popped c) then mret []
      else
        g ← ask (IntrinsicGas (tx_Data tx) false);
        match tx_To tx with
        | None => panic
        | Some to =>
            match g with
            | inl e => setResult idx (TransferFailed (ErrOf e) false);; mret []
            | inr gas =>
                match SubGas (pc_gp c) gas with
                | None => setResult idx (TransferFailed ErrGasLimitReached false);; mret []
                | Some gp => modify (set_gp gp);; mret [(idx, (tx, to, gas))]
                end
            end
        end
  end.

Fixpoint submitAll (idxs : list nat) : M ParallelContext (list (nat * (Transaction * Z * Z))) :=
  match idxs with
  | [] => mret []
  | idx :: idxs => t ← submit idx; ts ← submitAll idxs; mret (t ++ ts)
  end.

Definition taskSteps (t : nat * (Transaction * Z * Z)) : list (nat * (Z * action)) :=
  let '(idx, (tx, to, gas)) := t in pair idx <$> workerSteps tx to gas.

(** The workers run in some order of their steps; the batch waits for all. *)
Definition runWorkers (steps : list (nat * (Z * action))) : M ParallelContext unit :=
  modify (λ c,
    let '(s, ps) := runSteps steps (pc_state c, ∅) in
    set_results (map_fold (λ idx st rs, match st with Finished r => <[idx := r]> rs | _ => rs end)
                   (pc_results c) ps)
      (set_state s c)).

(** ** Merging *)

Definition mergeObject (p : ParallelStateObject) (create : bool) (s : AccountsDB) : AccountsDB :=
  let a := po_address p in
  match deref p (sd_objects s !! a) with
  | None => s
  | Some o =>
      if so_suicided o || objectEmpty o
      then with_trie (delete a)
             (match po_own p with None => with_objects (alter setDeleted a) s | Some _ => s end)
      else
        let s := if create && po_createFlag p
                 then with_journal (journalAppend (createObjectChange a)) s else s in
        with_dirty ({[a]} ∪.)
          (with_journal (journalAppend (balanceChange a (po_prevAmount p)))
             (with_objects (<[a := o]>) s))
  end.

(** The object of the recipient may be that of the sender. *)
Definition Merge (from : ParallelStateObject) (to : option ParallelStateObject)
    (s : AccountsDB) : AccountsDB :=
  match to with
  | None => mergeObject from true s
  | Some to => mergeObject to true (mergeObject from false s)
  end.

(** The receipt of a transfer, with the gas of the block up to it. *)
Definition transferReceipt (tx : Transaction) (gasUsed cumulative : Z) : Receipt :=
  mkReceipt false cumulative [] (tx_hash tx) 0 gasUsed (replicate HashLength 0) 0 0.

Definition popsAddress (e : txError) : bool :=
  bool_decide (e ∈ [ErrGasLimitReached; ErrNonceTooHigh; ErrOf ErrAbort]).

Definition mergeResult (idx : nat) : M ParallelContext unit :=
  c ← get;
  match pc_results c !! idx, pc_txList c !! idx with
  | Some (TransferSuccess from to gas earnings), Some tx =>
      modify (λ c, set_state (Merge from to (pc_state c)) c);;
      let used := u64 (pc_blockGasUsed c + gas) in
      modify (add_executed tx (transferReceipt tx gas used) used earnings);;
      modify (λ c, set_state (IncreaseTxIdx (pc_state c)) c)
  | Some (TransferFailed e refund), Some tx =>
      (if (refund : bool) then
         g ← ask (IntrinsicGas (tx_Data tx) false);
         match g with
         | inr gas => gp ← ask (AddGas (pc_gp c) gas); modify (set_gp gp)
         | inl _ => mret tt
         end
       else mret tt);;
      when (popsAddress e) (modify (λ c, set_popped ({[FromAddr tx]} ∪ pc_popped c) c))
  | _, _ => mret tt
  end.

Definition batchMerge (idxs : list nat) : M ParallelContext unit := for_each mergeResult idxs.

(** A batch under a scheduler, which orders the steps of the tasks. *)
Definition executeBatch (sched : list (list (nat * (Z * action))) → list (nat * (Z * action)))
    (idxs : list nat) : M ParallelContext unit :=
  tasks ← submitAll idxs;
  runWorkers (sched (taskSteps <$> tasks));;
  batchMerge idxs.

(** ** Contracts *)

Definition executeContractTransaction (idx : nat) : M ParallelContext unit :=
  c ← get;
  match pc_txList c !! idx with
  | None => panic
  | Some tx =>
      snap ← inState Snapshot;
      inState (modify (λ s, Prepare (tx_hash tx) (pc_blockHash c) (u32 (sd_txIndex s)) s));;
      r ← inState (ApplyTransaction (pc_header c) tx (pc_gp c) (pc_blockGasUsed c));
      match r with
      | (gp, _, inl _) => modify (set_gp gp);; inState (RevertToSnapshot snap)
      | (gp, used, inr receipt) =>
          modify (set_gp gp);;
          modify (add_executed tx receipt used 0);;
          modify (λ c, set_state (IncreaseTxIdx (pc_state c)) c)
      end
  end.

(** ** The block *)

Definition executeOne (sched : list (list (nat * (Z * action))) → list (nat * (Z * action)))
    (g : TxDag) (idxs : list nat) : M ParallelContext unit :=
  match idxs with
  | [idx] => if IsContract g idx then executeContractTransaction idx else executeBatch sched idxs
  | _ => executeBatch sched idxs
  end.

(** The scheduler may differ from batch to batch. *)
Fixpoint executeBatches (scheds : nat → list (list (nat * (Z * action))) → list (nat * (Z * action)))
    (g : TxDag) (bs : list (list nat)) : M ParallelContext unit :=
  match bs with
  | [] => mret tt
  | b :: bs => executeOne (scheds 0%nat) g b;; executeBatches (λ n, scheds (S n)) g bs
  end.

Definition ExecuteTransactions
    (scheds : nat → list (list (nat * (Z * action))) → list (nat * (Z * action))) :
    M ParallelContext unit :=
  c ← get;
  match pc_txList c with
  | [] => mret tt
  | txs =>
      g ← MakeDagGraph;
      executeBatches scheds g (batches (length txs) (td_dag g));;
      c ← get;
      when (0 <? pc_earnings c)
        (inState (AddMinerEarnings (h_Coinbase (pc_header c)) (pc_earnings c)));;
      modify (λ c, set_state (Finalise true (pc_state c)) c)
  end.

(** ** Receipts in the order of the block *)

Definition withCumulative (n : Z) (r : Receipt) : Receipt :=
  mkReceipt (r_Failed r) n (r_Logs r) (r_TxHash r) (r_ContractAddress r) (r_GasUsed r)
    (r_BlockHash r) (r_BlockNumber r) (r_TransactionIndex r).

Definition receiptsMap (rs : list Receipt) : gmap bytes Receipt :=
  foldl (λ m r, <[r_TxHash r := r]> m) ∅ rs.

(** The receipts are shared: the gas is written into that of the map. *)
Fixpoint sortLoop (m : gmap bytes Receipt) (cumulative : Z) (txs : list Transaction) :
    gmap bytes Receipt * list bytes :=
  match txs with
  | [] => (m, [])
  | tx :: txs =>
      match m !! tx_hash tx with
      | Some r =>
          let cumulative := u64 (cumulative + r_GasUsed r) in
          let '(m, hs) := sortLoop (<[tx_hash tx := withCumulative cumulative r]> m) cumulative txs in
          (m, tx_hash tx :: hs)
      | None => sortLoop m cumulative txs
      end
  end.

Definition sortReceipts (txs : list Transaction) (rs : list Receipt) : list Receipt :=
  let '(m, hs) := sortLoop (receiptsMap rs) 0 txs in omap (m !!.) hs.

(** The transactions of a block that is verified: the receipts and the gas. *)
Definition processParallel
    (scheds : nat → list (list (nat * (Z * action))) → list (nat * (Z * action)))
    (header : Header) (blockHash : bytes) (gasLimit : Z) (txs : list Transaction) :
    M AccountsDB (list Receipt * Z) := λ s,
  match AddGas 0 gasLimit with
  | Ok gp =>
      let '(r, c) := ExecuteTransactions scheds
                       (NewParallelContext s header blockHash gp false ∅ txs) in
      (match r with
       | Ok _ => Ok (sortReceipts txs (pc_receipts c), pc_blockGasUsed c)
       | Err e => Err e
       | Panic => Panic
       end, pc_state c)
  | Err e => (Err e, s)
  | Panic => (Panic, s)
  end.
End executor.
