(* ===== verification/ParallelProofs.v ===== *)
(** Executing in parallel: the batches of a block respect its order, and what
    comes out does not depend on how the workers are scheduled. *)

From Stdlib Require Import Ascii String.
From S2P Require Import Prelude Keys StateDB GovTypes Accounts StateTransition Dag DagProofs Parallel.

(** ** Paths *)

Definition path (E : edges) : nat → nat → Prop := tc (λ u v, (u, v) ∈ E).

Lemma path_mono E E' u v : (∀ e, e ∈ E → e ∈ E') → path E u v → path E' u v.
Proof.
  intros HE. induction 1 as [u v He|u v w He _ IH]; [by apply tc_once, HE|].
  eapply tc_l; [by apply HE|done].
Qed.

Lemma path_edge E u v : (u, v) ∈ E → path E u v.
Proof. intros He. by apply tc_once. Qed.

Lemma path_snoc E u v w : u = v ∨ path E u v → (v, w) ∈ E → path E u w.
Proof. intros [->|Hp] He; [by apply tc_once|]. eapply tc_r; eauto. Qed.

Lemma path_trans E u v w : u = v ∨ path E u v → path E v w → path E u w.
Proof. intros [->|Hp] He; [done|]. by eapply tc_transitive. Qed.

Lemma path_level n E u v : ascending n E → path E u v → (level E u < level E v)%nat.
Proof.
  intros HE. induction 1 as [u v He|u v w He _ IH]; apply (level_edge n E HE) in He; lia.
Qed.

(** The accounts a transfer touches. *)
Definition touches (tx : Transaction) (a : Z) : Prop := a = FromAddr tx ∨ tx_To tx = Some a.

(** ** The graph of the first [k] transactions *)

Section schedule.
Context `{Hashing, Machine} (txs : list Transaction).
Implicit Types (g : TxDag) (c : ParallelContext) (E : edges).

Record graph_inv (k : nat) (E : edges) (g : TxDag) : Prop := {
  gi_dag : represents (length txs) E (td_dag g);
  gi_edges : Forall (λ e, (fst e < snd e < k)%nat) E;
  gi_contracts i : i ∈ td_contracts g → Z.of_nat i <= td_latest g;
  gi_latest : td_latest g = -1 ∨
    ∃ l, td_latest g = Z.of_nat l ∧ (l < k)%nat ∧ l ∈ td_contracts g;
  gi_before i j : i ∈ td_contracts g → (i < j < k)%nat → path E i j;
  gi_after i j : i ∈ td_contracts g → (j < i)%nat → path E j i;
  gi_map a m : td_transfers g !! a = Some m → td_latest g < Z.of_nat m ∧ (m < k)%nat;
  gi_last i tx a : txs !! i = Some tx → touches tx a → (i < k)%nat → td_latest g < Z.of_nat i →
    ∃ m, td_transfers g !! a = Some m ∧ (i = m ∨ path E i m);
  gi_shared i j tx ty a : txs !! i = Some tx → txs !! j = Some ty → (i < j < k)%nat →
    touches tx a → touches ty a → path E i j;
}.

Lemma graph_inv_start : graph_inv 0 [] (mkTxDag (NewDag (length txs)) ∅ ∅ (-1)).
Proof.
  split; cbn [td_dag td_contracts td_transfers td_latest]; try (intros; lia); try set_solver.
  apply represents_New.
Qed.

Lemma edge_run E c g u v :
  represents (length txs) E (td_dag g) → (u < v < length txs)%nat →
  ∃ d, edge u v (c, g) = (Ok tt, (c, set_graph d g)) ∧ represents (length txs) (E ++ [(u, v)]) d.
Proof.
  intros Hg Huv. destruct (represents_AddEdge _ _ _ u v Hg) as (d & Hd & Hr); [lia..|].
  exists d. unfold edge. cbn [fst snd]. by rewrite Hd.
Qed.

Lemma edges_run us E c g v :
  represents (length txs) E (td_dag g) → (v < length txs)%nat → Forall (λ u, (u < v)%nat) us →
  ∃ d, for_each (λ u, edge u v) us (c, g) = (Ok tt, (c, set_graph d g)) ∧
    represents (length txs) (E ++ ((λ u, (u, v)) <$> us)) d.
Proof.
  revert E g. induction us as [|u us IH]; intros E g Hg Hv Hus.
  { exists (td_dag g). cbn. rewrite app_nil_r. by destruct g. }
  apply Forall_cons in Hus as [Hu Hus].
  destruct (edge_run E c g u v Hg ltac:(lia)) as (d & Hd & Hr).
  destruct (IH (E ++ [(u, v)]) (set_graph d g) Hr Hv Hus) as (d' & Hd' & Hr').
  exists d'. cbn [for_each]. erewrite bind_Ok_run by exact Hd. rewrite Hd'. split; [done|].
  by rewrite <- app_assoc in Hr'.
Qed.

(** Edges to vertex [k], and only those, are new. *)
Lemma new_edges k E us :
  Forall (λ e, (fst e < snd e < k)%nat) E → Forall (λ u, (u < k)%nat) us →
  Forall (λ e, (fst e < snd e < S k)%nat) (E ++ ((λ u, (u, k)) <$> us)).
Proof.
  intros HE Hus. apply Forall_app. split; [eapply Forall_impl; [done|]; cbn; lia|].
  apply Forall_fmap. eapply Forall_impl; [done|]. cbn. lia.
Qed.

(** Whatever vertex [k] comes after the last contract comes after them all. *)
Lemma after_latest k E g E' i :
  graph_inv k E g → (∀ e, e ∈ E → e ∈ E') → i ∈ td_contracts g →
  (∀ l, td_latest g = Z.of_nat l → path E' l k) → path E' i k.
Proof.
  intros Hi HE Hc Hl. pose proof (gi_contracts _ _ _ Hi i Hc) as Hle.
  destruct (gi_latest _ _ _ Hi) as [?|(l & Hll & Hlk & Hlc)]; [lia|].
  apply (path_trans _ _ l); [|by apply Hl].
  destruct (decide (i = l)) as [->|]; [by left|right].
  eapply path_mono; [exact HE|]. eapply gi_before; [done..|lia].
Qed.

Definition to_vertex (k : nat) (us : list nat) : edges := (λ u, (u, k)) <$> us.

Lemma elem_of_to_vertex k us u : u ∈ us → (u, k) ∈ to_vertex k us.
Proof. intros Hu. apply list_elem_of_fmap. eauto. Qed.

Lemma contract_run k E c g :
  graph_inv k E g → (k < length txs)%nat →
  ∃ d us, contractNode k (c, g) =
      (Ok tt, (c, mkTxDag d ({[k]} ∪ td_contracts g) ∅ (Z.of_nat k))) ∧
    represents (length txs) (E ++ to_vertex k us) d ∧ Forall (λ u, (u < k)%nat) us ∧
    (∀ j, (j < k)%nat → td_latest g < Z.of_nat j → j ∈ us) ∧
    (∀ l, td_latest g = Z.of_nat l → S l = k → l ∈ us).
Proof.
  intros Hi Hk. unfold contractNode. run_eval.
  pose proof (gi_dag _ _ _ Hi) as Hd.
  assert (Hl : -1 <= td_latest g < Z.of_nat k).
  { destruct (gi_latest _ _ _ Hi) as [?|(l & ? & ? & _)]; lia. }
  set (us := if (0 <? Z.of_nat k) then
               if 1 <? Z.of_nat k - td_latest g
               then seq (Z.to_nat (td_latest g + 1)) (k - Z.to_nat (td_latest g + 1))
               else [Z.to_nat (td_latest g)]
             else []).
  assert (Hus : Forall (λ u, (u < k)%nat) us).
  { unfold us. repeat case_match; [| |constructor].
    - apply Forall_forall. intros u Hu%elem_of_seq. lia.
    - apply Forall_singleton. lia. }
  destruct (edges_run us E c g k Hd Hk Hus) as (d & Hrun & Hr).
  exists d, us. split; [|split; [done|split; [done|]]].
  - assert (Hstep : (if 0 <? Z.of_nat k
              then if 1 <? Z.of_nat k - td_latest g
                   then for_each (λ begin, edge begin k)
                          (seq (Z.to_nat (td_latest g + 1)) (k - Z.to_nat (td_latest g + 1)))
                   else if Z.of_nat k - td_latest g =? 1 then edge (Z.to_nat (td_latest g)) k
                   else λ s, (Ok tt, s)
              else λ s, (Ok tt, s)) (c, g) = (Ok tt, (c, set_graph d g))).
    { rewrite <- Hrun. unfold us. destruct (Z.ltb_spec 0 (Z.of_nat k)); [|done].
      destruct (Z.ltb_spec 1 (Z.of_nat k - td_latest g)); [done|].
      destruct (Z.eqb_spec (Z.of_nat k - td_latest g) 1); [|lia]. cbn [for_each].
      run_eval. by destruct (edge _ k (c, g)) as [[[]| |] ?]. }
    by rewrite Hstep.
  - unfold us. split.
    + intros j Hj Hlj. destruct (Z.ltb_spec 0 (Z.of_nat k)); [|lia].
      destruct (Z.ltb_spec 1 (Z.of_nat k - td_latest g)); [apply elem_of_seq; lia|lia].
    + intros l Hll Hlk. destruct (Z.ltb_spec 0 (Z.of_nat k)); [|lia].
      destruct (Z.ltb_spec 1 (Z.of_nat k - td_latest g)); [lia|]. rewrite Hll, Nat2Z.id. by left.
Qed.

Lemma contract_path k E g us j :
  graph_inv k E g → (j < k)%nat →
  (∀ j, (j < k)%nat → td_latest g < Z.of_nat j → j ∈ us) →
  (∀ l, td_latest g = Z.of_nat l → S l = k → l ∈ us) →
  path (E ++ to_vertex k us) j k.
Proof.
  intros Hi Hj H1 H2.
  assert (Hmono : ∀ u v, path E u v → path (E ++ to_vertex k us) u v).
  { intros u v. apply path_mono. intros e He. apply elem_of_app. by left. }
  assert (Hnew : ∀ u, u ∈ us → (u, k) ∈ E ++ to_vertex k us).
  { intros u Hu. apply elem_of_app. right. by apply elem_of_to_vertex. }
  destruct (decide (td_latest g < Z.of_nat j)) as [Hlt|Hge]; [by apply path_edge, Hnew, H1|].
  destruct (gi_latest _ _ _ Hi) as [?|(l & Hl & Hlk & Hc)]; [lia|].
  assert (Hjl : j = l ∨ path (E ++ to_vertex k us) j l).
  { destruct (decide (j = l)); [by left|right]. apply Hmono. eapply gi_after; [done..|lia]. }
  eapply path_trans; [exact Hjl|].
  destruct (decide (S l = k)) as [Hs|Hs]; [by apply path_edge, Hnew, H2|].
  eapply path_snoc; [right; apply Hmono; eapply (gi_before _ _ _ Hi l (S l)); [done|lia]|].
  apply Hnew, H1; lia.
Qed.

Lemma contract_step k E c g :
  graph_inv k E g → (k < length txs)%nat →
  ∃ E' g', contractNode k (c, g) = (Ok tt, (c, g')) ∧ graph_inv (S k) E' g' ∧
    td_contracts g' = {[k]} ∪ td_contracts g.
Proof.
  intros Hi Hk. destruct (contract_run k E c g Hi Hk) as (d & us & Hrun & Hr & Hus & H1 & H2).
  eexists (E ++ to_vertex k us), _. split; [exact Hrun|]. split; [|done].
  pose proof (λ j Hj, contract_path k E g us j Hi Hj H1 H2) as Hp.
  assert (Hmono : ∀ u v, path E u v → path (E ++ to_vertex k us) u v).
  { intros u v. apply path_mono. intros e He. apply elem_of_app. by left. }
  split; cbn [td_dag td_contracts td_transfers td_latest].
  - done.
  - by apply new_edges; [apply (gi_edges _ _ _ Hi)|].
  - intros i [->%elem_of_singleton|Hc]%elem_of_union; [lia|].
    destruct (gi_latest _ _ _ Hi) as [?|(l & ? & ? & ?)]; pose proof (gi_contracts _ _ _ Hi i Hc); lia.
  - right. exists k. split; [done|]. split; [lia|]. set_solver.
  - intros i j [->%elem_of_singleton|Hc]%elem_of_union Hij; [lia|].
    destruct (decide (j = k)) as [->|]; [apply Hp; lia|]. apply Hmono.
    eapply gi_before; [done..|lia].
  - intros i j [->%elem_of_singleton|Hc]%elem_of_union Hij; [by apply Hp|].
    apply Hmono. by eapply gi_after.
  - intros a m Hm. by rewrite lookup_empty in Hm.
  - lia.
  - intros i j tx ty a Hx Hy Hij Ha Hb. destruct (decide (j = k)) as [->|]; [apply Hp; lia|].
    apply Hmono. eapply (gi_shared _ _ _ Hi i j); [done..|lia|done|done].
Qed.

Lemma transfer_run k E c g from to :
  graph_inv k E g → (k < length txs)%nat →
  ∃ d us, transferNode k from to (c, g) =
      (Ok tt, (c, mkTxDag d (td_contracts g) (<[to := k]> (<[from := k]> (td_transfers g)))
                    (td_latest g))) ∧
    represents (length txs) (E ++ to_vertex k us) d ∧ Forall (λ u, (u < k)%nat) us ∧
    (∀ a m, a = from ∨ a = to → td_transfers g !! a = Some m → m ∈ us) ∧
    (∀ l, td_latest g = Z.of_nat l → td_transfers g !! from = None →
       td_transfers g !! to = None → l ∈ us).
Proof.
  intros Hi Hk. pose proof (gi_dag _ _ _ Hi) as Hd.
  pose proof (gi_map _ _ _ Hi from) as Hf. pose proof (gi_map _ _ _ Hi to) as Ht.
  assert (Hl : td_latest g < Z.of_nat k).
  { destruct (gi_latest _ _ _ Hi) as [?|(l & ? & ? & _)]; lia. }
  unfold transferNode. run_eval.
  destruct (td_transfers g !! from) as [i|] eqn:Hfm; [destruct (Hf i eq_refl) as [_ Hik]|];
    (destruct (td_transfers g !! to) as [j|] eqn:Htm; [destruct (Ht j eq_refl) as [_ Hjk]|]);
    rewrite ?bool_decide_true, ?bool_decide_false by done; cbn [andb].
  - destruct (edge_run E c g i k Hd ltac:(lia)) as (d & -> & Hr).
    destruct (edge_run _ c (set_graph d g) j k Hr ltac:(lia)) as (d' & -> & Hr').
    exists d', [i; j]. cbn. rewrite <- app_assoc in Hr'. split_and!; [done|done|by repeat constructor| |done].
    intros a m [->| ->] Ha; simplify_eq; set_solver.
  - destruct (edge_run E c g i k Hd ltac:(lia)) as (d & -> & Hr).
    exists d, [i]. cbn. split_and!; [done|done|by repeat constructor| |done].
    intros a m [->| ->] Ha; simplify_eq; set_solver.
  - destruct (edge_run E c g j k Hd ltac:(lia)) as (d & -> & Hr).
    exists d, [j]. cbn. split_and!; [done|done|by repeat constructor| |done].
    intros a m [->| ->] Ha; simplify_eq; set_solver.
  - destruct (Z.leb_spec 0 (td_latest g)).
    + destruct (edge_run E c g (Z.to_nat (td_latest g)) k Hd ltac:(lia)) as (d & -> & Hr).
      exists d, [Z.to_nat (td_latest g)]. cbn. split_and!; [done|done| | |].
      * apply Forall_singleton. lia.
      * intros a m [->| ->] Ha; simplify_eq.
      * intros l -> _ _. rewrite Nat2Z.id. by left.
    + exists (td_dag g), []. cbn. rewrite app_nil_r. split_and!; [done|done|constructor| |].
      * intros a m [->| ->] Ha; simplify_eq.
      * intros l ? _ _. lia.
Qed.

Lemma insert_both (m : gmap Z nat) from to k a :
  (<[to := k]> (<[from := k]> m)) !! a = if decide (a = from ∨ a = to) then Some k else m !! a.
Proof.
  case_decide as Ha.
  - destruct (decide (a = to)) as [->|]; [by rewrite lookup_insert_eq|].
    rewrite lookup_insert_ne by done. destruct Ha as [->|]; [by rewrite lookup_insert_eq|done].
  - by rewrite !lookup_insert_ne by (intros ->; tauto).
Qed.

(** What the edges of a transfer have to give, and what they do give. *)
Section transfer_paths.
Context (k : nat) (E : edges) (g : TxDag) (us : list nat) (from to : Z).
Context (Hi : graph_inv k E g).
Context (H1 : ∀ a m, a = from ∨ a = to → td_transfers g !! a = Some m → m ∈ us).
Context (H2 : ∀ l, td_latest g = Z.of_nat l → td_transfers g !! from = None →
  td_transfers g !! to = None → l ∈ us).

Let E' := E ++ to_vertex k us.

Lemma old_path u v : path E u v → path E' u v.
Proof. apply path_mono. intros e He. apply elem_of_app. by left. Qed.

Lemma old_path_or u v : u = v ∨ path E u v → u = v ∨ path E' u v.
Proof. intros [->|Hp]; [by left|right; by apply old_path]. Qed.

Lemma new_edge u : u ∈ us → (u, k) ∈ E'.
Proof. intros Hu. apply elem_of_app. right. by apply elem_of_to_vertex. Qed.

Lemma transfer_after_latest l : td_latest g = Z.of_nat l → path E' l k.
Proof.
  intros Hl. destruct (gi_latest _ _ _ Hi) as [?|(l' & Hl' & Hlk & Hc)]; [lia|].
  assert (l' = l) as -> by lia.
  assert (Hvia : ∀ a m, a = from ∨ a = to → td_transfers g !! a = Some m → path E' l k).
  { intros a m Ha Hm. destruct (gi_map _ _ _ Hi a m Hm).
    eapply path_snoc; [right; apply old_path; eapply (gi_before _ _ _ Hi l m); [done|lia]|].
    by eapply new_edge, H1. }
  destruct (td_transfers g !! from) eqn:Hf; [by eapply Hvia; [left|]|].
  destruct (td_transfers g !! to) eqn:Ht; [by eapply Hvia; [right|]|].
  by apply path_edge, new_edge, H2.
Qed.

Lemma transfer_after_contract i : i ∈ td_contracts g → path E' i k.
Proof.
  intros Hc. eapply after_latest; [done| |done|apply transfer_after_latest].
  intros e He. apply elem_of_app. by left.
Qed.

Lemma transfer_after_recent i tx a :
  txs !! i = Some tx → touches tx a → a = from ∨ a = to → (i < k)%nat →
  td_latest g < Z.of_nat i → path E' i k.
Proof.
  intros Hx Hta Ha Hik Hl. destruct (gi_last _ _ _ Hi i tx a) as (m & Hm & Hp); [done..|].
  eapply path_snoc; [by apply old_path_or|]. by eapply new_edge, H1.
Qed.

Lemma transfer_after_sharing i tx a :
  txs !! i = Some tx → touches tx a → a = from ∨ a = to → (i < k)%nat → path E' i k.
Proof.
  intros Hx Hta Ha Hik. destruct (decide (td_latest g < Z.of_nat i)) as [Hlt|Hge].
  { by eapply transfer_after_recent. }
  destruct (gi_latest _ _ _ Hi) as [?|(l & Hl & Hlk & Hc)]; [lia|].
  apply (path_trans _ _ l); [|by apply transfer_after_latest].
  destruct (decide (i = l)) as [->|]; [by left|right].
  apply old_path. eapply gi_after; [done..|lia].
Qed.
End transfer_paths.

Lemma transfer_step k E c g tx to :
  graph_inv k E g → txs !! k = Some tx → tx_To tx = Some to →
  ∃ E' g', transferNode k (FromAddr tx) to (c, g) = (Ok tt, (c, g')) ∧ graph_inv (S k) E' g' ∧
    td_contracts g' = td_contracts g.
Proof.
  intros Hi Hx Hto. pose proof (lookup_lt_Some _ _ _ Hx) as Hk.
  destruct (transfer_run k E c g (FromAddr tx) to Hi Hk) as (d & us & Hrun & Hr & Hus & H1 & H2).
  eexists (E ++ to_vertex k us), _. split; [exact Hrun|]. split; [|done].
  assert (Htouch : ∀ a, touches tx a → a = FromAddr tx ∨ a = to).
  { intros a [->|Ha]; [by left|right; congruence]. }
  split; cbn [td_dag td_contracts td_transfers td_latest].
  - done.
  - by apply new_edges; [apply (gi_edges _ _ _ Hi)|].
  - apply (gi_contracts _ _ _ Hi).
  - destruct (gi_latest _ _ _ Hi) as [?|(l & ? & ? & ?)]; [by left|right; exists l; auto with lia].
  - intros i j Hc Hij. destruct (decide (j = k)) as [->|]; [by eapply transfer_after_contract|].
    apply old_path. eapply gi_before; [done..|lia].
  - intros i j Hc Hij. apply old_path. by eapply gi_after.
  - intros a m. rewrite insert_both. case_decide.
    + intros [= <-]. destruct (gi_latest _ _ _ Hi) as [?|(l & ? & ? & _)]; lia.
    + intros [? ?]%(gi_map _ _ _ Hi). lia.
  - intros i ty a Hy Ha Hik Hl. rewrite insert_both. case_decide as Hd.
    + exists k. split; [done|]. destruct (decide (i = k)) as [->|]; [by left|right].
      eapply transfer_after_recent; [done..|lia|done].
    + destruct (decide (i = k)) as [->|]; [exfalso; apply Hd, Htouch; congruence|].
      destruct (gi_last _ _ _ Hi i ty a) as (m & Hm & Hp); [done|done|lia|done|].
      exists m. split; [done|]. by apply old_path_or.
  - intros i j ty tz a Hy Hz Hij Ha Hb. destruct (decide (j = k)) as [->|].
    + simplify_eq. eapply transfer_after_sharing; [done..|by apply Htouch|lia].
    + apply old_path. eapply (gi_shared _ _ _ Hi i j); [done..|lia|done|done].
Qed.

Definition resolved : Prop := Forall (λ tx, FromAddr tx ≠ 0) txs.

Lemma node_step k E c c' g tx b :
  graph_inv k E g → txs !! k = Some tx → FromAddr tx ≠ 0 → isContract tx c = (Ok b, c') →
  ∃ E' g', node (k, tx) (c, g) = (Ok tt, (c', g')) ∧ graph_inv (S k) E' g'.
Proof.
  intros Hi Hx Hf Hb. pose proof (lookup_lt_Some _ _ _ Hx) as Hk.
  unfold node. rewrite (proj2 (Z.eqb_neq _ _)) by done.
  assert (Hin : inContext (isContract tx) (c, g) = (Ok b, (c', g))).
  { unfold inContext. cbn [fst snd]. by rewrite Hb. }
  erewrite bind_Ok_run by exact Hin.
  destruct (contract_step k E c' g Hi Hk) as (E1 & g1 & Hc & Hi1 & _).
  destruct b; [destruct (tx_To tx); eauto|]. destruct (tx_To tx) as [to|] eqn:Hto; [|eauto].
  destruct (transfer_step k E c' g tx to Hi Hx Hto) as (E2 & g2 & Ht & Hi2 & _). eauto.
Qed.

Lemma node_inv k E c g tx r :
  graph_inv k E g → txs !! k = Some tx → FromAddr tx ≠ 0 → node (k, tx) (c, g) = (Ok tt, r) →
  ∃ E', graph_inv (S k) E' (snd r).
Proof.
  intros Hi Hx Hf Hr. destruct (isContract tx c) as [[b|e|] c'] eqn:Hb.
  - destruct (node_step k E c c' g tx b) as (E' & g' & Hr' & Hi'); [done..|].
    rewrite Hr' in Hr. simplify_eq. eauto.
  - exfalso. revert Hr. unfold node. rewrite (proj2 (Z.eqb_neq _ _)) by done.
    unfold inContext. run_eval. by rewrite Hb.
  - exfalso. revert Hr. unfold node. rewrite (proj2 (Z.eqb_neq _ _)) by done.
    unfold inContext. run_eval. by rewrite Hb.
Qed.

Lemma graph_loop l k E cg r :
  resolved → graph_inv k E (snd cg) → drop k txs = l →
  for_each node (imap (λ i, pair (k + i)%nat) l) cg = (Ok tt, r) →
  ∃ E', graph_inv (k + length l) E' (snd r).
Proof.
  intros Hres. revert k E cg. induction l as [|tx l IH]; intros k E [c g] Hi Hd.
  { intros [= <-]. exists E. by rewrite Nat.add_0_r. }
  assert (Hx : txs !! k = Some tx) by (by rewrite <- (Nat.add_0_r k), <- lookup_drop, Hd).
  rewrite imap_cons. cbn [for_each]. rewrite Nat.add_0_r.
  intros ([] & cg' & Hn & Hl)%bind_Ok_inv.
  destruct (node_inv k E c g tx cg') as (E' & Hi'); [done|done| |done|].
  { by apply (Forall_lookup_1 _ _ _ _ Hres Hx). }
  destruct (IH (S k) E' cg' Hi') as (E'' & Hi'').
  - by rewrite <- Nat.add_1_r, <- drop_drop, Hd.
  - rewrite <- Hl. f_equal. apply imap_ext. intros i x _. cbn. f_equal. lia.
  - exists E''. cbn [length]. by replace (k + S (length l))%nat with (S k + length l)%nat by lia.
Qed.

Lemma MakeDagGraph_inv c c' g :
  pc_txList c = txs → resolved → MakeDagGraph c = (Ok g, c') →
  ∃ E, graph_inv (length txs) E g.
Proof.
  intros Hc Hres. unfold MakeDagGraph. rewrite Hc.
  destruct (for_each node (imap pair txs) _) as [[[]|e|] [c1 g1]] eqn:Hl; intros [= <- <-].
  eapply (graph_loop txs 0 []) in Hl as (E & Hi); [by exists E|done|apply graph_inv_start|done].
Qed.

(** ** The batches of the graph *)

Section batches.
Context (E : edges) (g : TxDag) (Hi : graph_inv (length txs) E g).

Let bs := batches (length txs) (td_dag g).

Lemma graph_ascending : ascending (length txs) E.
Proof. eapply Forall_impl; [apply (gi_edges _ _ _ Hi)|]. cbn. lia. Qed.

Lemma batch_level k b :
  bs !! k = Some b → NoDup b ∧ b ≠ [] ∧ ∀ v, v ∈ b ↔ (v < length txs)%nat ∧ level E v = k.
Proof. by apply (batches_levels _ _ graph_ascending _ _ (gi_dag _ _ _ Hi)). Qed.

Lemma batch_of v : (v < length txs)%nat → ∃ b, bs !! level E v = Some b ∧ v ∈ b.
Proof. by apply (batches_levels _ _ graph_ascending _ _ (gi_dag _ _ _ Hi)). Qed.

Lemma batch_no_path k b i j : bs !! k = Some b → i ∈ b → j ∈ b → ¬ path E i j.
Proof.
  intros Hb Hib Hjb Hp%(path_level _ _ _ _ graph_ascending).
  apply (batch_level _ _ Hb) in Hib as [_ ?], Hjb as [_ ?]. lia.
Qed.

Lemma batch_lt k b i : bs !! k = Some b → i ∈ b → (i < length txs)%nat.
Proof. intros Hb Hib. by apply (batch_level _ _ Hb) in Hib as [? _]. Qed.

Lemma batch_contract k b i : bs !! k = Some b → i ∈ b → i ∈ td_contracts g → b = [i].
Proof.
  intros Hb Hib Hc. destruct (batch_level _ _ Hb) as (Hnd & _ & _).
  assert (Hall : ∀ j, j ∈ b → j = i).
  { intros j Hjb. destruct (decide (j = i)) as [|Hne]; [done|exfalso].
    destruct (decide (i < j)%nat).
    - eapply (batch_no_path k b i j); [done..|]. eapply gi_before; [done..|].
      split; [done|]. by eapply batch_lt.
    - eapply (batch_no_path k b j i); [done..|]. eapply gi_after; [done..|lia]. }
  destruct b as [|x [|y b]]; [by apply elem_of_nil in Hib|by rewrite (Hall x) by left|].
  apply NoDup_cons in Hnd as [Hx _]. destruct Hx.
  rewrite (Hall x) by left. rewrite <- (Hall y) at 1 by (right; left). left.
Qed.

(** The transactions of a batch have no account in common. *)
Lemma batch_apart k b i j tx ty a :
  bs !! k = Some b → i ∈ b → j ∈ b → i ≠ j → txs !! i = Some tx → txs !! j = Some ty →
  touches tx a → touches ty a → False.
Proof.
  intros Hb Hib Hjb Hne Hx Hy Ha Hb'.
  pose proof (batch_lt _ _ _ Hb Hib). pose proof (batch_lt _ _ _ Hb Hjb).
  destruct (decide (i < j)%nat).
  - eapply (batch_no_path k b i j); [done..|]. eapply (gi_shared _ _ _ Hi i j tx ty); done || lia.
  - eapply (batch_no_path k b j i); [done..|]. eapply (gi_shared _ _ _ Hi j i ty tx); done || lia.
Qed.

Lemma batch_order i j :
  (i < j < length txs)%nat → path E i j →
  ∃ k l bi bj, bs !! k = Some bi ∧ bs !! l = Some bj ∧ i ∈ bi ∧ j ∈ bj ∧ (k < l)%nat.
Proof.
  intros Hij Hp. destruct (batch_of i) as (bi & Hbi & Hii); [lia|].
  destruct (batch_of j) as (bj & Hbj & Hjj); [lia|].
  exists (level E i), (level E j), bi, bj. split_and!; try done.
  by apply (path_level _ _ _ _ graph_ascending).
Qed.

Lemma batches_all : concat bs ≡ₚ seq 0 (length txs).
Proof. by apply (batches_permutation _ _ graph_ascending _ _ (gi_dag _ _ _ Hi)). Qed.
End batches.

(** ** The graph can always be made *)

Lemma getStateObject_childless s a :
  sd_children s = 0%nat →
  ∃ o s', getStateObject a s = (Ok o, s') ∧ sd_children s' = 0%nat.
Proof.
  intros Hs. unfold getStateObject, getStateObjectCache, setStateObject. run_eval.
  destruct (sd_objects s !! a); [eauto|]. destruct (parentObject s a).
  { rewrite Hs. cbn. eauto. }
  destruct (sd_trie s !! a); [rewrite Hs; cbn; eauto|eauto].
Qed.

Lemma isContract_runs tx c :
  sd_children (pc_state c) = 0%nat →
  ∃ b c', isContract tx c = (Ok b, c') ∧ sd_children (pc_state c') = 0%nat.
Proof.
  intros Hc. unfold isContract. destruct (tx_To tx) as [to|]; [|run_eval; eauto].
  run_eval. case_bool_decide; [eauto|]. destruct (IsPrecompiledContract to); [eauto|].
  unfold inState, GetCodeSize. run_eval.
  destruct (getStateObject_childless (pc_state c) to Hc) as (o & s' & -> & Hs').
  destruct o as [o|]; [destruct (so_code o)|]; eauto.
Qed.

Lemma graph_loop_runs l k E c g :
  resolved → graph_inv k E g → drop k txs = l → sd_children (pc_state c) = 0%nat →
  ∃ c' g', for_each node (imap (λ i, pair (k + i)%nat) l) (c, g) = (Ok tt, (c', g')).
Proof.
  intros Hres. revert k E c g. induction l as [|tx l IH]; intros k E c g Hi Hd Hc; [eauto|].
  assert (Hx : txs !! k = Some tx) by (by rewrite <- (Nat.add_0_r k), <- lookup_drop, Hd).
  destruct (isContract_runs tx c Hc) as (b & c1 & Hb & Hc1).
  destruct (node_step k E c c1 g tx b) as (E1 & g1 & Hn & Hi1); [done|done| |done|].
  { by apply (Forall_lookup_1 _ _ _ _ Hres Hx). }
  destruct (IH (S k) E1 c1 g1 Hi1) as (c' & g' & Hl); [|done|].
  { by rewrite <- Nat.add_1_r, <- drop_drop, Hd. }
  exists c', g'. rewrite imap_cons. cbn [for_each]. rewrite Nat.add_0_r.
  rewrite (bind_Ok_run _ _ _ _ _ Hn), <- Hl. f_equal. apply imap_ext.
  intros i x _. cbn. f_equal. lia.
Qed.

Lemma MakeDagGraph_runs c :
  pc_txList c = txs → resolved → sd_children (pc_state c) = 0%nat →
  ∃ g c', MakeDagGraph c = (Ok g, c').
Proof.
  intros Hc Hres Hs. unfold MakeDagGraph. rewrite Hc.
  destruct (graph_loop_runs txs 0 [] c _ Hres graph_inv_start (drop_0 _) Hs) as (c' & g' & Hl).
  assert (for_each node (imap pair txs) (c, mkTxDag (NewDag (length txs)) ∅ ∅ (-1)) =
            (Ok tt, (c', g'))) as -> by exact Hl.
  eauto.
Qed.
End schedule.

(** Two transactions that must not be executed at the same time. *)
Definition conflict (g : TxDag) (i j : nat) (tx ty : Transaction) : Prop :=
  IsContract g i = true ∨ IsContract g j = true ∨ ∃ a, touches tx a ∧ touches ty a.

(** C6: The graph of a block whose senders are known can always be made, and
    its batches are a schedule of the block: every transaction is in exactly
    one of them; of two transactions that conflict, because they have an
    account in common or one of them is a contract, the one that comes first
    in the block is in an earlier batch; and a contract is alone in its
    batch. *)
Theorem batches_schedule `{Hashing, Machine} (c : ParallelContext) :
  resolved (pc_txList c) → sd_children (pc_state c) = 0%nat →
  ∃ g c', MakeDagGraph c = (Ok g, c') ∧
    let bs := batches (length (pc_txList c)) (td_dag g) in
    concat bs ≡ₚ seq 0 (length (pc_txList c)) ∧
    (∀ i j tx ty, pc_txList c !! i = Some tx → pc_txList c !! j = Some ty → (i < j)%nat →
       conflict g i j tx ty →
       ∃ k l bi bj, bs !! k = Some bi ∧ bs !! l = Some bj ∧ i ∈ bi ∧ j ∈ bj ∧ (k < l)%nat) ∧
    (∀ i b, b ∈ bs → i ∈ b → IsContract g i = true → b = [i]).
Proof.
  intros Hres Hs. destruct (MakeDagGraph_runs _ c eq_refl Hres Hs) as (g & c' & Hg).
  exists g, c'. split; [done|]. destruct (MakeDagGraph_inv _ c c' g eq_refl Hres Hg) as (E & Hi).
  cbv zeta. split_and!.
  - by eapply batches_all.
  - intros i j tx ty Hx Hy Hij Hc. pose proof (lookup_lt_Some _ _ _ Hy).
    eapply batch_order; [done|lia|]. unfold IsContract in Hc.
    destruct Hc as [Hc%bool_decide_eq_true|[Hc%bool_decide_eq_true|(a & Ha & Hb)]].
    + eapply gi_before; [done..|lia].
    + eapply gi_after; done.
    + eapply (gi_shared _ _ _ _ Hi i j); [done..|lia|done|done].
  - intros i b [k Hb]%list_elem_of_lookup_1 Hib Hc%bool_decide_eq_true. by eapply batch_contract.
Qed.

(** ** Workers with different accounts do not get in each other's way *)

Section race.
Implicit Types (b : batchState) (s : AccountsDB).

Lemma cellAt_setLive s a a' o : a ≠ a' → cellAt (setLive a' o s) a = cellAt s a.
Proof. intros Ha. unfold cellAt, setLive. cbn. by rewrite lookup_partial_alter_ne. Qed.

Lemma setLive_comm s a a' o o' :
  a ≠ a' → setLive a o (setLive a' o' s) = setLive a' o' (setLive a o s).
Proof.
  intros Ha. unfold setLive, with_objects. cbn. f_equal.
  by apply partial_alter_partial_alter_ne.
Qed.

Lemma atomic_comm i j (x y : Z * action) b :
  i ≠ j → fst x ≠ fst y → atomic i x (atomic j y b) = atomic j y (atomic i x b).
Proof.
  intros Hij Hxy. destruct x as [a f], y as [a' f'], b as [s ps]. unfold atomic. cbn [fst snd] in *.
  destruct (f' (cellAt s a') (default Started (ps !! j))) as [o' st'] eqn:Hf'.
  destruct (f (cellAt s a) (default Started (ps !! i))) as [o st] eqn:Hf. cbn [fst snd].
  rewrite !cellAt_setLive by done. rewrite !lookup_insert_ne by done. rewrite Hf, Hf'.
  f_equal; [by apply setLive_comm|]. by apply insert_insert_ne.
Qed.

Lemma runSteps_app l1 l2 b : runSteps (l1 ++ l2) b = runSteps l2 (runSteps l1 b).
Proof. apply foldl_app. Qed.

Definition independent (x y : nat * (Z * action)) : Prop :=
  fst x ≠ fst y ∧ fst (snd x) ≠ fst (snd y).

Lemma runSteps_early x l b :
  Forall (independent x) l → runSteps (l ++ [x]) b = runSteps (x :: l) b.
Proof.
  revert b. induction l as [|y l IH]; intros b Hl; [done|].
  apply Forall_cons in Hl as [[Hi Ha] Hl]. change (runSteps ((y :: l) ++ [x]) b) with
    (runSteps (l ++ [x]) (atomic (fst y) (snd y) b)).
  rewrite IH by done. cbn. by rewrite atomic_comm.
Qed.

(** Steps of different lists are independent. *)
Definition apart (ls : list (list (nat * (Z * action)))) : Prop :=
  ∀ i j l l' x y, i ≠ j → ls !! i = Some l → ls !! j = Some l' → x ∈ l → y ∈ l' → independent x y.

Lemma apart_tail ls i x l : apart ls → ls !! i = Some (x :: l) → apart (<[i := l]> ls).
Proof.
  intros Ha Hi. assert (Hsub : ∀ j l' y, <[i := l]> ls !! j = Some l' → y ∈ l' →
            ∃ l'', ls !! j = Some l'' ∧ y ∈ l'').
  { intros j l' y. rewrite list_lookup_insert_Some.
    intros [(<- & <- & _)|(_ & Hj)] Hy; [exists (x :: l); split; [done|by right]|eauto]. }
  intros j j' l1 l2 y z Hne Hj Hj' Hy Hz.
  destruct (Hsub _ _ _ Hj Hy) as (? & ? & ?), (Hsub _ _ _ Hj' Hz) as (? & ? & ?). eauto.
Qed.

(** Any interleaving of the workers ends as if they ran one after the other. *)
Lemma interleaving_runs ls r b :
  interleaving ls r → apart ls → runSteps r b = runSteps (concat ls) b.
Proof.
  intros Hr. revert b. induction Hr as [ls Hls|ls i x l r Hi Hr IH]; intros b Ha.
  { f_equal. symmetry. induction Hls as [|? ls -> _ IHls]; [done|]. apply IHls.
    intros i j l l' x y Hne Hi Hj. apply (Ha (S i) (S j)); [lia|done..]. }
  assert (Hcons : runSteps (x :: r) b = runSteps (x :: concat (<[i := l]> ls)) b).
  { cbn [runSteps foldl]. apply IH. by eapply apart_tail. }
  rewrite Hcons. pose proof (lookup_lt_Some _ _ _ Hi) as Hlt.
  assert (Hpre : Forall (independent x) (concat (take i ls))).
  { apply Forall_forall. intros y (j & l' & Hj & Hy)%elem_of_concat.
    apply lookup_take_Some in Hj as [Hj Hji].
    eapply (Ha i j); [lia|done|done|left|done]. }
  rewrite insert_take_drop by done. rewrite concat_app. cbn [concat].
  rewrite <- (take_drop_middle _ _ _ Hi) at 3. rewrite concat_app. cbn [concat].
  change (x :: concat (take i ls) ++ l ++ concat (drop (S i) ls))
    with ((x :: concat (take i ls)) ++ l ++ concat (drop (S i) ls)).
  rewrite runSteps_app, <- runSteps_early, <- runSteps_app by done.
  f_equal. by rewrite <- app_assoc.
Qed.
End race.

(** ** Schedulers *)

Abbreviation scheduler := (list (list (nat * (Z * action))) → list (nat * (Z * action))).

(** A scheduler runs all the steps, those of a worker in their order. *)
Definition fair (sched : scheduler) : Prop := ∀ ls, interleaving ls (sched ls).

(** The workers one after the other. *)
Definition one_by_one : scheduler := λ ls, concat ls.

Section determinism.
Context `{Hashing, Machine} (txs : list Transaction).
Implicit Types (c : ParallelContext).

Definition of_block c : Prop := pc_txList c = txs.

Lemma of_block_inState {A} (m : M AccountsDB A) : preserves of_block (inState m).
Proof. intros c Hc. unfold inState. by destruct (m (pc_state c)). Qed.

Lemma of_block_modify f : (∀ c, pc_txList (f c) = pc_txList c) → preserves of_block (modify f).
Proof. intros Hf c Hc. unfold of_block. cbn. by rewrite Hf. Qed.

Lemma of_block_isContract tx : preserves of_block (isContract tx).
Proof.
  unfold isContract, addContract. preserve; by apply of_block_inState || by apply of_block_modify.
Qed.

Lemma of_block_contract idx : preserves of_block (executeContractTransaction idx).
Proof.
  unfold executeContractTransaction.
  preserve; by apply of_block_inState || by apply of_block_modify.
Qed.

Lemma of_block_submit idx : preserves of_block (submit idx).
Proof.
  unfold submit, setResult. preserve; by apply of_block_inState || by apply of_block_modify.
Qed.

Lemma of_block_submitAll idxs : preserves of_block (submitAll idxs).
Proof.
  induction idxs; cbn [submitAll]; preserve. apply of_block_submit.
Qed.

Lemma of_block_runWorkers steps : preserves of_block (runWorkers steps).
Proof. intros c Hc. unfold runWorkers. cbn. by destruct (runSteps steps _). Qed.

Lemma of_block_batchMerge idxs : preserves of_block (batchMerge idxs).
Proof.
  unfold batchMerge, mergeResult. preserve; by apply of_block_inState || by apply of_block_modify.
Qed.

Lemma of_block_executeOne sched g idxs : preserves of_block (executeOne sched g idxs).
Proof.
  unfold executeOne, executeBatch. preserve; first [apply of_block_contract
    | apply of_block_submitAll | apply of_block_runWorkers | apply of_block_batchMerge].
Qed.

Lemma of_block_MakeDagGraph : preserves of_block MakeDagGraph.
Proof.
  intros c Hc. unfold MakeDagGraph.
  set (P := λ cg : ParallelContext * TxDag, of_block (fst cg)).
  assert (HP : preserves P (for_each node (imap pair (pc_txList c)))).
  { apply preserves_for_each. intros [i tx]. unfold node, contractNode, transferNode.
    assert (Hedge : ∀ u v, preserves P (edge u v)).
    { intros u v cg Hcg. unfold edge. by destruct (AddEdge _ _ _). }
    assert (Hin : preserves P (inContext (isContract tx))).
    { intros [c' g] Hc'. unfold inContext, P. cbn [fst].
      pose proof (of_block_isContract tx c' Hc') as Hk. by destruct (isContract tx c'). }
    preserve; try done; intros cg Hcg; exact Hcg. }
  specialize (HP (c, mkTxDag (NewDag (length (pc_txList c))) ∅ ∅ (-1)) Hc). unfold P in HP.
  by destruct (for_each _ _ _) as [[[]| |] [c' g']].
Qed.

(** What is handed out for a batch. *)
Definition task_of (idxs : list nat) (t : nat * (Transaction * Z * Z)) : Prop :=
  let '(idx, (tx, to, _)) := t in idx ∈ idxs ∧ txs !! idx = Some tx ∧ tx_To tx = Some to.

Lemma submit_task idx c ts c' :
  of_block c → submit idx c = (Ok ts, c') → ts = [] ∨ ∃ t, ts = [t] ∧ fst t = idx ∧ task_of [idx] t.
Proof.
  intros Hc. unfold submit, setResult. run_eval. rewrite Hc.
  destruct (txs !! idx) as [tx|] eqn:Hx; [|done].
  case_match; [intros [= <- _]; by left|]. unfold ask.
  destruct (IntrinsicGas _ _) as [[e|gas]|e|]; [| |done|done];
    (destruct (tx_To tx) as [to|] eqn:Hto; [|done]); [intros [= <- _]; by left|].
  destruct (SubGas _ _); intros [= <- _]; [right|by left].
  eexists. split; [done|]. split; [done|]. split; [by left|done].
Qed.

Lemma submitAll_tasks idxs c ts c' :
  of_block c → NoDup idxs → submitAll idxs c = (Ok ts, c') →
  NoDup (fst <$> ts) ∧ Forall (task_of idxs) ts.
Proof.
  revert c ts c'. induction idxs as [|idx idxs IH]; intros c ts c' Hc Hnd.
  { intros [= <- _]. split; [constructor|done]. }
  apply NoDup_cons in Hnd as [Hidx Hnd]. cbn [submitAll].
  intros (t & c1 & Ht & (ts' & c2 & Hts & [= <- _])%bind_Ok_inv)%bind_Ok_inv.
  assert (Hc1 : of_block c1) by (pose proof (of_block_submit idx c Hc) as Hk; by rewrite Ht in Hk).
  destruct (IH c1 ts' c2 Hc1 Hnd Hts) as [Hn Hf].
  assert (Hf' : Forall (task_of (idx :: idxs)) ts').
  { eapply Forall_impl; [exact Hf|]. intros [i [[tx to] gas]] (? & ? & ?).
    split; [by right|done]. }
  destruct (submit_task idx c t c1 Hc Ht) as [->|(t' & -> & <- & Ht')]; [done|]. cbn. split.
  - apply NoDup_cons. split; [|done]. intros (t'' & Heq & Hin)%list_elem_of_fmap.
    apply (proj1 (Forall_forall _ _) Hf) in Hin. destruct t'' as [i [[tx to] gas]].
    destruct Hin as [Hin _]. cbn in Heq. subst i. done.
  - constructor; [|done]. destruct t' as [i [[tx to] gas]]. destruct Ht' as (_ & ? & ?).
    split; [by left|done].
Qed.

Lemma taskSteps_touch idxs t x :
  task_of idxs t → x ∈ taskSteps t →
  fst x = fst t ∧ ∃ tx, txs !! fst t = Some tx ∧ fst t ∈ idxs ∧ touches tx (fst (snd x)).
Proof.
  destruct t as [idx [[tx to] gas]]. intros (Hi & Hx & Hto) Hin. unfold taskSteps in Hin.
  apply list_elem_of_fmap in Hin as (y & -> & Hy). cbn. split; [done|]. exists tx.
  split; [done|]. split; [done|]. unfold workerSteps in Hy. unfold touches.
  repeat (apply elem_of_cons in Hy as [->|Hy]; [cbn; auto|]). by apply elem_of_nil in Hy.
Qed.

(** The transactions of a batch have no account in common. *)
Definition separate (idxs : list nat) : Prop :=
  NoDup idxs ∧ ∀ i j tx ty a, i ∈ idxs → j ∈ idxs → i ≠ j → txs !! i = Some tx →
    txs !! j = Some ty → touches tx a → touches ty a → False.

Lemma tasks_apart idxs ts :
  separate idxs → NoDup (fst <$> ts) → Forall (task_of idxs) ts → apart (taskSteps <$> ts).
Proof.
  intros [_ Hsep] Hnd Hts i j l l' x y Hne Hi Hj Hx Hy.
  apply list_lookup_fmap_Some in Hi as (t & -> & Hti), Hj as (t' & -> & Htj).
  destruct (taskSteps_touch idxs t x) as (E1 & tx & Hx1 & Hx2 & Hx3); [by eapply Forall_lookup_1|done|].
  destruct (taskSteps_touch idxs t' y) as (E2 & ty & Hy1 & Hy2 & Hy3); [by eapply Forall_lookup_1|done|].
  assert (Hne' : fst t ≠ fst t').
  { intros Heq. apply Hne. eapply NoDup_lookup; [exact Hnd|..]; rewrite list_lookup_fmap;
      [by rewrite Hti|rewrite Htj; cbn; by rewrite Heq]. }
  split; [congruence|]. intros Ha. eapply (Hsep (fst t) (fst t') tx ty (fst (snd x))); try done.
  by rewrite Ha.
Qed.

(** The outcome of a batch does not depend on the scheduler. *)
Lemma executeBatch_fair sched idxs c :
  fair sched → separate idxs → of_block c → executeBatch sched idxs c = executeBatch one_by_one idxs c.
Proof.
  intros Hs Hsep Hc. unfold executeBatch.
  destruct (submitAll idxs c) as [[ts|e|] c1] eqn:Hts;
    [|by erewrite !bind_Err_run by exact Hts|unfold mbind, M_bind; by rewrite Hts].
  rewrite !(bind_Ok_run _ _ _ _ _ Hts).
  destruct (submitAll_tasks idxs c ts c1 Hc (proj1 Hsep) Hts) as [Hnd Hall].
  assert (Hw : runWorkers (sched (taskSteps <$> ts)) c1 =
            runWorkers (one_by_one (taskSteps <$> ts)) c1).
  { unfold runWorkers. run_eval. rewrite (interleaving_runs (taskSteps <$> ts)); [done|apply Hs|].
    by eapply tasks_apart. }
  unfold mbind, M_bind. by rewrite Hw.
Qed.

Lemma executeBatches_fair scheds g bs c :
  (∀ n, fair (scheds n)) → Forall separate bs → of_block c →
  executeBatches scheds g bs c = executeBatches (λ _, one_by_one) g bs c.
Proof.
  intros Hs Hbs. revert scheds Hs c. induction Hbs as [|b bs Hb Hbs IH]; intros scheds Hs c Hc; [done|].
  cbn [executeBatches].
  assert (Hone : executeOne (scheds 0%nat) g b c = executeOne one_by_one g b c).
  { unfold executeOne. destruct b as [|i [|j b]]; [|case_match; [done|]|];
      by apply executeBatch_fair. }
  pose proof (of_block_executeOne one_by_one g b c Hc) as Hc'.
  unfold mbind, M_bind. rewrite Hone. destruct (executeOne one_by_one g b c) as [[[]|e|] c']; [|done|done].
  apply IH; [intros n; apply Hs|done].
Qed.
End determinism.

(** C5: Parallel execution is deterministic.  In a block whose senders are
    known, it does not matter how the steps of the workers interleave, in any
    of the batches: the outcome, the state, the gas, the receipts, the packed
    transactions and the failures are those of workers that run one after the
    other. *)
Theorem ExecuteTransactions_deterministic `{Hashing, Machine} scheds (c : ParallelContext) :
  (∀ n, fair (scheds n)) → resolved (pc_txList c) →
  ExecuteTransactions scheds c = ExecuteTransactions (λ _, one_by_one) c.
Proof.
  intros Hs Hres. unfold ExecuteTransactions. run_eval.
  destruct (pc_txList c) as [|tx txs] eqn:Htxs; [done|]. rewrite <- Htxs in *.
  destruct (MakeDagGraph c) as [[g|e|] c1] eqn:Hg; [|done|done].
  destruct (MakeDagGraph_inv _ c c1 g eq_refl Hres Hg) as (E & Hi).
  pose proof (of_block_MakeDagGraph (pc_txList c) c eq_refl) as Hc1. rewrite Hg in Hc1.
  assert (Hsep : Forall (separate (pc_txList c)) (batches (length (pc_txList c)) (td_dag g))).
  { apply Forall_lookup. intros k b Hb. split; [by apply (batch_level _ E g Hi k b)|].
    intros i j tx1 tx2 a Hib Hjb Hij H1 H2 Ha1 Ha2.
    by eapply (batch_apart _ E g Hi k b i j). }
  by rewrite (executeBatches_fair (pc_txList c) scheds g _ _ Hs Hsep Hc1).
Qed.
