(* ===== verification/ParallelTransfer.v ===== *)
(** What a transfer that is executed by a worker and merged does to the
    accounts of its sender and its recipient. *)

From Stdlib Require Import Ascii String.
From S2P Require Import Prelude Keys StateDB GovTypes Accounts AccountsProofs StateTransition StateTransitionProofs Dag DagProofs Parallel ParallelProofs.

(** ** A worker by itself *)

(** The steps of one worker. *)
Definition alone (steps : list (Z * action)) (b : AccountsDB * progress) : AccountsDB * progress :=
  foldl (λ b sa, let '(o, st) := snd sa (cellAt (fst b) (fst sa)) (snd b) in
                 (setLive (fst sa) o (fst b), st)) b steps.

Lemma runSteps_alone idx steps s ps :
  steps ≠ [] →
  runSteps (pair idx <$> steps) (s, ps) =
    (let b := alone steps (s, default Started (ps !! idx)) in (fst b, <[idx := snd b]> ps)).
Proof.
  revert s ps. induction steps as [|[a act] steps IH]; intros s ps Hne; [done|].
  cbn [fmap list_fmap runSteps foldl alone fst snd]. unfold atomic at 2. cbn [fst snd].
  destruct (act (cellAt s a) (default Started (ps !! idx))) as [o st] eqn:Ha. cbn [fst snd].
  destruct (decide (steps = [])) as [->|Hs]; [done|].
  fold (runSteps (pair idx <$> steps) (setLive a o s, <[idx := st]> ps)).
  rewrite IH by done. rewrite lookup_insert_eq. cbn [default from_option].
  cbv zeta. unfold alone. f_equal. by rewrite insert_insert_eq.
Qed.

(** *** Writing through the pointer of a worker *)

Definition withOwn (p : ParallelStateObject) (o : stateObject) : ParallelStateObject :=
  match po_own p with
  | None => p
  | Some _ => mkParallel (po_address p) (Some o) (po_prevAmount p) (po_createFlag p)
  end.

Definition writeBack (p : ParallelStateObject) (o : stateObject) (s : AccountsDB) : AccountsDB :=
  match po_own p with None => setLive (po_address p) (Some o) s | Some _ => s end.

Definition view (p : ParallelStateObject) (s : AccountsDB) : option stateObject :=
  deref p (sd_objects s !! po_address p).

Lemma setLive_id s a : setLive a (sd_objects s !! a) s = s.
Proof.
  unfold setLive, with_objects. rewrite partial_alter_self. by destruct s.
Qed.

Lemma setLive_twice s a o o' : setLive a o (setLive a o' s) = setLive a o s.
Proof.
  unfold setLive, with_objects. cbn. f_equal. by rewrite partial_alter_partial_alter_eq.
Qed.

Lemma update_view f p s o :
  view p s = Some o →
  (let '(q, l) := update f p (sd_objects s !! po_address p) in
   q = withOwn p (f o) ∧ setLive (po_address p) l s = writeBack p (f o) s).
Proof.
  unfold view, deref, update, withOwn, writeBack. destruct (po_own p) as [o'|].
  - intros [= ->]. split; [done|apply setLive_id].
  - intros ->. done.
Qed.

Lemma view_write p s o : view (withOwn p o) (writeBack p o s) = Some o.
Proof.
  unfold view, deref, withOwn, writeBack. destruct (po_own p) as [o'|] eqn:Hp; cbn; [done|].
  rewrite Hp. by rewrite lookup_partial_alter_eq.
Qed.

Lemma withOwn_twice p o o' : withOwn (withOwn p o) o' = withOwn p o'.
Proof. unfold withOwn. destruct (po_own p) eqn:Hp; cbn; by rewrite ?Hp. Qed.

Lemma withOwn_address p o : po_address (withOwn p o) = po_address p.
Proof. unfold withOwn. by destruct (po_own p). Qed.

Lemma writeBack_withOwn p o o' s : writeBack (withOwn p o) o' s = writeBack p o' s.
Proof. unfold writeBack, withOwn. destruct (po_own p) eqn:Hp; cbn; by rewrite ?Hp. Qed.

Lemma writeBack_twice p o o' s : writeBack p o (writeBack p o' s) = writeBack p o s.
Proof. unfold writeBack. destruct (po_own p); [done|]. apply setLive_twice. Qed.

Lemma writeBack_comm p q o o' s :
  po_address p ≠ po_address q → writeBack p o (writeBack q o' s) = writeBack q o' (writeBack p o s).
Proof.
  intros Hpq. unfold writeBack. destruct (po_own p), (po_own q); try done. by apply setLive_comm.
Qed.

Lemma cellAt_writeBack p o s a : a ≠ po_address p → cellAt (writeBack p o s) a = cellAt s a.
Proof. intros Ha. unfold writeBack. destruct (po_own p); [done|]. by apply cellAt_setLive. Qed.

(** What is read of an account depends on its cell. *)
Lemma live_cell s s' a : cellAt s a = cellAt s' a → live s a = live s' a.
Proof.
  unfold cellAt. intros [= Ho Hp Ht]. unfold live, resolve. by rewrite Ho, Hp, Ht.
Qed.

Lemma view_cell p s s' : cellAt s (po_address p) = cellAt s' (po_address p) → view p s = view p s'.
Proof. unfold cellAt. intros [= Ho _ _]. unfold view. by rewrite Ho. Qed.

Section worker.
Context `{Hashing} (tx : Transaction) (from to gas : Z).
Context (Hsender : tx_sender tx = Some from).

(** The object of an address as a worker finds it. *)
Lemma GetOrNew_view s a :
  let p := GetOrNewParallelStateObject a (cellAt s a) in
  po_address p = a ∧ ∃ o, view p s = Some o ∧ so_deleted o = false ∧
    Balance o = balanceOf s a ∧ Nonce o = nonceOf s a.
Proof.
  cbv zeta. unfold GetOrNewParallelStateObject, balanceOf, nonceOf, live, resolve, cellAt.
  cbn [c_live c_parent c_trie]. unfold view, deref, present.
  destruct (sd_objects s !! a) as [o|] eqn:Ho.
  - cbn [mbind option_bind]. destruct (so_deleted o) eqn:Hd.
    + split; [done|]. by eexists.
    + split; [done|]. exists o. cbn [po_own po_address]. by rewrite Ho.
  - destruct (parentObject s a) as [o|] eqn:Hp.
    + pose proof (parentObject_present _ _ _ Hp) as Hd. cbn [mbind option_bind].
      change (so_deleted (copyObject o)) with (so_deleted o). rewrite Hd.
      split; [done|]. exists (copyObject o). by rewrite <- Hd at 2.
    + destruct (sd_trie s !! a) as [d|]; [|split; [done|by eexists]].
      split; [done|]. eexists. split; [done|]. split; [done|].
      cbn [fmap option_fmap option_map mbind option_bind so_deleted newObject from_option].
      unfold Balance, Nonce, newObject, loadAccount. cbn [so_data]. by destruct (accountEmpty d).
Qed.

(** The transfer passes the checks of the worker. *)
Definition affordable (s : AccountsDB) : Prop :=
  gas <= tx_Gas tx ∧ tx_Gas tx * tx_GasPrice tx <= balanceOf s from ∧
  nonceOf s from = tx_Nonce tx ∧ subTotal tx gas <= balanceOf s from.

Lemma check_passes s :
  affordable s →
  checkTransfer tx gas (cellAt s from) Started =
    (sd_objects s !! from, Checked (GetOrNewParallelStateObject from (cellAt s from))).
Proof.
  intros (Hg & Hm & Hn & Ht). unfold checkTransfer. rewrite Hsender. f_equal.
  destruct (GetOrNew_view s from) as (Ha & o & Hv & Hd & Hb & Hno). unfold view in Hv.
  rewrite Ha in Hv. set (p := GetOrNewParallelStateObject from (cellAt s from)) in *.
  change (c_live (cellAt s from)) with (sd_objects s !! from). cbv zeta. rewrite Hv, Hb, Hno.
  rewrite !(proj2 (Z.ltb_ge _ _)) by lia. done.
Qed.

(** One step that writes to the account of [p]. *)
Lemma update_step f p s o :
  view p s = Some o →
  update f p (sd_objects s !! po_address p) = (withOwn p (f o), sd_objects (writeBack p (f o) s) !! po_address p).
Proof.
  unfold view, deref, update, withOwn, writeBack. destruct (po_own p) as [o'|] eqn:Hp.
  - by intros [= ->].
  - intros ->. cbn. by rewrite lookup_partial_alter_eq.
Qed.

Lemma setLive_written p o s :
  setLive (po_address p) (sd_objects (writeBack p o s) !! po_address p) s = writeBack p o s.
Proof.
  unfold writeBack. destruct (po_own p); [apply setLive_id|]. cbn. by rewrite lookup_partial_alter_eq.
Qed.

Let debited (o : stateObject) := bumpNonce (poSubBalance (subTotal tx gas) o).

(** The first three steps: checks, debit and nonce. *)
Lemma debit_steps s p o rest :
  affordable s → p = GetOrNewParallelStateObject from (cellAt s from) → view p s = Some o →
  alone ((from, checkTransfer tx gas) :: (from, debit tx gas) :: (from, number) :: rest) (s, Started) =
    alone rest (writeBack p (debited o) s, Numbered (withOwn p (debited o))).
Proof.
  intros Haff Hp Hv. assert (Ha : po_address p = from) by (rewrite Hp; apply GetOrNew_view).
  unfold alone at 1. cbn [foldl fst snd]. rewrite check_passes by done. cbn [fst snd].
  rewrite setLive_id, <- Hp. unfold debit. unfold cellAt at 1. cbn [c_live fst snd]. rewrite <- Ha.
  rewrite (update_step _ p s o) by done. cbn [fst snd]. rewrite setLive_written.
  set (o1 := poSubBalance (subTotal tx gas) o). unfold number. unfold cellAt at 1. cbn [c_live].
  pose proof (update_step bumpNonce (withOwn p o1) (writeBack p o1 s) o1 (view_write _ _ _)) as Hu.
  pose proof (setLive_written (withOwn p o1) (bumpNonce o1) (writeBack p o1 s)) as Hs.
  rewrite withOwn_address in Hu, Hs. rewrite Hu. cbn [fst snd]. rewrite Hs.
  by rewrite withOwn_twice, writeBack_withOwn, writeBack_twice.
Qed.

Let credited := poAddBalance (tx_Value tx).

Lemma FromAddr_sender : FromAddr tx = from.
Proof. unfold FromAddr. by rewrite Hsender. Qed.

(** The last step writes the root of the sender's storage. *)
Lemma succeed_step s p q o :
  po_address p = from → view p s = Some o →
  alone [(from, succeed tx gas)] (s, Credited p q) =
    (writeBack p (updateRoot o) s,
     Finished (TransferSuccess (withOwn p (updateRoot o)) q gas (minerEarnings tx gas))).
Proof.
  intros Ha Hv. unfold alone. cbn [foldl fst snd]. unfold succeed. unfold cellAt at 1. cbn [c_live].
  rewrite <- Ha, (update_step _ p s o) by done. cbn [fst snd]. by rewrite setLive_written.
Qed.

(** A transfer to another account. *)
Lemma worker_other s p o q oq :
  from ≠ to → affordable s →
  p = GetOrNewParallelStateObject from (cellAt s from) → view p s = Some o →
  q = GetOrNewParallelStateObject to (cellAt s to) → view q s = Some oq →
  let fo := updateRoot (debited o) in
  alone (workerSteps tx to gas) (s, Started) =
    (writeBack p fo (writeBack q (credited oq) s),
     Finished (TransferSuccess (withOwn p fo) (Some (withOwn q (credited oq))) gas
                 (minerEarnings tx gas))).
Proof.
  intros Hne Haff Hp Hvp Hq Hvq. cbv zeta.
  assert (Hpa : po_address p = from) by (rewrite Hp; apply GetOrNew_view).
  assert (Hqa : po_address q = to) by (rewrite Hq; apply GetOrNew_view).
  unfold workerSteps. rewrite FromAddr_sender. rewrite (debit_steps s p o) by done.
  set (o1 := debited o). set (s1 := writeBack p o1 s).
  assert (Hc : cellAt s1 to = cellAt s to) by (apply cellAt_writeBack; congruence).
  assert (Hvq1 : view q s1 = Some oq) by (rewrite <- Hvq; apply view_cell; by rewrite Hqa).
  change (alone [(to, loadRecipient tx to); (to, credit tx); (from, succeed tx gas)]
            (s1, Numbered (withOwn p o1)))
    with (alone [(from, succeed tx gas)] (alone [(to, loadRecipient tx to); (to, credit tx)]
            (s1, Numbered (withOwn p o1)))).
  assert (alone [(to, loadRecipient tx to); (to, credit tx)] (s1, Numbered (withOwn p o1)) =
            (writeBack q (credited oq) s1,
             Credited (withOwn p o1) (Some (withOwn q (credited oq))))) as ->.
  { unfold alone. cbn [foldl fst snd]. unfold loadRecipient. rewrite FromAddr_sender.
    rewrite (proj2 (Z.eqb_neq from to)) by done. cbn [fst snd]. rewrite Hc, <- Hq.
    assert (setLive to (c_live (cellAt s to)) s1 = s1) as -> by (rewrite <- Hc; apply setLive_id).
    unfold credit. unfold cellAt at 1. cbn [c_live]. rewrite <- Hqa, (update_step _ q s1 oq) by done.
    cbn [fst snd]. by rewrite setLive_written. }
  rewrite (succeed_step _ (withOwn p o1) _ o1).
  - rewrite withOwn_twice, writeBack_withOwn. unfold s1.
    rewrite (writeBack_comm q p) by congruence. by rewrite writeBack_twice.
  - by rewrite withOwn_address.
  - unfold s1. rewrite (writeBack_comm q p) by congruence. apply view_write.
Qed.

(** A transfer to oneself. *)
Lemma worker_self s p o :
  from = to → affordable s →
  p = GetOrNewParallelStateObject from (cellAt s from) → view p s = Some o →
  let fo := updateRoot (credited (debited o)) in
  alone (workerSteps tx to gas) (s, Started) =
    (writeBack p fo s,
     Finished (TransferSuccess (withOwn p fo) None gas (minerEarnings tx gas))).
Proof.
  intros He Haff Hp Hvp. cbv zeta.
  assert (Hpa : po_address p = from) by (rewrite Hp; apply GetOrNew_view).
  unfold workerSteps. rewrite FromAddr_sender. rewrite (debit_steps s p o) by done.
  set (o1 := debited o). set (s1 := writeBack p o1 s).
  change (alone [(to, loadRecipient tx to); (to, credit tx); (from, succeed tx gas)]
            (s1, Numbered (withOwn p o1)))
    with (alone [(from, succeed tx gas)] (alone [(to, loadRecipient tx to); (to, credit tx)]
            (s1, Numbered (withOwn p o1)))).
  assert (alone [(to, loadRecipient tx to); (to, credit tx)] (s1, Numbered (withOwn p o1)) =
            (writeBack p (credited o1) s, Credited (withOwn p (credited o1)) None)) as ->.
  { unfold alone. cbn [foldl fst snd]. unfold loadRecipient. rewrite FromAddr_sender.
    rewrite (proj2 (Z.eqb_eq from to)) by done. cbn [fst snd].
    assert (setLive to (c_live (cellAt s1 to)) s1 = s1) as -> by apply setLive_id.
    unfold credit. unfold cellAt at 1. cbn [c_live].
    pose proof (update_step credited (withOwn p o1) s1 o1 (view_write _ _ _)) as Hu.
    pose proof (setLive_written (withOwn p o1) (credited o1) s1) as Hs.
    rewrite withOwn_address, Hpa, He in Hu, Hs. unfold credited in Hu, Hs. rewrite Hu. cbn [fst snd].
    rewrite Hs. unfold s1. by rewrite withOwn_twice, writeBack_withOwn, writeBack_twice. }
  rewrite (succeed_step _ (withOwn p (credited o1)) _ (credited o1)).
  - by rewrite withOwn_twice, writeBack_withOwn, writeBack_twice.
  - by rewrite withOwn_address.
  - apply view_write.
Qed.
End worker.

Section merge.
Context `{Hashing}.

(** ** Merging *)

Lemma cellAt_logged e s a : cellAt (with_journal (journalAppend e) s) a = cellAt s a.
Proof. done. Qed.

Lemma observers_cell s s' a :
  cellAt s a = cellAt s' a → balanceOf s a = balanceOf s' a ∧ nonceOf s a = nonceOf s' a.
Proof. intros Hc%live_cell. unfold balanceOf, nonceOf. by rewrite Hc. Qed.

Lemma observers_live s a o :
  sd_objects s !! a = Some o → so_deleted o = false →
  balanceOf s a = Balance o ∧ nonceOf s a = Nonce o.
Proof.
  intros Ho Hd. unfold balanceOf, nonceOf, live, resolve. rewrite Ho. cbn.
  unfold present. by rewrite Hd.
Qed.

(** Without its account in the trie, an account reads as before or as none. *)
Lemma observers_trie s a :
  let s' := with_trie (delete a) s in
  (balanceOf s' a = balanceOf s a ∧ nonceOf s' a = nonceOf s a) ∨
  (balanceOf s' a = 0 ∧ nonceOf s' a = 0).
Proof.
  cbv zeta. unfold balanceOf, nonceOf, live, resolve, parentObject. cbn [sd_objects sd_parents sd_trie with_trie].
  destruct (sd_objects s !! a); [by left|].
  destruct (walkParents _ _); [by left|]. right. by rewrite lookup_delete_eq.
Qed.

Lemma objectEmpty_zero o : objectEmpty o = true → Balance o = 0 ∧ Nonce o = 0.
Proof.
  unfold objectEmpty. case_match; [done|]. intros [[?%Z.eqb_eq ?%Z.eqb_eq]%andb_prop _]%andb_prop. done.
Qed.

Lemma mergeObject_effect p create s o :
  let a := po_address p in
  view p s = Some o → so_suicided o = false → so_deleted o = false →
  (objectEmpty o = true → po_own p ≠ None → balanceOf s a = 0 ∧ nonceOf s a = 0) →
  let s' := mergeObject p create s in
  (∀ b, b ≠ a → cellAt s' b = cellAt s b) ∧ balanceOf s' a = Balance o ∧ nonceOf s' a = Nonce o.
Proof.
  cbv zeta. intros Hv Hsu Hd Hown. unfold mergeObject. unfold view in Hv. rewrite Hv, Hsu.
  cbn [orb]. destruct (objectEmpty o) eqn:He.
  - destruct (objectEmpty_zero o He) as [-> ->]. unfold deref in Hv.
    destruct (po_own p) as [o'|] eqn:Hp.
    + destruct Hown as [Hb Hn]; [done..|]. split.
      * intros b Hne. unfold cellAt. cbn. by rewrite lookup_delete_ne.
      * destruct (observers_trie s (po_address p)) as [[-> ->]|]; done.
    + split.
      * intros b Hne. unfold cellAt. cbn. by rewrite lookup_delete_ne, lookup_alter_ne.
      * unfold balanceOf, nonceOf, live, resolve. cbn. by rewrite lookup_alter_eq, Hv.
  - split.
    + intros b Hne. unfold cellAt. destruct (create && po_createFlag p); cbn; by rewrite lookup_insert_ne.
    + apply observers_live; [|done]. destruct (create && po_createFlag p); cbn; apply lookup_insert_eq.
Qed.
End merge.

Section transfer_theorem.
Context `{Hashing, Machine}.

(** *** What the updates of a worker change of an object *)

Lemma updateRoot_keeps o :
  so_suicided (updateRoot o) = so_suicided o ∧ so_deleted (updateRoot o) = so_deleted o ∧
  Balance (updateRoot o) = Balance o ∧ Nonce (updateRoot o) = Nonce o.
Proof. unfold updateRoot, updateTrie. by destruct (foldl _ _ _). Qed.

Lemma poAddBalance_keeps x o :
  so_suicided (poAddBalance x o) = so_suicided o ∧ so_deleted (poAddBalance x o) = so_deleted o ∧
  Balance (poAddBalance x o) = Balance o + x ∧ Nonce (poAddBalance x o) = Nonce o.
Proof. unfold poAddBalance. destruct (Z.eqb_spec x 0); cbn; auto with lia. Qed.

Lemma poSubBalance_keeps x o :
  so_suicided (poSubBalance x o) = so_suicided o ∧ so_deleted (poSubBalance x o) = so_deleted o ∧
  Balance (poSubBalance x o) = Balance o - x ∧ Nonce (poSubBalance x o) = Nonce o.
Proof. unfold poSubBalance. destruct (Z.eqb_spec x 0); cbn; auto with lia. Qed.

Lemma bumpNonce_keeps o :
  so_suicided (bumpNonce o) = so_suicided o ∧ so_deleted (bumpNonce o) = so_deleted o ∧
  Balance (bumpNonce o) = Balance o ∧ Nonce (bumpNonce o) = u64 (Nonce o + 1).
Proof. done. Qed.

(** The object of the sender in the end. *)
Lemma debited_keeps x o :
  let fo := updateRoot (bumpNonce (poSubBalance x o)) in
  so_suicided fo = so_suicided o ∧ so_deleted fo = so_deleted o ∧
  Balance fo = Balance o - x ∧ Nonce fo = u64 (Nonce o + 1).
Proof.
  cbv zeta. destruct (updateRoot_keeps (bumpNonce (poSubBalance x o))) as (-> & -> & -> & ->).
  destruct (bumpNonce_keeps (poSubBalance x o)) as (-> & -> & -> & ->).
  by destruct (poSubBalance_keeps x o) as (-> & -> & -> & ->).
Qed.

Lemma turned_keeps x y o :
  let fo := updateRoot (poAddBalance y (bumpNonce (poSubBalance x o))) in
  so_suicided fo = so_suicided o ∧ so_deleted fo = so_deleted o ∧
  Balance fo = Balance o - x + y ∧ Nonce fo = u64 (Nonce o + 1).
Proof.
  cbv zeta. destruct (updateRoot_keeps (poAddBalance y (bumpNonce (poSubBalance x o)))) as (-> & -> & -> & ->).
  destruct (poAddBalance_keeps y (bumpNonce (poSubBalance x o))) as (-> & -> & -> & ->).
  destruct (bumpNonce_keeps (poSubBalance x o)) as (-> & -> & -> & ->).
  by destruct (poSubBalance_keeps x o) as (-> & -> & -> & ->).
Qed.

Lemma u64_next n : 0 <= n < 2 ^ 64 - 1 → u64 (n + 1) = n + 1.
Proof. intros Hn. apply Z.mod_small. lia. Qed.

(** No account that a worker finds has been destroyed. *)
Definition intact (s : AccountsDB) (a : Z) : Prop :=
  ∀ o, view (GetOrNewParallelStateObject a (cellAt s a)) s = Some o → so_suicided o = false.

(** The accounts after a transfer. *)
Definition moved (tx : Transaction) (from to gas : Z) (s s' : AccountsDB) : Prop :=
  (∀ a, balanceOf s' a = balanceOf s a - (if decide (a = from) then subTotal tx gas else 0)
                         + (if decide (a = to) then tx_Value tx else 0)) ∧
  (∀ a, nonceOf s' a = nonceOf s a + (if decide (a = from) then 1 else 0)).

(** Both objects are merged: what is written back before does not matter. *)
Lemma Merge_both p q fo qo s :
  po_address p ≠ po_address q →
  so_suicided fo = false → so_deleted fo = false → Nonce fo ≠ 0 →
  so_suicided qo = false → so_deleted qo = false →
  (objectEmpty qo = true → po_own q ≠ None →
     balanceOf s (po_address q) = 0 ∧ nonceOf s (po_address q) = 0) →
  let s' := Merge (withOwn p fo) (Some (withOwn q qo)) (writeBack p fo (writeBack q qo s)) in
  (∀ a, a ≠ po_address p → a ≠ po_address q →
     balanceOf s' a = balanceOf s a ∧ nonceOf s' a = nonceOf s a) ∧
  (balanceOf s' (po_address p) = Balance fo ∧ nonceOf s' (po_address p) = Nonce fo) ∧
  (balanceOf s' (po_address q) = Balance qo ∧ nonceOf s' (po_address q) = Nonce qo).
Proof.
  cbv zeta. intros Hne Hsf Hdf Hnf Hsq Hdq Hempty. unfold Merge.
  set (s1 := writeBack p fo (writeBack q qo s)).
  destruct (mergeObject_effect (withOwn p fo) false s1 fo) as (C1 & B1 & N1);
    [apply view_write|done|done|by intros [_ Hz]%objectEmpty_zero|].
  rewrite withOwn_address in C1, B1, N1. set (s2 := mergeObject (withOwn p fo) false s1) in *.
  assert (Hc2 : cellAt s2 (po_address q) = cellAt (writeBack q qo s) (po_address q)).
  { rewrite C1 by done. by apply cellAt_writeBack. }
  destruct (mergeObject_effect (withOwn q qo) true s2 qo) as (C2 & B2 & N2); [|done|done| |].
  { rewrite (view_cell _ s2 (writeBack q qo s)); [apply view_write|by rewrite withOwn_address]. }
  { intros He Hown. rewrite withOwn_address. destruct (observers_cell _ _ _ Hc2) as [-> ->].
    unfold withOwn in Hown. unfold writeBack. destruct (po_own q) eqn:Hq; [by apply Hempty|done]. }
  rewrite withOwn_address in C2, B2, N2. split_and!; try done.
  - intros a Ha1 Ha2. apply observers_cell. rewrite C2, C1 by done. unfold s1.
    by rewrite !cellAt_writeBack.
  - by destruct (observers_cell _ _ _ (C2 _ Hne)) as [-> _].
  - by destruct (observers_cell _ _ _ (C2 _ Hne)) as [_ ->].
Qed.

Lemma transfer_other tx from to gas s :
  tx_sender tx = Some from → from ≠ to → affordable tx from gas s →
  intact s from → intact s to → 0 <= tx_Value tx → 0 <= balanceOf s to →
  0 <= nonceOf s from < 2 ^ 64 - 1 →
  ∃ p q s1, alone (workerSteps tx to gas) (s, Started) =
      (s1, Finished (TransferSuccess p (Some q) gas (minerEarnings tx gas))) ∧
    moved tx from to gas s (Merge p (Some q) s1).
Proof.
  intros Hs Hne Haff Hif Hit Hv Hbt Hnf.
  destruct (GetOrNew_view s from) as (Hpa & o & Hvp & Hd & Hb & Hn).
  destruct (GetOrNew_view s to) as (Hqa & oq & Hvq & Hdq & Hbq & Hnq).
  pose proof (Hif _ Hvp) as Hsu. pose proof (Hit _ Hvq) as Hsuq.
  set (p := GetOrNewParallelStateObject from (cellAt s from)) in *.
  set (q := GetOrNewParallelStateObject to (cellAt s to)) in *.
  pose proof (worker_other tx from to gas Hs s p o q oq Hne Haff eq_refl Hvp eq_refl Hvq) as Hw.
  cbv zeta in Hw. do 3 eexists. split; [exact Hw|].
  destruct (debited_keeps (subTotal tx gas) o) as (F1 & F2 & F3 & F4).
  destruct (poAddBalance_keeps (tx_Value tx) oq) as (Q1 & Q2 & Q3 & Q4).
  rewrite Hn, u64_next in F4 by done.
  set (fo := updateRoot _) in *. set (qo := poAddBalance _ oq) in *.
  destruct (Merge_both p q fo qo s) as (R & [Bf Nf] & [Bt Nt]);
    [congruence|congruence|congruence|lia|congruence|congruence| |].
  { intros [Hz1 Hz2]%objectEmpty_zero _. rewrite Hqa. lia. }
  rewrite Hpa, Hqa in R. rewrite Hpa in Bf, Nf. rewrite Hqa in Bt, Nt.
  split; intros a; (destruct (decide (a = from)) as [->|]; [|destruct (decide (a = to)) as [->|]]);
    rewrite ?decide_False by done; try (destruct (R a); [done..|]); lia.
Qed.

Lemma transfer_self tx from gas s :
  tx_sender tx = Some from → affordable tx from gas s → intact s from →
  0 <= nonceOf s from < 2 ^ 64 - 1 →
  ∃ p s1, alone (workerSteps tx from gas) (s, Started) =
      (s1, Finished (TransferSuccess p None gas (minerEarnings tx gas))) ∧
    moved tx from from gas s (Merge p None s1).
Proof.
  intros Hs Haff Hif Hnf.
  destruct (GetOrNew_view s from) as (Hpa & o & Hvp & Hd & Hb & Hn). pose proof (Hif _ Hvp) as Hsu.
  set (p := GetOrNewParallelStateObject from (cellAt s from)) in *.
  pose proof (worker_self tx from from gas Hs s p o eq_refl Haff eq_refl Hvp) as Hw.
  cbv zeta in Hw. do 2 eexists. split; [exact Hw|].
  destruct (turned_keeps (subTotal tx gas) (tx_Value tx) o) as (F1 & F2 & F3 & F4).
  rewrite Hn, u64_next in F4 by done. set (fo := updateRoot _) in *.
  destruct (mergeObject_effect (withOwn p fo) true (writeBack p fo s) fo) as (C & B & N);
    [apply view_write|congruence|congruence|intros [_ Hz]%objectEmpty_zero; lia|].
  rewrite withOwn_address, Hpa in C, B, N.
  assert (R : ∀ a, a ≠ from → balanceOf (mergeObject (withOwn p fo) true (writeBack p fo s)) a =
            balanceOf s a ∧ nonceOf (mergeObject (withOwn p fo) true (writeBack p fo s)) a = nonceOf s a).
  { intros a Ha. apply observers_cell. rewrite C by done. apply cellAt_writeBack. congruence. }
  unfold Merge. split; intros a; (destruct (decide (a = from)) as [->|];
    [|destruct (R a); [done|]]); lia.
Qed.

(** A worker that has finished takes no more steps. *)
Lemma finished_stays tx to gas s r sa :
  sa ∈ workerSteps tx to gas → snd sa (cellAt s (fst sa)) (Finished r) = (sd_objects s !! fst sa, Finished r).
Proof.
  intros Hin. unfold workerSteps in Hin.
  repeat (apply elem_of_cons in Hin as [->|Hin]; [done|]). by apply elem_of_nil in Hin.
Qed.

Lemma refused_check tx from gas s :
  tx_sender tx = Some from → ¬ affordable tx from gas s →
  ∃ e, checkTransfer tx gas (cellAt s from) Started =
    (sd_objects s !! from, Finished (TransferFailed e true)).
Proof.
  intros Hs Hn. unfold checkTransfer. rewrite Hs.
  destruct (GetOrNew_view s from) as (Ha & o & Hv & Hd & Hb & Hno). unfold view in Hv.
  rewrite Ha in Hv. set (p := GetOrNewParallelStateObject from (cellAt s from)) in *.
  change (c_live (cellAt s from)) with (sd_objects s !! from). cbv zeta. rewrite Hv, Hb, Hno.
  unfold affordable in Hn. destruct (Z.ltb_spec (tx_Gas tx) gas); [by eexists|].
  destruct (Z.ltb_spec (balanceOf s from) (tx_Gas tx * tx_GasPrice tx)); [by eexists|].
  destruct (Z.ltb_spec (nonceOf s from) (tx_Nonce tx)); [by eexists|].
  destruct (Z.ltb_spec (tx_Nonce tx) (nonceOf s from)); [by eexists|].
  destruct (Z.ltb_spec (balanceOf s from) (subTotal tx gas)); [by eexists|].
  exfalso. apply Hn. lia.
Qed.

Lemma worker_refused tx from to gas s :
  tx_sender tx = Some from → ¬ affordable tx from gas s →
  ∃ e, alone (workerSteps tx to gas) (s, Started) = (s, Finished (TransferFailed e true)).
Proof.
  intros Hs Hn. destruct (refused_check tx from gas s Hs Hn) as (e & He). exists e.
  assert (Hrest : ∀ rest r, (∀ sa, sa ∈ rest → sa ∈ workerSteps tx to gas) →
            alone rest (s, Finished r) = (s, Finished r)).
  { induction rest as [|sa rest IH]; intros r Hin; [done|]. unfold alone. cbn [foldl fst snd].
    rewrite (finished_stays tx to gas) by (apply Hin; left). rewrite setLive_id.
    apply IH. intros sa' ?. apply Hin. by right. }
  unfold alone, workerSteps. rewrite (FromAddr_sender tx from Hs). cbn [foldl fst snd].
  rewrite He. cbn [fst snd]. rewrite setLive_id.
  apply (Hrest [(from, debit tx gas); (from, number); (to, loadRecipient tx to); (to, credit tx);
    (from, succeed tx gas)]). unfold workerSteps. rewrite (FromAddr_sender tx from Hs).
  intros sa ?. by right.
Qed.

(** ** A batch of one transfer *)

(** The transfer is handed out. *)
Record submitted (c : ParallelContext) (idx : nat) (tx : Transaction) (from to gas : Z) : Prop := {
  sub_tx : pc_txList c !! idx = Some tx;
  sub_sender : tx_sender tx = Some from;
  sub_to : tx_To tx = Some to;
  sub_popped : pc_packNewBlock c = true → from ∉ pc_popped c;
  sub_gas : IntrinsicGas (tx_Data tx) false = Ok (inr gas);
  sub_pool : 0 <= gas <= pc_gp c;
  sub_pool_max : pc_gp c <= MaxUint64;
}.

Lemma submit_one c idx tx from to gas :
  submitted c idx tx from to gas →
  submitAll [idx] c = (Ok [(idx, (tx, to, gas))], set_gp (pc_gp c - gas) c).
Proof.
  intros [Hx Hs Ht Hp Hg Hpool _]. cbn [submitAll]. unfold submit. run_eval. rewrite Hx.
  assert (pc_packNewBlock c && bool_decide (FromAddr tx ∈ pc_popped c) = false) as ->.
  { rewrite (FromAddr_sender tx from Hs). destruct (pc_packNewBlock c); [|done]. cbn.
    by apply bool_decide_false, Hp. }
  unfold ask. rewrite Hg, Ht. unfold SubGas. destruct (Z.ltb_spec (pc_gp c) gas); [lia|done].
Qed.

Lemma separate_one txs idx : separate txs [idx].
Proof.
  split; [apply NoDup_singleton|]. intros i j tx ty a ->%list_elem_of_singleton ->%list_elem_of_singleton. done.
Qed.

Lemma lone_batch sched c idx tx from to gas s1 r :
  fair sched → submitted c idx tx from to gas →
  alone (workerSteps tx to gas) (pc_state c, Started) = (s1, Finished r) →
  executeBatch sched [idx] c =
    mergeResult idx (set_results (<[idx := r]> (pc_results c)) (set_state s1 (set_gp (pc_gp c - gas) c))).
Proof.
  intros Hf Hs Ha. rewrite (executeBatch_fair (pc_txList c)); [|done|apply separate_one|done].
  unfold executeBatch. rewrite (bind_Ok_run _ _ _ _ _ (submit_one _ _ _ _ _ _ Hs)).
  unfold one_by_one. cbn [fmap list_fmap concat]. rewrite app_nil_r. unfold taskSteps.
  unfold runWorkers, batchMerge. cbn [for_each]. run_eval.
  rewrite (runSteps_alone idx) by done. rewrite lookup_empty. cbn [default from_option].
  change (pc_state (set_gp (pc_gp c - gas) c)) with (pc_state c).
  change (id Started) with Started. rewrite Ha. cbn [fst snd].
  rewrite insert_empty, map_fold_singleton.
  by destruct (mergeResult idx _) as [[[]| |] ?].
Qed.

(** A worker and the merge that follows. *)
Lemma transfer_run_any tx from to gas s :
  tx_sender tx = Some from → affordable tx from gas s → intact s from → intact s to →
  0 <= tx_Value tx → 0 <= balanceOf s to → 0 <= nonceOf s from < 2 ^ 64 - 1 →
  ∃ p q s1, alone (workerSteps tx to gas) (s, Started) =
      (s1, Finished (TransferSuccess p q gas (minerEarnings tx gas))) ∧
    moved tx from to gas s (Merge p q s1).
Proof.
  intros Hs Haff Hif Hit Hv Hb Hn. destruct (decide (from = to)) as [<-|Hne].
  - destruct (transfer_self tx from gas s) as (p & s1 & ? & ?); [done..|]. eauto.
  - destruct (transfer_other tx from to gas s) as (p & q & s1 & ? & ?); [done..|]. eauto.
Qed.

(** What stays as it is when a transfer is refused. *)
Definition untouched (c c' : ParallelContext) : Prop :=
  pc_state c' = pc_state c ∧ pc_gp c' = pc_gp c ∧ pc_packed c' = pc_packed c ∧
  pc_receipts c' = pc_receipts c ∧ pc_blockGasUsed c' = pc_blockGasUsed c ∧
  pc_earnings c' = pc_earnings c.

Lemma mergeResult_refused idx c c0 tx gas e s :
  pc_txList c !! idx = Some tx → IntrinsicGas (tx_Data tx) false = Ok (inr gas) →
  0 <= gas → c0 = set_results (<[idx := TransferFailed e true]> (pc_results c))
                    (set_state s (set_gp (pc_gp c - gas) c)) →
  pc_state c = s → pc_gp c <= MaxUint64 →
  ∃ c', mergeResult idx c0 = (Ok tt, c') ∧ untouched c c'.
Proof.
  intros Hx Hg Hpos -> <- Hmax. unfold mergeResult. run_eval.
  cbn [pc_results pc_txList pc_gp set_results set_state set_gp]. rewrite lookup_insert_eq, Hx.
  unfold ask. rewrite Hg. unfold AddGas.
  destruct (Z.ltb_spec (MaxUint64 - gas) (pc_gp c - gas)) as [|_]; [lia|].
  replace (pc_gp c - gas + gas) with (pc_gp c) by lia.
  destruct (popsAddress e); eexists; (split; [reflexivity|]); by repeat split.
Qed.

Lemma mergeResult_done idx c c0 tx gas p q s1 :
  pc_txList c !! idx = Some tx →
  c0 = set_results (<[idx := TransferSuccess p q gas (minerEarnings tx gas)]> (pc_results c))
         (set_state s1 (set_gp (pc_gp c - gas) c)) →
  let used := u64 (pc_blockGasUsed c + gas) in
  ∃ c', mergeResult idx c0 = (Ok tt, c') ∧ pc_state c' = IncreaseTxIdx (Merge p q s1) ∧
    pc_gp c' = pc_gp c - gas ∧ pc_packed c' = pc_packed c ++ [tx] ∧
    pc_receipts c' = pc_receipts c ++ [transferReceipt tx gas used] ∧
    pc_blockGasUsed c' = used ∧ pc_earnings c' = pc_earnings c + minerEarnings tx gas.
Proof.
  intros Hx ->. cbv zeta. unfold mergeResult. run_eval.
  cbn [pc_results pc_txList set_results set_state set_gp]. rewrite lookup_insert_eq, Hx.
  eexists. split; [reflexivity|]. by repeat split.
Qed.

End transfer_theorem.

(** ** A run *)

Module ParallelRun.

Import TransitionRun.
#[local] Existing Instance TransitionRun.hashing.
#[local] Existing Instance TransitionRun.machine.

(** A scheduler that starts with the last worker. *)
Definition last_first : scheduler := λ ls, concat (reverse ls).

Lemma interleaving_drain {A} (ls : list (list A)) i l r :
  ls !! i = Some l → interleaving (<[i := []]> ls) r → interleaving ls (l ++ r).
Proof.
  revert ls. induction l as [|x l IH]; intros ls Hi Hr; [by rewrite list_insert_id in Hr|].
  cbn. eapply interleaving_cons; [done|]. apply IH.
  - apply list_lookup_insert_eq. by eapply lookup_lt_Some.
  - by rewrite list_insert_insert_eq.
Qed.

Lemma last_first_fair : fair last_first.
Proof.
  intros ls. unfold last_first.
  assert (Hk : ∀ k, interleaving (ls ++ replicate k []) (concat (reverse ls))).
  { induction ls as [|l ls IH] using rev_ind; intros k.
    { cbn. constructor. apply Forall_replicate. done. }
    rewrite reverse_snoc. cbn [concat]. eapply (interleaving_drain _ (length ls)).
    - rewrite <- app_assoc, lookup_app_r, Nat.sub_diag by done. done.
    - rewrite <- app_assoc, insert_app_r_alt, Nat.sub_diag by done. cbn. apply (IH (S k)). }
  specialize (Hk 0%nat). cbn in Hk. by rewrite app_nil_r in Hk.
Qed.

(** Three transfers, the last of which goes back, and a call. *)
Definition transaction (from to value nonce hash : Z) : Transaction :=
  mkTx [hash] (Some from) nonce 2 60000 (Some to) value [].

Definition block : list Transaction :=
  [transaction 0xa 0xb 10 3 1; transaction 0xd 0xd 7 0 2; transaction 0xa 0xc 5 4 3;
   transaction 0xa 0xd 1 5 4].

Definition context : ParallelContext :=
  NewParallelContext world (mkHeader 8 0xe 200000) [9] 200000 false ∅ block.

Lemma block_resolved : resolved (pc_txList context).
Proof. by repeat constructor. Qed.

Definition outcome_of (scheds : nat → scheduler) : list Z * list (list Z * Z) * Z :=
  let c := snd (ExecuteTransactions scheds context) in
  (balanceOf (pc_state c) <$> [0xa; 0xb; 0xc; 0xd; 0xe],
   (λ r, (r_TxHash r, r_CumulativeGasUsed r)) <$> sortReceipts block (pc_receipts c), pc_gp c).

(** The first two transactions are executed together, the call by itself and
    the last one after it; the second one is refused. *)
Example block_batches :
  (λ g, batches 4 (td_dag g)) <$> (match fst (MakeDagGraph context) with Ok g => Some g | _ => None end)
    = Some [[0; 1]; [2]; [3]]%nat.
Proof. vm_compute. reflexivity. Qed.

Example block_outcome :
  outcome_of (λ _, last_first) =
    ([835064; 10; 10; 1; 164920], [([1], 21000); ([3], 61460); ([4], 82460)], 117540).
Proof. vm_compute. reflexivity. Qed.

Lemma batches_schedule_witness :
  ∃ g c', MakeDagGraph context = (Ok g, c') ∧
    let bs := batches 4 (td_dag g) in
    concat bs ≡ₚ [0; 1; 2; 3]%nat ∧
    (∀ i j tx ty, block !! i = Some tx → block !! j = Some ty → (i < j)%nat →
       conflict g i j tx ty →
       ∃ k l bi bj, bs !! k = Some bi ∧ bs !! l = Some bj ∧ i ∈ bi ∧ j ∈ bj ∧ (k < l)%nat) ∧
    (∀ i b, b ∈ bs → i ∈ b → IsContract g i = true → b = [i]).
Proof. apply (batches_schedule context block_resolved). reflexivity. Defined.

Lemma ExecuteTransactions_deterministic_witness :
  ExecuteTransactions (λ _, last_first) context = ExecuteTransactions (λ _, one_by_one) context.
Proof.
  apply (ExecuteTransactions_deterministic (λ _, last_first) context).
  - intros n. exact last_first_fair.
  - exact block_resolved.
Defined.

Lemma first_submitted : submitted context 0 (transaction 0xa 0xb 10 3 1) 0xa 0xb 21000.
Proof. by split. Qed.

Lemma absent_intact a o :
  view (GetOrNewParallelStateObject a (cellAt world a)) world = Some o → so_suicided o = false.
Proof.
  unfold GetOrNewParallelStateObject, cellAt, view, deref. cbn [c_live c_parent c_trie].
  change (sd_objects world !! a) with (@None stateObject).
  change (parentObject world a) with (@None stateObject).
  destruct (sd_trie world !! a); by intros [= <-].
Qed.

End ParallelRun.
